(* ===== verification/_CoqProject ===== *)
-Q . S2P
Prelude.v
PyValues.v
Json.v
FileSystem.v
FileLogic.v
DeliveryLedger.v
DeliverySpec.v
OutboundLedger.v
Mailbox.v
MailboxReads.v
MailboxSpec.v
MailboxWakes.v
TurnQueue.v
TurnQueueSpec.v
TurnQueueMoves.v
Exchanges.v
ExchangeWf.v
ExchangeSteps.v
ExchangeSpec.v
Envelopes.v
EnvelopeSteps.v
EnvelopeSpec.v
Delivery.v
Activation.v
ActivationJson.v
ActivationOps.v
ActivationReplace.v
ActivationState.v
ActivationViews.v
ActivationJournal.v
ActivationPlaces.v
ActivationSteps.v
ActivationRules.v
ActivationMoves.v
ActivationActivate.v
ActivationRestore.v
ActivationRecord.v
ActivationExample.v
ActivationPhases.v
ActivationSafe.v
JobRules.v
Jobs.v
JobSpec.v
JobRuns.v
JobOnce.v
JobStops.v
JobSafe.v
HubTokens.v
Transactions.v
HubTables.v
HubAuth.v
HubServers.v
HubSessions.v
HubAdmin.v
HubChanges.v
HubSteps.v
HubAdminSteps.v
HubOrder.v
HubSessionsWf.v
HubRuns.v
HubSessionEnds.v
HubMembers.v
HubLedger.v
HubAccess.v
HubSafe.v
TeamText.v
TeamTables.v
TeamAccess.v
TeamSend.v
TeamMail.v
TeamChanges.v
TeamSteps.v
TeamState.v
TeamRuns.v
TeamOnce.v
TeamPages.v
TeamSafe.v
TeamWitness.v
