(* ===== verification/Prelude.v ===== *)
(** * AgentsServer: a verification library

    AgentsServer runs coding agents for a user: each chat has a queue of turns
    and scheduled jobs, chats send each other messages and questions, servers
    exchange messages through secure peers, a team hub keeps the accounts of
    the people and servers that work together, and an installer replaces the
    running release.  What must survive a crash lives in SQLite ledgers,
    append-only journals and files that are replaced at once.  This library
    models those parts method by method, and proves what the rest of the server
    relies on: nothing is delivered or started twice, nothing accepted is lost,
    what has ended stays ended, and an interrupted installation can be finished
    or undone.

    ** Parts and files

    - [Prelude], [PyValues], [Json]: exceptions as values ([res]), SQL
      statements on tables as maps ([update_row], [select_ordered], ...),
      transition systems ([reachable], [steps]); Python values, [str], [int],
      strings; [json.dumps] and [json.loads], canonical JSON
      ([agentsdock_team_hub/security.py], [canonical_json]).
    - [DeliveryLedger], [DeliverySpec], [OutboundLedger]: the two tables of
      [secure_peer_delivery.py].  Messages that arrive from peers are prepared,
      authorized, owned by one queue row and one run, and finished; messages to
      peers are kept until the hub answered.
    - [Mailbox], [MailboxReads], [MailboxSpec], [MailboxWakes]:
      [chat_mailbox.py].  Messages that wait for their
      recipient, read in bounded pages; wake attempts for idle recipients.
    - [TurnQueue], [TurnQueueSpec], [TurnQueueMoves]: the queue of a chat in
      [agent_server.py] ([enqueue_turn], [unqueue_turn], [move_queued_turn],
      [pause_queued_turns_after_explicit_stop], promotion and requeue) and
      [scan_queued_turns_from_events], which rebuilds it from the journal.
    - [Exchanges], [ExchangeWf], [ExchangeSteps], [ExchangeSpec]: the part of
      [CrossChatStore] on exchanges and their legs: questions and answers
      between two chats within a budget.
    - [Envelopes], [EnvelopeSteps], [EnvelopeSpec]: the part of
      [CrossChatStore] on direct messages, with the mailbox inside it.
    - [Delivery]: the interface through which queue and launch reach a delivery
      in either ledger ([update_cross_chat_delivery_record],
      [admit_cross_chat_delivery_run]) as a type class with its laws, instances
      for both ledgers and for the two together, and the launch proved against
      the class.
    - [FileSystem], [FileLogic]: a file system whose calls can fail or end the
      process, and a logic of programs on it with a condition for interruption.
    - [Activation] (manifest, [_read_manifest]), [ActivationOps] (the commands),
      [ActivationJson] (its text and back),
      [ActivationReplace], [ActivationJournal], [ActivationState],
      [ActivationViews], [ActivationPlaces], [ActivationRules],
      [ActivationSteps], [ActivationMoves], [ActivationActivate],
      [ActivationRestore], [ActivationRecord] (the proof, operation by
      operation), [ActivationExample], [ActivationPhases],
      [ActivationSafe] (the guarantees): [activation_transaction.py], the
      journal of an installation.
    - [JobRules] (schedules, [next_job_occurrence]), [Jobs] ([JobStore] and
      [durable_scheduled_job_admissions]), [JobRuns] (the scheduler, requests
      and restarts as steps), [JobSpec], [JobOnce],
      [JobStops] (lemmas and invariants), [JobSafe] (the
      guarantees): the scheduled jobs of [agent_server.py].
    - [HubTokens] (access tokens, secrets and digests: [security.py]),
      [Transactions] (SQL on text, transactions on tables), [HubTables] (the
      tables of the accounts, their constraints and triggers: [migrations/]),
      [HubAuth] ([_audit], [auth.py]), [HubServers] (the host, peers, nodes, the bulletin
      board), [HubSessions] (sessions, [refresh], logout), [HubAdmin] (first
      owner, invitations, members, recovery, opening the store): the accounts
      of [HubStore] in [agentsdock_team_hub/store.py].
    - [HubChanges] is its abstract specification: the changes that a
      transaction may make, a row at a time; [HubSteps],
      [HubAdminSteps] show that the methods make no other; [HubOrder] that no
      change takes back what was done; [HubRuns] lists the calls and defines the
      reachable hubs.  [HubSessionsWf], [HubSessionEnds],
      [HubMembers], [HubLedger] and [HubAccess] prove the guarantees from
      these, [HubSafe] tries them on a concrete team.
    - [TeamText] (what a request may contain), [TeamTables] (the tables of the
      mail with their constraints and triggers: [0009_team_messages.sql] and
      later migrations), [TeamAccess] (who calls, for which address; keys of
      retried requests; rate limits; what a reader is shown),
      [TeamSend] ([create_team_message]), [TeamMail] ([list_team_messages],
      [get_team_message], [revise_team_message], [delete_team_message],
      [set_team_message_mailbox_state], dismissal, receipts, arrivals): the
      mail between members and servers of a team, in the same [HubStore]
      and partly in [agentsdock_team_hub/mail_hints.py].
    - [TeamChanges] is its abstract specification: the changes a transaction
      may make to the mail, a row at a time, and the order in which rows only
      go forward; [TeamSteps] shows that the methods make no other;
      [TeamState] keeps an invariant along them; [TeamRuns] lists the calls and
      defines the reachable states.  [TeamOnce], [TeamPages] and [TeamSafe]
      prove the guarantees, [TeamWitness] tries them on a team
      with a post, a revision, a receipt and a deletion.

    Components meet in four places.  The envelope ledger runs the mailbox's
    functions on its own table in one transaction: [mail_db] is what the
    mailbox sees, and every step of the ledger is a run of the mailbox.  The
    queue and the launch use the ledgers through [DeliveryRecords].  The queue
    journal is the log that [scan_queued_turns] reads back, and the restart of
    the scheduler reads the [turn_started] events of the runs it started.  The
    mail runs in the transactions of the hub: the state [post] holds the tables
    of the accounts beside its own, a call of the mail first asks for the live
    session of its caller and may add an audit event, and any call of [HubRuns]
    may happen in between ([mail_step]).

    ** How code is modelled

    A method is one transaction: a function of the tables and its arguments
    that returns the new tables and its result, or raises and leaves the tables
    as they were; where the code leaves memory and disk apart ([JobStore]), both
    are in the state and whether the write succeeded is an argument.  A table
    is a [gmap] from its primary key; [CHECK] and [UNIQUE] constraints are tests
    that raise [IntegrityError].  Python's [str], [int], [dict] order,
    [json.dumps] and the 64-bit range of SQLite integers are written out.  The
    clock, random ids, [sha256] and the id of the server process are arguments
    or section variables, as are croniter, dateutil and the time zones
    ([JobHost]); nothing is assumed of them that a theorem does not name.  For
    each ledger an inductive type lists its operations and a step relation
    applies one; where the server passes only some arguments ([op_used],
    [eop_used], [op_fresh]), the relation says which, from the call sites.
    Characters are code points below 256.  A time of a job is a number of ticks
    of 2^-22 seconds.

    A method of the hub is a program of the transaction monad [tx]: it reads,
    inserts and updates through the constraints, each of which can raise
    [IntegrityError]; an exception undoes everything, except in [refresh],
    which commits before it raises.  SHA-256, HMAC and what
    [json.loads] makes of bytes in UTF-16 or UTF-32 are the operations of
    [HubCrypto]; uniqueness of random ids and secrets is never assumed, because
    the primary keys and [UNIQUE] constraints see to it.  What other methods do
    to the same tables (enrolment of nodes, channels, snapshots, other audit
    events) are steps of the environment ([elsewhere]).  The witnesses replace
    the digests by polynomials in the bytes, of 32 bytes as the tables require.

    Loops are structural recursions or folds over lists.  Fuel is used where
    the code itself counts: 10000 candidates of a calendar schedule, 20000 of a
    counted rule; with it used up the model does what the code does.  The search
    for a free name of a board ([free_suffix]) has as many tries as there are
    names taken, which is enough to find one ([board_slug_free]).  Following
    the pages of a mailbox ([follow]) takes as much fuel as there are messages
    and one more, which is proved to be enough ([inbox_complete]).  The JSON
    parser has twice the length of its text as fuel; each call takes a
    character, and what is written is proved to be read back with it.

    A program of the installer runs in a world with a script: before each call
    that changes the file system the next entry says whether the call is made,
    fails with [OSError], or the process is killed.  A rename, a link and an
    unlink happen at once; a write is a sequence of writes that may stop after
    any byte; a temporary has the name that [secrets] gave it.  No directory on
    the way to a path is a symbolic link, and nobody else writes in between.

    ** What is proved

    - Interruptions: [activation_survives], [activation_undone] (any number of
      runs killed or failing anywhere; a rollback from any phase before the
      commit), [transaction_advances],
      [transaction_reads_back], [read_manifest_typed].
    - Scheduling: [occurrence_started_once] (across crashes and what users do,
      under the conditions of [calm]), [missed_runs_are_skipped],
      [manual_run_is_additive], [next_occurrence_exact],
      [archived_jobs_stay_stopped], [accepted_rules].
    - Accounts: [refresh_once], [revoked_session_dead], [logout_ends_session],
      [recovery_replaces_sessions] (sessions end and stay ended),
      [members_were_invited], [invitation_once], [teams_have_one_owner],
      [removal_final] (who is in a team), [ledger_is_chain], [tampering_shows]
      (the audit ledger), [access_token_roundtrip], [access_token_sound].
    - Team mail: [coverage_sound], [inbox_complete], [watermarks_exact] (a
      server that reads page by page misses nothing), [mail_call_once],
      [mailbox_state_once] (a retry changes nothing), [mail_stays_private],
      [only_poster_revises], [deleted_mail_gone].
    - Invariants of every reachable state: [ledger_reachable_wf],
      [mailbox_reachable_wf], [wakes_reachable], [exchange_reachable_wf],
      [jobs_reachable_wf].
    - Refinement of an abstract specification: [ledger_refines_spec] (a machine
      per delivery), [exchange_refines_dialogue] (two chats in turn),
      [stored_mail_is_served] (the mailbox inside the envelope ledger),
      [calls_refine_changes] (the methods of the hub and the allowed changes),
      [mail_refines_changes] (the same for the mail).
    - At most once: [one_run_per_delivery], [read_once], [response_once],
      [message_sent_once], [delivery_launch_exclusive], [response_intent_unique],
      [outbound_identity].
    - Nothing lost: [replay_keeps_rows], [replay_rebuilds] (the rows that no
      run was admitted for),
      [list_messages_complete], [question_can_be_answered],
      [pending_admissions_exact], [outbound_scan_exact].
    - What ended stays ended: [run_preserves_rows], [outbound_answer_final],
      [cancelled_exchange_silent], [envelope_advances], [left_rows_stay_out],
      [held_rows_are_not_started], [cancel_or_read],
      [suppressed_mail_never_wakes], [admitted_wakes_advance].
    - Behaviour that is not meant: [relative_link_gets_stuck] (an interrupted
      reinstallation over a relative link), [reorder_during_start_replays_last]
      (a reorder during a start is replayed differently),
      [failed_start_not_replayed] (a message requeued after its [turn_started]
      event is lost by a restart),
      [stranded_job_runs_forever] (a job whose next occurrence cannot be
      computed), [retitled_job_runs_twice] (an edit and a crash during a run),
      [clock_behind_spares_replay] (a stolen session survives while the clock is
      behind the audit ledger).
    - Behaviour of single operations on every branch, and bounds: the rest.

    ** Not modelled

    The SQLite connection, threads and the event loop: a transaction is atomic,
    and interleavings are sequences of transactions.  [ALTER TABLE] migrations
    and the migrations of older job registries.  Which chat may address which is
    decided by code outside the ledgers and enters as an argument; so do the
    checks of the chats and teams that the prompt of a job addresses, and
    [parse_job_timestamp].  [start_turn], by which the scheduler runs a job, is
    the event it writes and whether it raises, before the event or after it.  Of the
    installer: the argument parser, printing, and copies of the configuration
    that an interrupted restore leaves under names of its own.  Of the hub:
    proof files on disk, the row [hub_metadata], the pages of members, devices
    and invitations, the claims made for the host and its peers, enrolment of
    nodes, channels, snapshots and the protocol on the wire.  Of the team mail:
    full-text search ([q]), the text of [since] (the time it stands for is an
    argument), reads of threads and of the list of revisions, the journal of
    deletions, uploads and the bytes of attachments, skills flagged and
    deleted apart from their messages, and the hints sent to waiting servers
    after a commit.  The ellipsis of a preview is written as three full stops,
    because characters are code points below 256.  Provider clients,
    projections for clients, downloads and command-line helpers are not
    modelled; they are glue around external programs.

    ** Plan

    Threads and lists of revisions of the team mail, its hints; editing and
    Force Send of queued turns; route authorization of chats. *)
From stdpp Require Export base tactics gmap strings list sorting pretty.
From Stdlib Require Export ZArith Lia.
From coqutil Require Export Datatypes.RecordSetters.
Export DoubleBraceUpdate.

#[global] Arguments constant {E} newValue _ /.

(** ** Python exceptions as values *)

(** The exception classes the modelled code raises.  The message is kept,
    because the callers report it. *)
Inductive exn :=
| ValueError (msg : string)
| TypeError (msg : string)
| RuntimeError (msg : string)
| OverflowError (msg : string)
| IntegrityError (msg : string)
| Conflict (msg : string)
| AssertionError
| HTTPError (status : Z) (detail : string)
| JSONDecodeError
| FileNotFoundError
| FileExistsError
| PermissionError (msg : string)
| OSError
| TokenError
| AuthenticationError (msg : string)
| AuthorizationError (msg : string)
| HubError (code message : string) (status : Z)
| Killed.  (* the process was killed: no handler runs *)

(** A computation of the code: a value or the exception it raised. *)
Inductive res (A : Type) :=
| Ok (a : A)
| Err (e : exn).
Arguments Ok {A} a.
Arguments Err {A} e.

#[global] Instance exn_eq_dec : EqDecision exn.
Proof. solve_decision. Defined.
#[global] Instance res_eq_dec {A} `{EqDecision A} : EqDecision (res A).
Proof. solve_decision. Defined.

#[global] Instance res_ret : MRet res := λ A a, Ok a.
#[global] Instance res_bind : MBind res := λ A B f r,
  match r with Ok a => f a | Err e => Err e end.
#[global] Instance res_fmap : FMap res := λ A B f r,
  match r with Ok a => Ok (f a) | Err e => Err e end.

(** [raise_if b e]: the guard [if b: raise e]. *)
Definition raise_if (b : bool) (e : exn) : res unit := if b then Err e else Ok tt.

Lemma res_bind_Ok {A B} (f : A → res B) (r : res A) (b : B) :
  (r ≫= f) = Ok b ↔ ∃ a, r = Ok a ∧ f a = Ok b.
Proof. destruct r; cbn; naive_solver. Qed.

Lemma Ok_inj {A} (x y : A) : Ok x = Ok y → x = y.
Proof. by inversion 1. Qed.

Lemma res_bind_ret {A B} (a : A) (f : A → res B) : (Ok a ≫= f) = f a.
Proof. done. Qed.

Lemma raise_if_Ok b e u : raise_if b e = Ok u ↔ b = false.
Proof. destruct u, b; cbn; naive_solver. Qed.

Lemma bool_decide_eq_false_neg (P : Prop) `{Decision P} :
  bool_decide P = false ↔ ¬ P.
Proof. apply bool_decide_eq_false. Qed.

Lemma bool_decide_cons {A} `{EqDecision A} (x a : A) (l : list A) :
  bool_decide (x ∈ a :: l) = bool_decide (x = a) || bool_decide (x ∈ l).
Proof. rewrite <-bool_decide_or. apply bool_decide_ext, elem_of_cons. Qed.

(** [inv_res] turns a successful run of a monadic definition into the
    successful runs of its parts. *)
Ltac inv_res :=
  repeat match goal with
  | H : (_ ≫= _) = Ok _ |- _ =>
      apply res_bind_Ok in H; destruct H as (? & ? & H)
  | H : raise_if _ _ = Ok _ |- _ => apply raise_if_Ok in H
  | H : Err _ = Ok _ |- _ => discriminate H
  | H : Ok _ = Ok _ |- _ => injection H as H; try subst
  | H : @mret res _ _ _ = Ok _ |- _ => cbn in H
  end.

(** ** Strings *)

Lemma sapp_cons c (a b : string) : String c a +:+ b = String c (a +:+ b).
Proof. done. Qed.

Lemma sapp_nil_l (a : string) : "" +:+ a = a.
Proof. done. Qed.

Lemma sapp_assoc (a b c : string) : (a +:+ b) +:+ c = a +:+ (b +:+ c).
Proof. induction a as [|x a IH]; [done|]. by rewrite !sapp_cons, IH. Qed.

Lemma sapp_nil_r (a : string) : a +:+ "" = a.
Proof. induction a as [|x a IH]; [done|]. by rewrite sapp_cons, IH. Qed.

Lemma slength_app (a b : string) :
  String.length (a +:+ b) = String.length a + String.length b.
Proof.
  induction a as [|x a IH]; [done|]. rewrite sapp_cons. cbn [String.length]. lia.
Qed.

Lemma sapp_cancel_l (a b c : string) : a +:+ b = a +:+ c → b = c.
Proof. induction a as [|x a IH]; [done|]. rewrite !sapp_cons. naive_solver. Qed.

(** Normal form of concatenations: associated to the right. *)
Create HintDb string_norm.
#[export] Hint Rewrite sapp_assoc sapp_cons sapp_nil_l sapp_nil_r : string_norm.
Ltac snorm := autorewrite with string_norm.
Tactic Notation "snorm" "in" hyp(H) := autorewrite with string_norm in H.

(** ** SQLite tables

    A table with a primary key is a [gmap] from the key to the row.  These are
    the statements the modelled code sends. *)
Section sql.
Context {K A : Type} `{Countable K}.
Implicit Types (m : gmap K A) (P : A → bool) (f : A → A).

(** [UPDATE t SET f WHERE key=k AND P] *)
Definition update_row (k : K) P f m : gmap K A :=
  match m !! k with
  | Some r => if P r then <[k := f r]> m else m
  | None => m
  end.

(** Its [rowcount] is 1. *)
Definition row_matches (k : K) P m : bool :=
  match m !! k with Some r => P r | None => false end.

(** [UPDATE t SET f WHERE P] *)
Definition update_where P f m : gmap K A := (λ r, if P r then f r else r) <$> m.

(** [SELECT COUNT( * ) FROM t WHERE P] *)
Definition count_where P m : nat := size (filter (λ kr, P kr.2 = true) m).

(** [DELETE FROM t WHERE P] *)
Definition delete_where P m : gmap K A := filter (λ kr, P kr.2 = false) m.

(** [SELECT * FROM t WHERE P], in no particular order. *)
Definition select_where P m : list A :=
  filter (λ r, P r = true) (map_to_list m).*2.

(** [SELECT * FROM t WHERE P ORDER BY R] *)
Definition select_ordered P (R : relation A) `{!RelDecision R} m : list A :=
  merge_sort R (select_where P m).

(** [SELECT * FROM t WHERE P], its first row. *)
Definition select_one P m : option A := head (select_where P m).

(** Whether some row with another key satisfies [P]: the test behind a
    [UNIQUE] index. *)
Definition other_row (k : K) P m : bool :=
  existsb (λ kr, bool_decide (kr.1 ≠ k) && P kr.2) (map_to_list m).

Lemma update_row_lookup k P f m j :
  update_row k P f m !! j =
    if decide (j = k) then (λ r, if P r then f r else r) <$> m !! j else m !! j.
Proof.
  unfold update_row. destruct (decide (j = k)) as [->|Hj].
  - destruct (m !! k) as [r|] eqn:E; cbn; [|done].
    destruct (P r); [by rewrite lookup_insert_eq|done].
  - destruct (m !! k) as [r|]; [|done]. destruct (P r); [|done].
    by rewrite lookup_insert_ne.
Qed.

Lemma update_row_None k P f m j : update_row k P f m !! j = None ↔ m !! j = None.
Proof. rewrite update_row_lookup. case_decide; [|done]. by rewrite fmap_None. Qed.

Lemma update_row_id k P f m : row_matches k P m = false → update_row k P f m = m.
Proof.
  unfold row_matches, update_row. destruct (m !! k) as [r|]; [|done]. by intros ->.
Qed.

Lemma update_where_lookup P f m j :
  update_where P f m !! j = (λ r, if P r then f r else r) <$> m !! j.
Proof. apply lookup_fmap. Qed.

Lemma delete_where_lookup P m j r :
  delete_where P m !! j = Some r ↔ m !! j = Some r ∧ P r = false.
Proof. apply map_lookup_filter_Some. Qed.

Lemma elem_of_select_where P m r :
  r ∈ select_where P m ↔ P r = true ∧ ∃ k, m !! k = Some r.
Proof.
  unfold select_where. rewrite list_elem_of_filter, list_elem_of_fmap.
  apply and_iff_compat_l. split.
  - intros ([k r'] & -> & Hk). exists k. by apply elem_of_map_to_list.
  - intros [k Hk]. exists (k, r). split; [done|]. by apply elem_of_map_to_list.
Qed.

Lemma select_one_Some P m r :
  select_one P m = Some r → P r = true ∧ ∃ k, m !! k = Some r.
Proof.
  unfold select_one. intros Hr. apply elem_of_select_where.
  destruct (select_where P m) as [|x l]; [done|]. injection Hr as ->. left.
Qed.

Lemma select_one_None P m :
  select_one P m = None ↔ ∀ k r, m !! k = Some r → P r = false.
Proof.
  unfold select_one. split.
  - intros Hn k r Hk. destruct (P r) eqn:HP; [|done].
    assert (r ∈ select_where P m) as Hr by (apply elem_of_select_where; eauto).
    destruct (select_where P m); [by apply elem_of_nil in Hr|done].
  - intros Hall. destruct (select_where P m) as [|x l] eqn:E; [done|].
    assert (x ∈ select_where P m) as Hx by (rewrite E; left).
    apply elem_of_select_where in Hx as (HP & k & Hk). by rewrite (Hall k x Hk) in HP.
Qed.

Lemma other_row_false k P m :
  other_row k P m = false ↔ ∀ j r, m !! j = Some r → j ≠ k → P r = false.
Proof.
  unfold other_row. rewrite <-not_true_iff_false, existsb_exists. split.
  - intros Hn j r Hj Hne. apply not_true_iff_false. intros Hp. apply Hn.
    exists (j, r). split.
    + apply list_elem_of_In. by apply elem_of_map_to_list.
    + cbn. rewrite bool_decide_true by done. done.
  - intros Hall ([j r] & Hin & Hp). apply list_elem_of_In, elem_of_map_to_list in Hin.
    cbn in Hp. apply andb_true_iff in Hp as [Hne%bool_decide_eq_true Hp].
    rewrite (Hall _ _ Hin Hne) in Hp. done.
Qed.

Lemma count_where_mono P Q m m' :
  (∀ k r', m' !! k = Some r' → Q r' = true → ∃ r, m !! k = Some r ∧ P r = true) →
  count_where Q m' ≤ count_where P m.
Proof.
  intros Hsub. unfold count_where. rewrite <-!size_dom. apply subseteq_size.
  intros k (r' & Hr')%elem_of_dom. apply map_lookup_filter_Some in Hr' as [Hk HQ].
  destruct (Hsub _ _ Hk HQ) as (r & Hr & HP).
  apply elem_of_dom. exists r. by apply map_lookup_filter_Some.
Qed.

Lemma count_where_insert_new P k r m :
  m !! k = None → count_where P (<[k := r]> m) = (if P r then 1 else 0) + count_where P m.
Proof.
  intros Hk. unfold count_where. rewrite map_filter_insert. case_decide as HP; cbn in HP.
  - rewrite HP, map_size_insert_None; [done|]. apply map_lookup_filter_None. by left.
  - destruct (P r); [done|]. rewrite map_filter_delete, delete_id; [done|].
    apply map_lookup_filter_None. by left.
Qed.
End sql.

Lemma select_ordered_ext {K A} `{Countable K} (P Q : A → bool) (R : relation A)
    `{!RelDecision R} (m : gmap K A) :
  (∀ r, P r = Q r) → select_ordered P R m = select_ordered Q R m.
Proof.
  intros Hpq. unfold select_ordered, select_where. f_equal.
  apply list_filter_iff. intros r. by rewrite Hpq.
Qed.

(** Sorted selections: the rows, in order, each once. *)
Lemma select_ordered_spec {K A} `{Countable K} (P : A → bool) (R : relation A)
    `{!RelDecision R} `{!Transitive R} `{!Total R} (m : gmap K A) :
  (∀ r, r ∈ select_ordered P R m ↔ P r = true ∧ ∃ k, m !! k = Some r) ∧
  StronglySorted R (select_ordered P R m).
Proof.
  split.
  - intros r. unfold select_ordered. rewrite merge_sort_Permutation.
    apply elem_of_select_where.
  - by apply StronglySorted_merge_sort.
Qed.

(** [ORDER BY ... LIMIT n]: [l] holds the first [n] of the rows that satisfy
    [P], in order. *)
Record first_rows {K A} `{Countable K} (P : A → bool) (R : relation A) (n : nat)
    (m : gmap K A) (l : list A) : Prop := {
  first_sound : ∀ r, r ∈ l → P r = true ∧ ∃ k, m !! k = Some r;
  first_sorted : StronglySorted R l;
  first_length : (length l ≤ n)%nat;
  first_complete : ∀ k r, m !! k = Some r → P r = true → r ∉ l →
    length l = n ∧ ∀ x, x ∈ l → R x r;
}.

Lemma StronglySorted_app_le {A} (R : relation A) l k x y :
  StronglySorted R (l ++ k) → x ∈ l → y ∈ k → R x y.
Proof.
  induction l as [|z l IH]; cbn; intros Hs Hx Hy; [by apply elem_of_nil in Hx|].
  apply StronglySorted_cons in Hs as [Hz Hs]. apply elem_of_cons in Hx as [->|Hx]; [|by auto].
  rewrite Forall_forall in Hz. apply Hz, elem_of_app. by right.
Qed.

Lemma StronglySorted_app_l {A} (R : relation A) l k :
  StronglySorted R (l ++ k) → StronglySorted R l.
Proof.
  induction l as [|z l IH]; cbn; [constructor|]. intros [Hz Hs]%StronglySorted_cons.
  constructor; [by apply IH|]. rewrite Forall_forall in *. intros y Hy.
  apply Hz, elem_of_app. by left.
Qed.

Lemma take_first_rows {K A} `{Countable K} (P : A → bool) (R : relation A) `{!RelDecision R}
    `{!Transitive R} `{!Total R} (n : nat) (m : gmap K A) :
  first_rows P R n m (take n (select_ordered P R m)).
Proof.
  destruct (select_ordered_spec P R m) as [Hin Hs].
  rewrite <-(take_drop n (select_ordered P R m)) in Hs. split.
  - intros r Hr. apply Hin. rewrite <-(take_drop n (select_ordered P R m)).
    apply elem_of_app. by left.
  - by apply StronglySorted_app_l in Hs.
  - rewrite length_take. lia.
  - intros k r Hk HP Hout. assert (r ∈ select_ordered P R m) as Hr by (apply Hin; eauto).
    rewrite <-(take_drop n (select_ordered P R m)) in Hr.
    apply elem_of_app in Hr as [Hr|Hr]; [done|]. split.
    + rewrite length_take. apply list_elem_of_In, in_split in Hr as (l1 & l2 & E).
      apply (f_equal length) in E. rewrite length_drop, length_app in E. cbn in E. lia.
    + intros x Hx. by eapply StronglySorted_app_le.
Qed.

(** Lexicographic order on an integer and a string, the [ORDER BY] of the
    ledgers. *)
Definition int_str_le (x y : Z * string) : Prop :=
  (x.1 < y.1)%Z ∨ x.1 = y.1 ∧ String.le x.2 y.2.
#[global] Instance int_str_le_dec : RelDecision int_str_le.
Proof. intros x y. unfold int_str_le. apply _. Defined.
#[global] Instance int_str_le_trans : Transitive int_str_le.
Proof.
  intros [a s] [b t] [c u]. unfold int_str_le; cbn.
  intros [Hab|[Hab Hst]] [Hbc|[Hbc Htu]]; [left; lia..|].
  right. split; [lia|]. by etrans.
Qed.
#[global] Instance int_str_le_total : Total int_str_le.
Proof.
  intros [a s] [b t]. unfold int_str_le; cbn.
  destruct (Z.lt_trichotomy a b) as [?|[->|?]]; [auto| |auto].
  destruct (total String.le s t); auto.
Qed.

(** An order on a column of the rows. *)
Definition by_key {A B} (f : A → B) (R : relation B) : relation A := λ x y, R (f x) (f y).
#[global] Instance by_key_dec {A B} (f : A → B) R `{!RelDecision R} : RelDecision (by_key f R).
Proof. intros x y. unfold by_key. apply _. Defined.
#[global] Instance by_key_trans {A B} (f : A → B) R `{!Transitive R} : Transitive (by_key f R).
Proof. intros x y z. unfold by_key. apply transitivity. Qed.
#[global] Instance by_key_total {A B} (f : A → B) R `{!Total R} : Total (by_key f R).
Proof. intros x y. unfold by_key. apply total, _. Qed.

(** The same with an integer in front. *)
Definition int_int_str_le (x y : Z * (Z * string)) : Prop :=
  (x.1 < y.1)%Z ∨ x.1 = y.1 ∧ int_str_le x.2 y.2.
#[global] Instance int_int_str_le_dec : RelDecision int_int_str_le.
Proof. intros x y. unfold int_int_str_le. apply _. Defined.
#[global] Instance int_int_str_le_trans : Transitive int_int_str_le.
Proof.
  intros [a s] [b t] [c u]. unfold int_int_str_le; cbn.
  intros [Hab|[Hab Hst]] [Hbc|[Hbc Htu]]; [left; lia..|].
  right. split; [lia|]. by etrans.
Qed.
#[global] Instance int_int_str_le_total : Total int_int_str_le.
Proof.
  intros [a s] [b t]. unfold int_int_str_le; cbn.
  destruct (Z.lt_trichotomy a b) as [?|[->|?]]; [auto| |auto].
  destruct (total int_str_le s t); auto.
Qed.

(** ** Tables related row by row *)

Lemma forall2_fwd {A} (R : relation A) o o' x :
  option_Forall2 R o o' → o = Some x → ∃ y, o' = Some y ∧ R x y.
Proof. destruct 1; naive_solver. Qed.

Lemma forall2_bwd {A} (R : relation A) o o' y :
  option_Forall2 R o o' → o' = Some y → ∃ x, o = Some x ∧ R x y.
Proof. destruct 1; naive_solver. Qed.

(** ** Transition systems *)

(** What a component does to its state, one labelled step at a time.  A step
    that raises leaves the state as it was. *)
Section transition_system.
Context {S L : Type} (init : S) (step : L → S → S → Prop).

Inductive reachable : S → Prop :=
| reachable_init : reachable init
| reachable_step l s s' : reachable s → step l s s' → reachable s'.

Lemma reachable_invariant (I : S → Prop) :
  I init → (∀ l s s', I s → step l s s' → I s') → ∀ s, reachable s → I s.
Proof. intros H0 Hs s. induction 1; eauto. Qed.

Inductive steps : S → list L → S → Prop :=
| steps_nil s : steps s [] s
| steps_cons s l s' ls s'' : step l s s' → steps s' ls s'' → steps s (l :: ls) s''.

(** A relation between successive states that is a preorder holds along
    every run from an invariant state. *)
Lemma steps_preorder (I : S → Prop) (R : relation S) `{!PreOrder R} :
  (∀ l s s', I s → step l s s' → I s' ∧ R s s') →
  ∀ s ls s', I s → steps s ls s' → R s s'.
Proof.
  intros Hstep s ls s' Hs Hrun. induction Hrun as [s|s l s' ls s'' Hst _ IH]; [done|].
  destruct (Hstep _ _ _ Hs Hst) as [Hi Hr]. etrans; [exact Hr|by apply IH].
Qed.

Lemma reachable_steps s ls s' : reachable s → steps s ls s' → reachable s'.
Proof. intros Hs Hrun. induction Hrun as [|s l s' ls s'' Hst _ IH]; [done|]. apply IH. by eapply reachable_step. Qed.
End transition_system.
