(* ===== verification/PyValues.v ===== *)
(** * Python values, [str()], [int()] and canonical JSON

    The values that reach the modelled code as [Any]: what [json.loads]
    produces, floats excepted.  A Python [str] is a [string] whose characters
    are the code points below 256; a [dict] is its items in insertion order.
    [canonical_json] of [agentsdock_team_hub/security.py] is modelled down to
    the bytes that are hashed, and is shown injective up to the order of the
    keys of a [dict]. *)
From S2P Require Import Prelude.

Open Scope string_scope.

Inductive pyval :=
| PNone
| PBool (b : bool)
| PInt (z : Z)
| PStr (s : string)
| PList (l : list pyval)
| PDict (d : list (string * pyval)).

(** The recursion principle that goes under lists and dicts. *)
Section pyval_ind.
Context (P : pyval → Prop)
  (Hnone : P PNone) (Hbool : ∀ b, P (PBool b)) (Hint : ∀ z, P (PInt z))
  (Hstr : ∀ s, P (PStr s))
  (Hlist : ∀ l, Forall P l → P (PList l))
  (Hdict : ∀ d, Forall (λ kv, P kv.2) d → P (PDict d)).
Fixpoint pyval_nested_ind (v : pyval) : P v :=
  match v with
  | PNone => Hnone
  | PBool b => Hbool b
  | PInt z => Hint z
  | PStr s => Hstr s
  | PList l => Hlist l
      ((fix go l : Forall P l :=
          match l with
          | [] => List.Forall_nil _
          | w :: l => List.Forall_cons _ _ _ (pyval_nested_ind w) (go l)
          end) l)
  | PDict d => Hdict d
      ((fix go (d : list (string * pyval)) : Forall (λ kv, P kv.2) d :=
          match d with
          | [] => List.Forall_nil _
          | kw :: d => List.Forall_cons (λ kv : string * pyval, P kv.2) kw d (pyval_nested_ind kw.2) (go d)
          end) d)
  end.
End pyval_ind.

Fixpoint pyval_eqb (v w : pyval) : bool :=
  match v, w with
  | PNone, PNone => true
  | PBool b, PBool c => Bool.eqb b c
  | PInt y, PInt z => (y =? z)%Z
  | PStr s, PStr t => String.eqb s t
  | PList l, PList k =>
      (fix go l k := match l, k with
        | [], [] => true
        | x :: l, y :: k => pyval_eqb x y && go l k
        | _, _ => false
        end) l k
  | PDict l, PDict k =>
      (fix go l k := match l, k with
        | [], [] => true
        | x :: l, y :: k =>
            String.eqb x.1 y.1 && pyval_eqb x.2 y.2 && go l k
        | _, _ => false
        end) l k
  | _, _ => false
  end.

Lemma pyval_eqb_eq v w : pyval_eqb v w = true ↔ v = w.
Proof.
  revert w. induction v as [|b|z|s|l IH|d IH] using pyval_nested_ind;
    intros [|c|y|t|k|k]; cbn; try (split; congruence).
  - rewrite Bool.eqb_true_iff. naive_solver.
  - rewrite Z.eqb_eq. naive_solver.
  - rewrite String.eqb_eq. naive_solver.
  - revert k. induction IH as [|x l Hx _ IHl]; intros [|y k];
      try (split; congruence).
    rewrite andb_true_iff, Hx. specialize (IHl k). naive_solver.
  - revert k. induction IH as [|[x1 x2] l Hx _ IHl]; intros [|[y1 y2] k];
      try (split; congruence); cbn in *.
    rewrite !andb_true_iff, Hx, String.eqb_eq. specialize (IHl k). naive_solver.
Qed.

#[global] Instance pyval_eq_dec : EqDecision pyval.
Proof.
  intros v w. destruct (pyval_eqb v w) eqn:E.
  - left. by apply pyval_eqb_eq.
  - right. intros ->. by rewrite (proj2 (pyval_eqb_eq w w) eq_refl) in E.
Defined.

(** ** Character classes *)

Definition code (c : Ascii.ascii) : N := Ascii.N_of_ascii c.

(** [str.isspace] on the code points below 256. *)
Definition py_isspace (c : Ascii.ascii) : bool :=
  let n := code c in
  ((9 <=? n) && (n <=? 13) || (28 <=? n) && (n <=? 32)
   || (n =? 133) || (n =? 160))%N.

(** [str.isprintable] on one code point below 256. *)
Definition py_isprintable_char (c : Ascii.ascii) : bool :=
  let n := code c in
  ((32 <=? n) && (n <=? 126) || (161 <=? n) && negb (n =? 173))%N.

Fixpoint string_forallb (p : Ascii.ascii → bool) (s : string) : bool :=
  match s with
  | "" => true
  | String c s => p c && string_forallb p s
  end.

Definition py_isprintable (s : string) : bool := string_forallb py_isprintable_char s.

(** [str.lower], on Latin-1. *)
Definition lower_char (c : Ascii.ascii) : Ascii.ascii :=
  let n := code c in
  if ((65 <=? n) && (n <=? 90) || (192 <=? n) && (n <=? 222) && negb (n =? 215))%N
  then Ascii.ascii_of_N (n + 32) else c.

Fixpoint lower (s : string) : string :=
  match s with
  | EmptyString => EmptyString
  | String c s => String (lower_char c) (lower s)
  end.

Fixpoint lstrip (s : string) : string :=
  match s with
  | String c s' => if py_isspace c then lstrip s' else s
  | "" => ""
  end.

Definition rev_string (s : string) : string := String.rev s.

(** [s.strip()] *)
Definition strip (s : string) : string := rev_string (lstrip (rev_string (lstrip s))).

(** [not s.strip()] *)
Definition blank (s : string) : bool := string_forallb py_isspace s.

(** [s in {...}] *)
Definition str_in (s : string) (l : list string) : bool := existsb (String.eqb s) l.

Lemma str_in_spec x l : str_in x l = true ↔ In x l.
Proof.
  unfold str_in. rewrite existsb_exists. split.
  - by intros (y & Hy & ->%String.eqb_eq).
  - intros H. exists x. by rewrite String.eqb_refl.
Qed.

Definition len (s : string) : Z := Z.of_nat (String.length s).

(** [s[:n]] *)
Definition prefix_of (n : nat) (s : string) : string := String.substring 0 n s.

(** [s.startswith(p)] *)
Definition startswith (p s : string) : bool := String.prefix p s.

(** ** Truth, [str()] and [int()] *)

(** [bool(v)] *)
Definition truthy (v : pyval) : bool :=
  match v with
  | PNone => false
  | PBool b => b
  | PInt z => negb (z =? 0)%Z
  | PStr s => negb (String.eqb s "")
  | PList l => match l with [] => false | _ => true end
  | PDict d => match d with [] => false | _ => true end
  end.

(** [v or w] *)
Definition py_or (v w : pyval) : pyval := if truthy v then v else w.

(** [d.get(k)] on the items of a dict. *)
Fixpoint items_get (d : list (string * pyval)) (k : string) : pyval :=
  match d with
  | [] => PNone
  | (k', v) :: d => if String.eqb k' k then v else items_get d k
  end.

Definition chr (n : N) : Ascii.ascii := Ascii.ascii_of_N n.

Definition hex_digit (n : N) : Ascii.ascii :=
  if (n <? 10)%N then chr (48 + n) else chr (87 + n).

(** Two lower case hexadecimal digits. *)
Definition hex2 (n : N) (s : string) : string :=
  String (hex_digit (n / 16)) (String (hex_digit (n mod 16)) s).

Definition dquote : Ascii.ascii := chr 34.
Definition squote : Ascii.ascii := chr 39.
Definition backslash : Ascii.ascii := chr 92.

Definition string_contains (c : Ascii.ascii) (s : string) : bool :=
  negb (string_forallb (λ d, negb (Ascii.eqb c d)) s).

Definition repr_char (q c : Ascii.ascii) : string :=
  if Ascii.eqb c q || Ascii.eqb c backslash then String backslash (String c "")
  else if (code c =? 9)%N then "\t"
  else if (code c =? 10)%N then "\n"
  else if (code c =? 13)%N then "\r"
  else if py_isprintable_char c then String c ""
  else "\x" +:+ hex2 (code c) "".

(** [s.split(c)] *)
Fixpoint split_on (c : Ascii.ascii) (s : string) : list string :=
  match s with
  | "" => [""]
  | String d s =>
      if Ascii.eqb c d then "" :: split_on c s else
      match split_on c s with x :: l => String d x :: l | [] => [String d ""] end
  end.

Fixpoint concat_map (f : Ascii.ascii → string) (s : string) : string :=
  match s with
  | "" => ""
  | String c s => f c +:+ concat_map f s
  end.

Definition repr_str (s : string) : string :=
  let q := if string_contains squote s && negb (string_contains dquote s)
           then dquote else squote in
  String q (concat_map (repr_char q) s +:+ String q "").

Fixpoint join (sep : string) (l : list string) : string :=
  match l with
  | [] => ""
  | [s] => s
  | s :: l => s +:+ sep +:+ join sep l
  end.

Fixpoint py_repr (v : pyval) : string :=
  match v with
  | PNone => "None"
  | PBool b => if b then "True" else "False"
  | PInt z => pretty z
  | PStr s => repr_str s
  | PList l => "[" +:+ join ", " (map py_repr l) +:+ "]"
  | PDict d =>
      "{" +:+ join ", " (map (λ kv, repr_str kv.1 +:+ ": " +:+ py_repr kv.2) d) +:+ "}"
  end.

(** [str(v)] *)
Definition py_str (v : pyval) : string :=
  match v with PStr s => s | _ => py_repr v end.

Definition digit_of (c : Ascii.ascii) : option Z :=
  let n := code c in
  if ((48 <=? n) && (n <=? 57))%N then Some (Z.of_N n - 48)%Z else None.

(** The digits of [int(s)]: an underscore may stand between two digits.
    [ok] says whether the previous character was a digit. *)
Fixpoint parse_digits (s : string) (ok : bool) (count : Z) (acc : Z) : option (Z * Z) :=
  match s with
  | "" => if ok then Some (acc, count) else None
  | String c s =>
      match digit_of c with
      | Some d => parse_digits s true (count + 1) (10 * acc + d)
      | None => if Ascii.eqb c (chr 95) && ok then parse_digits s false count acc
                else None
      end
  end%Z.

Definition INT_MAX_STR_DIGITS : Z := 4300.

Definition int_of_string (s : string) : res Z :=
  let invalid := ValueError "invalid literal for int() with base 10" in
  let '(neg, body) :=
    match strip s with
    | String c t =>
        if (code c =? 45)%N then (true, t)
        else if (code c =? 43)%N then (false, t)
        else (false, String c t)
    | "" => (false, "")
    end in
  match parse_digits body false 0 0 with
  | Some (z, count) =>
      if (INT_MAX_STR_DIGITS <? count)%Z then Err (ValueError "Exceeds the limit for integer string conversion")
      else Ok (if neg : bool then (- z)%Z else z)
  | None => Err invalid
  end.

(** [int(v)] *)
Definition py_int (v : pyval) : res Z :=
  match v with
  | PBool b => Ok (Z.b2z b)
  | PInt z => Ok z
  | PStr s => int_of_string s
  | _ => Err (TypeError "int() argument must be a string or a number")
  end.

(** [str(d.get(k) or "")] *)
Definition get_str (d : list (string * pyval)) (k : string) : string :=
  py_str (py_or (items_get d k) (PStr "")).

(** The characters of a string, as strings. *)
Fixpoint chars_of (s : string) : list pyval :=
  match s with
  | "" => []
  | String c s => PStr (String c "") :: chars_of s
  end.

(** [list(v or [])] *)
Definition py_list (v : pyval) : res (list pyval) :=
  if truthy v then
    match v with
    | PList l => Ok l
    | PStr s => Ok (chars_of s)
    | PDict d => Ok (map (λ kv, PStr kv.1) d)
    | _ => Err (TypeError "object is not iterable")
    end
  else Ok [].

(** ** Canonical JSON *)

(** One character of a JSON string with [ensure_ascii=False]. *)
Definition json_char (c : Ascii.ascii) : string :=
  let n := code c in
  if (n =? 34)%N then String backslash (String dquote "")
  else if (n =? 92)%N then String backslash (String backslash "")
  else if (n =? 10)%N then "\n"
  else if (n =? 13)%N then "\r"
  else if (n =? 9)%N then "\t"
  else if (n =? 12)%N then "\f"
  else if (n =? 8)%N then "\b"
  else if (n <? 32)%N then "\u00" +:+ hex2 n ""
  else String c "".

Definition json_str (s : string) : string :=
  String dquote (concat_map json_char s +:+ String dquote "").

(** The order of dict items by key: Python strings compare by code point. *)
Definition key_le {A} (x y : string * A) : Prop := String.le x.1 y.1.
#[global] Instance key_le_dec {A} : RelDecision (@key_le A).
Proof. intros x y. unfold key_le. apply _. Defined.

(** [sort_keys=True], at every level. *)
Fixpoint sort_keys (v : pyval) : pyval :=
  match v with
  | PList l => PList (map sort_keys l)
  | PDict d => PDict (merge_sort key_le (map (λ kv, (kv.1, sort_keys kv.2)) d))
  | _ => v
  end.

(** The encoder, on items in the order they are written. *)
Fixpoint encode_value (v : pyval) : string :=
  match v with
  | PNone => "null"
  | PBool b => if b then "true" else "false"
  | PInt z => pretty z
  | PStr s => json_str s
  | PList l => "[" +:+ join "," (map encode_value l) +:+ "]"
  | PDict d =>
      "{" +:+ join "," (map (λ kv, json_str kv.1 +:+ ":" +:+ encode_value kv.2) d) +:+ "}"
  end.

(** [json.dumps(v, separators=(",", ":"), ensure_ascii=False)] *)
Definition dumps (v : pyval) : string := encode_value v.

(** The same with [sort_keys=True]. *)
Definition dumps_sorted (v : pyval) : string := dumps (sort_keys v).

(** [.encode("utf-8")] on code points below 256: one or two bytes each. *)
Definition utf8_char (c : Ascii.ascii) : string :=
  let n := code c in
  if (n <? 128)%N then String c ""
  else String (chr (192 + n / 64)) (String (chr (128 + n mod 64)) "").

Definition utf8 (s : string) : string := concat_map utf8_char s.

(** [canonical_json] *)
Definition canonical_json (v : pyval) : string := utf8 (dumps_sorted v).

Example dumps_example :
  dumps_sorted (PDict [("b", PList [PInt 10; PNone]); ("a", PStr (String (chr 10) "x"))])
  = String (chr 123) (json_str "a" +:+ ":" +:+ json_str (String (chr 10) "x")
      +:+ "," +:+ json_str "b" +:+ ":[10,null]}").
Proof. reflexivity. Qed.

(** ** Injectivity of the encoder *)

(** Two texts over the alphabet [p], each followed by something that does not
    start in [p], are equal only if they agree part by part. *)
Definition starts_outside (p : Ascii.ascii → bool) (s : string) : Prop :=
  match s with "" => True | String c _ => p c = false end.

Lemma span_unique p a b s t :
  string_forallb p a = true → string_forallb p b = true →
  starts_outside p s → starts_outside p t →
  a +:+ s = b +:+ t → a = b ∧ s = t.
Proof.
  revert b. induction a as [|x a IH]; intros [|y b]; snorm; cbn [string_forallb].
  - done.
  - intros _ [Hy _]%andb_true_iff Hs _ ->. cbn in Hs. congruence.
  - intros [Hx _]%andb_true_iff _ _ Ht <-. cbn in Ht. congruence.
  - intros [_ Ha]%andb_true_iff [_ Hb]%andb_true_iff Hs Ht [= -> H].
    destruct (IH b Ha Hb Hs Ht H) as [-> ->]. done.
Qed.

Definition is_number_char (c : Ascii.ascii) : bool :=
  let n := code c in ((48 <=? n) && (n <=? 57) || (n =? 45))%N.

Lemma pretty_N_char_number x : is_number_char (pretty_N_char x) = true.
Proof. unfold pretty_N_char. by repeat case_match. Qed.

Lemma pretty_N_go_number x s :
  string_forallb is_number_char s = true →
  string_forallb is_number_char (pretty_N_go x s) = true.
Proof.
  revert s. induction x as [x IH] using (well_founded_induction N.lt_wf_0); intros s Hs.
  destruct (decide (x = 0)%N) as [->|Hx]; [done|].
  rewrite pretty_N_go_step by lia. apply IH.
  - apply N.div_lt; lia.
  - cbn [string_forallb]. by rewrite pretty_N_char_number, Hs.
Qed.

Lemma pretty_N_go_nonempty x s : (0 < x)%N ∨ s ≠ "" → pretty_N_go x s ≠ "".
Proof.
  revert s. induction x as [x IH] using (well_founded_induction N.lt_wf_0); intros s Hs.
  destruct (decide (x = 0)%N) as [->|Hx]; [by destruct Hs|].
  rewrite pretty_N_go_step by lia. apply IH; [apply N.div_lt; lia|by right].
Qed.

Lemma pretty_N_number (x : N) :
  string_forallb is_number_char (pretty x) = true ∧ pretty x ≠ "".
Proof.
  unfold pretty, pretty_N. case_decide; [done|]. split.
  - by apply pretty_N_go_number.
  - apply pretty_N_go_nonempty. left. by apply N.neq_0_lt_0.
Qed.

Lemma pretty_Z_number (z : Z) :
  string_forallb is_number_char (pretty z) = true ∧ pretty z ≠ "".
Proof.
  destruct z as [|p|p]; [done|apply (pretty_N_number (N.pos p))|].
  split; [|done]. change (pretty (Z.neg p)) with (String (chr 45) (pretty (N.pos p))).
  cbn [string_forallb]. rewrite andb_true_iff. split; [done|].
  apply pretty_N_number.
Qed.

(** Decoding one character of a JSON string. *)
Definition json_unchar (s : string) : option (Ascii.ascii * string) :=
  match s with
  | String c r =>
      if (code c =? 34)%N then None
      else if (code c =? 92)%N then
        match r with
        | String e r' =>
            let n := code e in
            if (n =? 34)%N || (n =? 92)%N then Some (e, r')
            else if (n =? 110)%N then Some (chr 10, r')
            else if (n =? 114)%N then Some (chr 13, r')
            else if (n =? 116)%N then Some (chr 9, r')
            else if (n =? 102)%N then Some (chr 12, r')
            else if (n =? 98)%N then Some (chr 8, r')
            else match r' with
                 | String _ (String _ (String h (String l r''))) =>
                     let v h := let m := code h in if (m <? 58)%N then (m - 48)%N else (m - 87)%N in
                     Some (chr (16 * v h + v l), r'')
                 | _ => None
                 end
        | "" => None
        end
      else Some (c, r)
  | "" => None
  end.

Lemma pretty_go_length n x s :
  (x < 10 ^ N.of_nat n)%N → (String.length (pretty_N_go x s) ≤ n + String.length s)%nat.
Proof.
  revert x s. induction n as [|n IH]; intros x s Hx.
  - change (10 ^ N.of_nat 0)%N with 1%N in Hx. replace x with 0%N by lia. rewrite pretty_N_go_0. lia.
  - destruct (decide (0 < x)%N) as [Hp|Hp].
    + rewrite pretty_N_go_step by done. etrans; [apply IH|cbn [String.length]; lia].
      rewrite Nat2N.inj_succ, N.pow_succ_r' in Hx. apply N.Div0.div_lt_upper_bound. lia.
    + replace x with 0%N by lia. rewrite pretty_N_go_0. lia.
Qed.

Lemma json_unchar_char c r : json_unchar (json_char c +:+ r) = Some (c, r).
Proof. by destruct c as [[] [] [] [] [] [] [] []]. Qed.

Lemma json_chars_unique a b s t :
  concat_map json_char a +:+ String dquote s = concat_map json_char b +:+ String dquote t →
  a = b ∧ s = t.
Proof.
  revert b. induction a as [|x a IH]; intros [|y b]; cbn [concat_map]; snorm;
    intros H; [by simplify_eq|..]; apply (f_equal json_unchar) in H;
    rewrite ?json_unchar_char in H; [done..|].
  injection H as -> H. destruct (IH b H) as [-> ->]. done.
Qed.

Lemma json_str_unique a b s t :
  json_str a +:+ s = json_str b +:+ t → a = b ∧ s = t.
Proof. unfold json_str. snorm. intros [= H]. by apply json_chars_unique in H. Qed.

(** The tail of a list or dict after its first item. *)
Definition join_tail (l : list string) (rest : string) : string :=
  foldr (λ x acc, "," +:+ (x +:+ acc)) rest l.

Lemma join_cons x l rest :
  join "," (x :: l) +:+ rest = x +:+ join_tail l rest.
Proof.
  revert x. induction l as [|y l IH]; intros x; [done|].
  change (join "," (x :: y :: l)) with (x +:+ "," +:+ join "," (y :: l)).
  rewrite !sapp_assoc, IH. done.
Qed.

(** What may follow a value: nothing, a comma or a closing bracket. *)
Definition follows (s : string) : Prop :=
  match s with
  | "" => True
  | String c _ => c = chr 44 ∨ c = chr 93 ∨ c = chr 125
  end.

Lemma follows_number s : follows s → starts_outside is_number_char s.
Proof. destruct s as [|c s]; cbn; [done|]. by intros [-> | [-> | ->]]. Qed.

Lemma follows_join_tail l rest : follows rest → follows (join_tail l rest).
Proof. destruct l; cbn; [done|]. by left. Qed.

(** The first character tells the constructor, except among the booleans. *)
Definition value_kind (v : pyval) : nat :=
  match v with
  | PNone => 0 | PBool true => 1 | PBool false => 2 | PInt _ => 3
  | PStr _ => 4 | PList _ => 5 | PDict _ => 6
  end.

Definition char_kind (c : Ascii.ascii) : nat :=
  let n := code c in
  if (n =? 110)%N then 0 else if (n =? 116)%N then 1 else if (n =? 102)%N then 2
  else if (n =? 34)%N then 4 else if (n =? 91)%N then 5 else if (n =? 123)%N then 6
  else if is_number_char c then 3 else 7.

Lemma encode_head v : ∃ c r, encode_value v = String c r ∧ char_kind c = value_kind v.
Proof.
  destruct v as [|[]|z|s|l|d]; cbn [encode_value value_kind]; try (by do 2 eexists).
  destruct (pretty_Z_number z) as [Hn Hne].
  destruct (pretty z) as [|c r]; [done|]. exists c, r. split; [done|].
  cbn [string_forallb] in Hn. apply andb_true_iff in Hn as [Hn _].
  by destruct c as [[] [] [] [] [] [] [] []].
Qed.

Lemma encode_kind v w s t :
  encode_value v +:+ s = encode_value w +:+ t → value_kind v = value_kind w.
Proof.
  destruct (encode_head v) as (c & r & -> & <-), (encode_head w) as (d & q & -> & <-).
  by intros [= -> _].
Qed.

Lemma encode_not_close v s c t :
  encode_value v +:+ s = String c t → char_kind c = 7 → False.
Proof. destruct (encode_head v) as (d & q & -> & Hk). intros [= -> _] H. destruct v as [|[]| | | |]; cbn in *; congruence. Qed.

Definition unique_encoding (v : pyval) : Prop := ∀ w s t,
  follows s → follows t →
  encode_value v +:+ s = encode_value w +:+ t → v = w ∧ s = t.

Lemma join_tail_unique {A} (f : A → string) (close : Ascii.ascii) (l k : list A) s t :
  (close = chr 93 ∨ close = chr 125) →
  Forall (λ x, ∀ y s t, follows s → follows t →
    f x +:+ s = f y +:+ t → x = y ∧ s = t) l →
  join_tail (map f l) (String close s) = join_tail (map f k) (String close t) →
  l = k ∧ s = t.
Proof.
  intros Hc Hl. assert (chr 44 ≠ close) as Hne by (by destruct Hc as [-> | ->]).
  assert (∀ r, follows (String close r)) as Hf by (by destruct Hc as [-> | ->]; cbn; auto).
  revert k. induction Hl as [|x l Hx _ IH]; intros [|y k]; cbn [map join_tail foldr].
  - by intros [= ->].
  - intros [= E _]. by destruct Hne.
  - intros [= E _]. by destruct Hne.
  - intros [= H]. apply Hx in H as [-> H]; [|by apply follows_join_tail..].
    destruct (IH k H) as [-> ->]. done.
Qed.

(** A bracketed, comma separated sequence determines its items. *)
Lemma bracket_unique {A} (f : A → string) (close : Ascii.ascii) (l k : list A) s t :
  (close = chr 93 ∨ close = chr 125) →
  (∀ x s c t, f x +:+ s = String c t → c = chr 93 ∨ c = chr 125 → False) →
  Forall (λ x, ∀ y s t, follows s → follows t →
    f x +:+ s = f y +:+ t → x = y ∧ s = t) l →
  join "," (map f l) +:+ String close s = join "," (map f k) +:+ String close t →
  l = k ∧ s = t.
Proof.
  intros Hc Hclose Hl.
  assert (∀ r, follows (String close r)) as Hf by (by destruct Hc as [-> | ->]; cbn; auto).
  destruct l as [|x l], k as [|y k]; cbn [map].
  - by intros [= ->].
  - rewrite join_cons. intros H. exfalso. eapply Hclose; [symmetry; exact H|done].
  - rewrite join_cons. intros H. exfalso. eapply Hclose; [exact H|done].
  - rewrite !join_cons. intros H. apply Forall_cons in Hl as [Hx Hl].
    apply Hx in H as [-> H]; [|by apply follows_join_tail..].
    eapply join_tail_unique in H as [-> ->]; done.
Qed.

Lemma encode_unique v : unique_encoding v.
Proof.
  induction v as [|b|z|a|l IH|d IH] using pyval_nested_ind; intros w s t Hs Ht H;
    pose proof (encode_kind _ _ _ _ H) as Hk;
    destruct w as [|[]|z'|a'|l'|d']; try discriminate Hk;
    try destruct b; try discriminate Hk; cbn [encode_value] in H.
  - by apply sapp_cancel_l in H.
  - by apply sapp_cancel_l in H.
  - by apply sapp_cancel_l in H.
  - apply (span_unique is_number_char) in H as [H ->];
      [|by first [apply pretty_Z_number|apply follows_number]..].
    by apply pretty_Z_inj in H as ->.
  - by apply json_str_unique in H as [-> ->].
  - snorm in H. injection H as H.
    apply bracket_unique in H as [-> ->]; [done|by left| |done].
    intros v s' c t' E Hc. eapply encode_not_close; [exact E|by destruct Hc as [-> | ->]].
  - snorm in H. injection H as H.
    apply (bracket_unique (λ kv, json_str kv.1 +:+ ":" +:+ encode_value kv.2)) in H
      as [-> ->]; [done|by right| |].
    + intros v s' c t' E Hc. unfold json_str in E. snorm in E. injection E as E _.
      destruct Hc; by subst.
    + eapply Forall_impl; [exact IH|]. intros [k v] Hv [k' v'] s' t' Hs' Ht' E.
      cbn [fst snd] in *. rewrite !sapp_assoc in E. apply json_str_unique in E as [-> E].
      apply sapp_cancel_l in E. by apply Hv in E as [-> ->].
Qed.

Lemma encode_value_inj v w : encode_value v = encode_value w → v = w.
Proof.
  intros H. apply (encode_unique v w "" ""); cbn; [done..|]. by rewrite !sapp_nil_r.
Qed.

(** ** UTF-8 *)

Definition utf8_unchar (s : string) : option (Ascii.ascii * string) :=
  match s with
  | String c r =>
      if (code c <? 128)%N then Some (c, r)
      else match r with
           | String d r => Some (chr (64 * (code c - 192) + (code d - 128)), r)
           | "" => None
           end
  | "" => None
  end.

Lemma utf8_unchar_char c r : utf8_unchar (utf8_char c +:+ r) = Some (c, r).
Proof. by destruct c as [[] [] [] [] [] [] [] []]. Qed.

#[global] Instance utf8_inj : Inj (=) (=) utf8.
Proof.
  intros a. unfold utf8. induction a as [|x a IH]; intros [|y b]; cbn [concat_map];
    intros H; [done|..]; apply (f_equal utf8_unchar) in H;
    rewrite ?utf8_unchar_char in H; [done..|].
  injection H as -> H. by rewrite (IH b H).
Qed.

(** Canonical JSON identifies exactly the values that differ in the order of
    their keys. *)
Lemma canonical_json_eq v w : canonical_json v = canonical_json w ↔ sort_keys v = sort_keys w.
Proof.
  unfold canonical_json, dumps_sorted, dumps. split; [|by intros ->].
  intros H. apply utf8_inj in H. by apply encode_value_inj.
Qed.
