(* ===== verification/Json.v ===== *)
(** * Reading JSON back

    [json.loads] and the encoder [json.dumps] with its default
    [ensure_ascii=True], as far as [activation_transaction.py] uses them: the
    values of [PyValues] (no floats, code points below 256).  The parser reads
    back every text an encoder of this shape writes. *)
From Stdlib Require Import Ascii.
From S2P Require Import Prelude PyValues.

Open Scope string_scope.

(** [json.loads] accepts blanks between tokens. *)
Definition json_ws (c : Ascii.ascii) : bool :=
  let n := code c in ((n =? 32) || (n =? 9) || (n =? 10) || (n =? 13))%N.

Fixpoint skip_ws (s : string) : string :=
  match s with
  | String c s' => if json_ws c then skip_ws s' else s
  | "" => ""
  end.

(** The value of a hexadecimal digit. *)
Definition hex_value (c : Ascii.ascii) : option N :=
  let n := code c in
  if ((48 <=? n) && (n <=? 57))%N then Some (n - 48)%N
  else if ((97 <=? n) && (n <=? 102))%N then Some (n - 87)%N
  else if ((65 <=? n) && (n <=? 70))%N then Some (n - 55)%N
  else None.

(** [\uXXXX], for the code points the model has. *)
Definition unicode_escape (a b h l : Ascii.ascii) : option Ascii.ascii :=
  a ← hex_value a; b ← hex_value b; h ← hex_value h; l ← hex_value l;
  if ((a =? 0) && (b =? 0))%N then Some (chr (16 * h + l)) else None.

(** The escapes of one letter. *)
Definition short_escape (e : Ascii.ascii) : option Ascii.ascii :=
  let n := code e in
  if ((n =? 34) || (n =? 92) || (n =? 47))%N then Some e
  else if (n =? 110)%N then Some (chr 10)
  else if (n =? 114)%N then Some (chr 13)
  else if (n =? 116)%N then Some (chr 9)
  else if (n =? 102)%N then Some (chr 12)
  else if (n =? 98)%N then Some (chr 8)
  else None.

(** The characters of a string up to its closing quote, and what follows. *)
Fixpoint read_chars (s : string) : option (string * string) :=
  match s with
  | "" => None
  | String c r =>
      if (code c =? 34)%N then Some ("", r)
      else if (code c =? 92)%N then
        match r with
        | String e r' =>
            if (code e =? 117)%N then
              match r' with
              | String a (String b (String h (String l r''))) =>
                  c ← unicode_escape a b h l; '(t, rest) ← read_chars r'';
                  Some (String c t, rest)
              | _ => None
              end
            else c ← short_escape e; '(t, rest) ← read_chars r';
                 Some (String c t, rest)
        | "" => None
        end
      else if (code c <? 32)%N then None
      else '(t, rest) ← read_chars r; Some (String c t, rest)
  end.

(** Digits: their value, how many, and what follows. *)
Fixpoint read_digits (s : string) (acc count : Z) : Z * Z * string :=
  match s with
  | String c r =>
      match digit_of c with
      | Some d => read_digits r (10 * acc + d)%Z (count + 1)%Z
      | None => (acc, count, s)
      end
  | "" => (acc, count, s)
  end.

(** A natural number: no leading zero, and not the start of a float. *)
Definition read_nat (s : string) : res (Z * string) :=
  let '(z, count, rest) := read_digits s 0 0 in
  let zero := match s with String c _ => (code c =? 48)%N | "" => false end in
  let float := match rest with
               | String c _ => ((code c =? 46) || (code c =? 101) || (code c =? 69))%N
               | "" => false
               end in
  raise_if ((count =? 0)%Z || zero && (1 <? count)%Z || float) JSONDecodeError;;
  raise_if (INT_MAX_STR_DIGITS <? count)%Z
    (ValueError "Exceeds the limit for integer string conversion");;
  Ok (z, rest).

Definition read_int (s : string) : res (Z * string) :=
  match s with
  | String c r =>
      if (code c =? 45)%N then '(z, rest) ← read_nat r; Ok ((- z)%Z, rest) else read_nat s
  | "" => read_nat s
  end.

(** The items of a dict: a key that comes twice keeps its place and takes the
    last value. *)
Fixpoint items_put (d : list (string * pyval)) (k : string) (v : pyval) : list (string * pyval) :=
  match d with
  | [] => [(k, v)]
  | (k', v') :: d => if String.eqb k' k then (k, v) :: d else (k', v') :: items_put d k v
  end.

Definition dict_of (d : list (string * pyval)) : list (string * pyval) :=
  foldl (λ acc kv, items_put acc kv.1 kv.2) [] d.

Fixpoint literal (word : string) (v : pyval) (s : string) : res (pyval * string) :=
  match word, s with
  | "", _ => Ok (v, s)
  | String c word, String d s => if Ascii.eqb c d then literal word v s else Err JSONDecodeError
  | String _ _, "" => Err JSONDecodeError
  end.

Definition expect (c : N) (s : string) : res string :=
  match s with
  | String d r => if (code d =? c)%N then Ok r else Err JSONDecodeError
  | "" => Err JSONDecodeError
  end.

(** The scanner.  [fuel] is spent on every value and every item of a list or
    dict; twice the length of the text is enough. *)
Fixpoint read_value (fuel : nat) (s : string) {struct fuel} : res (pyval * string) :=
  match fuel with
  | O => Err JSONDecodeError
  | S fuel =>
      match s with
      | "" => Err JSONDecodeError
      | String c r =>
          let n := code c in
          if (n =? 34)%N then
            match read_chars r with
            | Some (t, rest) => Ok (PStr t, rest)
            | None => Err JSONDecodeError
            end
          else if (n =? 91)%N then
            match skip_ws r with
            | String d r' =>
                if (code d =? 93)%N then Ok (PList [], r')
                else '(l, rest) ← read_items fuel (String d r'); Ok (PList l, rest)
            | "" => Err JSONDecodeError
            end
          else if (n =? 123)%N then
            match skip_ws r with
            | String d r' =>
                if (code d =? 125)%N then Ok (PDict [], r')
                else '(d, rest) ← read_members fuel (String d r'); Ok (PDict (dict_of d), rest)
            | "" => Err JSONDecodeError
            end
          else if (n =? 110)%N then literal "null" PNone s
          else if (n =? 116)%N then literal "true" (PBool true) s
          else if (n =? 102)%N then literal "false" (PBool false) s
          else '(z, rest) ← read_int s; Ok (PInt z, rest)
      end
  end
with read_items (fuel : nat) (s : string) {struct fuel} : res (list pyval * string) :=
  match fuel with
  | O => Err JSONDecodeError
  | S fuel =>
      '(v, r) ← read_value fuel s;
      match skip_ws r with
      | String c r' =>
          if (code c =? 44)%N then
            '(l, rest) ← read_items fuel (skip_ws r'); Ok (v :: l, rest)
          else if (code c =? 93)%N then Ok ([v], r')
          else Err JSONDecodeError
      | "" => Err JSONDecodeError
      end
  end
with read_members (fuel : nat) (s : string) {struct fuel} : res (list (string * pyval) * string) :=
  match fuel with
  | O => Err JSONDecodeError
  | S fuel =>
      r ← expect 34 s;
      match read_chars r with
      | None => Err JSONDecodeError
      | Some (k, r) =>
          r ← expect 58 (skip_ws r);
          '(v, r) ← read_value fuel (skip_ws r);
          match skip_ws r with
          | String c r' =>
              if (code c =? 44)%N then
                '(l, rest) ← read_members fuel (skip_ws r'); Ok ((k, v) :: l, rest)
              else if (code c =? 125)%N then Ok ([(k, v)], r')
              else Err JSONDecodeError
          | "" => Err JSONDecodeError
          end
      end
  end.

(** [bytes.decode("utf-8")], for the code points the model has. *)
Fixpoint utf8_decode (s : string) : option string :=
  match s with
  | "" => Some ""
  | String c r =>
      if (code c <? 128)%N then String c <$> utf8_decode r
      else match r with
           | String d r' =>
               if ((194 <=? code c) && (code c <=? 195)
                   && (128 <=? code d) && (code d <=? 191))%N
               then String (chr (64 * (code c - 192) + (code d - 128))) <$> utf8_decode r'
               else None
           | "" => None
           end
  end.

(** [json.loads(text)] *)
Definition json_parse (s : string) : res pyval :=
  '(v, rest) ← read_value (2 * String.length s + 2) (skip_ws s);
  if String.eqb (skip_ws rest) "" then Ok v else Err JSONDecodeError.

(** [json.loads(data)] of bytes; a text that is not UTF-8 is an error of the
    same kind for the callers. *)
Definition json_loads (data : string) : res pyval :=
  match utf8_decode data with
  | Some s => json_parse s
  | None => Err JSONDecodeError
  end.

(** ** The encoder that writes ASCII *)

(** One character of a JSON string with [ensure_ascii=True]. *)
Definition ascii_char (c : Ascii.ascii) : string :=
  if (127 <=? code c)%N then "\u00" +:+ hex2 (code c) "" else json_char c.

Definition ascii_str (s : string) : string :=
  String dquote (concat_map ascii_char s +:+ String dquote "").

Fixpoint encode_ascii (v : pyval) : string :=
  match v with
  | PNone => "null"
  | PBool b => if b then "true" else "false"
  | PInt z => pretty z
  | PStr s => ascii_str s
  | PList l => "[" +:+ join "," (map encode_ascii l) +:+ "]"
  | PDict d =>
      "{" +:+ join "," (map (λ kv, ascii_str kv.1 +:+ ":" +:+ encode_ascii kv.2) d) +:+ "}"
  end.

(** What can be read back: no key twice, integers within the limit of
    [int()]. *)
Fixpoint json_wf (v : pyval) : Prop :=
  match v with
  | PInt z => (String.length (pretty z) ≤ 4300)%nat
  | PList l => (fix go l := match l with [] => True | x :: l => json_wf x ∧ go l end) l
  | PDict d =>
      NoDup d.*1 ∧
      (fix go d := match d with [] => True | x :: d => json_wf x.2 ∧ go d end) d
  | _ => True
  end.

(** ** Reading back what was written *)

Lemma read_chars_char c t :
  read_chars (ascii_char c +:+ t) = '(s, rest) ← read_chars t; Some (String c s, rest).
Proof. by destruct c as [[] [] [] [] [] [] [] []]. Qed.

Lemma read_chars_ascii s rest :
  read_chars (concat_map ascii_char s +:+ String dquote rest) = Some (s, rest).
Proof.
  induction s as [|c s IH]; cbn [concat_map]; [done|].
  by rewrite sapp_assoc, read_chars_char, IH.
Qed.

Lemma read_chars_str s rest :
  ∃ t, ascii_str s +:+ rest = String dquote t ∧ read_chars t = Some (s, rest).
Proof.
  exists (concat_map ascii_char s +:+ String dquote rest). split.
  - unfold ascii_str. by snorm.
  - apply read_chars_ascii.
Qed.

(** *** Integers *)

Definition no_digit (s : string) : Prop :=
  match s with "" => True | String c _ => digit_of c = None end.

Lemma read_digits_stop s acc count : no_digit s → read_digits s acc count = (acc, count, s).
Proof. destruct s as [|c s]; cbn; [done|]. by intros ->. Qed.

Lemma digit_of_pretty (x : N) :
  (x < 10)%N → digit_of (pretty_N_char x) = Some (Z.of_N x).
Proof.
  intros Hx.
  assert (x = 0 ∨ x = 1 ∨ x = 2 ∨ x = 3 ∨ x = 4 ∨ x = 5 ∨ x = 6 ∨ x = 7 ∨ x = 8 ∨ x = 9)%N
    as Hc by lia.
  by destruct Hc as [->|[->|[->|[->|[->|[->|[->|[->|[->| ->]]]]]]]]].
Qed.

(** The digits [pretty] puts before [s] are read as the number. *)
Lemma read_digits_go x s t :
  (0 < x)%N →
  ∃ n, read_digits (pretty_N_go x s +:+ t) 0 0 = read_digits (s +:+ t) (Z.of_N x) (Z.of_nat n) ∧
       0 < n ∧ String.length (pretty_N_go x s) = n + String.length s ∧
       ∃ c r, pretty_N_go x s = String c r ∧ code c ≠ 48%N.
Proof.
  revert s. induction x as [x IH] using (well_founded_induction N.lt_wf_0). intros s Hx.
  rewrite pretty_N_go_step by done.
  pose proof (N.mod_lt x 10 ltac:(lia)) as Hm.
  pose proof (N.div_mod x 10 ltac:(lia)) as Hdm.
  assert (x `div` 10 < x)%N as Hlt by (apply N.div_lt; lia).
  set (d := (x `mod` 10)%N) in *. set (q := (x `div` 10)%N) in *. clearbody d q.
  destruct (decide (q = 0)%N) as [Hq|Hq].
  - subst q. assert (x = d) as -> by lia.
    exists 1. rewrite pretty_N_go_0, sapp_cons. cbn [read_digits].
    rewrite digit_of_pretty by done. split; [done|]. split; [lia|]. split; [done|].
    eexists _, _. split; [done|]. intros Hc.
    assert (d = 1 ∨ d = 2 ∨ d = 3 ∨ d = 4 ∨ d = 5 ∨ d = 6 ∨ d = 7 ∨ d = 8 ∨ d = 9)%N as Hd
      by lia.
    by destruct Hd as [E|[E|[E|[E|[E|[E|[E|[E|E]]]]]]]]; rewrite E in Hc.
  - destruct (IH q Hlt (String (pretty_N_char d) s) ltac:(lia))
      as (n & Hr & Hn & Hl & Hc).
    exists (S n). rewrite Hr, Hl, sapp_cons. cbn [read_digits String.length].
    rewrite digit_of_pretty by done. split; [|split; [lia|split; [lia|done]]].
    f_equal; lia.
Qed.

(** A text that does not go on with a number. *)
Definition stops (t : string) : Prop :=
  no_digit t ∧
  match t with
  | String d _ => ((code d =? 46) || (code d =? 101) || (code d =? 69))%N
  | "" => false
  end = false.

Lemma read_nat_pretty (x : N) t :
  stops t → (String.length (pretty x) ≤ 4300)%nat →
  read_nat (pretty x +:+ t) = Ok (Z.of_N x, t).
Proof.
  intros [Hd Hf] Hl. unfold pretty, pretty_N in *. unfold read_nat.
  case_decide as Hx.
  - subst. rewrite sapp_cons, sapp_nil_l. destruct t as [|c t]; [done|].
    assert (read_digits (String (chr 48) (String c t)) 0 0 = (0, 1, String c t))%Z as Hz
      by (cbn in *; by rewrite Hd).
    cbn in Hz |- *. rewrite Hz. cbn. rewrite Hf, andb_false_r. reflexivity.
  - destruct (read_digits_go x "" t ltac:(lia)) as (n & Hr & Hn & Hlen & c & r & Hc & H0).
    rewrite sapp_nil_l, (read_digits_stop t) in Hr by done. rewrite Hr, Hf, Hc.
    rewrite Hc in Hl, Hlen. rewrite Hlen in Hl. cbn [String.length] in Hl.
    rewrite sapp_cons. apply N.eqb_neq in H0 as ->. cbn [andb].
    assert ((Z.of_nat n =? 0)%Z = false) as -> by lia.
    unfold INT_MAX_STR_DIGITS. assert ((4300 <? Z.of_nat n)%Z = false) as -> by lia. done.
Qed.

Lemma pretty_N_head (x : N) : ∃ c r, pretty x = String c r ∧ code c ≠ 45%N.
Proof.
  unfold pretty, pretty_N. case_decide as Hx; [by eexists _, _|].
  destruct (read_digits_go x "" "" ltac:(lia)) as (n & Hr & Hn & Hlen & c & r & Hc & H0).
  exists c, r. split; [done|]. intros H45.
  rewrite sapp_nil_l, sapp_nil_r, Hc in Hr. cbn in Hr.
  unfold digit_of in Hr. rewrite H45 in Hr. cbn in Hr. injection Hr as _ Hn0. lia.
Qed.

Lemma read_int_pretty z t :
  stops t → (String.length (pretty z) ≤ 4300)%nat →
  read_int (pretty z +:+ t) = Ok (z, t).
Proof.
  intros Ht Hl.
  assert (∀ x : N, (String.length (pretty x) ≤ 4300)%nat →
    read_int (pretty x +:+ t) = Ok (Z.of_N x, t)) as Hpos.
  { intros x Hx. rewrite <-(read_nat_pretty x t) by done.
    destruct (pretty_N_head x) as (c & r & -> & H45). rewrite sapp_cons. unfold read_int.
    by apply N.eqb_neq in H45 as ->. }
  destruct z as [|p|p].
  - apply (Hpos 0%N). exact Hl.
  - by apply (Hpos (N.pos p)).
  - change (pretty (Z.neg p)) with (String (chr 45) (pretty (N.pos p))) in *.
    cbn [String.length] in Hl. rewrite sapp_cons. unfold read_int. cbn [N.eqb].
    change (code (chr 45) =? 45)%N with true. cbn iota.
    rewrite read_nat_pretty by (done || lia). done.
Qed.

(** *** Values *)

Lemma ascii_head v : ∃ c r, encode_ascii v = String c r ∧ char_kind c = value_kind v.
Proof.
  destruct v as [|[]|z|s|l|d]; try (by do 2 eexists).
  destruct (encode_head (PInt z)) as (c & r & H & Hk). by exists c, r.
Qed.

(** A value starts with no blank and closes no bracket. *)
Lemma kind_starts c : char_kind c ≠ 7 → json_ws c = false ∧ c ≠ chr 93 ∧ c ≠ chr 125.
Proof. by destruct c as [[] [] [] [] [] [] [] []]. Qed.

Lemma value_starts v rest :
  ∃ c r, encode_ascii v +:+ rest = String c r ∧ json_ws c = false ∧
         (code c =? 93)%N = false ∧ (code c =? 125)%N = false.
Proof.
  destruct (ascii_head v) as (c & r & -> & Hk). exists c, (r +:+ rest). split; [done|].
  destruct v as [|[]| | | |]; cbn in Hk;
    by destruct c as [[] [] [] [] [] [] [] []].
Qed.

Lemma skip_ws_value v rest : skip_ws (encode_ascii v +:+ rest) = encode_ascii v +:+ rest.
Proof. destruct (value_starts v rest) as (c & r & -> & H & _). cbn. by rewrite H. Qed.

(** [v] is read from its text wherever it stands. *)
Definition reads (v : pyval) : Prop := ∀ fuel rest,
  stops rest → 2 * String.length (encode_ascii v) < fuel →
  read_value fuel (encode_ascii v +:+ rest) = Ok (v, rest).

(** Evaluates the tests on known characters. *)
Ltac eval_guards :=
  repeat (match goal with
  | |- context [json_ws (Ascii.Ascii ?a ?b ?c ?d ?e ?f ?g ?h)] =>
      let r := eval vm_compute in (json_ws (Ascii.Ascii a b c d e f g h)) in
      change (json_ws (Ascii.Ascii a b c d e f g h)) with r
  | |- context [N.eqb (code (Ascii.Ascii ?a ?b ?c ?d ?e ?f ?g ?h)) ?n] =>
      let r := eval vm_compute in (N.eqb (code (Ascii.Ascii a b c d e f g h)) n) in
      change (N.eqb (code (Ascii.Ascii a b c d e f g h)) n) with r
  end; cbn iota beta).

Lemma read_items_join v l fuel rest :
  Forall reads (v :: l) →
  2 * String.length (join "," (map encode_ascii (v :: l))) + 1 < fuel →
  read_items fuel (join "," (map encode_ascii (v :: l)) +:+ String "]" rest)
  = Ok (v :: l, rest).
Proof.
  revert v fuel. induction l as [|w l IH]; intros v fuel Hall Hf;
    (destruct fuel as [|fuel]; [lia|]); apply Forall_cons in Hall as [Hv Hl];
    cbn [map] in *.
  - cbn [join] in *. cbn [read_items].
    rewrite Hv by first [lia|done]. done.
  - change (join "," (encode_ascii v :: encode_ascii w :: map encode_ascii l))
      with (encode_ascii v +:+ "," +:+ join "," (map encode_ascii (w :: l))) in *.
    rewrite !slength_app in Hf. cbn [String.length] in Hf.
    rewrite !sapp_assoc, sapp_cons, sapp_nil_l. cbn [read_items].
    rewrite Hv by first [lia|done].
    rewrite res_bind_ret. cbn [skip_ws].
    eval_guards.
    cbn [map] in Hf. pose proof (IH w fuel Hl ltac:(lia)) as IHw.
    assert (∀ t, skip_ws (join "," (map encode_ascii (w :: l)) +:+ t)
      = join "," (map encode_ascii (w :: l)) +:+ t) as ->.
    { intros t. cbn [map]. rewrite join_cons. apply skip_ws_value. }
    cbn [map]. by rewrite IHw.
Qed.

Definition member (kv : string * pyval) : string := ascii_str kv.1 +:+ ":" +:+ encode_ascii kv.2.

Lemma read_member_step kv fuel rest :
  reads kv.2 → stops rest → 2 * String.length (member kv) < fuel →
  read_members (S fuel) (member kv +:+ rest) =
  match skip_ws rest with
  | String c r' =>
      if (code c =? 44)%N then
        '(l, rest) ← read_members fuel (skip_ws r'); Ok (kv :: l, rest)
      else if (code c =? 125)%N then Ok ([kv], r')
      else Err JSONDecodeError
  | "" => Err JSONDecodeError
  end.
Proof.
  destruct kv as [k v]. unfold member. cbn [fst snd]. intros Hv Hr Hf.
  rewrite !sapp_assoc.
  destruct (read_chars_str k (":" +:+ encode_ascii v +:+ rest)) as (t & -> & Ht).
  cbn [read_members expect]. change (code dquote =? 34)%N with true. cbn iota.
  rewrite res_bind_ret, Ht. rewrite sapp_cons, sapp_nil_l. cbn [skip_ws].
  eval_guards. cbn [expect]. eval_guards. rewrite res_bind_ret, skip_ws_value.
  rewrite !slength_app in Hf. rewrite Hv by (done || lia). done.
Qed.

Lemma member_starts kv rest : ∃ t, member kv +:+ rest = String dquote t.
Proof. unfold member, ascii_str. snorm. by eexists. Qed.

Lemma read_members_join kv l fuel rest :
  Forall (λ kv, reads kv.2) (kv :: l) →
  2 * String.length (join "," (map member (kv :: l))) + 1 < fuel →
  read_members fuel (join "," (map member (kv :: l)) +:+ String "}" rest)
  = Ok (kv :: l, rest).
Proof.
  revert kv fuel. induction l as [|kw l IH]; intros kv fuel Hall Hf;
    (destruct fuel as [|fuel]; [lia|]); apply Forall_cons in Hall as [Hv Hl];
    cbn [map] in *.
  - cbn [join] in *. rewrite read_member_step by first [done|lia|done].
    cbn [skip_ws]. by eval_guards.
  - change (join "," (member kv :: member kw :: map member l))
      with (member kv +:+ "," +:+ join "," (map member (kw :: l))) in *.
    rewrite !slength_app in Hf. cbn [String.length] in Hf.
    rewrite !sapp_assoc, sapp_cons, sapp_nil_l.
    rewrite read_member_step by first [done|lia|done].
    cbn [skip_ws]. eval_guards. cbn [map] in *.
    pose proof (IH kw fuel Hl ltac:(lia)) as IHw.
    assert (∀ t, skip_ws (join "," (member kw :: map member l) +:+ t)
      = join "," (member kw :: map member l) +:+ t) as ->.
    { intros t. rewrite join_cons. by destruct (member_starts kw (join_tail (map member l) t)) as (u & ->). }
    by rewrite IHw.
Qed.

Lemma items_put_new d k v : k ∉ d.*1 → items_put d k v = (d ++ [(k, v)])%list.
Proof.
  induction d as [|[k' v'] d IH]; cbn [items_put]; [done|]. rewrite fmap_cons.
  intros [Hk Hd]%not_elem_of_cons. cbn in Hk.
  destruct (String.eqb_spec k' k) as [->|_]; [done|]. by rewrite IH.
Qed.

Lemma dict_of_nodup d : NoDup d.*1 → dict_of d = d.
Proof.
  unfold dict_of. enough (∀ acc, NoDup (acc ++ d)%list.*1 →
    foldl (λ acc kv, items_put acc kv.1 kv.2) acc d = (acc ++ d)%list) as H by exact (H []).
  induction d as [|[k v] d IH]; intros acc Hd; cbn [foldl]; [by rewrite app_nil_r|].
  cbn [fst snd]. rewrite items_put_new.
  - rewrite IH; [by rewrite <-app_assoc|]. by rewrite <-app_assoc.
  - rewrite fmap_app, fmap_cons in Hd. apply NoDup_app in Hd as (_ & Hd & _).
    intros Hk. apply (Hd k Hk). left.
Qed.

Lemma json_wf_list l : json_wf (PList l) ↔ Forall json_wf l.
Proof.
  cbn. induction l as [|x l IH]; [by split|]. rewrite Forall_cons, <-IH. done.
Qed.

Lemma json_wf_dict d : json_wf (PDict d) ↔ NoDup d.*1 ∧ Forall (λ kv, json_wf kv.2) d.
Proof.
  cbn. apply and_iff_compat_l. induction d as [|x d IH]; [by split|].
  rewrite Forall_cons, <-IH. done.
Qed.

Lemma skip_ws_join v l rest :
  skip_ws (join "," (map encode_ascii (v :: l)) +:+ rest)
  = join "," (map encode_ascii (v :: l)) +:+ rest.
Proof. cbn [map]. rewrite join_cons. apply skip_ws_value. Qed.

(** Every value is read back from the text the encoder wrote. *)
Lemma read_value_ascii v : json_wf v → reads v.
Proof.
  induction v as [|b|z|s|l IH|d IH] using pyval_nested_ind; intros Hwf fuel rest Hr Hf;
    (destruct fuel as [|fuel]; [lia|]).
  - done.
  - by destruct b.
  - cbn [json_wf] in Hwf. pose proof (read_int_pretty z rest Hr Hwf) as Hi.
    destruct (pretty_Z_number z) as [Hn Hne]. cbn [encode_ascii] in *.
    destruct (pretty z) as [|c r]; [done|]. clear Hf Hwf Hne. rewrite sapp_cons in *.
    cbn [string_forallb] in Hn. apply andb_true_iff in Hn as [Hn _].
    cbn [read_value]. rewrite Hi.
    by destruct c as [[] [] [] [] [] [] [] []].
  - destruct (read_chars_str s rest) as (t & E & Ht). cbn [encode_ascii]. rewrite E.
    cbn [read_value]. unfold dquote. eval_guards. by rewrite Ht.
  - apply json_wf_list in Hwf.
    assert (Forall reads l) as Hl.
    { apply Forall_forall. intros x Hx. rewrite Forall_forall in IH, Hwf. eauto. }
    cbn [encode_ascii] in *. rewrite !slength_app in Hf. cbn [String.length] in Hf.
    snorm. cbn [read_value]. eval_guards.
    destruct l as [|x l]; [done|].
    rewrite skip_ws_join.
    pose proof (read_items_join x l fuel rest Hl ltac:(lia)) as Hi.
    cbn [map] in *. revert Hi. rewrite join_cons.
    destruct (value_starts x (join_tail (map encode_ascii l) (String "]" rest)))
      as (c & r & -> & _ & Hc & _). intros ->. by rewrite Hc.
  - apply json_wf_dict in Hwf as [Hnd Hwf].
    assert (Forall (λ kv, reads kv.2) d) as Hd.
    { apply Forall_forall. intros x Hx. rewrite Forall_forall in IH, Hwf. eauto. }
    change (encode_ascii (PDict d)) with ("{" +:+ join "," (map member d) +:+ "}") in *.
    rewrite !slength_app in Hf. cbn [String.length] in Hf.
    snorm. cbn [read_value]. eval_guards.
    destruct d as [|x d]; [done|].
    pose proof (read_members_join x d fuel rest Hd ltac:(lia)) as Hi.
    cbn [map] in *. revert Hi. rewrite join_cons.
    destruct (member_starts x (join_tail (map member d) (String "}" rest))) as (t & ->).
    intros Hi. cbn [skip_ws]. change (json_ws dquote) with false. cbn iota.
    change (code dquote =? 125)%N with false. cbn iota. rewrite Hi, res_bind_ret.
    by rewrite dict_of_nodup.
Qed.

(** [json.loads] gives back the value whose text it is given. *)
Lemma json_parse_ascii v ws :
  json_wf v → stops ws → skip_ws ws = "" → json_parse (encode_ascii v +:+ ws) = Ok v.
Proof.
  intros Hv Hf Hws. unfold json_parse. rewrite skip_ws_value.
  rewrite (read_value_ascii v Hv) by (rewrite ?slength_app; done || lia).
  by rewrite res_bind_ret, Hws.
Qed.

(** *** Bytes *)

Definition is_ascii (c : Ascii.ascii) : bool := (code c <? 128)%N.

Lemma forallb_app p a b : string_forallb p (a +:+ b) = string_forallb p a && string_forallb p b.
Proof.
  induction a as [|c a IH]; [done|]. rewrite sapp_cons. cbn [string_forallb].
  by rewrite IH, andb_assoc.
Qed.

Lemma forallb_impl (p q : Ascii.ascii → bool) s :
  (∀ c, p c = true → q c = true) → string_forallb p s = true → string_forallb q s = true.
Proof.
  intros Hpq. induction s as [|c s IH]; cbn; [done|]. rewrite !andb_true_iff. naive_solver.
Qed.

Lemma forallb_join p sep l :
  string_forallb p sep = true → Forall (λ s, string_forallb p s = true) l →
  string_forallb p (join sep l) = true.
Proof.
  intros Hs. induction 1 as [|s l Hl Hall IH]; [done|].
  destruct l as [|t l]; [done|]. change (join sep (s :: t :: l)) with (s +:+ sep +:+ join sep (t :: l)).
  by rewrite !forallb_app, Hl, Hs, IH.
Qed.

Lemma ascii_str_ascii s : string_forallb is_ascii (ascii_str s) = true.
Proof.
  unfold ascii_str. cbn [string_forallb]. rewrite forallb_app.
  assert (string_forallb is_ascii (concat_map ascii_char s) = true) as ->; [|done].
  induction s as [|c s IH]; [done|]. cbn [concat_map]. rewrite forallb_app, IH.
  by destruct c as [[] [] [] [] [] [] [] []].
Qed.

Lemma encode_ascii_ascii v : string_forallb is_ascii (encode_ascii v) = true.
Proof.
  induction v as [|b|z|s|l IH|d IH] using pyval_nested_ind; cbn [encode_ascii].
  - done.
  - by destruct b.
  - destruct (pretty_Z_number z) as [Hn _]. revert Hn. apply forallb_impl.
    intros c. by destruct c as [[] [] [] [] [] [] [] []].
  - apply ascii_str_ascii.
  - rewrite !forallb_app. rewrite forallb_join; [done|done|].
    by apply Forall_map.
  - rewrite !forallb_app. rewrite forallb_join; [done|done|]. apply Forall_map.
    eapply Forall_impl; [exact IH|]. intros [k v] Hv. cbn in Hv |- *.
    by rewrite !forallb_app, ascii_str_ascii, Hv.
Qed.

Lemma utf8_decode_ascii s : string_forallb is_ascii s = true → utf8_decode s = Some s.
Proof.
  induction s as [|c s IH]; cbn; [done|]. unfold is_ascii at 1.
  intros [-> Hs]%andb_true_iff. by rewrite (IH Hs).
Qed.

(** The text [json.dumps] writes, and a final newline. *)
Lemma json_loads_ascii v :
  json_wf v → json_loads (encode_ascii v +:+ String (chr 10) "") = Ok v.
Proof.
  intros Hv. unfold json_loads.
  rewrite utf8_decode_ascii by (by rewrite forallb_app, encode_ascii_ascii).
  by apply json_parse_ascii.
Qed.
