(* ===== verification/FileSystem.v ===== *)
(** * A file system that can fail at any moment

    What [activation_transaction.py] sees of the operating system: paths,
    directories with an identity, regular files with an owner, a mode, a link
    count and bytes, symbolic links, and the calls that change them.  A
    program runs in a world whose script says what happens to each such call:
    it is carried out, it fails with [OSError], or the process is killed before
    it.  [wp] is the logic in which programs are specified: a postcondition for
    a run that returns, a second condition for one that is interrupted.

    Reading is not interrupted and sees one state; a path names one entry (no
    directory on the way to it is a symbolic link); what a call did is durable
    in the order of the calls. *)
From S2P Require Import Prelude PyValues.

Open Scope string_scope.

(** ** Paths *)

(** An absolute path: the names from the root on. *)
Notation path := (list string).

Definition child (p : path) (n : string) : path := (p ++ [n])%list.
Notation "p // n" := (child p n) (at level 40, left associativity).

(** [Path.parent], [Path.name] *)
Definition parent (p : path) : path := removelast p.
Definition basename (p : path) : string := default "" (last p).

(** [under p q] is what follows [p] in [q]. *)
Fixpoint under (p q : path) : option path :=
  match p, q with
  | [], _ => Some q
  | x :: p, y :: q => if decide (x = y) then under p q else None
  | _ :: _, [] => None
  end.

(** [str(path)] *)
Definition str (p : path) : string := "/" +:+ join "/" p.

(** [s.split("/")] *)
Fixpoint split_slash (s : string) : string * list string :=
  match s with
  | "" => ("", [])
  | String c s =>
      let '(x, l) := split_slash s in
      if (code c =? 47)%N then ("", x :: l) else (String c x, l)
  end.

Definition parts (s : string) : list string := let '(x, l) := split_slash s in x :: l.

(** [os.path.normpath] of an absolute path; [acc] is the result so far, last
    name first. *)
Fixpoint normalize (acc : list string) (l : list string) : path :=
  match l with
  | [] => rev acc
  | x :: l =>
      if str_in x [""; "."] then normalize acc l
      else if String.eqb x ".." then normalize (tail acc) l
      else normalize (x :: acc) l
  end.

Definition is_absolute (s : string) : bool := startswith "/" s.

(** A name that can stand in a path. *)
Definition proper (n : string) : bool :=
  negb (str_in n [""; "."; ".."]) && negb (string_contains (chr 47) n).

Definition clean (p : path) : bool := forallb proper p.

(** What the host provides: the user, the digest, the random tokens, and the
    meaning of a path that does not start at the root. *)
Class Host := {
  uid : Z;
  umask : Z;
  sha256 : string → string;
  token : nat → string;
  relative : string → path;
  canonical_address : string → option string;
}.

(** A hexadecimal digit. *)
Definition hex_char (c : Ascii.ascii) : bool :=
  match digit_of c with
  | Some _ => true
  | None => ((97 <=? code c) && (code c <=? 102))%N
  end.

(** ** Nodes *)

Record ident := Ident { device : Z; inode : Z }.
#[global] Instance ident_eq_dec : EqDecision ident.
Proof. solve_decision. Defined.

Inductive node :=
| Dir (id : ident) (owner mode : Z)
| Reg (id : ident) (owner mode : Z) (content : string)
| Lnk (target : string)
| Special.
#[global] Instance node_eq_dec : EqDecision node.
Proof. solve_decision. Defined.

Notation fs := (gmap path node).

Definition node_ident (n : node) : option ident :=
  match n with Dir i _ _ | Reg i _ _ _ => Some i | _ => None end.
Definition file_ident (n : node) : option ident :=
  match n with Reg i _ _ _ => Some i | _ => None end.
Definition is_dir (n : node) : bool := match n with Dir _ _ _ => true | _ => false end.
Definition is_link (n : node) : bool := match n with Lnk _ => true | _ => false end.

(** [st_nlink] of a regular file. *)
Definition nlink (f : fs) (i : ident) : nat :=
  size (filter (λ kv, file_ident kv.2 = Some i) f).

Definition dir_at (f : fs) (p : path) : bool :=
  match f !! p with Some (Dir _ _ _) => true | _ => false end.

Definition lexists (f : fs) (p : path) : bool := bool_decide (is_Some (f !! p)).

(** [path.lstat()] *)
Definition lstat (f : fs) (p : path) : res node :=
  match f !! p with Some n => Ok n | None => Err FileNotFoundError end.

(** The names in a directory, in some order. *)
Definition scandir (f : fs) (d : path) : list string :=
  omap (λ kv, match under d kv.1 with Some [n] => Some n | _ => None end) (map_to_list f).

(** Everything under [s] moves to [d]. *)
Definition mv (s d : path) (f : fs) : fs :=
  list_to_map (omap (λ kv, (., kv.2) <$> (app d <$> under s kv.1)) (map_to_list f))
  ∪ filter (λ kv, under s kv.1 = None ∧ under d kv.1 = None) f.

(** ** Worlds and programs *)

Inductive fault := Kill | Fail.

Record world := World {
  files : fs;
  next_inode : Z;
  draws : nat;
  script : list (option fault);
}.

Definition set_files (f : fs) (w : world) : world :=
  World f (next_inode w) (draws w) (script w).
Definition set_script (s : list (option fault)) (w : world) : world :=
  World (files w) (next_inode w) (draws w) s.

Definition M (A : Type) : Type := world → world * res A.

#[global] Instance M_ret : MRet M := λ A a w, (w, Ok a).
#[global] Instance M_bind : MBind M := λ A B f m w,
  match m w with
  | (w', Ok a) => f a w'
  | (w', Err e) => (w', Err e)
  end.

Definition raise {A} (e : exn) : M A := λ w, (w, Err e).
Definition guard_not (b : bool) (e : exn) : M unit := if b then raise e else mret tt.

(** What the program can find out without changing anything. *)
Definition reading {A} (g : fs → res A) : M A := λ w, (w, g (files w)).

(** A call that changes the file system or makes a change durable. *)
Definition syscall {A} (g : M A) : M A := λ w,
  match script w with
  | [] => g w
  | None :: s => g (set_script s w)
  | Some Kill :: s => (set_script s w, Err Killed)
  | Some Fail :: s => (set_script s w, Err OSError)
  end.

(** [try: m; finally: h] *)
Definition finally {A} (m : M A) (h : M unit) : M A := λ w,
  match m w with
  | (w1, Err Killed) => (w1, Err Killed)
  | (w1, r) =>
      match h w1 with
      | (w2, Ok _) => (w2, r)
      | (w2, Err e) => (w2, Err e)
      end
  end.

(** [try: m; except FileNotFoundError: h] *)
Definition catch_missing {A} (m : M A) (h : M A) : M A := λ w,
  match m w with
  | (w1, Err FileNotFoundError) => h w1
  | r => r
  end.

(** [try: m; except BaseException: h; raise] *)
Definition on_error {A} (m : M A) (h : M unit) : M A := λ w,
  match m w with
  | (w1, Err Killed) => (w1, Err Killed)
  | (w1, Err e) =>
      match h w1 with
      | (w2, Ok _) => (w2, Err e)
      | (w2, Err e') => (w2, Err e')
      end
  | r => r
  end.

(** ** System calls *)

Definition change (g : fs → res fs) : M unit :=
  syscall (λ w, match g (files w) with
                | Ok f => (set_files f w, Ok tt)
                | Err e => (w, Err e)
                end).

(** A name is entered into a directory that exists. *)
Definition enter (p : path) (n : node) (f : fs) : res fs :=
  raise_if (lexists f p) FileExistsError;;
  raise_if (negb (dir_at f (parent p))) FileNotFoundError;;
  Ok (<[p := n]> f).

(** A new inode, on the device of the directory. *)
Definition new_ident (f : fs) (p : path) (ino : Z) : ident :=
  match f !! parent p with
  | Some (Dir i _ _) => Ident (device i) ino
  | _ => Ident 0 ino
  end.

Definition enter_new (p : path) (n : ident → node) : M unit :=
  syscall (λ w,
    match enter p (n (new_ident (files w) p (next_inode w))) (files w) with
    | Ok f => (World f (next_inode w + 1) (draws w) (script w), Ok tt)
    | Err e => (w, Err e)
    end).

Section calls.
Context {host : Host}.

(** [os.open(p, O_CREAT | O_EXCL, mode)] *)
Definition create (p : path) (mode : Z) : M unit :=
  enter_new p (λ i, Reg i uid (Z.land mode (Z.lnot umask)) "").
(** [os.mkdir(p, mode)] *)
Definition mkdir (p : path) (mode : Z) : M unit :=
  enter_new p (λ i, Dir i uid (Z.land mode (Z.lnot umask))).
End calls.

(** [os.symlink(target, p)] *)
Definition symlink (target : string) (p : path) : M unit := change (enter p (Lnk target)).

(** [os.link(p, q)] *)
Definition link (p q : path) : M unit := change (λ f,
  n ← lstat f p;
  raise_if (is_dir n) (PermissionError "operation not permitted");; enter q n f).

(** [os.chmod], [os.fchmod] on the file opened at [p] *)
Definition chmod (p : path) (mode : Z) : M unit := change (λ f,
  n ← lstat f p;
  match n with
  | Dir i o _ => Ok (<[p := Dir i o mode]> f)
  | Reg i o _ c => Ok (<[p := Reg i o mode c]> f)
  | _ => Err OSError
  end).

(** One byte written at the end of the file opened at [p]. *)
Definition write_byte (p : path) (c : Ascii.ascii) : M unit := change (λ f,
  n ← lstat f p;
  match n with
  | Reg i o m s => Ok (<[p := Reg i o m (s +:+ String c "")]> f)
  | _ => Err OSError
  end).

(** The loop around [os.write], which may stop short after every byte. *)
Fixpoint write_all (p : path) (s : string) : M unit :=
  match s with
  | "" => mret tt
  | String c s => write_byte p c;; write_all p s
  end.

(** [os.fsync] on the file opened at [p] *)
Definition fsync_file (p : path) : M unit := change (λ f, _ ← lstat f p; Ok f).

(** [p.unlink()] *)
Definition unlink (p : path) : M unit := change (λ f,
  n ← lstat f p;
  raise_if (is_dir n) (PermissionError "operation not permitted");; Ok (delete p f)).

(** [p.rmdir()] *)
Definition rmdir (p : path) : M unit := change (λ f,
  n ← lstat f p;
  raise_if (negb (is_dir n)) OSError;;
  match scandir f p with [] => Ok (delete p f) | _ => Err OSError end).

Fixpoint for_each {A} (l : list A) (m : A → M unit) : M unit :=
  match l with
  | [] => mret tt
  | x :: l => m x;; for_each l m
  end.

(** What lies at or under [p], the deepest first. *)
Definition longer : relation path := λ p q, (length q ≤ length p)%nat.
#[global] Instance longer_dec : RelDecision longer.
Proof. intros p q. unfold longer. apply _. Defined.
Definition below (f : fs) (p : path) : list path :=
  merge_sort longer (filter (λ q, is_Some (under p q)) (map_to_list f).*1).

(** [shutil.rmtree(p)] *)
Definition rmtree (p : path) : M unit :=
  l ← reading (λ f, Ok (below f p));
  for_each l (λ q, change (λ f, Ok (delete q f))).

(** [os.rename(s, d)], [os.replace(s, d)] *)
Definition rename_files (s d : path) (f : fs) : res fs :=
  n ← lstat f s;
  raise_if (negb (dir_at f (parent d))) FileNotFoundError;;
  match n with
  | Dir _ _ _ =>
      raise_if (bool_decide (is_Some (under s d))) OSError;;
      match f !! d with
      | None => Ok (mv s d f)
      | Some (Dir _ _ _) =>
          match scandir f d with [] => Ok (mv s d (delete d f)) | _ => Err OSError end
      | Some _ => Err OSError
      end
  | _ =>
      match f !! d with
      | Some (Dir _ _ _) => Err OSError
      | Some m =>
          if bool_decide (is_Some (file_ident n) ∧ file_ident n = file_ident m)
          then Ok f  (* two names of one file: nothing happens *)
          else Ok (<[d := n]> (delete s f))
      | None => Ok (<[d := n]> (delete s f))
      end
  end.

Definition rename (s d : path) : M unit := change (rename_files s d).

(** [_fsync_directory] *)
Definition fsync_directory (p : path) : M unit := change (λ f,
  n ← lstat f p;
  raise_if (negb (is_dir n)) OSError;; Ok f).

(** [secrets.token_hex(12)] *)
Definition token_hex {host : Host} : M string := λ w,
  (World (files w) (next_inode w) (S (draws w)) (script w), Ok (token (draws w))).

(** The name of a temporary file for [n]. *)
Definition tmp_name (n t : string) : string := "." +:+ n +:+ "." +:+ t +:+ ".tmp".
