(* ===== verification/FileLogic.v ===== *)
(** * Reasoning about programs on the file system

    The equations of paths, of [mv] and of the link count; states equal up to
    temporary files; and the rules of [wp], one for each call. *)
From S2P Require Import Prelude PyValues FileSystem.

Open Scope string_scope.

(** ** Runs that end well *)

Lemma M_bind_Ok {A B} (m : M A) (f : A → M B) w w' b :
  (m ≫= f) w = (w', Ok b) ↔ ∃ a w1, m w = (w1, Ok a) ∧ f a w1 = (w', Ok b).
Proof.
  unfold mbind, M_bind. destruct (m w) as [w1 [a|e]]; split.
  - intros H. by exists a, w1.
  - by intros (? & ? & [= -> ->] & H).
  - done.
  - by intros (? & ? & ? & ?).
Qed.

Lemma reading_Ok {A} (g : fs → res A) w w' a : reading g w = (w', Ok a) ↔ w' = w ∧ g (files w) = Ok a.
Proof. unfold reading. split; [by intros [= -> ->]|by intros [-> ->]]. Qed.

(** ** Paths *)

Lemma under_Some p q r : under p q = Some r ↔ q = (p ++ r)%list.
Proof.
  revert q. induction p as [|x p IH]; intros q; cbn; [naive_solver|].
  destruct q as [|y q]; [naive_solver|]. case_decide as H.
  - subst. rewrite IH. naive_solver.
  - naive_solver.
Qed.

Lemma under_None p q : under p q = None ↔ ∀ r, q ≠ (p ++ r)%list.
Proof.
  rewrite eq_None_not_Some. unfold is_Some. setoid_rewrite under_Some. naive_solver.
Qed.

Lemma under_app_same p a b : under (p ++ a)%list (p ++ b)%list = under a b.
Proof. induction p as [|x p IH]; cbn; [done|]. by rewrite decide_True. Qed.

Lemma under_refl p : under p p = Some [].
Proof. apply under_Some. by rewrite app_nil_r. Qed.

Lemma under_below p a : under p (p ++ a)%list = Some a.
Proof. by apply under_Some. Qed.

Lemma under_trans p q a : is_Some (under p q) → is_Some (under p (q ++ a)%list).
Proof. intros [r ->%under_Some]. exists (r ++ a)%list. apply under_Some. by rewrite app_assoc. Qed.

(** Two paths, neither of which leads to the other. *)
Definition apart (p q : path) : Prop := under p q = None ∧ under q p = None.

Lemma apart_sym p q : apart p q → apart q p.
Proof. unfold apart. tauto. Qed.

Lemma apart_below p q a : apart p q → under p (q ++ a)%list = None.
Proof.
  intros [Hpq Hqp]. apply under_None. intros r E. rewrite under_None in Hpq, Hqp.
  apply app_eq_app in E as (k & [[-> ->]|[-> ->]]); [by eapply Hpq|by eapply Hqp].
Qed.

(** ** Moving a tree *)

Lemma lookup_mv s d f p :
  under s d = None →
  mv s d f !! p =
    match under d p with
    | Some r => f !! (s ++ r)%list
    | None => match under s p with Some _ => None | None => f !! p end
    end.
Proof.
  intros Hsd. unfold mv. rewrite lookup_union.
  set (moved := omap _ _).
  assert (∀ q n, (q, n) ∈ moved ↔ ∃ r, q = (d ++ r)%list ∧ f !! (s ++ r)%list = Some n) as Hin.
  { intros q n. unfold moved. rewrite list_elem_of_omap. split.
    - intros ([k m] & Hk & E). cbn in E. destruct (under s k) as [r|] eqn:Hr; [|done].
      injection E as <- <-. apply under_Some in Hr as ->. exists r. split; [done|].
      by apply elem_of_map_to_list.
    - intros (r & -> & Hr). exists ((s ++ r)%list, n). split; [by apply elem_of_map_to_list|].
      cbn. by rewrite under_below. }
  assert (NoDup moved.*1) as Hnd.
  { unfold moved. pose proof (NoDup_fst_map_to_list f) as Hf. revert Hf. clear.
    induction (map_to_list f) as [|[k m] l IH]; cbn; intros Hf; [constructor|].
    apply NoDup_cons in Hf as [Hk Hl]. destruct (under s k) as [r|] eqn:Hr; cbn; [|by apply IH].
    apply NoDup_cons. split; [|by apply IH]. intros Hx. apply Hk.
    apply list_elem_of_fmap in Hx as ([q n] & Hq & Hx). cbn in Hq. subst.
    apply list_elem_of_omap in Hx as ([k' m'] & Hk' & E). cbn in E.
    destruct (under s k') as [r'|] eqn:Hr'; [|done]. cbn in E. injection E as E _.
    apply app_inv_head in E as ->. apply under_Some in Hr, Hr'. subst.
    apply list_elem_of_fmap. by exists ((s ++ r)%list, m'). }
  assert (∀ r, list_to_map (M := fs) moved !! (d ++ r)%list = f !! (s ++ r)%list) as Hmoved.
  { intros r. apply option_eq. intros n. rewrite <-elem_of_list_to_map by done.
    rewrite Hin. split; [|by eauto]. intros (r' & E & H). by apply app_inv_head in E as ->. }
  destruct (under d p) as [r|] eqn:Hd.
  - apply under_Some in Hd as ->. rewrite Hmoved.
    destruct (f !! (s ++ r)%list); [by rewrite union_Some_l|].
    rewrite (left_id None _). apply map_lookup_filter_None. right.
    intros ? _ [_ H]. cbn in H. by rewrite under_below in H.
  - assert (list_to_map (M := fs) moved !! p = None) as ->.
    { apply not_elem_of_list_to_map. intros H.
      apply list_elem_of_fmap in H as ([q n] & -> & H). apply Hin in H as (r & Hq & _).
      cbn in Hd. rewrite Hq, under_below in Hd. done. }
    rewrite (left_id None _). destruct (under s p) as [r|] eqn:Hs.
    + apply map_lookup_filter_None. right. intros ? _ [H _]. cbn in H. congruence.
    + destruct (f !! p) as [n|] eqn:Hp.
      * by apply map_lookup_filter_Some.
      * apply map_lookup_filter_None. by left.
Qed.

(** ** Listing a directory *)

Lemma elem_of_scandir f d n : n ∈ scandir f d ↔ is_Some (f !! (d // n)).
Proof.
  unfold scandir. rewrite list_elem_of_omap. split.
  - intros ([p x] & Hp & E). cbn in E. apply elem_of_map_to_list in Hp.
    destruct (under d p) as [[|y [|]]|] eqn:Hu; try done. injection E as ->.
    apply under_Some in Hu as ->. by exists x.
  - intros [x Hx]. exists (d // n, x). split; [by apply elem_of_map_to_list|].
    cbn. unfold child. by rewrite under_below.
Qed.

Lemma NoDup_scandir f d : NoDup (scandir f d).
Proof.
  unfold scandir. pose proof (NoDup_fst_map_to_list f) as Hf. revert Hf.
  induction (map_to_list f) as [|[p x] l IH]; cbn; intros Hf; [constructor|].
  apply NoDup_cons in Hf as [Hp Hl].
  destruct (under d p) as [[|n [|]]|] eqn:Hu; try by apply IH.
  apply NoDup_cons. split; [|by apply IH]. intros Hn. apply Hp.
  apply list_elem_of_omap in Hn as ([q y] & Hq & E). cbn in E.
  destruct (under d q) as [[|k [|]]|] eqn:Hu'; try done. injection E as ->.
  apply under_Some in Hu, Hu'. subst. apply list_elem_of_fmap. by exists ((d ++ [n])%list, y).
Qed.

(** With nothing at the destination, a move exchanges two places. *)
Definition swapped (s d p : path) : path :=
  match under s p with
  | Some r => (d ++ r)%list
  | None => match under d p with Some r => (s ++ r)%list | None => p end
  end.

Lemma swapped_twice s d p : apart s d → swapped s d (swapped s d p) = p.
Proof.
  intros H. unfold swapped.
  destruct (under s p) as [r|] eqn:Hs; [|destruct (under d p) as [r|] eqn:Hd].
  - apply under_Some in Hs as ->. rewrite (apart_below s d r H). by rewrite under_below.
  - apply under_Some in Hd as ->. by rewrite under_below.
  - by rewrite Hs, Hd.
Qed.

Lemma mv_swapped s d f :
  apart s d → (∀ r, f !! (d ++ r)%list = None) →
  ∀ p, mv s d f !! p = f !! swapped s d p.
Proof.
  intros H Hd p. rewrite lookup_mv by apply H. unfold swapped.
  destruct (under d p) as [r|] eqn:Hp.
  - apply under_Some in Hp as ->. by rewrite (apart_below s d r H).
  - destruct (under s p); [by rewrite Hd|done].
Qed.

(** ** Link counts *)

Definition links (o : option node) (i : ident) : nat :=
  if decide (o ≫= file_ident = Some i) then 1 else 0.

Lemma nlink_new f p n i :
  f !! p = None → nlink (<[p := n]> f) i = nlink f i + links (Some n) i.
Proof.
  intros Hp. unfold nlink, links. rewrite map_filter_insert. cbn. case_decide as Hn.
  - rewrite map_size_insert_None; [lia|]. apply map_lookup_filter_None. by left.
  - rewrite map_filter_delete, delete_id; [lia|]. apply map_lookup_filter_None. by left.
Qed.

Lemma nlink_insert f p n i :
  nlink (<[p := n]> f) i + links (f !! p) i = nlink f i + links (Some n) i.
Proof.
  destruct (f !! p) as [m|] eqn:Hp.
  - rewrite <-insert_delete_eq, nlink_new by apply lookup_delete_eq.
    pose proof (nlink_new (delete p f) p m i (lookup_delete_eq _ _)) as E.
    rewrite insert_delete_id in E by done. lia.
  - rewrite nlink_new by done. change (links None i) with 0. lia.
Qed.

Lemma nlink_delete f p i : nlink (delete p f) i + links (f !! p) i = nlink f i.
Proof.
  destruct (f !! p) as [m|] eqn:Hp.
  - pose proof (nlink_insert (delete p f) p m i) as H. rewrite lookup_delete_eq in H.
    rewrite insert_delete_id in H by done. unfold links at 1 in H.
    rewrite decide_False in H by done. lia.
  - rewrite delete_id by done. unfold links. rewrite decide_False by done. lia.
Qed.

Lemma links_None i : links None i = 0.
Proof. done. Qed.

Lemma links_other o i : o ≫= file_ident ≠ Some i → links o i = 0.
Proof. intros. unfold links. by rewrite decide_False. Qed.

Lemma nlink_mv s d f i :
  apart s d → (∀ r, f !! (d ++ r)%list = None) → nlink (mv s d f) i = nlink f i.
Proof.
  intros H Hd. unfold nlink.
  assert (Inj (=) (=) (swapped s d)) as Hinj.
  { intros p q E. by rewrite <-(swapped_twice s d p H), E, swapped_twice. }
  assert (mv s d f = kmap (swapped s d) f) as ->.
  { apply map_eq. intros p. rewrite (mv_swapped s d f H Hd). symmetry.
    rewrite <-(swapped_twice s d p H) at 1. apply lookup_kmap. done. }
  assert (filter (λ kv : path * node, file_ident kv.2 = Some i) (kmap (swapped s d) f)
    = kmap (swapped s d) (filter (λ kv : path * node, file_ident kv.2 = Some i) f)) as ->.
  { apply map_eq. intros p. rewrite <-(swapped_twice s d p H).
    rewrite lookup_kmap by done. rewrite !map_lookup_filter, lookup_kmap by done. done. }
  rewrite <-!length_map_to_list, (map_to_list_kmap (M1 := gmap path) (M2 := gmap path) (swapped s d)).
  by rewrite length_fmap.
Qed.

(** Every entry is in a directory. *)
Definition rooted (f : fs) : Prop := ∀ p n, is_Some (f !! (p // n)) → dir_at f p = true.

Lemma rooted_none f p r : rooted f → f !! p = None → f !! (p ++ r)%list = None.
Proof.
  intros Hr Hp. induction r as [|n r IH] using rev_ind; [by rewrite app_nil_r|].
  rewrite app_assoc. destruct (f !! ((p ++ r) ++ [n])%list) as [m|] eqn:E; [|done].
  pose proof (Hr (p ++ r)%list n (ex_intro _ m E)) as Hd. unfold dir_at in Hd.
  by rewrite IH in Hd.
Qed.

Lemma rooted_insert f p n :
  rooted f → (∀ d m, p = d // m → dir_at f d = true) →
  (dir_at f p = true → is_dir n = true) → rooted (<[p := n]> f).
Proof.
  intros Hr Hpar Hdir.
  assert (∀ d, dir_at f d = true → dir_at (<[p := n]> f) d = true) as Hmono.
  { intros d Hd. unfold dir_at in *. destruct (decide (d = p)) as [->|Hne].
    - rewrite lookup_insert_eq. specialize (Hdir Hd). by destruct n.
    - by rewrite lookup_insert_ne. }
  intros q m [x [[E _]|[_ H]]%lookup_insert_Some]; apply Hmono; [by eapply Hpar|].
  apply (Hr q m). by exists x.
Qed.

Lemma rooted_delete f p : rooted f → dir_at f p = false → rooted (delete p f).
Proof.
  intros Hr Hp q m [x [_ H]%lookup_delete_Some]. pose proof (Hr q m (ex_intro _ _ H)) as Hd.
  unfold dir_at in *. rewrite lookup_delete_ne; [done|]. intros <-. congruence.
Qed.

Lemma rooted_mv f s d :
  rooted f → apart s d → dir_at f (parent d) = true → rooted (mv s d f).
Proof.
  intros Hr Ha Hpar p n [m H]. rewrite lookup_mv in H by apply Ha. unfold dir_at.
  rewrite lookup_mv by apply Ha.
  destruct (under d (p // n)) as [r|] eqn:E.
  - apply under_Some in E. destruct r as [|x r _] using rev_ind.
    + rewrite app_nil_r in E. subst d. unfold parent, child in Hpar. rewrite removelast_last in Hpar.
      destruct (under (p // n) p) as [r|] eqn:E.
      { apply under_Some in E. apply (f_equal length) in E.
        unfold child in E. rewrite !length_app in E. cbn in E. lia. }
      destruct (under s p) as [r|] eqn:E'; [|done].
      destruct Ha as [Ha _]. destruct (under_trans s p [n]) as [? E'']; [by rewrite E'|].
      unfold child in Ha. congruence.
    + rewrite app_assoc in E. apply app_inj_tail in E as [-> <-].
      rewrite under_below. apply (Hr _ n). exists m. unfold child.
      by rewrite <-app_assoc.
  - destruct (under s (p // n)) as [r|] eqn:E'; [done|].
    destruct (under d p) as [r|] eqn:E2.
    { destruct (under_trans d p [n]) as [? E'']; [by rewrite E2|]. unfold child in E. congruence. }
    destruct (under s p) as [r|] eqn:E3.
    { destruct (under_trans s p [n]) as [? E'']; [by rewrite E3|]. unfold child in E'. congruence. }
    apply (Hr _ n). by exists m.
Qed.

(** ** States equal up to temporary files *)

Fixpoint endswith (suffix s : string) : bool :=
  String.eqb suffix s || match s with String _ s => endswith suffix s | "" => false end.

(** Names like those of the files a program writes before it renames them. *)
Definition temp_name (n : string) : bool := startswith "." n && endswith ".tmp" n.
Definition temp (p : path) : bool := existsb temp_name p.

Lemma temp_app p q : temp (p ++ q)%list = temp p || temp q.
Proof. apply existsb_app. Qed.

(** [f] is [g], but for temporary files. *)
Record fs_eqv (f g : fs) : Prop := {
  eqv_lookup : ∀ p, temp p = false → f !! p = g !! p;
  eqv_nlink : ∀ p i o m c, temp p = false → g !! p = Some (Reg i o m c) → nlink f i = nlink g i;
}.

#[global] Instance fs_eqv_equiv : Equivalence fs_eqv.
Proof.
  split.
  - done.
  - intros f g [Hl Hn]. split; [by intros; rewrite Hl|].
    intros p i o m c Hp H. symmetry. eapply Hn; [exact Hp|]. by rewrite <-Hl.
  - intros f g h [Hl Hn] [Hl' Hn']. split; [by intros; rewrite Hl, Hl'|].
    intros p i o m c Hp H. transitivity (nlink g i).
    + eapply Hn; [exact Hp|]. by rewrite Hl'.
    + by eapply Hn'.
Qed.

(** The entry at a path that is no temporary may change in both. *)
Lemma eqv_insert f g p n :
  temp p = false → fs_eqv f g →
  (∀ i, file_ident n = Some i → nlink f i = nlink g i) →
  fs_eqv (<[p := n]> f) (<[p := n]> g).
Proof.
  intros Hp [Hl Hn] Hi. split.
  - intros q Hq. destruct (decide (q = p)) as [->|Hne]; [by rewrite !lookup_insert_eq|].
    rewrite !lookup_insert_ne by done. by apply Hl.
  - intros q i o m c Hq H.
    pose proof (nlink_insert f p n i) as E1. pose proof (nlink_insert g p n i) as E2.
    rewrite (Hl p Hp) in E1. assert (nlink f i = nlink g i) as E; [|lia].
    destruct (decide (q = p)) as [->|Hne].
    + rewrite lookup_insert_eq in H. injection H as ->. by apply Hi.
    + rewrite lookup_insert_ne in H by done. by eapply Hn.
Qed.

Lemma eqv_delete f g p :
  temp p = false → fs_eqv f g → fs_eqv (delete p f) (delete p g).
Proof.
  intros Hp [Hl Hn]. split.
  - intros q Hq. destruct (decide (q = p)) as [->|Hne]; [by rewrite !lookup_delete_eq|].
    rewrite !lookup_delete_ne by done. by apply Hl.
  - intros q i o m c Hq H. apply lookup_delete_Some in H as [Hne H].
    pose proof (nlink_delete f p i) as E1. pose proof (nlink_delete g p i) as E2.
    rewrite (Hl p Hp) in E1. pose proof (Hn _ _ _ _ _ Hq H). lia.
Qed.

Lemma eqv_mv f g s d :
  temp s = false → temp d = false → apart s d →
  (∀ r, f !! (d ++ r)%list = None) → (∀ r, g !! (d ++ r)%list = None) →
  fs_eqv f g → fs_eqv (mv s d f) (mv s d g).
Proof.
  intros Hs Hd Ha Hf Hg [Hl Hn]. split.
  - intros p Hp. rewrite !lookup_mv by apply Ha.
    destruct (under d p) as [r|] eqn:E.
    + apply under_Some in E as ->. rewrite temp_app in Hp. apply orb_false_iff in Hp as [_ Hr].
      apply Hl. by rewrite temp_app, Hs, Hr.
    + destruct (under s p); [done|]. by apply Hl.
  - intros p i o m c Hp H. rewrite !nlink_mv by done. rewrite mv_swapped in H by done.
    eapply Hn; [|exact H]. unfold swapped.
    destruct (under s p) as [r|] eqn:E; [|destruct (under d p) as [r|] eqn:E'; [|done]].
    + apply under_Some in E as ->. rewrite temp_app in Hp |- *.
      apply orb_false_iff in Hp as [_ Hr]. by rewrite Hd, Hr.
    + apply under_Some in E' as ->. rewrite temp_app in Hp |- *.
      apply orb_false_iff in Hp as [_ Hr]. by rewrite Hs, Hr.
Qed.

(** A temporary may change alone, if no file that is not temporary has its
    identity. *)
Lemma eqv_temp f g p (o : option node) :
  temp p = true →
  (∀ q i, temp q = false → f !! q ≫= file_ident = Some i →
     f !! p ≫= file_ident ≠ Some i ∧ o ≫= file_ident ≠ Some i) →
  fs_eqv f g →
  fs_eqv (match o with Some n => <[p := n]> f | None => delete p f end) g.
Proof.
  intros Hp Hi [Hl Hn].
  assert (∀ q, temp q = false → q ≠ p) as Hne by (intros q Hq ->; congruence).
  assert (∀ q i o' m c, temp q = false → g !! q = Some (Reg i o' m c) →
    links (f !! p) i = 0 ∧ links o i = 0) as Hz.
  { intros q i o' m c Hq H. destruct (Hi q i Hq) as [H1 H2]; [by rewrite Hl, H|].
    split; by apply links_other. }
  split.
  - intros q Hq. specialize (Hne q Hq). rewrite <-(Hl q Hq).
    destruct o; [by rewrite lookup_insert_ne|by rewrite lookup_delete_ne].
  - intros q i o' m c Hq H. destruct (Hz _ _ _ _ _ Hq H) as [Z1 Z2].
    rewrite <-(Hn q i o' m c Hq H). destruct o as [n|].
    + pose proof (nlink_insert f p n i). lia.
    + pose proof (nlink_delete f p i). lia.
Qed.

(** ** The logic of interrupted programs *)

(** The errors of a run that was interrupted. *)
Definition interruption (e : exn) : Prop := e = Killed ∨ e = OSError.

Lemma killed_interruption : interruption Killed.
Proof. by left. Qed.
Lemma failed_interruption : interruption OSError.
Proof. by right. Qed.
#[export] Hint Resolve killed_interruption failed_interruption : core.

(** [wp m Q C w]: from [w], [m] returns a value and a world in [Q], or the
    script interrupts it in a world in [C]. *)
Definition wp {A} (m : M A) (Q : A → world → Prop) (C : world → Prop) (w : world) : Prop :=
  let '(w', r) := m w in
  script w' `suffix_of` script w ∧
  match r with
  | Ok a => Q a w'
  | Err e => interruption e ∧ (∃ x, Some x ∈ script w) ∧ C w'
  end.

Lemma fault_suffix (s s' : list (option fault)) :
  s' `suffix_of` s → (∃ x, Some x ∈ s') → ∃ x, Some x ∈ s.
Proof. intros [k ->] [x Hx]. exists x. apply elem_of_app. by right. Qed.

Lemma wp_ret {A} (a : A) Q C w : Q a w → wp (mret a) Q C w.
Proof. intros H. by split. Qed.

Lemma wp_bind {A B} (m : M A) (f : A → M B) Q C w :
  wp m (λ a, wp (f a) Q C) C w → wp (m ≫= f) Q C w.
Proof.
  unfold wp, mbind, M_bind. destruct (m w) as [w1 [a|e]]; [|done].
  intros [Hs1 H]. destruct (f a w1) as [w2 r]. destruct H as [Hs2 H].
  split; [by etrans|]. destruct r as [b|e]; [done|]. destruct H as (He & Hx & HC).
  split_and!; [done| |done]. exact (fault_suffix _ _ Hs1 Hx).
Qed.

Lemma wp_mono {A} (m : M A) Q Q' (C C' : world → Prop) w :
  wp m Q C w → (∀ a w', Q a w' → Q' a w') → (∀ w', C w' → C' w') → wp m Q' C' w.
Proof. unfold wp. destruct (m w) as [w' [a|e]]; naive_solver. Qed.

Lemma wp_reading {A} (g : fs → res A) a Q C w :
  g (files w) = Ok a → Q a w → wp (reading g) Q C w.
Proof. intros Hg HQ. unfold wp, reading. by rewrite Hg. Qed.

Lemma wp_guard b e (Q : unit → world → Prop) C w :
  b = false → Q tt w → wp (guard_not b e) Q C w.
Proof. intros -> HQ. by apply wp_ret. Qed.

Lemma wp_finally {A} (m : M A) (h : M unit) Q C w :
  wp m (λ a w', wp h (λ _, Q a) C w') (λ w', C w' ∧ wp h (λ _, C) C w') w →
  wp (finally m h) Q C w.
Proof.
  unfold wp, finally. destruct (m w) as [w1 [a|e]]; intros [Hs1 H].
  - destruct (h w1) as [w2 [[]|e2]]; destruct H as [Hs2 H].
    + split; [by etrans|done].
    + destruct H as (He & Hx & HC). split; [by etrans|]. split_and!; [done| |done].
      exact (fault_suffix _ _ Hs1 Hx).
  - destruct H as (He & Hx & HC & Hh). destruct He as [-> | ->]; [by split_and!|].
    destruct (h w1) as [w2 [[]|e2]]; destruct Hh as [Hs2 H].
    + split; [by etrans|]. split_and!; [by right|done|done].
    + destruct H as (He & Hx2 & HC2). split; [by etrans|]. by split_and!.
Qed.

(** A call that may be missing its entry, when it is not. *)
Lemma wp_catch_missing {A} (m h : M A) Q C w :
  wp m Q C w → wp (catch_missing m h) Q C w.
Proof.
  unfold wp, catch_missing. destruct (m w) as [w1 [a|e]]; [done|].
  intros (Hs & [-> | ->] & Hx & HC); by split_and!.
Qed.


(** A run without faults in its script returns. *)
Lemma wp_total {A} (m : M A) Q C w :
  wp m Q C w → (∀ x, Some x ∉ script w) →
  ∃ a w', m w = (w', Ok a) ∧ Q a w'.
Proof.
  unfold wp. destruct (m w) as [w' [a|e]]; intros [Hs H] Hn; [by eauto|].
  destruct H as (_ & [x Hx] & _). by destruct (Hn x).
Qed.

(** Runs of a program one after another, each with faults of its own; a run
    starts where the one before it ended or was interrupted. *)
Fixpoint attempts {A} (m : M A) (l : list (list (option fault))) (w : world) : world :=
  match l with
  | [] => w
  | s :: l => attempts m l (m (set_script s w)).1
  end.

(** When every run keeps [I], they all do, and a last one without faults
    returns. *)
Lemma wp_attempts {A} (m : M A) (I : world → Prop) (Q : A → world → Prop) l w :
  (∀ w s, I w → I (set_script s w)) → (∀ w, I w → wp m Q I w) → (∀ a w, Q a w → I w) → I w →
  I (attempts m l w) ∧
  ∃ a w', m (set_script [] (attempts m l w)) = (w', Ok a) ∧ Q a w'.
Proof.
  intros Hs Hm HQ. revert w. induction l as [|s l IH]; intros w Hw; cbn.
  - split; [done|]. apply (wp_total m Q I); [by apply Hm, Hs|]. intros x. apply not_elem_of_nil.
  - apply IH. specialize (Hm _ (Hs w s Hw)). unfold wp in Hm.
    destruct (m (set_script s w)) as [w' [a|e]]; destruct Hm as [_ Hm]; [by eapply HQ|by apply Hm].
Qed.

(** A predicate that the script does not matter to. *)
Definition scriptless (P : world → Prop) : Prop :=
  ∀ w s, P w → P (set_script s w).

Lemma wp_syscall {A} (g : M A) Q C w :
  (∀ s, wp g Q C (set_script s w)) → (∀ s, C (set_script s w)) →
  wp (syscall g) Q C w.
Proof.
  intros Hg HC. unfold wp, syscall. destruct (script w) as [|[[]|] s] eqn:Hs.
  - specialize (Hg []). assert (set_script [] w = w) as E by (destruct w; cbn in *; by subst).
    unfold wp in Hg. by rewrite E, Hs in Hg.
  - cbn. split; [by apply suffix_cons_r|]. split_and!; [by left|eexists; left|done].
  - cbn. split; [by apply suffix_cons_r|]. split_and!; [by right|eexists; left|done].
  - specialize (Hg s). unfold wp in Hg. destruct (g (set_script s w)) as [w' r].
    destruct Hg as [Hs' H]. cbn in Hs'. split; [by apply suffix_cons_r|].
    destruct r as [a|e]; [done|]. destruct H as (He & [x Hx] & HC').
    split_and!; [done| |done]. exists x. by right.
Qed.

Lemma wp_change g f (Q : unit → world → Prop) C w :
  g (files w) = Ok f → (∀ s, Q tt (set_files f (set_script s w))) →
  (∀ s, C (set_script s w)) → wp (change g) Q C w.
Proof.
  intros Hg HQ HC. apply wp_syscall; [|done]. intros s. unfold wp. cbn [files set_script].
  rewrite Hg. by split.
Qed.

(** ** Worlds in order *)

(** What is assumed of the host: random tokens do not repeat and have no dot,
    a digest is 64 hexadecimal digits, the umask leaves a private file readable
    and writable for its owner. *)
Class HostLaws (host : Host) : Prop := {
  token_inj : Inj (=) (=) token;
  token_no_dot : ∀ k, string_contains (chr 46) (token k) = false;
  sha256_hex64 : ∀ s, String.length (sha256 s) = 64 ∧ string_forallb hex_char (sha256 s) = true;
  umask_owner : ∀ m, m = 384%Z ∨ m = 448%Z → Z.land m (Z.lnot umask) = m;
}.

Lemma endswith_app s t : endswith s (t +:+ s) = true.
Proof.
  assert (endswith s s = true) as Hs.
  { destruct s as [|c s]; [done|]. cbn [endswith]. by rewrite String.eqb_refl. }
  induction t as [|c t IH]; [done|]. rewrite sapp_cons. cbn [endswith].
  rewrite IH. apply orb_true_r.
Qed.

Lemma startswith_app p s : startswith p (p +:+ s) = true.
Proof.
  unfold startswith. induction p as [|c p IH]; [by destruct s|]. rewrite sapp_cons. cbn.
  destruct (Ascii.ascii_dec c c); [done|congruence].
Qed.

Lemma tmp_name_temp n t : temp_name (tmp_name n t) = true.
Proof.
  unfold temp_name, tmp_name. rewrite sapp_cons, sapp_nil_l. apply andb_true_iff. split; [apply (startswith_app ".")|].
  rewrite <-!sapp_assoc. cbn [endswith]. rewrite endswith_app. apply orb_true_r.
Qed.

Lemma sapp_cancel_r (a b c : string) : a +:+ c = b +:+ c → a = b.
Proof.
  revert b. induction a as [|x a IH]; intros [|y b]; rewrite ?sapp_cons, ?sapp_nil_l; intros H.
  - done.
  - apply (f_equal String.length) in H. cbn in H. rewrite slength_app in H. lia.
  - apply (f_equal String.length) in H. cbn in H. rewrite slength_app in H. lia.
  - injection H as -> H. by rewrite (IH b H).
Qed.

Lemma dot_inj (a t b u : string) :
  string_contains (chr 46) t = false → string_contains (chr 46) u = false →
  a +:+ "." +:+ t = b +:+ "." +:+ u → t = u.
Proof.
  intros Ht Hu. revert b.
  assert (∀ x y z : string, string_contains (chr 46) x = false → x = y +:+ "." +:+ z → False) as Hno.
  { intros x y z Hx ->. unfold string_contains in Hx. apply negb_false_iff in Hx.
    induction y as [|c y IH]; [done|]. rewrite sapp_cons in Hx. cbn in Hx.
    apply andb_true_iff in Hx as [_ Hx]. by apply IH. }
  induction a as [|x a IH]; intros [|y b]; rewrite ?sapp_cons, ?sapp_nil_l.
  - by intros [= ->].
  - intros [= _ E]. by destruct (Hno _ _ _ Ht E).
  - intros [= _ E]. symmetry in E. by destruct (Hno _ _ _ Hu E).
  - intros [= _ E]. by apply (IH b).
Qed.

Lemma tmp_name_inj n t m u :
  string_contains (chr 46) t = false → string_contains (chr 46) u = false →
  tmp_name n t = tmp_name m u → t = u.
Proof.
  unfold tmp_name. intros Ht Hu H.
  pose proof (sapp_cancel_r ("." +:+ n +:+ "." +:+ t) ("." +:+ m +:+ "." +:+ u) ".tmp") as E.
  rewrite !sapp_assoc in E. apply E in H. apply (dot_inj ("." +:+ n) t ("." +:+ m) u); [done..|].
  by rewrite !sapp_assoc.
Qed.

Lemma child_inj p q n m : p // n = q // m → p = q ∧ n = m.
Proof. intros H. by apply app_inj_tail in H. Qed.

Lemma temp_child p n : temp (p // n) = temp p || temp_name n.
Proof. unfold child. rewrite temp_app. cbn. by rewrite orb_false_r. Qed.

Section holds.
Context {host : Host} {laws : HostLaws host}.
(** The temporary files a later run removes, which have to be private. *)
Context (staged : path → bool) (staged_temp : ∀ p, staged p = true → temp p = true).

Record good_fs (f : fs) (ino : Z) (drawn : nat) : Prop := {
  good_tokens : ∀ k d n, (drawn ≤ k)%nat → f !! (d // tmp_name n (token k)) = None;
  good_inodes : ∀ p n i, f !! p = Some n → node_ident n = Some i → (inode i < ino)%Z;
  good_rooted : rooted f;
  good_staged : ∀ p n, staged p = true → f !! p = Some n → ∃ i c, n = Reg i uid 384 c;
  good_unique : ∀ p q i, staged p = true →
    f !! p ≫= file_ident = Some i → f !! q ≫= file_ident = Some i → q = p;
}.

(** A token not drawn yet names nothing. *)
Definition unused (drawn : nat) (p : path) : Prop :=
  ∀ k d n, (drawn ≤ k)%nat → p ≠ d // tmp_name n (token k).

Lemma unused_plain drawn p : temp p = false → unused drawn p.
Proof. intros Hp k d n _ ->. by rewrite temp_child, tmp_name_temp, orb_true_r in Hp. Qed.

Lemma unused_drawn drawn k d n : k < drawn → unused drawn (d // tmp_name n (token k)).
Proof.
  intros Hk k' d' n' Hk' E. apply child_inj in E as [_ E].
  apply tmp_name_inj in E; [|by apply token_no_dot..].
  apply token_inj in E. lia.
Qed.

Lemma good_insert f ino drawn p n :
  good_fs f ino drawn → unused drawn p →
  (∀ i, node_ident n = Some i → inode i < ino)%Z →
  (∀ d m, p = d // m → dir_at f d = true) →
  (dir_at f p = true → is_dir n = true) →
  (staged p = true → ∃ i c, n = Reg i uid 384 c) →
  (∀ q i, q ≠ p → file_ident n = Some i → f !! q ≫= file_ident = Some i →
     staged q = false ∧ staged p = false) →
  good_fs (<[p := n]> f) ino drawn.
Proof.
  intros [Ht Hi Hr Hs Hu] Hp Hino Hpar Hdir Hst Hun.
  split.
  - intros k d m Hk. rewrite lookup_insert_ne; [by apply Ht|]. by eapply Hp.
  - intros q m i [[<- <-]|[_ H]]%lookup_insert_Some; [by apply Hino|by eapply Hi].
  - by apply rooted_insert.
  - intros q m Hq [[<- <-]|[_ H]]%lookup_insert_Some; [by apply Hst|by eapply Hs].
  - intros q r i Hq Hqi Hri.
    destruct (decide (q = p)) as [->|Hqp], (decide (r = p)) as [->|Hrp];
      rewrite ?lookup_insert_eq, ?lookup_insert_ne in * by done; cbn in *.
    + done.
    + destruct (Hun r i Hrp Hqi Hri). congruence.
    + destruct (Hun q i Hqp Hri Hqi). congruence.
    + by eapply Hu.
Qed.

Lemma good_delete f ino drawn p :
  good_fs f ino drawn → dir_at f p = false → good_fs (delete p f) ino drawn.
Proof.
  intros [Ht Hi Hr Hs Hu] Hp. split.
  - intros k d m Hk. apply lookup_delete_None. right. by apply Ht.
  - intros q m i [_ H]%lookup_delete_Some. by eapply Hi.
  - by apply rooted_delete.
  - intros q m Hq [_ H]%lookup_delete_Some. by eapply Hs.
  - intros q r i Hq H1 H2. eapply Hu; [exact Hq| |].
    + destruct (decide (q = p)) as [->|]; [by rewrite lookup_delete_eq in H1|].
      by rewrite lookup_delete_ne in H1.
    + destruct (decide (r = p)) as [->|]; [by rewrite lookup_delete_eq in H2|].
      by rewrite lookup_delete_ne in H2.
Qed.

Lemma good_mv f ino drawn s d :
  good_fs f ino drawn → temp s = false → temp d = false → apart s d →
  f !! d = None → dir_at f (parent d) = true →
  (∀ p, staged p = true → under s p = None ∧ under d p = None) →
  good_fs (mv s d f) ino drawn.
Proof.
  intros [Ht Hi Hr Hs Hu] Hts Htd Ha Hd Hpar Hst.
  assert (∀ r, f !! (d ++ r)%list = None) as Hnone by (intros r; by apply rooted_none).
  assert (∀ p, under s p = None → under d p = None → mv s d f !! p = f !! p) as Hsame.
  { intros p H1 H2. rewrite lookup_mv by apply Ha. by rewrite H2, H1. }
  split.
  - intros k p n Hk. rewrite lookup_mv by apply Ha. destruct (under d _) as [r|] eqn:E.
    + apply under_Some in E. destruct r as [|x r _] using rev_ind.
      * rewrite app_nil_r in E. subst d. by rewrite temp_child, tmp_name_temp, orb_true_r in Htd.
      * rewrite app_assoc in E. apply app_inj_tail in E as [-> <-]. rewrite app_assoc. by apply Ht.
    + destruct (under s _); [done|]. by apply Ht.
  - intros p n i H. rewrite mv_swapped in H by done. by eapply Hi.
  - by apply rooted_mv.
  - intros p n Hp H. destruct (Hst p Hp) as [H1 H2]. rewrite Hsame in H by done. by eapply Hs.
  - intros p q i Hp H1 H2. destruct (Hst p Hp) as [E1 E2]. rewrite Hsame in H1 by done.
    rewrite mv_swapped in H2 by done. pose proof (Hu p _ i Hp H1 H2) as E.
    rewrite <-(swapped_twice s d q Ha), E. unfold swapped. by rewrite E1, E2.
Qed.

Definition bounded (f : fs) (ino : Z) : Prop :=
  ∀ p i, f !! p ≫= file_ident = Some i → (inode i < ino)%Z.

(** The world is in order and shows [F], temporary files apart. *)
Record holds (F : fs) (w : world) : Prop := {
  holds_good : good_fs (files w) (next_inode w) (draws w);
  holds_eqv : fs_eqv (files w) F;
  holds_bounded : bounded F (next_inode w);
  holds_rooted : rooted F;
}.

Lemma holds_script F w s : holds F w → holds F (set_script s w).
Proof. by intros []. Qed.

Lemma holds_lookup F w p : holds F w → temp p = false → files w !! p = F !! p.
Proof. intros H. apply (eqv_lookup _ _ (holds_eqv F w H)). Qed.

Lemma holds_dir F w p : holds F w → temp p = false → dir_at (files w) p = dir_at F p.
Proof. intros H Hp. unfold dir_at. by rewrite (holds_lookup F w p H Hp). Qed.

Lemma holds_nlink F w p i o m c :
  holds F w → temp p = false → F !! p = Some (Reg i o m c) → nlink (files w) i = nlink F i.
Proof. intros H. apply (eqv_nlink _ _ (holds_eqv F w H)). Qed.

(** No other name has the identity of the file. *)
Definition lone (f : fs) (p : path) (n : option node) : Prop :=
  ∀ q i, q ≠ p → f !! q ≫= file_ident = Some i → n ≫= file_ident ≠ Some i.

Lemma lone_nofile f p n : n ≫= file_ident = None → lone f p n.
Proof. intros H q i _ _. by rewrite H. Qed.

Lemma bounded_insert F ino p n :
  bounded F ino → (∀ i, file_ident n = Some i → inode i < ino)%Z → bounded (<[p := n]> F) ino.
Proof.
  intros HF Hn q i H. destruct (decide (q = p)) as [->|].
  - rewrite lookup_insert_eq in H. by apply Hn.
  - rewrite lookup_insert_ne in H by done. by eapply HF.
Qed.

Lemma bounded_delete F ino p : bounded F ino → bounded (delete p F) ino.
Proof.
  intros HF q i H. destruct (decide (q = p)) as [->|].
  - by rewrite lookup_delete_eq in H.
  - rewrite lookup_delete_ne in H by done. by eapply HF.
Qed.

Lemma file_node_ident n i : file_ident n = Some i → node_ident n = Some i.
Proof. by destruct n. Qed.

Lemma holds_temp_put F w p n :
  holds F w → temp p = true → unused (draws w) p → dir_at (files w) (parent p) = true →
  dir_at (files w) p = false → is_dir n = false →
  lone (files w) p (files w !! p) → lone (files w) p (Some n) →
  (∀ i, file_ident n = Some i → inode i < next_inode w)%Z →
  (staged p = true → ∃ i c, n = Reg i uid 384 c) →
  holds F (set_files (<[p := n]> (files w)) w).
Proof.
  intros [Hg He Hb Hr] Hp Hu Hpar Hdir Hn Hl1 Hl2 Hi Hs. split; cbn; [|..]; try done.
  - apply good_insert; try done.
    + intros i Hni. apply Hi. by destruct n.
    + intros d m ->. unfold parent, child in Hpar. by rewrite removelast_last in Hpar.
    + congruence.
    + intros q i Hq H1 H2. by destruct (Hl2 q i Hq H2).
  - apply (eqv_temp (files w) F p (Some n)); [done| |done].
    intros q i Hq H. assert (q ≠ p) as Hne by (intros ->; congruence). split.
    + by apply (Hl1 q).
    + by apply (Hl2 q).
Qed.

Lemma holds_temp_drop F w p :
  holds F w → temp p = true → dir_at (files w) p = false →
  lone (files w) p (files w !! p) →
  holds F (set_files (delete p (files w)) w).
Proof.
  intros [Hg He Hb Hr] Hp Hdir Hl. split; cbn; try done.
  - by apply good_delete.
  - apply (eqv_temp (files w) F p None); [done| |done].
    intros q i Hq H. assert (q ≠ p) as Hne by (intros ->; congruence). split; [|done].
    by apply (Hl q).
Qed.

Lemma nlink_absent (f : fs) i : (∀ q, f !! q ≫= file_ident ≠ Some i) → nlink f i = 0.
Proof.
  intros Hf. unfold nlink. apply map_size_empty_iff, map_empty. intros q.
  apply map_lookup_filter_None. right. intros m Hq E. apply (Hf q). by rewrite Hq.
Qed.

(** A temporary takes the place of an entry. *)
Lemma holds_publish F w t p n :
  holds F w → temp t = true → files w !! t = Some n → is_dir n = false →
  lone (files w) t (Some n) →
  (∀ q i, file_ident n = Some i → F !! q ≫= file_ident ≠ Some i) →
  temp p = false → (∀ d m, p = d // m → dir_at F d = true) → dir_at F p = false →
  holds (<[p := n]> F) (set_files (<[p := n]> (delete t (files w))) w).
Proof.
  intros H Ht Htn Hn Hl HnF Hp Hpar Hdir.
  assert (t ≠ p) as Hne by (intros ->; congruence).
  assert (dir_at (files w) t = false) as Hdt by (unfold dir_at; rewrite Htn; by destruct n).
  assert (holds F (set_files (delete t (files w)) w)) as H'.
  { apply holds_temp_drop; [done..|]. by rewrite Htn. }
  assert (∀ i, node_ident n = Some i → inode i < next_inode w)%Z as Hi.
  { intros i Hi. by eapply (good_inodes _ _ _ (holds_good F w H)). }
  assert (∀ q i, file_ident n = Some i → delete t (files w) !! q ≫= file_ident ≠ Some i) as Hnw.
  { intros q i Hni E. destruct (decide (q = t)) as [->|Hqt]; [by rewrite lookup_delete_eq in E|].
    rewrite lookup_delete_ne in E by done. by apply (Hl q i Hqt E). }
  assert (∀ d, temp d = false → dir_at (delete t (files w)) d = dir_at F d) as Hdd
    by (intros d; apply (holds_dir F _ d H')).
  destruct H' as [Hg He Hb Hr]. cbn [files next_inode draws set_files] in *.
  split; cbn [files next_inode draws set_files].
  - apply good_insert; [done|by apply unused_plain|done| | | |].
    + intros d m E. subst p. rewrite temp_child in Hp. apply orb_false_iff in Hp as [Hd _].
      rewrite Hdd by done. by eapply Hpar.
    + rewrite Hdd by done. congruence.
    + intros Hs. apply staged_temp in Hs. congruence.
    + intros q i _ Hni E. by destruct (Hnw q i Hni).
  - apply eqv_insert; [done..|]. intros i Hni.
    rewrite !nlink_absent; [done|..]; intros q; [by apply HnF|by apply Hnw].
  - apply bounded_insert; [done|]. intros i Hni. apply Hi. by destruct n.
  - apply rooted_insert; [done|done|]. congruence.
Qed.

Lemma holds_delete F w p :
  holds F w → temp p = false → dir_at F p = false →
  holds (delete p F) (set_files (delete p (files w)) w).
Proof.
  intros H Hp Hd. pose proof (holds_dir F w p H Hp) as Hdw. destruct H as [Hg He Hb Hr].
  split; cbn [files next_inode draws set_files].
  - apply good_delete; [done|]. congruence.
  - by apply eqv_delete.
  - by apply bounded_delete.
  - by apply rooted_delete.
Qed.

Lemma holds_mv F w s d :
  holds F w → temp s = false → temp d = false → apart s d →
  F !! d = None → dir_at F (parent d) = true →
  (∀ p, staged p = true → under s p = None ∧ under d p = None) →
  holds (mv s d F) (set_files (mv s d (files w)) w).
Proof.
  intros H Hs Hd Ha Hn Hpar Hst.
  assert (temp (parent d) = false) as Htp.
  { destruct d as [|n d _] using rev_ind; [done|]. unfold parent. rewrite removelast_last.
    rewrite temp_app in Hd. by apply orb_false_iff in Hd as [? _]. }
  pose proof (holds_lookup F w d H Hd) as Hdw. pose proof (holds_dir F w _ H Htp) as Hpw.
  destruct H as [Hg He Hb Hr]. assert (∀ r, F !! (d ++ r)%list = None) as HnF
    by (intros r; by apply rooted_none).
  assert (∀ r, files w !! (d ++ r)%list = None) as Hnw.
  { intros r. apply rooted_none; [apply Hg|]. congruence. }
  split; cbn [files next_inode draws set_files].
  - apply good_mv; [done..|congruence|congruence|done].
  - by apply eqv_mv.
  - intros p i E. rewrite mv_swapped in E by done. by eapply Hb.
  - by apply rooted_mv.
Qed.

(** *** Steps that happen at once

    [atomic F m F']: an interruption of [m] leaves [F] or [F']. *)
Definition atomic {A : Type} (F : fs) (m : M A) (F' : fs) : Prop :=
  ∀ w, holds F w → wp m (λ _, holds F') (λ w', holds F w' ∨ holds F' w') w.

Lemma wp_atomic {A B : Type} F F' (m : M A) (f : A → M B) Q (C : world → Prop) w :
  atomic F m F' → holds F w →
  (∀ w', holds F w' → C w') → (∀ w', holds F' w' → C w') →
  (∀ a w', holds F' w' → wp (f a) Q C w') →
  wp (m ≫= f) Q C w.
Proof.
  intros Hm Hw HC HC' Hf. apply wp_bind. eapply wp_mono; [by apply Hm|done|].
  intros w' [H|H]; auto.
Qed.

Lemma atomic_bind {A B : Type} F F' (m : M A) (f : A → M B) F'' :
  atomic F m F' → (∀ a, atomic F' (f a) F'') → F = F' ∨ F' = F'' →
  atomic F (m ≫= f) F''.
Proof.
  intros Hm Hf HF w Hw. eapply wp_atomic; [exact Hm|done|auto|..].
  - intros w' H. destruct HF as [-> | ->]; auto.
  - intros a w' H. eapply wp_mono; [by apply Hf|done|]. destruct HF as [-> | ->]; tauto.
Qed.

Lemma atomic_change F F' g :
  (∀ w, holds F w → ∃ f, g (files w) = Ok f ∧ holds F' (set_files f w)) →
  atomic F (change g) F'.
Proof.
  intros Hg w Hw. destruct (Hg w Hw) as (f & Hf & HF'). eapply wp_change; [exact Hf|..].
  - intros s. exact (holds_script F' (set_files f w) s HF').
  - intros s. left. by apply holds_script.
Qed.

Lemma atomic_fsync F p :
  dir_at F p = true → temp p = false → atomic F (fsync_directory p) F.
Proof.
  intros Hd Hp. apply atomic_change. intros w Hw. exists (files w). split.
  - unfold lstat. rewrite (holds_lookup F w p Hw Hp). unfold dir_at in Hd.
    by destruct (F !! p) as [[]|].
  - by destruct w.
Qed.

Lemma atomic_unlink F p n :
  F !! p = Some n → is_dir n = false → temp p = false → atomic F (unlink p) (delete p F).
Proof.
  intros Hn Hd Hp. apply atomic_change. intros w Hw. exists (delete p (files w)). split.
  - unfold lstat. rewrite (holds_lookup F w p Hw Hp), Hn. cbn. by rewrite Hd.
  - apply holds_delete; [done..|]. unfold dir_at. rewrite Hn. by destruct n.
Qed.

Lemma atomic_move F s d :
  dir_at F s = true → temp s = false → temp d = false → apart s d →
  F !! d = None → dir_at F (parent d) = true →
  (∀ p, staged p = true → under s p = None ∧ under d p = None) →
  atomic F (rename s d) (mv s d F).
Proof.
  intros Hs Hts Htd Ha Hd Hpar Hst. apply atomic_change. intros w Hw.
  exists (mv s d (files w)). split; [|by apply holds_mv].
  assert (temp (parent d) = false) as Htp.
  { clear -Htd. destruct d as [|n d _] using rev_ind; [done|]. unfold parent. rewrite removelast_last.
    rewrite temp_app in Htd. by apply orb_false_iff in Htd as [? _]. }
  unfold rename_files, lstat. rewrite (holds_lookup F w s Hw Hts), (holds_lookup F w d Hw Htd).
  rewrite (holds_dir F w _ Hw Htp), Hpar, Hd. unfold dir_at in Hs.
  destruct (F !! s) as [[]|]; try done. cbn.
  rewrite bool_decide_false; [done|]. rewrite (proj1 Ha). by intros [].
Qed.
End holds.
