(* ===== verification/DeliveryLedger.v ===== *)
(** * The inbound half of the secure-peer delivery ledger

    [secure_peer_delivery.py]: the table [secure_peer_deliveries] of
    [SecurePeerDeliveryLedger], which bridges a relay envelope to one local
    chat turn.  A row is a [delivery]; the table is a [gmap] from
    [envelope_id].  Every method runs in one [BEGIN IMMEDIATE] transaction
    under the ledger's lock, so it is a function of the table, its arguments
    and the clock; a method that raises rolls back. *)
From S2P Require Import Prelude PyValues.

Open Scope string_scope.
Open Scope Z_scope.

(** ** Rows *)

(** [DELIVERY_STATES] *)
Inductive delivery_state :=
| Prepared | Authorized | Queued | Running | Completed | Failed.
#[global] Instance delivery_state_eq_dec : EqDecision delivery_state.
Proof. solve_decision. Defined.

(** [TERMINAL_DELIVERY_STATES] *)
Definition terminal (s : delivery_state) : bool :=
  match s with Completed | Failed => true | _ => false end.

Definition MAX_NONTERMINAL_DELIVERIES : Z := 2048.

(** The immutable part of a claim: [exact] without [lease_token]. *)
Record claim := Claim {
  envelope_id : string;
  request_id : string;
  transport_role : string;
  connection_id : string;
  team_id : string;
  source_peer_id : option string;
  source_server_identity : string;
  source_route_id : string;
  source_route_revision : string;
  target_peer_id : option string;
  target_server_identity : string;
  target_route_id : string;
  target_route_revision : string;
  target_chat_id : string;
  action : string;
  kind : string;
  exchange_id : string;
  parent_envelope_id : option string;
  parent_leg : option Z;
  used_legs : Z;
  max_legs : Z;
  expires_at : Z;
  message : string;
}.

(** The retry columns of an admission or of a response. *)
Record retry := Retry {
  retry_at : option Z;
  attempts : Z;
  last_error : option string;
}.
Definition no_retry : retry := {| retry_at := None; attempts := 0; last_error := None |}.

(** The intent to answer: [response_request_id], [response_request_digest],
    [response_body] and [response_request_response], which are written and
    cleared together. *)
Record intent := Intent {
  i_request_id : string;
  i_digest : string;
  i_body : string;
  i_request_response : bool;
}.

Record delivery := Delivery {
  d_claim : claim;
  claim_digest : string;
  lease_token : string;
  state : delivery_state;
  queued_id : option string;
  run_id : option string;
  admission : retry;
  response_committed : bool;
  response : option intent;
  response_retry : retry;
  result_hash : option string;
  error : option string;
  created_at : Z;
  updated_at : Z;
}.

#[global] Instance claim_eq_dec : EqDecision claim.
Proof. solve_decision. Defined.
#[global] Instance retry_eq_dec : EqDecision retry.
Proof. solve_decision. Defined.
#[global] Instance intent_eq_dec : EqDecision intent.
Proof. solve_decision. Defined.
#[global] Instance delivery_eq_dec : EqDecision delivery.
Proof. solve_decision. Defined.

Definition d_envelope (d : delivery) : string := envelope_id (d_claim d).

Abbreviation deliveries := (gmap string delivery).

(** Integers SQLite can store. *)
Definition sqlite_int (z : Z) : bool := (- 2 ^ 63 <=? z) && (z <? 2 ^ 63).

(** [ORDER BY created_at,envelope_id] *)
Definition by_creation : relation delivery :=
  by_key (λ d, (created_at d, d_envelope d)) int_str_le.

(** [ORDER BY COALESCE(retry_at,0),created_at,envelope_id] *)
Definition by_retry (f : delivery → retry) : relation delivery :=
  by_key (λ d, (default 0 (retry_at (f d)), (created_at d, d_envelope d))) int_int_str_le.

#[global] Instance by_creation_dec : RelDecision by_creation.
Proof. unfold by_creation. apply _. Defined.
#[global] Instance by_retry_dec f : RelDecision (by_retry f).
Proof. unfold by_retry. apply _. Defined.
#[global] Instance by_retry_trans f : Transitive (by_retry f).
Proof. unfold by_retry. apply _. Qed.
#[global] Instance by_retry_total f : Total (by_retry f).
Proof. unfold by_retry. apply _. Qed.

(** ** [_claim] *)

(** [str(envelope.get(k)) if envelope.get(k) is not None else None] *)
Definition get_opt_str (env : list (string * pyval)) (k : string) : option string :=
  match items_get env k with PNone => None | v => Some (py_str v) end.

(** [int(envelope.get(k)) if envelope.get(k) is not None else None] *)
Definition get_opt_int (env : list (string * pyval)) (k : string) : res (option Z) :=
  match items_get env k with PNone => Ok None | v => Some <$> py_int v end.

(** [int(envelope.get(k) or 0)] *)
Definition get_int (env : list (string * pyval)) (k : string) : res Z :=
  py_int (py_or (items_get env k) (PInt 0)).

(** The message of a body of the exact shape [{"message": m}]. *)
Definition body_message (body : pyval) : option string :=
  match body with
  | PDict [(k, PStr m)] => if String.eqb k "message" then Some m else None
  | _ => None
  end.

Definition opt_str (o : option string) : pyval := from_option PStr PNone o.
Definition opt_int (o : option Z) : pyval := from_option PInt PNone o.

(** The dict that is hashed. *)
Definition claim_value (c : claim) : pyval := PDict [
  ("envelope_id", PStr (envelope_id c));
  ("request_id", PStr (request_id c));
  ("transport_role", PStr (transport_role c));
  ("connection_id", PStr (connection_id c));
  ("team_id", PStr (team_id c));
  ("source_peer_id", opt_str (source_peer_id c));
  ("source_server_identity", PStr (source_server_identity c));
  ("source_route_id", PStr (source_route_id c));
  ("source_route_revision", PStr (source_route_revision c));
  ("target_peer_id", opt_str (target_peer_id c));
  ("target_server_identity", PStr (target_server_identity c));
  ("target_route_id", PStr (target_route_id c));
  ("target_route_revision", PStr (target_route_revision c));
  ("target_chat_id", PStr (target_chat_id c));
  ("action", PStr (action c));
  ("kind", PStr (kind c));
  ("exchange_id", PStr (exchange_id c));
  ("parent_envelope_id", opt_str (parent_envelope_id c));
  ("parent_leg", opt_int (parent_leg c));
  ("used_legs", PInt (used_legs c));
  ("max_legs", PInt (max_legs c));
  ("expires_at", PInt (expires_at c));
  ("body", PDict [("message", PStr (message c))])].

(** The fields [_claim] requires to be non-empty. *)
Definition claim_required (c : claim) (lease : string) : list string :=
  [envelope_id c; request_id c; connection_id c; lease; team_id c;
   source_server_identity c; source_route_id c; source_route_revision c;
   target_server_identity c; target_route_id c; target_route_revision c;
   target_chat_id c; exchange_id c].

(** [exact], as a claim. *)
Definition exact_claim (env : list (string * pyval)) (role connection chat m : string)
    (leg : option Z) (used maximum expires : Z) : claim := {|
  envelope_id := get_str env "envelope_id";
  request_id := get_str env "request_id";
  transport_role := role;
  connection_id := connection;
  team_id := get_str env "team_id";
  source_peer_id := get_opt_str env "source_peer_id";
  source_server_identity := get_str env "source_server_identity";
  source_route_id := get_str env "source_route_id";
  source_route_revision := get_str env "source_route_revision";
  target_peer_id := get_opt_str env "target_peer_id";
  target_server_identity := get_str env "target_server_identity";
  target_route_id := get_str env "target_route_id";
  target_route_revision := get_str env "target_route_revision";
  target_chat_id := chat;
  action := get_str env "action";
  kind := get_str env "kind";
  exchange_id := get_str env "exchange_id";
  parent_envelope_id := get_opt_str env "parent_envelope_id";
  parent_leg := leg;
  used_legs := used;
  max_legs := maximum;
  expires_at := expires;
  message := m |}.

Section ledger.
(** [hashlib.sha256(...).hexdigest()], of the bytes hashed. *)
Variable sha256 : string → string.

Definition claim_digest_of (c : claim) : string := sha256 (canonical_json (claim_value c)).

Definition parse_claim (env : list (string * pyval)) (role connection lease chat : string)
    : res (claim * string) :=
  _ ← raise_if (negb (str_in role ["host"; "client"]))
        (ValueError "secure peer delivery role is invalid");
  _ ← raise_if (negb (str_in (get_str env "action") ["instruction"; "request_reply"]))
        (ValueError "secure peer delivery action is invalid");
  _ ← raise_if (negb (str_in (get_str env "kind") ["instruction"; "request_reply"; "response"]))
        (ValueError "secure peer delivery kind is invalid");
  match body_message (items_get env "body") with
  | None => Err (ValueError "secure peer delivery body is invalid")
  | Some m =>
      _ ← raise_if (blank m || (100000 <? len m))
            (ValueError "secure peer delivery body is invalid");
      leg ← get_opt_int env "parent_leg";
      used ← get_int env "used_legs";
      maximum ← get_int env "max_legs";
      expires ← get_int env "expires_at";
      let c := exact_claim env role connection chat m leg used maximum expires in
      _ ← raise_if (existsb (λ s, String.eqb s "") (claim_required c lease))
            (ValueError "secure peer delivery identity is incomplete");
      _ ← raise_if (negb (max_legs c =? 6) || negb ((1 <=? used_legs c) && (used_legs c <=? 6)))
            (ValueError "secure peer delivery leg budget is invalid");
      Ok (c, claim_digest_of c)
  end.

(** ** Operations *)

Definition is_state (l : list delivery_state) (d : delivery) : bool :=
  existsb (λ s, bool_decide (state d = s)) l.
Definition NONTERMINAL := [Prepared; Authorized; Queued; Running].
Definition ACTIVE := [Authorized; Queued; Running].

Definition ownerless (d : delivery) : bool :=
  bool_decide (queued_id d = None) && bool_decide (run_id d = None).

#[global] Arguments is_state : simpl never.
#[global] Arguments ownerless : simpl never.

(** The row [prepare] inserts. *)
Definition new_delivery (c : claim) (digest lease : string) (now : Z) : delivery := {|
  d_claim := c; claim_digest := digest; lease_token := lease; state := Prepared;
  queued_id := None; run_id := None; admission := no_retry;
  response_committed := false; response := None; response_retry := no_retry;
  result_hash := None; error := None; created_at := now; updated_at := now |}.

(** The update of the [prepared] rows whose exchange has expired. *)
Definition expire_prepared (now : Z) (t : deliveries) : deliveries :=
  update_where (λ d, is_state [Prepared] d && (expires_at (d_claim d) <=? now))
    (λ d, d {{ state := Failed; error := Some "secure peer exchange expired";
               updated_at := now }}) t.

Definition prepare (now : Z) (env : list (string * pyval)) (role connection lease chat : string)
    (t : deliveries) : res (deliveries * (delivery * bool)) :=
  '(c, digest) ← parse_claim env role connection lease chat;
  match t !! envelope_id c with
  | Some row =>
      _ ← raise_if (negb (String.eqb (claim_digest row) digest))
            (RuntimeError "secure peer envelope identity changed");
      if is_state [Prepared] row && negb (String.eqb (lease_token row) lease) then
        let row' := row {{ lease_token := lease; updated_at := now }} in
        Ok (<[envelope_id c := row']> t, (row', false))
      else Ok (t, (row, false))
  | None =>
      let t := expire_prepared now t in
      _ ← raise_if (MAX_NONTERMINAL_DELIVERIES <=? Z.of_nat (count_where (is_state NONTERMINAL) t))
            (RuntimeError "secure peer delivery capacity is full");
      _ ← raise_if (negb (from_option sqlite_int true (parent_leg c) && sqlite_int (expires_at c)))
            (OverflowError "Python int too large to convert to SQLite INTEGER");
      let row := new_delivery c digest lease now in
      Ok (<[envelope_id c := row]> t, (row, true))
  end.

(** [get] *)
Definition get (id : string) (t : deliveries) : option delivery := t !! id.

(** [_transition]: [patch] assigns the columns the caller passed. *)
Definition transition (now : Z) (id : string) (expected : list delivery_state)
    (next : delivery_state) (patch : delivery → delivery) (t : deliveries)
    : deliveries * option delivery :=
  if row_matches id (is_state expected) t then
    let t' := update_row id (is_state expected)
                (λ d, (patch d) {{ state := next; updated_at := now }}) t in
    (t', t' !! id)
  else (t, None).

Definition authorize (now : Z) (id : string) (t : deliveries) : deliveries * option delivery :=
  transition now id [Prepared; Authorized] Authorized (λ d, d) t.

(** [str(error)[:400]] *)
Definition clip (e : string) : string := prefix_of 400 e.

Definition fail_ownerless_authorized (now : Z) (id e : string) (t : deliveries)
    : deliveries * option delivery :=
  let t' := update_row id (λ d, is_state [Authorized] d && ownerless d)
    (λ d, d {{ state := Failed; error := Some (clip e);
               admission := {| retry_at := None; attempts := attempts (admission d);
                               last_error := None |};
               updated_at := now }}) t in
  (t', t' !! id).

(** The columns both updates of [bind_owner] clear. *)
Definition admitted (a : retry) : retry :=
  {| retry_at := None; attempts := attempts a; last_error := None |}.

(** The unique indexes [secure_peer_delivery_queued_owner] and
    [secure_peer_delivery_run_owner]. *)
Definition owner_taken (id : string) (q r : option string) (t : deliveries) : bool :=
  other_row id (λ d,
    (bool_decide (is_Some q) && bool_decide (queued_id d = q))
    || (bool_decide (is_Some r) && bool_decide (run_id d = r))) t.

Definition unique_failed : exn := IntegrityError "UNIQUE constraint failed".

Definition bind_owner (now : Z) (id : string) (q r : option string) (t : deliveries)
    : res (deliveries * option delivery) :=
  _ ← raise_if (bool_decide (q = None) && bool_decide (r = None))
        (ValueError "secure peer delivery owner is empty");
  match t !! id with
  | None => Ok (t, None)
  | Some row =>
      match state row, r with
      | Authorized, _ =>
          let next := match r with Some _ => Running | None => Queued end in
          if ownerless row then
            _ ← raise_if (owner_taken id q r t) unique_failed;
            let row' := row {{ state := next; queued_id := q; run_id := r;
                               admission := admitted (admission row); updated_at := now }} in
            Ok (<[id := row']> t, Some row')
          else Ok (t, Some row)
      | Queued, Some _ =>
          if bool_decide (queued_id row ≠ q) || bool_decide (run_id row ≠ None) then Ok (t, None)
          else if bool_decide (q = None) then Ok (t, Some row)
          else
            _ ← raise_if (owner_taken id None r t) unique_failed;
            let row' := row {{ state := Running; run_id := r;
                               admission := admitted (admission row); updated_at := now }} in
            Ok (<[id := row']> t, Some row')
      | Queued, None =>
          if bool_decide (queued_id row ≠ q) || bool_decide (run_id row ≠ None) then Ok (t, None)
          else Ok (t, Some row)
      | Running, _ =>
          if bool_decide (queued_id row ≠ q) || bool_decide (run_id row ≠ r) then Ok (t, None)
          else Ok (t, Some row)
      | _, _ => Ok (t, None)
      end
  end.

(** [min(300, 2 ** min(attempts, 8))] *)
Definition backoff (n : Z) : Z := Z.min 300 (2 ^ Z.min n 8).

(** One more failed attempt at time [now]. *)
Definition deferred (now : Z) (e : string) (a : retry) : retry :=
  let n := attempts a + 1 in
  {| retry_at := Some (now + backoff n); attempts := n; last_error := Some (clip e) |}.

Definition defer_admission (now : Z) (id e : string) (t : deliveries)
    : deliveries * option delivery :=
  let t' := update_row id (λ d, is_state [Authorized] d && ownerless d)
    (λ d, d {{ admission := deferred now e (admission d); updated_at := now }}) t in
  (t', t' !! id).

(** [COALESCE(retry_at,0)<=now] *)
Definition due (now : Z) (a : retry) : bool := default 0 (retry_at a) <=? now.

Definition pending_admissions (now limit : Z) (t : deliveries) : res (list delivery) :=
  _ ← raise_if (negb ((1 <=? limit) && (limit <=? 50)))
        (ValueError "secure peer admission retry limit is invalid");
  Ok (take (Z.to_nat limit)
        (select_ordered (λ d, is_state [Authorized] d && ownerless d && due now (admission d))
           (by_retry admission) t)).

Definition nonterminal_for_chat (chat : string) (t : deliveries) : list delivery :=
  select_ordered (λ d, String.eqb (target_chat_id (d_claim d)) chat && is_state NONTERMINAL d)
    by_creation t.

Definition finish (now : Z) (id : string) (succeeded : bool) (result_text : string)
    (err : option string) (t : deliveries) : deliveries * option delivery :=
  transition now id (if succeeded then ACTIVE else NONTERMINAL)
    (if succeeded then Completed else Failed)
    (λ d, d {{ result_hash := if String.eqb result_text "" then None
                              else Some (sha256 (utf8 result_text));
               error := err }}) t.

(** The digest of a response intent. *)
Definition intent_digest_of (req body : string) (request_response : bool) : string :=
  sha256 (canonical_json (PDict [
    ("request_id", PStr req); ("body", PStr body);
    ("request_response", PBool request_response)])).

(** The row [prepare_response] writes. *)
Definition with_intent (now : Z) (i : intent) (d : delivery) : delivery :=
  d {{ response := Some i;
       response_retry := {| retry_at := Some now; attempts := 0; last_error := None |};
       updated_at := now }}.

Definition has_request (req : string) (d : delivery) : bool :=
  bool_decide (i_request_id <$> response d = Some req).

Definition prepare_response (now : Z) (id req body : string) (request_response : bool)
    (t : deliveries) : res (deliveries * option delivery) :=
  _ ← raise_if (String.eqb req "" || blank body || (100000 <? len body))
        (ValueError "secure peer response intent is invalid");
  let digest := intent_digest_of req body request_response in
  match t !! id with
  | None => Ok (t, None)
  | Some row =>
      if negb (is_state ACTIVE row) || String.eqb (kind (d_claim row)) "instruction"
      then Ok (t, None)
      else match response row with
      | Some i =>
          _ ← raise_if (negb (String.eqb (i_digest i) digest))
                (RuntimeError "secure peer response intent changed");
          Ok (t, Some row)
      | None =>
          let t' := update_row id (λ d, negb (response_committed d))
            (with_intent now {| i_request_id := req; i_digest := digest; i_body := body;
                                i_request_response := request_response |}) t in
          Ok (t', t' !! id)
      end
  end.

Definition mark_response_committed (now : Z) (id : string) (req : option string)
    (t : deliveries) : deliveries * option delivery :=
  let t' := update_row id
    (λ d, is_state ACTIVE d && negb (response_committed d)
          && match req with None => true | Some r => has_request r d end)
    (λ d, d {{ response_committed := true;
               response_retry := {| retry_at := None; attempts := attempts (response_retry d);
                                    last_error := None |};
               updated_at := now }}) t in
  (t', t' !! id).

Definition clear_response_intent (now : Z) (id req : string) (t : deliveries)
    : deliveries * option delivery :=
  let t' := update_row id
    (λ d, has_request req d && negb (response_committed d) && is_state ACTIVE d)
    (λ d, d {{ response := None; response_retry := no_retry; updated_at := now }}) t in
  (t', t' !! id).

Definition defer_response (now : Z) (id req e : string) (t : deliveries)
    : deliveries * option delivery :=
  let t' := update_row id
    (λ d, is_state ACTIVE d && has_request req d && negb (response_committed d))
    (λ d, d {{ response_retry := deferred now e (response_retry d); updated_at := now }}) t in
  (t', t' !! id).

Definition pending_responses (now limit : Z) (t : deliveries) : res (list delivery) :=
  _ ← raise_if (negb ((1 <=? limit) && (limit <=? MAX_NONTERMINAL_DELIVERIES)))
        (ValueError "secure peer response retry limit is invalid");
  Ok (take (Z.to_nat limit)
        (select_ordered (λ d, is_state ACTIVE d && bool_decide (is_Some (response d))
                              && negb (response_committed d) && due now (response_retry d))
           (by_retry response_retry) t)).

Definition recoverable (t : deliveries) : list delivery :=
  select_ordered (is_state NONTERMINAL) by_creation t.

(** [run_id] is unique, so at most one row is selected. *)
Definition for_run (run : string) (t : deliveries) : option delivery :=
  head (select_where (λ d, bool_decide (run_id d = Some run)) t).

Definition nonterminal_for_connection (connection : string) (t : deliveries) : list delivery :=
  select_ordered (λ d, String.eqb (connection_id (d_claim d)) connection && is_state NONTERMINAL d)
    by_creation t.

(** The first statement of [prune] and its row count. *)
Definition prune_deliveries (now retain : Z) (t : deliveries) : deliveries * nat :=
  let gone := λ d, is_state [Completed; Failed] d && (updated_at d <? now - retain) in
  (delete_where gone t, count_where gone t).

(** ** The ledger as a transition system *)

(** One call of a method that writes. *)
Inductive op :=
| OpPrepare (env : list (string * pyval)) (role connection lease chat : string)
| OpAuthorize (id : string)
| OpFailOwnerless (id e : string)
| OpBindOwner (id : string) (q r : option string)
| OpDeferAdmission (id e : string)
| OpFinish (id : string) (succeeded : bool) (result_text : string) (err : option string)
| OpPrepareResponse (id req body : string) (request_response : bool)
| OpMarkCommitted (id : string) (req : option string)
| OpClearResponse (id req : string)
| OpDeferResponse (id req e : string)
| OpPrune (retain : Z).

(** A call that raises rolls its transaction back. *)
Definition commit {A} (t : deliveries) (r : res (deliveries * A)) : deliveries :=
  match r with Ok (t', _) => t' | Err _ => t end.

Definition apply (now : Z) (o : op) (t : deliveries) : deliveries :=
  match o with
  | OpPrepare env role connection lease chat =>
      commit t (prepare now env role connection lease chat t)
  | OpAuthorize id => (authorize now id t).1
  | OpFailOwnerless id e => (fail_ownerless_authorized now id e t).1
  | OpBindOwner id q r => commit t (bind_owner now id q r t)
  | OpDeferAdmission id e => (defer_admission now id e t).1
  | OpFinish id succeeded text err => (finish now id succeeded text err t).1
  | OpPrepareResponse id req body rr => commit t (prepare_response now id req body rr t)
  | OpMarkCommitted id req => (mark_response_committed now id req t).1
  | OpClearResponse id req => (clear_response_intent now id req t).1
  | OpDeferResponse id req e => (defer_response now id req e t).1
  | OpPrune retain => (prune_deliveries now retain t).1
  end.

Definition ledger_step (l : Z * op) (t t' : deliveries) : Prop := t' = apply l.1 l.2 t.
Abbreviation ledger_reachable := (reachable (∅ : deliveries) ledger_step).

(** ** What a row may become *)

Definition rank (s : delivery_state) : nat :=
  match s with
  | Prepared => 0 | Authorized => 1 | Queued => 2 | Running => 3
  | Completed | Failed => 4
  end.

(** The order in which a row evolves: its identity is fixed, its state only
    advances, an owner once bound is kept, a committed response is final, the
    lease changes only before the receipt, and a terminal row is frozen. *)
Record row_le (d d' : delivery) : Prop := {
  le_claim : d_claim d' = d_claim d;
  le_digest : claim_digest d' = claim_digest d;
  le_created : created_at d' = created_at d;
  le_rank : (rank (state d) ≤ rank (state d'))%nat;
  le_queued : is_Some (queued_id d) → queued_id d' = queued_id d;
  le_run : is_Some (run_id d) → run_id d' = run_id d;
  le_owner : (3 ≤ rank (state d))%nat → queued_id d' = queued_id d ∧ run_id d' = run_id d;
  le_lease : state d ≠ Prepared → lease_token d' = lease_token d;
  le_committed : response_committed d = true →
    response_committed d' = true ∧ response d' = response d;
  le_frozen : terminal (state d) = true → d' = d;
}.

#[export] Instance row_le_preorder : PreOrder row_le.
Proof.
  split.
  - intros d. by split.
  - intros a b c [] [].
    assert (state a ≠ Prepared → state b ≠ Prepared).
    { intros Ha Hb. rewrite Hb in *. destruct (state a); cbn in *; try done; lia. }
    split; try congruence; try lia.
    + intros Ha. rewrite le_queued1 by (rewrite le_queued0; done). auto.
    + intros Ha. rewrite le_run1 by (rewrite le_run0; done). auto.
    + intros Ha. destruct (le_owner0 Ha) as [<- <-]. apply le_owner1. lia.
    + intros Ha. rewrite le_lease1 by auto. auto.
    + intros Ha. destruct (le_committed0 Ha) as [Hb E].
      destruct (le_committed1 Hb) as [Hc E']. split; congruence.
    + intros Ha. specialize (le_frozen0 Ha). subst b. auto.
Qed.

(** ** Well-formed tables *)

(** The columns a row has in each state. *)
Definition state_shape (d : delivery) : Prop :=
  match state d with
  | Prepared => queued_id d = None ∧ run_id d = None ∧
      response d = None ∧ response_committed d = false
  | Authorized => queued_id d = None ∧ run_id d = None
  | Queued => is_Some (queued_id d) ∧ run_id d = None
  | Running => is_Some (run_id d)
  | Completed | Failed => True
  end.

Definition intent_wf (d : delivery) (i : intent) : Prop :=
  kind (d_claim d) ≠ "instruction" ∧
  i_digest i = intent_digest_of (i_request_id i) (i_body i) (i_request_response i).

Record row_wf (d : delivery) : Prop := {
  wf_shape : state_shape d;
  wf_legs : 1 ≤ used_legs (d_claim d) ≤ 6 ∧ max_legs (d_claim d) = 6;
  wf_digest : claim_digest d = claim_digest_of (d_claim d);
  wf_required : Forall (λ s, s ≠ "") (claim_required (d_claim d) (lease_token d));
  wf_attempts : 0 ≤ attempts (admission d) ∧ 0 ≤ attempts (response_retry d);
  wf_intent : ∀ i, response d = Some i → intent_wf d i;
}.

(** No two rows answer to one queue row or to one run. *)
Definition owners_unique (t : deliveries) : Prop :=
  ∀ i j d e, t !! i = Some d → t !! j = Some e → i ≠ j →
    (is_Some (queued_id d) → queued_id d ≠ queued_id e) ∧
    (is_Some (run_id d) → run_id d ≠ run_id e).

Record table_wf (t : deliveries) : Prop := {
  wf_rows : ∀ id d, t !! id = Some d → d_envelope d = id ∧ row_wf d;
  wf_owners : owners_unique t;
  wf_capacity : Z.of_nat (count_where (is_state NONTERMINAL) t) ≤ MAX_NONTERMINAL_DELIVERIES;
}.

(** ** Lemmas on rows *)

Lemma is_state_spec l d : is_state l d = true ↔ In (state d) l.
Proof.
  unfold is_state. rewrite existsb_exists. split.
  - intros (s & Hs & ->%bool_decide_eq_true). done.
  - intros H. exists (state d). split; [done|]. by apply bool_decide_eq_true.
Qed.

Lemma ownerless_spec d : ownerless d = true ↔ queued_id d = None ∧ run_id d = None.
Proof. unfold ownerless. rewrite andb_true_iff, !bool_decide_eq_true. done. Qed.

Lemma has_request_spec req d :
  has_request req d = true ↔ ∃ i, response d = Some i ∧ i_request_id i = req.
Proof.
  unfold has_request. rewrite bool_decide_eq_true.
  destruct (response d); cbn; naive_solver.
Qed.

(** The cap of 300 seconds is never reached. *)
Lemma backoff_eq n : 1 ≤ n → backoff n = 2 ^ Z.min n 8 ∧ 2 ≤ 2 ^ Z.min n 8 ≤ 256.
Proof.
  intros Hn. unfold backoff.
  assert (2 ^ 1 ≤ 2 ^ Z.min n 8 ≤ 2 ^ 8) as H by (split; apply Z.pow_le_mono_r; lia).
  change (2 ^ 1) with 2 in H. change (2 ^ 8) with 256 in H.
  generalize dependent (2 ^ Z.min n 8). intros x Hx. lia.
Qed.

Lemma deferred_due now e a :
  0 ≤ attempts a →
  let a' := deferred now e a in
  attempts a' = attempts a + 1 ∧
  (∀ now', due now' a' = true ↔ now + 2 ^ Z.min (attempts a') 8 ≤ now') ∧
  2 ≤ 2 ^ Z.min (attempts a') 8 ≤ 256.
Proof.
  intros Ha. unfold deferred. cbv zeta. cbn [attempts].
  destruct (backoff_eq (attempts a + 1) ltac:(lia)) as [Hb Hb'].
  split; [done|]. split; [|done]. intros now'. unfold due. cbn [retry_at].
  rewrite Z.leb_le, Hb. done.
Qed.

(** Splitting the boolean guards of a statement into facts about the row. *)
Ltac split_guard :=
  repeat match goal with
  | H : _ && _ = true |- _ => apply andb_true_iff in H as [? ?]
  | H : negb _ = true |- _ => apply negb_true_iff in H
  | H : is_state _ _ = true |- _ => apply is_state_spec in H; cbn in H
  | H : ownerless _ = true |- _ => apply ownerless_spec in H as [? ?]
  | H : has_request _ _ = true |- _ => apply has_request_spec in H as (? & ? & ?)
  | H : False |- _ => destruct H
  | H : _ ∨ _ |- _ => destruct H
  end.

(** Discharging the fields of [row_le] and [row_wf] of an updated row, whose
    old state is known. *)
Ltac row_fields :=
  match goal with
  | Hwf : row_wf ?d |- _ => destruct Hwf; unfold state_shape, intent_wf in *; destruct d
  end;
  cbn in *; subst; cbn in *;
  repeat match goal with
  | |- _ ∧ _ => split
  | |- row_le _ _ => constructor
  | |- row_wf _ => constructor
  end; unfold state_shape, deferred, admitted, no_retry; cbn;
  first [done | lia | assumption
        | by intros ? [= <-]; split
        | intuition (try congruence; try lia)].

(** Changing one row as its [row_le] allows keeps a table well-formed. *)
Lemma insert_wf t id d d' :
  table_wf t → t !! id = Some d → row_le d d' → row_wf d' →
  (∀ j e, t !! j = Some e → j ≠ id →
    (is_Some (queued_id d') → queued_id d' ≠ queued_id e) ∧
    (is_Some (run_id d') → run_id d' ≠ run_id e)) →
  table_wf (<[id := d']> t).
Proof.
  intros [Hrows Hown Hcap] Hid Hle Hwf' Hfresh. split.
  - intros j e. rewrite lookup_insert. case_decide as Hj; [|by auto].
    intros [= <-]. subst j. split; [|done].
    unfold d_envelope. rewrite (le_claim _ _ Hle). by apply (Hrows _ _ Hid).
  - intros i j a b. rewrite !lookup_insert. repeat case_decide; subst; intros Ha Hb Hij;
      simplify_eq; eauto.
    destruct (Hfresh _ _ Ha ltac:(done)) as [Hq Hr]. split; intros Hs E.
    + rewrite E in Hs. by apply Hq; congruence.
    + rewrite E in Hs. by apply Hr; congruence.
  - etrans; [|exact Hcap]. apply Nat2Z.inj_le, count_where_mono. intros k r'.
    rewrite lookup_insert. case_decide; [|eauto]. subst k. intros [= <-] Hn.
    exists d. split; [done|]. pose proof (le_rank _ _ Hle) as Hr.
    unfold is_state, NONTERMINAL in *. destruct (state d), (state d'); cbn in *; try done; lia.
Qed.

(** How a table evolves in one step. *)
Record evolves (t t' : deliveries) : Prop := {
  ev_rows : ∀ j d', t' !! j = Some d' →
    (∃ d, t !! j = Some d ∧ row_le d d') ∨ (t !! j = None ∧ state d' = Prepared);
  ev_gone : ∀ j d, t !! j = Some d → t' !! j = None → terminal (state d) = true;
}.

Lemma evolves_refl t : evolves t t.
Proof. split; [|congruence]. intros j d Hd. left. by exists d. Qed.

Lemma insert_evolves t id d d' :
  t !! id = Some d → row_le d d' → evolves t (<[id := d']> t).
Proof.
  intros Hid Hle. split.
  - intros j e. rewrite lookup_insert. case_decide; subst; intros He; left.
    + simplify_eq. by exists d.
    + by exists e.
  - intros j e He. rewrite lookup_insert. case_decide; [done|congruence].
Qed.

(** A statement that updates one row without touching its owner. *)
Lemma update_row_sound t id P f :
  table_wf t →
  (∀ d, P d = true → row_wf d →
    row_le d (f d) ∧ row_wf (f d) ∧ queued_id (f d) = queued_id d ∧ run_id (f d) = run_id d) →
  table_wf (update_row id P f t) ∧ evolves t (update_row id P f t).
Proof.
  intros Ht Hf. unfold update_row.
  destruct (t !! id) as [d|] eqn:Hid; [|by auto using evolves_refl].
  destruct (P d) eqn:HP; [|by auto using evolves_refl].
  destruct (Hf d HP (proj2 (wf_rows _ Ht _ _ Hid))) as (Hle & Hwf & Hq & Hr).
  split; [|by eapply insert_evolves].
  eapply insert_wf; try done. intros j e Hj Hne. rewrite Hq, Hr.
  destruct (wf_owners _ Ht _ _ _ _ Hid Hj (not_eq_sym Hne)); done.
Qed.

(** ** Each operation is sound *)

Definition sound (t t' : deliveries) : Prop := table_wf t' ∧ evolves t t'.

Lemma transition_sound now id expected next patch t :
  table_wf t →
  (∀ d, In (state d) expected → row_wf d →
    let d' := (patch d) {{ state := next; updated_at := now }} in
    row_le d d' ∧ row_wf d' ∧ queued_id d' = queued_id d ∧ run_id d' = run_id d) →
  sound t (transition now id expected next patch t).1.
Proof.
  intros Ht Hf. unfold transition. destruct (row_matches _ _ _); cbn; [|by split; auto using evolves_refl].
  apply update_row_sound; [done|]. intros d HP Hwf. apply is_state_spec in HP. by apply Hf.
Qed.

Lemma authorize_sound now id t : table_wf t → sound t (authorize now id t).1.
Proof.
  intros Ht. apply transition_sound; [done|]. intros d Hs Hwf.
  cbn in Hs. destruct Hs as [Hs|[Hs|[]]]; row_fields.
Qed.

Lemma finish_sound now id ok text err t : table_wf t → sound t (finish now id ok text err t).1.
Proof.
  intros Ht. apply transition_sound; [done|]. intros d Hs Hwf.
  destruct ok; cbn in Hs; destruct Hs as [Hs|[Hs|[Hs|Hs]]]; try destruct Hs as [Hs|[]];
    try done; row_fields.
Qed.

Lemma fail_ownerless_sound now id e t :
  table_wf t → sound t (fail_ownerless_authorized now id e t).1.
Proof.
  intros Ht. apply update_row_sound; [done|]. intros d HP Hwf. split_guard; row_fields.
Qed.

Lemma defer_admission_sound now id e t :
  table_wf t → sound t (defer_admission now id e t).1.
Proof.
  intros Ht. apply update_row_sound; [done|]. intros d HP Hwf. split_guard; row_fields.
Qed.

Lemma mark_committed_sound now id req t :
  table_wf t → sound t (mark_response_committed now id req t).1.
Proof.
  intros Ht. apply update_row_sound; [done|]. intros d HP Hwf.
  destruct req; split_guard; row_fields.
Qed.

Lemma clear_response_sound now id req t :
  table_wf t → sound t (clear_response_intent now id req t).1.
Proof.
  intros Ht. apply update_row_sound; [done|]. intros d HP Hwf. split_guard; row_fields.
Qed.

Lemma defer_response_sound now id req e t :
  table_wf t → sound t (defer_response now id req e t).1.
Proof.
  intros Ht. apply update_row_sound; [done|]. intros d HP Hwf. split_guard; row_fields.
Qed.

Lemma sound_refl t : table_wf t → sound t t.
Proof. split; [done|apply evolves_refl]. Qed.

Lemma prepare_response_sound now id req body rr t :
  table_wf t → sound t (commit t (prepare_response now id req body rr t)).
Proof.
  intros Ht. unfold prepare_response.
  destruct (_ || _) eqn:Hv; cbn; [by apply sound_refl|].
  destruct (t !! id) as [row|] eqn:Hid; cbn; [|by apply sound_refl].
  match goal with |- context [negb ?a || ?b] => destruct (negb a || b) eqn:Ha end; cbn; [by apply sound_refl|].
  destruct (response row) as [i|] eqn:Hi; cbn.
  { destruct (raise_if _ _); by apply sound_refl. }
  apply orb_false_iff in Ha as [Ha Hk]. apply negb_false_iff in Ha.
  apply String.eqb_neq in Hk.
  unfold update_row. rewrite Hid. destruct (negb (response_committed row)) eqn:Hc;
    [|by apply sound_refl].
  destruct (wf_rows _ Ht _ _ Hid) as [_ Hwf].
  match goal with |- sound _ (<[id := ?r]> _) => set (row' := r) end.
  assert (row_le row row' ∧ row_wf row' ∧ queued_id row' = queued_id row ∧ run_id row' = run_id row)
    as (Hle & Hwf' & Hq & Hr).
  { subst row'. apply is_state_spec in Ha. cbn in Ha. split_guard; row_fields. }
  split; [|by eapply insert_evolves].
  eapply insert_wf; try done. intros j e Hj Hne. rewrite Hq, Hr.
  by destruct (wf_owners _ Ht _ _ _ _ Hid Hj (not_eq_sym Hne)).
Qed.

Lemma owner_taken_false id q r t :
  owner_taken id q r t = false →
  ∀ j e, t !! j = Some e → j ≠ id →
    (is_Some q → q ≠ queued_id e) ∧ (is_Some r → r ≠ run_id e).
Proof.
  intros Ho j e Hj Hne. unfold owner_taken in Ho.
  rewrite other_row_false in Ho. specialize (Ho _ _ Hj Hne).
  apply orb_false_iff in Ho as [Hq Hr]. split; intros Hs ->.
  - rewrite !bool_decide_true in Hq by done. done.
  - rewrite !bool_decide_true in Hr by done. done.
Qed.

(** Every row [bind_owner] writes. *)
Lemma bind_owner_sound now id q r t :
  table_wf t → sound t (commit t (bind_owner now id q r t)).
Proof.
  intros Ht. unfold bind_owner. destruct (_ && _) eqn:He; cbn; [by apply sound_refl|].
  destruct (t !! id) as [row|] eqn:Hid; cbn; [|by apply sound_refl].
  destruct (wf_rows _ Ht _ _ Hid) as [_ Hwf].
  assert (∀ row', row_le row row' → row_wf row' →
    (∀ j e, t !! j = Some e → j ≠ id →
      (is_Some (queued_id row') → queued_id row' ≠ queued_id e) ∧
      (is_Some (run_id row') → run_id row' ≠ run_id e)) →
    sound t (<[id := row']> t)) as Hset.
  { intros row' Hle Hwf' Hf. split; [by eapply insert_wf|by eapply insert_evolves]. }
  destruct (state row) eqn:Hst; cbn; try by apply sound_refl.
  - destruct (ownerless row) eqn:Hown; [|by apply sound_refl].
    destruct (owner_taken id q r t) eqn:Htaken; [by apply sound_refl|]. cbn.
    pose proof (owner_taken_false _ _ _ _ Htaken) as Hfree. apply ownerless_spec in Hown as [Hq Hr].
    apply Hset; [..|intros j e Hj Hne; by apply (Hfree j e)];
      clear Hset Hfree Htaken; destruct r as [r|]; [row_fields|row_fields|row_fields|].
    destruct q as [q|]; [row_fields|done].
  - destruct r as [r|]; [|destruct (_ || _); by apply sound_refl].
    destruct (_ || _) eqn:Hm; [by apply sound_refl|].
    apply orb_false_iff in Hm as [Hm1%bool_decide_eq_false Hm2%bool_decide_eq_false].
    case_bool_decide as Hq; [by apply sound_refl|].
    destruct (owner_taken id None (Some r) t) eqn:Htaken; [by apply sound_refl|]. cbn.
    pose proof (owner_taken_false _ _ _ _ Htaken) as Hfree.
    apply dec_stable in Hm2 as Hrun.
    apply Hset; [clear Hset Hfree Htaken Hid Hm1; row_fields..|].
    intros j e Hj Hne. split; [|by apply (Hfree j e)]. destruct row; cbn in *.
    by destruct (wf_owners _ Ht _ _ _ _ Hid Hj (not_eq_sym Hne)).
  - destruct (_ || _); by apply sound_refl.
Qed.

Lemma prune_sound now retain t : table_wf t → sound t (prune_deliveries now retain t).1.
Proof.
  intros Ht. unfold prune_deliveries; cbn. set (gone := λ d, _). split; [split|split].
  - intros id d [Hd _]%delete_where_lookup. by apply (wf_rows _ Ht).
  - intros i j d e [Hd _]%delete_where_lookup [He _]%delete_where_lookup.
    by apply (wf_owners _ Ht).
  - etrans; [|exact (wf_capacity _ Ht)]. apply Nat2Z.inj_le, count_where_mono.
    intros k r [Hr _]%delete_where_lookup Hn. by exists r.
  - intros j d' [Hd _]%delete_where_lookup. left. by exists d'.
  - intros j d Hd Hnone. destruct (gone d) eqn:Hg.
    + subst gone; cbn in Hg. split_guard; by match goal with H : _ = state d |- _ => rewrite <-H end.
    + assert (delete_where gone t !! j = Some d) by (by apply delete_where_lookup). congruence.
Qed.

(** What [_claim] guarantees of the claim it returns. *)
Record claim_ok (c : claim) (lease : string) : Prop := {
  ok_role : In (transport_role c) ["host"; "client"];
  ok_action : In (action c) ["instruction"; "request_reply"];
  ok_kind : In (kind c) ["instruction"; "request_reply"; "response"];
  ok_message : blank (message c) = false ∧ len (message c) ≤ 100000;
  ok_required : Forall (λ s, s ≠ "") (claim_required c lease);
  ok_legs : 1 ≤ used_legs c ≤ 6 ∧ max_legs c = 6;
}.

Lemma claim_required_lease c c' l l' :
  Forall (λ s, s ≠ "") (claim_required c l) → Forall (λ s, s ≠ "") (claim_required c' l') →
  Forall (λ s, s ≠ "") (claim_required c l').
Proof. unfold claim_required. rewrite !Forall_cons. tauto. Qed.

Lemma parse_claim_ok env role connection lease chat c digest :
  parse_claim env role connection lease chat = Ok (c, digest) →
  claim_ok c lease ∧ digest = claim_digest_of c ∧ transport_role c = role
  ∧ connection_id c = connection ∧ target_chat_id c = chat.
Proof.
  unfold parse_claim. intros H. inv_res.
  destruct (body_message _) as [m|]; [|done]. inv_res. simplify_eq.
  repeat match goal with H : negb _ = false |- _ => apply negb_false_iff in H end.
  repeat match goal with H : str_in _ _ = true |- _ => apply str_in_spec in H end.
  match goal with H : _ || _ = false |- _ => apply orb_false_iff in H as [? ?] end.
  match goal with H : _ || _ = false |- _ => apply orb_false_iff in H as [? Hm] end.
  split; [|done]. split; try done.
  - split; [done|]. by apply Z.ltb_ge.
  - apply Forall_forall. intros s Hs ->.
    match goal with H : existsb _ _ = false |- _ => revert H end.
    apply not_false_iff_true, existsb_exists. exists "". by rewrite list_elem_of_In in Hs.
  - cbn in *. lia.
Qed.

Lemma expire_prepared_sound now t : table_wf t → sound t (expire_prepared now t).
Proof.
  intros Ht. unfold expire_prepared. set (P := λ d, _). set (f := λ d : delivery, _).
  assert (∀ d, P d = true → row_wf d → row_le d (f d) ∧ row_wf (f d) ∧
    queued_id (f d) = queued_id d ∧ run_id (f d) = run_id d) as Hf.
  { intros d HP Hwf. subst P f; cbn in HP. split_guard; row_fields. }
  assert (∀ j d', update_where P f t !! j = Some d' → ∃ d, t !! j = Some d ∧ row_le d d' ∧
    row_wf d' ∧ queued_id d' = queued_id d ∧ run_id d' = run_id d) as Hrow.
  { intros j d'. rewrite update_where_lookup. intros (d & Hd & ->)%fmap_Some_1.
    exists d. split; [done|]. pose proof (proj2 (wf_rows _ Ht _ _ Hd)) as Hwf.
    destruct (P d) eqn:HP; [by apply Hf|]. done. }
  split; [split|split].
  - intros id d' Hd'. destruct (Hrow _ _ Hd') as (d & Hd & Hle & Hwf & _). split; [|done].
    unfold d_envelope. rewrite (le_claim _ _ Hle). by apply (wf_rows _ Ht).
  - intros i j d' e' Hd' He' Hij.
    destruct (Hrow _ _ Hd') as (d & Hd & _ & _ & -> & ->), (Hrow _ _ He') as (e & He & _ & _ & -> & ->).
    by apply (wf_owners _ Ht i j).
  - etrans; [|exact (wf_capacity _ Ht)]. apply Nat2Z.inj_le, count_where_mono. intros k d' Hd' Hn.
    destruct (Hrow _ _ Hd') as (d & Hd & Hle & _). exists d. split; [done|].
    pose proof (le_rank _ _ Hle). rewrite is_state_spec in *.
    unfold NONTERMINAL in *. destruct (state d), (state d'); cbn in *; intuition (try done; lia).
  - intros j d' Hd'. destruct (Hrow _ _ Hd') as (d & Hd & Hle & _). left. by exists d.
  - intros j d Hd. rewrite update_where_lookup, Hd. done.
Qed.

Lemma evolves_insert_new t t' id d :
  evolves t t' → t !! id = None → state d = Prepared → evolves t (<[id := d]> t').
Proof.
  intros [Hr Hg] Hid Hd. split.
  - intros j e. rewrite lookup_insert. case_decide; [|by apply Hr]. intros [= <-]. subst. by right.
  - intros j e He. rewrite lookup_insert. case_decide; [done|by apply Hg].
Qed.

Lemma new_delivery_wf c lease now :
  claim_ok c lease → row_wf (new_delivery c (claim_digest_of c) lease now).
Proof. intros []. by split. Qed.

(** The three ways [prepare] succeeds: a repeated claim, a repeated claim
    under a new lease, and a new one. *)
Inductive prepared (now : Z) (c : claim) (lease : string) (t : deliveries)
    : deliveries → delivery → bool → Prop :=
| prepared_again row :
    t !! envelope_id c = Some row → claim_digest row = claim_digest_of c →
    state row ≠ Prepared ∨ lease_token row = lease →
    prepared now c lease t t row false
| prepared_lease row row' :
    t !! envelope_id c = Some row → claim_digest row = claim_digest_of c →
    state row = Prepared → lease_token row ≠ lease →
    row' = row {{ lease_token := lease; updated_at := now }} →
    prepared now c lease t (<[envelope_id c := row']> t) row' false
| prepared_new t' row :
    t !! envelope_id c = None → t' = expire_prepared now t →
    Z.of_nat (count_where (is_state NONTERMINAL) t') < MAX_NONTERMINAL_DELIVERIES →
    row = new_delivery c (claim_digest_of c) lease now →
    prepared now c lease t (<[envelope_id c := row]> t') row true.

Lemma prepare_inv now env role connection lease chat t t' row fresh :
  prepare now env role connection lease chat t = Ok (t', (row, fresh)) →
  ∃ c, parse_claim env role connection lease chat = Ok (c, claim_digest_of c) ∧
    claim_ok c lease ∧ prepared now c lease t t' row fresh.
Proof.
  unfold prepare. intros H. apply res_bind_Ok in H as ([c digest] & Hc & H).
  pose proof (parse_claim_ok _ _ _ _ _ _ _ Hc) as (Hok & -> & _).
  exists c. split; [done|]. split; [done|].
  destruct (t !! envelope_id c) as [old|] eqn:Hid; inv_res.
  - match goal with H : negb _ = false |- _ => apply negb_false_iff, String.eqb_eq in H as Hd end.
    destruct (_ && _) eqn:Hp; inv_res; simplify_eq.
    + apply andb_true_iff in Hp as [Hs Hl]. apply is_state_spec in Hs as [Hs|[]].
      apply negb_true_iff, String.eqb_neq in Hl. by eapply prepared_lease.
    + apply prepared_again; [done..|]. apply andb_false_iff in Hp as [Hs|Hl].
      * left. intros E. apply not_true_iff_false in Hs. apply Hs, is_state_spec. by left.
      * right. by apply negb_false_iff, String.eqb_eq in Hl.
  - simplify_eq. apply prepared_new; [done..| |done]. by apply Z.leb_gt.
Qed.

Lemma prepare_sound now env role connection lease chat t :
  table_wf t → sound t (commit t (prepare now env role connection lease chat t)).
Proof.
  intros Ht. destruct (prepare _ _ _ _ _ _ _) as [[t1 [row fresh]]|e] eqn:Hp; cbn;
    [|by apply sound_refl].
  apply prepare_inv in Hp as (c & _ & Hok & Hp).
  destruct Hp as [row Hid Hdig Hl|row row' Hid Hdig Hs Hl ->|t' row Hid -> Hcap ->].
  - by apply sound_refl.
  - destruct (wf_rows _ Ht _ _ Hid) as [Henv Hwf]. match goal with |- sound _ (<[_ := ?r]> _) => set (row' := r) end.
    assert (row_le row row' ∧ row_wf row' ∧ queued_id row' = queued_id row ∧ run_id row' = run_id row)
      as (Hle & Hwf' & Hq & Hr).
    { pose proof (claim_required_lease _ _ _ _ (wf_required _ Hwf) (ok_required _ _ Hok)).
      subst row'. clear Ht Hid Hdig Henv Hok Hl. row_fields. }
    split; [|by eapply insert_evolves].
    eapply insert_wf; try done. intros j e Hj Hne. rewrite Hq, Hr.
    by destruct (wf_owners _ Ht _ _ _ _ Hid Hj (not_eq_sym Hne)).
  - destruct (expire_prepared_sound now t Ht) as [Hwf Hev].
    set (t' := expire_prepared now t) in *.
    assert (t' !! envelope_id c = None) as Hid'.
    { subst t'. unfold expire_prepared. by rewrite update_where_lookup, Hid. }
    split; [|by apply evolves_insert_new].
    pose proof (new_delivery_wf c lease now Hok) as Hnew. split.
    + intros j d. rewrite lookup_insert. case_decide; [|by apply (wf_rows _ Hwf)].
      intros [= <-]. by subst j.
    + intros i j d e. rewrite !lookup_insert. repeat case_decide; intros Hd He Hij;
        simplify_eq; cbn; try (by split; intros [? ?]).
      * split; intros Hs E; rewrite E in Hs; by destruct Hs.
      * by apply (wf_owners _ Hwf i j).
    + rewrite count_where_insert_new by done. destruct (is_state _ _); lia.
Qed.

(** ** Digests identify claims and intents *)

Lemma sort_keys_opt_str o : sort_keys (opt_str o) = opt_str o.
Proof. by destruct o. Qed.
Lemma sort_keys_opt_int o : sort_keys (opt_int o) = opt_int o.
Proof. by destruct o. Qed.

#[local] Instance opt_str_inj : Inj (=) (=) opt_str.
Proof. intros [a|] [b|]; cbn; naive_solver. Qed.
#[local] Instance opt_int_inj : Inj (=) (=) opt_int.
Proof. intros [a|] [b|]; cbn; naive_solver. Qed.

Lemma claim_value_inj c c' :
  sort_keys (claim_value c) = sort_keys (claim_value c') → c = c'.
Proof.
  unfold claim_value. cbn [sort_keys map fst snd].
  rewrite !sort_keys_opt_str, !sort_keys_opt_int.
  generalize opt_str_inj, opt_int_inj. generalize opt_str, opt_int. intros os oi Hos Hoi.
  destruct c, c'; cbn [source_peer_id target_peer_id parent_envelope_id parent_leg].
  vm_compute merge_sort. intros H. simplify_eq. done.
Qed.

(** Two byte strings with one digest. *)
Definition collision : Prop := ∃ x y : string, x ≠ y ∧ sha256 x = sha256 y.

Lemma digest_eq v w :
  sha256 (canonical_json v) = sha256 (canonical_json w) → sort_keys v = sort_keys w ∨ collision.
Proof.
  intros H. destruct (decide (canonical_json v = canonical_json w)) as [E|E].
  - left. by apply canonical_json_eq.
  - right. by exists (canonical_json v), (canonical_json w).
Qed.

Lemma intent_digest_eq req body rr req' body' rr' :
  intent_digest_of req body rr = intent_digest_of req' body' rr' →
  (req = req' ∧ body = body' ∧ rr = rr') ∨ collision.
Proof.
  intros [H|H]%digest_eq; [left|by right]. cbn [sort_keys map fst snd] in H.
  vm_compute merge_sort in H. by simplify_eq.
Qed.

(** ** The ledger, step by step *)

Lemma apply_sound now o t : table_wf t → sound t (apply now o t).
Proof.
  intros Ht. destruct o; cbn [apply];
    auto using prepare_sound, authorize_sound, fail_ownerless_sound, bind_owner_sound,
      defer_admission_sound, finish_sound, prepare_response_sound, mark_committed_sound,
      clear_response_sound, defer_response_sound, prune_sound.
Qed.

Lemma table_wf_empty : table_wf ∅.
Proof.
  split.
  - intros id d. by rewrite lookup_empty.
  - intros i j d e. by rewrite lookup_empty.
  - unfold count_where. rewrite map_filter_empty, map_size_empty. done.
Qed.

Lemma reachable_wf t : ledger_reachable t → table_wf t.
Proof.
  apply reachable_invariant; [exact table_wf_empty|].
  intros l s s' Hs ->. by apply apply_sound.
Qed.

Definition is_prune (l : Z * op) : Prop := match l.2 with OpPrune _ => True | _ => False end.

Lemma commit_lookup {A} t (r : res (deliveries * A)) id :
  is_Some (t !! id) → (∀ t' a, r = Ok (t', a) → is_Some (t' !! id)) →
  is_Some (commit t r !! id).
Proof. intros Ht Hr. destruct r as [[t' a]|e]; cbn; [by eapply Hr|done]. Qed.

Lemma update_row_some k P f (t : deliveries) id :
  is_Some (t !! id) → is_Some (update_row k P f t !! id).
Proof. rewrite <-!not_eq_None_Some, update_row_None. done. Qed.

Lemma insert_some k d (t : deliveries) id : is_Some (t !! id) → is_Some (<[k := d]> t !! id).
Proof. rewrite lookup_insert. case_decide; [by eexists|done]. Qed.

(** Only [prune] removes rows. *)
Lemma apply_keeps now o t id :
  ¬ is_prune (now, o) → is_Some (t !! id) → is_Some (apply now o t !! id).
Proof.
  intros Hp Hid. destruct o; cbn [apply];
    try (by unfold authorize, finish, transition; destruct (row_matches _ _ _);
         cbn; [apply update_row_some|]);
    try (by apply update_row_some).
  - apply commit_lookup; [done|]. intros t' [row fresh] H.
    apply prepare_inv in H as (c & _ & _ & []); subst; [done|by apply insert_some|].
    apply insert_some. unfold expire_prepared. rewrite update_where_lookup. by apply fmap_is_Some.
  - apply commit_lookup; [done|]. intros t' row H. unfold bind_owner in H. inv_res.
    repeat case_match; inv_res; simplify_eq; try done; by apply insert_some.
  - apply commit_lookup; [done|]. intros t' row' H. unfold prepare_response in H. inv_res.
    repeat case_match; inv_res; simplify_eq; try done; by apply update_row_some.
  - by destruct Hp.
Qed.

Abbreviation ledger_run := (steps ledger_step).

(** Along a run without pruning every row is kept and evolves by [row_le]. *)
Lemma run_row_le t ls t' id d :
  table_wf t → ledger_run t ls t' → Forall (λ l, ¬ is_prune l) ls → t !! id = Some d →
  ∃ d', t' !! id = Some d' ∧ row_le d d' ∧ table_wf t'.
Proof.
  intros Ht Hrun. revert d Ht. induction Hrun as [t|t [now o] t1 ls t2 -> _ IH]; intros d Ht Hls Hd.
  - by exists d.
  - apply Forall_cons in Hls as [Hp Hls]. destruct (apply_sound now o t Ht) as [Hwf Hev].
    destruct (apply_keeps now o t id Hp (mk_is_Some _ _ Hd)) as [d1 Hd1].
    destruct (ev_rows _ _ Hev _ _ Hd1) as [(d0 & Hd0 & Hle)|[Hn _]]; [|congruence].
    simplify_eq. destruct (IH d1 Hwf Hls Hd1) as (d' & Hd' & Hle' & Hwf').
    exists d'. split; [done|]. split; [by etrans|done].
Qed.

(** What a successful [bind_owner] returns. *)
Lemma bind_owner_exact now id q r t t' row :
  table_wf t → bind_owner now id q r t = Ok (t', Some row) →
  t' !! id = Some row ∧ queued_id row = q ∧ run_id row = r ∧
  state row = match r with Some _ => Running | None => Queued end ∧
  (∀ j, j ≠ id → t' !! j = t !! j).
Proof.
  intros Ht. unfold bind_owner. intros H. inv_res.
  destruct (t !! id) as [d|] eqn:Hid; inv_res; [|done].
  destruct (wf_rows _ Ht _ _ Hid) as [_ [Hsh _ _ _ _ _]]. unfold state_shape in Hsh.
  destruct (state d) eqn:Hs; inv_res; try done.
  - destruct Hsh as [Hq Hr]. rewrite (proj2 (ownerless_spec d)) in H by done. inv_res. simplify_eq.
    rewrite lookup_insert_eq. split_and!; try done.
    intros j Hj. by apply lookup_insert_ne.
  - destruct Hsh as [[q' Hq] Hr]. rewrite Hq, Hr in H.
    destruct r as [r|]; (destruct (_ || _) eqn:Hm; inv_res; [done|]);
      apply orb_false_iff in Hm as [Hm%bool_decide_eq_false _]; apply dec_stable in Hm; subst q.
    + cbn in H. inv_res. simplify_eq. rewrite lookup_insert_eq. split_and!; try done.
      intros j Hj. by apply lookup_insert_ne.
    + simplify_eq. by rewrite Hr.
  - destruct (_ || _) eqn:Hm; inv_res; [done|].
    apply orb_false_iff in Hm as [Hq%bool_decide_eq_false Hr%bool_decide_eq_false].
    apply dec_stable in Hq, Hr. destruct Hsh as [r' Hr']. simplify_eq. by rewrite Hr'.
Qed.
End ledger.
