(* ===== verification/DeliverySpec.v ===== *)
(** * What the delivery ledger promises

    An abstract machine per envelope - offered, accepted, owned by one queue
    row or run, closed - and the proof that the ledger of [DeliveryLedger]
    implements it, with the guarantees the runtime relies on: one run per
    delivery, an immutable identity, the admission queue and its back-off. *)
From S2P Require Import Prelude PyValues DeliveryLedger.

Open Scope string_scope.
Open Scope Z_scope.

(** ** The abstract machine *)

Inductive phase :=
| Offered
| Accepted
| Owned (q r : option string)
| Closed (ok : bool) (q r : option string).

Definition owner (p : phase) : option string * option string :=
  match p with
  | Offered | Accepted => (None, None)
  | Owned q r | Closed _ q r => (q, r)
  end.

(** No delivery answers to [q] or to [r]. *)
Definition free (m : gmap string phase) (q r : option string) : Prop :=
  ∀ id p, m !! id = Some p →
    (is_Some q → q ≠ (owner p).1) ∧ (is_Some r → r ≠ (owner p).2).

(** Some of the offers have lapsed. *)
Definition lapses (m m' : gmap string phase) : Prop :=
  ∀ id, m' !! id = m !! id ∨
    (m !! id = Some Offered ∧ m' !! id = Some (Closed false None None)).

Inductive event :=
| Idle
| Offer (id : string)
| Accept (id : string)
| Own (id : string) (q r : option string)
| Start (id : string) (q : option string) (r : string)
| Close (id : string) (ok : bool)
| Forget.

Inductive spec_step : event → gmap string phase → gmap string phase → Prop :=
| spec_idle m : spec_step Idle m m
| spec_offer m m' id :
    m !! id = None → lapses m m' → spec_step (Offer id) m (<[id := Offered]> m')
| spec_accept m id :
    m !! id = Some Offered → spec_step (Accept id) m (<[id := Accepted]> m)
| spec_own m id q r :
    m !! id = Some Accepted → is_Some q ∨ is_Some r → free m q r →
    spec_step (Own id q r) m (<[id := Owned q r]> m)
| spec_start m id q r :
    m !! id = Some (Owned q None) → is_Some q → free m None (Some r) →
    spec_step (Start id q r) m (<[id := Owned q (Some r)]> m)
| spec_close m id p ok :
    m !! id = Some p → (∀ b q r, p ≠ Closed b q r) → (ok = true → p ≠ Offered) →
    spec_step (Close id ok) m (<[id := Closed ok (owner p).1 (owner p).2]> m)
| spec_forget m m' :
    (∀ id, m' !! id = m !! id ∨
       (m' !! id = None ∧ ∃ b q r, m !! id = Some (Closed b q r))) →
    spec_step Forget m m'.

(** What each call may do, besides nothing. *)
Definition implements (o : op) (e : event) : Prop :=
  e = Idle ∨
  match o with
  | OpPrepare _ _ _ _ _ => ∃ id, e = Offer id
  | OpAuthorize id => e = Accept id
  | OpFailOwnerless id _ => e = Close id false
  | OpBindOwner id q r => e = Own id q r ∨ ∃ r', r = Some r' ∧ e = Start id q r'
  | OpFinish id ok _ _ => e = Close id ok
  | OpPrune _ => e = Forget
  | _ => False
  end.

(** The phase of a row. *)
Definition abs (d : delivery) : phase :=
  match state d with
  | Prepared => Offered
  | Authorized => Accepted
  | Queued | Running => Owned (queued_id d) (run_id d)
  | Completed => Closed true (queued_id d) (run_id d)
  | Failed => Closed false (queued_id d) (run_id d)
  end.

Section refinement.
Variable sha256 : string → string.
Implicit Types t : deliveries.

Lemma abs_lookup t id : (abs <$> t) !! id = abs <$> t !! id.
Proof. apply lookup_fmap. Qed.

(** A statement that changes no phase does nothing in the abstract. *)
Lemma update_row_abs t id P f :
  (∀ d, P d = true → abs (f d) = abs d) → abs <$> update_row id P f t = abs <$> t.
Proof.
  intros Hf. apply map_eq. intros j. rewrite !abs_lookup, update_row_lookup.
  case_decide; [|done]. destruct (t !! j) as [d|]; cbn; [|done].
  destruct (P d) eqn:HP; [|done]. by rewrite Hf.
Qed.

(** A statement that closes one open row. *)
Lemma update_row_close t id P f ok :
  (∀ d, P d = true → t !! id = Some d →
     abs (f d) = Closed ok (owner (abs d)).1 (owner (abs d)).2 ∧
     (∀ b q r, abs d ≠ Closed b q r) ∧ (ok = true → abs d ≠ Offered)) →
  spec_step (Close id ok) (abs <$> t) (abs <$> update_row id P f t) ∨
  abs <$> update_row id P f t = abs <$> t.
Proof.
  intros Hf. unfold update_row. destruct (t !! id) as [d|] eqn:Hid; [|by right].
  destruct (P d) eqn:HP; [left|by right].
  destruct (Hf d HP eq_refl) as (Ha & Ho & Hok). rewrite fmap_insert, Ha.
  apply spec_close; [|done..]. by rewrite abs_lookup, Hid.
Qed.

Lemma owner_abs d : row_wf sha256 d → owner (abs d) = (queued_id d, run_id d).
Proof.
  intros [Hsh _ _ _ _ _]. unfold state_shape, abs in *.
  destruct (state d); cbn; intuition congruence.
Qed.

Lemma abs_free t q r id :
  owner_taken id q r t = false →
  (∀ d, t !! id = Some d → (queued_id d = None ∨ q = None) ∧ run_id d = None) →
  table_wf sha256 t → free (abs <$> t) q r.
Proof.
  intros Hfree Hd0 Hwf j p. rewrite abs_lookup. intros (d & Hd & ->)%fmap_Some_1.
  rewrite owner_abs by apply (wf_rows _ _ Hwf _ _ Hd). cbn.
  destruct (decide (j = id)) as [->|Hne].
  - destruct (Hd0 _ Hd) as [Hq ->]. split; intros [? ->]; [|done]. destruct Hq; congruence.
  - by destruct (owner_taken_false _ _ _ _ Hfree _ _ Hd Hne).
Qed.

Lemma bind_owner_refines now id q r t t' o :
  table_wf sha256 t → bind_owner now id q r t = Ok (t', o) →
  ∃ e, spec_step e (abs <$> t) (abs <$> t') ∧ implements (OpBindOwner id q r) e.
Proof.
  intros Hwf H. assert (∀ o', Ok (t, o') = Ok (t', o) →
    ∃ e, spec_step e (abs <$> t) (abs <$> t') ∧ implements (OpBindOwner id q r) e) as Hidle.
  { intros o' [= <- <-]. exists Idle. split; [constructor|by left]. }
  unfold bind_owner in H. apply res_bind_Ok in H as (? & Hne%raise_if_Ok & H).
  destruct (t !! id) as [d|] eqn:Hid; [|by eapply Hidle].
  pose proof (proj2 (wf_rows _ _ Hwf _ _ Hid)) as [Hsh _ _ _ _ _]. unfold state_shape in Hsh.
  destruct (state d) eqn:Hs; try (by eapply Hidle).
  - destruct (ownerless d) eqn:Ho; [|by eapply Hidle]. destruct Hsh as [Hq Hr].
    inv_res. match goal with H : owner_taken _ _ _ _ = false |- _ => rename H into Hfree end.
    simplify_eq. exists (Own id q r). split; [|by right; left].
    rewrite fmap_insert.
    match goal with |- spec_step _ _ (<[_ := ?a]> _) => replace a with (Owned q r)
      by (unfold abs; destruct r, d; done) end.
    apply spec_own; [by rewrite abs_lookup, Hid; unfold abs; cbn; rewrite Hs| |].
    + destruct q; [left; done|]. destruct r; [right; done|]. done.
    + eapply abs_free; [done|rewrite Hid; intros ? [= <-]; auto|done].
  - destruct r as [r|]; [|destruct (_ || _); by eapply Hidle].
    destruct (_ || _) eqn:Hm; [by eapply Hidle|].
    apply orb_false_iff in Hm as [Hm1%bool_decide_eq_false%dec_stable Hm2%bool_decide_eq_false%dec_stable].
    case_bool_decide as Hq; [by eapply Hidle|].
    inv_res. match goal with H : owner_taken _ _ _ _ = false |- _ => rename H into Hfree end.
    simplify_eq. exists (Start id (queued_id d) r). split; [|right; right; by exists r].
    rewrite fmap_insert.
    match goal with |- spec_step _ _ (<[_ := ?a]> _) => replace a with (Owned (queued_id d) (Some r))
      by (unfold abs; by destruct d) end.
    apply spec_start; [by rewrite abs_lookup, Hid; unfold abs; cbn; rewrite Hs, Hm2| |].
    + by apply not_eq_None_Some.
    + eapply abs_free; [done|rewrite Hid; intros ? [= <-]; auto|done].
  - destruct (_ || _); by eapply Hidle.
Qed.

Definition refines (now : Z) (o : op) t t' : Prop :=
  ∃ e, spec_step e (abs <$> t) (abs <$> t') ∧ implements o e.

Lemma refines_idle now o t t' : abs <$> t' = abs <$> t → refines now o t t'.
Proof. intros E. exists Idle. rewrite E. split; [constructor|by left]. Qed.

Lemma refines_quiet now o t id P f :
  (∀ d, P d = true → abs (f d) = abs d) → refines now o t (update_row id P f t).
Proof. intros Hf. by apply refines_idle, update_row_abs. Qed.

Lemma expire_lapses now t : table_wf sha256 t → lapses (abs <$> t) (abs <$> expire_prepared now t).
Proof.
  intros Hwf j. rewrite !abs_lookup. unfold expire_prepared. rewrite update_where_lookup.
  destruct (t !! j) as [d|] eqn:Hj; cbn; [|by left]. destruct (_ && _) eqn:HP; [right|by left].
  apply andb_true_iff in HP as [Hs%is_state_spec _]. cbn in Hs. destruct Hs as [Hs|[]].
  destruct (proj2 (wf_rows _ _ Hwf _ _ Hj)) as [Hsh _ _ _ _ _]. unfold state_shape in Hsh.
  unfold abs. destruct d; cbn in *; subst. destruct Hsh as (-> & -> & _). done.
Qed.

Lemma prepare_refines now env role connection lease chat t :
  table_wf sha256 t → let o := OpPrepare env role connection lease chat in
  refines now o t (apply sha256 now o t).
Proof.
  intros Hwf. cbn. destruct (prepare _ _ _ _ _ _ _ _) as [[t' [row fresh]]|e] eqn:Hp; cbn;
    [|by apply refines_idle].
  apply prepare_inv in Hp as (c & _ & _ & [old Hid _ _|old new Hid _ _ _ ->|t1 new Hid -> _ ->]).
  - by apply refines_idle.
  - apply refines_idle. rewrite fmap_insert. apply insert_id.
    rewrite abs_lookup, Hid. by destruct old.
  - exists (Offer (envelope_id c)). split; [|right; by eexists].
    rewrite fmap_insert. apply spec_offer; [by rewrite abs_lookup, Hid|by apply expire_lapses].
Qed.

Lemma prepare_response_refines now id req body rr t :
  let o := OpPrepareResponse id req body rr in refines now o t (apply sha256 now o t).
Proof.
  cbn. destruct (prepare_response _ _ _ _ _ _ _) as [[t' row]|e] eqn:Hp; cbn;
    [|by apply refines_idle].
  apply refines_idle. unfold prepare_response in Hp. inv_res.
  repeat case_match; inv_res; simplify_eq; try done. apply update_row_abs. by intros [].
Qed.

(** The phases [authorize] and [finish] may leave. *)
Lemma transition_refines now o id expected next patch t e :
  table_wf sha256 t → implements o e →
  (∀ d, In (state d) expected → row_wf sha256 d → t !! id = Some d →
    let d' := (patch d) {{ state := next; updated_at := now }} in
    spec_step e (abs <$> t) (<[id := abs d']> (abs <$> t)) ∨ abs d' = abs d) →
  refines now o t (transition now id expected next patch t).1.
Proof.
  intros Hwf Hi Hf. unfold transition.
  destruct (row_matches _ _ _) eqn:Hm; cbv zeta; cbn [fst]; [|by apply refines_idle].
  unfold row_matches in Hm. unfold update_row. destruct (t !! id) as [d|] eqn:Hid; [|done].
  rewrite Hm. apply is_state_spec in Hm.
  destruct (Hf d Hm (proj2 (wf_rows _ _ Hwf _ _ Hid)) eq_refl) as [Hs|Hs].
  - exists e. by rewrite fmap_insert.
  - apply refines_idle. rewrite fmap_insert, Hs. apply insert_id. by rewrite abs_lookup, Hid.
Qed.

Lemma authorize_refines now id t :
  table_wf sha256 t → refines now (OpAuthorize id) t (authorize now id t).1.
Proof.
  intros Hwf. eapply transition_refines with (e := Accept id); [done|by right|].
  intros d Hs _ Hid. cbn in Hs. destruct Hs as [Hs|[Hs|[]]]; [left|right].
  - unfold abs at 2; destruct d; cbn in *; subst. apply spec_accept.
    by rewrite abs_lookup, Hid.
  - by destruct d; cbn in *; subst.
Qed.

Lemma finish_refines now id ok text err t :
  table_wf sha256 t →
  refines now (OpFinish id ok text err) t (finish sha256 now id ok text err t).1.
Proof.
  intros Hwf. eapply transition_refines with (e := Close id ok); [done|by right|].
  intros d Hs Hd Hid. left. pose proof (owner_abs _ Hd) as Ho.
  match goal with |- spec_step _ _ (<[_ := ?a]> _) =>
    replace a with (Closed ok (owner (abs d)).1 (owner (abs d)).2) end.
  - apply spec_close; [by rewrite abs_lookup, Hid|..]; unfold abs;
      destruct ok; cbn in Hs; intuition (repeat match goal with H : _ = state d |- _ =>
        rewrite <-H in * end; done).
  - rewrite Ho. unfold abs. destruct d; cbn. by destruct ok.
Qed.

Lemma fail_ownerless_refines now id e t :
  refines now (OpFailOwnerless id e) t (fail_ownerless_authorized now id e t).1.
Proof.
  cbn. edestruct (update_row_close t id) as [H|H];
    [|exists (Close id false); split; [exact H|by right]|by apply refines_idle].
  intros d HP Hid. apply andb_true_iff in HP as [Hs%is_state_spec [Hq Hr]%ownerless_spec].
  cbn in Hs. destruct Hs as [Hs|[]]. unfold abs. destruct d; cbn in *; by subst.
Qed.

Lemma prune_refines now retain t :
  refines now (OpPrune retain) t (prune_deliveries now retain t).1.
Proof.
  exists Forget. split; [|by right]. apply spec_forget. intros j. rewrite !abs_lookup. cbn.
  set (gone := λ d, _). destruct (t !! j) as [d|] eqn:Hj.
  - destruct (gone d) eqn:Hg.
    + right. split.
      * apply fmap_None, eq_None_not_Some. intros [d' [Hd' Hg']%delete_where_lookup]. congruence.
      * subst gone; cbn in Hg. apply andb_true_iff in Hg as [Hs%is_state_spec _].
        cbn. unfold abs. destruct Hs as [Hs|[Hs|[]]]; rewrite <-Hs; by do 3 eexists.
    + left. by rewrite (proj2 (delete_where_lookup gone t j d) (conj Hj Hg)).
  - left. cbn. apply fmap_None, eq_None_not_Some.
    intros [d' [Hd' _]%delete_where_lookup]. congruence.
Qed.

Lemma apply_refines now o t : table_wf sha256 t → refines now o t (apply sha256 now o t).
Proof.
  intros Hwf. destruct o; cbn [apply].
  - by apply prepare_refines.
  - by apply authorize_refines.
  - apply fail_ownerless_refines.
  - destruct (bind_owner _ _ _ _ _) as [[t' row]|e] eqn:Hb; [|by apply refines_idle].
    by eapply bind_owner_refines.
  - apply refines_quiet. by intros [].
  - by apply finish_refines.
  - apply prepare_response_refines.
  - apply refines_quiet. by intros [].
  - apply refines_quiet. by intros [].
  - apply refines_quiet. by intros [].
  - apply prune_refines.
Qed.
End refinement.

(** ** Guarantees *)

Section guarantees.
Variable sha256 : string → string.
Implicit Types t : gmap string delivery.

(** In every table the ledger can reach, each row is stored under its
    envelope id, has the owner columns its state calls for, one to six legs of
    a budget of six, the digest of its claim and of its response intent, and a
    complete identity; no two rows share a queue row or a run, and at most
    2048 rows are open. *)
Theorem ledger_reachable_wf t :
  reachable ∅ (ledger_step sha256) t → table_wf sha256 t.
Proof. apply reachable_wf. Qed.

(** C14: Every call is a step of the abstract machine that the call may make:
    offers are accepted, accepted deliveries get one free owner, a queued one
    is started by one free run, an open one is closed, and only closed ones are
    forgotten. *)
Theorem ledger_refines_spec t now o t' :
  reachable ∅ (ledger_step sha256) t → ledger_step sha256 (now, o) t t' →
  ∃ e, spec_step e (abs <$> t) (abs <$> t') ∧ implements o e.
Proof. intros Ht ->. apply apply_refines. by apply reachable_wf. Qed.

(** Until the ledger is pruned, every row stays, keeps its claim and its
    owner, only advances, keeps a committed response, and is frozen once
    completed or failed. *)
Theorem run_preserves_rows t ls t' id d :
  reachable ∅ (ledger_step sha256) t → steps (ledger_step sha256) t ls t' →
  Forall (λ l, ¬ is_prune l) ls → t !! id = Some d →
  ∃ d', t' !! id = Some d' ∧ row_le d d'.
Proof.
  intros Ht Hrun Hls Hd. apply reachable_wf in Ht.
  destruct (run_row_le _ _ _ _ _ _ Ht Hrun Hls Hd) as (d' & Hd' & Hle & _). eauto.
Qed.

(** A delivery runs at most once: whatever happens in between, two
    successful bindings of one envelope to a run name the same run, and the
    same queue row if one was bound. *)
Theorem one_run_per_delivery t now1 id q1 r1 t1 d1 ls t2 now2 q2 r2 t3 d2 :
  reachable ∅ (ledger_step sha256) t →
  bind_owner now1 id q1 (Some r1) t = Ok (t1, Some d1) →
  steps (ledger_step sha256) t1 ls t2 → Forall (λ l, ¬ is_prune l) ls →
  bind_owner now2 id q2 (Some r2) t2 = Ok (t3, Some d2) →
  r2 = r1 ∧ q2 = q1.
Proof.
  intros Ht Hb1 Hrun Hls Hb2. apply reachable_wf in Ht.
  pose proof (bind_owner_sound _ now1 id q1 (Some r1) t Ht) as [Ht1 _]. rewrite Hb1 in Ht1. cbn in Ht1.
  destruct (bind_owner_exact _ _ _ _ _ _ _ _ Ht Hb1) as (Hd1 & Hq1 & Hr1 & Hs1 & _).
  destruct (run_row_le _ _ _ _ _ _ Ht1 Hrun Hls Hd1) as (d & Hd & Hle & Ht2).
  destruct (le_owner _ _ Hle) as [Hq Hr]; [by rewrite Hs1; cbn|].
  pose proof (le_rank _ _ Hle) as Hrk. rewrite Hs1 in Hrk.
  unfold bind_owner in Hb2. inv_res. rewrite Hd in Hb2.
  destruct (state d); cbn in Hrk; try lia; inv_res; [|done..].
  destruct (_ || _) eqn:Hm; inv_res; [done|].
  apply orb_false_iff in Hm as [Hm1%bool_decide_eq_false%dec_stable Hm2%bool_decide_eq_false%dec_stable].
  split; congruence.
Qed.

(** [prepare] accepts a redelivery of an envelope it knows only with the
    very claim it stored - unless SHA-256 collides - and then changes nothing
    but the lease of a row that is still [prepared]; every refusal of a
    well-formed claim is a changed identity, a full ledger or an integer SQLite
    cannot hold. *)
Theorem prepare_identity now env role connection lease chat t c :
  reachable ∅ (ledger_step sha256) t →
  parse_claim sha256 env role connection lease chat = Ok (c, claim_digest_of sha256 c) →
  match prepare sha256 now env role connection lease chat t with
  | Ok (t', (row, fresh)) =>
      (if fresh : bool
       then t !! envelope_id c = None ∧ row = new_delivery c (claim_digest_of sha256 c) lease now
       else (d_claim row = c ∨ collision sha256) ∧
            ∃ old, t !! envelope_id c = Some old ∧
              row = old {{ lease_token := lease_token row; updated_at := updated_at row }} ∧
              (state old ≠ Prepared → row = old) ∧ (state old = Prepared → lease_token row = lease)) ∧
      t' !! envelope_id c = Some row
  | Err e =>
      (∃ old, t !! envelope_id c = Some old ∧ d_claim old ≠ c) ∨
      Z.of_nat (count_where (is_state NONTERMINAL) (expire_prepared now t)) = MAX_NONTERMINAL_DELIVERIES ∨
      from_option sqlite_int true (parent_leg c) && sqlite_int (expires_at c) = false
  end.
Proof.
  intros Ht Hc. apply reachable_wf in Ht.
  destruct (prepare _ _ _ _ _ _ _ _) as [[t' [row fresh]]|e] eqn:Hp.
  - apply prepare_inv in Hp as (c' & Hc' & _ & Hp). rewrite Hc in Hc'. simplify_eq.
    assert (∀ old, t !! envelope_id c' = Some old →
      claim_digest old = claim_digest_of sha256 c' → d_claim old = c' ∨ collision sha256) as Hid.
    { intros old Hold Hd. rewrite (wf_digest _ _ (proj2 (wf_rows _ _ Ht _ _ Hold))) in Hd.
      apply digest_eq in Hd as [Hd|Hd]; [left; by apply claim_value_inj|by right]. }
    destruct Hp as [old Hold Hd Hl|old new Hold Hd Hs Hl ->|t1 new Hn -> Hcap ->].
    + split; [|done]. split; [by apply Hid|]. exists old.
      split_and!; [done|by destruct old|done|]. by destruct Hl.
    + split; [|by rewrite lookup_insert_eq]. split; [destruct (Hid old Hold Hd); [left|right]; by destruct old|].
      exists old. split_and!; [done|by destruct old|done|by destruct old].
    + split; [done|by rewrite lookup_insert_eq].
  - unfold prepare in Hp. rewrite Hc, res_bind_ret in Hp.
    destruct (t !! envelope_id c) as [old|] eqn:Hold.
    + left. exists old. split; [done|]. intros <-.
      rewrite (wf_digest _ _ (proj2 (wf_rows _ _ Ht _ _ Hold))), String.eqb_refl in Hp.
      cbn in Hp. by destruct (_ && _).
    + right. destruct (MAX_NONTERMINAL_DELIVERIES <=? _) eqn:Hcap.
      * left. apply Z.leb_le in Hcap.
        pose proof (wf_capacity _ _ (proj1 (expire_prepared_sound sha256 now t Ht))). lia.
      * right. cbn in Hp. destruct (_ && _); [done|done].
Qed.

(** [pending_admissions] returns, in retry order, the first [limit] of
    exactly the accepted deliveries that have no owner and are due, and refuses
    a limit outside 1..50. *)
Theorem pending_admissions_exact now limit t :
  match pending_admissions now limit t with
  | Ok l => 1 ≤ limit ≤ 50 ∧
      first_rows (λ d, bool_decide (state d = Authorized) && bool_decide (queued_id d = None)
                       && bool_decide (run_id d = None)
                       && (default 0 (retry_at (admission d)) <=? now))
        (by_retry admission) (Z.to_nat limit) t l
  | Err e => limit < 1 ∨ 50 < limit
  end.
Proof.
  unfold pending_admissions. destruct (negb _) eqn:Hl; cbn; [lia|]. split; [lia|].
  erewrite (select_ordered_ext _ (λ d, bool_decide (state d = Authorized) && _ && _ && _)).
  - apply take_first_rows; apply _.
  - intros d. unfold is_state, ownerless, due. cbn. by rewrite orb_false_r, !andb_assoc.
Qed.

(** A deferred admission comes back: after [defer_admission] the row is
    due again exactly from [backoff] seconds later, which is [2^n] for the
    [n]-th failure up to the eighth and 256 from then on. *)
Theorem defer_admission_backoff now id e t t' d' d :
  reachable ∅ (ledger_step sha256) t → t !! id = Some d →
  state d = Authorized → defer_admission now id e t = (t', Some d') →
  t' !! id = Some d' ∧ attempts (admission d') = attempts (admission d) + 1 ∧
  (∀ now', due now' (admission d') = true ↔
     now + 2 ^ Z.min (attempts (admission d')) 8 ≤ now') ∧
  2 ≤ 2 ^ Z.min (attempts (admission d')) 8 ≤ 256.
Proof.
  intros Ht Hd Hs H. apply reachable_wf in Ht.
  destruct (wf_rows _ _ Ht _ _ Hd) as [_ [Hsh _ _ _ [Hatt _] _]].
  unfold state_shape in Hsh. rewrite Hs in Hsh.
  unfold defer_admission, update_row in H. rewrite Hd in H.
  assert (is_state [Authorized] d && ownerless d = true) as E.
  { apply andb_true_iff. rewrite is_state_spec, ownerless_spec, Hs. cbn. auto. }
  rewrite E in H. injection H as <- H. split; [done|]. rewrite lookup_insert_eq in H.
  injection H as H.
  assert (admission d' = deferred now e (admission d)) as -> by (rewrite <-H; by destruct d).
  by apply deferred_due.
Qed.

Lemma prepare_response_eq now id req body rr t d :
  req ≠ "" → blank body = false → len body ≤ 100000 →
  t !! id = Some d → In (state d) ACTIVE → kind (d_claim d) ≠ "instruction" →
  response_committed d = false →
  let i := {| i_request_id := req; i_digest := intent_digest_of sha256 req body rr;
              i_body := body; i_request_response := rr |} in
  prepare_response sha256 now id req body rr t =
    match response d with
    | Some i' => if String.eqb (i_digest i') (i_digest i) then Ok (t, Some d)
                 else Err (RuntimeError "secure peer response intent changed")
    | None => Ok (<[id := with_intent now i d]> t, Some (with_intent now i d))
    end.
Proof.
  intros Hreq Hbody Hlen Hd Hact Hkind Hc. unfold prepare_response.
  rewrite (proj2 (String.eqb_neq _ _) Hreq), Hbody, (proj2 (Z.ltb_ge _ _) Hlen), Hd.
  rewrite (proj2 (is_state_spec _ _) Hact), (proj2 (String.eqb_neq _ _) Hkind). cbn.
  destruct (response d) as [i|]; [by destruct (String.eqb _ _)|].
  unfold update_row. rewrite Hd, Hc. cbn. by rewrite lookup_insert_eq.
Qed.

(** One delivery has at most one response intent at a time: a well-formed
    intent for an active request is stored exactly when none is, repeating it
    changes nothing, and a different one is refused - unless SHA-256
    collides. *)
Theorem response_intent_unique now id req body rr t d :
  reachable ∅ (ledger_step sha256) t → t !! id = Some d →
  req ≠ "" → blank body = false → len body ≤ 100000 →
  In (state d) ACTIVE → kind (d_claim d) ≠ "instruction" → response_committed d = false →
  match prepare_response sha256 now id req body rr t, response d with
  | Ok (t', row), None =>
      row = t' !! id ∧ ∃ d' i, row = Some d' ∧ response d' = Some i ∧
        i_request_id i = req ∧ i_body i = body ∧ i_request_response i = rr ∧
        ∀ now', response d' ≠ None ∧
          prepare_response sha256 now' id req body rr t' = Ok (t', Some d')
  | Ok (t', row), Some i =>
      t' = t ∧ row = Some d ∧
      ((i_request_id i = req ∧ i_body i = body ∧ i_request_response i = rr) ∨ collision sha256)
  | Err e, Some i => ¬ (i_request_id i = req ∧ i_body i = body ∧ i_request_response i = rr)
  | Err e, None => False
  end.
Proof.
  intros Ht Hd Hreq Hbody Hlen Hact Hkind Hc. apply reachable_wf in Ht.
  destruct (wf_rows _ _ Ht _ _ Hd) as [_ [_ _ _ _ _ Hint]].
  rewrite (prepare_response_eq now id req body rr t d) by done.
  destruct (response d) as [i|] eqn:Hi.
  - destruct (Hint i eq_refl) as [_ Hdig]. cbn [i_digest]. rewrite Hdig.
    destruct (String.eqb _ _) eqn:He.
    + split; [done|]. split; [done|]. apply String.eqb_eq, intent_digest_eq in He. naive_solver.
    + intros (<- & <- & <-). by rewrite String.eqb_refl in He.
  - rewrite lookup_insert_eq. split; [done|]. eexists _, _.
    split; [done|]. split; [by destruct d|]. split_and!; [done..|].
    intros now'. split; [by destruct d|].
    rewrite (prepare_response_eq now' id req body rr _ _ Hreq Hbody Hlen
      (lookup_insert_eq _ _ _)) by (by destruct d).
    destruct d; cbn. by rewrite String.eqb_refl.
Qed.

(** [for_run] finds exactly the delivery a run owns. *)
Theorem for_run_exact run t d :
  reachable ∅ (ledger_step sha256) t →
  for_run run t = Some d ↔ ∃ id, t !! id = Some d ∧ run_id d = Some run.
Proof.
  intros Ht. apply reachable_wf in Ht. unfold for_run.
  assert (∀ e, e ∈ select_where (λ d, bool_decide (run_id d = Some run)) t ↔
    run_id e = Some run ∧ ∃ k, t !! k = Some e) as Hin.
  { intros e. by rewrite elem_of_select_where, bool_decide_eq_true. }
  split.
  - intros Hh. destruct (select_where _ _) as [|e l] eqn:Hl; [done|]. cbn in Hh. simplify_eq.
    destruct (proj1 (Hin d)) as [Hr [k Hk]]; [by left|]. by exists k.
  - intros (id & Hid & Hr). destruct (select_where _ _) as [|e l] eqn:Hl.
    { exfalso. eapply not_elem_of_nil. apply Hin. eauto. }
    cbn. f_equal. destruct (proj1 (Hin e)) as [Hr' [k Hk]]; [by left|].
    destruct (decide (k = id)) as [->|Hne]; [congruence|].
    destruct (wf_owners _ _ Ht _ _ _ _ Hk Hid Hne) as [_ Hu].
    exfalso. apply (Hu (mk_is_Some _ _ Hr')). congruence.
Qed.
End guarantees.

(** ** The guarantees at work *)

Module DeliveryExample.
Definition plain (s : string) : string := s.
Definition env : list (string * pyval) := [
  ("envelope_id", PStr "env-1"); ("request_id", PStr "req-1");
  ("team_id", PStr "team"); ("source_server_identity", PStr "server-a");
  ("source_route_id", PStr "route-a"); ("source_route_revision", PStr "1");
  ("target_server_identity", PStr "server-b"); ("target_route_id", PStr "route-b");
  ("target_route_revision", PInt 1); ("action", PStr "request_reply");
  ("kind", PStr "request_reply"); ("exchange_id", PStr "exchange");
  ("used_legs", PInt 1); ("max_legs", PInt 6); ("expires_at", PInt 9000);
  ("body", PDict [("message", PStr "hello")])].
Definition offer : op := OpPrepare env "client" "conn" "lease-1" "chat".
Definition t1 := apply plain 100 offer ∅.
Definition t2 := apply plain 110 (OpAuthorize "env-1") t1.
Definition t3 := apply plain 120 (OpBindOwner "env-1" (Some "q-1") (Some "run-1")) t2.
Definition t4 := apply plain 130 (OpDeferAdmission "env-1" "busy") t3.
Definition row (t : gmap string delivery) : delivery :=
  default (new_delivery (exact_claim [] "" "" "" "" None 0 0 0) "" "" 0) (t !! "env-1").

Lemma reach1 : reachable ∅ (ledger_step plain) t1.
Proof. by apply (reachable_step _ _ (100, offer) ∅); [constructor|]. Qed.
Lemma reach2 : reachable ∅ (ledger_step plain) t2.
Proof. by apply (reachable_step _ _ (110, OpAuthorize "env-1") t1); [exact reach1|]. Qed.
Lemma reach3 : reachable ∅ (ledger_step plain) t3.
Proof.
  by apply (reachable_step _ _ (120, OpBindOwner "env-1" (Some "q-1") (Some "run-1")) t2);
    [exact reach2|].
Qed.
End DeliveryExample.

Section witnesses.
Import DeliveryExample.

Lemma ledger_reachable_wf_witness :
  state (row t3) = Running ∧ table_wf plain t3.
Proof. split; [by vm_compute|]. apply ledger_reachable_wf. exact reach3. Defined.

Lemma ledger_refines_spec_witness :
  ∃ e, spec_step e (abs <$> t1) (abs <$> t2) ∧ implements (OpAuthorize "env-1") e.
Proof. apply (ledger_refines_spec plain t1 110 (OpAuthorize "env-1") t2); [exact reach1|done]. Defined.

Lemma run_preserves_rows_witness : ∃ d', t2 !! "env-1" = Some d' ∧ row_le (row t1) d'.
Proof.
  apply (run_preserves_rows plain t1 [(110, OpAuthorize "env-1")]).
  - exact reach1.
  - by eapply steps_cons; [|apply steps_nil].
  - repeat constructor. by intros [].
  - by vm_compute.
Defined.

Lemma one_run_per_delivery_witness :
  "run-1" = "run-1" ∧ Some "q-1" = Some "q-1".
Proof.
  apply (one_run_per_delivery plain t2 120 "env-1" (Some "q-1") "run-1" t3 (row t3)
           [(130, OpDeferAdmission "env-1" "busy")] t4 140 (Some "q-1") "run-1" t4 (row t4)).
  - exact reach2.
  - by vm_compute.
  - by eapply steps_cons; [|apply steps_nil].
  - repeat constructor. by intros [].
  - by vm_compute.
Defined.

Lemma prepare_identity_witness :
  match prepare plain 150 env "client" "conn" "lease-2" "chat" t1 with
  | Ok (t', (row, fresh)) => fresh = false ∧ t' !! "env-1" = Some row
  | Err _ => False end.
Proof.
  pose proof (prepare_identity plain 150 env "client" "conn" "lease-2" "chat" t1
    (d_claim (row t1)) reach1 ltac:(by vm_compute)) as H.
  destruct (prepare _ _ _ _ _ _ _ _) as [[t' [r fresh]]|] eqn:E;
    [|by vm_compute in E]. destruct H as [_ H].
  split; [|exact H]. apply (f_equal (λ r, match r with Ok (_, (_, f)) => f | Err _ => true end)) in E.
  rewrite <-E. by vm_compute.
Defined.

Lemma defer_admission_backoff_witness :
  due 122 (admission (row (apply plain 120 (OpDeferAdmission "env-1" "busy") t2))) = true
  ∧ due 121 (admission (row (apply plain 120 (OpDeferAdmission "env-1" "busy") t2))) ≠ true.
Proof.
  destruct (defer_admission_backoff plain 120 "env-1" "busy" t2
    (apply plain 120 (OpDeferAdmission "env-1" "busy") t2)
    (row (apply plain 120 (OpDeferAdmission "env-1" "busy") t2)) (row t2)) as (_ & _ & H & _);
    [exact reach2|by vm_compute..|].
  split; [by apply H|by intros ?%H].
Defined.

Lemma response_intent_unique_witness :
  match prepare_response plain 130 "env-1" "r-1" "done" false t3 with
  | Ok (t', row) => row = t' !! "env-1" | Err _ => False end.
Proof.
  pose proof (response_intent_unique plain 130 "env-1" "r-1" "done" false t3 (row t3) reach3
    ltac:(by vm_compute) ltac:(done) ltac:(done) ltac:(by vm_compute) ltac:(vm_compute; auto)
    ltac:(by vm_compute) ltac:(by vm_compute)) as H.
  assert (response (row t3) = None) as E by (by vm_compute). rewrite E in H.
  revert H. generalize (prepare_response plain 130 "env-1" "r-1" "done" false t3).
  intros [[t' r]|e] H; [exact (proj1 H)|exact H].
Defined.

Lemma for_run_exact_witness :
  for_run "run-1" t3 = Some (row t3).
Proof. apply (for_run_exact plain); [exact reach3|]. exists "env-1". by vm_compute. Defined.
End witnesses.
