(* ===== verification/OutboundLedger.v ===== *)
(** * The outbound half of the secure-peer delivery ledger

    [secure_peer_delivery.py]: the table [secure_peer_outbound_intents], which
    makes a message a chat sends to a peer survive a crash between the local
    decision and the hub's answer.  A row is pending until the hub's answer is
    committed or the intent fails; both are final until the row is pruned.
    The row keeps the JSON texts of its snapshot and of its answer;
    [_public_outbound], which parses them back, is left out. *)
From S2P Require Import Prelude PyValues DeliveryLedger.

Open Scope string_scope.
Open Scope Z_scope.

Inductive outbound_state := OPending | OCommitted | OFailed.
#[global] Instance outbound_state_eq_dec : EqDecision outbound_state.
Proof. solve_decision. Defined.

Record outbound := Outbound {
  o_request : string;
  intent_digest : string;
  source_session : string;
  source_run : string;
  o_connection : string;
  source_route : string;
  source_revision : string;
  snapshot_json : string;
  o_body : string;
  o_action : string;
  o_expires : Z;
  o_state : outbound_state;
  response_json : option string;
  o_retry : retry;
  o_created : Z;
  o_updated : Z;
}.
#[global] Instance outbound_eq_dec : EqDecision outbound.
Proof. solve_decision. Defined.

Abbreviation intents := (gmap string outbound).

Section outbound.
Variable sha256 : string → string.

Definition is_ostate (l : list outbound_state) (o : outbound) : bool :=
  existsb (λ s, bool_decide (o_state o = s)) l.
#[global] Arguments is_ostate : simpl never.

(** [exact], hashed. *)
Definition exact_value (req session run : string) (snapshot : list (string * pyval))
    (body act : string) (expires : Z) : pyval := PDict [
  ("request_id", PStr req);
  ("source_session_id", PStr session);
  ("source_run_id", PStr run);
  ("snapshot", PDict snapshot);
  ("body", PStr body);
  ("action", PStr act);
  ("expires_at", PInt expires)].

Definition intent_value_digest (req session run : string) (snapshot : list (string * pyval))
    (body act : string) (expires : Z) : string :=
  sha256 (canonical_json (exact_value req session run snapshot body act expires)).

(** The guard of [prepare_outbound]. *)
Definition outbound_invalid (req session run : string) (snapshot : list (string * pyval))
    (body act : string) : bool :=
  existsb (λ s, String.eqb s "")
    [req; session; run; get_str snapshot "connection_id";
     get_str snapshot "source_route_id"; get_str snapshot "source_route_revision"]
  || negb (String.eqb (get_str snapshot "source_chat_id") session)
  || negb (String.eqb (get_str snapshot "action") act)
  || negb (str_in act ["instruction"; "request_reply"])
  || blank body || (100000 <? len body).

(** The row [prepare_outbound] inserts: it may be retried at once. *)
Definition new_outbound (now : Z) (req session run : string) (snapshot : list (string * pyval))
    (body act : string) (expires : Z) : outbound := {|
  o_request := req;
  intent_digest := intent_value_digest req session run snapshot body act expires;
  source_session := session; source_run := run;
  o_connection := get_str snapshot "connection_id";
  source_route := get_str snapshot "source_route_id";
  source_revision := get_str snapshot "source_route_revision";
  snapshot_json := dumps_sorted (PDict snapshot);
  o_body := body; o_action := act; o_expires := expires; o_state := OPending;
  response_json := None;
  o_retry := {| retry_at := Some now; attempts := 0; last_error := None |};
  o_created := now; o_updated := now |}.

Definition prepare_outbound (now : Z) (req session run : string)
    (snapshot : list (string * pyval)) (body act : string) (expires : Z) (t : intents)
    : res (intents * (outbound * bool)) :=
  _ ← raise_if (outbound_invalid req session run snapshot body act)
        (ValueError "secure peer outbound intent is invalid");
  match t !! req with
  | Some row =>
      _ ← raise_if (negb (String.eqb (intent_digest row)
                            (intent_value_digest req session run snapshot body act expires)))
            (RuntimeError "secure peer outbound intent changed");
      Ok (t, (row, false))
  | None =>
      _ ← raise_if (negb (sqlite_int expires))
            (OverflowError "Python int too large to convert to SQLite INTEGER");
      let row := new_outbound now req session run snapshot body act expires in
      Ok (<[req := row]> t, (row, true))
  end.

Definition expired (now : Z) (o : outbound) : bool :=
  is_ostate [OPending] o && (o_expires o <=? now).

Definition expire_pending_outbound (now : Z) (t : intents) : intents :=
  update_where (expired now)
    (λ o, o {{ o_state := OFailed;
               o_retry := {| retry_at := None; attempts := attempts (o_retry o);
                             last_error := Some "secure peer exchange expired" |};
               o_updated := now }}) t.

Definition by_age : relation outbound := by_key (λ o, (o_created o, o_request o)) int_str_le.
#[global] Instance by_age_dec : RelDecision by_age.
Proof. unfold by_age. apply _. Defined.
#[global] Instance by_age_trans : Transitive by_age.
Proof. unfold by_age. apply _. Qed.
#[global] Instance by_age_total : Total by_age.
Proof. unfold by_age. apply _. Qed.

Definition by_due : relation outbound :=
  by_key (λ o, (default 0 (retry_at (o_retry o)), (o_created o, o_request o))) int_int_str_le.
#[global] Instance by_due_dec : RelDecision by_due.
Proof. unfold by_due. apply _. Defined.

(** The three scans that first expire what is overdue. *)
Definition pending_outbound_where (now : Z) (P : outbound → bool) (t : intents)
    : intents * list outbound :=
  let t' := expire_pending_outbound now t in
  (t', select_ordered (λ o, is_ostate [OPending] o && P o) by_age t').

Definition for_chat (session : string) (o : outbound) : bool :=
  String.eqb (source_session o) session.
Definition for_connection (connection : string) (o : outbound) : bool :=
  String.eqb (o_connection o) connection.
Definition for_route (connection route revision : string) (o : outbound) : bool :=
  String.eqb (o_connection o) connection && String.eqb (source_route o) route
  && String.eqb (source_revision o) revision.

Definition pending_outbound_for_chat (now : Z) (session : string) (t : intents) :=
  pending_outbound_where now (for_chat session) t.

Definition pending_outbound_for_route (now : Z) (connection route revision : string)
    (t : intents) :=
  pending_outbound_where now (for_route connection route revision) t.

Definition pending_outbound_for_connection (now : Z) (connection : string) (t : intents) :=
  pending_outbound_where now (for_connection connection) t.

(** [outbound], the lookup. *)
Definition outbound_get (req : string) (t : intents) : option outbound := t !! req.

Definition commit_outbound (now : Z) (req : string) (answer : list (string * pyval))
    (t : intents) : res (intents * option outbound) :=
  let text := dumps_sorted (PDict answer) in
  match t !! req with
  | None => Ok (t, None)
  | Some row =>
      match o_state row with
      | OCommitted =>
          _ ← raise_if (negb (String.eqb (default "" (response_json row)) text))
                (RuntimeError "secure peer outbound result changed");
          Ok (t, Some row)
      | OFailed => Ok (t, Some row)
      | OPending =>
          let t' := update_row req (is_ostate [OPending])
            (λ o, o {{ o_state := OCommitted; response_json := Some text;
                       o_retry := admitted (o_retry o); o_updated := now }}) t in
          Ok (t', t' !! req)
      end
  end.

Definition defer_outbound (now : Z) (req e : string) (t : intents)
    : intents * option outbound :=
  let t' := update_row req (is_ostate [OPending])
    (λ o, o {{ o_retry := deferred now e (o_retry o); o_updated := now }}) t in
  (t', t' !! req).

Definition fail_outbound (now : Z) (req e : string) (t : intents)
    : intents * option outbound :=
  let t' := update_row req (is_ostate [OPending])
    (λ o, o {{ o_state := OFailed;
               o_retry := {| retry_at := None; attempts := attempts (o_retry o);
                             last_error := Some (clip e) |};
               o_updated := now }}) t in
  (t', t' !! req).

Definition pending_outbound (now limit : Z) (t : intents) : res (list outbound) :=
  _ ← raise_if (negb ((1 <=? limit) && (limit <=? 50)))
        (ValueError "secure peer outbound retry limit is invalid");
  Ok (take (Z.to_nat limit)
        (select_ordered (λ o, is_ostate [OPending] o && due now (o_retry o)) by_due t)).

Definition recoverable_outbound (limit : Z) (t : intents) : res (list outbound) :=
  _ ← raise_if (negb ((1 <=? limit) && (limit <=? 50)))
        (ValueError "secure peer outbound recovery limit is invalid");
  Ok (take (Z.to_nat limit) (select_ordered (is_ostate [OPending]) by_age t)).

(** [prune]: both statements, and the sum of their row counts. *)
Definition outbound_gone (cutoff : Z) (o : outbound) : bool :=
  is_ostate [OCommitted; OFailed] o && (o_updated o <? cutoff).

Definition prune (now retain : Z) (d : gmap string delivery) (t : intents)
    : gmap string delivery * intents * nat :=
  let '(d', n) := prune_deliveries now retain d in
  (d', delete_where (outbound_gone (now - retain)) t,
   n + count_where (outbound_gone (now - retain)) t)%nat.

(** ** The table as a transition system *)

Inductive outbound_op :=
| OpPrepareOut (req session run : string) (snapshot : list (string * pyval))
    (body act : string) (expires : Z)
| OpScan (P : outbound → bool)
| OpCommitOut (req : string) (answer : list (string * pyval))
| OpDeferOut (req e : string)
| OpFailOut (req e : string)
| OpPruneOut (retain : Z).

Definition commit_out {A} (t : intents) (r : res (intents * A)) : intents :=
  match r with Ok (t', _) => t' | Err _ => t end.

Definition apply_out (now : Z) (o : outbound_op) (t : intents) : intents :=
  match o with
  | OpPrepareOut req session run snapshot body act expires =>
      commit_out t (prepare_outbound now req session run snapshot body act expires t)
  | OpScan P => (pending_outbound_where now P t).1
  | OpCommitOut req answer => commit_out t (commit_outbound now req answer t)
  | OpDeferOut req e => (defer_outbound now req e t).1
  | OpFailOut req e => (fail_outbound now req e t).1
  | OpPruneOut retain => (prune now retain ∅ t).1.2
  end.

Definition outbound_step (l : Z * outbound_op) (t t' : intents) : Prop :=
  t' = apply_out l.1 l.2 t.

(** ** What a row may become *)

(** What [prepare_outbound] fixed. *)
Definition o_identity (o : outbound) :=
  (o_request o, intent_digest o, source_session o, source_run o,
   (o_connection o, source_route o, source_revision o), snapshot_json o,
   o_body o, o_action o, o_expires o, o_created o).

Record out_le (o o' : outbound) : Prop := {
  out_identity : o_identity o' = o_identity o;
  out_frozen : o_state o ≠ OPending → o' = o;
}.
#[export] Instance out_le_preorder : PreOrder out_le.
Proof.
  split; [by split|]. intros a b c [Hi Hf] [Hi' Hf']. split; [congruence|].
  intros Ha. specialize (Hf Ha). subst b. auto.
Qed.

(** A row is the image of the intent that was hashed; it holds an answer
    exactly when it is committed. *)
Record out_wf (o : outbound) : Prop := {
  out_answer : o_state o = OCommitted ↔ is_Some (response_json o);
  out_image : ∃ snapshot,
    outbound_invalid (o_request o) (source_session o) (source_run o) snapshot
      (o_body o) (o_action o) = false ∧
    intent_digest o = intent_value_digest (o_request o) (source_session o) (source_run o)
      snapshot (o_body o) (o_action o) (o_expires o) ∧
    snapshot_json o = dumps_sorted (PDict snapshot) ∧
    o_connection o = get_str snapshot "connection_id" ∧
    source_route o = get_str snapshot "source_route_id" ∧
    source_revision o = get_str snapshot "source_route_revision";
  out_attempts : 0 ≤ attempts (o_retry o);
}.

Definition intents_wf (t : intents) : Prop :=
  ∀ req o, t !! req = Some o → o_request o = req ∧ out_wf o.

Lemma is_ostate_spec l o : is_ostate l o = true ↔ In (o_state o) l.
Proof.
  unfold is_ostate. rewrite existsb_exists. split.
  - by intros (s & Hs & ->%bool_decide_eq_true).
  - intros H. exists (o_state o). split; [done|]. by apply bool_decide_eq_true.
Qed.

Lemma pending_spec o : is_ostate [OPending] o = true ↔ o_state o = OPending.
Proof. rewrite is_ostate_spec. cbn. naive_solver. Qed.

(** A statement that changes only pending rows, and them soundly. *)
Definition pending_update (f : outbound → outbound) : Prop :=
  ∀ o, o_state o = OPending → out_wf o → o_identity (f o) = o_identity o ∧ out_wf (f o).

Definition out_sound (t t' : intents) : Prop :=
  intents_wf t' ∧ ∀ req o, t !! req = Some o → ∃ o', t' !! req = Some o' ∧ out_le o o'.

Lemma out_sound_refl t : intents_wf t → out_sound t t.
Proof. split; [done|]. intros req o Ho. by exists o. Qed.

Lemma pending_map_sound (P : string → outbound → bool) f t t' :
  intents_wf t → pending_update f → (∀ k o, P k o = true → o_state o = OPending) →
  (∀ k, t' !! k = (λ o, if P k o then f o else o) <$> t !! k) → out_sound t t'.
Proof.
  intros Ht Hf HP Hmap.
  assert (∀ k o, t !! k = Some o →
    out_le o (if P k o then f o else o) ∧ out_wf (if P k o then f o else o)) as H.
  { intros k o Ho. destruct (Ht _ _ Ho) as [_ Hwf]. destruct (P k o) eqn:E; [|done].
    destruct (Hf o (HP _ _ E) Hwf) as [Hid Hwf']. split; [|done]. split; [done|].
    by rewrite (HP _ _ E). }
  split.
  - intros k o'. rewrite Hmap. intros (o & Ho & ->)%fmap_Some_1.
    destruct (H _ _ Ho) as [[Hid _] Hwf]. split; [|done].
    etrans; [exact (f_equal (λ i, i.1.1.1.1.1.1.1.1.1) Hid)|by apply (Ht _ _ Ho)].
  - intros k o Ho. rewrite Hmap, Ho. cbn. eexists. split; [done|]. by apply H.
Qed.

Lemma update_row_pending_sound req f t :
  intents_wf t → pending_update f → out_sound t (update_row req (is_ostate [OPending]) f t).
Proof.
  intros Ht Hf.
  apply (pending_map_sound (λ k o, bool_decide (k = req) && is_ostate [OPending] o) f); [done..| |].
  - by intros k o [_ H%pending_spec]%andb_true_iff.
  - intros k. rewrite update_row_lookup. case_decide as Hk.
    + by rewrite bool_decide_true.
    + rewrite bool_decide_false by done. by destruct (t !! k).
Qed.

Ltac pending_fields :=
  intros o Hs [Ha Hi Ht]; destruct o; cbn in *; subst; split; [done|];
  split; unfold deferred, admitted; cbn; [|done|lia];
  first [exact Ha | by split | split; [done|intros H; by apply Ha in H]].

Lemma fail_update now c e : pending_update (λ o, o {{ o_state := OFailed;
  o_retry := {| retry_at := c; attempts := attempts (o_retry o); last_error := e |};
  o_updated := now }}).
Proof. pending_fields. Qed.

Lemma defer_update now e : pending_update (λ o, o {{ o_retry := deferred now e (o_retry o);
  o_updated := now }}).
Proof. pending_fields. Qed.

Lemma commit_update now text : pending_update (λ o, o {{ o_state := OCommitted;
  response_json := Some text; o_retry := admitted (o_retry o); o_updated := now }}).
Proof. pending_fields. Qed.

Lemma expire_outbound_sound now t : intents_wf t → out_sound t (expire_pending_outbound now t).
Proof.
  intros Ht. eapply (pending_map_sound (λ _, expired now)); [done|apply fail_update| |].
  - by intros _ o [H%pending_spec _]%andb_true_iff.
  - intros k. apply update_where_lookup.
Qed.

Lemma new_outbound_wf now req session run snapshot body act expires :
  outbound_invalid req session run snapshot body act = false →
  out_wf (new_outbound now req session run snapshot body act expires).
Proof.
  intros H. split; [|by exists snapshot|done]. split; [done|by intros [? ?]].
Qed.

Lemma prepare_outbound_inv now req session run snapshot body act expires t t' row fresh :
  prepare_outbound now req session run snapshot body act expires t = Ok (t', (row, fresh)) →
  outbound_invalid req session run snapshot body act = false ∧
  if fresh : bool
  then t !! req = None ∧ sqlite_int expires = true ∧ t' = <[req := row]> t ∧
       row = new_outbound now req session run snapshot body act expires
  else t' = t ∧ t !! req = Some row ∧
       intent_digest row = intent_value_digest req session run snapshot body act expires.
Proof.
  unfold prepare_outbound. intros H. inv_res. split; [done|].
  destruct (t !! req) as [o|]; inv_res; simplify_eq.
  - split; [done|]. split; [done|]. by apply String.eqb_eq, negb_false_iff.
  - split_and!; try done. by apply negb_false_iff.
Qed.

Lemma prepare_outbound_sound now req session run snapshot body act expires t :
  intents_wf t →
  out_sound t (commit_out t (prepare_outbound now req session run snapshot body act expires t)).
Proof.
  intros Ht. destruct (prepare_outbound _ _ _ _ _ _ _ _ _) as [[t' [row fresh]]|] eqn:Hp;
    [cbn|by apply out_sound_refl].
  apply prepare_outbound_inv in Hp as [Hv Hp]. destruct fresh.
  - destruct Hp as (Hnone & _ & -> & Hrow). split.
    + intros k o. rewrite lookup_insert. case_decide as Hk; [|by apply Ht].
      intros [= <-]. subst. split; [done|by apply new_outbound_wf].
    + intros k o Ho. exists o. split; [|done]. rewrite lookup_insert_ne; [done|]. congruence.
  - destruct Hp as (-> & _). by apply out_sound_refl.
Qed.

Lemma commit_outbound_sound now req answer t :
  intents_wf t → out_sound t (commit_out t (commit_outbound now req answer t)).
Proof.
  intros Ht. unfold commit_outbound. destruct (t !! req) as [row|]; [|by apply out_sound_refl].
  destruct (o_state row); cbn.
  - apply update_row_pending_sound, commit_update. done.
  - destruct (negb _); by apply out_sound_refl.
  - by apply out_sound_refl.
Qed.

Definition is_prune_out (l : Z * outbound_op) : Prop :=
  match l.2 with OpPruneOut _ => True | _ => False end.

Lemma apply_out_sound now o t :
  intents_wf t → ¬ is_prune_out (now, o) → out_sound t (apply_out now o t).
Proof.
  intros Ht Hp. destruct o; cbn [apply_out].
  - by apply prepare_outbound_sound.
  - by apply expire_outbound_sound.
  - by apply commit_outbound_sound.
  - apply update_row_pending_sound, defer_update. done.
  - apply update_row_pending_sound, fail_update. done.
  - by destruct Hp.
Qed.

Lemma intents_reachable_wf t : reachable ∅ outbound_step t → intents_wf t.
Proof.
  apply reachable_invariant; [by intros ? ?; rewrite lookup_empty|].
  intros [now o] s s' Hs ->. cbn [fst snd].
  destruct o; try by apply apply_out_sound; [done|intros []].
  intros k o [Ho _]%delete_where_lookup. by apply Hs.
Qed.

Lemma outbound_run_le t ls t' req o :
  intents_wf t → steps outbound_step t ls t' → Forall (λ l, ¬ is_prune_out l) ls →
  t !! req = Some o → ∃ o', t' !! req = Some o' ∧ out_le o o'.
Proof.
  intros Ht Hrun. revert o Ht.
  induction Hrun as [t|t [now op] t1 ls t2 -> _ IH]; intros o Ht Hls Ho; [by exists o|].
  apply Forall_cons in Hls as [Hp Hls]. destruct (apply_out_sound now op t Ht Hp) as [Hwf Hk].
  destruct (Hk _ _ Ho) as (o1 & Ho1 & Hle). destruct (IH o1 Hwf Hls Ho1) as (o' & Ho' & Hle').
  exists o'. split; [done|by etrans].
Qed.

Lemma exact_value_inj req session run snapshot body act expires
    req' session' run' snapshot' body' act' expires' :
  sort_keys (exact_value req session run snapshot body act expires) =
  sort_keys (exact_value req' session' run' snapshot' body' act' expires') →
  req = req' ∧ session = session' ∧ run = run' ∧
  sort_keys (PDict snapshot) = sort_keys (PDict snapshot') ∧
  body = body' ∧ act = act' ∧ expires = expires'.
Proof.
  unfold exact_value. cbn [sort_keys map fst snd].
  generalize (merge_sort key_le (map (λ kv : string * pyval, (kv.1, sort_keys kv.2)) snapshot)).
  generalize (merge_sort key_le (map (λ kv : string * pyval, (kv.1, sort_keys kv.2)) snapshot')).
  intros l l'. vm_compute merge_sort. intros H. by simplify_eq.
Qed.
End outbound.

(** ** Guarantees *)

Section guarantees.
Variable sha256 : string → string.
Implicit Types t : gmap string outbound.

Lemma dumps_sorted_eq v w : dumps_sorted v = dumps_sorted w ↔ sort_keys v = sort_keys w.
Proof. split; [apply encode_value_inj|]. unfold dumps_sorted. by intros ->. Qed.

(** The rows that answer to a request. *)
Definition answers_to (o : outbound) (req session run : string)
    (snapshot : list (string * pyval)) (body act : string) (expires : Z) : Prop :=
  o_request o = req ∧ source_session o = session ∧ source_run o = run ∧
  snapshot_json o = dumps_sorted (PDict snapshot) ∧ o_body o = body ∧
  o_action o = act ∧ o_expires o = expires.

(** A request id names one outbound message: a valid intent is stored once,
    pending and due at once; repeating it returns the stored row and changes
    nothing; the same id with any other chat, run, route snapshot, body, action
    or expiry is refused - unless SHA-256 collides. *)
Theorem outbound_identity now req session run snapshot body act expires t :
  reachable ∅ (outbound_step sha256) t →
  outbound_invalid req session run snapshot body act = false →
  match prepare_outbound sha256 now req session run snapshot body act expires t with
  | Ok (t', (row, fresh)) =>
      t' !! req = Some row ∧
      (answers_to row req session run snapshot body act expires ∨ collision sha256) ∧
      if fresh : bool
      then t !! req = None ∧ o_state row = OPending ∧ due now (o_retry row) = true
      else t' = t
  | Err e =>
      (∃ old, t !! req = Some old ∧ ¬ answers_to old req session run snapshot body act expires) ∨
      (t !! req = None ∧ sqlite_int expires = false)
  end.
Proof.
  intros Ht Hv. apply intents_reachable_wf in Ht.
  destruct (prepare_outbound _ _ _ _ _ _ _ _ _ _) as [[t' [row fresh]]|e] eqn:Hp.
  - apply prepare_outbound_inv in Hp as [_ Hp]. destruct fresh.
    + destruct Hp as (Hnone & _ & -> & ->). rewrite lookup_insert_eq. split_and!; try done.
      * by left.
      * cbn. apply Z.leb_refl.
    + destruct Hp as (-> & Hrow & Hd). split; [done|]. split; [|done].
      destruct (Ht _ _ Hrow) as [Hreq Hwf].
      destruct (out_image _ _ Hwf) as (s & _ & Hd' & Hj & _). rewrite Hd' in Hd.
      apply digest_eq in Hd as [Hd|Hd]; [left|by right].
      apply exact_value_inj in Hd as (? & ? & ? & Hs & ? & ? & ?).
      unfold answers_to. rewrite Hj. split_and!; try done. by apply dumps_sorted_eq.
  - unfold prepare_outbound in Hp. rewrite Hv in Hp. cbn in Hp.
    destruct (t !! req) as [old|] eqn:Hold.
    + left. exists old. split; [done|]. intros (Hr & Hs & Hrun & Hj & Hb & Ha & He).
      destruct (Ht _ _ Hold) as [_ Hwf]. destruct (out_image _ _ Hwf) as (s & _ & Hd & Hj' & _).
      rewrite Hj' in Hj. apply dumps_sorted_eq in Hj.
      assert (intent_digest old = intent_value_digest sha256 req session run snapshot body act expires)
        as E; [|by rewrite E, String.eqb_refl in Hp].
      rewrite Hd. unfold intent_value_digest. f_equal. apply canonical_json_eq.
      subst. unfold exact_value. cbn [sort_keys map fst snd] in *. by rewrite Hj.
    + right. split; [done|]. by destruct (sqlite_int expires).
Qed.

(** The hub's answer to an outbound message is final: once committed, until
    the ledger is pruned, the row never changes, committing the same answer -
    up to the order of its keys - returns it, and committing any other answer
    is refused. *)
Theorem outbound_answer_final now req answer t t1 o1 ls t2 now' answer' :
  reachable ∅ (outbound_step sha256) t →
  commit_outbound now req answer t = Ok (t1, Some o1) → o_state o1 = OCommitted →
  steps (outbound_step sha256) t1 ls t2 → Forall (λ l, ¬ is_prune_out l) ls →
  t2 !! req = Some o1 ∧
  match commit_outbound now' req answer' t2 with
  | Ok r => r = (t2, Some o1) ∧ sort_keys (PDict answer') = sort_keys (PDict answer)
  | Err e => sort_keys (PDict answer') ≠ sort_keys (PDict answer)
  end.
Proof.
  intros Ht Hc Hs Hrun Hls. apply intents_reachable_wf in Ht.
  pose proof (commit_outbound_sound sha256 now req answer t Ht) as [Ht1 _]. rewrite Hc in Ht1. cbn in Ht1.
  assert (t1 !! req = Some o1 ∧ response_json o1 = Some (dumps_sorted (PDict answer))) as [Ho1 Hr].
  { unfold commit_outbound in Hc. destruct (t !! req) as [o|] eqn:Ho; [|done].
    destruct (o_state o) eqn:Hst; inv_res; simplify_eq; try congruence.
    - match goal with H : update_row _ _ _ _ !! _ = _ |- _ => rename H into Hc end. split; [done|]. rewrite update_row_lookup, decide_True, Ho in Hc by done.
      cbn in Hc. rewrite (proj2 (pending_spec _) Hst) in Hc. injection Hc as <-. by destruct o.
    - split; [done|]. match goal with H : negb _ = false |- _ => apply negb_false_iff, String.eqb_eq in H end.
      destruct (proj1 (out_answer _ _ (proj2 (Ht _ _ Ho))) Hst) as [r Hr]. rewrite Hr in *. cbn in *. congruence. }
  destruct (outbound_run_le _ _ _ _ _ _ Ht1 Hrun Hls Ho1) as (o2 & Ho2 & [_ Hf]).
  rewrite (Hf ltac:(by rewrite Hs)) in Ho2. split; [done|].
  unfold commit_outbound. rewrite Ho2, Hs, Hr. cbn [default from_option id].
  destruct (String.eqb _ _) eqn:E; cbn [negb raise_if mbind res_bind].
  - split; [done|]. by apply String.eqb_eq, dumps_sorted_eq in E.
  - apply String.eqb_neq in E. intros H. by apply E, dumps_sorted_eq.
Qed.

End guarantees.

Section scans.
Implicit Types t : gmap string outbound.

(** The scans for a chat, a route or a connection return, oldest first,
    exactly the pending messages of that chat, route or connection that have
    not expired, and they fail exactly the pending messages that have. *)
Theorem outbound_scan_exact now (P : outbound → bool) t t' l :
  pending_outbound_where now P t = (t', l) →
  (∀ o, o ∈ l ↔ P o = true ∧ o_state o = OPending ∧ now < o_expires o ∧ ∃ k, t !! k = Some o) ∧
  StronglySorted by_age l ∧
  (∀ k o', t' !! k = Some o' → ∃ o, t !! k = Some o ∧ o_identity o' = o_identity o ∧
     (if bool_decide (o_state o = OPending ∧ o_expires o ≤ now) then o_state o' = OFailed else o' = o)) ∧
  dom t' = dom t.
Proof.
  intros [= <- <-].
  assert (∀ o, expired now o = true ↔ o_state o = OPending ∧ o_expires o ≤ now) as Hexp.
  { intros o. unfold expired. by rewrite andb_true_iff, pending_spec, Z.leb_le. }
  destruct (select_ordered_spec (λ o, is_ostate [OPending] o && P o) by_age
              (expire_pending_outbound now t)) as [Hin Hsort].
  split_and!; [|done| |].
  - intros o. rewrite Hin, andb_true_iff, pending_spec. unfold expire_pending_outbound. split.
    + intros [[Hs HP] [k Hk]]. rewrite update_where_lookup in Hk.
      apply fmap_Some_1 in Hk as (o0 & Hk & E). destruct (expired now o0) eqn:Hx; [by subst o|].
      subst o. split_and!; [done..| |by exists k]. apply not_true_iff_false in Hx.
      rewrite Hexp in Hx. apply Z.nle_gt. tauto.
    + intros (HP & Hs & Hlt & k & Hk). split; [done|]. exists k.
      rewrite update_where_lookup, Hk. cbn. destruct (expired now o) eqn:Hx; [|done].
      apply Hexp in Hx. lia.
  - intros k o'. unfold expire_pending_outbound. rewrite update_where_lookup.
    intros (o & Ho & ->)%fmap_Some_1. exists o. split; [done|].
    destruct (expired now o) eqn:Hx.
    + rewrite bool_decide_true by (by apply Hexp). by destruct o.
    + rewrite bool_decide_false; [done|]. by rewrite <-Hexp, Hx.
  - unfold expire_pending_outbound, update_where. apply dom_fmap_L.
Qed.

Lemma count_delete_where {A} (P : A → bool) (m : gmap string A) :
  (count_where P m + size (delete_where P m) = size m)%nat.
Proof.
  unfold count_where, delete_where. set (Q := λ kr : string * A, P kr.2 = true).
  rewrite <-(map_filter_union_complement Q m) at 3.
  rewrite map_size_disj_union by apply map_disjoint_filter_complement. f_equal. f_equal.
  apply map_filter_ext. intros i x _. unfold Q. cbn. by rewrite not_true_iff_false.
Qed.

(** Pruning removes exactly the closed deliveries and the closed outbound
    messages that have not changed for [retain] seconds, changes no other row,
    and returns the number of rows removed. *)
Theorem prune_exact now retain (d d' : gmap string delivery) t t' n :
  prune now retain d t = (d', t', n) →
  (∀ id x, d' !! id = Some x ↔
     d !! id = Some x ∧ (terminal (state x) = false ∨ now - retain ≤ updated_at x)) ∧
  (∀ id x, t' !! id = Some x ↔
     t !! id = Some x ∧ (o_state x = OPending ∨ now - retain ≤ o_updated x)) ∧
  (n + size d' + size t' = size d + size t)%nat.
Proof.
  intros [= <- <- <-]. split_and!.
  - intros id x. rewrite delete_where_lookup, andb_false_iff, Z.ltb_ge.
    by destruct x as [? ? ? []].
  - intros id x. rewrite delete_where_lookup. unfold outbound_gone.
    rewrite andb_false_iff, Z.ltb_ge, <-not_true_iff_false, is_ostate_spec. cbn.
    apply and_iff_compat_l, or_iff_compat_r. destruct (o_state x); naive_solver.
  - rewrite <-(count_delete_where (λ x, is_state [Completed; Failed] x && (updated_at x <? now - retain)) d),
      <-(count_delete_where (outbound_gone (now - retain)) t). lia.
Qed.
End scans.

(** ** The guarantees at work *)

Module OutboundExample.
Definition plain (s : string) : string := s.
Definition route : list (string * pyval) := [
  ("connection_id", PStr "conn"); ("source_route_id", PStr "route");
  ("source_route_revision", PInt 3); ("source_chat_id", PStr "chat");
  ("action", PStr "instruction")].
Definition t1 : gmap string outbound :=
  apply_out plain 100 (OpPrepareOut "req" "chat" "run" route "hello" "instruction" 500) ∅.
Definition answer : list (string * pyval) := [("b", PInt 1); ("a", PStr "ok")].
Definition o1 : outbound :=
  (new_outbound plain 100 "req" "chat" "run" route "hello" "instruction" 500)
    {{ o_state := OCommitted; response_json := Some (dumps_sorted (PDict answer));
       o_retry := {| retry_at := None; attempts := 0; last_error := None |}; o_updated := 110 }}.
Definition t2 : gmap string outbound := {[ "req" := o1 ]}.

Lemma outbound_reach1 : reachable ∅ (outbound_step plain) t1.
Proof. by eapply (reachable_step _ _ (100, OpPrepareOut _ _ _ _ _ _ _) ∅); [constructor|]. Qed.
End OutboundExample.

Section witnesses.
Import OutboundExample.

Lemma outbound_identity_witness :
  match prepare_outbound plain 120 "req" "chat" "run" route "other" "instruction" 500 t1 with
  | Ok _ => False
  | Err e => (∃ old, t1 !! "req" = Some old ∧
               ¬ answers_to old "req" "chat" "run" route "other" "instruction" 500) ∨
             (t1 !! "req" = None ∧ sqlite_int 500 = false)
  end.
Proof.
  pose proof (outbound_identity plain 120 "req" "chat" "run" route "other" "instruction" 500 t1
    outbound_reach1 ltac:(by vm_compute)) as H.
  destruct (prepare_outbound _ _ _ _ _ _ _ _ _ _) as [[t' [row fresh]]|e] eqn:E;
    [by vm_compute in E|exact H].
Defined.

Lemma outbound_answer_final_witness : t2 !! "req" = Some o1.
Proof.
  refine (proj1 (outbound_answer_final plain 110 "req" answer t1 t2 o1
    [(115, OpFailOut "req" "late")] t2 120 [] outbound_reach1 _ _ _ _)).
  - by vm_compute.
  - done.
  - eapply steps_cons; [|apply steps_nil]. by vm_compute.
  - repeat constructor. by intros [].
Defined.

Lemma outbound_scan_exact_witness :
  dom (pending_outbound_for_chat 600 "chat" t1).1 = dom t1.
Proof.
  exact (proj2 (proj2 (proj2 (outbound_scan_exact 600 (for_chat "chat") t1
    (pending_outbound_for_chat 600 "chat" t1).1 (pending_outbound_for_chat 600 "chat" t1).2 eq_refl)))).
Defined.

Lemma prune_exact_witness :
  (1 + size (∅ : gmap string delivery) + size (∅ : gmap string outbound) =
   size (∅ : gmap string delivery) + size t2)%nat.
Proof.
  exact (proj2 (proj2 (prune_exact 500 100 ∅ ∅ t2 ∅ 1%nat ltac:(by vm_compute)))).
Defined.
End witnesses.
