(* ===== verification/Mailbox.v ===== *)
(** * The passive chat mailbox

    [chat_mailbox.py]: messages one chat leaves for another on the same
    server, read in bounded pages by the recipient's runs, with wake attempts
    for idle recipients.  The state is the five tables the module touches; a
    function runs inside its caller's transaction, so it is a function of the
    tables that rolls back when it raises.  What the caller generates - the
    time, the random part of an id, the next sequence number - is an argument
    or part of the environment's steps. *)
From S2P Require Import Prelude PyValues.

Open Scope string_scope.
Open Scope Z_scope.

Definition MAX_PAGE_ITEMS : Z := 25.
Definition MAX_PAGE_BYTES : Z := 112 * 1024.

(** ** Tables *)

(** The columns of [cross_chat_envelopes] the mailbox reads. *)
Record envelope := Envelope {
  e_status : string;
  e_mode : string;
  e_kind : string;
  e_auth_kind : string;
  e_source : string;
  e_target : string;
  e_pair : string;
  e_target_run : option string;
  e_reply_to : option string;
  e_body : string;
  e_target_body : option string;
  e_revision : Z;
  e_created_at : string;
  e_source_run : string;
  e_instruction : string;
  e_delegation : string;
}.

(** [chat_mailbox_messages] *)
Record mail := Mail {
  m_id : string;
  m_seq : Z;
  m_source : string;
  m_target : string;
  m_pair : string;
  m_stored_at : string;
  m_reply_to : option string;
  m_read_id : option string;
  m_read_at : option string;
  m_excluded_at : option string;
  m_excluded_reason : option string;
  m_published : bool;
}.

(** [chat_mailbox_reads] *)
Record batch := Batch {
  b_id : string;
  b_target : string;
  b_source : string;
  b_reader_run : string;
  b_request : string;
  b_snapshot : Z;
  b_limit : Z;
  b_created_at : string;
}.

(** [chat_mailbox_read_pages], by [(read_id, after_seq)]. *)
Record read_page := ReadPage {
  p_end : Z;
  p_more : bool;
  p_ids : list string;
}.

(** [chat_mailbox_wakes] *)
Inductive wake_state := WakeReserved | WakeAdmitted.
#[global] Instance wake_state_eq_dec : EqDecision wake_state.
Proof. solve_decision. Defined.

Record wake := Wake {
  w_target : string;
  w_last_attempt : Z;
  w_suppressed : Z;
  w_claim : option string;
  w_through : Z;
  w_state : option wake_state;
  w_run : option string;
  w_updated_at : string;
}.

(** The tables, and the largest sequence number ever given ([AUTOINCREMENT]). *)
Record mailbox := Mailbox {
  envelopes : gmap string envelope;
  mails : gmap string mail;
  seq_floor : Z;
  batches : gmap string batch;
  pages : gmap (string * Z) read_page;
  wakes : gmap string wake;
}.

Definition empty_mailbox : mailbox := {|
  envelopes := ∅; mails := ∅; seq_floor := 0; batches := ∅; pages := ∅; wakes := ∅ |}.

(** A row of [_JOIN]. *)
Record joined := Joined { j_mail : mail; j_env : envelope }.

Definition join_table (db : mailbox) : gmap string joined :=
  map_zip_with Joined (mails db) (envelopes db).

Definition by_seq : relation joined := by_key (λ j, m_seq (j_mail j)) Z.le.
#[global] Instance by_seq_dec : RelDecision by_seq.
Proof. unfold by_seq. apply _. Defined.
#[global] Instance by_seq_trans : Transitive by_seq.
Proof. unfold by_seq. apply _. Qed.
#[global] Instance by_seq_total : Total by_seq.
Proof. unfold by_seq. apply _. Qed.

(** ** Argument checks *)

Definition identifier (s : string) : res unit :=
  raise_if (String.eqb s "" || (240 <? len s) || negb (py_isprintable s))
    (ValueError "Invalid mailbox identifier").

Definition check_limit (z : Z) : res unit :=
  raise_if (negb ((1 <=? z) && (z <=? MAX_PAGE_ITEMS)))
    (ValueError "Mailbox page limit must be between 1 and 25").

Definition check_cursor (z : Z) : res unit :=
  raise_if (negb ((0 <=? z) && (z <=? 2 ^ 63 - 1))) (ValueError "Invalid mailbox cursor").

Definition is_hex (c : Ascii.ascii) : bool :=
  let n := code c in ((48 <=? n) && (n <=? 57) || (97 <=? n) && (n <=? 102))%N.

(** [_PAIR.fullmatch] *)
Definition is_pair (s : string) : bool :=
  startswith "pair_" s
  && string_forallb is_hex (String.substring 5 (String.length s - 5) s)
  && (String.length s =? 37)%nat.

Definition check_pairs (l : list string) : res unit :=
  raise_if (existsb (λ p, negb (is_pair p)) l) (ValueError "Invalid authorized pair").

(** ** Messages *)

(** [_VALID] *)
Definition valid (j : joined) : bool :=
  bool_decide (m_excluded_at (j_mail j) = None)
  && String.eqb (e_status (j_env j)) "stored" && String.eqb (e_mode (j_env j)) "mailbox"
  && String.eqb (e_kind (j_env j)) "instruction"
  && String.eqb (e_auth_kind (j_env j)) "configured_route"
  && String.eqb (e_source (j_env j)) (m_source (j_mail j))
  && String.eqb (e_target (j_env j)) (m_target (j_mail j))
  && String.eqb (e_pair (j_env j)) (m_pair (j_mail j)).
#[global] Arguments valid : simpl never.

Definition unread (j : joined) : bool := bool_decide (m_read_at (j_mail j) = None).

Definition opt (o : option string) : pyval := from_option PStr PNone o.

Definition edited (e : envelope) : bool :=
  (0 <? e_revision e) && bool_decide (is_Some (e_target_body e)).

Definition attested (e : envelope) : bool :=
  str_in (e_delegation e) ["route"; "instruction"; "request_reply"]
  && negb (blank (e_instruction e)) && (e_revision e =? 0).

(** [_message] *)
Definition message_of (j : joined) : list (string * pyval) :=
  let m := j_mail j in
  let e := j_env j in [
  ("message_id", PStr (m_id m));
  ("mailbox_seq", PInt (m_seq m));
  ("source_session_id", PStr (m_source m));
  ("target_session_id", PStr (m_target m));
  ("conversation_id", PStr (m_pair m));
  ("body", PStr (if edited e then default "" (e_target_body e) else e_body e));
  ("created_at", PStr (e_created_at e));
  ("stored_at", PStr (m_stored_at m));
  ("in_reply_to_message_id", opt (m_reply_to m));
  ("read_id", opt (m_read_id m));
  ("read_at", opt (m_read_at m));
  ("message_revision", PInt (if edited e then e_revision e else 0));
  ("message_edited_by_user", PBool (edited e));
  if attested e then
    ("user_delegation", PDict [
      ("version", PInt 1);
      ("source_session_id", PStr (m_source m));
      ("source_run_id", PStr (e_source_run e));
      ("target_session_id", PStr (m_target m));
      ("reference_action", PStr (e_delegation e));
      ("source_user_instruction", PStr (e_instruction e))])
  else ("source_user_instruction", PStr (e_instruction e))].

(** [d[k]=v] on the items of a dict that has [k]. *)
Fixpoint items_set (d : list (string * pyval)) (k : string) (v : pyval)
    : list (string * pyval) :=
  match d with
  | [] => [(k, v)]
  | (k', w) :: d => if String.eqb k' k then (k, v) :: d else (k', w) :: items_set d k v
  end.

(** [message.update(read_metadata)] *)
Definition with_metadata (meta : option (string * string)) (d : list (string * pyval))
    : list (string * pyval) :=
  match meta with
  | None => d
  | Some (read_id, read_at) => items_set (items_set d "read_id" (PStr read_id)) "read_at" (PStr read_at)
  end.

(** The bytes of the compact JSON text of a dict. *)
Definition json_size (d : list (string * pyval)) : Z := len (utf8 (dumps (PDict d))).
#[global] Arguments json_size : simpl never.
#[global] Arguments message_of : simpl never.

(** ** Storing *)

Definition repeat_x (n : nat) : string := String.concat "" (repeat "x" n).

(** The room a message must leave in a page. *)
Definition projected_size (j : joined) : Z :=
  json_size (with_metadata (Some (repeat_x 240, repeat_x 64)) (message_of j)).

Definition storable (e : envelope) : bool :=
  String.eqb (e_status e) "stored" && String.eqb (e_mode e) "mailbox"
  && String.eqb (e_kind e) "instruction" && String.eqb (e_auth_kind e) "configured_route"
  && is_pair (e_pair e) && negb (String.eqb (e_source e) (e_target e))
  && negb (match e_target_run e with Some r => negb (String.eqb r "") | None => false end).

(** The message a reply names is available to the peer that sent it. *)
Definition reply_allowed (e : envelope) (parent : string) (db : mailbox) : bool :=
  match envelopes db !! parent with
  | None => false
  | Some prior =>
      String.eqb (e_source prior) (e_target e) && String.eqb (e_target prior) (e_source e)
      && String.eqb (e_pair prior) (e_pair e)
      && negb (str_in (e_status prior) ["failed"; "cancelled"])
      && match mails db !! parent with
         | Some m => bool_decide (m_excluded_at m = None)
         | None => true
         end
  end.

(** The row [INSERT OR IGNORE] adds. *)
Definition new_mail (id : string) (seq : Z) (e : envelope) (now : string) : mail := {|
  m_id := id; m_seq := seq; m_source := e_source e; m_target := e_target e;
  m_pair := e_pair e; m_stored_at := now; m_reply_to := e_reply_to e;
  m_read_id := None; m_read_at := None; m_excluded_at := None; m_excluded_reason := None;
  m_published := false |}.

Definition insert_mail (id : string) (e : envelope) (now : string) (db : mailbox) : mailbox :=
  match mails db !! id with
  | Some _ => db
  | None =>
      let seq := seq_floor db + 1 in
      db {{ mails := <[id := new_mail id seq e now]> (mails db); seq_floor := seq }}
  end.

Definition store_message (now id : string) (reply : option string) (db : mailbox)
    : res (mailbox * list (string * pyval)) :=
  _ ← identifier id;
  match envelopes db !! id with
  | None => Err (Conflict "Envelope is not an unlaunched mailbox message")
  | Some e =>
      _ ← raise_if (negb (storable e)) (Conflict "Envelope is not an unlaunched mailbox message");
      _ ← raise_if (bool_decide (reply ≠ None) && bool_decide (reply ≠ e_reply_to e))
            (Conflict "Reply relationship does not match the stored envelope");
      _ ← raise_if (match e_reply_to e with
                    | Some parent => negb (String.eqb parent "") && negb (reply_allowed e parent db)
                    | None => false
                    end)
            (Conflict "Reply must reference an available exact peer message");
      let db' := insert_mail id e now db in
      match mails db' !! id with
      | None => Err (TypeError "'NoneType' object is not subscriptable")
      | Some m =>
          _ ← raise_if (negb (String.eqb (m_source m) (e_source e) && String.eqb (m_target m) (e_target e)
                              && String.eqb (m_pair m) (e_pair e)
                              && bool_decide (m_reply_to m = e_reply_to e)))
                (Conflict "Stored mailbox identity changed");
          _ ← raise_if (MAX_PAGE_BYTES <? projected_size (Joined m e) + 8192)
                (Conflict "Message and user delegation exceed the bounded mailbox response");
          Ok (db', message_of (Joined m e))
      end
  end.

(** ** Pages *)

(** [_scope], as a predicate on rows. *)
Definition in_scope (target : string) (source : option string) (pairs : list string)
    (j : joined) : bool :=
  valid j && String.eqb (m_target (j_mail j)) target && str_in (m_pair (j_mail j)) pairs
  && match source with
     | Some s => String.eqb s "" || String.eqb (m_source (j_mail j)) s
     | None => true
     end.

Definition check_scope (target : string) (source : option string) (pairs : list string)
    : res unit :=
  _ ← identifier target;
  _ ← check_pairs pairs;
  match source with
  | Some s => if String.eqb s "" then Ok tt else identifier s
  | None => Ok tt
  end.

(** The loop of [_page]: rows kept so far, and the bytes they use. *)
Fixpoint fill (limit : nat) (meta : option (string * string)) (rows kept : list joined)
    (used : Z) : res (list joined * bool) :=
  match rows with
  | [] => Ok (kept, false)
  | j :: rows =>
      let size := json_size (with_metadata meta (message_of j)) in
      if bool_decide (length kept = limit) || (MAX_PAGE_BYTES <? used + size) then
        match kept with
        | [] => Err (Conflict "Message exceeds the bounded mailbox response; no message was read")
        | _ => Ok (kept, true)
        end
      else fill limit meta rows (kept ++ [j]) (used + size)
  end.

(** [_page]: the rows of the page, in order, and whether there are more. *)
Definition page (P : joined → bool) (limit : Z) (meta : option (string * string)) (db : mailbox)
    : res (list joined * bool) :=
  fill (Z.to_nat limit) meta
    (take (Z.to_nat (limit + 1)) (select_ordered P by_seq (join_table db))) [] 8192.

Record listing := Listing {
  l_messages : list (list (string * pyval));
  l_more : bool;
  l_next : option Z;
}.

Definition last_seq (rows : list joined) : option Z := (λ j, m_seq (j_mail j)) <$> last rows.

Definition list_messages (target : string) (source : option string) (pairs : list string)
    (after limit : Z) (unread_only : bool) (db : mailbox) : res listing :=
  _ ← check_scope target source pairs;
  _ ← check_cursor after;
  _ ← check_limit limit;
  '(rows, more) ← page (λ j, in_scope target source pairs j && (after <? m_seq (j_mail j))
                             && (negb unread_only || unread j)) limit None db;
  Ok {| l_messages := message_of <$> rows; l_more := more;
        l_next := if more : bool then last_seq rows else None |}.

(** ** Reading *)

Record read_result := ReadResult {
  r_read_id : string;
  r_snapshot : Z;
  r_messages : list (list (string * pyval));
  r_next : option Z;
  r_more : bool;
  r_unavailable : Z;
  r_replayed : bool;
}.

(** [SELECT COALESCE(MAX(x),0)] *)
Definition max_seq (l : list mail) : Z := foldr Z.max 0 (m_seq <$> l).

(** The receipt of the request: found, or written with the current snapshot. *)
Definition open_batch (now fresh target source reader request : string) (after limit : Z)
    (db : mailbox) : res (mailbox * batch) :=
  match select_where (λ b, String.eqb (b_target b) target && String.eqb (b_request b) request)
          (batches db) with
  | [] =>
      _ ← raise_if (negb (after =? 0)) (Conflict "A mailbox read must start at its first page");
      let high := max_seq (select_where (λ m, String.eqb (m_target m) target
                                              && String.eqb (m_source m) source) (mails db)) in
      let read_id := "mailread_" +:+ fresh in
      _ ← raise_if (bool_decide (is_Some (batches db !! read_id)))
            (IntegrityError "UNIQUE constraint failed: chat_mailbox_reads.id");
      let b := {| b_id := read_id; b_target := target; b_source := source;
                  b_reader_run := reader; b_request := request; b_snapshot := high;
                  b_limit := limit; b_created_at := now |} in
      Ok (db {{ batches := <[read_id := b]> (batches db) }}, b)
  | [b] => Ok (db, b)
  | _ => Err (Conflict "Read request matches multiple historical snapshots")
  end.

(** [UPDATE ... SET read_id=?,read_at=? WHERE message_id=? AND read_at IS NULL],
    for each id of a page. *)
Definition mark_read (read_id now : string) (ids : list string) (t : gmap string mail)
    : gmap string mail :=
  foldl (λ t id, update_row id (λ m, bool_decide (m_read_at m = None))
           (λ m, m {{ m_read_id := Some read_id; m_read_at := Some now }}) t) t ids.

(** The page of the receipt at [after]: found, or read now. *)
Definition take_page (now : string) (b : batch) (P : joined → bool) (after limit : Z)
    (db : mailbox) : res (mailbox * (read_page * bool)) :=
  match pages db !! (b_id b, after) with
  | Some p => Ok (db, (p, true))
  | None =>
      _ ← raise_if (negb (after =? 0) &&
                    negb (existsb (λ kp, String.eqb kp.1.1 (b_id b) && (p_end kp.2 =? after)
                                         && p_more kp.2) (map_to_list (pages db))))
            (Conflict "Cursor does not belong to this read snapshot");
      '(rows, more) ← page (λ j, P j && unread j && (after <? m_seq (j_mail j))
                                 && (m_seq (j_mail j) <=? b_snapshot b))
                        limit (Some (b_id b, now)) db;
      let ids := (λ j, m_id (j_mail j)) <$> rows in
      let p := {| p_end := default after (last_seq rows); p_more := more; p_ids := ids |} in
      Ok (db {{ pages := <[(b_id b, after) := p]> (pages db);
                mails := mark_read (b_id b) now ids (mails db) }}, (p, false))
  end.

(** The messages of a stored page that are still available. *)
Definition page_messages (p : read_page) (P : joined → bool) (limit : Z) (db : mailbox)
    : res (list joined * bool) :=
  match p_ids p with
  | [] => Ok ([], false)
  | ids => page (λ j, P j && str_in (m_id (j_mail j)) ids) limit None db
  end.

Definition read_sender (now fresh target source reader request : string) (pairs : list string)
    (after limit : Z) (db : mailbox) : res (mailbox * read_result) :=
  _ ← identifier source;
  _ ← identifier reader;
  _ ← identifier request;
  _ ← check_cursor after;
  _ ← check_limit limit;
  _ ← check_scope target (Some source) pairs;
  let P := in_scope target (Some source) pairs in
  '(db1, b) ← open_batch now fresh target source reader request after limit db;
  _ ← raise_if (negb (String.eqb (b_source b) source) || negb (b_limit b =? limit))
        (Conflict "Read request was already used with different parameters");
  '(db2, (p, replayed)) ← take_page now b P after limit db1;
  '(rows, overflow) ← page_messages p P limit db2;
  _ ← raise_if overflow
        (Conflict "Stored mailbox read page exceeds the bounded response; retry was not truncated");
  Ok (db2, {|
    r_read_id := b_id b; r_snapshot := b_snapshot b;
    r_messages := message_of <$> rows;
    r_next := if p_more p then Some (p_end p) else None;
    r_more := p_more p;
    r_unavailable := Z.of_nat (length (p_ids p)) - Z.of_nat (length rows);
    r_replayed := replayed |}).

(** ** Senders *)

Record sender := Sender {
  s_source : string;
  s_count : Z;
  s_unread : Z;
  s_latest_seq : Z;
  s_latest_created : string;
}.

Record sender_page := SenderPage {
  sp_senders : list sender;
  sp_more : bool;
  sp_next : option string;
}.

(** [DISTINCT f ... ORDER BY f] *)
Definition distinct_sorted (l : list string) : list string :=
  merge_sort String.le (remove_dups l).

Definition max_string (l : list string) : string :=
  foldr (λ a b, if decide (String.le a b) then b else a) "" l.

(** One group of the [GROUP BY]. *)
Definition sender_of (rows : list joined) (source : string) : sender :=
  let mine := filter (λ j, m_source (j_mail j) = source) rows in {|
  s_source := source;
  s_count := Z.of_nat (length mine);
  s_unread := Z.of_nat (length (filter (λ j, unread j = true) mine));
  s_latest_seq := max_seq (j_mail <$> mine);
  s_latest_created := max_string ((λ j, e_created_at (j_env j)) <$> mine) |}.

Definition list_senders (target : string) (pairs : list string) (after : string) (limit : Z)
    (unread_only : bool) (db : mailbox) : res sender_page :=
  _ ← check_scope target None pairs;
  _ ← (if String.eqb after "" then Ok tt else identifier after);
  _ ← check_limit limit;
  let rows := select_where (λ j, in_scope target None pairs j && (negb unread_only || unread j)
    && negb (bool_decide (String.le (m_source (j_mail j)) after))) (join_table db) in
  let groups := sender_of rows <$>
    take (Z.to_nat (limit + 1)) (distinct_sorted ((λ j, m_source (j_mail j)) <$> rows)) in
  let more := (Z.to_nat limit <? length groups)%nat in
  let selected := take (Z.to_nat limit) groups in
  Ok {| sp_senders := selected; sp_more := more;
        sp_next := if more then s_source <$> last selected else None |}.

(** ** Exclusion and cancellation *)

Definition exclude (now reason : string) (m : mail) : mail :=
  m {{ m_excluded_at := Some now; m_excluded_reason := Some reason }}.

Definition not_excluded (m : mail) : bool := bool_decide (m_excluded_at m = None).

Definition exclude_message (now id target reason : string) (db : mailbox)
    : res (mailbox * bool) :=
  _ ← raise_if (negb (str_in reason ["cancelled"; "deleted"; "revoked"]))
        (ValueError "Invalid mailbox exclusion reason");
  _ ← identifier id;
  _ ← identifier target;
  let P := λ m, String.eqb (m_target m) target && not_excluded m in
  Ok (db {{ mails := update_row id P (exclude now reason) (mails db) }},
      row_matches id P (mails db)).

Definition cancel_message (now id : string) (db : mailbox) : res (mailbox * bool) :=
  _ ← identifier id;
  match join_table db !! id with
  | None => Ok (db, false)
  | Some j =>
      let m := j_mail j in
      let e := j_env j in
      if String.eqb (e_status e) "cancelled" && bool_decide (m_excluded_reason m = Some "cancelled")
      then Ok (db, false)
      else
        _ ← raise_if (negb (String.eqb (e_status e) "stored") || negb (String.eqb (e_mode e) "mailbox")
                      || negb (not_excluded m) || bool_decide (m_read_at m ≠ None))
              (Conflict "Message is no longer unread and cancellable");
        Ok (db {{ mails := update_row id (λ _, true) (exclude now "cancelled") (mails db);
                  envelopes := update_row id (λ _, true) (λ e, e {{ e_status := "cancelled" }})
                                 (envelopes db) }}, true)
  end.

Definition exclude_pair (now pair : string) (db : mailbox) : res (mailbox * Z) :=
  _ ← check_pairs [pair];
  let P := λ m, String.eqb (m_pair m) pair && not_excluded m in
  Ok (db {{ mails := update_where P (exclude now "revoked") (mails db) }},
      Z.of_nat (count_where P (mails db))).

Definition exclude_session (now session : string) (db : mailbox) : res (mailbox * Z) :=
  _ ← identifier session;
  let P := λ m, (String.eqb (m_source m) session || String.eqb (m_target m) session)
                && not_excluded m in
  Ok (db {{ mails := update_where P (exclude now "deleted") (mails db) }},
      Z.of_nat (count_where P (mails db))).

(** ** The outbox of read events *)

Definition pending_read_events (limit : Z) (db : mailbox)
    : res (list (list (string * pyval))) :=
  _ ← check_limit limit;
  '(rows, more) ← page (λ j, valid j && negb (unread j) && negb (m_published (j_mail j)))
                 limit None db;
  Ok (map message_of rows).

Definition mark_read_event_published (id : string) (db : mailbox) : res (mailbox * bool) :=
  _ ← identifier id;
  let P := λ m, bool_decide (m_read_at m ≠ None) && negb (m_published m) in
  Ok (db {{ mails := update_row id P (λ m, m {{ m_published := true }}) (mails db) }},
      row_matches id P (mails db)).

Definition unread_targets (db : mailbox) : list string :=
  distinct_sorted ((λ j, m_target (j_mail j)) <$>
    select_where (λ j, valid j && unread j) (join_table db)).

(** ** Wakes *)

Definition in_state (s : wake_state) (w : wake) : bool := bool_decide (w_state w = Some s).

(** What a recipient was already woken for, or told to ignore. *)
Definition cutoff (w : wake) : Z := Z.max (w_last_attempt w) (w_suppressed w).

(** The columns of an idle row. *)
Definition released (w : wake) : wake :=
  w {{ w_claim := None; w_through := 0; w_state := None; w_run := None }}.

Definition fresh_wake (target now : string) : wake := {|
  w_target := target; w_last_attempt := 0; w_suppressed := 0; w_claim := None;
  w_through := 0; w_state := None; w_run := None; w_updated_at := now |}.

Definition scope_mails (P : joined → bool) (db : mailbox) : list mail :=
  j_mail <$> select_where P (join_table db).

(** [ON CONFLICT(target_session_id) DO UPDATE] *)
Definition upsert_wake (target now : string) (f : wake → wake) (t : gmap string wake)
    : gmap string wake :=
  <[target := f (default (fresh_wake target now) (t !! target))]> t.

Definition claim_wake (now fresh target : string) (pairs : list string) (db : mailbox)
    : res (mailbox * option wake) :=
  _ ← check_scope target None pairs;
  let prior := wakes db !! target in
  if match prior with Some w => in_state WakeReserved w | None => false end then Ok (db, None)
  else
    let cut := match prior with Some w => cutoff w | None => 0 end in
    let through := max_seq (scope_mails (λ j, in_scope target None pairs j && unread j
                                              && (cut <? m_seq (j_mail j))) db) in
    if through =? 0 then Ok (db, None)
    else
      let claim := "mailwake_" +:+ fresh in
      _ ← raise_if (other_row target (λ w, bool_decide (w_claim w = Some claim)) (wakes db))
            (IntegrityError "UNIQUE constraint failed: chat_mailbox_wakes.claim_id");
      let t := upsert_wake target now
        (λ w, w {{ w_claim := Some claim; w_through := through; w_state := Some WakeReserved;
                   w_run := None; w_updated_at := now }}) (wakes db) in
      Ok (db {{ wakes := t }}, t !! target).

Definition holds_claim (claim : string) (w : wake) : bool :=
  bool_decide (w_claim w = Some claim) && in_state WakeReserved w.

Definition admit_wake (now target claim run : string) (pairs : list string) (db : mailbox)
    : res (mailbox * bool) :=
  _ ← check_scope target None pairs;
  _ ← identifier claim;
  _ ← identifier run;
  match wakes db !! target with
  | None => Ok (db, false)
  | Some w =>
      if negb (holds_claim claim w) then Ok (db, false)
      else match scope_mails (λ j, in_scope target None pairs j && unread j
                                   && (cutoff w <? m_seq (j_mail j))
                                   && (m_seq (j_mail j) <=? w_through w)) db with
           | [] => Ok (db, false)
           | _ =>
               Ok (db {{ wakes := update_row target (holds_claim claim)
                     (λ w, w {{ w_state := Some WakeAdmitted; w_run := Some run;
                                w_last_attempt := Z.max (w_last_attempt w) (w_through w);
                                w_updated_at := now }}) (wakes db) }},
                   row_matches target (holds_claim claim) (wakes db))
           end
  end.

Definition release_wake (target claim : string) (db : mailbox) : res (mailbox * bool) :=
  _ ← identifier target;
  _ ← identifier claim;
  Ok (db {{ wakes := update_row target (holds_claim claim) released (wakes db) }},
      row_matches target (holds_claim claim) (wakes db)).

Definition suppress_wake (now target : string) (db : mailbox) : res (mailbox * Z) :=
  _ ← identifier target;
  let through := max_seq (scope_mails (λ j, valid j && String.eqb (m_target (j_mail j)) target
                                            && unread j) db) in
  let t := upsert_wake target now
    (λ w, w {{ w_suppressed := Z.max (w_suppressed w) through; w_updated_at := now }})
    (wakes db) in
  let t := update_row target (in_state WakeReserved) released t in
  Ok (db {{ wakes := t }}, from_option w_suppressed 0 (t !! target)).

Definition recover_wakes (db : mailbox) : mailbox * Z :=
  (db {{ wakes := update_where (in_state WakeReserved) released (wakes db) }},
   Z.of_nat (count_where (in_state WakeReserved) (wakes db))).

(** ** The mailbox as a transition system *)

(** A call, or a step of the environment: the rest of the server rewrites
    envelopes, which it never deletes, and sequence numbers may be skipped. *)
Inductive mop :=
| OpStore (now id : string) (reply : option string)
| OpRead (now fresh target source reader request : string) (pairs : list string) (after limit : Z)
| OpExclude (now id target reason : string)
| OpCancel (now id : string)
| OpExcludePair (now pair : string)
| OpExcludeSession (now session : string)
| OpPublished (id : string)
| OpClaim (now fresh target : string) (pairs : list string)
| OpAdmit (now target claim run : string) (pairs : list string)
| OpRelease (target claim : string)
| OpSuppress (now target : string)
| OpRecover
| OpEnvelopes (e : gmap string envelope) (skip : nat).

Definition mcommit {A} (db : mailbox) (r : res (mailbox * A)) : mailbox :=
  match r with Ok (db', _) => db' | Err _ => db end.

Definition mapply (o : mop) (db : mailbox) : mailbox :=
  match o with
  | OpStore now id reply => mcommit db (store_message now id reply db)
  | OpRead now fresh target source reader request pairs after limit =>
      mcommit db (read_sender now fresh target source reader request pairs after limit db)
  | OpExclude now id target reason => mcommit db (exclude_message now id target reason db)
  | OpCancel now id => mcommit db (cancel_message now id db)
  | OpExcludePair now p => mcommit db (exclude_pair now p db)
  | OpExcludeSession now session => mcommit db (exclude_session now session db)
  | OpPublished id => mcommit db (mark_read_event_published id db)
  | OpClaim now fresh target pairs => mcommit db (claim_wake now fresh target pairs db)
  | OpAdmit now target claim run pairs => mcommit db (admit_wake now target claim run pairs db)
  | OpRelease target claim => mcommit db (release_wake target claim db)
  | OpSuppress now target => mcommit db (suppress_wake now target db)
  | OpRecover => (recover_wakes db).1
  | OpEnvelopes e skip =>
      if decide (dom (envelopes db) ⊆ dom e)
      then db {{ envelopes := e; seq_floor := seq_floor db + Z.of_nat skip }} else db
  end.

Definition mstep (o : mop) (db db' : mailbox) : Prop := db' = mapply o db.
Abbreviation mreachable := (reachable empty_mailbox mstep).
