(* ===== verification/MailboxReads.v ===== *)
(** * What the mailbox promises its readers

    The invariant of the mailbox tables - every page belongs to a receipt,
    every read message to exactly one page - and its consequences for
    [Mailbox]: a message is delivered by one read request, a retry replays its
    page, pages are bounded and complete, and cancellation and reading exclude
    each other. *)
From S2P Require Import Prelude.
From S2P Require Import PyValues.
From S2P Require Import Mailbox.
Open Scope string_scope.
Open Scope Z_scope.
Open Scope list_scope.

Implicit Types db : mailbox.

(** ** Pages *)

Definition sizes (meta : option (string * string)) (rows : list joined) : Z :=
  foldr (λ j n, json_size (with_metadata meta (message_of j)) + n) 0 rows.

Lemma sizes_app meta l k : sizes meta (l ++ k) = sizes meta l + sizes meta k.
Proof. unfold sizes. induction l as [|j l IH]; cbn [app foldr]; lia. Qed.

(** What the loop of [_page] keeps of the rows it is given. *)
Lemma fill_spec limit meta rows kept used kept' more :
  fill limit meta rows kept used = Ok (kept', more) →
  (length kept ≤ limit)%nat → used ≤ MAX_PAGE_BYTES →
  ∃ taken rest, rows = taken ++ rest ∧ kept' = kept ++ taken ∧
    (length kept' ≤ limit)%nat ∧ used + sizes meta taken ≤ MAX_PAGE_BYTES ∧
    if more : bool then kept' ≠ [] ∧ rest ≠ [] else rest = [].
Proof.
  revert kept used. induction rows as [|j rows IH]; intros kept used; cbn [fill].
  - intros [= <- <-] Hk Hu. exists [], []. rewrite !app_nil_r. unfold sizes; cbn. split_and!; [done..|lia|done].
  - destruct (_ || _) eqn:E.
    + destruct kept as [|k kept]; [done|]. intros [= <- <-] Hk Hu.
      exists [], (j :: rows). rewrite app_nil_r. unfold sizes; cbn. split_and!; [done..|lia|done|done].
    + apply orb_false_iff in E as [El%bool_decide_eq_false Es%Z.ltb_ge].
      intros H Hk Hu. apply IH in H as (taken & rest & -> & -> & Hl & Hs & Hm).
      * exists (j :: taken), rest. cbn. rewrite <-!app_assoc in *. cbn in *.
        split_and!; [done..| |done]. unfold sizes in *. lia.
      * rewrite length_app. cbn. lia.
      * done.
Qed.

(** A page is a prefix of the rows that satisfy [P], in order, within the
    bounds, and it is everything unless it says there is more. *)
Lemma page_spec P limit meta db rows more :
  page P limit meta db = Ok (rows, more) → 0 ≤ limit →
  ∃ rest, select_ordered P by_seq (join_table db) = rows ++ rest ∧
    Z.of_nat (length rows) ≤ limit ∧ 8192 + sizes meta rows ≤ MAX_PAGE_BYTES ∧
    if more : bool then rows ≠ [] ∧ rest ≠ [] else rest = [].
Proof.
  unfold page. intros H Hl. apply fill_spec in H as (taken & rest & Ht & -> & Hlen & Hs & Hm);
    [|cbn; lia|done]. cbn in Hlen. cbn [app].
  set (full := select_ordered P by_seq (join_table db)) in *.
  exists (rest ++ drop (Z.to_nat (limit + 1)) full). rewrite app_assoc, <-Ht, take_drop.
  split_and!; [done|lia|done|]. destruct more.
  - split; [apply Hm|]. intros [? _]%app_nil. by apply Hm.
  - subst rest. rewrite app_nil_r in Ht. apply drop_ge.
    assert (length (take (Z.to_nat (limit + 1)) full) = length taken) as E by (by rewrite Ht).
    rewrite length_take in E. lia.
Qed.

(** ** The join *)

Lemma join_lookup db id j :
  join_table db !! id = Some j ↔
  mails db !! id = Some (j_mail j) ∧ envelopes db !! id = Some (j_env j).
Proof.
  unfold join_table. rewrite map_lookup_zip_with_Some. split.
  - by intros (m & e & -> & Hm & He).
  - intros [Hm He]. exists (j_mail j), (j_env j). by destruct j.
Qed.

Lemma elem_of_ordered P db j :
  j ∈ select_ordered P by_seq (join_table db) ↔
  P j = true ∧ ∃ id, mails db !! id = Some (j_mail j) ∧ envelopes db !! id = Some (j_env j).
Proof.
  destruct (select_ordered_spec P by_seq (join_table db)) as [-> _].
  apply and_iff_compat_l. by setoid_rewrite join_lookup.
Qed.

(** ** The invariant *)

(** What is fixed when a message is stored. *)
Definition m_ident (m : mail) :=
  (m_id m, m_seq m, m_source m, m_target m, m_pair m, m_stored_at m, m_reply_to m).

Record mail_wf (db : mailbox) (id : string) (m : mail) : Prop := {
  mw_id : m_id m = id;
  mw_seq : 0 < m_seq m ≤ seq_floor db;
  mw_read : is_Some (m_read_id m) ↔ is_Some (m_read_at m);
  mw_env : is_Some (envelopes db !! id);
  mw_page : ∀ rid, m_read_id m = Some rid →
    ∃ a p, pages db !! (rid, a) = Some p ∧ id ∈ p_ids p;
}.

Record page_wf (db : mailbox) (rid : string) (a : Z) (p : read_page) : Prop := {
  pw_batch : is_Some (batches db !! rid);
  pw_ids : NoDup (p_ids p);
  pw_end : a ≤ p_end p;
  pw_mails : ∀ id, id ∈ p_ids p → ∃ m b, mails db !! id = Some m ∧ batches db !! rid = Some b ∧
    m_read_id m = Some rid ∧ a < m_seq m ≤ p_end p ∧
    m_target m = b_target b ∧ m_source m = b_source b;
}.

Record mwf (db : mailbox) : Prop := {
  wf_mails : ∀ id m, mails db !! id = Some m → mail_wf db id m;
  wf_seqs : ∀ i j m n, mails db !! i = Some m → mails db !! j = Some n →
    m_seq m = m_seq n → i = j;
  wf_batches : ∀ rid b, batches db !! rid = Some b → b_id b = rid;
  wf_requests : ∀ i j b c, batches db !! i = Some b → batches db !! j = Some c →
    b_target b = b_target c → b_request b = b_request c → i = j;
  wf_pages : ∀ rid a p, pages db !! (rid, a) = Some p → page_wf db rid a p;
  wf_once : ∀ k l p q id, pages db !! k = Some p → pages db !! l = Some q →
    id ∈ p_ids p → id ∈ p_ids q → k = l;
  wf_floor : 0 ≤ seq_floor db;
}.

(** How a message evolves: reading and exclusion are final. *)
Record mail_le (m m' : mail) : Prop := {
  ml_ident : m_ident m' = m_ident m;
  ml_read : is_Some (m_read_at m) → m_read_id m' = m_read_id m ∧ m_read_at m' = m_read_at m;
  ml_excluded : is_Some (m_excluded_at m) →
    m_excluded_at m' = m_excluded_at m ∧ m_excluded_reason m' = m_excluded_reason m;
  ml_published : m_published m = true → m_published m' = true;
}.
#[export] Instance mail_le_preorder : PreOrder mail_le.
Proof.
  split; [by split|]. intros a b c [] []. split; [congruence|..|auto].
  - intros Ha. destruct (ml_read0 Ha) as [H1 H2]. rewrite <-H1, <-H2. apply ml_read1. by rewrite H2.
  - intros Ha. destruct (ml_excluded0 Ha) as [H1 H2]. rewrite <-H1, <-H2.
    apply ml_excluded1. by rewrite H1.
Qed.

(** How the tables evolve: nothing is deleted, receipts and pages are final. *)
Record db_le (db db' : mailbox) : Prop := {
  dl_mails : ∀ id m, mails db !! id = Some m → ∃ m', mails db' !! id = Some m' ∧ mail_le m m';
  dl_batches : batches db ⊆ batches db';
  dl_pages : pages db ⊆ pages db';
  dl_floor : seq_floor db ≤ seq_floor db';
}.
#[export] Instance db_le_preorder : PreOrder db_le.
Proof.
  split.
  - intros db. split; [|done..|lia]. intros id m Hm. by exists m.
  - intros a b c [] []. split; [|by etrans..|lia].
    intros id m Hm. destruct (dl_mails0 _ _ Hm) as (m1 & Hm1 & ?).
    destruct (dl_mails1 _ _ Hm1) as (m2 & Hm2 & ?). exists m2. split; [done|by etrans].
Qed.

Definition msound (db db' : mailbox) : Prop := mwf db' ∧ db_le db db'.

Lemma msound_refl db : mwf db → msound db db.
Proof. by split. Qed.

Lemma msound_trans a b c : msound a b → (mwf b → msound b c) → msound a c.
Proof. intros [Hb Hab] Hc. destruct (Hc Hb) as [? ?]. split; [done|by etrans]. Qed.

(** ** Updates that leave reading alone *)

(** The rest of a row, which only exclusion and publication change. *)
Definition same_read (m m' : mail) : Prop :=
  mail_le m m' ∧ m_read_id m' = m_read_id m ∧ m_read_at m' = m_read_at m.

Lemma ident_fields m m' :
  m_ident m' = m_ident m →
  m_id m' = m_id m ∧ m_seq m' = m_seq m ∧ m_source m' = m_source m ∧ m_target m' = m_target m ∧
  m_pair m' = m_pair m.
Proof. unfold m_ident. intros [=]. done. Qed.

Lemma same_read_fields m m' :
  same_read m m' →
  (m_id m' = m_id m ∧ m_seq m' = m_seq m ∧ m_source m' = m_source m ∧ m_target m' = m_target m ∧
   m_pair m' = m_pair m) ∧ m_read_id m' = m_read_id m ∧ m_read_at m' = m_read_at m.
Proof. intros [Hle ?]. split; [|done]. by apply ident_fields, ml_ident. Qed.

Lemma mails_map_sound db t :
  mwf db →
  (∀ id, t !! id = None ↔ mails db !! id = None) →
  (∀ id m m', mails db !! id = Some m → t !! id = Some m' → same_read m m') →
  msound db (db {{ mails := t }}).
Proof.
  intros Hwf Hdom Hrel.
  assert (∀ id m', t !! id = Some m' → ∃ m, mails db !! id = Some m ∧ same_read m m') as Hback.
  { intros id m' Hm'. destruct (mails db !! id) as [m|] eqn:Hm; [eauto|].
    apply Hdom in Hm. congruence. }
  assert (∀ id m, mails db !! id = Some m → ∃ m', t !! id = Some m' ∧ same_read m m') as Hfwd.
  { intros id m Hm. destruct (t !! id) as [m'|] eqn:Hm'; [eauto|]. apply Hdom in Hm'. congruence. }
  destruct db as [es ms fl bs ps ws], Hwf; cbn in *. split.
  - split; cbn; try done.
    + intros id m' Hm'. destruct (Hback _ _ Hm') as (m & Hm & Hs).
      apply same_read_fields in Hs as ((? & ? & _) & Hr & Ha).
      destruct (wf_mails0 _ _ Hm). split; cbn in *; try done; first [lia | by rewrite Hr, Ha | congruence | rewrite Hr; done].
    + intros i j m n Hm Hn E.
      destruct (Hback _ _ Hm) as (m0 & Hm0 & ((_ & ? & _) & _)%same_read_fields).
      destruct (Hback _ _ Hn) as (n0 & Hn0 & ((_ & ? & _) & _)%same_read_fields).
      eapply wf_seqs0; [done..|congruence].
    + intros rid a p Hp. destruct (wf_pages0 _ _ _ Hp) as [? ? ? Hmails]. split; cbn in *; try done.
      intros id Hin. destruct (Hmails _ Hin) as (m & b & Hm & Hb & Hr & Hs & Ht & Hso).
      destruct (Hfwd _ _ Hm) as (m' & Hm' & ((_ & Hs' & Hso' & Ht' & _) & Hr' & _)%same_read_fields).
      exists m', b. rewrite Hr', Hs', Hso', Ht'. done.
  - split; cbn; [|done..].
    intros id m Hm. destruct (Hfwd _ _ Hm) as (m' & Hm' & Hs & _). eauto.
Qed.

Lemma update_row_mails_sound db id P f :
  mwf db → (∀ m, P m = true → same_read m (f m)) →
  msound db (db {{ mails := update_row id P f (mails db) }}).
Proof.
  intros Hwf Hf. apply mails_map_sound; [done|intros j; apply update_row_None|].
  intros j m m' Hm. rewrite update_row_lookup, Hm. case_decide; cbn; [|by intros [= <-]].
  destruct (P m) eqn:HP; intros [= <-]; [by apply Hf|done].
Qed.

Lemma update_where_mails_sound db P f :
  mwf db → (∀ m, P m = true → same_read m (f m)) →
  msound db (db {{ mails := update_where P f (mails db) }}).
Proof.
  intros Hwf Hf. apply mails_map_sound; [done| |].
  - intros j. rewrite update_where_lookup. apply fmap_None.
  - intros j m m' Hm. rewrite update_where_lookup, Hm. cbn. intros [= <-].
    destruct (P m) eqn:HP; [by apply Hf|done].
Qed.

(** Envelopes and wakes are outside the invariant. *)
Lemma env_sound db e skip :
  mwf db → dom (envelopes db) ⊆ dom e →
  msound db (db {{ envelopes := e; seq_floor := seq_floor db + Z.of_nat skip }}).
Proof.
  intros [] Hsub. destruct db as [es ms fl bs ps ws]; cbn in *. split.
  - split; cbn; try done; [|by intros; destruct (wf_pages0 _ _ _ H)|lia].
    intros id m Hm. destruct (wf_mails0 _ _ Hm). split; cbn in *; try done; [lia|].
    apply elem_of_dom, Hsub. by apply elem_of_dom.
  - split; cbn; [|done..|lia]. intros id m Hm. by exists m.
Qed.

Lemma wakes_sound db w : mwf db → msound db (db {{ wakes := w }}).
Proof.
  intros []. destruct db as [es ms fl bs ps ws]; cbn in *. split.
  - split; cbn; try done; intros; [by destruct (wf_mails0 _ _ H)|by destruct (wf_pages0 _ _ _ H)].
  - split; cbn; [|done..]. intros id m Hm. by exists m.
Qed.

(** ** Each operation keeps the invariant *)

(** Turning a successful run into what its guards established. *)
Ltac mailbox_inv H :=
  repeat match type of H with
  | (_ ≫= _) = Ok _ => let a := fresh "u" in let E := fresh "Hg" in
      apply res_bind_Ok in H; destruct H as (a & E & H)
  end.

Lemma insert_mail_sound db id e now :
  mwf db → envelopes db !! id = Some e → msound db (insert_mail id e now db).
Proof.
  intros Hwf He. unfold insert_mail. destruct (mails db !! id) eqn:Hid; [by apply msound_refl|].
  destruct db as [es ms fl bs ps ws], Hwf; cbn in *. split.
  - split; cbn; try done.
    + intros j m. rewrite lookup_insert. case_decide as Hj.
      * intros [= <-]. subst j. split; cbn; try done; lia.
      * intros Hm. destruct (wf_mails0 _ _ Hm). split; cbn in *; try done; lia.
    + intros i j m n. rewrite !lookup_insert. repeat case_decide; subst; intros Hm Hn E;
        simplify_eq; cbn in *; [done| | |eauto].
      * destruct (wf_mails0 _ _ Hn) as [_ [_ ?] _ _ _]. cbn in *. lia.
      * destruct (wf_mails0 _ _ Hm) as [_ [_ ?] _ _ _]. cbn in *. lia.
    + intros rid a p Hp. destruct (wf_pages0 _ _ _ Hp) as [? ? ? Hmails]. split; cbn in *; try done.
      intros j Hin. destruct (Hmails _ Hin) as (m & b & Hm & ?). exists m, b. split; [|done].
      rewrite lookup_insert_ne; congruence.
    + lia.
  - split; cbn; [|done..|lia]. intros j m Hm. exists m. split; [|done].
    rewrite lookup_insert_ne; congruence.
Qed.

Lemma store_message_inv now id reply db db' d :
  store_message now id reply db = Ok (db', d) →
  ∃ e m, envelopes db !! id = Some e ∧ db' = insert_mail id e now db ∧
    mails db' !! id = Some m ∧ storable e = true ∧ d = message_of (Joined m e) ∧
    m_source m = e_source e ∧ m_target m = e_target e ∧ m_pair m = e_pair e ∧
    projected_size (Joined m e) + 8192 ≤ MAX_PAGE_BYTES.
Proof.
  unfold store_message. intros H. mailbox_inv H.
  destruct (envelopes db !! id) as [e|] eqn:He; [|done]. mailbox_inv H.
  destruct (mails (insert_mail id e now db) !! id) as [m|] eqn:Hm; [|done].
  mailbox_inv H. injection H as <- <-. exists e, m.
  repeat match goal with E : raise_if _ _ = Ok _ |- _ => apply raise_if_Ok in E end.
  match goal with E : negb (_ && _ && _ && _) = false |- _ =>
    apply negb_false_iff in E; rewrite !andb_true_iff, !String.eqb_eq in E;
    destruct E as [[[? ?] ?] _] end.
  match goal with E : negb (storable _) = false |- _ => apply negb_false_iff in E end.
  match goal with E : (_ <? _) = false |- _ => apply Z.ltb_ge in E end.
  split_and!; done.
Qed.

Lemma open_batch_inv now fresh target source reader request after limit db db' b :
  mwf db → open_batch now fresh target source reader request after limit db = Ok (db', b) →
  batches db' !! b_id b = Some b ∧ b_target b = target ∧ b_request b = request ∧
  msound db db' ∧ mails db' = mails db ∧ pages db' = pages db ∧ envelopes db' = envelopes db ∧
  ((db' = db ∧ batches db !! b_id b = Some b) ∨
   (after = 0 ∧ batches db !! b_id b = None ∧ b_source b = source ∧
    ∀ i c, batches db !! i = Some c → ¬ (b_target c = target ∧ b_request c = request))).
Proof.
  intros Hwf. unfold open_batch.
  set (P := λ b, String.eqb (b_target b) target && String.eqb (b_request b) request).
  assert (∀ c, P c = true ↔ b_target c = target ∧ b_request c = request) as HP.
  { intros c. unfold P. by rewrite andb_true_iff, !String.eqb_eq. }
  pose proof (elem_of_select_where P (batches db)) as Hin.
  destruct (select_where P (batches db)) as [|c [|]] eqn:Hsel; [| |done].
  - intros H. mailbox_inv H. injection H as <- <-. cbn.
    match goal with E : raise_if (negb _) _ = _ |- _ =>
      apply raise_if_Ok, negb_false_iff, Z.eqb_eq in E end.
    match goal with E : raise_if (bool_decide _) _ = _ |- _ =>
      apply raise_if_Ok, bool_decide_eq_false in E; rename E into Hfresh end.
    apply eq_None_not_Some in Hfresh.
    assert (∀ i c, batches db !! i = Some c → ¬ (b_target c = target ∧ b_request c = request)) as Hnone.
    { intros i c Hc HP'. apply HP in HP'. eapply not_elem_of_nil, Hin. eauto. }
    set (rid := ("mailread_" +:+ fresh)%string) in *.
    match goal with |- context [<[rid := ?c]> _] => set (b := c) end.
    rewrite lookup_insert_eq. split_and!; try done; [|by right].
    destruct db as [es ms fl bs ps ws], Hwf; cbn in *.
    assert (∀ i c, bs !! i = Some c → <[rid := b]> bs !! i = Some c) as Hkeep.
    { intros i c Hc. rewrite lookup_insert_ne; congruence. }
    split; [|split; cbn; [|by apply insert_subseteq|done..]].
    + split; cbn; try done.
      * intros id m Hm. by destruct (wf_mails0 _ _ Hm).
      * intros i c. rewrite lookup_insert. case_decide as Hi; [|by apply wf_batches0].
        intros [= <-]. by subst i.
      * intros i j c d. rewrite !lookup_insert. repeat case_decide; subst; intros Hc Hd Ht Hr;
          simplify_eq; [done|exfalso; by eapply (Hnone _ _ Hd)|exfalso; by eapply (Hnone _ _ Hc)|eauto].
      * intros i a p Hp. destruct (wf_pages0 _ _ _ Hp) as [Hb ? ? Hm]. split; cbn in *; try done.
        -- destruct Hb as [c Hc]. exists c. by apply Hkeep.
        -- intros id Hid. destruct (Hm _ Hid) as (m & c & Hmm & Hc & ?). eauto 10.
    + intros id m Hm. by exists m.
  - intros [= <- <-]. destruct (proj1 (Hin c)) as [[Ht Hr]%HP [rid Hc]]; [by left|].
    pose proof (wf_batches _ Hwf _ _ Hc) as <-.
    split_and!; try done; by left.
Qed.

Lemma mark_read_lookup rid now ids t id :
  mark_read rid now ids t !! id =
  (λ m, if bool_decide (id ∈ ids) && bool_decide (m_read_at m = None)
        then m {{ m_read_id := Some rid; m_read_at := Some now }} else m) <$> t !! id.
Proof.
  unfold mark_read. revert t. induction ids as [|i ids IH]; intros t; cbn [foldl].
  - rewrite bool_decide_false by apply not_elem_of_nil. cbn. by destruct (t !! id).
  - rewrite IH, update_row_lookup. destruct (decide (id = i)) as [->|Hi].
    + destruct (t !! i) as [m|]; cbn; [|done]. f_equal.
      rewrite (bool_decide_true (i ∈ i :: ids)) by (by left). cbn.
      destruct (bool_decide (m_read_at m = None)) eqn:E; [|by rewrite E, andb_false_r].
      destruct m; cbn. by rewrite andb_false_r.
    + rewrite (bool_decide_ext (id ∈ i :: ids) (id ∈ ids)); [done|].
      rewrite elem_of_cons. naive_solver.
Qed.

(** Messages of a selection are distinct, by id. *)
Lemma ordered_ids_NoDup db P :
  mwf db → NoDup ((λ j, m_id (j_mail j)) <$> select_ordered P by_seq (join_table db)).
Proof.
  intros Hwf.
  assert (∀ i x, (i, x) ∈ map_to_list (join_table db) →
    m_id (j_mail x) = i ∧ join_table db !! i = Some x) as Hrow.
  { intros i x Hx%elem_of_map_to_list. split; [|done]. apply join_lookup in Hx as [Hx _].
    apply (mw_id _ _ _ (wf_mails _ Hwf _ _ Hx)). }
  unfold select_ordered. rewrite merge_sort_Permutation. unfold select_where.
  apply NoDup_fmap_2_strong.
  - intros x y. rewrite !list_elem_of_filter, !list_elem_of_fmap.
    intros (_ & [i x'] & -> & [Hi Hx]%Hrow) (_ & [k y'] & -> & [Hk Hy]%Hrow) E.
    cbn in *. congruence.
  - apply NoDup_filter, NoDup_fmap_2_strong; [|apply NoDup_map_to_list].
    intros [i x] [k y] [Hi _]%Hrow [Hk _]%Hrow; cbn. intros ->. congruence.
Qed.

Lemma ordered_NoDup db P : mwf db → NoDup (select_ordered P by_seq (join_table db)).
Proof. intros Hwf. eapply NoDup_fmap_1. by apply ordered_ids_NoDup. Qed.

(** The rows of a page, as they stand in the table. *)
Lemma page_rows P limit meta db rows more :
  mwf db → page P limit meta db = Ok (rows, more) → 0 ≤ limit →
  Z.of_nat (length rows) ≤ limit ∧ NoDup ((λ j, m_id (j_mail j)) <$> rows) ∧
  (∀ j, j ∈ rows → P j = true ∧ mails db !! m_id (j_mail j) = Some (j_mail j) ∧
     envelopes db !! m_id (j_mail j) = Some (j_env j)) ∧
  (∀ z, last_seq rows = Some z → ∀ j, j ∈ rows → m_seq (j_mail j) ≤ z) ∧
  (last_seq rows = None → rows = []).
Proof.
  intros Hwf Hp Hl. apply page_spec in Hp as (rest & Hfull & Hlen & _ & _); [|done].
  assert (∀ j, j ∈ rows ++ rest → P j = true ∧ mails db !! m_id (j_mail j) = Some (j_mail j) ∧
     envelopes db !! m_id (j_mail j) = Some (j_env j)) as Hin.
  { intros j Hj. rewrite <-Hfull in Hj. apply elem_of_ordered in Hj as (HP & id & Hm & He).
    rewrite (mw_id _ _ _ (wf_mails _ Hwf _ _ Hm)). done. }
  assert (NoDup ((λ j, m_id (j_mail j)) <$> rows ++ rest)) as Hnd.
  { rewrite <-Hfull. by apply ordered_ids_NoDup. }
  pose proof (proj2 (select_ordered_spec P by_seq (join_table db))) as Hs. rewrite Hfull in Hs.
  apply StronglySorted_app_l in Hs.
  split_and!.
  - done.
  - rewrite fmap_app in Hnd. by apply NoDup_app in Hnd as [? _].
  - intros j Hj. apply Hin, elem_of_app. by left.
  - intros z Hz j Hj. unfold last_seq in Hz. apply fmap_Some_1 in Hz as (x & Hx & ->).
    apply last_Some in Hx as [l ->]. apply elem_of_app in Hj as [Hj|Hj%list_elem_of_singleton].
    + eapply (StronglySorted_app_le _ _ _ _ _ Hs) in Hj; [exact Hj|by left].
    + by subst.
  - unfold last_seq. intros Hn%fmap_None. by apply last_None.
Qed.

Lemma last_seq_elem rows z : last_seq rows = Some z → ∃ j, j ∈ rows ∧ m_seq (j_mail j) = z.
Proof.
  unfold last_seq. intros (x & Hx & ->)%fmap_Some_1. apply last_Some in Hx as [l ->].
  exists x. split; [|done]. apply elem_of_app. right. by left.
Qed.

(** A page that is not a replay reads the unread messages it returns. *)
Lemma take_page_inv now b P after limit db db' p replayed :
  mwf db → take_page now b P after limit db = Ok (db', (p, replayed)) → 0 ≤ limit →
  if replayed : bool then db' = db ∧ pages db !! (b_id b, after) = Some p
  else pages db !! (b_id b, after) = None ∧
    ∃ rows, page (λ j, P j && unread j && (after <? m_seq (j_mail j))
                      && (m_seq (j_mail j) <=? b_snapshot b)) limit (Some (b_id b, now)) db
              = Ok (rows, p_more p) ∧
      p_ids p = (λ j, m_id (j_mail j)) <$> rows ∧ p_end p = default after (last_seq rows) ∧
      after ≤ p_end p ∧
      (∀ j, j ∈ rows → P j = true ∧ m_read_at (j_mail j) = None ∧ after < m_seq (j_mail j) ≤ p_end p ∧
         m_seq (j_mail j) ≤ b_snapshot b ∧
         mails db !! m_id (j_mail j) = Some (j_mail j) ∧ envelopes db !! m_id (j_mail j) = Some (j_env j)) ∧
      db' = db {{ pages := <[(b_id b, after) := p]> (pages db);
                  mails := mark_read (b_id b) now (p_ids p) (mails db) }}.
Proof.
  intros Hwf H Hl. unfold take_page in H.
  destruct (pages db !! (b_id b, after)) as [p0|] eqn:Hp; [by injection H as <- <- <-|].
  mailbox_inv H. destruct u0 as [rows more]. injection H as <- <- <-. split; [done|].
  exists rows. cbn. rename Hg0 into Hpage.
  destruct (page_rows _ _ _ _ _ _ Hwf Hpage Hl) as (_ & _ & Hin & Hlast & _).
  assert (∀ j, j ∈ rows → P j = true ∧ m_read_at (j_mail j) = None ∧ after < m_seq (j_mail j) ∧
     m_seq (j_mail j) ≤ b_snapshot b ∧
     mails db !! m_id (j_mail j) = Some (j_mail j) ∧ envelopes db !! m_id (j_mail j) = Some (j_env j))
    as Hrows.
  { intros j Hj. destruct (Hin j Hj) as (HP & Hm & He). unfold unread in HP.
    rewrite !andb_true_iff, bool_decide_eq_true, Z.ltb_lt, Z.leb_le in HP. tauto. }
  split_and!; try done.
  - destruct (last_seq rows) as [z|] eqn:Hz; cbn; [|lia].
    apply last_seq_elem in Hz as (j & Hj & <-). destruct (Hrows j Hj) as (_ & _ & ? & _). lia.
  - intros j Hj. destruct (Hrows j Hj) as (? & ? & ? & ? & ? & ?). split_and!; try done.
    destruct (last_seq rows) as [z|] eqn:Hz; [by eapply Hlast|].
    destruct (page_rows _ _ _ _ _ _ Hwf Hpage Hl) as (_ & _ & _ & _ & Hnil).
    rewrite (Hnil Hz) in Hj. by apply not_elem_of_nil in Hj.
Qed.

Lemma take_page_sound now b P after limit db db' p replayed :
  mwf db → batches db !! b_id b = Some b → 0 ≤ limit →
  (∀ j, P j = true → m_target (j_mail j) = b_target b ∧ m_source (j_mail j) = b_source b) →
  take_page now b P after limit db = Ok (db', (p, replayed)) →
  msound db db' ∧ pages db' !! (b_id b, after) = Some p ∧ batches db' = batches db.
Proof.
  intros Hwf Hb Hl HP H. pose proof (take_page_inv _ _ _ _ _ _ _ _ _ Hwf H Hl) as Hinv.
  destruct replayed; [destruct Hinv as [-> ?]; by split; [apply msound_refl|]|].
  destruct Hinv as (Hnone & rows & Hpage & Hids & Hend & Hle & Hin & ->).
  assert (NoDup (p_ids p)) as Hnd.
  { rewrite Hids. by apply (page_rows _ _ _ _ _ _ Hwf Hpage Hl). }
  assert (∀ id, id ∈ p_ids p → ∃ m, mails db !! id = Some m ∧ m_read_at m = None ∧
    after < m_seq m ≤ p_end p ∧ m_target m = b_target b ∧ m_source m = b_source b) as Hnew.
  { rewrite Hids. intros id (j & -> & Hj)%list_elem_of_fmap.
    destruct (Hin j Hj) as (HPj & ? & ? & _ & ? & _). exists (j_mail j).
    destruct (HP j HPj). done. }
  clear Hin Hpage Hids Hend HP.
  (* A message of an older page has been read, so it is not in this one. *)
  assert (∀ k q id, pages db !! k = Some q → id ∈ p_ids q → id ∉ p_ids p) as Hold.
  { intros [rid a] q id Hq Hid Hid'. destruct (Hnew _ Hid') as (m & Hm & Hun & _).
    destruct (pw_mails _ _ _ _ (wf_pages _ Hwf _ _ _ Hq) _ Hid) as (m' & _ & Hm' & _ & Hr & _).
    simplify_eq. destruct (mw_read _ _ _ (wf_mails _ Hwf _ _ Hm)) as [Hra _].
    rewrite Hr, Hun in Hra. destruct (Hra (mk_is_Some _ _ eq_refl)). done. }
  destruct db as [es ms fl bs ps ws], Hwf; cbn in *.
  split; [|by rewrite lookup_insert_eq].
  assert (∀ k q, ps !! k = Some q → <[(b_id b, after) := p]> ps !! k = Some q) as Hkeep.
  { intros k q Hq. rewrite lookup_insert_ne; congruence. }
  assert (∀ id m, ms !! id = Some m → id ∉ p_ids p →
    mark_read (b_id b) now (p_ids p) ms !! id = Some m) as Hsame.
  { intros id m Hm Hid. rewrite mark_read_lookup, Hm, bool_decide_false by done. done. }
  assert (∀ id m, ms !! id = Some m → id ∈ p_ids p → m_read_at m = None ∧
    mark_read (b_id b) now (p_ids p) ms !! id =
      Some (m {{ m_read_id := Some (b_id b); m_read_at := Some now }})) as Hread.
  { intros id m Hm Hid. destruct (Hnew _ Hid) as (m' & Hm' & Hun & _). simplify_eq. split; [done|].
    rewrite mark_read_lookup, Hm. cbn. by rewrite (bool_decide_true (id ∈ p_ids p)), Hun by done. }
  split; [split; cbn|split; cbn; [|done|by apply insert_subseteq|done]].
  - intros id m'. destruct (ms !! id) as [m|] eqn:Hm; [|by rewrite mark_read_lookup, Hm].
    destruct (wf_mails0 _ _ Hm) as [? ? ? ? Hpg].
    destruct (decide (id ∈ p_ids p)) as [Hid|Hid].
    + destruct (Hread _ _ Hm Hid) as [_ ->]. intros [= <-]. split; cbn; try done.
      intros rid [= <-]. exists after, p. by rewrite lookup_insert_eq.
    + rewrite (Hsame _ _ Hm Hid). intros [= <-]. split; cbn in *; try done.
      intros rid Hr. destruct (Hpg _ Hr) as (a & q & Hq & ?). exists a, q. eauto.
  - intros i j m n. rewrite !mark_read_lookup. intros (m0 & Hm & ->)%fmap_Some_1 (n0 & Hn & ->)%fmap_Some_1 E.
    eapply (wf_seqs0 _ _ m0 n0); [done..|]. by repeat destruct (_ && _); destruct m0, n0.
  - done.
  - done.
  - intros rid a q. rewrite lookup_insert. case_decide as Hk.
    + intros [= <-]. injection Hk as <- <-. split; cbn; try done.
      intros id Hid. destruct (Hnew _ Hid) as (m & Hm & _ & ? & ? & ?).
      destruct (Hread _ _ Hm Hid) as [_ ->]. eexists _, b. split; [done|]. by destruct m.
    + intros Hq. destruct (wf_pages0 _ _ _ Hq) as [? ? ? Hms]. split; cbn in *; try done.
      intros id Hid. destruct (Hms _ Hid) as (m & c & Hm & ?). exists m, c.
      split; [|done]. apply Hsame; [done|]. by eapply Hold.
  - intros k l q q' id. rewrite !lookup_insert. repeat case_decide; subst; intros Hq Hq' Hi Hi';
      simplify_eq; [done|exfalso; by eapply Hold|exfalso; by eapply Hold|by eapply wf_once0].
  - done.
  - intros id m Hm. destruct (decide (id ∈ p_ids p)) as [Hid|Hid].
    + destruct (Hread _ _ Hm Hid) as [Hun ->]. eexists. split; [done|].
      destruct m; cbn in *; subst. split; cbn; try done.
    + exists m. by rewrite (Hsame _ _ Hm Hid).
Qed.

(** ** A successful read *)

(** The rows a caller with these routes may see. *)
Lemma in_scope_spec target source pairs j :
  source ≠ "" → in_scope target (Some source) pairs j = true ↔
  valid j = true ∧ m_target (j_mail j) = target ∧ str_in (m_pair (j_mail j)) pairs = true ∧
  m_source (j_mail j) = source.
Proof.
  intros Hs. unfold in_scope. rewrite (proj2 (String.eqb_neq source "") Hs).
  rewrite !andb_true_iff, !String.eqb_eq. cbn. rewrite String.eqb_eq. tauto.
Qed.

Lemma identifier_ok s u : identifier s = Ok u → s ≠ "".
Proof.
  unfold identifier. rewrite raise_if_Ok. intros H ->. done.
Qed.

Definition page_size (p : read_page) : Z := Z.of_nat (length (p_ids p)).

(** Everything a successful [read_sender] did. *)
Record read_run (now target source request : string) (pairs : list string) (after limit : Z)
    (db db' : mailbox) (r : read_result) (b : batch) (p : read_page) (rows : list joined) : Prop := {
  rr_limit : 1 ≤ limit ≤ MAX_PAGE_ITEMS;
  rr_source : source ≠ "";
  rr_batch : batches db' !! b_id b = Some b;
  rr_key : b_target b = target ∧ b_request b = request ∧ b_source b = source ∧ b_limit b = limit;
  rr_page : pages db' !! (b_id b, after) = Some p;
  rr_sound : msound db db';
  rr_replayed : r_replayed r = true → pages db !! (b_id b, after) = Some p ∧ db' = db;
  rr_fresh : r_replayed r = false → pages db !! (b_id b, after) = None;
  rr_rows : page_messages p (in_scope target (Some source) pairs) limit db' = Ok (rows, false);
  rr_result : r = {| r_read_id := b_id b; r_snapshot := b_snapshot b;
    r_messages := message_of <$> rows; r_next := if p_more p then Some (p_end p) else None;
    r_more := p_more p; r_unavailable := page_size p - Z.of_nat (length rows);
    r_replayed := r_replayed r |};
}.

Lemma read_sender_inv now fresh target source reader request pairs after limit db db' r :
  mwf db →
  read_sender now fresh target source reader request pairs after limit db = Ok (db', r) →
  ∃ b p rows, read_run now target source request pairs after limit db db' r b p rows.
Proof.
  intros Hwf H. unfold read_sender in H. mailbox_inv H.
  match goal with E : open_batch _ _ _ _ _ _ _ _ _ = Ok ?x |- _ =>
    destruct x as [db1 b]; rename E into Hopen end.
  mailbox_inv H.
  match goal with E : take_page _ _ _ _ _ _ = Ok ?x |- _ =>
    destruct x as [db2 [p replayed]]; rename E into Htake end.
  mailbox_inv H.
  match goal with E : page_messages _ _ _ _ = Ok ?x |- _ =>
    destruct x as [rows overflow]; rename E into Hrows end.
  mailbox_inv H. injection H as <- <-.
  match goal with E : raise_if overflow _ = _ |- _ => apply raise_if_Ok in E as -> end.
  match goal with E : raise_if (_ || _) _ = _ |- _ =>
    apply raise_if_Ok, orb_false_iff in E as [Es%negb_false_iff%String.eqb_eq El%negb_false_iff%Z.eqb_eq] end.
  match goal with E : check_limit _ = _ |- _ =>
    apply raise_if_Ok, negb_false_iff, andb_true_iff in E as [?%Z.leb_le ?%Z.leb_le] end.
  match goal with E : identifier source = _ |- _ => apply identifier_ok in E; rename E into Hs end.
  destruct (open_batch_inv _ _ _ _ _ _ _ _ _ _ _ Hwf Hopen)
    as (Hb & Ht & Hr & [Hwf1 Hle1] & _ & Hpages & _ & Hcase).
  assert (0 ≤ limit) as Hl by lia.
  assert (∀ j, in_scope target (Some source) pairs j = true →
    m_target (j_mail j) = b_target b ∧ m_source (j_mail j) = b_source b) as HP.
  { intros j (_ & ? & _ & ?)%in_scope_spec; [|done]. split; congruence. }
  destruct (take_page_sound _ _ _ _ _ _ _ _ _ Hwf1 Hb Hl HP Htake) as ([Hwf2 Hle2] & Hp & Hbs).
  pose proof (take_page_inv _ _ _ _ _ _ _ _ _ Hwf1 Htake Hl) as Hinv.
  exists b, p, rows. split; cbn; try done.
  - by rewrite Hbs.
  - split; [done|by etrans].
  - intros ->. destruct Hinv as [-> Hold]. rewrite Hpages in Hold. split; [done|].
    destruct Hcase as [[-> _]|(_ & Hno & _)]; [done|].
    destruct (pw_batch _ _ _ _ (wf_pages _ Hwf _ _ _ Hold)) as [c Hc]. congruence.
  - intros ->. destruct Hinv as [Hno _]. by rewrite Hpages in Hno.
Qed.

(** ** The mailbox, step by step *)


Lemma exclude_same_read now reason m : not_excluded m = true → same_read m (exclude now reason m).
Proof.
  unfold not_excluded. rewrite bool_decide_eq_true. intros Hm. destruct m; cbn in *. subst.
  split; [|done]. split; cbn; try done.
Qed.

Lemma mcommit_sound {A} db (r : res (mailbox * A)) :
  mwf db → (∀ db' a, r = Ok (db', a) → msound db db') → msound db (mcommit db r).
Proof. intros Hwf Hr. destruct r as [[db' a]|e]; cbn; [by eapply Hr|by apply msound_refl]. Qed.

Lemma cancel_message_inv now id db db' :
  cancel_message now id db = Ok (db', true) →
  ∃ m e, mails db !! id = Some m ∧ envelopes db !! id = Some e ∧ m_read_at m = None ∧
    m_excluded_at m = None ∧ e_status e = "stored" ∧
    db' = db {{ mails := <[id := exclude now "cancelled" m]> (mails db);
                envelopes := <[id := e {{ e_status := "cancelled" }}]> (envelopes db) }}.
Proof.
  unfold cancel_message. intros H. mailbox_inv H.
  destruct (join_table db !! id) as [[m e]|] eqn:Hj; [|done]. cbn in H.
  apply join_lookup in Hj as [Hm He]. cbn in *. destruct (_ && _); [done|].
  mailbox_inv H. injection H as <-.
  match goal with E : raise_if _ _ = _ |- _ => apply raise_if_Ok in E; rename E into Hg' end.
  rewrite !orb_false_iff, !negb_false_iff, !String.eqb_eq, bool_decide_eq_false in Hg'.
  unfold not_excluded in Hg'. rewrite bool_decide_eq_true in Hg'.
  destruct Hg' as [[[? ?] ?] ?%dec_stable]. exists m, e.
  unfold update_row. by rewrite Hm, He.
Qed.

Lemma mapply_sound o db : mwf db → msound db (mapply o db).
Proof.
  intros Hwf. destruct o; cbn [mapply]; try (apply mcommit_sound; [done|]; intros db' a H).
  - destruct (store_message_inv _ _ _ _ _ _ H) as (e & m & He & -> & _).
    by apply insert_mail_sound.
  - by destruct (read_sender_inv _ _ _ _ _ _ _ _ _ _ _ _ Hwf H) as (b & p & rows & []).
  - unfold exclude_message in H. mailbox_inv H. injection H as <- _.
    apply update_row_mails_sound; [done|].
    intros m [_ Hm]%andb_true_iff. by apply exclude_same_read.
  - destruct a; [|].
    + destruct (cancel_message_inv _ _ _ _ H) as (m & e & Hm & He & _ & Hx & _ & ->).
      eapply (msound_trans _ (db {{ mails := update_row id not_excluded (exclude now "cancelled") (mails db) }})).
      { apply update_row_mails_sound; [done|]. intros. by apply exclude_same_read. }
      intros Hwf'. assert (not_excluded m = true) as Hn by (by apply bool_decide_eq_true).
      unfold update_row in *. rewrite Hm, Hn in *.
      pose proof (env_sound _ (<[id := e {{ e_status := "cancelled" }}]> (envelopes db)) 0 Hwf') as Hs.
      destruct db; cbn in *. rewrite Z.add_0_r in Hs. apply Hs. set_solver.
    + unfold cancel_message in H. mailbox_inv H. destruct (join_table db !! id); [|by simplify_eq; apply msound_refl].
      destruct (_ && _); [by simplify_eq; apply msound_refl|]. mailbox_inv H. done.
  - unfold exclude_pair in H. mailbox_inv H. injection H as <- _.
    apply update_where_mails_sound; [done|].
    intros m [_ Hm]%andb_true_iff. by apply exclude_same_read.
  - unfold exclude_session in H. mailbox_inv H. injection H as <- _.
    apply update_where_mails_sound; [done|].
    intros m [_ Hm]%andb_true_iff. by apply exclude_same_read.
  - unfold mark_read_event_published in H. mailbox_inv H. injection H as <- _.
    apply update_row_mails_sound; [done|]. intros m _. by destruct m.
  - unfold claim_wake in H. mailbox_inv H. repeat case_match; mailbox_inv H; simplify_eq;
      first [by apply msound_refl|by apply wakes_sound].
  - unfold admit_wake in H. mailbox_inv H. repeat case_match; simplify_eq;
      first [by apply msound_refl|by apply wakes_sound].
  - unfold release_wake in H. mailbox_inv H. simplify_eq. by apply wakes_sound.
  - unfold suppress_wake in H. mailbox_inv H. simplify_eq. by apply wakes_sound.
  - by apply wakes_sound.
  - case_decide; [by apply env_sound|by apply msound_refl].
Qed.

Lemma mwf_empty : mwf empty_mailbox.
Proof. split; cbn; try done; intros *; by rewrite lookup_empty. Qed.

Lemma mreachable_wf db : mreachable db → mwf db.
Proof.
  apply reachable_invariant; [exact mwf_empty|]. intros o s s' Hs ->. by apply mapply_sound.
Qed.

Lemma msteps_sound db ls db' : mwf db → steps mstep db ls db' → msound db db'.
Proof.
  intros Hwf Hrun. induction Hrun as [db|db o db1 ls db2 -> _ IH]; [by apply msound_refl|].
  eapply msound_trans; [by apply mapply_sound|exact IH].
Qed.

(** ** Rows in order *)

(** Rows are ordered by their sequence numbers, which are distinct: a sorted
    selection is determined by its elements. *)
Lemma ordered_unique db P l :
  mwf db → StronglySorted by_seq l → NoDup l →
  (∀ j, j ∈ l ↔ P j = true ∧ ∃ id, mails db !! id = Some (j_mail j) ∧ envelopes db !! id = Some (j_env j)) →
  select_ordered P by_seq (join_table db) = l.
Proof.
  intros Hwf Hs Hnd Hin.
  assert (∀ x y, x ∈ l → y ∈ l → m_seq (j_mail x) = m_seq (j_mail y) → x = y) as Hseq.
  { intros x y Hx Hy E. apply Hin in Hx as (_ & i & Hi & Hi'), Hy as (_ & k & Hk & Hk').
    pose proof (wf_seqs _ Hwf _ _ _ _ Hi Hk E) as ->. destruct x, y; cbn in *. congruence. }
  assert (∀ j, j ∈ select_ordered P by_seq (join_table db) ↔ j ∈ l) as Heq.
  { intros j. by rewrite elem_of_ordered, Hin. }
  apply (StronglySorted_unique_strong by_seq).
  - intros x y Hx Hy Hxy Hyx. apply Heq in Hx. unfold by_seq, by_key in *. apply Hseq; [done..|lia].
  - apply select_ordered_spec; apply _.
  - done.
  - apply NoDup_Permutation; [by apply ordered_NoDup|done|exact Heq].
Qed.

(** Cutting a selection at a cursor leaves what comes after it. *)
Lemma ordered_after db P a rows rest z :
  mwf db → select_ordered (λ j, P j && (a <? m_seq (j_mail j))) by_seq (join_table db) = rows ++ rest →
  last_seq rows = Some z →
  a < z ∧ select_ordered (λ j, P j && (z <? m_seq (j_mail j))) by_seq (join_table db) = rest.
Proof.
  intros Hwf Hfull Hz.
  pose proof (elem_of_ordered (λ j, P j && (a <? m_seq (j_mail j))) db) as Hin.
  pose proof (proj2 (select_ordered_spec (λ j, P j && (a <? m_seq (j_mail j))) by_seq (join_table db))) as Hs.
  assert (NoDup (rows ++ rest)) as Hnd.
  { rewrite <-Hfull. by apply ordered_NoDup. }
  rewrite Hfull in Hs, Hin. setoid_rewrite elem_of_app in Hin.
  destruct (last_seq_elem _ _ Hz) as (x & Hx & Hxz).
  pose proof (proj1 (Hin x) (or_introl Hx)) as [[_ Hax%Z.ltb_lt]%andb_true_iff (ix & Hix & Hix')].
  split; [lia|]. apply ordered_unique; [done| | |].
  - clear -Hs. induction rows as [|r rows IH]; [done|]. apply IH. by apply StronglySorted_cons in Hs as [_ ?].
  - by apply NoDup_app in Hnd as (_ & _ & ?).
  - intros j. rewrite andb_true_iff, Z.ltb_lt. split.
    + intros Hj. destruct (proj1 (Hin j) (or_intror Hj)) as [[HP Haj%Z.ltb_lt]%andb_true_iff (i & Hi & Hi')].
      split; [|by exists i]. split; [done|].
      pose proof (StronglySorted_app_le _ _ _ _ _ Hs Hx Hj) as Hle. unfold by_seq, by_key in Hle.
      destruct (decide (m_seq (j_mail j) = z)) as [E|]; [|lia]. exfalso.
      assert (j = x) as ->.
      { rewrite <-Hxz in E. pose proof (wf_seqs _ Hwf _ _ _ _ Hi Hix E) as ->.
        destruct j, x; cbn in *. congruence. }
      apply NoDup_app in Hnd as (_ & Hd & _). by eapply Hd.
    + intros [[HP Hzj] Hrow].
      destruct (proj2 (Hin j)) as [Hj|Hj]; [|exfalso|done].
      * split; [|done]. rewrite HP. cbn. apply Z.ltb_lt. lia.
      * unfold last_seq in Hz. apply fmap_Some_1 in Hz as (y & Hy & ->).
        apply last_Some in Hy as [l ->].
        assert (StronglySorted by_seq (l ++ [y])) as Hs' by (by eapply StronglySorted_app_l).
        apply elem_of_app in Hj as [Hj|Hj%list_elem_of_singleton]; [|subst; lia].
        pose proof (StronglySorted_app_le _ _ _ _ _ Hs' Hj ltac:(by left)) as Hle.
        unfold by_seq, by_key in Hle. lia.
Qed.

(** * A small mailbox

    Two messages from chat [a] to chat [b], stored, read in two pages, and a
    wake attempt; the states the guarantees of the mailbox are evaluated on. *)
Open Scope string_scope.
Open Scope Z_scope.

Definition pair1 : string := "pair_0123456789abcdef0123456789abcdef".
Definition letter (text : string) : envelope := {|
  e_status := "stored"; e_mode := "mailbox"; e_kind := "instruction";
  e_auth_kind := "configured_route"; e_source := "a"; e_target := "b"; e_pair := pair1;
  e_target_run := None; e_reply_to := None; e_body := text; e_target_body := None;
  e_revision := 0; e_created_at := "t0"; e_source_run := "run-a"; e_instruction := "";
  e_delegation := "" |}.

Definition steps_to_read : list mop := [
  OpEnvelopes (<["m1" := letter "one"]> (<["m2" := letter "two"]> ∅)) 0;
  OpStore "t1" "m1" None;
  OpStore "t2" "m2" None].

Definition after (l : list mop) (db : mailbox) : mailbox := foldl (λ db o, mapply o db) db l.

(** Both messages are stored and unread. *)
Definition db0 : mailbox := Eval vm_compute in after steps_to_read empty_mailbox.
Definition read1 : mop := OpRead "t3" "f1" "b" "a" "run-b" "req" [pair1] 0 1.
Definition db1 : mailbox := Eval vm_compute in mapply read1 db0.
Definition read2 : mop := OpRead "t4" "f2" "b" "a" "run-b2" "req" [pair1] 1 1.
Definition db2 : mailbox := Eval vm_compute in mapply read2 db1.

Definition run_read (o : mop) (db : mailbox) : option read_result :=
  match o with
  | OpRead now fresh target source reader request pairs after limit =>
      match read_sender now fresh target source reader request pairs after limit db with
      | Ok (_, r) => Some r
      | Err _ => None
      end
  | _ => None
  end.

Definition no_result : read_result := {|
  r_read_id := ""; r_snapshot := 0; r_messages := []; r_next := None; r_more := false;
  r_unavailable := 0; r_replayed := false |}.

Definition res1 : read_result := Eval vm_compute in default no_result (run_read read1 db0).
Definition res2 : read_result := Eval vm_compute in default no_result (run_read read2 db1).

Example two_pages : r_next res1 = Some 1 ∧ r_more res2 = false ∧
  r_replayed res1 = false ∧ length (r_messages res2) = 1%nat.
Proof. by vm_compute. Qed.

Lemma reachable_after l db : mreachable db → mreachable (after l db).
Proof.
  revert db. induction l as [|o l IH]; intros db Hdb; [done|]. cbn.
  apply IH. by apply (reachable_step _ _ o db).
Qed.

Lemma mailbox_reach0 : mreachable db0.
Proof. assert (db0 = after steps_to_read empty_mailbox) as -> by (by vm_compute). apply reachable_after. constructor. Qed.

Lemma mailbox_reach1 : mreachable db1.
Proof. apply (reachable_step _ _ read1 db0); [exact mailbox_reach0|]. by vm_compute. Qed.

Lemma step1 : steps mstep db1 [] db1.
Proof. constructor. Qed.

(** A wake for the two messages, and another one for a third. *)
Definition wake_claimed : mailbox := Eval vm_compute in mapply (OpClaim "t5" "c1" "b" [pair1]) db0.
Definition wake_admitted : mailbox :=
  Eval vm_compute in mapply (OpAdmit "t6" "b" "mailwake_c1" "run-w" [pair1]) wake_claimed.
Definition third : list mop := [
  OpEnvelopes (<["m3" := letter "three"]> (envelopes db0)) 0;
  OpStore "t7" "m3" None;
  OpClaim "t8" "c2" "b" [pair1]].
Definition third_claimed : mailbox := Eval vm_compute in after third wake_admitted.
Definition third_admitted : mailbox :=
  Eval vm_compute in mapply (OpAdmit "t9" "b" "mailwake_c2" "run-w2" [pair1]) third_claimed.

Lemma steps_after l db : steps mstep db l (after l db).
Proof. revert db. induction l as [|o l IH]; intros db; cbn; econstructor; [done|apply IH]. Qed.

Lemma reach_claimed : mreachable wake_claimed.
Proof. apply (reachable_step _ _ (OpClaim "t5" "c1" "b" [pair1]) db0); [exact mailbox_reach0|]. by vm_compute. Qed.
