(* ===== verification/MailboxSpec.v ===== *)
(** * The mailbox's guarantees to its readers and senders

    Theorems on [Mailbox] that follow from the invariant of [MailboxReads]:
    messages are delivered by one read each, receipts replay, cancellation
    and reading exclude each other, and pagination is bounded and complete. *)
From S2P Require Import Prelude PyValues Mailbox MailboxReads.

Open Scope string_scope.
Open Scope Z_scope.
Open Scope list_scope.

Implicit Types db : mailbox.

(** The ids of the messages a read returned. *)
Definition message_ids (l : list (list (string * pyval))) : list string :=
  (λ d, py_str (items_get d "message_id")) <$> l.

Definition result_ids (r : read_result) : list string := message_ids (r_messages r).

Lemma message_ids_rows rows :
  message_ids (message_of <$> rows) = (λ j, m_id (j_mail j)) <$> rows.
Proof.
  unfold message_ids. rewrite <-list_fmap_compose. apply list_fmap_ext. by intros i j _.
Qed.

(** The rows a page stored and a caller may still see. *)
Lemma page_messages_in p P limit db rows :
  page_messages p P limit db = Ok (rows, false) → 0 ≤ limit →
  ∀ j, j ∈ rows ↔ P j = true ∧ m_id (j_mail j) ∈ p_ids p ∧
    ∃ id, mails db !! id = Some (j_mail j) ∧ envelopes db !! id = Some (j_env j).
Proof.
  unfold page_messages. destruct (p_ids p) as [|id ids] eqn:Hids.
  - intros [= <-] _ j. split; intros Hj; [by apply elem_of_nil in Hj|].
    destruct Hj as (_ & Hj & _). by apply elem_of_nil in Hj.
  - intros Hp Hl j. apply page_spec in Hp as (rest & Hfull & _ & _ & ->); [|done].
    rewrite app_nil_r in Hfull. rewrite <-Hfull, elem_of_ordered, andb_true_iff, str_in_spec.
    rewrite list_elem_of_In. tauto.
Qed.

Lemma page_messages_spec p P limit db rows :
  page_messages p P limit db = Ok (rows, false) → 0 ≤ limit →
  rows = match p_ids p with
         | [] => []
         | ids => select_ordered (λ j, P j && str_in (m_id (j_mail j)) ids) by_seq (join_table db)
         end ∧ Z.of_nat (length rows) ≤ limit ∧ 8192 + sizes None rows ≤ MAX_PAGE_BYTES.
Proof.
  unfold page_messages. destruct (p_ids p) as [|id ids].
  - intros [= <-] ?. unfold sizes. cbn. done.
  - intros Hp Hl. apply page_spec in Hp as (rest & -> & ? & ? & ->); [|done]. by rewrite app_nil_r.
Qed.

Lemma result_ids_spec now target source request pairs after limit db db' r b p rows :
  mwf db → read_run now target source request pairs after limit db db' r b p rows →
  ∀ id, id ∈ result_ids r ↔ id ∈ p_ids p ∧ ∃ j, join_table db' !! id = Some j ∧
    in_scope target (Some source) pairs j = true.
Proof.
  intros Hwf Hrun id. destruct Hrun as [Hl ? ? ? ? [Hwf' _] ? ? Hrows ->].
  unfold result_ids. cbn [r_messages]. rewrite message_ids_rows, list_elem_of_fmap.
  assert (0 ≤ limit) as Hl' by lia. pose proof (page_messages_in _ _ _ _ _ Hrows Hl') as Hin.
  split.
  - intros (j & -> & Hj). apply Hin in Hj as (HP & Hid & i & Hm & He).
    split; [done|]. exists j. split; [|done]. rewrite (mw_id _ _ _ (wf_mails _ Hwf' _ _ Hm)).
    by apply join_lookup.
  - intros (Hid & j & Hj & HP). apply join_lookup in Hj as [Hm He].
    pose proof (mw_id _ _ _ (wf_mails _ Hwf' _ _ Hm)) as E. exists j. split; [done|].
    apply Hin. rewrite E. eauto.
Qed.

(** In every state the mailbox can reach, whatever the rest of the server
    does to envelopes: messages have distinct sequence numbers, a message is
    read exactly when it belongs to a page, pages belong to receipts, share no
    message and cover increasing ranges, and a request has one receipt. *)
Theorem mailbox_reachable_wf db : mreachable db → mwf db.
Proof. apply mreachable_wf. Qed.

(** C28: A message is delivered by one read: the results of two successful
    reads along any run are either pages of the same receipt at the same
    cursor, or have no message in common. *)
Theorem read_once db now fresh target source reader request pairs after limit db1 r1 ls db2
    now' fresh' target' source' reader' request' pairs' after' limit' db3 r2 :
  mreachable db →
  read_sender now fresh target source reader request pairs after limit db = Ok (db1, r1) →
  steps mstep db1 ls db2 →
  read_sender now' fresh' target' source' reader' request' pairs' after' limit' db2 = Ok (db3, r2) →
  (r_read_id r1 = r_read_id r2 ∧ after = after') ∨
  ∀ id, id ∈ result_ids r1 → id ∉ result_ids r2.
Proof.
  intros Hwf%mreachable_wf H1 Hrun H2.
  destruct (read_sender_inv _ _ _ _ _ _ _ _ _ _ _ _ Hwf H1) as (b & p & rows & R1).
  pose proof (rr_sound _ _ _ _ _ _ _ _ _ _ _ _ _ R1) as [Hwf1 _].
  destruct (msteps_sound _ _ _ Hwf1 Hrun) as [Hwf2 Hle].
  destruct (read_sender_inv _ _ _ _ _ _ _ _ _ _ _ _ Hwf2 H2) as (b' & p' & rows' & R2).
  pose proof (rr_sound _ _ _ _ _ _ _ _ _ _ _ _ _ R2) as [Hwf3 Hle'].
  destruct (decide ((b_id b, after) = (b_id b', after'))) as [E|Hne].
  - left. injection E as E ->. split; [|done].
    rewrite (rr_result _ _ _ _ _ _ _ _ _ _ _ _ _ R1), (rr_result _ _ _ _ _ _ _ _ _ _ _ _ _ R2). done.
  - right. intros id Hid Hid'. apply Hne.
    apply (result_ids_spec _ _ _ _ _ _ _ _ _ _ _ _ _ Hwf R1) in Hid as [Hid _].
    apply (result_ids_spec _ _ _ _ _ _ _ _ _ _ _ _ _ Hwf2 R2) in Hid' as [Hid' _].
    refine (wf_once _ Hwf3 _ _ _ _ _ _ (rr_page _ _ _ _ _ _ _ _ _ _ _ _ _ R2) Hid Hid').
    eapply lookup_weaken; [|apply (dl_pages _ _ Hle')].
    eapply lookup_weaken; [|apply (dl_pages _ _ Hle)].
    apply (rr_page _ _ _ _ _ _ _ _ _ _ _ _ _ R1).
Qed.

(** A retry replays: after a page has been read, any later call that names
    the same recipient, sender, request, cursor and limit changes nothing and
    returns that page - the same receipt, snapshot and cursor, and exactly
    those of its messages that the caller's current routes still allow -
    whatever run makes the call. *)
Theorem read_replay db now fresh target source reader request pairs after limit db1 r1 ls db2
    now' fresh' reader' pairs' db3 r2 :
  mreachable db →
  read_sender now fresh target source reader request pairs after limit db = Ok (db1, r1) →
  steps mstep db1 ls db2 →
  read_sender now' fresh' target source reader' request pairs' after limit db2 = Ok (db3, r2) →
  db3 = db2 ∧ r_replayed r2 = true ∧ r_read_id r2 = r_read_id r1 ∧ r_snapshot r2 = r_snapshot r1 ∧
  r_next r2 = r_next r1 ∧ r_more r2 = r_more r1 ∧
  r_unavailable r2 + Z.of_nat (length (r_messages r2)) =
    r_unavailable r1 + Z.of_nat (length (r_messages r1)) ∧
  ∀ id, id ∈ result_ids r1 →
    id ∈ result_ids r2 ↔ ∃ j, join_table db2 !! id = Some j ∧
      in_scope target (Some source) pairs' j = true.
Proof.
  intros Hwf%mreachable_wf H1 Hrun H2.
  destruct (read_sender_inv _ _ _ _ _ _ _ _ _ _ _ _ Hwf H1) as (b & p & rows & R1).
  pose proof (result_ids_spec _ _ _ _ _ _ _ _ _ _ _ _ _ Hwf R1) as Hids1.
  destruct R1 as [_ _ Hb (Ht & Hr & _ & _) Hp [Hwf1 _] _ _ _ Hres1].
  destruct (msteps_sound _ _ _ Hwf1 Hrun) as [Hwf2 [_ Hbs Hps _]].
  destruct (read_sender_inv _ _ _ _ _ _ _ _ _ _ _ _ Hwf2 H2) as (b' & p' & rows' & R2).
  pose proof (result_ids_spec _ _ _ _ _ _ _ _ _ _ _ _ _ Hwf2 R2) as Hids2.
  destruct R2 as [_ _ Hb' (Ht' & Hr' & _ & _) Hp' [Hwf3 [_ Hbs' Hps' _]] Hrep Hfresh _ Hres].
  pose proof (lookup_weaken _ _ _ _ (lookup_weaken _ _ _ _ Hb Hbs) Hbs') as Hb3.
  assert (b_id b = b_id b') as E by (eapply (wf_requests _ Hwf3); [done..|congruence|congruence]).
  rewrite <-E in Hb', Hp', Hrep, Hfresh. rewrite Hb3 in Hb'. injection Hb' as <-.
  pose proof (lookup_weaken _ _ _ _ Hp Hps) as Hp2.
  assert (r_replayed r2 = true) as Hr2.
  { destruct (r_replayed r2) eqn:Hr2; [done|]. rewrite (Hfresh eq_refl) in Hp2. done. }
  destruct (Hrep Hr2) as [Hp2' ->]. rewrite Hp2 in Hp2'. injection Hp2' as <-.
  split_and!; try (rewrite Hres, Hres1; cbn; done); try done.
  - rewrite Hres, Hres1. cbn. rewrite !length_fmap. lia.
  - intros id Hid. rewrite Hids2. apply Hids1 in Hid as [Hid _]. naive_solver.
Qed.

(** Cancelling and reading a message exclude each other: once a message was
    cancelled no read ever returns it, and once a read has returned it, it
    cannot be cancelled. *)
Theorem cancel_or_read db id now fresh target source reader request pairs after limit now' db1 ls db2 db3 :
  mreachable db → steps mstep db1 ls db2 →
  (cancel_message now' id db = Ok (db1, true) →
   ∀ r, read_sender now fresh target source reader request pairs after limit db2 = Ok (db3, r) →
     id ∉ result_ids r) ∧
  (∀ r, read_sender now fresh target source reader request pairs after limit db = Ok (db1, r) →
     id ∈ result_ids r → cancel_message now' id db2 ≠ Ok (db3, true)).
Proof.
  intros Hwf%mreachable_wf Hrun. split.
  - intros Hc r H2 Hid.
    assert (msound db db1) as [Hwf1 _].
    { pose proof (mapply_sound (OpCancel now' id) db Hwf) as Hs. cbn in Hs. by rewrite Hc in Hs. }
    apply cancel_message_inv in Hc as (m & e & Hm & _ & _ & _ & _ & ->).
    destruct (msteps_sound _ _ _ Hwf1 Hrun) as [Hwf2 Hle].
    destruct (read_sender_inv _ _ _ _ _ _ _ _ _ _ _ _ Hwf2 H2) as (b & p & rows & R).
    apply (result_ids_spec _ _ _ _ _ _ _ _ _ _ _ _ _ Hwf2 R) in Hid as (_ & j & Hj & HP).
    apply join_lookup in Hj as [Hmj _].
    pose proof (rr_sound _ _ _ _ _ _ _ _ _ _ _ _ _ R) as [_ Hle3].
    destruct (dl_mails _ _ (transitivity Hle Hle3) id (exclude now' "cancelled" m)) as (m' & Hm' & Hl).
    { cbn. by rewrite lookup_insert_eq. }
    rewrite Hmj in Hm'. injection Hm' as <-.
    destruct (ml_excluded _ _ Hl) as [Hx _]; [by destruct m|].
    unfold in_scope, valid in HP. rewrite Hx in HP. by destruct m.
  - intros r H1 Hid Hc.
    destruct (read_sender_inv _ _ _ _ _ _ _ _ _ _ _ _ Hwf H1) as (b & p & rows & R).
    apply (result_ids_spec _ _ _ _ _ _ _ _ _ _ _ _ _ Hwf R) in Hid as (Hid & _).
    pose proof (rr_sound _ _ _ _ _ _ _ _ _ _ _ _ _ R) as [Hwf1 _].
    pose proof (wf_pages _ Hwf1 _ _ _ (rr_page _ _ _ _ _ _ _ _ _ _ _ _ _ R)) as [_ _ _ Hpm].
    destruct (Hpm _ Hid) as (m & _ & Hm & _ & Hr & _).
    destruct (msteps_sound _ _ _ Hwf1 Hrun) as [Hwf2 Hle].
    destruct (dl_mails _ _ Hle _ _ Hm) as (m' & Hm' & Hl).
    apply cancel_message_inv in Hc as (m2 & e & Hm2 & _ & Hun & _). rewrite Hm' in Hm2.
    injection Hm2 as <-.
    destruct (mw_read _ _ _ (wf_mails _ Hwf1 _ _ Hm)) as [Hra _].
    rewrite Hr in Hra. specialize (Hra (mk_is_Some _ _ eq_refl)).
    destruct (ml_read _ _ Hl Hra) as [_ E]. rewrite E in Hun. rewrite Hun in Hra. by destruct Hra.
Qed.

(** ** Pages are bounded and complete *)

Definition total_size (l : list (list (string * pyval))) : Z :=
  foldr (λ d n, json_size d + n) 0 l.

Lemma total_size_rows rows : total_size (message_of <$> rows) = sizes None rows.
Proof. unfold total_size, sizes. induction rows as [|j rows IH]; cbn; [done|]. by rewrite IH. Qed.

(** What a read or a listing returns respects the page bounds: at most
    [limit <= 25] messages, whose JSON texts leave 8 KiB of the 112 KiB. *)
Theorem pages_bounded db now fresh target source sources reader request pairs after limit unread_only :
  mreachable db →
  (∀ db' r, read_sender now fresh target source reader request pairs after limit db = Ok (db', r) →
     Z.of_nat (length (r_messages r)) ≤ limit ≤ 25 ∧
     total_size (r_messages r) ≤ 112 * 1024 - 8192) ∧
  (∀ l, list_messages target sources pairs after limit unread_only db = Ok l →
     Z.of_nat (length (l_messages l)) ≤ limit ≤ 25 ∧
     total_size (l_messages l) ≤ 112 * 1024 - 8192).
Proof.
  intros Hwf%mreachable_wf. split.
  - intros db' r H. destruct (read_sender_inv _ _ _ _ _ _ _ _ _ _ _ _ Hwf H) as (b & p & rows & R).
    destruct R as [Hl _ _ _ _ _ _ _ Hrows ->]. cbn [r_messages].
    unfold MAX_PAGE_ITEMS in Hl. apply page_messages_spec in Hrows as (_ & ? & ?); [|lia].
    rewrite length_fmap, total_size_rows. unfold MAX_PAGE_BYTES in *. lia.
  - intros l H. unfold list_messages in H. mailbox_inv H.
    match goal with u : (list joined * bool)%type |- _ => destruct u as [rows more] end.
    injection H as <-. cbn [l_messages].
    match goal with E : check_limit _ = _ |- _ =>
      apply raise_if_Ok, negb_false_iff, andb_true_iff in E as [?%Z.leb_le Hl%Z.leb_le] end.
    unfold MAX_PAGE_ITEMS in Hl.
    match goal with E : page _ _ _ _ = _ |- _ =>
      apply page_spec in E as (? & _ & ? & ? & _); [|lia] end.
    rewrite length_fmap, total_size_rows. unfold MAX_PAGE_BYTES in *. lia.
Qed.

(** The loop of [_page] raises only when nothing fits. *)
Lemma fill_ok limit meta rows kept used :
  (0 < limit)%nat →
  kept ≠ [] ∨ (∀ j, j ∈ rows → used + json_size (with_metadata meta (message_of j)) ≤ MAX_PAGE_BYTES) →
  ∃ rows' more, fill limit meta rows kept used = Ok (rows', more).
Proof.
  intros Hl. revert kept used. induction rows as [|j rows IH]; intros kept used Hk; cbn [fill]; [eauto|].
  destruct (_ || _) eqn:E.
  - destruct kept as [|k kept]; [|eauto]. exfalso. destruct Hk as [Hk|Hk]; [done|].
    specialize (Hk j ltac:(by left)). apply orb_true_iff in E as [E%bool_decide_eq_true|E%Z.ltb_lt].
    + cbn in E. lia.
    + lia.
  - apply IH. left. by destruct kept.
Qed.

Lemma fill_all limit meta rows kept used :
  (length kept + length rows ≤ limit)%nat → used + sizes meta rows ≤ MAX_PAGE_BYTES →
  (∀ d, 0 ≤ json_size d) →
  fill limit meta rows kept used = Ok (kept ++ rows, false).
Proof.
  intros Hl Hs Hpos. revert kept used Hl Hs.
  induction rows as [|j rows IH]; intros kept used Hl Hs; cbn [fill].
  - by rewrite app_nil_r.
  - cbn [length] in Hl. unfold sizes in Hs; cbn [foldr] in Hs; fold (sizes meta rows) in Hs.
    assert (0 ≤ sizes meta rows) as Hr.
    { clear -Hpos. unfold sizes. induction rows as [|x rows IH]; cbn [foldr]; [done|].
      pose proof (Hpos (with_metadata meta (message_of x))). lia. }
    rewrite bool_decide_false by lia. rewrite (proj2 (Z.ltb_ge _ _)) by lia. cbn.
    rewrite IH; [|rewrite length_app; cbn; lia|lia]. by rewrite <-app_assoc.
Qed.

Lemma json_size_nonneg d : 0 ≤ json_size d.
Proof. unfold json_size, len. lia. Qed.

Lemma page_ok P limit meta db :
  1 ≤ limit →
  (∀ j, j ∈ select_ordered P by_seq (join_table db) →
     8192 + json_size (with_metadata meta (message_of j)) ≤ MAX_PAGE_BYTES) →
  ∃ rows more, page P limit meta db = Ok (rows, more).
Proof.
  intros Hl Hfit. unfold page. apply fill_ok; [lia|]. right. intros j Hj. apply Hfit.
  rewrite <-(take_drop (Z.to_nat (limit + 1)) (select_ordered P by_seq (join_table db))).
  apply elem_of_app. by left.
Qed.

(** The client's loop: list, then continue from [next_after_seq]. *)
Fixpoint list_all (fuel : nat) (target : string) (source : option string) (pairs : list string)
    (after limit : Z) (unread_only : bool) (db : mailbox) : res (list (list (string * pyval))) :=
  match fuel with
  | O => Err (RuntimeError "out of fuel")
  | S fuel =>
      l ← list_messages target source pairs after limit unread_only db;
      match l_next l with
      | None => Ok (l_messages l)
      | Some next =>
          rest ← list_all fuel target source pairs next limit unread_only db;
          Ok (l_messages l ++ rest)
      end
  end.

(** C29: Following the cursors of [list_messages] visits every available message
    exactly once, oldest first, and comes to an end - if each of them fits in
    a page of its own, which [store_message] checked. *)
Theorem list_messages_complete db target source pairs limit unread_only :
  mreachable db → seq_floor db < 2 ^ 63 →
  check_scope target source pairs = Ok tt → check_limit limit = Ok tt →
  let P := λ j, in_scope target source pairs j && (negb unread_only || unread j) in
  let rows := select_ordered P by_seq (join_table db) in
  (∀ j, j ∈ rows → 8192 + json_size (message_of j) ≤ MAX_PAGE_BYTES) →
  ∀ fuel, (length rows < fuel)%nat →
  list_all fuel target source pairs 0 limit unread_only db = Ok (message_of <$> rows).
Proof.
  intros Hwf%mreachable_wf Hfloor Hscope Hlim. cbv zeta.
  set (P := λ j, in_scope target source pairs j && (negb unread_only || unread j)).
  intros Hfit fuel Hfuel.
  assert (1 ≤ limit) as Hl.
  { apply raise_if_Ok, negb_false_iff, andb_true_iff in Hlim as [?%Z.leb_le _]. done. }
  set (from := λ a, select_ordered (λ j, P j && (a <? m_seq (j_mail j))) by_seq (join_table db)).
  assert (select_ordered P by_seq (join_table db) = from 0) as Hstart.
  { subst from. cbn. apply ordered_unique; [done| |by apply ordered_NoDup|].
    - apply select_ordered_spec; apply _.
    - intros j. rewrite elem_of_ordered, andb_true_iff, Z.ltb_lt. split; [naive_solver|].
      intros (HP & id & Hm & He). split; [|eauto]. split; [done|].
      by apply (mw_seq _ _ _ (wf_mails _ Hwf _ _ Hm)). }
  assert (∀ a j, j ∈ from a → j ∈ select_ordered P by_seq (join_table db)) as Hsub.
  { intros a j. subst from. cbn. rewrite !elem_of_ordered, andb_true_iff. tauto. }
  rewrite Hstart in Hfuel |- *.
  assert (∀ fuel a, 0 ≤ a < 2 ^ 63 → (length (from a) < fuel)%nat →
    list_all fuel target source pairs a limit unread_only db = Ok (message_of <$> from a)) as Hall;
    [|by apply Hall; [lia|]].
  clear fuel Hfuel. intros fuel. induction fuel as [|fuel IH]; intros a Ha Hfuel; [lia|].
  cbn [list_all]. unfold list_messages. rewrite Hscope, Hlim. cbn [mbind res_bind].
  unfold check_cursor. rewrite (proj2 (Z.leb_le 0 a)), (proj2 (Z.leb_le a _)) by lia. cbn [andb negb raise_if mbind res_bind].
  assert (∀ j, in_scope target source pairs j && (a <? m_seq (j_mail j)) && (negb unread_only || unread j)
    = P j && (a <? m_seq (j_mail j))) as Hcomm.
  { intros j. subst P. cbn. by destruct (in_scope _ _ _ _), (a <? _), (negb _ || _). }
  assert (page (λ j, in_scope target source pairs j && (a <? m_seq (j_mail j))
                     && (negb unread_only || unread j)) limit None db
    = page (λ j, P j && (a <? m_seq (j_mail j))) limit None db) as ->.
  { unfold page. by rewrite (select_ordered_ext _ _ by_seq (join_table db) Hcomm). }
  destruct (page_ok (λ j, P j && (a <? m_seq (j_mail j))) limit None db Hl) as (rows & more & Hp).
  { intros j Hj. apply Hfit. by apply (Hsub a). }
  rewrite Hp. cbn [mbind res_bind l_next l_messages].
  apply page_spec in Hp as (rest & Hrest & _ & _ & Hm); [|lia]. fold (from a) in Hrest.
  destruct more; cbn [l_next l_messages].
  - destruct Hm as [Hne _]. destruct (last_seq rows) as [z|] eqn:Hz.
    2: { unfold last_seq in Hz. apply fmap_None, last_None in Hz. done. }
    destruct (ordered_after _ _ _ _ _ _ Hwf Hrest Hz) as [Haz Hnext]. fold (from z) in Hnext.
    destruct (last_seq_elem _ _ Hz) as (j & Hj & Hjz).
    assert (j ∈ from a) as Hja by (rewrite Hrest; apply elem_of_app; by left).
    apply elem_of_ordered in Hja as (_ & id & Hmj & _).
    pose proof (mw_seq _ _ _ (wf_mails _ Hwf _ _ Hmj)).
    rewrite IH; [|lia|].
    + cbn. by rewrite Hnext, Hrest, fmap_app.
    + rewrite Hnext. rewrite Hrest, length_app in Hfuel. destruct rows; cbn in *; [done|lia].
  - subst rest. by rewrite Hrest, app_nil_r.
Qed.

(** ** The first read of a request *)

(** A row after its page was stored. *)
Definition read_row (rid now : string) (j : joined) : joined :=
  Joined ((j_mail j) {{ m_read_id := Some rid; m_read_at := Some now }}) (j_env j).

Lemma message_read_row rid now j :
  message_of (read_row rid now j) = with_metadata (Some (rid, now)) (message_of j).
Proof. by destruct j as [[] e]. Qed.

Lemma sizes_read_row rid now rows :
  sizes None (read_row rid now <$> rows) = sizes (Some (rid, now)) rows.
Proof.
  unfold sizes. induction rows as [|j rows IH]; cbn [fmap list_fmap foldr]; [done|].
  by rewrite IH, message_read_row.
Qed.

Lemma in_scope_read_row target source pairs rid now j :
  in_scope target source pairs (read_row rid now j) = in_scope target source pairs j.
Proof. by destruct j as [[] e]. Qed.

Lemma max_seq_ge l m : m ∈ l → m_seq m ≤ max_seq l.
Proof.
  unfold max_seq. induction l as [|n l IH]; intros Hm; [by apply elem_of_nil in Hm|].
  cbn. apply elem_of_cons in Hm as [->|Hm]; [lia|]. specialize (IH Hm). lia.
Qed.

(** The rows of a page that was just read, selected again by their ids. *)
Lemma marked_rows db db' rid now (P : joined → bool) rows :
  mwf db → mwf db' →
  mails db' = mark_read rid now ((λ j, m_id (j_mail j)) <$> rows) (mails db) →
  envelopes db' = envelopes db →
  (∀ j, P (read_row rid now j) = P j) →
  StronglySorted by_seq rows → NoDup ((λ j, m_id (j_mail j)) <$> rows) →
  (∀ j, j ∈ rows → P j = true ∧ m_read_at (j_mail j) = None ∧
     mails db !! m_id (j_mail j) = Some (j_mail j) ∧ envelopes db !! m_id (j_mail j) = Some (j_env j)) →
  select_ordered (λ j, P j && str_in (m_id (j_mail j)) ((λ j, m_id (j_mail j)) <$> rows))
    by_seq (join_table db') = read_row rid now <$> rows.
Proof.
  intros Hwf Hwf' Hmails Henvs HP Hs Hnd Hin. apply ordered_unique; [done| | |].
  - clear -Hs. induction rows as [|j rows IH]; cbn; [constructor|].
    apply StronglySorted_cons in Hs as [Hj Hs]. constructor; [by apply IH|].
    apply Forall_fmap. eapply Forall_impl; [exact Hj|]. intros x. by destruct j as [[] ?], x as [[] ?].
  - apply (NoDup_fmap_1 (λ j, m_id (j_mail j))). rewrite <-list_fmap_compose.
    erewrite list_fmap_ext; [exact Hnd|]. intros i [[] e] _. done.
  - intros j. rewrite andb_true_iff, str_in_spec, <-list_elem_of_In, Hmails, Henvs.
    setoid_rewrite mark_read_lookup. rewrite !list_elem_of_fmap. split.
    + intros (x & -> & Hx). destruct (Hin _ Hx) as (HPx & Hun & Hm & He).
      split; [split; [by rewrite HP|exists x; by destruct x as [[] ?]]|].
      exists (m_id (j_mail x)). rewrite Hm, He. split; [|done]. cbn.
      rewrite Hun, (bool_decide_true (_ ∈ _)); [done|]. apply list_elem_of_fmap. eauto.
    + intros ([HPj (x & Hid & Hx)] & id & Hm & He). exists x. split; [|done].
      destruct (Hin _ Hx) as (_ & Hun & Hmx & Hex).
      apply fmap_Some_1 in Hm as (m & Hm & Ej).
      assert (id = m_id (j_mail x)) as ->.
      { pose proof (mw_id _ _ _ (wf_mails _ Hwf _ _ Hm)) as E.
        assert (m_id (j_mail j) = m_id m) as E'; [|congruence].
        rewrite Ej. by destruct (_ && _); destruct m. }
      rewrite Hmx in Hm. injection Hm as <-. rewrite Hun in Ej. cbn in Ej.
      rewrite bool_decide_true in Ej by (apply list_elem_of_fmap; eauto). cbn in Ej.
      destruct j as [mj ej]; cbn in *. subst mj. rewrite Hex in He. by injection He as <-.
Qed.

(** After a fresh page, reading it back returns it whole. *)
Lemma fresh_page_back now b target source pairs limit db db' p :
  mwf db → batches db !! b_id b = Some b → 1 ≤ limit → source ≠ "" →
  b_target b = target → b_source b = source →
  let P := in_scope target (Some source) pairs in
  take_page now b P 0 limit db = Ok (db', (p, false)) →
  ∃ rows rest,
    select_ordered (λ j, P j && unread j && (0 <? m_seq (j_mail j)) && (m_seq (j_mail j) <=? b_snapshot b))
      by_seq (join_table db) = rows ++ rest ∧
    (if p_more p then rows ≠ [] ∧ rest ≠ [] else rest = []) ∧
    p_ids p = (λ j, m_id (j_mail j)) <$> rows ∧
    mails db' = mark_read (b_id b) now (p_ids p) (mails db) ∧
    page_messages p P limit db' = Ok (read_row (b_id b) now <$> rows, false).
Proof.
  intros Hwf Hb Hl Hs Ht Hso P Htake. assert (0 ≤ limit) as Hl' by lia.
  assert (∀ j, P j = true → m_target (j_mail j) = b_target b ∧ m_source (j_mail j) = b_source b) as HP.
  { subst P. cbn. intros j (_ & ? & _ & ?)%in_scope_spec; [|done]. split; congruence. }
  destruct (take_page_sound _ _ _ _ _ _ _ _ _ Hwf Hb Hl' HP Htake) as ([Hwf' _] & _ & _).
  pose proof (take_page_inv _ _ _ _ _ _ _ _ _ Hwf Htake Hl') as (_ & rows & Hpage & Hids & _ & _ & Hin & Hdb).
  pose proof Hpage as Hpage'. apply page_spec in Hpage' as (rest & Hfull & Hlen & Hsize & Hmore); [|done].
  assert (mails db' = mark_read (b_id b) now (p_ids p) (mails db) ∧ envelopes db' = envelopes db)
    as [Hmails Henvs] by (rewrite Hdb; by destruct db).
  exists rows, rest. split_and!; [done..|].
  assert (select_ordered (λ j, P j && str_in (m_id (j_mail j)) (p_ids p)) by_seq (join_table db')
    = read_row (b_id b) now <$> rows) as Hsel.
  { rewrite Hids in Hmails |- *. apply (marked_rows db); try done.
    - pose proof (proj2 (select_ordered_spec (λ j, P j && unread j && (0 <? m_seq (j_mail j)) &&
          (m_seq (j_mail j) <=? b_snapshot b)) by_seq (join_table db))) as Hs'.
      rewrite Hfull in Hs'. by apply StronglySorted_app_l in Hs'.
    - by apply (page_rows _ _ _ _ _ _ Hwf Hpage Hl').
    - intros j Hj. destruct (Hin j Hj) as (? & ? & _ & _ & ? & ?). done. }
  unfold page_messages. destruct (p_ids p) as [|id ids].
  { symmetry in Hids. by apply fmap_nil_inv in Hids as ->. }
  unfold page. rewrite Hsel, take_ge by (rewrite length_fmap; lia).
  rewrite fill_all; [done| | |apply json_size_nonneg].
  - rewrite length_fmap. cbn. lia.
  - by rewrite sizes_read_row.
Qed.

(** The receipt a new request gets. *)
Definition new_batch (now rid target source reader request : string) (limit : Z) (db : mailbox)
    : batch := {|
  b_id := rid; b_target := target; b_source := source; b_reader_run := reader;
  b_request := request; b_limit := limit; b_created_at := now;
  b_snapshot := max_seq (select_where (λ m, String.eqb (m_target m) target
                                            && String.eqb (m_source m) source) (mails db)) |}.

Lemma open_batch_new now fresh target source reader request limit db :
  (∀ i c, batches db !! i = Some c → ¬ (b_target c = target ∧ b_request c = request)) →
  let rid := ("mailread_" +:+ fresh)%string in
  batches db !! rid = None →
  let b := new_batch now rid target source reader request limit db in
  open_batch now fresh target source reader request 0 limit db =
    Ok (db {{ batches := <[rid := b]> (batches db) }}, b).
Proof.
  intros Hnone rid Hfresh b. unfold open_batch.
  destruct (select_where _ (batches db)) as [|c l] eqn:Hsel.
  - fold rid. rewrite bool_decide_false; [done|]. by rewrite Hfresh; intros [? ?].
  - exfalso. pose proof (elem_of_select_where (λ b, String.eqb (b_target b) target &&
      String.eqb (b_request b) request) (batches db) c) as Hc. rewrite Hsel in Hc.
    destruct (proj1 Hc ltac:(by left)) as [Hk [i Hi]].
    apply (Hnone _ _ Hi). by rewrite andb_true_iff, !String.eqb_eq in Hk.
Qed.

(** The snapshot of a new receipt covers everything unread. *)
Lemma snapshot_covers now rid target source reader request pairs limit db db1 :
  mwf db → mwf db1 → mails db1 = mails db → envelopes db1 = envelopes db → source ≠ "" →
  let b := new_batch now rid target source reader request limit db in
  select_ordered (λ j, in_scope target (Some source) pairs j && unread j && (0 <? m_seq (j_mail j))
                       && (m_seq (j_mail j) <=? b_snapshot b)) by_seq (join_table db1) =
  select_ordered (λ j, in_scope target (Some source) pairs j && unread j) by_seq (join_table db).
Proof.
  intros Hwf Hwf1 Hm1 He1 Hsource b.
  apply ordered_unique; [done|apply select_ordered_spec; apply _|by apply ordered_NoDup|].
  intros j. rewrite elem_of_ordered, Hm1, He1, !andb_true_iff, Z.ltb_lt, Z.leb_le. split; [|tauto].
  intros ([Hin Hun] & id & Hm & He). split; [|by exists id]. split_and!; try done.
  - by apply (mw_seq _ _ _ (wf_mails _ Hwf _ _ Hm)).
  - apply max_seq_ge, elem_of_select_where. split; [|by exists id].
    apply in_scope_spec in Hin as (_ & -> & _ & ->); [|done]. by rewrite !String.eqb_refl.
Qed.

(** The first read of a new request: provided the arguments are valid, the
    receipt's id is fresh and each unread message of the sender fits in a page,
    it succeeds and returns, stamped with the receipt, the oldest unread
    messages the caller may see, leaving out none unless it says there are
    more; exactly the messages it returns become read, and none of the page is
    unavailable. *)
Theorem first_read now fresh target source reader request pairs limit db :
  mreachable db →
  identifier source = Ok tt → identifier reader = Ok tt → identifier request = Ok tt →
  check_limit limit = Ok tt → check_scope target (Some source) pairs = Ok tt →
  (∀ i c, batches db !! i = Some c → ¬ (b_target c = target ∧ b_request c = request)) →
  let rid := ("mailread_" +:+ fresh)%string in
  batches db !! rid = None →
  let P := λ j, in_scope target (Some source) pairs j && unread j in
  (∀ j, j ∈ select_ordered P by_seq (join_table db) →
     8192 + json_size (with_metadata (Some (rid, now)) (message_of j)) ≤ MAX_PAGE_BYTES) →
  ∃ db' r rows rest,
    read_sender now fresh target source reader request pairs 0 limit db = Ok (db', r) ∧
    select_ordered P by_seq (join_table db) = rows ++ rest ∧
    (if r_more r then rows ≠ [] ∧ rest ≠ [] else rest = []) ∧
    r_messages r = (λ j, with_metadata (Some (rid, now)) (message_of j)) <$> rows ∧
    r_unavailable r = 0 ∧ r_replayed r = false ∧
    mails db' = mark_read rid now ((λ j, m_id (j_mail j)) <$> rows) (mails db).
Proof.
  intros Hwf%mreachable_wf Hs Hr Hq Hlim Hscope Hnone rid Hfresh P Hfit.
  pose proof (identifier_ok _ _ Hs) as Hsource.
  assert (1 ≤ limit) as Hl.
  { apply raise_if_Ok, negb_false_iff, andb_true_iff in Hlim as [?%Z.leb_le _]. done. }
  set (b := new_batch now rid target source reader request limit db).
  set (db1 := db {{ batches := <[rid := b]> (batches db) }}).
  assert (open_batch now fresh target source reader request 0 limit db = Ok (db1, b)) as Hopen
    by (by apply open_batch_new).
  destruct (open_batch_inv _ _ _ _ _ _ _ _ _ _ _ Hwf Hopen) as (Hb & _ & _ & [Hwf1 _] & Hm1 & Hp1 & He1 & _).
  set (Q := λ j, in_scope target (Some source) pairs j && unread j && (0 <? m_seq (j_mail j))
                 && (m_seq (j_mail j) <=? b_snapshot b)).
  assert (select_ordered Q by_seq (join_table db1) = select_ordered P by_seq (join_table db)) as Hsel
    by (by apply snapshot_covers).
  destruct (page_ok Q limit (Some (rid, now)) db1 Hl) as (rows & more & Hpage).
  { intros j Hj. apply Hfit. by rewrite <-Hsel. }
  assert (pages db1 !! (b_id b, 0) = None) as Hnp.
  { rewrite Hp1. destruct (pages db !! (b_id b, 0)) as [q|] eqn:Hq'; [|done].
    destruct (pw_batch _ _ _ _ (wf_pages _ Hwf _ _ _ Hq')) as [c Hc]. cbn in Hc. congruence. }
  set (p := {| p_end := default 0 (last_seq rows); p_more := more;
               p_ids := (λ j, m_id (j_mail j)) <$> rows |}).
  assert (∃ db2, take_page now b (in_scope target (Some source) pairs) 0 limit db1 = Ok (db2, (p, false)))
    as [db2 Htake].
  { unfold take_page. rewrite Hnp. cbn [Z.eqb negb andb raise_if mbind res_bind].
    change (page _ limit _ db1) with (page Q limit (Some (rid, now)) db1).
    rewrite Hpage. by eexists. }
  destruct (fresh_page_back now b target source pairs limit db1 db2 p Hwf1 Hb Hl Hsource eq_refl eq_refl Htake)
    as (rows' & rest & Hfull & Hmore & Hids & Hmails & Hback).
  fold Q in Hfull. rewrite Hsel in Hfull. rewrite Hids in Hmails.
  eexists db2, _, rows', rest. split.
  { unfold read_sender. rewrite Hs, Hr, Hq, Hlim, Hscope. cbn [mbind res_bind check_cursor raise_if].
    rewrite Hopen. cbn [mbind res_bind]. unfold b at 1 2. cbn [b_source b_limit].
    rewrite String.eqb_refl, Z.eqb_refl. cbn [negb orb raise_if mbind res_bind].
    rewrite Htake. cbn [mbind res_bind]. rewrite Hback. cbn [mbind res_bind raise_if]. reflexivity. }
  cbn [r_more r_messages r_unavailable r_replayed]. split_and!; try done.
  - rewrite <-list_fmap_compose. apply list_fmap_ext. intros i j _. apply message_read_row.
  - rewrite Hids, !length_fmap. lia.
Qed.

(** ** A stored message can be read *)

Definition usize (s : string) : Z := len (utf8 s).
#[local] Arguments usize : simpl never.

Lemma concat_map_app f a b : concat_map f (a +:+ b)%string = (concat_map f a +:+ concat_map f b)%string.
Proof. induction a as [|x a IH]; snorm; cbn [concat_map]; [done|]. by rewrite IH, sapp_assoc. Qed.

Lemma usize_app a b : usize (a +:+ b)%string = usize a + usize b.
Proof. unfold usize, utf8, len. rewrite concat_map_app, slength_app. lia. Qed.

Lemma usize_join l :
  usize (join "," l) = foldr (λ s n, usize s + n) 0 l + Z.of_nat (pred (length l)).
Proof.
  induction l as [|x l IH]; [done|]. destruct l as [|y l]; [cbn; lia|].
  change (join "," (x :: y :: l)) with (x +:+ "," +:+ join "," (y :: l))%string.
  rewrite !usize_app, IH. change (usize ",") with 1. cbn [foldr length pred]. lia.
Qed.

(** The size of one item of a dict. *)
Definition item_size (kv : string * pyval) : Z :=
  usize (json_str kv.1) + 1 + usize (encode_value kv.2).

Lemma json_size_eq d :
  json_size d = 2 + foldr (λ kv n, item_size kv + n) 0 d + Z.of_nat (pred (length d)).
Proof.
  unfold json_size, dumps. cbn [encode_value].
  change (len (utf8 ?s)) with (usize s). rewrite !usize_app, usize_join, length_map.
  change (usize "{") with 1. change (usize "}") with 1.
  assert (foldr (λ s n, usize s + n) 0
    (map (λ kv, json_str kv.1 +:+ ":" +:+ encode_value kv.2)%string d) =
    foldr (λ kv n, item_size kv + n) 0 d) as ->; [|lia].
  induction d as [|kv d IH]; [done|]. cbn [map foldr]. rewrite IH, !usize_app. unfold item_size. change (usize ":") with 1. lia.
Qed.

(** Characters JSON writes as one byte. *)
Definition plain_char (c : Ascii.ascii) : bool := (usize (json_char c) =? 1).

Lemma usize_plain s : string_forallb plain_char s = true → usize (json_str s) = len s + 2.
Proof.
  intros Hs. unfold json_str.
  assert (usize (concat_map json_char s) = len s) as E.
  { induction s as [|c s IH]; [done|]. cbn [string_forallb] in Hs.
    apply andb_true_iff in Hs as [Hc%Z.eqb_eq Hs]. cbn [concat_map].
    rewrite usize_app, Hc, IH by done. unfold len. cbn [String.length]. lia. }
  change (String dquote ?t) with (String dquote "" +:+ t)%string.
  rewrite !usize_app, E. change (usize (String dquote "")) with 1. change (usize "") with 0. lia.
Qed.

Lemma metadata_size j rid at_ rid' at' :
  usize (json_str rid) ≤ usize (json_str rid') → usize (json_str at_) ≤ usize (json_str at') →
  json_size (with_metadata (Some (rid, at_)) (message_of j)) ≤
  json_size (with_metadata (Some (rid', at')) (message_of j)).
Proof.
  intros Hr Ha. unfold message_of. cbn [with_metadata items_set String.eqb Ascii.eqb Bool.eqb].
  destruct (attested (j_env j)); cbn [items_set String.eqb Ascii.eqb Bool.eqb];
    rewrite !json_size_eq; cbn [foldr length pred]; unfold item_size at 10 11 24 25;
    cbn [fst snd encode_value]; lia.
Qed.

(** A stored message can be read: once [store_message] accepted it, its text
    fits in a page of its own whatever receipt - of at most 240 plain
    characters - and time - of at most 64 - it is stamped with. *)
Theorem stored_message_fits now id reply db db' d rid at_ :
  store_message now id reply db = Ok (db', d) →
  string_forallb plain_char rid = true → len rid ≤ 240 →
  string_forallb plain_char at_ = true → len at_ ≤ 64 →
  8192 + json_size (with_metadata (Some (rid, at_)) d) ≤ MAX_PAGE_BYTES.
Proof.
  intros H Hr Hrl Ha Hal.
  apply store_message_inv in H as (e & m & _ & _ & _ & _ & -> & _ & _ & _ & Hs).
  unfold projected_size in Hs.
  pose proof (metadata_size (Joined m e) rid at_ (repeat_x 240) (repeat_x 64)) as Hm.
  rewrite (usize_plain rid Hr), (usize_plain at_ Ha) in Hm.
  change (usize (json_str (repeat_x 240))) with 242 in Hm.
  change (usize (json_str (repeat_x 64))) with 66 in Hm. lia.
Qed.

(** ** The guarantees at work *)

Section witnesses.

Lemma mailbox_reachable_wf_witness : mwf db1.
Proof. apply mailbox_reachable_wf. exact mailbox_reach1. Defined.

Lemma read1_ok : read_sender "t3" "f1" "b" "a" "run-b" "req" [pair1] 0 1 db0 = Ok (db1, res1).
Proof. by vm_compute. Qed.

Lemma read2_ok : read_sender "t4" "f2" "b" "a" "run-b2" "req" [pair1] 1 1 db1 = Ok (db2, res2).
Proof. by vm_compute. Qed.

Lemma read_once_witness :
  (r_read_id res1 = r_read_id res2 ∧ 0 = 1) ∨ ∀ id, id ∈ result_ids res1 → id ∉ result_ids res2.
Proof. exact (read_once _ _ _ _ _ _ _ _ _ _ _ _ _ _ _ _ _ _ _ _ _ _ _ _ _ mailbox_reach0 read1_ok step1 read2_ok). Defined.

Lemma read_replay_witness :
  ∃ r, read_sender "t5" "f3" "b" "a" "run-c" "req" [pair1] 0 1 db1 = Ok (db1, r) ∧ r_replayed r = true.
Proof.
  set (r := res1 {{ r_replayed := true }}).
  assert (read_sender "t5" "f3" "b" "a" "run-c" "req" [pair1] 0 1 db1 = Ok (db1, r)) as H by (by vm_compute).
  exists r. split; [exact H|].
  exact (proj1 (proj2 (read_replay _ _ _ _ _ _ _ _ _ _ _ _ _ _ _ _ _ _ _ _ mailbox_reach0 read1_ok step1 H))).
Defined.

Lemma cancel_or_read_witness : cancel_message "t9" "m1" db1 ≠ Ok (db1, true).
Proof.
  refine (proj2 (cancel_or_read db0 "m1" "t3" "f1" "b" "a" "run-b" "req" [pair1] 0 1 "t9" db1 [] db1 db1
    mailbox_reach0 step1) res1 read1_ok _).
  vm_compute. by left.
Defined.

Lemma pages_bounded_witness : Z.of_nat (length (r_messages res1)) ≤ 1 ≤ 25.
Proof.
  exact (proj1 (proj1 (pages_bounded db0 "t3" "f1" "b" "a" None "run-b" "req" [pair1] 0 1 false mailbox_reach0)
    db1 res1 read1_ok)).
Defined.

Lemma list_messages_complete_witness :
  list_all 3 "b" (Some "a") [pair1] 0 1 true db1 =
  Ok (message_of <$> select_ordered (λ j, in_scope "b" (Some "a") [pair1] j && (negb true || unread j))
                       by_seq (join_table db1)).
Proof.
  apply list_messages_complete; [exact mailbox_reach1|by vm_compute..| |by apply Nat.ltb_lt; vm_compute].
  apply Forall_forall. by apply (bool_decide_unpack _); vm_compute.
Defined.

Lemma first_read_witness :
  ∃ db' r rows rest,
    read_sender "t4" "f2" "b" "a" "run-b" "req2" [pair1] 0 1 db1 = Ok (db', r) ∧
    select_ordered (λ j, in_scope "b" (Some "a") [pair1] j && unread j) by_seq (join_table db1) = rows ++ rest ∧
    (if r_more r then rows ≠ [] ∧ rest ≠ [] else rest = []) ∧
    r_messages r = (λ j, with_metadata (Some ("mailread_f2", "t4")) (message_of j)) <$> rows ∧
    r_unavailable r = 0 ∧ r_replayed r = false ∧
    mails db' = mark_read "mailread_f2" "t4" ((λ j, m_id (j_mail j)) <$> rows) (mails db1).
Proof.
  apply (first_read "t4" "f2" "b" "a" "run-b" "req2" [pair1] 1 db1);
    [exact mailbox_reach1|by vm_compute|by vm_compute|by vm_compute|by vm_compute|by vm_compute| |by vm_compute|].
  - intros i c Hc [_ Hr].
    assert (map_Forall (λ _ c, b_request c ≠ "req2") (batches db1)) as Hall.
    { by apply (bool_decide_unpack _); vm_compute. }
    exact (Hall i c Hc Hr).
  - apply Forall_forall. by apply (bool_decide_unpack _); vm_compute.
Defined.

Lemma stored_message_fits_witness :
  match store_message "t2" "m2" None (after (take 2 steps_to_read) empty_mailbox) with
  | Ok (_, d) => 8192 + json_size (with_metadata (Some ("mailread_f1", "t3")) d) ≤ MAX_PAGE_BYTES
  | Err _ => False
  end.
Proof.
  destruct (store_message _ _ _ _) as [[db' d]|e] eqn:H; [|by vm_compute in H].
  by apply (stored_message_fits _ _ _ _ _ _ "mailread_f1" "t3" H); vm_compute.
Defined.
End witnesses.
