(* ===== verification/MailboxWakes.v ===== *)
(** * Waking idle recipients

    The wake attempts of [Mailbox]: a reservation covers the unread mail up to
    a cutoff, is admitted at most once and never for mail that already caused
    an attempt or that a stop suppressed. *)
From S2P Require Import Prelude PyValues Mailbox MailboxReads.

Open Scope string_scope.
Open Scope Z_scope.
Open Scope list_scope.

Implicit Types db : mailbox.

Record wake_wf (target : string) (w : wake) : Prop := {
  ww_target : w_target w = target;
  ww_cutoff : 0 ≤ w_last_attempt w ∧ 0 ≤ w_suppressed w;
  ww_state : match w_state w with
             | None => w_claim w = None ∧ w_through w = 0 ∧ w_run w = None
             | Some WakeReserved => is_Some (w_claim w) ∧ cutoff w < w_through w ∧ w_run w = None
             | Some WakeAdmitted => is_Some (w_claim w) ∧ 0 < w_through w ≤ w_last_attempt w ∧ is_Some (w_run w)
             end;
}.

(** The two cutoffs only rise. *)
Definition wake_le (w w' : wake) : Prop :=
  w_last_attempt w ≤ w_last_attempt w' ∧ w_suppressed w ≤ w_suppressed w'.
#[export] Instance wake_le_preorder : PreOrder wake_le.
Proof. unfold wake_le. split; [intros w; lia|intros a b c; lia]. Qed.

Definition wakes_wf (t : gmap string wake) : Prop :=
  ∀ target w, t !! target = Some w → wake_wf target w.

Definition wakes_le (t t' : gmap string wake) : Prop :=
  ∀ target w, t !! target = Some w → ∃ w', t' !! target = Some w' ∧ wake_le w w'.
#[export] Instance wakes_le_preorder : PreOrder wakes_le.
Proof.
  split; [intros t k w; by exists w|]. intros a b c Hab Hbc k w Hw.
  destruct (Hab _ _ Hw) as (w1 & Hw1 & ?), (Hbc _ _ Hw1) as (w2 & Hw2 & ?).
  exists w2. split; [done|by etrans].
Qed.

Definition wakes_sound (t t' : gmap string wake) : Prop := wakes_wf t' ∧ wakes_le t t'.

Lemma wakes_sound_refl t : wakes_wf t → wakes_sound t t.
Proof. done. Qed.

(** Changing the row of one recipient. *)
Lemma wakes_insert_sound t target w :
  wakes_wf t → wake_wf target w →
  (∀ w0, t !! target = Some w0 → wake_le w0 w) → wakes_sound t (<[target := w]> t).
Proof.
  intros Ht Hw Hle. split.
  - intros k v. rewrite lookup_insert. case_decide; [|by apply Ht]. intros [= <-]. by subst.
  - intros k v Hv. rewrite lookup_insert. case_decide; [|by exists v]. subst. eauto.
Qed.

Lemma wakes_update_sound t target P f :
  wakes_wf t → (∀ w, P w = true → wake_wf target w → wake_wf target (f w) ∧ wake_le w (f w)) →
  wakes_sound t (update_row target P f t).
Proof.
  intros Ht Hf. unfold update_row. destruct (t !! target) as [w|] eqn:Hw; [|done].
  destruct (P w) eqn:HP; [|done]. destruct (Hf w HP (Ht _ _ Hw)) as [? ?].
  apply wakes_insert_sound; [done..|]. intros w0 Hw0. by simplify_eq.
Qed.

Lemma released_sound target w :
  wake_wf target w → wake_wf target (released w) ∧ wake_le w (released w).
Proof. intros [? ? ?]. destruct w; cbn in *. split; [by split|unfold wake_le; cbn; lia]. Qed.

Lemma fresh_wake_wf target now : wake_wf target (fresh_wake target now).
Proof. by split. Qed.

Lemma max_seq_spec l : 0 ≤ max_seq l ∧ (max_seq l ≠ 0 → ∃ m, m ∈ l ∧ m_seq m = max_seq l) ∧
  (∀ m, m ∈ l → m_seq m ≤ max_seq l).
Proof.
  unfold max_seq. induction l as [|n l (IH0 & IH1 & IH2)]; cbn [fmap list_fmap foldr].
  - split_and!; [done..|]. intros m Hm. by apply elem_of_nil in Hm.
  - split_and!; [lia| |].
    + intros H. destruct (Z.max_spec (m_seq n) (foldr Z.max 0 (m_seq <$> l))) as [[? E]|[? E]];
        rewrite E in *.
      * destruct (IH1 H) as (m & Hm & ?). exists m. split; [by right|done].
      * exists n. split; [by left|done].
    + intros m [->|Hm]%elem_of_cons; [lia|]. specialize (IH2 m Hm). lia.
Qed.

Lemma elem_of_scope_mails P db m :
  m ∈ scope_mails P db ↔ ∃ id e, P (Joined m e) = true ∧
    mails db !! id = Some m ∧ envelopes db !! id = Some e.
Proof.
  unfold scope_mails. rewrite list_elem_of_fmap. setoid_rewrite elem_of_select_where.
  setoid_rewrite join_lookup. split.
  - intros ([m' e] & -> & HP & id & Hm & He). eauto 10.
  - intros (id & e & HP & Hm & He). exists (Joined m e). eauto 10.
Qed.

(** What a successful [claim_wake] reserves. *)
Lemma claim_wake_inv now fresh target pairs db db' w :
  claim_wake now fresh target pairs db = Ok (db', Some w) →
  let w0 := default (fresh_wake target now) (wakes db !! target) in
  let mine := λ j, in_scope target None pairs j && unread j && (cutoff w0 <? m_seq (j_mail j)) in
  in_state WakeReserved w0 = false ∧ max_seq (scope_mails mine db) ≠ 0 ∧
  w = w0 {{ w_claim := Some ("mailwake_" +:+ fresh)%string; w_through := max_seq (scope_mails mine db);
            w_state := Some WakeReserved; w_run := None; w_updated_at := now }} ∧
  db' = db {{ wakes := <[target := w]> (wakes db) }}.
Proof.
  unfold claim_wake. intros H. mailbox_inv H.
  assert ((match wakes db !! target with Some w => cutoff w | None => 0 end) =
    cutoff (default (fresh_wake target now) (wakes db !! target))) as E.
  { by destruct (wakes db !! target). }
  rewrite E in H. clear E. cbv zeta.
  assert (match wakes db !! target with Some w => in_state WakeReserved w | None => false end =
    in_state WakeReserved (default (fresh_wake target now) (wakes db !! target))) as E.
  { by destruct (wakes db !! target). }
  rewrite E in H. clear E. destruct (in_state WakeReserved _) eqn:Hres; [done|].
  destruct (_ =? 0) eqn:Hz; [done|]. mailbox_inv H. injection H as <- Hw.
  unfold upsert_wake in *. rewrite lookup_insert_eq in Hw. injection Hw as <-.
  split_and!; [done|by apply Z.eqb_neq|done|done].
Qed.

Lemma admit_wake_inv now target claim run pairs db db' :
  admit_wake now target claim run pairs db = Ok (db', true) →
  ∃ w j, wakes db !! target = Some w ∧ w_state w = Some WakeReserved ∧ w_claim w = Some claim ∧
    (∃ id, join_table db !! id = Some j) ∧ in_scope target None pairs j = true ∧ unread j = true ∧
    cutoff w < m_seq (j_mail j) ≤ w_through w ∧
    db' = db {{ wakes := <[target := w {{ w_state := Some WakeAdmitted; w_run := Some run;
                  w_last_attempt := Z.max (w_last_attempt w) (w_through w);
                  w_updated_at := now }}]> (wakes db) }}.
Proof.
  unfold admit_wake. intros H. mailbox_inv H.
  destruct (wakes db !! target) as [w|] eqn:Hw; [|done].
  destruct (holds_claim claim w) eqn:Hc; [|done]. cbn [negb] in H.
  destruct (scope_mails _ db) as [|m l] eqn:Hm; [done|]. injection H as <- _.
  assert (m ∈ m :: l) as Hin by (by left). rewrite <-Hm in Hin.
  apply elem_of_scope_mails in Hin as (id & e & HP & Hmm & He).
  rewrite !andb_true_iff, Z.ltb_lt, Z.leb_le in HP. destruct HP as [[[? ?] ?] ?].
  unfold holds_claim, in_state in Hc. apply andb_true_iff in Hc as
    [Hc%bool_decide_eq_true Hst%bool_decide_eq_true].
  exists w, (Joined m e). split_and!; try done.
  - exists id. by apply join_lookup.
  - unfold update_row, holds_claim, in_state. rewrite Hw.
    by rewrite !bool_decide_true by done.
Qed.

Lemma read_sender_wakes now fresh target source reader request pairs after limit db db' r :
  read_sender now fresh target source reader request pairs after limit db = Ok (db', r) →
  wakes db' = wakes db.
Proof.
  unfold read_sender. intros H. mailbox_inv H.
  match goal with E : open_batch _ _ _ _ _ _ _ _ _ = Ok ?x |- _ =>
    destruct x as [db1 b]; assert (wakes db1 = wakes db) as H1 end.
  { match goal with E : open_batch _ _ _ _ _ _ _ _ _ = _ |- _ => unfold open_batch in E; revert E end.
    destruct (select_where _ _) as [|c [|]]; intros E; [|by simplify_eq|done].
    mailbox_inv E. simplify_eq. by destruct db. }
  mailbox_inv H.
  match goal with E : take_page _ _ _ _ _ _ = Ok ?x |- _ =>
    destruct x as [db2 [p replayed]]; assert (wakes db2 = wakes db1) as H2 end.
  { match goal with E : take_page _ _ _ _ _ _ = _ |- _ => unfold take_page in E; revert E end.
    destruct (pages db1 !! _); intros E; [by simplify_eq|]. mailbox_inv E.
    match goal with u : (list joined * bool)%type |- _ => destruct u end. simplify_eq. by destruct db1. }
  mailbox_inv H. match goal with u : (list joined * bool)%type |- _ => destruct u end.
  mailbox_inv H. simplify_eq. congruence.
Qed.

(** What a stop does to a recipient's row. *)
Lemma suppress_wake_inv now target db db' n :
  suppress_wake now target db = Ok (db', n) → wakes_wf (wakes db) →
  let w0 := default (fresh_wake target now) (wakes db !! target) in
  let through := max_seq (scope_mails (λ j, valid j && String.eqb (m_target (j_mail j)) target
                                            && unread j) db) in
  ∃ w, db' = db {{ wakes := <[target := w]> (wakes db) }} ∧ wake_wf target w ∧ wake_le w0 w ∧
    w_suppressed w = Z.max (w_suppressed w0) through ∧ n = w_suppressed w ∧
    in_state WakeReserved w = false.
Proof.
  unfold suppress_wake. intros H Hwf. mailbox_inv H. cbv zeta.
  set (w0 := default (fresh_wake target now) (wakes db !! target)).
  assert (wake_wf target w0) as Hw0.
  { subst w0. destruct (wakes db !! target) eqn:E; [by apply Hwf|apply fresh_wake_wf]. }
  set (through := max_seq _) in *. unfold upsert_wake, update_row in H.
  rewrite lookup_insert_eq in H. fold w0 in H.
  set (w1 := w0 {{ w_suppressed := Z.max (w_suppressed w0) through; w_updated_at := now }}) in *.
  destruct Hw0 as [Ht Hc Hs].
  destruct (in_state WakeReserved w1) eqn:Hr; injection H as <- Hn.
  - rewrite insert_insert_eq in *. rewrite lookup_insert_eq in Hn. cbn in Hn. exists (released w1).
    subst w1. destruct w0; cbn in *. unfold in_state in *. cbn in *.
    split_and!; try done; [|unfold wake_le; cbn; lia]. split; cbn; [done|lia|done].
  - rewrite lookup_insert_eq in Hn. cbn in Hn. exists w1. unfold in_state in *. subst w1.
    destruct w0; cbn in *.
    split_and!; try done; [|unfold wake_le; cbn; lia]. split; cbn; [done|lia|].
    by destruct w_state as [[]|].
Qed.

Lemma wakes_mapply_sound o db : wakes_wf (wakes db) → wakes_sound (wakes db) (wakes (mapply o db)).
Proof.
  intros Hwf.
  assert (∀ A (r : res (mailbox * A)),
    (∀ db' a, r = Ok (db', a) → wakes_sound (wakes db) (wakes db')) →
    wakes_sound (wakes db) (wakes (mcommit db r))) as Hcommit.
  { intros A [[db' a]|e] Hr; cbn; [by eapply Hr|done]. }
  destruct o; cbn [mapply]; try (apply Hcommit; intros db' a H).
  - apply store_message_inv in H as (e & m & _ & -> & _). unfold insert_mail.
    by destruct (mails db !! id), db.
  - by apply read_sender_wakes in H as ->.
  - unfold exclude_message in H. mailbox_inv H. simplify_eq. by destruct db.
  - unfold cancel_message in H. mailbox_inv H. destruct (join_table db !! id); [|by simplify_eq].
    destruct (_ && _); [by simplify_eq|]. mailbox_inv H. simplify_eq. by destruct db.
  - unfold exclude_pair in H. mailbox_inv H. simplify_eq. by destruct db.
  - unfold exclude_session in H. mailbox_inv H. simplify_eq. by destruct db.
  - unfold mark_read_event_published in H. mailbox_inv H. simplify_eq. by destruct db.
  - destruct a as [w|].
    + destruct (claim_wake_inv _ _ _ _ _ _ _ H) as (_ & Hne & -> & ->).
      set (w0 := default (fresh_wake target now) (wakes db !! target)) in *.
      set (mine := λ j, in_scope target None pairs j && unread j && (cutoff w0 <? m_seq (j_mail j))) in *.
      assert (cutoff w0 < max_seq (scope_mails mine db)) as Hlt.
      { destruct (proj1 (proj2 (max_seq_spec (scope_mails mine db))) Hne) as (m & Hm & <-).
        apply elem_of_scope_mails in Hm as (id & e & HP & _). subst mine. cbn in HP.
        by apply andb_true_iff in HP as [_ HP%Z.ltb_lt]. }
      assert (wake_wf target w0) as [Ht Hc _].
      { subst w0. destruct (wakes db !! target) eqn:E; [by apply Hwf|apply fresh_wake_wf]. }
      clear Hne H. generalize dependent (max_seq (scope_mails mine db)). intros through Hlt.
      assert (∀ t, wakes (db {{ wakes := t }}) = t) as -> by (by destruct db).
      apply wakes_insert_sound; [done|by split|].
      intros v Hv. subst w0. rewrite Hv. destruct v; unfold wake_le; cbn; lia.
    + unfold claim_wake in H. mailbox_inv H. unfold upsert_wake in H.
      repeat case_match; mailbox_inv H; simplify_eq; try done;
        by match goal with E : <[_ := _]> _ !! _ = None |- _ => rewrite lookup_insert_eq in E end.
  - destruct a.
    + destruct (admit_wake_inv _ _ _ _ _ _ _ H) as (w & j & Hw & Hst & Hcl & _ & _ & _ & Hseq & ->).
      destruct (Hwf _ _ Hw) as [? Hc Hs]. rewrite Hst in Hs.
      assert (∀ t, wakes (db {{ wakes := t }}) = t) as -> by (by destruct db).
      apply wakes_insert_sound; [done| |].
      * destruct w; cbn in *. unfold cutoff in *. cbn in *. split; cbn; [done|lia|].
        destruct Hs as (? & ? & _). split; [done|]. split; [lia|done].
      * intros v Hv. simplify_eq. destruct w; unfold wake_le; cbn; lia.
    + unfold admit_wake in H. mailbox_inv H. destruct (wakes db !! target) as [w|] eqn:Hw; [|by simplify_eq].
      destruct (negb _) eqn:Hn; [by simplify_eq|]. destruct (scope_mails _ _); [by simplify_eq|].
      exfalso. injection H as _ H. unfold row_matches in H. rewrite Hw in H.
      by rewrite H in Hn.
  - unfold release_wake in H. mailbox_inv H. simplify_eq. destruct db; cbn in *.
    apply wakes_update_sound; [done|]. intros w _. apply released_sound.
  - destruct (suppress_wake_inv _ _ _ _ _ H Hwf) as (w & -> & Hw & Hle & _).
    assert (∀ t, wakes (db {{ wakes := t }}) = t) as -> by (by destruct db).
    apply wakes_insert_sound; [done..|]. intros v Hv. by rewrite Hv in Hle.
  - unfold recover_wakes. cbn. split.
    + intros k w. rewrite update_where_lookup. intros (v & Hv & ->)%fmap_Some_1.
      destruct (in_state _ _); [by apply released_sound, Hwf|by apply Hwf].
    + intros k v Hv. rewrite update_where_lookup, Hv. cbn. eexists. split; [done|].
      destruct (in_state _ _); [|done]. eapply released_sound. by apply Hwf.
  - case_decide; [by destruct db|done].
Qed.

Lemma wakes_reachable_wf db : mreachable db → wakes_wf (wakes db).
Proof.
  apply (reachable_invariant _ _ (λ db, wakes_wf (wakes db))); [by intros k w; cbn; rewrite lookup_empty|].
  intros o s s' Hs ->. by apply wakes_mapply_sound.
Qed.

Lemma wakes_msteps db ls db' :
  wakes_wf (wakes db) → steps mstep db ls db' → wakes_sound (wakes db) (wakes db').
Proof.
  intros Hwf Hrun. induction Hrun as [db|db o db1 ls db2 -> _ IH]; [done|].
  destruct (wakes_mapply_sound o db Hwf) as [Hwf1 Hle].
  destruct (IH Hwf1) as [Hwf2 Hle']. split; [done|by etrans].
Qed.

(** A wake row is always in one of three states: idle with nothing
    claimed, reserved by a claim for mail beyond both cutoffs, or admitted to a
    run, its cutoff recorded as attempted; and the cutoffs of a recipient never
    fall. *)
Theorem wakes_reachable db ls db' :
  mreachable db → steps mstep db ls db' → wakes_wf (wakes db') ∧ wakes_le (wakes db) (wakes db').
Proof. intros Hwf%wakes_reachable_wf Hrun. by apply (wakes_msteps _ _ _ Hwf Hrun). Qed.

(** [claim_wake] reserves exactly when it should: for a recipient without a
    reservation, and some unread message the recipient may see beyond both
    cutoffs; the reservation covers up to the newest such message. *)
Theorem claim_wake_exact now fresh target pairs db :
  mreachable db → check_scope target None pairs = Ok tt →
  (∀ t w, wakes db !! t = Some w → w_claim w ≠ Some ("mailwake_" +:+ fresh)%string) →
  let cut := from_option cutoff 0 (wakes db !! target) in
  let waiting := λ j, in_scope target None pairs j && unread j && (cut <? m_seq (j_mail j)) in
  match claim_wake now fresh target pairs db with
  | Ok (db', None) => db' = db ∧
      ((∃ w, wakes db !! target = Some w ∧ w_state w = Some WakeReserved) ∨
       ∀ m, m ∉ scope_mails waiting db)
  | Ok (db', Some w) =>
      wakes db' !! target = Some w ∧ w_state w = Some WakeReserved ∧
      (∀ w0, wakes db !! target = Some w0 → w_state w0 ≠ Some WakeReserved) ∧
      (∃ m, m ∈ scope_mails waiting db ∧ m_seq m = w_through w) ∧
      ∀ m, m ∈ scope_mails waiting db → m_seq m ≤ w_through w
  | Err _ => False
  end.
Proof.
  intros Hwf Hscope Hfresh cut waiting. unfold claim_wake. rewrite Hscope. cbn [mbind res_bind].
  assert ((match wakes db !! target with Some w => cutoff w | None => 0 end) = cut) as ->.
  { subst cut. by destruct (wakes db !! target). }
  fold waiting. destruct (max_seq_spec (scope_mails waiting db)) as (Hpos & Hmax & Hall).
  match goal with |- context [if ?c then Ok (db, None) else _] => destruct c eqn:Hr end.
  { destruct (wakes db !! target) as [w|] eqn:Hw; [|done]. split; [done|]. left.
    exists w. split; [done|]. by apply bool_decide_eq_true in Hr. }
  destruct (_ =? 0) eqn:Hz.
  - apply Z.eqb_eq in Hz. split; [done|]. right. intros m Hm. specialize (Hall m Hm).
    apply elem_of_scope_mails in Hm as (id & e & _ & Hm & _).
    apply mreachable_wf in Hwf. destruct (mw_seq _ _ _ (wf_mails _ Hwf _ _ Hm)). lia.
  - apply Z.eqb_neq in Hz.
    assert (other_row target (λ w, bool_decide (w_claim w = Some ("mailwake_" +:+ fresh)%string))
      (wakes db) = false) as ->.
    { apply other_row_false. intros t w Hw _. apply bool_decide_eq_false. by eapply Hfresh. }
    cbn [raise_if mbind res_bind]. unfold upsert_wake. rewrite lookup_insert_eq. cbn.
    rewrite lookup_insert_eq. split_and!; try done.
    + intros w0 Hw0 E. rewrite Hw0 in Hr. apply bool_decide_eq_false in Hr. done.
    + by apply Hmax.
Qed.

(** Mail wakes its recipient at most once: between two admitted wakes of
    one recipient, whatever happens in between, a message arrived that lies
    beyond everything the first one covered, and the second covers it.  So a
    claim is admitted once, and an admission is never repeated for the same
    mail. *)
Theorem admitted_wakes_advance db now target claim run pairs db1 ls db2 now' claim' run' pairs' db3 :
  mreachable db →
  admit_wake now target claim run pairs db = Ok (db1, true) →
  steps mstep db1 ls db2 →
  admit_wake now' target claim' run' pairs' db2 = Ok (db3, true) →
  ∃ w w' j id, wakes db !! target = Some w ∧ wakes db2 !! target = Some w' ∧
    join_table db2 !! id = Some j ∧ in_scope target None pairs' j = true ∧ unread j = true ∧
    w_through w < m_seq (j_mail j) ≤ w_through w'.
Proof.
  intros Hwf%wakes_reachable_wf H1 Hrun H2.
  pose proof (wakes_mapply_sound (OpAdmit now target claim run pairs) db Hwf) as [Hwf1 _].
  cbn in Hwf1. rewrite H1 in Hwf1. cbn in Hwf1.
  destruct (admit_wake_inv _ _ _ _ _ _ _ H1) as (w & _ & Hw & _ & _ & _ & _ & _ & _ & ->).
  destruct (wakes_msteps _ _ _ Hwf1 Hrun) as [_ Hle].
  destruct (admit_wake_inv _ _ _ _ _ _ _ H2) as (w' & j & Hw' & _ & _ & [id Hj] & HP & Hun & Hs & _).
  exists w, w', j, id. split_and!; try done; [|lia].
  destruct (Hle target (w {{ w_state := Some WakeAdmitted; w_run := Some run;
    w_last_attempt := Z.max (w_last_attempt w) (w_through w); w_updated_at := now }})) as (v & Hv & [Hl _]).
  { destruct db; cbn. by rewrite lookup_insert_eq. }
  rewrite Hw' in Hv. injection Hv as <-. unfold cutoff in Hs. destruct w; cbn in *. lia.
Qed.

(** A stop silences the mail that is waiting, and only that: right after
    [suppress_wake] nothing can be claimed for the recipient, and any wake
    admitted later, whatever happens in between, covers an unread message newer
    than everything that was waiting at the stop. *)
Theorem suppressed_mail_never_wakes db now target db1 n ls db2 now' claim run pairs db3 :
  mreachable db →
  suppress_wake now target db = Ok (db1, n) →
  (∀ id j, join_table db !! id = Some j → valid j = true → m_target (j_mail j) = target →
     unread j = true → m_seq (j_mail j) ≤ n) ∧
  (∀ now' fresh pairs, check_scope target None pairs = Ok tt →
     claim_wake now' fresh target pairs db1 = Ok (db1, None)) ∧
  (steps mstep db1 ls db2 → admit_wake now' target claim run pairs db2 = Ok (db3, true) →
   ∃ id j, join_table db2 !! id = Some j ∧ in_scope target None pairs j = true ∧ unread j = true ∧
     n < m_seq (j_mail j)).
Proof.
  intros Hreach H. pose proof (mreachable_wf _ Hreach) as Hmwf.
  pose proof (wakes_reachable_wf _ Hreach) as Hwf.
  pose proof (wakes_mapply_sound (OpSuppress now target) db Hwf) as [Hwf1 _].
  cbn in Hwf1. rewrite H in Hwf1. cbn in Hwf1.
  destruct (suppress_wake_inv _ _ _ _ _ H Hwf) as (w & Hdb & Hw & _ & Hsup & Hn & Hres).
  assert (∀ id j, join_table db !! id = Some j → valid j = true → m_target (j_mail j) = target →
    unread j = true → m_seq (j_mail j) ≤ n) as Hall.
  { intros id [m e] [Hm He]%join_lookup Hv Ht Hu. cbn in *. rewrite Hn, Hsup.
    etrans; [|apply Z.le_max_r].
    apply max_seq_spec, elem_of_scope_mails. exists id, e. split; [|done].
    cbn. by rewrite Hv, Hu, Ht, String.eqb_refl. }
  assert (wakes db1 !! target = Some w ∧ join_table db1 = join_table db) as [Hw1 Hjoin].
  { rewrite Hdb. destruct db; cbn. by rewrite lookup_insert_eq. }
  split; [exact Hall|]. split.
  - intros now1 fresh pairs1 Hscope. unfold claim_wake. rewrite Hscope, Hw1. cbn [mbind res_bind].
    rewrite Hres.
    match goal with |- context [max_seq ?l] => assert (max_seq l = 0) as -> end; [|done].
    match goal with |- max_seq ?l = 0 => destruct (max_seq_spec l) as (Hpos & Hmax & _) end.
    destruct (decide (max_seq (scope_mails (λ j, in_scope target None pairs1 j && unread j &&
      (cutoff w <? m_seq (j_mail j))) db1) = 0)) as [E|E]; [done|]. exfalso.
    destruct (Hmax E) as (m & (id & e & HP & Hm & He)%elem_of_scope_mails & _).
    rewrite !andb_true_iff, Z.ltb_lt in HP. destruct HP as [[Hin Hu] Hs]. cbn in Hs.
    unfold in_scope in Hin. rewrite !andb_true_iff, String.eqb_eq in Hin.
    destruct Hin as [[[Hv Ht] _] _].
    assert (m_seq m ≤ n) as Hle; [|unfold cutoff in Hs; lia].
    apply (Hall id (Joined m e)); [|done..]. rewrite <-Hjoin. by apply join_lookup.
  - intros Hrun H2. destruct (wakes_msteps _ _ _ Hwf1 Hrun) as [_ Hle].
    destruct (admit_wake_inv _ _ _ _ _ _ _ H2) as (w' & j & Hw' & _ & _ & [id Hj] & HP & Hun & Hs & _).
    exists id, j. split_and!; try done.
    destruct (Hle _ _ Hw1) as (v & Hv & [_ Hl]). rewrite Hw' in Hv. injection Hv as <-.
    unfold cutoff in Hs. lia.
Qed.

(** ** The guarantees at work *)

Section witnesses.

Lemma third_steps : steps mstep wake_admitted third third_claimed.
Proof. assert (third_claimed = after third wake_admitted) as -> by (by vm_compute). apply steps_after. Qed.

Lemma wakes_reachable_witness : wakes_wf (wakes wake_claimed) ∧ wakes_le (wakes wake_claimed) (wakes wake_claimed).
Proof. apply (wakes_reachable wake_claimed []); [exact reach_claimed|constructor]. Defined.

Lemma claim_wake_exact_witness :
  match claim_wake "t5" "c1" "b" [pair1] db0 with
  | Ok (db', Some w) => wakes db' !! "b" = Some w | _ => False end.
Proof.
  pose proof (claim_wake_exact "t5" "c1" "b" [pair1] db0 mailbox_reach0 ltac:(by vm_compute)
    ltac:(by intros t w Hw)) as H.
  destruct (claim_wake _ _ _ _ _) as [[db' [w|]]|e] eqn:E; [exact (proj1 H)|by vm_compute in E|exact H].
Defined.

Lemma admitted_wakes_advance_witness :
  ∃ w w' j id, wakes wake_claimed !! "b" = Some w ∧ wakes third_claimed !! "b" = Some w' ∧
    join_table third_claimed !! id = Some j ∧ in_scope "b" None [pair1] j = true ∧ unread j = true ∧
    w_through w < m_seq (j_mail j) ≤ w_through w'.
Proof.
  apply (admitted_wakes_advance wake_claimed "t6" "b" "mailwake_c1" "run-w" [pair1] wake_admitted third
    third_claimed "t9" "mailwake_c2" "run-w2" [pair1] third_admitted reach_claimed);
    [by vm_compute|exact third_steps|by vm_compute].
Defined.

Lemma suppressed_mail_never_wakes_witness :
  match suppress_wake "t5" "b" db0 with
  | Ok (db', _) => claim_wake "t6" "c1" "b" [pair1] db' = Ok (db', None) | Err _ => False end.
Proof.
  destruct (suppress_wake "t5" "b" db0) as [[db' n]|e] eqn:E; [|by vm_compute in E].
  destruct (suppressed_mail_never_wakes db0 "t5" "b" db' n [] db' "t6" "c" "r" [] db' mailbox_reach0 E) as (_ & H & _).
  apply H. by vm_compute.
Defined.
End witnesses.
