(* ===== verification/TurnQueue.v ===== *)
(** * The queue of turns of a chat, and its journal

    [agent_server.py]: the messages waiting for a busy chat.  The live queue is
    in memory; every change that must survive is an event of the chat's durable
    log, and after a restart the queue is rebuilt by replaying the log.  Here
    are the replay ([scan_queued_turns_from_events]) and the live operations of
    one chat, which hold the queue lock throughout, with the columns that
    decide what runs next: identity, prompt, files, purpose, steering lineage,
    the hold left by Stop and the delivery fence.  Force Send is replayed, its
    live half is not modelled.  Events are dicts, as [json.loads] gives them. *)
From S2P Require Import Prelude PyValues.

Open Scope string_scope.
Open Scope Z_scope.
Open Scope list_scope.

Abbreviation event := (list (string * pyval)).

(** ** Messages *)

(** One message of a steering lineage. *)
Record lineage := Lineage { l_prompt : string; l_files : list string }.
#[global] Instance lineage_eq_dec : EqDecision lineage.
Proof. solve_decision. Defined.

(** [merged_file_ids], of the concatenation of its groups: the first
    occurrence of each non-blank id. *)
Definition merged_file_ids (values : list pyval) : list string :=
  foldl (λ merged v,
    let file_id := strip (py_str (py_or v (PStr ""))) in
    if String.eqb file_id "" || str_in file_id merged then merged else merged ++ [file_id])
    [] values.

Definition file_list (v : pyval) : list pyval :=
  match v with PList l => l | _ => [] end.

Definition lineage_of (d : event) : option lineage :=
  let prompt := get_str d "prompt" in
  let files := merged_file_ids (file_list (items_get d "file_ids")) in
  if negb (blank prompt) || bool_decide (files ≠ []) then Some (Lineage prompt files) else None.

Definition normalize_steering_lineage (v : pyval) : list lineage :=
  match v with
  | PList l => omap (λ i, match i with PDict d => lineage_of d | _ => None end) l
  | _ => []
  end.

Definition lineage_value (l : list lineage) : pyval :=
  PList (map (λ i, PDict [("prompt", PStr (l_prompt i));
                          ("file_ids", PList (map PStr (l_files i)))]) l).

(** The columns of a queue row. *)
Record qitem := QItem {
  q_id : string;
  q_prompt : pyval;
  q_files : list pyval;
  q_purpose : pyval;
  q_lineage : list lineage;
  q_durable : bool;
  q_paused : bool;
  q_fenced : bool;
}.
#[global] Instance qitem_eq_dec : EqDecision qitem.
Proof. solve_decision. Defined.

Definition CROSS_CHAT_DELIVERY_PURPOSES : list string :=
  ["cross_chat_handoff_delivery"; "secure_peer_handoff_delivery"].

Definition purpose_in (l : list string) (it : qitem) : bool :=
  match q_purpose it with PStr s => str_in s l | _ => false end.

(** ** Replay *)

Section replay.
(** [parse_legacy_steering_lineage], which looks attachments up in the file
    store. *)
Variable parse_legacy : string → list pyval → list lineage.

Definition is_none (v : pyval) : bool := match v with PNone => true | _ => false end.

(** The prompt a legacy lineage ends with. *)
Definition last_prompt (l : list lineage) (other : pyval) : pyval :=
  match last l with Some i => PStr (l_prompt i) | None => other end.

Definition legacy_replay (ev : event) : bool :=
  String.eqb (get_str ev "type") "turn_queue_run_now"
  && truthy (items_get ev "replays_interrupted_message")
  && bool_decide (normalize_steering_lineage (items_get ev "steering_lineage") = []).

Definition queued_turn_from_event (ev : event) (position : Z) : res qitem :=
  files ← py_list (items_get ev "file_ids");
  let request := items_get ev "request_prompt" in
  let given := normalize_steering_lineage (items_get ev "steering_lineage") in
  let old := parse_legacy (get_str ev "request_prompt") files in
  let lin := if legacy_replay ev then old else given in
  let request := if legacy_replay ev then last_prompt old (items_get ev "prompt") else request in
  _ ← py_int (py_or (items_get ev "position") (PInt position));
  Ok {| q_id := get_str ev "queued_id";
        q_prompt := if is_none request then py_or (items_get ev "prompt") (PStr "") else request;
        q_files := files; q_purpose := items_get ev "purpose"; q_lineage := lin;
        q_durable := true; q_paused := false; q_fenced := false |}.

(** [order.remove(x)], if there is one. *)
Fixpoint remove_first (x : string) (l : list string) : list string :=
  match l with
  | [] => []
  | y :: l => if String.eqb y x then l else y :: remove_first x l
  end.

(** [l.insert(i,x)] *)
Definition insert_at {A} (i : nat) (x : A) (l : list A) : list A := take i l ++ x :: drop i l.

Abbreviation scan_state := (gmap string qitem * list string)%type.

Definition drop_row (id : string) (s : scan_state) : scan_state :=
  (delete id s.1, remove_first id s.2).

(** The fields [turn_queue_updated] and [turn_queue_run_now] change. *)
Definition update_item (ev : event) (it : qitem) : res qitem :=
  let promoted := String.eqb (get_str ev "type") "turn_queue_run_now" in
  let request := items_get ev "request_prompt" in
  let prompt := items_get ev "prompt" in
  files ← py_list (items_get ev "file_ids");
  let old := parse_legacy (get_str ev "request_prompt") files in
  let given := items_get ev "steering_lineage" in
  Ok (it {{
    q_paused := if promoted then false else q_paused it;
    q_fenced := if promoted then false else q_fenced it;
    q_prompt := if legacy_replay ev then last_prompt old (py_or prompt (PStr ""))
                else if negb (is_none request) then py_or request (PStr "")
                else if negb (is_none prompt) then py_or prompt (PStr "")
                else q_prompt it;
    q_files := if is_none (items_get ev "file_ids") then q_files it else files;
    q_lineage := if negb (is_none given) then normalize_steering_lineage given
                 else if legacy_replay ev then old else q_lineage it }}).

(** The ids of [positions] that are pending, in the order of their positions;
    [None] when sorting them raises, which the scan ignores. *)
Definition position_of (pending : gmap string qitem) (v : pyval) : option (list (Z * string)) :=
  match v with
  | PDict d =>
      match items_get d "queued_id" with
      | PStr id =>
          if bool_decide (is_Some (pending !! id)) then
            match py_int (py_or (items_get d "position") (PInt 0)) with
            | Ok n => Some [(n, id)]
            | Err _ => None
            end
          else Some []
      | PList _ | PDict _ => None
      | _ => Some []
      end
  | _ => None
  end.

Definition position_le (x y : Z * string) : Prop := x.1 ≤ y.1.
#[global] Instance position_le_dec : RelDecision position_le.
Proof. intros x y. unfold position_le. apply _. Defined.

Definition reordered (ev : event) (pending : gmap string qitem) : option (list string) :=
  match py_list (items_get ev "positions") with
  | Err _ => None
  | Ok positions => (λ l, (merge_sort position_le (concat l)).*2) <$> mapM (position_of pending) positions
  end.

Definition hold (id : string) (pending : gmap string qitem) : gmap string qitem :=
  alter (λ it, it {{ q_paused := true }}) id pending.

(** One round of the loop of [scan_queued_turns_from_events]. *)
Definition scan_event (ev : event) (s : scan_state) : res scan_state :=
  let queued_id := get_str ev "queued_id" in
  let ty := get_str ev "type" in
  superseded ← (if String.eqb ty "turn_queue_run_now"
                then py_list (items_get ev "superseded_queued_ids") else Ok []);
  let s := foldl (λ s v, drop_row (py_str (py_or v (PStr ""))) s) s superseded in
  let '(pending, order) := s in
  if String.eqb ty "turn_queue_paused" then
    ids ← py_list (items_get ev "queued_ids");
    Ok (foldl (λ p v, hold (py_str (py_or v (PStr ""))) p) pending ids, order)
  else if String.eqb ty "turn_queue_delivery_fenced" && negb (String.eqb queued_id "") then
    let fence := alter (λ it, it {{ q_paused := true; q_fenced := true }}) queued_id in
    match pending !! queued_id with
    | Some _ => Ok (fence pending, order)
    | None =>
        it ← queued_turn_from_event ev (Z.of_nat (length order) + 1);
        let n := Z.of_nat (length order) in
        let index := match py_int (py_or (items_get ev "position") (PInt (n + 1))) with
                     | Ok p => Z.max 0 (Z.min (p - 1) n)
                     | Err _ => n
                     end in
        Ok (fence (<[queued_id := it]> pending), insert_at (Z.to_nat index) queued_id order)
    end
  else if String.eqb ty "turn_queued" && negb (String.eqb queued_id "") then
    it ← queued_turn_from_event ev (Z.of_nat (length order) + 1);
    Ok (<[queued_id := it]> pending, if str_in queued_id order then order else order ++ [queued_id])
  else match pending !! queued_id with
  | Some it =>
      if str_in ty ["turn_queue_updated"; "turn_queue_run_now"] then
        it' ← update_item ev it;
        Ok (<[queued_id := it']> pending,
            if String.eqb ty "turn_queue_run_now" && str_in queued_id order
            then queued_id :: remove_first queued_id order else order)
      else if String.eqb ty "turn_queue_reordered" then
        match reordered ev pending with
        | Some seen => Ok (pending, seen ++ filter (λ q, str_in q seen = false) order)
        | None => Ok (pending, order)
        end
      else if str_in ty ["turn_started"; "turn_unqueued"] && negb (String.eqb queued_id "") then
        Ok (drop_row queued_id (pending, order))
      else Ok (pending, order)
  | None =>
      if String.eqb ty "turn_queue_reordered" then
        match reordered ev pending with
        | Some seen => Ok (pending, seen ++ filter (λ q, str_in q seen = false) order)
        | None => Ok (pending, order)
        end
      else if str_in ty ["turn_started"; "turn_unqueued"] && negb (String.eqb queued_id "") then
        Ok (drop_row queued_id (pending, order))
      else Ok (pending, order)
  end.

Definition scan_events (log : list event) : res scan_state :=
  foldl (λ s ev, st ← s; scan_event ev st) (Ok (∅, [])) log.

(** The rows worth recovering. *)
Definition recoverable_row (it : qitem) : bool :=
  negb (blank (py_str (py_or (q_prompt it) (PStr "")))) || bool_decide (q_files it ≠ []).

Definition scan_result (s : scan_state) : list qitem :=
  filter (λ it, recoverable_row it = true) (omap (λ id, s.1 !! id) s.2).

(** [scan_queued_turns_from_events], for one chat. *)
Definition scan_queued_turns (log : list event) : res (list qitem) :=
  scan_result <$> scan_events log.
End replay.

(** ** The live queue *)

(** The queue of one chat, the row its promotion task has taken from it, whether
    the [turn_started] event of that attempt is written ([started_event]), and
    the durable log.  A call's last argument says whether the fsync of its
    event succeeds. *)
Record chat_queue := ChatQueue {
  queue : list qitem;
  starting : option qitem;
  admitted : bool;
  log : list event;
}.

Definition queue_positions (q : list qitem) : list pyval :=
  imap (λ i it, PDict [("queued_id", PStr (q_id it)); ("position", PInt (Z.of_nat i + 1))]) q.

Definition turn_queued_event (it : qitem) (display_prompt : pyval) (position : Z) : event := [
  ("type", PStr "turn_queued");
  ("queued_id", PStr (q_id it));
  ("prompt", display_prompt);
  ("request_prompt", q_prompt it);
  ("file_ids", PList (q_files it));
  ("position", PInt position);
  ("purpose", q_purpose it)].

Definition turn_unqueued_event (it : qitem) : event := [
  ("type", PStr "turn_unqueued");
  ("queued_id", PStr (q_id it));
  ("prompt", py_or (q_prompt it) (PStr ""));
  ("file_ids", PList (q_files it));
  ("purpose", q_purpose it)].

Definition turn_started_event (it : qitem) : event := [
  ("type", PStr "turn_started"); ("queued_id", PStr (q_id it))].

Definition turn_stopped_event (it : qitem) : event := [
  ("type", PStr "turn_stopped"); ("queued_id", PStr (q_id it)); ("stopped", PBool true)].

Definition turn_queue_paused_event (ids : list string) : event := [
  ("type", PStr "turn_queue_paused"); ("queued_ids", PList (map PStr ids))].

Definition turn_queue_reordered_event (id direction : string) (q : list qitem) : event := [
  ("type", PStr "turn_queue_reordered"); ("queued_id", PStr id);
  ("direction", PStr direction); ("positions", PList (queue_positions q))].

(** How the durable part of [enqueue_turn] ends: the event is written and the
    row accepted; nothing is written; or a delivery loses its authorization
    after the event was written, and an unqueue event follows. *)
Inductive admission := Accepted | NotWritten | Revoked.

(** The row [enqueue_turn] builds. *)
Definition new_item (id prompt : string) (files : list string) (purpose : pyval) : qitem := {|
  q_id := id; q_prompt := PStr prompt; q_files := map PStr files; q_purpose := purpose;
  q_lineage := []; q_durable := true; q_paused := false; q_fenced := false |}.

Definition enqueue_turn (id prompt display_prompt : string) (files : list string)
    (purpose : pyval) (outcome : admission) (s : chat_queue) : chat_queue :=
  let it := new_item id prompt files purpose in
  let q := queue s ++ [it] in
  let ev := turn_queued_event it (PStr display_prompt) (Z.of_nat (length q)) in
  match outcome with
  | Accepted => s {{ queue := q; log := log s ++ [ev] }}
  | NotWritten => s
  | Revoked => s {{ log := log s ++ [ev; turn_unqueued_event it] }}
  end.

(** The index of the first row with an id. *)
Definition index_of (id : string) (q : list qitem) : option nat :=
  fst <$> list_find (λ it, q_id it = id) q.

Definition not_found : exn := HTTPError 404 "queued turn not found".

Definition unqueue_turn (id : string) (durable : bool) (s : chat_queue) : res chat_queue :=
  match list_find (λ it, q_id it = id) (queue s) with
  | None => Err not_found
  | Some (i, it) =>
      _ ← raise_if (purpose_in CROSS_CHAT_DELIVERY_PURPOSES it)
            (HTTPError 409 "cross-chat delivery can only be cancelled from its source handoff");
      _ ← raise_if (negb durable) (RuntimeError "durable append failed");
      Ok (s {{ queue := delete i (queue s); log := log s ++ [turn_unqueued_event it] }})
  end.

Definition swap (i j : nat) (q : list qitem) : list qitem :=
  match q !! i, q !! j with
  | Some a, Some b => <[i := b]> (<[j := a]> q)
  | _, _ => q
  end.

(** Where a move sends the row at an index of a queue of [n]. *)
Definition target (dir : string) (idx n : nat) : nat :=
  if String.eqb dir "up" then pred idx else Nat.min (pred n) (S idx).

Definition move_queued_turn (id direction : string) (expected_adjacent : option string)
    (durable : bool) (s : chat_queue) : res chat_queue :=
  let dir := lower (strip direction) in
  _ ← raise_if (negb (str_in dir ["up"; "down"])) (HTTPError 400 "direction must be up or down");
  match index_of id (queue s) with
  | None => Err not_found
  | Some idx =>
      let n := length (queue s) in
      let new := target dir idx n in
      let adjacent := if bool_decide (new = idx) then None else q_id <$> queue s !! new in
      _ ← raise_if (bool_decide (expected_adjacent ≠ None) && bool_decide (adjacent ≠ expected_adjacent))
            (HTTPError 409 "Queue changed; refresh before moving this message");
      _ ← raise_if (bool_decide (new ≠ idx) && bool_decide (expected_adjacent = None)
                    && existsb (purpose_in (CROSS_CHAT_DELIVERY_PURPOSES ++ ["scheduled_job"]))
                         (option_list (queue s !! idx) ++ option_list (queue s !! new)))
            (HTTPError 409 "Update the app to arrange queued deliveries safely");
      _ ← raise_if (negb durable) (RuntimeError "durable append failed");
      let q := if bool_decide (new = idx) then queue s else swap idx new (queue s) in
      Ok (s {{ queue := q; log := log s ++ [turn_queue_reordered_event id dir q] }})
  end.

(** The rows Stop holds: everything but hidden deliveries. *)
Definition holdable (it : qitem) : bool :=
  negb (String.eqb (strip (q_id it)) "") && negb (purpose_in CROSS_CHAT_DELIVERY_PURPOSES it).

Definition pause_queued_turns (durable : bool) (s : chat_queue) : chat_queue * Z :=
  let ids := (λ it, strip (q_id it)) <$> filter (λ it, holdable it = true) (queue s) in
  match ids with
  | [] => (s, 0)
  | _ =>
      let held it := if str_in (strip (q_id it)) ids
                     then it {{ q_paused := true; q_durable := durable && q_durable it }} else it in
      (s {{ queue := held <$> queue s;
            log := if durable then log s ++ [turn_queue_paused_event ids] else log s }},
       Z.of_nat (length ids))
  end.

(** The promotion task takes the head, unless it is held or not yet durable. *)
Definition take_head (s : chat_queue) : chat_queue :=
  match starting s, queue s with
  | None, it :: q =>
      if negb (q_durable it) || q_paused it then s
      else s {{ queue := q; starting := Some it; admitted := false }}
  | _, _ => s
  end.

Definition requeue_turn_front (s : chat_queue) : chat_queue :=
  match starting s with
  | Some it => s {{ queue := it :: queue s; starting := None; admitted := false }}
  | None => s
  end.

(** The turn is admitted: its [turn_started] event is written.  The promotion
    task still holds the row, and can still fail. *)
Definition persist_turn_acceptance (s : chat_queue) : chat_queue :=
  match starting s, admitted s with
  | Some it, false => s {{ admitted := true; log := log s ++ [turn_started_event it] }}
  | _, _ => s
  end.

(** The provider's task is registered: the run has the row from here on. *)
Definition commit_provider_task (s : chat_queue) : chat_queue :=
  match starting s, admitted s with
  | Some it, true => s {{ starting := None; admitted := false }}
  | _, _ => s
  end.

(** A start that fails after its [turn_started] event stops the run in the log.
    What becomes of the row is decided by the promotion task, which requeues or
    discards it as after any other failure. *)
Definition settle_precommit_failure (s : chat_queue) : chat_queue :=
  match starting s, admitted s with
  | Some it, true => s {{ log := log s ++ [turn_stopped_event it] }}
  | _, _ => s
  end.

Definition terminally_discard (durable : bool) (s : chat_queue) : chat_queue :=
  match starting s with
  | Some it =>
      if durable
      then s {{ starting := None; admitted := false; log := log s ++ [turn_unqueued_event it] }}
      else requeue_turn_front s
  | None => s
  end.

(** Every row in memory, the one being started first. *)
Definition rows (s : chat_queue) : list qitem := option_list (starting s) ++ queue s.

(** The queue ids of the runs a log has admitted. *)
Definition admitted_ids (log : list event) : list string :=
  (λ ev, get_str ev "queued_id") <$> filter (λ ev, get_str ev "type" = "turn_started") log.

(** The rows that no run has been admitted for yet. *)
Definition owed (s : chat_queue) : list qitem :=
  filter (λ it, q_id it ∉ admitted_ids (log s)) (rows s).

(** ** The steps of a chat's queue *)

Inductive queue_op :=
| OEnqueue (id prompt display : string) (files : list string) (purpose : pyval) (o : admission)
| OUnqueue (id : string) (durable : bool)
| OMove (id direction : string) (expected_adjacent : option string) (durable : bool)
| OPause (durable : bool)
| OTake
| ORequeue
| OAdmit
| OLaunch
| OStopped
| ODiscard (durable : bool).

Definition queue_apply (o : queue_op) (s : chat_queue) : res chat_queue :=
  match o with
  | OEnqueue id prompt display files purpose o =>
      Ok (enqueue_turn id prompt display files purpose o s)
  | OUnqueue id durable => unqueue_turn id durable s
  | OMove id direction expected durable => move_queued_turn id direction expected durable s
  | OPause durable => Ok (pause_queued_turns durable s).1
  | OTake => Ok (take_head s)
  | ORequeue => Ok (requeue_turn_front s)
  | OAdmit => Ok (persist_turn_acceptance s)
  | OLaunch => Ok (commit_provider_task s)
  | OStopped => Ok (settle_precommit_failure s)
  | ODiscard durable => Ok (terminally_discard durable s)
  end.

(** A queue id is a fresh uuid, and a message has text or files.  Any order of
    the other steps is allowed: a start can fail before its [turn_started] event
    or after it, and the row be requeued or discarded in both cases. *)
Definition op_fresh (o : queue_op) (s : chat_queue) : Prop :=
  match o with
  | OEnqueue id prompt _ files _ _ =>
      id ≠ "" ∧ strip id = id ∧ id ∉ q_id <$> rows s ∧ id ∉ admitted_ids (log s)
      ∧ (blank prompt = false ∨ files ≠ [])
  | _ => True
  end.

Definition queue_step (o : queue_op) (s s' : chat_queue) : Prop :=
  op_fresh o s ∧ queue_apply o s = Ok s'.

(** The steps that do not reorder the queue while its head is being started. *)
Definition calm_step (o : queue_op) (s s' : chat_queue) : Prop :=
  queue_step o s s' ∧ match o with OMove _ _ _ _ => starting s = None | _ => True end.

Definition empty_queue : chat_queue := {| queue := []; starting := None; admitted := false; log := [] |}.
