(* ===== verification/TurnQueueSpec.v ===== *)
(** * The journal of a chat's queue rebuilds it

    Every reachable state of the queue of [TurnQueue] is what the replay of its
    log gives: the same rows, and the same order unless a reorder met a turn
    being started. *)
From S2P Require Import Prelude PyValues TurnQueue.

Open Scope string_scope.
Open Scope Z_scope.
Open Scope list_scope.

(** ** Dicts and lists *)

Lemma get_str_PStr d k s : items_get d k = PStr s → get_str d k = s.
Proof. unfold get_str, py_or. intros ->. cbn. by destruct (String.eqb_spec s "") as [->|]. Qed.

Lemma py_list_PList l : py_list (PList l) = Ok l.
Proof. by destruct l. Qed.

Lemma str_in_elem x l : str_in x l = true ↔ x ∈ l.
Proof. by rewrite str_in_spec, list_elem_of_In. Qed.

Lemma str_in_false x l : str_in x l = false ↔ x ∉ l.
Proof. by rewrite <-str_in_elem, not_true_iff_false. Qed.

Lemma remove_first_notin x l : x ∉ l → remove_first x l = l.
Proof.
  induction l as [|y l IH]; cbn; [done|]. intros [Hy Hl]%not_elem_of_cons.
  destruct (String.eqb_spec y x) as [->|]; [done|]. by rewrite IH.
Qed.

Lemma remove_first_app x l k : x ∉ l → remove_first x (l ++ x :: k) = l ++ k.
Proof.
  induction l as [|y l IH]; cbn; [by rewrite String.eqb_refl|].
  intros [Hy Hl]%not_elem_of_cons. destruct (String.eqb_spec y x); [done|]. by rewrite IH.
Qed.

#[global] Instance remove_first_proper x : Proper ((≡ₚ) ==> (≡ₚ)) (remove_first x).
Proof.
  intros l k Hlk. induction Hlk as [|y l k Hlk IH|y z l|l k m _ IH1 _ IH2]; cbn.
  - done.
  - destruct (String.eqb y x); [done|]. by rewrite IH.
  - destruct (String.eqb_spec y x), (String.eqb_spec z x); subst; try done. constructor.
  - by rewrite IH1.
Qed.

(** ** Reading the positions of a reorder event back *)

#[global] Instance position_le_trans : Transitive position_le.
Proof. intros x y z. unfold position_le. lia. Qed.
#[global] Instance position_le_total : Total position_le.
Proof. intros x y. unfold position_le. lia. Qed.

(** The rows with their positions, counted from [k]. *)
Definition numbered (k : nat) (q : list qitem) : list (Z * string) :=
  imap (λ i it, (Z.of_nat (k + i) + 1, q_id it)) q.

Lemma numbered_cons k it q :
  numbered k (it :: q) = (Z.of_nat k + 1, q_id it) :: numbered (S k) q.
Proof.
  unfold numbered. rewrite imap_cons, Nat.add_0_r. f_equal. apply imap_ext.
  intros i x _. cbn. do 2 f_equal. lia.
Qed.

Lemma numbered_ids k q : (numbered k q).*2 = q_id <$> q.
Proof.
  revert k. induction q as [|it q IH]; intros k; [done|].
  by rewrite numbered_cons, !fmap_cons, IH.
Qed.

Lemma numbered_above k q x : x ∈ numbered k q → Z.of_nat k < x.1.
Proof. intros (i & it & -> & _)%elem_of_lookup_imap. cbn. lia. Qed.

Lemma numbered_sorted k q : StronglySorted position_le (numbered k q).
Proof.
  revert k. induction q as [|it q IH]; intros k; [constructor|].
  rewrite numbered_cons. constructor; [apply IH|]. apply Forall_forall.
  intros x Hx%numbered_above. unfold position_le. cbn. lia.
Qed.

Lemma sorted_filter {A} (R : relation A) (P : A → Prop) `{∀ x, Decision (P x)} (l : list A) :
  StronglySorted R l → StronglySorted R (filter P l).
Proof.
  induction 1 as [|x l Hl IH Hx]; [constructor|]. rewrite filter_cons. case_decide; [|done].
  constructor; [done|]. apply Forall_forall. intros y [_ Hy]%list_elem_of_filter.
  by eapply Forall_forall in Hx.
Qed.

Lemma merge_sort_filtered (P : Z * string → Prop) `{∀ x, Decision (P x)} q :
  merge_sort position_le (filter P (numbered 0 q)) = filter P (numbered 0 q).
Proof.
  apply StronglySorted_unique_strong with position_le.
  - intros x y Hx Hy Hxy Hyx. rewrite merge_sort_Permutation in Hx. unfold position_le in *.
    apply list_elem_of_filter in Hx as [_ Hx], Hy as [_ Hy].
    apply elem_of_lookup_imap in Hx as (i & it & -> & Hi), Hy as (j & it' & -> & Hj).
    cbn in *. assert (i = j) as -> by lia. by simplify_eq.
  - apply (StronglySorted_merge_sort position_le).
  - apply sorted_filter, numbered_sorted.
  - apply merge_sort_Permutation.
Qed.

Lemma mapM_positions p k q :
  mapM (position_of p)
    (imap (λ i it, PDict [("queued_id", PStr (q_id it)); ("position", PInt (Z.of_nat (k + i) + 1))]) q)
  = Some ((λ x, if bool_decide (is_Some (p !! x.2)) then [x] else []) <$> numbered k q).
Proof.
  revert k. induction q as [|it q IH]; intros k; [done|].
  rewrite numbered_cons, imap_cons, fmap_cons. cbn [mapM position_of items_get String.eqb Ascii.eqb Bool.eqb].
  assert (imap ((λ i it0, PDict [("queued_id", PStr (q_id it0)); ("position", PInt (Z.of_nat (k + i) + 1))]) ∘ S) q
    = imap (λ i it0, PDict [("queued_id", PStr (q_id it0)); ("position", PInt (Z.of_nat (S k + i) + 1))]) q) as ->.
  { apply imap_ext. intros i x _. cbn. do 5 f_equal. lia. }
  rewrite IH. cbn [snd]. case_bool_decide; [|done]. unfold py_or, truthy.
  rewrite (proj2 (Z.eqb_neq _ 0)) by lia. cbn. by rewrite Nat.add_0_r.
Qed.

Lemma concat_filter {A} (P : A → Prop) `{∀ x, Decision (P x)} (l : list A) :
  concat ((λ x, if bool_decide (P x) then [x] else []) <$> l) = filter P l.
Proof.
  induction l as [|x l IH]; [done|]. rewrite fmap_cons, filter_cons. cbn [concat]. rewrite IH.
  case_bool_decide; by case_decide.
Qed.

Lemma filter_snd {A B} (P : B → Prop) `{∀ x, Decision (P x)} (l : list (A * B)) :
  (filter (λ x, P x.2) l).*2 = filter P l.*2.
Proof.
  induction l as [|[a b] l IH]; [done|]. rewrite fmap_cons, !filter_cons, <-IH. cbn [snd]. by case_decide.
Qed.

(** The pending rows among those a reorder lists, in its order. *)
Lemma reordered_positions id direction p q :
  reordered (turn_queue_reordered_event id direction q) p =
    Some (filter (λ i, is_Some (p !! i)) (q_id <$> q)).
Proof.
  unfold reordered. cbn -[py_list queue_positions]. rewrite py_list_PList.
  unfold queue_positions. rewrite (mapM_positions p 0). cbn.
  rewrite (concat_filter (λ x : Z * string, is_Some (p !! x.2))).
  rewrite merge_sort_filtered, <-(numbered_ids 0 q). f_equal.
  exact (filter_snd (A := Z) (λ i : string, is_Some (p !! i :> option qitem)) (numbered 0 q)).
Qed.

(** ** Replaying one event *)

(** A row as the replay gives it back: a hold that could not be made durable
    marks the row as provisional, and is lost. *)
Definition replays (it' it : qitem) : Prop :=
  q_durable it' = true ∧
  it = if q_durable it then it' else it' {{ q_durable := false; q_paused := true }}.

Lemma replays_durable l q :
  Forall2 replays l q → Forall (λ it, q_durable it = true) q → l = q.
Proof.
  intros Hl Hd. induction Hl as [|it' it l q [_ E] _ IH]; [done|].
  apply Forall_cons in Hd as [Hit Hd]. rewrite Hit in E. by rewrite E, IH.
Qed.

Section replay_events.
Variable parse_legacy : string → list pyval → list lineage.
Abbreviation scan := (scan_events parse_legacy).
Abbreviation scan1 := (scan_event parse_legacy).

Lemma scan_events_app l ev st : scan l = Ok st → scan (l ++ [ev]) = scan1 ev st.
Proof. unfold scan_events. intros H. by rewrite foldl_app, H. Qed.

(** Evaluates the dispatch of [scan_event] on the type of a concrete event. *)
Ltac eval_get_str :=
  repeat match goal with
  | |- context [get_str ?d ?k] => rewrite (get_str_PStr d k _ eq_refl)
  end.
Ltac replay_event :=
  unfold scan_event; eval_get_str;
  cbn -[get_str py_list]; rewrite ?py_list_PList; cbn -[get_str py_list].

Lemma queued_turn_from_queued it display n m :
  q_lineage it = [] → q_durable it = true → q_paused it = false → q_fenced it = false →
  q_prompt it ≠ PNone → 0 < n →
  queued_turn_from_event parse_legacy (turn_queued_event it display n) m = Ok it.
Proof.
  intros Hl Hd Hp Hf Hpr Hn. unfold queued_turn_from_event, legacy_replay.
  rewrite (get_str_PStr (turn_queued_event it display n) "type" _ eq_refl),
    (get_str_PStr (turn_queued_event it display n) "queued_id" _ eq_refl).
  cbn -[get_str]. rewrite py_list_PList.
  unfold py_or, truthy. rewrite (proj2 (Z.eqb_neq n 0)) by lia. cbn -[get_str].
  destruct it as [id pr fs pu li du pa fe]; cbn in *; subst. by destruct pr.
Qed.

Lemma scan_queued it display n p o :
  q_id it ≠ "" → q_id it ∉ o → q_lineage it = [] → q_durable it = true →
  q_paused it = false → q_fenced it = false → q_prompt it ≠ PNone → 0 < n →
  scan1 (turn_queued_event it display n) (p, o) = Ok (<[q_id it := it]> p, o ++ [q_id it]).
Proof.
  intros Hid Ho Hl Hd Hp Hf Hpr Hn. replay_event.
  rewrite (proj2 (String.eqb_neq _ _) Hid), queued_turn_from_queued by done. cbn.
  by rewrite (proj2 (str_in_false _ _) Ho).
Qed.

Lemma scan_unqueued it p o :
  q_id it ≠ "" → scan1 (turn_unqueued_event it) (p, o) = Ok (drop_row (q_id it) (p, o)).
Proof.
  intros Hid. replay_event. rewrite (proj2 (String.eqb_neq _ _) Hid). cbn.
  by destruct (p !! q_id it).
Qed.

Lemma scan_started it p o :
  q_id it ≠ "" → scan1 (turn_started_event it) (p, o) = Ok (drop_row (q_id it) (p, o)).
Proof.
  intros Hid. replay_event. rewrite (proj2 (String.eqb_neq _ _) Hid). cbn.
  by destruct (p !! q_id it).
Qed.

Lemma scan_paused ids p o :
  scan1 (turn_queue_paused_event ids) (p, o) = Ok (foldl (flip hold) p ids, o).
Proof.
  replay_event. do 2 f_equal. revert p. induction ids as [|i ids IH]; intros p; [done|].
  cbn -[hold]. rewrite IH. do 2 f_equal. unfold py_or. cbn.
  by destruct (String.eqb_spec i "") as [->|].
Qed.

Lemma scan_stopped it p o : scan1 (turn_stopped_event it) (p, o) = Ok (p, o).
Proof. replay_event. by destruct (p !! q_id it). Qed.

Lemma scan_reordered id direction q p o :
  let seen := filter (λ i, is_Some (p !! i)) (q_id <$> q) in
  scan1 (turn_queue_reordered_event id direction q) (p, o) = Ok (p, seen ++ filter (λ i, i ∉ seen) o).
Proof.
  intros seen. replay_event. rewrite reordered_positions.
  assert (∀ l : list string, filter (λ i, str_in i seen = false) l = filter (λ i, i ∉ seen) l) as <-
    by (intros l; apply list_filter_iff; intros i; apply str_in_false).
  by destruct (p !! id).
Qed.

#[local] Arguments scan_events : simpl never.
#[local] Arguments scan_event : simpl never.

Lemma swap_perm i j q : swap i j q ≡ₚ q.
Proof.
  unfold swap. destruct (q !! i) as [a|] eqn:Hi, (q !! j) as [b|] eqn:Hj; try done.
  by apply Permutation_insert_swap.
Qed.

Lemma list_filter_all {A} (P : A → Prop) `{∀ x, Decision (P x)} (l : list A) :
  (∀ x, x ∈ l → P x) → filter P l = l.
Proof.
  induction l as [|x l IH]; intros Hp; [done|].
  rewrite filter_cons_True, IH; [done|intros; apply Hp; by right|apply Hp; left].
Qed.

Lemma list_filter_none {A} (P : A → Prop) `{∀ x, Decision (P x)} (l : list A) :
  (∀ x, x ∈ l → ¬ P x) → filter P l = [].
Proof.
  induction l as [|x l IH]; intros Hp; [done|].
  rewrite filter_cons_False, IH; [done|intros; apply Hp; by right|apply Hp; left].
Qed.

Lemma list_filter_agree {A} (P Q : A → Prop) `{∀ x, Decision (P x)} `{∀ x, Decision (Q x)} (l : list A) :
  (∀ x, x ∈ l → P x ↔ Q x) → filter P l = filter Q l.
Proof.
  induction l as [|x l IH]; intros Hl; [done|]. rewrite !filter_cons, IH by (intros; apply Hl; by right).
  specialize (Hl x ltac:(left)). repeat case_decide; tauto.
Qed.

(** What a reorder keeps of the ids the replay knows. *)
Lemma filter_unlisted (a b : list string) :
  NoDup (a ++ b) → filter (λ i, i ∉ b) (a ++ b) = a.
Proof.
  intros (_ & Hd & _)%NoDup_app. rewrite filter_app.
  rewrite (list_filter_all _ a), (list_filter_none _ b), app_nil_r; [done|..].
  - intros i Hi Hn. done.
  - intros i Hi. by apply Hd.
Qed.

(** ** What the journal and the queue agree on *)

(** How the order the replay gives is related to the live order. *)
Class ReplayOrder (R : relation (list string)) := {
  ro_refl o : R o o;
  ro_perm o l : R o l → o ≡ₚ l;
  ro_snoc o l x : R o l → R (o ++ [x]) (l ++ [x]);
  ro_remove o l x k : R o (l ++ x :: k) → x ∉ l → R (remove_first x o) (l ++ k);
}.

#[global] Instance replay_order_eq : ReplayOrder (=).
Proof. split; [done|by intros ? ? ->|by intros ? ? ? ->|]. intros ? ? ? ? -> ?. by apply remove_first_app. Qed.

#[global] Instance replay_order_perm : ReplayOrder (≡ₚ).
Proof.
  split; [done|done|by intros ? ? ? ->|]. intros ? ? ? ? -> ?. by rewrite remove_first_app.
Qed.

Definition row_ok (it : qitem) : Prop :=
  q_id it ≠ "" ∧ strip (q_id it) = q_id it ∧ recoverable_row it = true.

Lemma row_ok_new id prompt files purpose :
  id ≠ "" → strip id = id → blank prompt = false ∨ files ≠ [] →
  row_ok (new_item id prompt files purpose).
Proof.
  intros Hid Hst Hgood. split_and!; [done|done|]. unfold recoverable_row, py_or. cbn.
  destruct Hgood as [Hb|Hf].
  - destruct (String.eqb_spec prompt "") as [->|]; [done|]. cbn -[blank]. by rewrite Hb.
  - rewrite (bool_decide_true (_ ≠ [])), orb_true_r; [done|]. by destruct files.
Qed.

(** The replay knows the rows no run was admitted for, and no others. *)
Record journal_inv (R : relation (list string)) (s : chat_queue)
    (p : gmap string qitem) (o : list string) : Prop := {
  ji_scan : scan (log s) = Ok (p, o);
  ji_nodup : NoDup (q_id <$> rows s);
  ji_order : R o (q_id <$> owed s);
  ji_rows it : it ∈ owed s → ∃ it', p !! q_id it = Some it' ∧ replays it' it;
  ji_past id : id ∈ admitted_ids (log s) → p !! id = None;
  ji_admitted it : starting s = Some it → admitted s = true → q_id it ∈ admitted_ids (log s);
  ji_ok it : it ∈ rows s → row_ok it;
}.

Lemma admitted_ids_app l ev :
  admitted_ids (l ++ [ev]) =
    admitted_ids l ++ if decide (get_str ev "type" = "turn_started") then [get_str ev "queued_id"] else [].
Proof.
  unfold admitted_ids. rewrite filter_app, fmap_app. f_equal. rewrite filter_cons. by case_decide.
Qed.

Lemma admitted_quiet l ev :
  get_str ev "type" ≠ "turn_started" → admitted_ids (l ++ [ev]) = admitted_ids l.
Proof. intros H. by rewrite admitted_ids_app, decide_False, app_nil_r. Qed.

Lemma admitted_started l it :
  admitted_ids (l ++ [turn_started_event it]) = admitted_ids l ++ [q_id it].
Proof.
  rewrite admitted_ids_app, decide_True by (by apply get_str_PStr).
  by rewrite (get_str_PStr _ _ (q_id it)).
Qed.

Lemma elem_of_owed s it : it ∈ owed s ↔ q_id it ∉ admitted_ids (log s) ∧ it ∈ rows s.
Proof. unfold owed. by rewrite list_elem_of_filter. Qed.

Lemma owed_ids s : q_id <$> owed s = filter (λ i, i ∉ admitted_ids (log s)) (q_id <$> rows s).
Proof.
  unfold owed. induction (rows s) as [|it l IH]; [done|]. rewrite fmap_cons, !filter_cons, <-IH. by case_decide.
Qed.

Lemma owed_ids_nodup s : NoDup (q_id <$> rows s) → NoDup (q_id <$> owed s).
Proof. rewrite owed_ids. apply NoDup_filter. Qed.

(** Taking a row out of a list, by its id. *)
Lemma drop_filter l it (k : list qitem) :
  NoDup (q_id <$> l ++ it :: k) → l ++ k = filter (λ x, q_id x ≠ q_id it) (l ++ it :: k).
Proof.
  rewrite fmap_app, fmap_cons. intros (_ & Hl & [Hk _]%NoDup_cons)%NoDup_app.
  rewrite filter_app, filter_cons_False by (by intros []).
  rewrite !list_filter_all; [done|..]; intros x Hx Heq.
  - apply Hk. rewrite <-Heq. by apply list_elem_of_fmap_2.
  - apply (Hl (q_id x)); [by apply list_elem_of_fmap_2|]. rewrite Heq. left.
Qed.

Section preservation.
Context (R : relation (list string)) `{!ReplayOrder R}.
Implicit Types (s : chat_queue) (p : gmap string qitem) (o : list string) (durable : bool).

Lemma ro_drop o x (l : list qitem) :
  R o (q_id <$> l) → NoDup (q_id <$> l) → R (remove_first x o) (q_id <$> filter (λ y, q_id y ≠ x) l).
Proof.
  intros HR Hn. destruct (decide (x ∈ q_id <$> l)) as [Hx|Hx].
  - apply list_elem_of_fmap in Hx as (y & -> & (a & b & ->)%list_elem_of_split).
    rewrite <-drop_filter by done. rewrite fmap_app, fmap_cons in *.
    apply NoDup_app in Hn as (_ & Hl & _). apply ro_remove; [done|]. intros H. apply (Hl _ H). left.
  - rewrite remove_first_notin by (by rewrite (ro_perm _ _ HR)).
    rewrite list_filter_all; [done|]. intros y Hy <-. apply Hx. by apply list_elem_of_fmap_2.
Qed.

(** Neither the rows nor the log change. *)
Lemma journal_same s s' p o :
  journal_inv R s p o → rows s' = rows s → log s' = log s →
  (admitted s' = true → starting s' = starting s ∧ admitted s = true) → journal_inv R s' p o.
Proof.
  intros [] Hr Hl Ha. assert (owed s' = owed s) as Ho by (unfold owed; by rewrite Hr, Hl).
  split; rewrite ?Hr, ?Hl, ?Ho; auto. intros it E H. destruct (Ha H) as [E' H']. rewrite E' in E. auto.
Qed.

(** The row with an id leaves the replay, and an event says so. *)
Lemma journal_drop s s' p o id ev :
  journal_inv R s p o → (∀ it, it ∈ rows s' → it ∈ rows s) → NoDup (q_id <$> rows s') →
  owed s' = filter (λ x, q_id x ≠ id) (owed s) → log s' = log s ++ [ev] →
  (∀ i, i ∈ admitted_ids (log s') → i ∈ admitted_ids (log s) ∨ i = id) →
  (∀ it, starting s' = Some it → admitted s' = true → q_id it ∈ admitted_ids (log s')) →
  scan1 ev (p, o) = Ok (drop_row id (p, o)) →
  journal_inv R s' (delete id p) (remove_first id o).
Proof.
  intros [Hs Hn Ho Hr Hp _ Hok] Hsub Hn' Eo El Ha Hst Hev. split; rewrite ?Eo; [|done|..|done|].
  - by rewrite El, (scan_events_app _ _ _ Hs), Hev.
  - apply ro_drop; [done|by apply owed_ids_nodup].
  - intros x [Hx Hin]%list_elem_of_filter. rewrite lookup_delete_ne by done. by apply Hr.
  - intros i [Hi| ->]%Ha; [|by apply lookup_delete_eq]. apply lookup_delete_None. auto.
  - auto.
Qed.

(** A row leaves the memory, and an event says so. *)
Lemma journal_remove s s' p o l it k ev :
  journal_inv R s p o → rows s = l ++ it :: k → rows s' = l ++ k → log s' = log s ++ [ev] →
  get_str ev "type" ≠ "turn_started" →
  (admitted s' = true → starting s' = starting s ∧ admitted s = true) →
  scan1 ev (p, o) = Ok (drop_row (q_id it) (p, o)) →
  journal_inv R s' (delete (q_id it) p) (remove_first (q_id it) o).
Proof.
  intros J E E' El Hty Hst Hev. pose proof (ji_nodup _ _ _ _ J) as Hn. rewrite E in Hn.
  rewrite (drop_filter _ _ _ Hn), <-E in E'.
  assert (admitted_ids (log s') = admitted_ids (log s)) as Ea by (by rewrite El, admitted_quiet).
  apply (journal_drop s s' p o (q_id it) ev); rewrite ?E', ?Ea; [exact J|..|exact El|auto| |exact Hev].
  - by intros x [_ Hx]%list_elem_of_filter.
  - rewrite E, <-drop_filter by done. rewrite fmap_app in *. apply NoDup_app in Hn as (? & Hd & [_ ?]%NoDup_cons).
    apply NoDup_app. split_and!; [done| |done]. intros x Hx Hk. apply (Hd x Hx). by right.
  - unfold owed. rewrite E', Ea, !list_filter_filter. apply list_filter_iff. tauto.
  - intros x Hx H. destruct (Hst H) as [Hx' H']. rewrite Hx' in Hx. by apply (ji_admitted _ _ _ _ J).
Qed.

(** A row joins at the end, and an event says so. *)
Lemma journal_append s s' p o it ev :
  journal_inv R s p o → q_id it ∉ q_id <$> rows s → q_id it ∉ admitted_ids (log s) →
  row_ok it → q_durable it = true → rows s' = rows s ++ [it] → log s' = log s ++ [ev] →
  get_str ev "type" ≠ "turn_started" → starting s' = starting s → admitted s' = admitted s →
  scan1 ev (p, o) = Ok (<[q_id it := it]> p, o ++ [q_id it]) →
  journal_inv R s' (<[q_id it := it]> p) (o ++ [q_id it]).
Proof.
  intros [Hs Hn Ho Hr Hp Ha Hok] Hfr Hfa Hit Hd E El Hty Es Eb Hev.
  assert (admitted_ids (log s') = admitted_ids (log s)) as Ea by (by rewrite El, admitted_quiet).
  assert (owed s' = owed s ++ [it]) as Eo.
  { unfold owed. rewrite E, Ea, filter_app. f_equal. by rewrite filter_cons_True. }
  split; rewrite ?Eo, ?Ea, ?Es, ?Eb, ?E, ?fmap_app; [..|done|].
  - by rewrite El, (scan_events_app _ _ _ Hs).
  - apply NoDup_app. split_and!; [done| |apply NoDup_singleton].
    by intros x Hx ->%list_elem_of_singleton.
  - by apply ro_snoc.
  - intros x [Hx| ->%list_elem_of_singleton]%elem_of_app.
    + rewrite lookup_insert_ne; [by apply Hr|]. intros Heq. apply Hfr.
      rewrite Heq. apply list_elem_of_fmap_2. by apply elem_of_owed in Hx as [_ Hx].
    + exists it. rewrite lookup_insert_eq. unfold replays. by rewrite Hd.
  - intros i Hi. rewrite lookup_insert_ne; [auto|]. by intros <-.
  - intros x [Hx| ->%list_elem_of_singleton]%elem_of_app; auto.
Qed.

Lemma journal_enqueue id prompt display files purpose outcome s p o :
  journal_inv R s p o → op_fresh (OEnqueue id prompt display files purpose outcome) s →
  ∃ p' o', journal_inv R (enqueue_turn id prompt display files purpose outcome s) p' o'.
Proof.
  intros J (Hid & Hst & Hfr & Hfa & Hgood).
  set (it := new_item id prompt files purpose).
  assert (id ∉ o) as Hoid.
  { rewrite (ro_perm _ _ (ji_order _ _ _ _ J)). intros (x & Hx & [_ Hin]%elem_of_owed)%list_elem_of_fmap.
    apply Hfr. rewrite Hx. by apply list_elem_of_fmap_2. }
  assert (0 < Z.of_nat (length (queue s ++ [it]))) as Hpos by (rewrite length_app; cbn; lia).
  pose proof (scan_queued it (PStr display) _ p o Hid Hoid eq_refl eq_refl eq_refl eq_refl
                ltac:(done) Hpos) as Hev.
  assert (journal_inv R (s {{ queue := queue s ++ [it];
      log := log s ++ [turn_queued_event it (PStr display) (Z.of_nat (length (queue s ++ [it])))] }})
      (<[q_id it := it]> p) (o ++ [q_id it])) as J'.
  { eapply (journal_append s); [done|exact Hfr|exact Hfa|by apply row_ok_new|done| |done| |done|done|done].
    - unfold rows. cbn. by rewrite app_assoc.
    - by rewrite (get_str_PStr _ _ "turn_queued"). }
  destruct outcome; cbn [enqueue_turn]; fold it; [eauto|eauto|].
  do 2 eexists. eapply (journal_remove _ _ _ _ (rows s) it [] _ J'); [..|by apply scan_unqueued].
  - unfold rows. cbn. by rewrite app_assoc.
  - by rewrite app_nil_r.
  - cbn. by rewrite <-app_assoc.
  - by rewrite (get_str_PStr _ _ "turn_unqueued").
  - done.
Qed.

Lemma journal_unqueue id durable s s' p o :
  journal_inv R s p o → unqueue_turn id durable s = Ok s' → ∃ p' o', journal_inv R s' p' o'.
Proof.
  intros J E. unfold unqueue_turn in E.
  destruct (list_find _ _) as [[i it]|] eqn:Ef; [|done]. inv_res.
  apply list_find_Some in Ef as (Hi & _ & _).
  pose proof (ji_ok _ _ _ _ J it) as Hit. specialize (Hit ltac:(apply elem_of_app; right; by eapply list_elem_of_lookup_2)).
  do 2 eexists. eapply (journal_remove s _ _ _ (option_list (starting s) ++ take i (queue s)) it
    (drop (S i) (queue s)) _ J); [..|done| |done|by apply scan_unqueued, Hit].
  - unfold rows. rewrite <-app_assoc. f_equal. symmetry. by apply take_drop_middle.
  - unfold rows. cbn. by rewrite delete_take_drop, app_assoc.
  - by rewrite (get_str_PStr _ _ "turn_unqueued").
Qed.

Lemma starting_ok it s p o : journal_inv R s p o → starting s = Some it → q_id it ≠ "".
Proof. intros J Es. apply (ji_ok _ _ _ _ J it). unfold rows. rewrite Es. left. Qed.

(** The turn being started is admitted: the row stays in memory only. *)
Lemma journal_admit s p o :
  journal_inv R s p o → ∃ p' o', journal_inv R (persist_turn_acceptance s) p' o'.
Proof.
  intros J. unfold persist_turn_acceptance. destruct (starting s) as [it|] eqn:Es; [|eauto].
  destruct (admitted s); [eauto|].
  assert (∀ i, i ∈ admitted_ids (log s ++ [turn_started_event it]) ↔ i ∈ admitted_ids (log s) ∨ i = q_id it) as Ha.
  { intros i. by rewrite admitted_started, elem_of_app, list_elem_of_singleton. }
  do 2 eexists. apply (journal_drop _ _ _ _ (q_id it) (turn_started_event it) J); cbn [log starting admitted];
    [done|apply (ji_nodup _ _ _ _ J)| |reflexivity|by intros i Hi%Ha| |].
  - unfold owed. rewrite list_filter_filter. apply list_filter_iff. cbn [log].
    intros x. rewrite Ha. tauto.
  - intros x E _. change (starting s = Some x) in E. rewrite Es in E. injection E as <-. apply Ha. by right.
  - apply scan_started. by eapply starting_ok.
Qed.

(** The run has the row, which a replay did not know any more. *)
Lemma journal_launch s p o :
  journal_inv R s p o → journal_inv R (commit_provider_task s) p o.
Proof.
  intros J. unfold commit_provider_task. destruct (starting s) as [it|] eqn:Es; [|done].
  destruct (admitted s) eqn:Eb; [|done]. destruct J as [Hs Hn Ho Hr Hp Ha Hok].
  pose proof (Ha _ Es Eb) as Hin. unfold rows in Hn, Hok. rewrite Es in Hn, Hok. cbn in Hn, Hok.
  assert (owed (s {{ starting := None; admitted := false }}) = owed s) as Eo.
  { unfold owed at 2. unfold rows. rewrite Es. change (option_list (Some it) ++ queue s) with (it :: queue s).
    rewrite filter_cons_False; [done|]. intros H. by apply H. }
  split; rewrite ?Eo; try done.
  - by apply NoDup_cons in Hn as [_ Hn].
  - intros x Hx. apply Hok. by right.
Qed.

(** The log notes that an admitted run stopped. *)
Lemma journal_stopped s p o :
  journal_inv R s p o → journal_inv R (settle_precommit_failure s) p o.
Proof.
  intros J. unfold settle_precommit_failure. destruct (starting s) as [it|] eqn:Es; [|done].
  destruct (admitted s) eqn:Eb; [|done]. destruct J as [Hs Hn Ho Hr Hp Ha Hok].
  set (s' := s {{ log := log s ++ [turn_stopped_event it] }}).
  assert (admitted_ids (log s') = admitted_ids (log s)) as Ea.
  { apply admitted_quiet. by rewrite (get_str_PStr _ _ "turn_stopped"). }
  assert (owed s' = owed s) as Eo by (unfold owed; by rewrite Ea).
  split; rewrite ?Ea, ?Eo; try done.
  change (log s') with (log s ++ [turn_stopped_event it]). by rewrite (scan_events_app _ _ _ Hs), scan_stopped.
Qed.

Lemma rows_take s : rows (take_head s) = rows s.
Proof.
  unfold take_head, rows. destruct s as [q [x|] b l]; cbn; [done|].
  destruct q as [|it q]; [done|]. by destruct (_ || _).
Qed.

Lemma rows_requeue s : rows (requeue_turn_front s) = rows s.
Proof. unfold requeue_turn_front, rows. by destruct s as [q [x|] b l]. Qed.

Lemma journal_requeue s p o : journal_inv R s p o → journal_inv R (requeue_turn_front s) p o.
Proof.
  intros J. apply (journal_same s); [done|apply rows_requeue|..]; unfold requeue_turn_front;
    destruct (starting s) eqn:Es; cbn; rewrite ?Es; done.
Qed.

Lemma journal_take s p o : journal_inv R s p o → journal_inv R (take_head s) p o.
Proof.
  intros J. pose proof (rows_take s) as Er. unfold take_head in *.
  destruct (starting s) eqn:Es; [done|]. destruct (queue s) as [|it q]; [done|].
  destruct (_ || _); [done|]. eapply journal_same; [done|done|done|]. done.
Qed.

Lemma journal_discard durable s p o :
  journal_inv R s p o → ∃ p' o', journal_inv R (terminally_discard durable s) p' o'.
Proof.
  intros J. unfold terminally_discard. destruct (starting s) as [it|] eqn:Es; [|eauto].
  destruct durable; [|do 2 eexists; by apply journal_requeue].
  do 2 eexists. eapply (journal_remove s _ _ _ [] it (queue s) _ J); [..|by apply scan_unqueued; eapply starting_ok].
  - unfold rows. by rewrite Es.
  - done.
  - done.
  - by rewrite (get_str_PStr _ _ "turn_unqueued").
  - done.
Qed.

Lemma hold_lookup ids p i :
  foldl (flip hold) p ids !! i =
    if decide (i ∈ ids) then (λ it, it {{ q_paused := true }}) <$> p !! i else p !! i.
Proof.
  revert p. induction ids as [|j ids IH]; intros p; [done|]. cbn [foldl]. rewrite IH.
  unfold flip, hold. destruct (decide (i = j)) as [->|Hij].
  - rewrite lookup_alter_eq. rewrite (decide_True _ _ (list_elem_of_here j ids)).
    case_decide; [|done]. by destruct (p !! j).
  - rewrite lookup_alter_ne by done. apply decide_ext. rewrite elem_of_cons. naive_solver.
Qed.

(** The live side of the same hold. *)
Definition held (durable : bool) (ids : list string) (it : qitem) : qitem :=
  if str_in (q_id it) ids then it {{ q_paused := true; q_durable := durable && q_durable it }} else it.

Lemma held_id durable ids it : q_id (held durable ids it) = q_id it.
Proof. unfold held. by destruct (str_in _ _). Qed.

Lemma held_ids durable ids (q : list qitem) : q_id <$> (held durable ids <$> q) = q_id <$> q.
Proof. induction q as [|it q IH]; [done|]. by rewrite !fmap_cons, held_id, IH. Qed.

Lemma held_ok durable ids it : row_ok it → row_ok (held durable ids it).
Proof. unfold held. by destruct (str_in _ _), it. Qed.

Lemma held_replays durable ids p it :
  (∃ it', p !! q_id it = Some it' ∧ replays it' it) →
  ∃ it', (if durable then foldl (flip hold) p ids else p) !! q_id it = Some it'
    ∧ replays it' (held durable ids it).
Proof.
  intros (it' & Hp & Hd & He). unfold held.
  destruct (str_in (q_id it) ids) eqn:Ein; destruct durable; rewrite ?hold_lookup, ?Hp; cbn.
  - apply str_in_elem in Ein. rewrite decide_True by done. eexists. split; [done|].
    split; [done|]. destruct (q_durable it); subst it; destruct it'; cbn in *; by subst.
  - eexists. split; [done|]. split; [done|]. rewrite He. by destruct (q_durable it).
  - apply str_in_false in Ein. rewrite decide_False by done. eexists. by split.
  - eexists. by split.
Qed.

Lemma pause_as_held durable s :
  (∀ it, it ∈ queue s → strip (q_id it) = q_id it) →
  let ids := q_id <$> filter (λ it, holdable it = true) (queue s) in
  (pause_queued_turns durable s).1 =
    if bool_decide (ids = []) then s
    else s {{ queue := held durable ids <$> queue s;
              log := if durable then log s ++ [turn_queue_paused_event ids] else log s }}.
Proof.
  intros Hst ids. unfold pause_queued_turns.
  assert ((λ it, strip (q_id it)) <$> filter (λ it, holdable it = true) (queue s) = ids) as ->.
  { apply list_fmap_ext. intros i it Hi%list_elem_of_lookup_2.
    apply list_elem_of_filter in Hi as [_ Hi]. by apply Hst. }
  destruct ids as [|i ids]; [done|]. cbn -[str_in turn_queue_paused_event]. f_equal.
  apply list_fmap_ext. intros j it Hj%list_elem_of_lookup_2. unfold held. by rewrite Hst.
Qed.

Lemma journal_pause durable s p o :
  journal_inv R s p o → ∃ p' o', journal_inv R (pause_queued_turns durable s).1 p' o'.
Proof.
  intros J. rewrite pause_as_held by (intros it Hit; apply (ji_ok _ _ _ _ J), elem_of_app; by right).
  case_bool_decide; [eauto|].
  set (ids := q_id <$> filter (λ it, holdable it = true) (queue s)).
  exists (if durable then foldl (flip hold) p ids else p), o.
  set (s' := s {{ queue := held durable ids <$> queue s; log := _ }}).
  assert (admitted_ids (log s') = admitted_ids (log s)) as Ea.
  { subst s'. destruct durable; [|done]. apply admitted_quiet. by rewrite (get_str_PStr _ _ "turn_queue_paused"). }
  destruct J as [Hs Hn Ho Hr Hp Ha Hok].
  assert (rows s' = option_list (starting s) ++ (held durable ids <$> queue s)) as Er by done.
  assert (∀ it, it ∈ rows s' → ∃ it0, it0 ∈ rows s ∧ it = held durable ids it0) as Hin.
  { intros it. rewrite Er. intros [Hit|Hit]%elem_of_app.
    - exists it. split; [apply elem_of_app; by left|]. unfold held.
      rewrite (proj2 (str_in_false _ _)); [done|].
      intros (x & Hid & Hx)%list_elem_of_fmap. apply list_elem_of_filter in Hx as [_ Hx].
      unfold rows in Hn. rewrite fmap_app in Hn. apply NoDup_app in Hn as (_ & Hn & _).
      apply (Hn (q_id it)); [by apply list_elem_of_fmap_2|]. rewrite Hid. by apply list_elem_of_fmap_2.
    - apply list_elem_of_fmap in Hit as (it0 & -> & Hit). exists it0. split; [|done]. apply elem_of_app. by right. }
  assert (q_id <$> rows s' = q_id <$> rows s) as Eids.
  { rewrite Er. unfold rows. by rewrite !fmap_app, held_ids. }
  split; rewrite ?Ea, ?Eids; [|done| | |intros i Hi|done|].
  - subst s'. destruct durable; [|done]. cbn. by rewrite (scan_events_app _ _ _ Hs), scan_paused.
  - by rewrite !owed_ids, Ea, Eids, <-owed_ids.
  - intros it [Hna Hit]%elem_of_owed. rewrite Ea in Hna. destruct (Hin _ Hit) as (it0 & Hit0 & ->).
    rewrite held_id in *. apply held_replays, Hr, elem_of_owed. done.
  - destruct durable; [|auto]. rewrite hold_lookup, (Hp i Hi). by case_decide.
  - intros it Hit. destruct (Hin _ Hit) as (it0 & Hit0 & ->). by apply held_ok, Hok.
Qed.

(** A reorder: the replay lists the queued rows it knows first. *)
Lemma journal_move id direction expected durable s s' p o :
  journal_inv R s p o → move_queued_turn id direction expected durable s = Ok s' →
  (∀ a b c, o ≡ₚ a ++ b → (starting s = None → a = []) → b ≡ₚ c → NoDup (a ++ b) →
    R o (a ++ b) → R (c ++ filter (λ i, i ∉ c) o) (a ++ c)) →
  ∃ o', journal_inv R s' p o'.
Proof.
  intros [Hs Hn Ho Hr Hp Ha Hok] E HR. unfold move_queued_turn in E.
  destruct (index_of _ _) as [idx|]; [|by inv_res]. inv_res.
  match goal with |- context [if ?c then queue s else swap ?i ?j _] =>
    assert ((if c then queue s else swap i j (queue s)) ≡ₚ queue s) as Hq
      by (destruct c; [done|apply swap_perm]);
    revert Hq; generalize (if c then queue s else swap i j (queue s)); intros q Hq end.
  match goal with |- context [log s ++ [?ev]] =>
    assert (admitted_ids (log s ++ [ev]) = admitted_ids (log s)) as Ea
      by (apply admitted_quiet; by rewrite (get_str_PStr _ _ "turn_queue_reordered")) end.
  assert (∀ x, x ∈ option_list (starting s) ++ q ↔ x ∈ rows s) as Hin
    by (intros ?; unfold rows; by rewrite Hq).
  set (P i := i ∉ admitted_ids (log s)).
  assert (filter (λ i, is_Some (p !! i)) (q_id <$> q) = filter P (q_id <$> q)) as Hseen.
  { apply list_filter_agree. intros i (it & -> & Hit)%list_elem_of_fmap. unfold P. split.
    - intros [y Hy] Hi. by rewrite (Hp _ Hi) in Hy.
    - intros Hi. destruct (Hr it) as (y & -> & _); [|done]. apply elem_of_owed. split; [done|].
      apply Hin, elem_of_app. by right. }
  pose proof (owed_ids_nodup _ Hn) as Hno.
  rewrite owed_ids in Ho, Hno. unfold rows in Ho, Hno. rewrite fmap_app, filter_app in Ho, Hno.
  eexists. split; rewrite ?owed_ids; unfold rows; cbn [log queue starting admitted]; rewrite ?Ea.
  - rewrite (scan_events_app _ _ _ Hs). apply scan_reordered.
  - by rewrite Hq.
  - rewrite Hseen, fmap_app, filter_app. eapply HR; [by apply ro_perm in Ho| | |exact Hno|exact Ho].
    + intros Es. match goal with |- context [option_list ?x] => change x with (starting s) end. by rewrite Es.
    + by rewrite Hq.
  - intros it Hit. apply Hr. apply elem_of_owed in Hit as [Hna Hit].
    cbn [log] in Hna. rewrite Ea in Hna. apply elem_of_owed. split; [done|]. by apply Hin.
  - done.
  - done.
  - intros it Hit%Hin. by apply Hok.
Qed.

(** The steps other than a reorder. *)
Lemma journal_step op s s' p o :
  journal_inv R s p o → queue_step op s s' →
  match op with OMove _ _ _ _ => False | _ => True end →
  ∃ p' o', journal_inv R s' p' o'.
Proof.
  intros J [Hfr E] Hop. destruct op; cbn [queue_apply] in E; try done;
    [| by eapply journal_unqueue | injection E as <-..].
  - injection E as <-. by eapply journal_enqueue.
  - by apply (journal_pause _ _ p o).
  - do 2 eexists. by apply journal_take.
  - do 2 eexists. by apply journal_requeue.
  - by eapply journal_admit.
  - do 2 eexists. by apply journal_launch.
  - do 2 eexists. by apply journal_stopped.
  - by eapply journal_discard.
Qed.
End preservation.

Lemma journal_empty R `{!ReplayOrder R} : journal_inv R empty_queue ∅ [].
Proof.
  split; [done|apply NoDup_nil_2|apply ro_refl|..].
  - intros it H. by apply elem_of_nil in H.
  - done.
  - done.
  - intros it H. by apply elem_of_nil in H.
Qed.

Lemma journal_reachable s :
  reachable empty_queue queue_step s → ∃ p o, journal_inv (≡ₚ) s p o.
Proof.
  revert s. apply reachable_invariant; [do 2 eexists; apply journal_empty, _|].
  intros op s1 s2 (p & o & J) Hst. destruct op; try by eapply (journal_step (≡ₚ)).
  destruct Hst as [_ E]. eexists. eapply (journal_move (≡ₚ)); [done|exact E|].
  intros a b c Ho _ Hbc Hn _. rewrite Ho, Hbc in *. by rewrite filter_unlisted, Permutation_app_comm.
Qed.

Lemma journal_calm s :
  reachable empty_queue calm_step s → ∃ p o, journal_inv (=) s p o.
Proof.
  revert s. apply reachable_invariant; [do 2 eexists; apply journal_empty, _|].
  intros op s1 s2 (p & o & J) [Hst Hc]. destruct op; try by eapply (journal_step (=)).
  destruct Hst as [_ E]. eexists. eapply (journal_move (=)); [done|exact E|].
  intros a b c _ Ha Hbc _ ->. rewrite (Ha Hc). cbn [app].
  rewrite (list_filter_none _ b), app_nil_r; [done|]. intros i Hi Hni. apply Hni. by rewrite <-Hbc.
Qed.

(** The rows the replay gives. *)
Lemma scan_rows R s p o :
  journal_inv R s p o → Forall2 replays (scan_result (p, q_id <$> owed s)) (owed s).
Proof.
  intros [_ _ _ Hr _ _ Hok]. unfold scan_result. cbn [fst snd].
  assert (∀ l, (∀ it, it ∈ l → it ∈ owed s) →
    Forall2 replays (filter (λ it, recoverable_row it = true) (omap (λ id, p !! id) (q_id <$> l))) l)
    as H; [|by apply H].
  induction l as [|it l IH]; intros Hl; [constructor|].
  destruct (Hr it) as (it' & Hp & Hrep); [apply Hl; left|]. cbn. rewrite Hp.
  destruct (Hok it) as (_ & _ & Hgood); [apply (elem_of_owed s), Hl; left|].
  rewrite filter_cons_True.
  - constructor; [done|]. apply IH. intros x Hx. apply Hl. by right.
  - destruct Hrep as [_ E]. rewrite E in Hgood. by destruct (q_durable it).
Qed.
End replay_events.

(** ** Runs *)

#[global] Instance op_fresh_dec op s : Decision (op_fresh op s).
Proof. destruct op; apply _. Defined.

(** A run, checking that the ids are fresh and, if asked, that no reorder meets
    a turn being started. *)
Fixpoint queue_run (calm : bool) (ops : list queue_op) (s : chat_queue) : res chat_queue :=
  match ops with
  | [] => Ok s
  | op :: ops =>
      _ ← raise_if (negb (bool_decide (op_fresh op s))) (ValueError "not fresh");
      _ ← raise_if (calm && match op with OMove _ _ _ _ => bool_decide (starting s ≠ None) | _ => false end)
            (ValueError "not calm");
      s' ← queue_apply op s; queue_run calm ops s'
  end.

Lemma queue_run_calm ops s s' :
  reachable empty_queue calm_step s → queue_run true ops s = Ok s' → reachable empty_queue calm_step s'.
Proof.
  revert s. induction ops as [|op ops IH]; intros s Hs E; cbn in E; inv_res; [done|].
  eapply IH; [|eassumption]. eapply reachable_step; [done|]. split; [split; [|eassumption]|].
  - by eapply bool_decide_eq_true, negb_false_iff.
  - destruct op; try done. cbn in *. by destruct (starting s).
Qed.

Lemma calm_reachable s : reachable empty_queue calm_step s → reachable empty_queue queue_step s.
Proof. induction 1 as [|? ? ? ? IH [Hs _]]; [constructor|]. by eapply reachable_step. Qed.

Lemma queue_run_reachable calm ops s s' :
  reachable empty_queue queue_step s → queue_run calm ops s = Ok s' → reachable empty_queue queue_step s'.
Proof.
  revert s. induction ops as [|op ops IH]; intros s Hs E; cbn in E; inv_res; [done|].
  eapply IH; [|eassumption]. eapply reachable_step; [done|]. split; [|eassumption].
  by eapply bool_decide_eq_true, negb_false_iff.
Qed.

(** ** Replay and live queue *)


(** C30: when no reorder meets a turn being started, a restart rebuilds the
    queue in its order: the rows in memory that no run was admitted for, one
    being started in front; and when they are durable, exactly these rows. *)
Theorem replay_rebuilds parse s :
  reachable empty_queue calm_step s →
  ∃ l, scan_queued_turns parse (log s) = Ok l ∧ Forall2 replays l (owed s)
    ∧ (Forall (λ it, q_durable it = true) (owed s) → l = owed s).
Proof.
  intros (p & o & J)%(journal_calm parse). unfold scan_queued_turns.
  rewrite (ji_scan _ _ _ _ _ J), (ji_order _ _ _ _ _ J). eexists. split; [done|].
  pose proof (scan_rows _ _ _ _ _ J) as Hl. split; [done|].
  by apply replays_durable.
Qed.

Definition add (id : string) : queue_op := OEnqueue id ("say " +:+ id) "shown" [] PNone Accepted.

(** Three messages; the first is being started while the user moves the third
    up; it cannot be started, and goes back to the front. *)
Definition overtaken : list queue_op :=
  [add "a"; add "b"; add "c"; OTake; OMove "c" "up" None true; ORequeue].

(** A reorder written while the first message is being started puts it last in
    the replay, although it is first in the live queue. *)
Theorem reorder_during_start_replays_last :
  ∃ s, reachable empty_queue queue_step s
    ∧ map q_id (queue s) = ["a"; "c"; "b"]
    ∧ (l ← scan_queued_turns (λ _ _, []) (log s); Ok (map q_id l)) = Ok ["c"; "b"; "a"].
Proof.
  eexists. split; [eapply (queue_run_reachable false overtaken); [constructor|reflexivity]|].
  split; vm_compute; reflexivity.
Qed.

(** The first message is admitted and fails afterwards: it is requeued, and Stop
    holds all three. *)
Definition stopped : list queue_op :=
  [add "a"; add "b"; add "c"; OTake; OAdmit; OStopped; ORequeue; OPause true; OUnqueue "b" true].


Theorem replay_rebuilds_witness :
  ∃ s, queue_run true stopped empty_queue = Ok s ∧ map q_id (rows s) = ["a"; "c"] ∧
    map q_id (owed s) = ["c"] ∧ scan_queued_turns (λ _ _, []) (log s) = Ok (owed s).
Proof.
  eexists. split; [reflexivity|]. split; [reflexivity|]. split; [reflexivity|].
  destruct (replay_rebuilds (λ _ _, []) _
    (queue_run_calm stopped empty_queue _ (reachable_init _ _) eq_refl)) as (l & Hl & _ & Hd).
  rewrite Hl. f_equal. apply Hd. repeat constructor.
Defined.
