(* ===== verification/TurnQueueMoves.v ===== *)
(** * What the operations on a chat's queue promise

    Reorder and removal, exactly; a message that left its queue never comes
    back; a message Stop holds is not started, neither by the live queue nor by
    one rebuilt from the log. *)
From S2P Require Import Prelude PyValues TurnQueue TurnQueueSpec.

Open Scope string_scope.
Open Scope Z_scope.
Open Scope list_scope.

(** ** Where the rows of a step come from *)

Definition enqueues (op : queue_op) (id : string) : Prop :=
  match op with OEnqueue i _ _ _ _ _ => i = id | _ => False end.

Lemma move_rows id direction expected durable s s' :
  move_queued_turn id direction expected durable s = Ok s' →
  queue s' ≡ₚ queue s ∧ starting s' = starting s.
Proof.
  intros E. unfold move_queued_turn in E. destruct (index_of _ _); [|by inv_res]. inv_res.
  split; [|done]. cbn. match goal with |- (if ?c then _ else _) ≡ₚ _ => destruct c end; [done|apply swap_perm].
Qed.

Lemma unqueue_rows id durable s s' :
  unqueue_turn id durable s = Ok s' →
  ∃ i it, queue s !! i = Some it ∧ q_id it = id
    ∧ (∀ j x, queue s !! j = Some x → (j < i)%nat → q_id x ≠ id)
    ∧ purpose_in CROSS_CHAT_DELIVERY_PURPOSES it = false ∧ durable = true
    ∧ queue s' = delete i (queue s) ∧ starting s' = starting s.
Proof.
  intros E. unfold unqueue_turn in E. destruct (list_find _ _) as [[i it]|] eqn:Ef; [|done]. inv_res.
  apply list_find_Some in Ef as (Hi & Hid & Hfirst). exists i, it.
  split_and!; try done. by apply negb_false_iff.
Qed.

(** A row of the queue after a step. *)
Lemma queue_origin op s s' it' :
  queue_step op s s' → it' ∈ queue s' →
  enqueues op (q_id it')
  ∨ (∃ it, it ∈ queue s ∧ q_id it = q_id it' ∧ (q_paused it = true → q_paused it' = true))
  ∨ starting s = Some it'.
Proof.
  intros [_ E] Hit. destruct op; cbn [queue_apply] in E; [| | |injection E as <-..].
  - injection E as <-. unfold enqueue_turn in Hit. destruct o; cbn in Hit; eauto 6.
    apply elem_of_app in Hit as [Hit| ->%list_elem_of_singleton]; [eauto 6|by left].
  - apply unqueue_rows in E as (i & it & _ & _ & _ & _ & _ & Hq & _). rewrite Hq in Hit.
    right; left. exists it'. split; [|done]. by eapply list_elem_of_delete_inv.
  - apply move_rows in E as [Hq _]. rewrite Hq in Hit. eauto 6.
  - unfold pause_queued_turns in Hit. destruct (_ <$> filter _ _); [eauto 6|]. cbn in Hit.
    apply list_elem_of_fmap in Hit as (it & -> & Hit). right; left. exists it.
    by destruct (_ || _).
  - unfold take_head in Hit. destruct (starting s); [eauto 6|].
    destruct (queue s) as [|x q] eqn:Eq; [rewrite Eq in Hit; eauto 6|].
    destruct (_ || _); [rewrite Eq in Hit; eauto 6|]. cbn in Hit.
    right; left. exists it'. split; [by right|done].
  - unfold requeue_turn_front in Hit. destruct (starting s) as [x|]; [|eauto 6].
    apply elem_of_cons in Hit as [->|Hit]; eauto 6.
  - unfold persist_turn_acceptance in Hit. destruct (starting s), (admitted s); eauto 6.
  - unfold commit_provider_task in Hit. destruct (starting s), (admitted s); eauto 6.
  - unfold settle_precommit_failure in Hit. destruct (starting s), (admitted s); eauto 6.
  - unfold terminally_discard, requeue_turn_front in Hit.
    destruct (starting s) as [x|]; [|eauto 6]. destruct durable; [eauto 6|].
    apply elem_of_cons in Hit as [->|Hit]; eauto 6.
Qed.

(** The row being started after a step. *)
Lemma starting_origin op s s' it :
  queue_step op s s' → starting s' = Some it →
  starting s = Some it ∨ it ∈ queue s ∧ q_paused it = false ∧ q_durable it = true.
Proof.
  intros [_ E] Hit. destruct op; cbn [queue_apply] in E; [| | |injection E as <-..].
  - injection E as <-. left. by destruct o.
  - apply unqueue_rows in E as (_ & _ & _ & _ & _ & _ & _ & _ & Hs). left. by rewrite <-Hs.
  - apply move_rows in E as [_ Hs]. left. by rewrite <-Hs.
  - left. unfold pause_queued_turns in Hit. by destruct (_ <$> filter _ _).
  - unfold take_head in Hit. destruct (starting s) eqn:Es; [left; congruence|].
    destruct (queue s) as [|x q]; [congruence|].
    destruct (q_durable x) eqn:Ed, (q_paused x) eqn:Ep; cbn in Hit; try congruence.
    injection Hit as <-. right. split; [left|done].
  - unfold requeue_turn_front in Hit. destruct (starting s) eqn:Es; [done|congruence].
  - left. unfold persist_turn_acceptance in Hit.
    destruct (starting s) eqn:Es, (admitted s); try (rewrite <-Es; exact Hit); done.
  - left. unfold commit_provider_task in Hit.
    destruct (starting s) eqn:Es, (admitted s); try (rewrite <-Es; exact Hit); done.
  - left. unfold settle_precommit_failure in Hit.
    destruct (starting s) eqn:Es, (admitted s); try (rewrite <-Es; exact Hit); done.
  - unfold terminally_discard, requeue_turn_front in Hit.
    destruct (starting s) eqn:Es; [by destruct durable|congruence].
Qed.

Lemma rows_origin op s s' id :
  queue_step op s s' → id ∈ q_id <$> rows s' → enqueues op id ∨ id ∈ q_id <$> rows s.
Proof.
  intros Hst (it & -> & [Hit|Hit]%elem_of_app)%list_elem_of_fmap; unfold rows; rewrite fmap_app.
  - destruct (starting s') as [x|] eqn:Es; [|by apply elem_of_nil in Hit].
    apply list_elem_of_singleton in Hit as ->. right. apply elem_of_app.
    destruct (starting_origin _ _ _ _ Hst Es) as [->|[Hx _]]; [left; left|right].
    by apply list_elem_of_fmap_2.
  - destruct (queue_origin _ _ _ _ Hst Hit) as [He|[(x & Hx & <- & _)|Hs]]; [by left|right..];
      apply elem_of_app; [right; by apply list_elem_of_fmap_2|]. rewrite Hs. left. left.
Qed.

(** ** Runs that do not enqueue an id again *)

Lemma steps_invariant (I : chat_queue → Prop) id s ops s' :
  (∀ op s s', I s → ¬ enqueues op id → queue_step op s s' → I s') →
  I s → steps queue_step s ops s' → (∀ op, op ∈ ops → ¬ enqueues op id) → I s'.
Proof.
  intros Hstep Hs H. induction H as [|s op s1 ops s' Hst _ IH]; intros Hops; [done|].
  apply IH; [|intros; apply Hops; by right]. eapply Hstep; [done| |done]. apply Hops. left.
Qed.

Lemma replays_ids l q : Forall2 replays l q → map q_id l = map q_id q.
Proof.
  induction 1 as [|x y l q [_ ->] _ IH]; [done|]. cbn. rewrite IH. by destruct (q_durable y).
Qed.

(** What the replay gives for a reachable queue, row by row. *)
Lemma replay_row parse s l x :
  reachable empty_queue queue_step s → scan_queued_turns parse (log s) = Ok l → x ∈ l →
  ∃ it, it ∈ rows s ∧ q_id it ∉ admitted_ids (log s) ∧ replays x it.
Proof.
  intros Hs E Hx. destruct (journal_reachable parse s Hs) as (p & o & J).
  unfold scan_queued_turns in E. rewrite (ji_scan _ _ _ _ _ J) in E. injection E as <-.
  pose proof (scan_rows _ _ _ _ _ J) as HF.
  assert (x ∈ scan_result (p, q_id <$> owed s)) as Hx'.
  { unfold scan_result in *. cbn in *. by rewrite (ji_order _ _ _ _ _ J) in Hx. }
  apply list_elem_of_lookup in Hx' as [i Hi].
  destruct (Forall2_lookup_l _ _ _ _ _ HF Hi) as (it & Hit & Hrep).
  apply list_elem_of_lookup_2, elem_of_owed in Hit as [? ?]. eauto.
Qed.

Lemma replays_id x it : replays x it → q_id x = q_id it.
Proof. intros [_ ->]. by destruct (q_durable it). Qed.

(** a message that left the queue, started or removed, is
    neither in the live queue again nor in one rebuilt after a restart. *)
Theorem left_rows_stay_out parse id s ops s' :
  reachable empty_queue queue_step s → id ∉ q_id <$> rows s →
  steps queue_step s ops s' → (∀ op, op ∈ ops → ¬ enqueues op id) →
  id ∉ q_id <$> rows s' ∧ ∀ l, scan_queued_turns parse (log s') = Ok l → id ∉ q_id <$> l.
Proof.
  intros Hr Hs Hrun Hops.
  assert (id ∉ q_id <$> rows s') as Hs'.
  { eapply (steps_invariant (λ s, id ∉ q_id <$> rows s)); [|exact Hs|exact Hrun|exact Hops].
    intros op s1 s2 H1 Hop Hst H2. by destruct (rows_origin _ _ _ _ Hst H2). }
  split; [done|]. intros l El (x & -> & Hx)%list_elem_of_fmap. apply Hs'.
  destruct (replay_row parse _ _ _ (reachable_steps _ _ _ _ _ Hr Hrun) El Hx) as (it & Hit & _ & Hrep).
  rewrite (replays_id _ _ Hrep). by apply list_elem_of_fmap_2.
Qed.

(** What the log has admitted it goes on admitting. *)
Lemma admitted_step op s s' id :
  queue_step op s s' → id ∈ admitted_ids (log s) → id ∈ admitted_ids (log s').
Proof.
  intros [_ E] Hid. assert (∃ evs, log s' = log s ++ evs) as [evs ->].
  { destruct op; cbn [queue_apply] in E; [|unfold unqueue_turn in E|unfold move_queued_turn in E|injection E as <-..].
    - injection E as <-. destruct o; cbn; eauto. exists []. by rewrite app_nil_r.
    - destruct (list_find _ _) as [[i it]|]; inv_res. by eexists.
    - destruct (index_of _ _); inv_res. by eexists.
    - unfold pause_queued_turns. destruct (_ <$> filter _ _), durable; cbn; eauto; exists []; by rewrite app_nil_r.
    - exists []. rewrite app_nil_r. unfold take_head. by repeat case_match.
    - exists []. rewrite app_nil_r. unfold requeue_turn_front. by case_match.
    - unfold persist_turn_acceptance. repeat case_match; cbn; eauto; exists []; by rewrite app_nil_r.
    - exists []. rewrite app_nil_r. unfold commit_provider_task. by repeat case_match.
    - unfold settle_precommit_failure. repeat case_match; cbn; eauto; exists []; by rewrite app_nil_r.
    - unfold terminally_discard, requeue_turn_front. repeat case_match; cbn; eauto; exists []; by rewrite app_nil_r. }
  unfold admitted_ids in *. rewrite filter_app, fmap_app. apply elem_of_app. by left.
Qed.

(** C32: A message whose start fails after its [turn_started] event, and which is
    then requeued at the front of the live queue, is in memory only: whatever
    happens later, no restart gives it back. *)
Theorem failed_start_not_replayed parse it s ops s' :
  reachable empty_queue queue_step s → starting s = Some it → admitted s = true →
  steps queue_step (requeue_turn_front s) ops s' →
  (∃ q, queue (requeue_turn_front s) = it :: q) ∧
  ∀ l, scan_queued_turns parse (log s') = Ok l → q_id it ∉ q_id <$> l.
Proof.
  intros Hr Es Ha Hrun. split; [unfold requeue_turn_front; rewrite Es; by eexists|].
  destruct (journal_reachable parse s Hr) as (p & o & J).
  assert (q_id it ∈ admitted_ids (log (requeue_turn_front s))) as Hid.
  { unfold requeue_turn_front. rewrite Es. by apply (ji_admitted _ _ _ _ _ J). }
  assert (reachable empty_queue queue_step (requeue_turn_front s)) as Hr'
    by (eapply reachable_step with (l := ORequeue); [done|by split]).
  assert (q_id it ∈ admitted_ids (log s')) as Hid'.
  { clear Hr' J. induction Hrun as [|? ? ? ? ? Hst]; [done|]. eauto using admitted_step. }
  intros l El (x & Hx & Hin)%list_elem_of_fmap.
  destruct (replay_row parse _ _ _ (reachable_steps _ _ _ _ _ Hr' Hrun) El Hin) as (it' & _ & Hn & Hrep).
  apply Hn. by rewrite <-(replays_id _ _ Hrep), <-Hx.
Qed.

(** a message that Stop holds is not started by any later step, and
    stays held; a restart after those steps holds it too unless the hold could
    not be written. *)
Theorem held_rows_are_not_started parse id s ops s' :
  reachable empty_queue queue_step s →
  (∀ it, it ∈ queue s → q_id it = id → q_paused it = true) →
  (∀ it, starting s = Some it → q_id it ≠ id) →
  steps queue_step s ops s' → (∀ op, op ∈ ops → ¬ enqueues op id) →
  (∀ it, starting s' = Some it → q_id it ≠ id) ∧
  (∀ it, it ∈ queue s' → q_id it = id → q_paused it = true) ∧
  (∀ l x, scan_queued_turns parse (log s') = Ok l → x ∈ l → q_id x = id →
    q_paused x = true ∨ ∃ it, it ∈ queue s' ∧ q_id it = id ∧ q_durable it = false).
Proof.
  intros Hr Hq Hst Hrun Hops.
  assert ((∀ it, it ∈ queue s' → q_id it = id → q_paused it = true)
    ∧ ∀ it, starting s' = Some it → q_id it ≠ id) as [Hq' Hst'].
  { eapply (steps_invariant (λ s, (∀ it, it ∈ queue s → q_id it = id → q_paused it = true)
      ∧ ∀ it, starting s = Some it → q_id it ≠ id)); [|by split|exact Hrun|exact Hops].
    clear. intros op s s' [Hq Hst] Hop Hs. split; intros it Hit.
    - intros <-. destruct (queue_origin _ _ _ _ Hs Hit) as [He|[(x & Hx & Hid & Hp)|Hx]];
        [done|auto|by destruct (Hst _ Hx)].
    - destruct (starting_origin _ _ _ _ Hs Hit) as [Hx|(Hx & Hp & _)]; [by apply Hst|].
      intros Hid. by rewrite (Hq _ Hx Hid) in Hp. }
  split; [done|]. split; [done|]. intros l x El Hx Hid.
  destruct (replay_row parse _ _ _ (reachable_steps _ _ _ _ _ Hr Hrun) El Hx) as (it & Hit & _ & Hrep).
  rewrite (replays_id _ _ Hrep) in Hid. apply elem_of_app in Hit as [Hit|Hit].
  - destruct (starting s') as [y|] eqn:Es; [|by apply elem_of_nil in Hit].
    apply list_elem_of_singleton in Hit as ->. by destruct (Hst' _ eq_refl).
  - destruct (q_durable it) eqn:Ed; [left|right; eauto].
    destruct Hrep as [_ E]. rewrite Ed in E. subst x. by apply Hq'.
Qed.

(** ** Reorder and removal *)

Lemma index_of_Some id q i :
  index_of id q = Some i →
  ∃ it, q !! i = Some it ∧ q_id it = id ∧ ∀ k x, q !! k = Some x → (k < i)%nat → q_id x ≠ id.
Proof.
  unfold index_of. destruct (list_find _ q) as [[j it]|] eqn:E; [|done]. cbn. intros [= <-].
  apply list_find_Some in E as (Hi & Hid & Hf). eauto.
Qed.

(** Swapping two rows that exist. *)
Lemma swap_lookup i j q a b :
  q !! i = Some a → q !! j = Some b → i ≠ j →
  swap i j q !! j = Some a ∧ swap i j q !! i = Some b ∧
  ∀ k, k ≠ i → k ≠ j → swap i j q !! k = q !! k.
Proof.
  intros Hi Hj Hij. unfold swap. rewrite Hi, Hj.
  pose proof (lookup_lt_Some _ _ _ Hi). pose proof (lookup_lt_Some _ _ _ Hj). split_and!.
  - rewrite list_lookup_insert_ne, list_lookup_insert_eq by done. done.
  - by rewrite list_lookup_insert_eq by (by rewrite length_insert).
  - intros k Hki Hkj. by rewrite !list_lookup_insert_ne by done.
Qed.

Lemma target_lt dir idx n : (idx < n)%nat → (target dir idx n < n)%nat.
Proof. unfold target. destruct (String.eqb dir "up"); lia. Qed.

(** a move takes the first row with the id one place in its
    direction, exchanging it with its neighbour and touching nothing else, not
    even the row being started; at the end of the queue it does nothing.  A
    client that names the neighbour it saw moves only past that neighbour, and
    one that does not never moves a delivery or a job, nor past one. *)
Theorem move_exact id direction expected durable s s' :
  move_queued_turn id direction expected durable s = Ok s' →
  ∃ idx it, queue s !! idx = Some it ∧ q_id it = id
    ∧ (∀ k x, queue s !! k = Some x → (k < idx)%nat → q_id x ≠ id) ∧
    let j := target (lower (strip direction)) idx (length (queue s)) in
      queue s' !! j = Some it ∧ queue s' !! idx = queue s !! j
      ∧ (∀ k, k ≠ idx → k ≠ j → queue s' !! k = queue s !! k)
      ∧ length (queue s') = length (queue s) ∧ starting s' = starting s
      ∧ (∀ a, expected = Some a → j ≠ idx ∧ ∃ x, queue s !! j = Some x ∧ q_id x = a)
      ∧ (expected = None → j ≠ idx → ∀ x, queue s !! idx = Some x ∨ queue s !! j = Some x →
           purpose_in (CROSS_CHAT_DELIVERY_PURPOSES ++ ["scheduled_job"]) x = false).
Proof.
  intros E. pose proof (move_rows _ _ _ _ _ _ E) as [Hp Hst]. unfold move_queued_turn in E.
  destruct (index_of _ _) as [idx|] eqn:Ei; [|by inv_res]. inv_res.
  apply index_of_Some in Ei as (it & Hi & Hid & Hf). exists idx, it.
  set (j := target _ _ _) in *.
  destruct (lookup_lt_is_Some_2 (queue s) j) as [y Hy].
  { apply target_lt. by eapply lookup_lt_Some. }
  split_and!; [done..|]. cbn [queue] in *. apply Permutation_length in Hp as Hlen.
  assert (∀ a, expected = Some a → j ≠ idx ∧ ∃ x, queue s !! j = Some x ∧ q_id x = a) as Hexp.
  { intros a ->. cbn in H0. apply bool_decide_eq_false, dec_stable in H0.
    case_bool_decide; [done|]. rewrite Hy in *. injection H0 as <-. eauto. }
  assert (expected = None → j ≠ idx → ∀ x, queue s !! idx = Some x ∨ queue s !! j = Some x →
    purpose_in (CROSS_CHAT_DELIVERY_PURPOSES ++ ["scheduled_job"]) x = false) as Hnone.
  { intros -> Hj. rewrite Hi, Hy, (bool_decide_true (j ≠ idx)) in H1 by done.
    cbn -[purpose_in] in H1. rewrite orb_false_r in H1. apply orb_false_iff in H1 as [? ?].
    intros z Hz. rewrite Hi, Hy in Hz. by destruct Hz as [[= <-]|[= <-]]. }
  destruct (decide (j = idx)) as [Hj|Hj].
  - rewrite bool_decide_true in * by done. split_and!; try done; by rewrite Hj.
  - rewrite bool_decide_false in * by done.
    destruct (swap_lookup idx j (queue s) it y) as (? & ? & ?); [done..|].
    split_and!; try done. by rewrite Hy.
Qed.

(** a removal answers 404 when no row has the id, 409 when the first
    that has it is a delivery, which only its sender may cancel, and raises
    with the queue unchanged when its event cannot be written; otherwise it
    takes out that row alone and writes the event that makes the replay agree. *)
Theorem unqueue_exact id durable s :
  (id ∉ q_id <$> queue s ∧ unqueue_turn id durable s = Err not_found) ∨
  ∃ l it k, queue s = l ++ it :: k ∧ q_id it = id ∧ id ∉ q_id <$> l ∧
    unqueue_turn id durable s =
      if purpose_in CROSS_CHAT_DELIVERY_PURPOSES it
      then Err (HTTPError 409 "cross-chat delivery can only be cancelled from its source handoff")
      else if durable
      then Ok (ChatQueue (l ++ k) (starting s) (admitted s) (log s ++ [turn_unqueued_event it]))
      else Err (RuntimeError "durable append failed").
Proof.
  unfold unqueue_turn. destruct (list_find _ _) as [[i it]|] eqn:Ef.
  - right. apply list_find_Some in Ef as (Hi & Hid & Hf).
    exists (take i (queue s)), it, (drop (S i) (queue s)).
    rewrite take_drop_middle by done. split_and!; [done|done| |].
    + intros (x & -> & Hx)%list_elem_of_fmap. apply list_elem_of_lookup in Hx as [j Hj].
      apply lookup_take_Some in Hj as [Hj Hlt]. by eapply Hf.
    + rewrite delete_take_drop. by destruct (purpose_in _ it), durable.
  - left. split; [|done]. apply list_find_None in Ef. rewrite Forall_forall in Ef.
    intros (x & -> & Hx)%list_elem_of_fmap. by eapply Ef.
Qed.

(** ** Witnesses *)

Definition three : list queue_op := [add "a"; add "b"; add "c"; OTake].

Theorem move_exact_witness :
  ∃ s, queue_run true three empty_queue = Ok s ∧ ∃ s',
    move_queued_turn "c" "up" (Some "b") true s = Ok s' ∧
    ∃ idx it, queue s !! idx = Some it ∧ q_id it = "c"
    ∧ (∀ k x, queue s !! k = Some x → (k < idx)%nat → q_id x ≠ "c").
Proof.
  eexists. split; [reflexivity|]. eexists. split; [reflexivity|].
  match goal with |- ∃ idx it, queue ?s !! _ = _ ∧ _ ∧ _ =>
    destruct (move_exact "c" "up" (Some "b") true s _ eq_refl) as (idx & it & H1 & H2 & H3 & _) end.
  eauto.
Defined.

Theorem left_rows_stay_out_witness :
  ∃ s s', queue_run true (three ++ [OAdmit; OLaunch]) empty_queue = Ok s ∧ queue_run true [OPause true] s = Ok s' ∧
    ("a" ∉ q_id <$> rows s' ∧
     ∀ l, scan_queued_turns (λ _ _, []) (log s') = Ok l → "a" ∉ q_id <$> l).
Proof.
  do 2 eexists. split; [reflexivity|]. split; [reflexivity|].
  eapply (left_rows_stay_out (λ _ _, []) "a" _ [OPause true]).
  - eapply (queue_run_reachable true (three ++ [OAdmit; OLaunch])); [constructor|reflexivity].
  - apply (bool_decide_eq_true_1 _). reflexivity.
  - eapply steps_cons; [by split|apply steps_nil].
  - by intros op ->%list_elem_of_singleton [].
Defined.

Theorem held_rows_are_not_started_witness :
  ∃ s s', queue_run true (three ++ [OPause true]) empty_queue = Ok s
    ∧ queue_run true [OAdmit; OLaunch; OTake] s = Ok s' ∧
    ((∀ it, starting s' = Some it → q_id it ≠ "b") ∧
     (∀ it, it ∈ queue s' → q_id it = "b" → q_paused it = true) ∧
     ∀ l x, scan_queued_turns (λ _ _, []) (log s') = Ok l → x ∈ l → q_id x = "b" →
       q_paused x = true ∨ ∃ it, it ∈ queue s' ∧ q_id it = "b" ∧ q_durable it = false).
Proof.
  do 2 eexists. split; [reflexivity|]. split; [reflexivity|].
  eapply (held_rows_are_not_started (λ _ _, []) "b" _ [OAdmit; OLaunch; OTake]).
  - eapply (queue_run_reachable true (three ++ [OPause true])); [constructor|reflexivity].
  - apply (proj1 (Forall_forall (λ it, q_id it = "b" → q_paused it = true) _)). by repeat constructor.
  - by intros it [= <-].
  - by repeat (eapply steps_cons; [by split|]); apply steps_nil.
  - by intros op [->|[->| ->%list_elem_of_singleton]%elem_of_cons]%elem_of_cons [].
Defined.

Theorem failed_start_not_replayed_witness :
  ∃ s s' it, queue_run true (three ++ [OAdmit]) empty_queue = Ok s ∧ starting s = Some it ∧ q_id it = "a"
    ∧ queue_run true [OStopped; OPause true] (requeue_turn_front s) = Ok s' ∧
    ((∃ q, queue (requeue_turn_front s) = it :: q) ∧
     ∀ l, scan_queued_turns (λ _ _, []) (log s') = Ok l → q_id it ∉ q_id <$> l).
Proof.
  do 3 eexists. split; [reflexivity|]. split; [reflexivity|]. split; [reflexivity|]. split; [reflexivity|].
  eapply (failed_start_not_replayed (λ _ _, []) _ _ [OStopped; OPause true]).
  - eapply (queue_run_reachable true (three ++ [OAdmit])); [constructor|reflexivity].
  - reflexivity.
  - reflexivity.
  - by repeat (eapply steps_cons; [by split|]); apply steps_nil.
Defined.
