(* ===== verification/Exchanges.v ===== *)
(** * Conversations between chats: the exchange ledger

    [agent_server.py], the part of [CrossChatStore] on the tables
    [cross_chat_exchanges] and [cross_chat_exchange_legs].  A chat asks
    another; each message is a leg of the exchange, and each leg gets at most
    one response, within a budget of legs.  A method is one SQLite transaction:
    a function of the two tables that leaves them as they were when it raises.
    The clock, fresh leg ids and the id of the server process are arguments.
    Columns are never NULL except where the model has an option. *)
From S2P Require Import Prelude PyValues.

Open Scope string_scope.
Open Scope Z_scope.

(** ** Tables *)

Inductive xstatus := XWaiting | XActive | XCompleted | XFailed | XCancelled | XExpired.
Inductive lstatus := LRegistered | LSubmitting | LQueued | LRunning
  | LDelivered | LFailed | LCancelled | LExpired.
Inductive lkind := KRequest | KReply | KStatus.
Inductive response := ROpen | RExplicit | RAutomatic | RClosed.
#[global] Instance xstatus_eq_dec : EqDecision xstatus.
Proof. solve_decision. Defined.
#[global] Instance lstatus_eq_dec : EqDecision lstatus.
Proof. solve_decision. Defined.
#[global] Instance lkind_eq_dec : EqDecision lkind.
Proof. solve_decision. Defined.
#[global] Instance response_eq_dec : EqDecision response.
Proof. solve_decision. Defined.

(** The text of a status, which the lifecycle column repeats. *)
Definition xstatus_text (st : xstatus) : string :=
  match st with
  | XWaiting => "waiting_request" | XActive => "active" | XCompleted => "completed"
  | XFailed => "failed" | XCancelled => "cancelled" | XExpired => "expired"
  end.

Definition lstatus_text (st : lstatus) : string :=
  match st with
  | LRegistered => "registered" | LSubmitting => "submitting" | LQueued => "queued"
  | LRunning => "running" | LDelivered => "delivered" | LFailed => "failed"
  | LCancelled => "cancelled" | LExpired => "expired"
  end.

(** [cross_chat_exchanges] *)
Record exchange := Exchange {
  x_id : string;
  x_requester : string;
  x_responder : string;
  x_run : string;
  x_auth_kind : string;
  x_route : option string;
  x_pair : string;
  x_effect : string;
  x_actions : string;
  x_rstate : string;
  x_rroute : string;
  x_action : string;
  x_instruction : string;
  x_status : xstatus;
  x_max : Z;
  x_used : Z;
  x_active : option string;
  x_expires : string;
  x_error_code : option string;
  x_error : option string;
  x_lifecycle : string;
  x_live_requested : bool;
  x_live_lease : bool;
  x_live_instance : string;
  x_created : string;
  x_updated : string;
}.

(** [cross_chat_exchange_legs] *)
Record leg := Leg {
  l_id : string;
  l_exchange : string;
  l_parent : option string;
  l_ordinal : Z;
  l_source : string;
  l_source_run : string;
  l_owner_run : string;
  l_target : string;
  l_kind : lkind;
  l_expects : bool;
  l_response : response;
  l_body : string;
  l_chars : Z;
  l_sha256 : string;
  l_key : string;
  l_status : lstatus;
  l_queued : option string;
  l_position : option Z;
  l_target_run : option string;
  l_lifecycle : string;
  l_error_code : option string;
  l_error : option string;
  l_created : string;
  l_updated : string;
}.
#[global] Instance exchange_eq_dec : EqDecision exchange.
Proof. solve_decision. Defined.
#[global] Instance leg_eq_dec : EqDecision leg.
Proof. solve_decision. Defined.

Record xdb := XDB {
  exchanges : gmap string exchange;
  legs : gmap string leg;
}.

Definition empty_xdb : xdb := {| exchanges := ∅; legs := ∅ |}.

Definition is_x (l : list xstatus) (x : exchange) : bool := bool_decide (x_status x ∈ l).
Definition is_l (l : list lstatus) (r : leg) : bool := bool_decide (l_status r ∈ l).

(** [CROSS_CHAT_EXCHANGE_TERMINAL_STATUSES] and [CROSS_CHAT_EXCHANGE_LEG_TERMINAL_STATUSES] *)
Definition X_TERMINAL : list xstatus := [XCompleted; XFailed; XCancelled; XExpired].
Definition L_TERMINAL : list lstatus := [LDelivered; LFailed; LCancelled; LExpired].
Definition X_OPEN : list xstatus := [XWaiting; XActive].
Definition L_PENDING : list lstatus := [LRegistered; LSubmitting; LQueued; LRunning].

(** ** Inserting rows *)

(** The [CHECK] constraints of [cross_chat_exchanges]. *)
Definition exchange_checks (x : exchange) : bool :=
  str_in (x_action x) ["instruction"; "request_reply"]
  && (0 <? x_max x) && (x_max x <=? 6) && (0 <=? x_used x) && (x_used x <=? x_max x)
  && negb (String.eqb (x_requester x) (x_responder x)).

Definition insert_exchange (x : exchange) (db : xdb) : res xdb :=
  _ ← raise_if (bool_decide (is_Some (exchanges db !! x_id x)) || negb (exchange_checks x))
        (IntegrityError "cross_chat_exchanges");
  Ok (db {{ exchanges := <[x_id x := x]> (exchanges db) }}).

(** The [UNIQUE] constraints of [cross_chat_exchange_legs] that a row would
    break. *)
Definition leg_clash (r r' : leg) : bool :=
  String.eqb (l_exchange r) (l_exchange r')
  && ((l_ordinal r =? l_ordinal r') || String.eqb (l_source_run r) (l_source_run r')
      || String.eqb (l_key r) (l_key r'))
  || bool_decide (l_parent r ≠ None) && bool_decide (l_parent r = l_parent r').

Definition insert_leg (r : leg) (db : xdb) : res xdb :=
  _ ← raise_if (bool_decide (is_Some (legs db !! l_id r))
                || bool_decide (exchanges db !! l_exchange r = None)
                || String.eqb (l_source r) (l_target r)
                || bool_decide (is_Some (select_one (leg_clash r) (legs db))))
        (IntegrityError "cross_chat_exchange_legs");
  Ok (db {{ legs := <[l_id r := r]> (legs db) }}).

(** [UPDATE cross_chat_exchanges SET f WHERE id=k AND P] *)
Definition set_exchange (k : string) (P : exchange → bool) (f : exchange → exchange) (db : xdb) : xdb :=
  db {{ exchanges := update_row k P f (exchanges db) }}.

Definition set_leg (k : string) (P : leg → bool) (f : leg → leg) (db : xdb) : xdb :=
  db {{ legs := update_row k P f (legs db) }}.

(** [dict(connection.execute(...).fetchone())] *)
Definition fetched {A} (o : option A) : res A :=
  match o with Some a => Ok a | None => Err (TypeError "'NoneType' object is not iterable") end.

(** ** Argument checks *)

Definition SOURCE_INSTRUCTION_MAX_CHARS : Z := 100000.

Definition validated_instruction (s : string) : res string :=
  _ ← raise_if (SOURCE_INSTRUCTION_MAX_CHARS <? len s)
        (HTTPError 413 "source user instruction is too large for cross-chat delivery");
  Ok s.

Definition lower_hex (c : Ascii.ascii) : bool :=
  let n := code c in ((48 <=? n) && (n <=? 57) || (97 <=? n) && (n <=? 102))%N.

(** The patterns [^prefix_[0-9a-f]{32}$], matched in full. *)
Definition hex_id (prefix s : string) : bool :=
  startswith prefix s
  && string_forallb lower_hex
       (String.substring (String.length prefix) (String.length s - String.length prefix) s)
  && (String.length s =? String.length prefix + 32)%nat.

Definition ROUTE_ACTIONS : list string := ["instruction"; "request_reply"].

(** [canonical_provider_cross_chat_route_actions], of a list of strings. *)
Definition canonical_route_actions (actions : list string) : res (list string) :=
  match actions with
  | [] => Err (HTTPError 400 "route actions must contain instruction and/or request_reply")
  | _ =>
      if (2 <? length actions)%nat || negb (bool_decide (NoDup actions))
         || existsb (λ a, negb (str_in a ROUTE_ACTIONS)) actions
      then Err (HTTPError 400 "route actions must be a unique subset of instruction and request_reply")
      else Ok (filter (λ a, str_in a actions = true) ROUTE_ACTIONS)
  end.

(** ** Opening an exchange *)

Section ledger.
Variable sha256 : string → string.

(** The row an [INSERT] of a leg writes. *)
Definition new_leg (id exchange_id : string) (parent : option string) (ordinal : Z)
    (source source_run owner_run target : string) (kind : lkind) (expects : bool)
    (response : response) (body key : string) (error_code : option string) (now : string) : leg := {|
  l_id := id; l_exchange := exchange_id; l_parent := parent; l_ordinal := ordinal;
  l_source := source; l_source_run := source_run; l_owner_run := owner_run; l_target := target;
  l_kind := kind; l_expects := expects; l_response := response;
  l_body := body; l_chars := len body; l_sha256 := sha256 (utf8 body); l_key := key;
  l_status := LRegistered; l_queued := None; l_position := None; l_target_run := None;
  l_lifecycle := ""; l_error_code := error_code; l_error := None;
  l_created := now; l_updated := now |}.

Definition create_exchange_obligation (now id requester run responder : string) (max_legs : Z)
    (expires instruction : string) (db : xdb) : res (xdb * exchange) :=
  instruction ← validated_instruction instruction;
  match exchanges db !! id with
  | Some x =>
      _ ← raise_if (negb (String.eqb (x_requester x) requester && String.eqb (x_run x) run
                          && String.eqb (x_responder x) responder
                          && String.eqb (x_instruction x) instruction))
            (HTTPError 409 "exchange id is already bound to another authorization");
      Ok (db, x)
  | None =>
      let x := {|
        x_id := id; x_requester := requester; x_responder := responder; x_run := run;
        x_auth_kind := "explicit_prompt"; x_route := None; x_pair := ""; x_effect := "";
        x_actions := ""; x_rstate := ""; x_rroute := ""; x_action := "request_reply";
        x_instruction := instruction; x_status := XWaiting; x_max := max_legs; x_used := 0;
        x_active := None; x_expires := expires; x_error_code := None; x_error := None;
        x_lifecycle := ""; x_live_requested := false; x_live_lease := false;
        x_live_instance := ""; x_created := now; x_updated := now |} in
      db ← insert_exchange x db;
      Ok (db, x)
  end.

(** The arguments of [create_route_exchange_request]. *)
Record route_request := RouteRequest {
  rr_exchange : string;
  rr_leg : string;
  rr_requester : string;
  rr_run : string;
  rr_responder : string;
  rr_body : string;
  rr_key : string;
  rr_max : Z;
  rr_expires : string;
  rr_route : string;
  rr_pair : string;
  rr_effect : string;
  rr_actions : list string;
  rr_action : string;
  rr_instruction : string;
  rr_live : bool;
}.

(** The answer to a repeated request. *)
Definition route_request_matches (q : route_request) (actions rstate : string)
    (x : exchange) (l : leg) : bool :=
  String.eqb (x_requester x) (rr_requester q) && String.eqb (x_run x) (rr_run q)
  && String.eqb (x_responder x) (rr_responder q) && (x_max x =? rr_max q)
  && String.eqb (x_expires x) (rr_expires q) && String.eqb (x_auth_kind x) "configured_route"
  && bool_decide (x_route x = Some (rr_route q)) && String.eqb (x_pair x) (rr_pair q)
  && String.eqb (x_effect x) (rr_effect q) && String.eqb (x_actions x) actions
  && str_in (x_rstate x) [rstate; "applied"] && String.eqb (x_action x) (rr_action q)
  && String.eqb (x_instruction x) (rr_instruction q)
  && Bool.eqb (x_live_requested x) (rr_live q)
  && String.eqb (l_exchange l) (rr_exchange q) && (l_ordinal l =? 1)
  && String.eqb (l_source l) (rr_requester q) && String.eqb (l_source_run l) (rr_run q)
  && String.eqb (l_target l) (rr_responder q) && String.eqb (l_body l) (rr_body q)
  && String.eqb (l_key l) (rr_key q).

(** The reciprocal effect of a route is named after its exchange, and carries
    actions exactly when it is there. *)
Definition reciprocal_ok (q : route_request) (frozen : list string) : bool :=
  Bool.eqb (String.eqb (rr_effect q) "") (bool_decide (frozen = []))
  && (String.eqb (rr_effect q) ""
      || String.eqb (rr_effect q) (rr_exchange q) && hex_id "exchange_" (rr_effect q)).

Definition route_exchange (now instance : string) (q : route_request) (actions rstate : string) : exchange := {|
  x_id := rr_exchange q; x_requester := rr_requester q; x_responder := rr_responder q;
  x_run := rr_run q; x_auth_kind := "configured_route"; x_route := Some (rr_route q);
  x_pair := rr_pair q; x_effect := rr_effect q; x_actions := actions; x_rstate := rstate;
  x_rroute := ""; x_action := rr_action q; x_instruction := rr_instruction q;
  x_status := XActive; x_max := rr_max q; x_used := 1; x_active := Some (rr_leg q);
  x_expires := rr_expires q; x_error_code := None; x_error := None; x_lifecycle := "";
  x_live_requested := rr_live q; x_live_lease := rr_live q;
  x_live_instance := if rr_live q then instance else ""; x_created := now; x_updated := now |}.

Definition create_route_exchange_request (now instance : string) (q : route_request) (db : xdb)
    : res (xdb * (exchange * leg * bool)) :=
  _ ← validated_instruction (rr_instruction q);
  _ ← raise_if (negb (hex_id "route_" (rr_route q)))
        (ValueError "configured route exchange requires a route id");
  _ ← raise_if (negb (String.eqb (rr_pair q) "") && negb (hex_id "pair_" (rr_pair q)))
        (ValueError "invalid permanent pair authorization");
  _ ← raise_if (negb (str_in (rr_action q) ROUTE_ACTIONS))
        (ValueError "configured route exchange has an invalid initial action");
  frozen ← match rr_actions q with [] => Ok [] | l => canonical_route_actions l end;
  _ ← raise_if (negb (reciprocal_ok q frozen))
        (ValueError "configured route reciprocal effect is invalid");
  let actions := join "," frozen in
  let rstate := if String.eqb (rr_effect q) "" then "" else "pending" in
  match exchanges db !! rr_exchange q with
  | Some x =>
      match legs db !! rr_leg q with
      | None => Err (HTTPError 409 "route exchange is missing its initial request")
      | Some l =>
          _ ← raise_if (negb (route_request_matches q actions rstate x l))
                (HTTPError 409 "idempotency key was already used for a different route exchange request");
          Ok (db, (x, l, false))
      end
  | None =>
      let x := route_exchange now instance q actions rstate in
      let l := new_leg (rr_leg q) (rr_exchange q) None 1 (rr_requester q) (rr_run q) (rr_run q)
                 (rr_responder q) KRequest (String.eqb (rr_action q) "request_reply") ROpen
                 (rr_body q) (rr_key q) None now in
      db ← insert_exchange x db;
      db ← insert_leg l db;
      Ok (db, (x, l, true))
  end.

(** [UPDATE ... WHERE authorization_source_run_id=old AND id IN ids AND
    status='waiting_request'], which must reach every id. *)
Definition rebind_exchange_source_run (now : string) (ids : list string) (old new : string) (db : xdb)
    : res xdb :=
  match ids with
  | [] => Ok db
  | _ =>
      let hit x := String.eqb (x_run x) old && str_in (x_id x) ids && is_x [XWaiting] x in
      _ ← raise_if (negb (Nat.eqb (count_where hit (exchanges db)) (length ids)))
            (RuntimeError "cross-chat exchanges changed before source run binding");
      Ok (db {{ exchanges := update_where hit (λ x, x {{ x_run := new; x_updated := now }}) (exchanges db) }})
  end.

Definition mark_reciprocal_route_applied (now id effect route : string) (db : xdb)
    : res (xdb * (exchange * bool)) :=
  _ ← raise_if (negb (String.eqb effect id && hex_id "exchange_" effect && hex_id "route_" route))
        (ValueError "invalid reciprocal route settlement identity");
  match exchanges db !! id with
  | None => Err (HTTPError 410 "reciprocal route exchange no longer exists")
  | Some x =>
      _ ← raise_if (negb (String.eqb (x_effect x) effect)
                    || negb (str_in (x_rstate x) ["pending"; "applied"])
                    || String.eqb (x_rstate x) "applied" && negb (String.eqb (x_rroute x) route))
            (HTTPError 409 "reciprocal route settlement no longer matches");
      if String.eqb (x_rstate x) "applied" then Ok (db, (x, false))
      else
        let db := set_exchange id
          (λ x, String.eqb (x_effect x) effect && String.eqb (x_rstate x) "pending")
          (λ x, x {{ x_rstate := "applied"; x_rroute := route; x_updated := now }}) db in
        x ← fetched (exchanges db !! id);
        _ ← raise_if (negb (String.eqb (x_rstate x) "applied" && String.eqb (x_rroute x) route))
              (HTTPError 409 "reciprocal route settlement lost its owner");
        Ok (db, (x, true))
  end.

(** A synchronous wait that was lost becomes an ordinary delivery. *)
Definition downgrade_live_exchange (now id active_leg instance : string) (db : xdb)
    : xdb * (option exchange * bool) :=
  let hit x := is_x [XActive] x && bool_decide (x_active x = Some active_leg)
               && x_live_lease x && String.eqb (x_live_instance x) instance in
  let db' := set_exchange id hit
    (λ x, x {{ x_live_lease := false; x_live_instance := ""; x_updated := now }}) db in
  (db', (exchanges db' !! id, row_matches id hit (exchanges db))).

(** ** The first request, and responses *)

(** An expired exchange is marked and [None] returned, so that the mark is
    committed before the caller answers 410. *)
Definition expire_exchange (now id error : string) (l : list xstatus) (db : xdb) : xdb :=
  set_exchange id (is_x l) (λ x, x {{
    x_status := XExpired; x_error_code := Some "expired"; x_error := Some error;
    x_lifecycle := ""; x_updated := now }}) db.

Definition initial_matches (source target body key : string) (live : bool) (x : exchange) (l : leg) : bool :=
  (l_ordinal l =? 1) && String.eqb (l_source l) source && String.eqb (l_target l) target
  && String.eqb (l_body l) body && String.eqb (l_key l) key
  && Bool.eqb (x_live_requested x) live.

Definition create_initial_exchange_leg (now instance leg_id id source run target body key : string)
    (live : bool) (db : xdb) : res (xdb * option (exchange * leg * bool)) :=
  match exchanges db !! id with
  | None => Err (HTTPError 404 "cross-chat exchange was not found")
  | Some x =>
      match select_one (λ l, String.eqb (l_exchange l) id && String.eqb (l_source_run l) run) (legs db) with
      | Some l =>
          _ ← raise_if (negb (initial_matches source target body key live x l))
                (HTTPError 409 "idempotency key was already used for a different exchange request");
          Ok (db, Some (x, l, false))
      | None =>
          _ ← raise_if (negb (is_x [XWaiting] x)) (HTTPError 409 "exchange request was already committed");
          _ ← raise_if (negb (String.eqb (x_run x) run)) (HTTPError 403 "exchange is bound to another source run");
          _ ← raise_if (negb (String.eqb (x_requester x) source && String.eqb (x_responder x) target))
                (HTTPError 403 "exchange participants do not match the grant");
          if bool_decide (String.le (x_expires x) now) then
            Ok (expire_exchange now id "exchange authorization expired before it was sent" [XWaiting] db, None)
          else
            let l := new_leg leg_id id None 1 source run run target KRequest true ROpen body key None now in
            db ← insert_leg l db;
            let db := set_exchange id (is_x [XWaiting]) (λ x, x {{
              x_status := XActive; x_used := 1; x_active := Some leg_id;
              x_live_requested := live; x_live_lease := live;
              x_live_instance := if live then instance else "";
              x_error_code := None; x_error := None; x_updated := now }}) db in
            x ← fetched (exchanges db !! id);
            Ok (db, Some (x, l, true))
      end
  end.

(** A response already stored that this call repeats. *)
Definition response_matches (source run body key : string) (request : bool) (l : leg) : bool :=
  String.eqb (if String.eqb (l_owner_run l) "" then l_source_run l else l_owner_run l) run
  && String.eqb (l_source l) source && String.eqb (l_body l) body
  && bool_decide (l_kind l = if request then KRequest else KReply)
  && String.eqb (l_key l) key.

(** The inbound leg belongs to the live delivery run that answers. *)
Definition response_bound (source run : string) (inbound : leg) : bool :=
  String.eqb (l_target inbound) source && bool_decide (l_target_run inbound = Some run)
  && is_l [LRunning; LDelivered] inbound.

(** [{source, target} == {requester, responder}], and two chats. *)
Definition response_parties (source : string) (x : exchange) (inbound : leg) : bool :=
  let target := l_source inbound in
  str_in source [x_requester x; x_responder x] && str_in target [x_requester x; x_responder x]
  && str_in (x_requester x) [source; target] && str_in (x_responder x) [source; target]
  && negb (String.eqb target source).

(** The inbound leg of an exchange, and the leg that answers one. *)
Definition inbound_leg (id leg_id : string) (db : xdb) : option leg :=
  select_one (λ l, String.eqb (l_id l) leg_id && String.eqb (l_exchange l) id) (legs db).
Definition answer_to (leg_id : string) (db : xdb) : option leg :=
  select_one (λ l, bool_decide (l_parent l = Some leg_id)) (legs db).

Definition answered (automatic : bool) (now : string) (l : leg) : leg := l {{
  l_response := if automatic then RAutomatic else RExplicit; l_updated := now }}.

Definition already_committed : exn := HTTPError 409 "response_already_committed".

Definition commit_exchange_response (now leg_id id inbound_id source run body key : string)
    (request automatic : bool) (db : xdb) : res (xdb * option (exchange * leg * bool)) :=
  match exchanges db !! id, inbound_leg id inbound_id db with
  | Some x, Some inbound =>
      match answer_to inbound_id db with
      | Some l =>
          if response_matches source run body key request l then Ok (db, Some (x, l, false))
          else Err already_committed
      | None =>
          _ ← raise_if (negb (is_x [XActive] x))
                (if is_x [XExpired] x then HTTPError 410 "expired" else already_committed);
          if bool_decide (String.le (x_expires x) now) && negb (x_live_requested x) then
            Ok (expire_exchange now id "exchange expired" [XActive] db, None)
          else
          _ ← raise_if (negb (bool_decide (l_response inbound = ROpen))) already_committed;
          _ ← raise_if (automatic && negb (l_expects inbound)) already_committed;
          _ ← raise_if (negb (response_bound source run inbound))
                (HTTPError 403 "response is not bound to this live delivery run");
          _ ← raise_if (negb (response_parties source x inbound))
                (HTTPError 403 "exchange participant pair is invalid");
          _ ← raise_if (x_max x - x_used x <? (if request then 2 else 1)) (HTTPError 409 "budget_exhausted");
          let n := x_used x + 1 in
          let db := set_leg inbound_id (λ l, bool_decide (l_response l = ROpen)) (answered automatic now) db in
          let l := new_leg leg_id id (Some inbound_id) n source
                     (if x_live_lease x then run +:+ ":live:" +:+ pretty n else run) run
                     (l_source inbound) (if request then KRequest else KReply) request ROpen body key None now in
          db ← insert_leg l db;
          let db := set_exchange id (is_x [XActive]) (λ x, x {{
            x_used := n; x_active := Some leg_id; x_updated := now }}) db in
          x ← fetched (exchanges db !! id);
          Ok (db, Some (x, l, true))
      end
  | _, _ => Err (HTTPError 404 "cross-chat exchange leg was not found")
  end.

(** ** Updates of a row by its delivery *)

(** The [changes] of [update_exchange_leg] that are allowed; [None] leaves a
    column alone. *)
Record leg_patch := LegPatch {
  lp_status : option lstatus;
  lp_queued : option (option string);
  lp_position : option (option Z);
  lp_target_run : option (option string);
  lp_response : option response;
  lp_lifecycle : option string;
  lp_error_code : option (option string);
  lp_error : option (option string);
}.

Definition leg_patch_empty (p : leg_patch) : bool :=
  match p with LegPatch None None None None None None None None => true | _ => false end.

(** A terminal status reopens the lifecycle outbox. *)
Definition leg_lifecycle (p : leg_patch) (l : leg) : string :=
  match lp_lifecycle p, lp_status p with
  | Some s, _ => s
  | None, Some st => if bool_decide (st ∈ L_TERMINAL) then "" else l_lifecycle l
  | None, None => l_lifecycle l
  end.

Definition patch_leg (now : string) (p : leg_patch) (l : leg) : leg := l {{
  l_status := default (l_status l) (lp_status p);
  l_queued := default (l_queued l) (lp_queued p);
  l_position := default (l_position l) (lp_position p);
  l_target_run := default (l_target_run l) (lp_target_run p);
  l_response := default (l_response l) (lp_response p);
  l_lifecycle := leg_lifecycle p l;
  l_error_code := default (l_error_code l) (lp_error_code p);
  l_error := default (l_error l) (lp_error p);
  l_updated := now }}.

(** [AND status IN (expected)], when there are any. *)
Definition update_exchange_leg (now id : string) (expected : list lstatus) (p : leg_patch) (db : xdb)
    : xdb * option leg :=
  if leg_patch_empty p then (db, legs db !! id) else
  let hit l := bool_decide (expected = []) || is_l expected l in
  if row_matches id hit (legs db) then
    let db := set_leg id hit (patch_leg now p) db in (db, legs db !! id)
  else (db, None).

(** [update_exchange], likewise; a bad [used_legs] breaks a [CHECK]. *)
Record exchange_patch := ExchangePatch {
  xp_status : option xstatus;
  xp_used : option Z;
  xp_active : option (option string);
  xp_lifecycle : option string;
  xp_error_code : option (option string);
  xp_error : option (option string);
}.

Definition exchange_patch_empty (p : exchange_patch) : bool :=
  match p with ExchangePatch None None None None None None => true | _ => false end.

Definition exchange_lifecycle (p : exchange_patch) (x : exchange) : string :=
  match xp_lifecycle p, xp_status p with
  | Some s, _ => s
  | None, Some st => if bool_decide (st ∈ X_TERMINAL) then "" else x_lifecycle x
  | None, None => x_lifecycle x
  end.

Definition patch_exchange (now : string) (p : exchange_patch) (x : exchange) : exchange := x {{
  x_status := default (x_status x) (xp_status p);
  x_used := default (x_used x) (xp_used p);
  x_active := default (x_active x) (xp_active p);
  x_lifecycle := exchange_lifecycle p x;
  x_error_code := default (x_error_code x) (xp_error_code p);
  x_error := default (x_error x) (xp_error p);
  x_updated := now }}.

Definition update_exchange (now id : string) (expected : list xstatus) (p : exchange_patch) (db : xdb)
    : res (xdb * option exchange) :=
  if exchange_patch_empty p then Ok (db, exchanges db !! id) else
  let hit x := bool_decide (expected = []) || is_x expected x in
  match exchanges db !! id with
  | Some x =>
      if hit x then
        _ ← raise_if (negb (exchange_checks (patch_exchange now p x))) (IntegrityError "cross_chat_exchanges");
        let db := set_exchange id hit (patch_exchange now p) db in Ok (db, exchanges db !! id)
      else Ok (db, None)
  | None => Ok (db, None)
  end.

(** ** Ending *)

Definition x_close (st : xstatus) (code error : option string) (now : string) (x : exchange) : exchange :=
  x {{ x_status := st; x_error_code := code; x_error := error; x_lifecycle := ""; x_updated := now }}.

Definition close_response (now : string) (l : leg) : leg := l {{ l_response := RClosed; l_updated := now }}.

Definition cancel_exact_queued_exchange_leg (now id leg_id target queued code error : string) (db : xdb)
    : res (xdb * option (exchange * leg)) :=
  let hit l := String.eqb (l_exchange l) id && String.eqb (l_target l) target
               && bool_decide (l_queued l = Some queued) && is_l [LQueued] l in
  match legs db !! leg_id, exchanges db !! id with
  | Some l, Some x =>
      if negb (hit l) then Ok (db, None)
      else if negb (bool_decide (l_kind l = KStatus)) && is_x [XActive] x
              && negb (String.eqb (default "" (x_active x)) leg_id) then Ok (db, None)
      else
        let db := set_leg leg_id hit (λ l, l {{
          l_status := LCancelled; l_response := RClosed; l_error_code := Some code;
          l_error := Some error; l_lifecycle := ""; l_updated := now }}) db in
        let db := if negb (bool_decide (l_kind l = KStatus)) && is_x [XActive] x
                  then set_exchange id (λ x, is_x [XActive] x && bool_decide (x_active x = Some leg_id))
                         (x_close XCancelled (Some code) (Some error) now) db
                  else db in
        x ← fetched (exchanges db !! id);
        l ← fetched (legs db !! leg_id);
        Ok (db, Some (x, l))
  | _, _ => Ok (db, None)
  end.

(** The outcomes a caller may cancel or finish with. *)
Inductive outcome := OFailed | OCancelled | OExpired.
Definition outcome_x (o : outcome) : xstatus :=
  match o with OFailed => XFailed | OCancelled => XCancelled | OExpired => XExpired end.
Definition outcome_l (o : outcome) : lstatus :=
  match o with OFailed => LFailed | OCancelled => LCancelled | OExpired => LExpired end.

(** The leg an exchange waits for. *)
Definition active_leg (x : exchange) (db : xdb) : option leg :=
  id ← x_active x; if String.eqb id "" then None else legs db !! id.

Definition cancel_exchange (now id : string) (o : outcome) (code error : string) (db : xdb)
    : res (xdb * option (exchange * option leg)) :=
  match exchanges db !! id with
  | None => Ok (db, None)
  | Some x =>
      let db' :=
        if is_x X_TERMINAL x then db else
        let db1 := set_exchange id (is_x X_OPEN) (x_close (outcome_x o) (Some code) (Some error) now) db in
        let k := default "" (x_active x) in
        match active_leg x db with
        | None => db1
        | Some l =>
            if is_l [LRegistered; LSubmitting; LQueued] l then
              set_leg k (is_l [LRegistered; LSubmitting; LQueued]) (λ l, l {{
                l_status := outcome_l o; l_response := RClosed; l_error_code := Some code;
                l_error := Some error; l_lifecycle := ""; l_updated := now }}) db1
            else if is_l [LRunning] l then
              set_leg k (is_l [LRunning]) (close_response now) db1
            else db1
        end in
      x ← fetched (exchanges db' !! id);
      Ok (db', Some (x, active_leg x db'))
  end.

(** What [finish_exchange_leg] makes of a leg: a committed response survives a
    failure of the run that gave it. *)
Definition effective (st : lstatus) (preserve : bool) (l : leg) : lstatus :=
  if preserve && bool_decide (st = LFailed) && bool_decide (l_response l ∈ [RExplicit; RAutomatic])
  then LDelivered else st.

(** How an exchange ends with its leg, if it does. *)
Definition ended_with (st : lstatus) (l : leg) : option xstatus :=
  match st with
  | LFailed => Some XFailed
  | LCancelled => Some XCancelled
  | LExpired => Some XExpired
  | LDelivered => if bool_decide (l_response l = ROpen) && negb (l_expects l) then Some XCompleted else None
  | _ => None
  end.

Definition finish_leg (st : lstatus) (code error : option string) (now : string) (l : leg) : leg := l {{
  l_status := st; l_error_code := code; l_error := error; l_lifecycle := ""; l_updated := now }}.

Definition finish_exchange_leg (now leg_id : string) (status : lstatus) (code error : option string)
    (preserve : bool) (db : xdb) : res (xdb * option (exchange * leg)) :=
  match legs db !! leg_id with
  | None => Ok (db, None)
  | Some l =>
      if is_l L_TERMINAL l then
        Ok (db, match exchanges db !! l_exchange l with Some x => Some (x, l) | None => None end)
      else
        let st := effective status preserve l in
        let kept := negb (bool_decide (st = status)) in
        let db := set_leg leg_id (is_l L_PENDING)
          (finish_leg st (if kept then None else code) (if kept then None else error) now) db in
        l ← fetched (legs db !! leg_id);
        x ← fetched (exchanges db !! l_exchange l);
        if negb (bool_decide (l_kind l = KStatus)) && is_x [XActive] x then
          match ended_with st l with
          | None => Ok (db, Some (x, l))
          | Some xst =>
              let done := bool_decide (xst = XCompleted) in
              let db := if done then set_leg leg_id (λ _, true) (close_response now) db else db in
              let l := if done then l {{ l_response := RClosed }} else l in
              let db := set_exchange (x_id x) (is_x [XActive])
                (x_close xst (if done then None else code) (if done then None else error) now) db in
              x ← fetched (exchanges db !! x_id x);
              Ok (db, Some (x, l))
          end
        else Ok (db, Some (x, l))
  end.

(** The one message that tells a chat its exchange failed. *)
Definition create_exchange_status_leg (now leg_id id source target body code : string) (db : xdb)
    : res (xdb * (leg * bool)) :=
  match select_one (λ l, String.eqb (l_exchange l) id && bool_decide (l_kind l = KStatus)) (legs db) with
  | Some l => Ok (db, (l, false))
  | None =>
      let run := "status:" +:+ id in
      let l := new_leg leg_id id None 0 source run run target KStatus false RClosed body
                 ("status:" +:+ code) (Some code) now in
      db ← insert_leg l db;
      Ok (db, (l, true))
  end.
End ledger.

(** ** Queries *)

(** [ORDER BY created_at, id] and the like. *)
Definition text_text_le (a b : string * string) : Prop :=
  String.le a.1 b.1 ∧ (a.1 = b.1 → String.le a.2 b.2).
#[global] Instance text_text_le_dec : RelDecision text_text_le.
Proof. intros a b. unfold text_text_le. apply _. Defined.

Definition x_by_created : relation exchange := by_key (λ x, (x_created x, x_id x)) text_text_le.
Definition x_by_updated : relation exchange := by_key (λ x, (x_updated x, x_id x)) text_text_le.
Definition x_by_expiry : relation exchange := by_key (λ x, (x_expires x, x_id x)) text_text_le.
Definition l_by_created : relation leg := by_key (λ l, (l_created l, l_id l)) text_text_le.
Definition l_by_updated : relation leg := by_key (λ l, (l_updated l, l_id l)) text_text_le.
(** [ORDER BY ordinal, created_at, id] *)
Definition l_by_ordinal : relation leg := λ a b,
  l_ordinal a < l_ordinal b ∨ l_ordinal a = l_ordinal b ∧ l_by_created a b.
#[global] Instance x_by_created_dec : RelDecision x_by_created := _.
#[global] Instance x_by_updated_dec : RelDecision x_by_updated := _.
#[global] Instance x_by_expiry_dec : RelDecision x_by_expiry := _.
#[global] Instance l_by_created_dec : RelDecision l_by_created := _.
#[global] Instance l_by_updated_dec : RelDecision l_by_updated := _.
#[global] Instance l_by_ordinal_dec : RelDecision l_by_ordinal.
Proof. intros a b. unfold l_by_ordinal. apply _. Defined.

Definition get_exchange (id : string) (db : xdb) : option exchange := exchanges db !! id.
Definition get_exchange_leg (id : string) (db : xdb) : option leg := legs db !! id.

Definition of_exchange (id : string) (l : leg) : bool := String.eqb (l_exchange l) id.

Definition get_exchange_first_leg (id : string) (db : xdb) : option leg :=
  head (select_ordered (λ l, of_exchange id l && (l_ordinal l =? 1)) l_by_created (legs db)).

Definition pending_reciprocal_route_effects (db : xdb) : list (exchange * option leg) :=
  (λ x, (x, get_exchange_first_leg (x_id x) db)) <$>
    select_ordered (λ x, negb (String.eqb (x_effect x) "") && String.eqb (x_rstate x) "pending")
      x_by_created (exchanges db).

Definition exchange_legs (id : string) (db : xdb) : list leg :=
  select_ordered (of_exchange id) l_by_ordinal (legs db).

Definition exchanges_for_authorization_run (run : string) (db : xdb) : list exchange :=
  select_ordered (λ x, String.eqb (x_run x) run) x_by_created (exchanges db).

Definition pending_exchange_legs (db : xdb) : list leg :=
  select_ordered (is_l L_PENDING) l_by_created (legs db).

(** The active leg of every active exchange, in the order of the exchanges. *)
Definition recoverable_active_exchange_legs (db : xdb) : list leg :=
  omap (λ x, id ← x_active x; legs db !! id)
    (select_ordered (is_x [XActive]) x_by_created (exchanges db)).

Definition terminal_exchange_failures_missing_status (db : xdb) : list exchange :=
  select_ordered (λ x, is_x [XFailed; XExpired] x && bool_decide (is_Some (x_active x))
      && bool_decide (select_one (λ l, of_exchange (x_id x) l && bool_decide (l_kind l = KStatus)) (legs db) = None))
    x_by_updated (exchanges db).

Definition terminal_exchange_legs_with_queue_owner (db : xdb) : list leg :=
  select_ordered (λ l, is_l L_TERMINAL l && bool_decide (is_Some (l_queued l))) l_by_updated (legs db).

(** The lifecycle outbox: terminal rows whose event is not recorded. *)
Definition pending_exchange_lifecycle (db : xdb) : list exchange * list leg :=
  (select_ordered (λ x, is_x X_TERMINAL x && negb (String.eqb (x_lifecycle x) (xstatus_text (x_status x))))
     x_by_created (exchanges db),
   select_ordered (λ l, is_l L_TERMINAL l && negb (String.eqb (l_lifecycle l) (lstatus_text (l_status l))))
     l_by_created (legs db)).

Definition nonterminal_exchanges_for_session (session : string) (db : xdb) : list exchange :=
  select_ordered (λ x, (String.eqb (x_requester x) session || String.eqb (x_responder x) session)
                       && is_x X_OPEN x) x_by_created (exchanges db).

Definition recoverable_exchanges (db : xdb) : list exchange :=
  select_ordered (is_x X_OPEN) x_by_created (exchanges db).

Definition expirable_exchanges (timestamp : string) (db : xdb) : list exchange :=
  select_ordered (λ x, is_x X_OPEN x && negb (x_live_requested x)
                       && bool_decide (String.le (x_expires x) timestamp)) x_by_expiry (exchanges db).

(** ** Runs of the ledger *)

Inductive xop :=
| XObligation (now id requester run responder : string) (max_legs : Z) (expires instruction : string)
| XRoute (now instance : string) (q : route_request)
| XRebind (now : string) (ids : list string) (old new : string)
| XReciprocal (now id effect route : string)
| XDowngrade (now id active_leg instance : string)
| XInitial (now instance leg_id id source run target body key : string) (live : bool)
| XRespond (now leg_id id inbound source run body key : string) (request automatic : bool)
| XUpdateLeg (now id : string) (expected : list lstatus) (p : leg_patch)
| XUpdate (now id : string) (expected : list xstatus) (p : exchange_patch)
| XCancelQueued (now id leg_id target queued code error : string)
| XCancel (now id : string) (o : outcome) (code error : string)
| XFinish (now leg_id : string) (st : lstatus) (code error : option string) (preserve : bool)
| XStatus (now leg_id id source target body code : string).

Definition xapply (sha256 : string → string) (o : xop) (db : xdb) : res xdb :=
  match o with
  | XObligation now id requester run responder max_legs expires instruction =>
      '(db, _) ← create_exchange_obligation now id requester run responder max_legs expires instruction db; Ok db
  | XRoute now instance q => '(db, _) ← create_route_exchange_request sha256 now instance q db; Ok db
  | XRebind now ids old new => rebind_exchange_source_run now ids old new db
  | XReciprocal now id effect route => '(db, _) ← mark_reciprocal_route_applied now id effect route db; Ok db
  | XDowngrade now id active_leg instance => Ok (downgrade_live_exchange now id active_leg instance db).1
  | XInitial now instance leg_id id source run target body key live =>
      '(db, _) ← create_initial_exchange_leg sha256 now instance leg_id id source run target body key live db; Ok db
  | XRespond now leg_id id inbound source run body key request automatic =>
      '(db, _) ← commit_exchange_response sha256 now leg_id id inbound source run body key request automatic db; Ok db
  | XUpdateLeg now id expected p => Ok (update_exchange_leg now id expected p db).1
  | XUpdate now id expected p => '(db, _) ← update_exchange now id expected p db; Ok db
  | XCancelQueued now id leg_id target queued code error =>
      '(db, _) ← cancel_exact_queued_exchange_leg now id leg_id target queued code error db; Ok db
  | XCancel now id o code error => '(db, _) ← cancel_exchange now id o code error db; Ok db
  | XFinish now leg_id st code error preserve =>
      '(db, _) ← finish_exchange_leg now leg_id st code error preserve db; Ok db
  | XStatus now leg_id id source target body code =>
      '(db, _) ← create_exchange_status_leg sha256 now leg_id id source target body code db; Ok db
  end.

(** What the server passes: every conversation has room for an answer; a
    leg's columns are written while it is pending, and afterwards only its
    outbox and its queue row; an exchange is only ended, or its outbox
    written; a leg is finished with a terminal status.  No leg id is empty. *)
Definition leg_patch_used (expected : list lstatus) (p : leg_patch) : Prop :=
  expected ⊆ L_PENDING ∧ expected ≠ [] ∧ lp_response p ∈ [None; Some RClosed] ∧ lp_status p ≠ Some LDelivered
  ∨ lp_status p = None ∧ lp_response p = None.

Definition exchange_patch_used (expected : list xstatus) (p : exchange_patch) : Prop :=
  xp_used p = None ∧ xp_active p = None ∧
  (xp_status p = None ∨
   expected ⊆ X_OPEN ∧ expected ≠ [] ∧ xp_status p ∈ [Some XFailed; Some XCancelled; Some XExpired]).

Definition op_used (o : xop) : Prop :=
  match o with
  | XObligation _ _ _ _ _ max_legs _ _ => 2 ≤ max_legs
  | XRoute _ _ q => 2 ≤ rr_max q ∧ rr_leg q ≠ ""
  | XInitial _ _ leg_id _ _ _ _ _ _ _ | XRespond _ leg_id _ _ _ _ _ _ _ _ | XStatus _ leg_id _ _ _ _ _ => leg_id ≠ ""
  | XUpdateLeg _ _ expected p => leg_patch_used expected p
  | XUpdate _ _ expected p => exchange_patch_used expected p
  | XFinish _ _ st _ _ _ => st ∈ L_TERMINAL
  | _ => True
  end.

Definition xstep (sha256 : string → string) (o : xop) (db db' : xdb) : Prop :=
  op_used o ∧ xapply sha256 o db = Ok db'.
