(* ===== verification/ExchangeWf.v ===== *)
(** * The exchange ledger stays well formed

    The shape of [Exchanges]: the legs of an exchange are numbered from 1
    without gaps, the two chats take turns, each leg answers the one before,
    and the active leg is the last one.  Every method preserves it. *)
From S2P Require Import Prelude PyValues Exchanges.

Open Scope string_scope.
Open Scope Z_scope.
Open Scope list_scope.

(** ** What a method may do to a row *)

(** A leg's place and content never change; a response is given once; a
    terminal leg keeps its status and its answer. *)
Record leg_le (l l' : leg) : Prop := {
  ll_place : (l_id l', l_exchange l', l_parent l', l_ordinal l') = (l_id l, l_exchange l, l_parent l, l_ordinal l);
  ll_chats : (l_source l', l_target l', l_source_run l', l_owner_run l')
             = (l_source l, l_target l, l_source_run l, l_owner_run l);
  ll_said : (l_kind l', l_expects l', l_body l', l_key l') = (l_kind l, l_expects l, l_body l, l_key l);
  ll_open : l_response l' = ROpen → l_response l = ROpen;
  ll_terminal : is_l L_TERMINAL l = true →
    l_status l' = l_status l ∧ (l_response l ≠ ROpen → l_response l' = l_response l);
}.

#[global] Instance leg_le_preorder : PreOrder leg_le.
Proof.
  split.
  - by intros l.
  - intros l l' l'' [P C S O T] [P' C' S' O' T']. split; [congruence..|auto|].
    intros Ht. destruct (T Ht) as [Hs Hr].
    assert (is_l L_TERMINAL l' = true) as Ht' by (unfold is_l in *; by rewrite Hs).
    destruct (T' Ht') as [Hs' Hr']. split; [congruence|]. intros Ho.
    specialize (Hr Ho). rewrite Hr' by congruence. done.
Qed.

(** The parties and the budget of an exchange never change, and a terminal
    exchange is frozen. *)
Record x_le (x x' : exchange) : Prop := {
  xl_parties : (x_id x', x_requester x', x_responder x', x_max x')
               = (x_id x, x_requester x, x_responder x, x_max x);
  xl_used : x_used x ≤ x_used x';
  xl_active : x_used x' = x_used x → x_active x' = x_active x;
  xl_waiting : x_status x' = XWaiting → x_status x = XWaiting;
  xl_terminal : is_x X_TERMINAL x = true → x_status x' = x_status x ∧ x_used x' = x_used x;
}.

#[global] Instance x_le_preorder : PreOrder x_le.
Proof.
  split; [by intros x|].
  intros x x' x'' [P U A W T] [P' U' A' W' T']. split; [congruence|lia| |auto|].
  - intros Hu. rewrite A', A by lia. done.
  - intros Ht. destruct (T Ht) as [Hs Hu].
    assert (is_x X_TERMINAL x' = true) as Ht' by (unfold is_x in *; by rewrite Hs).
    destruct (T' Ht') as [Hs' Hu']. split; congruence.
Qed.

(** ** The invariant *)

(** Who speaks at an ordinal, and to whom. *)
Definition speaker (x : exchange) (n : Z) : string * string :=
  if Z.odd n then (x_requester x, x_responder x) else (x_responder x, x_requester x).

Definition conversation (l : leg) : bool := negb (bool_decide (l_kind l = KStatus)).

(** The leg [p] is answered by the one with ordinal [n] of exchange [id]. *)
Definition answers (ls : gmap string leg) (id p : string) (n : Z) : Prop :=
  ∃ l, ls !! p = Some l ∧ l_exchange l = id ∧ l_ordinal l = n - 1 ∧ conversation l = true
    ∧ l_response l ≠ ROpen.

Definition leg_ok (db : xdb) (l : leg) : Prop :=
  ∃ x, exchanges db !! l_exchange l = Some x ∧
  if conversation l then
    1 ≤ l_ordinal l ≤ x_used x ∧ (l_source l, l_target l) = speaker x (l_ordinal l)
    ∧ (l_expects l = true → l_kind l = KRequest)
    ∧ match l_parent l with
      | None => l_ordinal l = 1
      | Some p => answers (legs db) (l_exchange l) p (l_ordinal l)
      end
  else l_ordinal l = 0 ∧ l_parent l = None ∧ l_response l ≠ ROpen.

(** The leg of exchange [id] with an ordinal. *)
Definition leg_at (ls : gmap string leg) (id : string) (n : Z) (l : leg) : Prop :=
  ls !! l_id l = Some l ∧ l_exchange l = id ∧ conversation l = true ∧ l_ordinal l = n.

Definition completed_ok (ls : gmap string leg) (x : exchange) : Prop :=
  ∃ l, leg_at ls (x_id x) (x_used x) l ∧ l_status l = LDelivered ∧ l_expects l = false ∧ l_response l = RClosed.

Record exchange_ok (db : xdb) (x : exchange) : Prop := {
  xo_parties : x_requester x ≠ x_responder x;
  xo_budget : 0 ≤ x_used x ≤ x_max x ∧ 2 ≤ x_max x ≤ 6;
  xo_waiting : x_status x = XWaiting → x_used x = 0;
  xo_unused : x_used x = 0 → x_status x ≠ XActive ∧ x_active x = None;
  xo_legs n : 1 ≤ n ≤ x_used x → ∃ l, leg_at (legs db) (x_id x) n l
    ∧ (n = x_used x → x_active x = Some (l_id l) ∧ (l_expects l = true → x_used x < x_max x));
  xo_completed : x_status x = XCompleted → completed_ok (legs db) x;
}.

Record xwf (db : xdb) : Prop := {
  wf_xid k x : exchanges db !! k = Some x → x_id x = k;
  wf_lid k l : legs db !! k = Some l → l_id l = k ∧ k ≠ "";
  wf_unique k k' l l' : legs db !! k = Some l → legs db !! k' = Some l' → k ≠ k' → leg_clash l l' = false;
  wf_x k x : exchanges db !! k = Some x → exchange_ok db x;
  wf_l k l : legs db !! k = Some l → leg_ok db l;
}.

Lemma xwf_empty : xwf empty_xdb.
Proof. split; intros *; cbn; rewrite ?lookup_empty; done. Qed.

(** ** Updates that keep the shape *)

(** No exchange moves to another leg; it may end, as completed only when its
    last leg was delivered and awaits no answer. *)
Record x_frame (ls : gmap string leg) (x x' : exchange) : Prop := {
  xf_le : x_le x x';
  xf_used : x_used x' = x_used x;
  xf_status : x_status x' = x_status x ∨ is_x X_OPEN x = true ∧ is_x X_TERMINAL x' = true;
  xf_completed : x_status x' = XCompleted →
    x_status x = XCompleted ∨ x_status x = XActive ∧ completed_ok ls x';
}.

Definition legs_frame (m m' : gmap string leg) : Prop :=
  ∀ k, option_Forall2 leg_le (m !! k) (m' !! k).
Definition exchanges_frame (ls : gmap string leg) (m m' : gmap string exchange) : Prop :=
  ∀ k, option_Forall2 (x_frame ls) (m !! k) (m' !! k).

Lemma leg_le_conversation l l' : leg_le l l' → conversation l' = conversation l.
Proof. intros [_ _ S _ _]. unfold conversation. by injection S as -> _ _ _. Qed.

Lemma leg_clash_le l l' k k' :
  leg_le l k → leg_le l' k' → leg_clash k k' = leg_clash l l'.
Proof.
  intros [P C S _ _] [P' C' S' _ _]. unfold leg_clash.
  injection P as _ -> -> ->. injection P' as _ -> -> ->. injection C as _ _ -> _.
  injection C' as _ _ -> _. injection S as _ _ _ ->. by injection S' as _ _ _ ->.
Qed.

Lemma leg_at_le ls ls' id n l :
  legs_frame ls ls' → leg_at ls id n l → ∃ l', leg_at ls' id n l' ∧ leg_le l l'.
Proof.
  intros Hf (Hl & Hid & Hc & Hn). destruct (forall2_fwd _ _ _ _ (Hf _) Hl) as (l' & Hl' & Hle).
  exists l'. split; [|done]. unfold leg_at. rewrite (leg_le_conversation _ _ Hle).
  destruct Hle as [P _ _ _ _]. injection P as -> -> _ ->. done.
Qed.

Lemma answers_le ls ls' id p n : legs_frame ls ls' → answers ls id p n → answers ls' id p n.
Proof.
  intros Hf (l & Hl & Hid & Hn & Hc & Ho). destruct (forall2_fwd _ _ _ _ (Hf _) Hl) as (l' & Hl' & Hle).
  exists l'. rewrite (leg_le_conversation _ _ Hle). destruct Hle as [P _ _ O _]. injection P as _ -> _ ->.
  split_and!; auto.
Qed.

Lemma leg_ok_frame db db' l l' :
  legs_frame (legs db) (legs db') → exchanges_frame (legs db') (exchanges db) (exchanges db') →
  leg_le l l' → leg_ok db l → leg_ok db' l'.
Proof.
  intros Hf Hx Hle (x & Ex & Hl). destruct (forall2_fwd _ _ _ _ (Hx _) Ex) as (x' & Ex' & [[Hp _ _ _ _] Hu _ _]).
  exists x'. rewrite (leg_le_conversation _ _ Hle). pose proof Hle as [P C S O T].
  injection P as _ -> -> ->. injection C as -> -> _ _. injection S as -> -> _ _.
  split; [done|]. unfold speaker in *. injection Hp as _ -> -> _. rewrite Hu.
  destruct (conversation l) eqn:Hc.
  - destruct Hl as (? & ? & ? & Hpar). do 3 (split; [done|]).
    destruct (l_parent l) as [p|]; [by eapply answers_le|done].
  - destruct Hl as (? & ? & Hr). split_and!; auto.
Qed.

Lemma completed_ok_le ls ls' x x' :
  legs_frame ls ls' → (x_id x', x_used x') = (x_id x, x_used x) → completed_ok ls x → completed_ok ls' x'.
Proof.
  intros Hf [= Hid Hu] (l & Hat & Hs & He & Hr). unfold completed_ok. rewrite Hid, Hu.
  destruct (leg_at_le _ _ _ _ _ Hf Hat) as (l' & Hat' & [_ _ S _ T]).
  exists l'. split; [done|]. injection S as _ -> _ _.
  destruct T as [-> HT]; [unfold is_l; by rewrite Hs|]. rewrite HT by (by rewrite Hr). done.
Qed.

Lemma exchange_ok_frame db db' x x' :
  legs_frame (legs db) (legs db') → x_frame (legs db') x x' → exchange_ok db x → exchange_ok db' x'.
Proof.
  intros Hf [[P _ A W T] Hu Hst Hcomp] [O1 O2 O3 O4 O5 O6].
  injection P as Hid Hreq Hresp Hmax. split; rewrite ?Hreq, ?Hresp, ?Hmax, ?Hu.
  - done.
  - done.
  - auto.
  - intros H0. destruct (O4 H0) as [H1 H2]. split; [|by rewrite A].
    destruct Hst as [->|[_ Ht]]; [done|]. intros E. unfold is_x in Ht. by rewrite E in Ht.
  - intros n Hn. destruct (O5 n Hn) as (l & Hat & Hlast). rewrite Hid.
    destruct (leg_at_le _ _ _ _ _ Hf Hat) as (l' & Hat' & [P' _ S' _ _]). exists l'. split; [done|].
    intros ->. destruct Hlast as [H1 H2]; [done|]. injection P' as -> _ _ _. injection S' as _ -> _ _.
    split; [|done]. by rewrite A.
  - intros Hc. destruct (Hcomp Hc) as [Hc'|[_ ?]]; [|done].
    eapply completed_ok_le; [done| |by apply O6]. by rewrite Hid, Hu.
Qed.

(** A change of rows that moves no leg and no exchange keeps the invariant. *)
Lemma xwf_frame db db' :
  xwf db → legs_frame (legs db) (legs db') →
  exchanges_frame (legs db') (exchanges db) (exchanges db') → xwf db'.
Proof.
  intros [W1 W2 W3 W4 W5] Hf Hx. split.
  - intros k x' E. destruct (forall2_bwd _ _ _ _ (Hx k) E) as (x & Ex & [[P _ _ _ _] _ _ _]).
    injection P as -> _ _ _. by apply W1.
  - intros k l' E. destruct (forall2_bwd _ _ _ _ (Hf k) E) as (l & El & [P _ _ _ _]).
    injection P as -> _ _ _. by apply W2.
  - intros k1 k2 l1' l2' E1 E2 Hne.
    destruct (forall2_bwd _ _ _ _ (Hf k1) E1) as (l1 & El1 & H1), (forall2_bwd _ _ _ _ (Hf k2) E2) as (l2 & El2 & H2).
    rewrite (leg_clash_le _ _ _ _ H1 H2). by eapply W3.
  - intros k x' E. destruct (forall2_bwd _ _ _ _ (Hx k) E) as (x & Ex & H).
    eapply exchange_ok_frame; [done|done|by eapply W4].
  - intros k l' E. destruct (forall2_bwd _ _ _ _ (Hf k) E) as (l & El & H).
    eapply leg_ok_frame; [done|done|done|by eapply W5].
Qed.

(** *** One row *)

Lemma legs_frame_refl m : legs_frame m m.
Proof. intros k. by destruct (m !! k); constructor. Qed.

Lemma legs_frame_trans m1 m2 m3 : legs_frame m1 m2 → legs_frame m2 m3 → legs_frame m1 m3.
Proof. intros H1 H2 k. by transitivity (m2 !! k). Qed.

Lemma update_row_forall2 {K A} `{Countable K} (R : relation A) `{!Reflexive R} k P f (m : gmap K A) :
  (∀ r, m !! k = Some r → P r = true → R r (f r)) →
  ∀ j, option_Forall2 R (m !! j) (update_row k P f m !! j).
Proof.
  intros Hr j. rewrite update_row_lookup. destruct (decide (j = k)) as [->|]; [|done].
  destruct (m !! k) as [r|] eqn:E; cbn; constructor. destruct (P r) eqn:HP; [by apply Hr|done].
Qed.

Lemma set_leg_frame k P f db :
  (∀ l, legs db !! k = Some l → P l = true → leg_le l (f l)) → legs_frame (legs db) (legs (set_leg k P f db)).
Proof. intros Hr j. by apply update_row_forall2. Qed.

#[global] Instance x_frame_refl ls : Reflexive (x_frame ls).
Proof. intros x. split; [done|done|by left|by left]. Qed.

Lemma exchanges_frame_refl ls m : exchanges_frame ls m m.
Proof. intros k. reflexivity. Qed.

Lemma set_exchange_frame ls k P f db :
  (∀ x, exchanges db !! k = Some x → P x = true → x_frame ls x (f x)) →
  exchanges_frame ls (exchanges db) (exchanges (set_exchange k P f db)).
Proof.
  intros Hr j. apply (update_row_forall2 (x_frame ls)). done.
Qed.

(** ** Inserts *)

Lemma leg_clash_sym l l' : leg_clash l l' = leg_clash l' l.
Proof.
  unfold leg_clash. rewrite (String.eqb_sym (l_exchange l)), (Z.eqb_sym (l_ordinal l)),
    (String.eqb_sym (l_source_run l)), (String.eqb_sym (l_key l)). f_equal.
  destruct (l_parent l) as [a|], (l_parent l') as [b|]; try done. cbn.
  apply bool_decide_ext. naive_solver.
Qed.

Lemma insert_exchange_Ok x db db' :
  insert_exchange x db = Ok db' →
  exchanges db !! x_id x = None ∧ exchange_checks x = true
  ∧ db' = XDB (<[x_id x := x]> (exchanges db)) (legs db).
Proof.
  unfold insert_exchange. intros E. inv_res. apply orb_false_iff in H as [H1 H2].
  apply bool_decide_eq_false in H1. split_and!; [by apply eq_None_not_Some|by apply negb_false_iff|done].
Qed.

Lemma insert_leg_Ok l db db' :
  insert_leg l db = Ok db' →
  legs db !! l_id l = None ∧ is_Some (exchanges db !! l_exchange l) ∧ l_source l ≠ l_target l
  ∧ (∀ k l', legs db !! k = Some l' → leg_clash l l' = false)
  ∧ db' = XDB (exchanges db) (<[l_id l := l]> (legs db)).
Proof.
  unfold insert_leg. intros E. inv_res.
  apply orb_false_iff in H as [[[H1 H2]%orb_false_iff H3]%orb_false_iff H4].
  apply bool_decide_eq_false in H1, H2, H4. apply String.eqb_neq in H3. split_and!; [|by apply not_eq_None_Some|done| |done].
  - by apply eq_None_not_Some.
  - apply select_one_None. by apply eq_None_not_Some.
Qed.

(** The legs of an exchange that is not there. *)
Lemma no_legs db id k l : xwf db → exchanges db !! id = None → legs db !! k = Some l → l_exchange l ≠ id.
Proof. intros W Hn Hl E. destruct (wf_l _ W _ _ Hl) as (x & Hx & _). by rewrite E, Hn in Hx. Qed.

Lemma leg_ok_insert_exchange db l x :
  leg_ok db l → exchanges db !! x_id x = None → leg_ok (XDB (<[x_id x := x]> (exchanges db)) (legs db)) l.
Proof.
  intros (y & Hy & Hl) Hn. exists y. split; [|done]. cbn.
  rewrite lookup_insert_ne; [done|]. intros E. by rewrite E, Hy in Hn.
Qed.

(** A new exchange waits for its request. *)
Lemma xwf_new_exchange db x :
  xwf db → exchanges db !! x_id x = None → exchange_checks x = true → 2 ≤ x_max x →
  x_used x = 0 → x_active x = None → x_status x = XWaiting →
  xwf (XDB (<[x_id x := x]> (exchanges db)) (legs db)).
Proof.
  intros W Hn Hc Hm Hu Ha Hs. pose proof W as [W1 W2 W3 W4 W5]. split; cbn; [|done|done|..].
  - intros k y. destruct (decide (k = x_id x)) as [->|]; [rewrite lookup_insert_eq; congruence|].
    rewrite lookup_insert_ne by done. apply W1.
  - intros k y. destruct (decide (k = x_id x)) as [->|].
    + rewrite lookup_insert_eq. intros [= <-]. unfold exchange_checks in Hc.
      repeat (apply andb_true_iff in Hc as [Hc ?]). apply negb_true_iff in H.
      split; rewrite ?Hs; try done; try lia.
      by apply String.eqb_neq.
    + rewrite lookup_insert_ne by done. intros Hy. destruct (W4 _ _ Hy). by split.
  - intros k l Hl. apply leg_ok_insert_exchange; [by eapply W5|done].
Qed.

(** Legs stay in place when one is inserted. *)
Lemma leg_at_insert ls id n l k l0 :
  leg_at ls id n l → ls !! k = None → leg_at (<[k := l0]> ls) id n l.
Proof.
  intros (Hl & H) Hk. split; [|done]. rewrite lookup_insert_ne; [done|]. intros ->. by rewrite Hl in Hk.
Qed.

Lemma answers_insert ls id p n k l0 :
  answers ls id p n → ls !! k = None → answers (<[k := l0]> ls) id p n.
Proof.
  intros (l & Hl & H) Hk. exists l. split; [|done]. rewrite lookup_insert_ne; [done|]. intros ->. by rewrite Hl in Hk.
Qed.

(** Legs and exchanges after a leg is inserted into [db]; [x] may be the
    exchange of that leg, with one more leg used. *)
Lemma leg_ok_grow ls xs ls' xs' l k l0 x' :
  leg_ok (XDB xs ls) l → ls !! k = None → ls' = <[k := l0]> ls →
  (∀ x, xs !! x_id x' = Some x → x_used x ≤ x_used x' ∧ (x_requester x', x_responder x') = (x_requester x, x_responder x)) →
  xs' = <[x_id x' := x']> xs → leg_ok (XDB xs' ls') l.
Proof.
  intros (x & Hx & Hl) Hk -> Hgrow ->. unfold leg_ok. cbn in *.
  assert (∃ y, <[x_id x' := x']> xs !! l_exchange l = Some y ∧ x_used x ≤ x_used y
    ∧ (x_requester y, x_responder y) = (x_requester x, x_responder x)) as (y & Hy & Hu & [= Hq Hr]).
  { destruct (decide (l_exchange l = x_id x')) as [E|E].
    - rewrite E, lookup_insert_eq in *. eauto.
    - rewrite lookup_insert_ne by done. eauto using Z.le_refl. }
  exists y. split; [done|]. unfold speaker in *. rewrite Hq, Hr. destruct (conversation l).
  - destruct Hl as (? & ? & ? & Hpar). split; [lia|]. do 2 (split; [done|]).
    destruct (l_parent l); [by apply answers_insert|done].
  - done.
Qed.

Lemma exchange_ok_insert xs xs' ls x k l :
  exchange_ok (XDB xs ls) x → ls !! k = None → exchange_ok (XDB xs' (<[k := l]> ls)) x.
Proof.
  intros [O1 O2 O3 O4 O5 O6] Hk. split; try done.
  - intros n Hn. destruct (O5 n Hn) as (l' & Hat & ?). exists l'. split; [|done]. by apply leg_at_insert.
  - intros Hc. destruct (O6 Hc) as (l' & Hat & ?). exists l'. split; [|done]. by apply leg_at_insert.
Qed.

Lemma unique_insert (ls : gmap string leg) k l :
  (∀ k k' l l', ls !! k = Some l → ls !! k' = Some l' → k ≠ k' → leg_clash l l' = false) →
  (∀ k' l', ls !! k' = Some l' → leg_clash l l' = false) →
  ∀ k1 k2 l1 l2, <[k := l]> ls !! k1 = Some l1 → <[k := l]> ls !! k2 = Some l2 → k1 ≠ k2 → leg_clash l1 l2 = false.
Proof.
  intros Hu Hl k1 k2 l1 l2 H1 H2 Hne. apply lookup_insert_Some in H1, H2.
  destruct H1 as [[-> <-]|[Hk1 H1]], H2 as [[-> <-]|[Hk2 H2]]; [done|by eapply Hl| |by eapply Hu].
  rewrite leg_clash_sym. by eapply Hl.
Qed.

(** A leg without conversation. *)
Lemma xwf_status_leg db l db' :
  xwf db → insert_leg l db = Ok db' → l_id l ≠ "" → conversation l = false →
  l_ordinal l = 0 → l_parent l = None → l_response l ≠ ROpen → xwf db'.
Proof.
  intros W (Hn & [x Hx] & _ & Hclash & ->)%insert_leg_Ok Hid Hc Ho Hp Hr.
  pose proof W as [W1 W2 W3 W4 W5]. destruct db as [xs ls]; cbn in *. split; cbn.
  - done.
  - intros k l'. rewrite lookup_insert_Some. intros [[<- <-]|[_ Hl]]; [done|by eapply W2].
  - by apply unique_insert.
  - intros k y Hy. eapply exchange_ok_insert; [by eapply W4|done].
  - intros k l'. rewrite lookup_insert_Some. intros [[<- <-]|[_ Hl]].
    + exists x. by rewrite Hc.
    + eapply (leg_ok_grow ls xs _ _ l' _ l x); [by eapply W5|done|done| |].
      * intros y. rewrite (W1 _ _ Hx), Hx. intros [= <-]. by split.
      * rewrite (W1 _ _ Hx). by rewrite insert_id.
Qed.

(** The exchange [x] goes on to [x'] with the new leg [l]. *)
Record continues (ls : gmap string leg) (x x' : exchange) (l : leg) : Prop := {
  co_le : x_le x x';
  co_used : x_used x' = x_used x + 1;
  co_active : x_active x' = Some (l_id l);
  co_status : x_status x' = XActive;
  co_budget : x_used x' ≤ x_max x ∧ (l_expects l = true → x_used x' < x_max x);
  co_leg : l_id l ≠ "" ∧ l_exchange l = x_id x ∧ conversation l = true ∧ l_ordinal l = x_used x';
  co_speaker : (l_source l, l_target l) = speaker x (x_used x');
  co_kind : l_expects l = true → l_kind l = KRequest;
  co_parent : match l_parent l with
    | None => x_used x = 0
    | Some p => x_active x = Some p ∧ answers ls (x_id x) p (x_used x')
    end;
}.

Lemma speaker_le x x' n : x_le x x' → speaker x' n = speaker x n.
Proof. intros [[= _ Hq Hr _] _ _ _ _]. unfold speaker. by rewrite Hq, Hr. Qed.

Lemma continues_leg_ok xs ls x x' l :
  continues ls x x' l → ls !! l_id l = None → xs !! x_id x = Some x' → 0 <= x_used x →
  leg_ok (XDB xs (<[l_id l := l]> ls)) l.
Proof.
  intros [Hle Hu Ha Hs Hb (Hid & He & Hc & Ho) Hsp Hk Hp] Hn Hx Hpos. exists x'. cbn. rewrite He.
  split; [done|]. rewrite Hc, Ho, (speaker_le _ _ _ Hle). split; [lia|]. do 2 (split; [done|]).
  destruct (l_parent l) as [p|]; [|lia]. apply answers_insert; [by apply Hp|done].
Qed.

Lemma continues_exchange_ok xs xs' ls x x' l :
  continues ls x x' l → exchange_ok (XDB xs ls) x → ls !! l_id l = None →
  exchange_ok (XDB xs' (<[l_id l := l]> ls)) x'.
Proof.
  intros [Hle Hu Ha Hs [Hb1 Hb2] (Hid & He & Hc & Ho) Hsp Hk Hp] O Hn.
  pose proof (exchange_ok_insert _ xs' _ _ (l_id l) l O Hn) as [O1 O2 O3 O4 O5 O6].
  pose proof Hle as [[= Hx Hq Hr Hm] _ _ _ _].
  split; rewrite ?Hq, ?Hr, ?Hm, ?Hs; try done; try lia.
  intros n Hrange. rewrite Hx. destruct (decide (n = x_used x')) as [->|Hne].
  - exists l. split; [|done]. unfold leg_at. cbn. by rewrite lookup_insert_eq.
  - destruct (O5 n) as (l' & Hat & _); [lia|]. exists l'. split; [done|]. intros ->. done.
Qed.

Lemma xwf_continue db x x' l :
  xwf db → exchanges db !! x_id x = Some x → legs db !! l_id l = None →
  (∀ k l', legs db !! k = Some l' → leg_clash l l' = false) →
  continues (legs db) x x' l →
  xwf (XDB (<[x_id x := x']> (exchanges db)) (<[l_id l := l]> (legs db))).
Proof.
  intros W Hx Hn Hclash C. pose proof W as [W1 W2 W3 W4 W5]. destruct db as [xs ls]; cbn in *.
  pose proof (co_le _ _ _ _ C) as Hle. pose proof Hle as [[= Hid Hq Hr Hm] _ _ _ _].
  pose proof (co_leg _ _ _ _ C) as (Hl & _).
  pose proof (xo_budget _ _ (W4 _ _ Hx)) as [Hpos _].
  split; cbn.
  - intros k y. rewrite lookup_insert_Some. intros [[<- <-]|[_ Hy]]; [done|by apply W1].
  - intros k l'. rewrite lookup_insert_Some. intros [[<- <-]|[_ Hl']]; [done|by apply W2].
  - by apply unique_insert.
  - intros k y. rewrite lookup_insert_Some. intros [[<- <-]|[_ Hy]].
    + eapply continues_exchange_ok; [done|by eapply W4|done].
    + eapply exchange_ok_insert; [by eapply W4|done].
  - intros k l'. rewrite lookup_insert_Some. intros [[<- <-]|[_ Hl']].
    + eapply continues_leg_ok; [done|done| |lia]. by rewrite lookup_insert_eq.
    + eapply (leg_ok_grow ls xs _ _ l' _ l x'); [by eapply W5|done|done| |by rewrite Hid].
      intros y. rewrite Hid, Hx. intros [= <-]. rewrite (co_used _ _ _ _ C). split; [lia|congruence].
Qed.

(** ** Effects

    What a method does to the two tables, whatever the method. *)
Inductive xeffect (db db' : xdb) : Prop :=
| eff_frame :
    legs_frame (legs db) (legs db') → exchanges_frame (legs db') (exchanges db) (exchanges db') → xeffect db db'
| eff_open x :
    exchanges db !! x_id x = None → exchange_checks x = true → 2 ≤ x_max x →
    x_used x = 0 → x_active x = None → x_status x = XWaiting →
    db' = XDB (<[x_id x := x]> (exchanges db)) (legs db) → xeffect db db'
| eff_ask x x' l :
    exchanges db !! x_id x = None → exchange_checks x = true → 2 ≤ x_max x →
    x_used x = 0 → x_active x = None → x_status x = XWaiting →
    legs db !! l_id l = None → (∀ k l', legs db !! k = Some l' → leg_clash l l' = false) →
    continues (legs db) x x' l →
    db' = XDB (<[x_id x := x']> (exchanges db)) (<[l_id l := l]> (legs db)) → xeffect db db'
| eff_continue ls x x' l :
    legs_frame (legs db) ls → exchanges db !! x_id x = Some x → is_x X_OPEN x = true →
    ls !! l_id l = None → (∀ k l', ls !! k = Some l' → leg_clash l l' = false) →
    continues ls x x' l →
    db' = XDB (<[x_id x := x']> (exchanges db)) (<[l_id l := l]> ls) → xeffect db db'
| eff_status l :
    insert_leg l db = Ok db' → l_id l ≠ "" → conversation l = false →
    l_ordinal l = 0 → l_parent l = None → l_response l ≠ ROpen → xeffect db db'.

Lemma xwf_effect db db' : xwf db → xeffect db db' → xwf db'.
Proof.
  intros W [Hl Hx | x Hn Hc Hm Hu Ha Hs -> | x x' l Hn Hc Hm Hu Ha Hs Hl Hcl C -> | ls x x' l Hf Hx Ho Hl Hcl C -> | l Hi ? ? ? ? ?].
  - by eapply xwf_frame.
  - by apply xwf_new_exchange.
  - pose proof (xwf_new_exchange db x W Hn Hc Hm Hu Ha Hs) as W'.
    pose proof (xwf_continue _ x x' l W') as W''. cbn in W''. rewrite insert_insert_eq in W''.
    apply W''; [by rewrite lookup_insert_eq|done..].
  - assert (xwf (XDB (exchanges db) ls)) as W'.
    { eapply xwf_frame; [done|done|]. apply exchanges_frame_refl. }
    by apply (xwf_continue _ x x' l W').
  - by eapply xwf_status_leg.
Qed.
