(* ===== verification/ExchangeSteps.v ===== *)
(** * What each method of the exchange ledger does

    Every method, called as the server calls it, is one of the effects of
    [ExchangeWf]; so the ledger stays well formed. *)
From S2P Require Import Prelude PyValues Exchanges ExchangeWf.

Open Scope string_scope.
Open Scope Z_scope.
Open Scope list_scope.

(** ** Row updates *)

(** An update that changes neither place, content, status nor answer. *)
Ltac same_leg := split; cbn; [done|done|done|auto|auto].
Ltac same_exchange :=
  split; [split; [done|apply Z.le_refl|done|done|done]|done|by left|by left].

Lemma eff_same db : xeffect db db.
Proof. apply eff_frame; [apply legs_frame_refl|apply exchanges_frame_refl]. Qed.

Lemma eff_exchange db k P f :
  (∀ x, exchanges db !! k = Some x → P x = true → x_frame (legs db) x (f x)) →
  xeffect db (set_exchange k P f db).
Proof. intros H. apply eff_frame; [apply legs_frame_refl|by apply set_exchange_frame]. Qed.

Lemma eff_leg db k P f :
  (∀ l, legs db !! k = Some l → P l = true → leg_le l (f l)) → xeffect db (set_leg k P f db).
Proof. intros H. apply eff_frame; [by apply set_leg_frame|apply exchanges_frame_refl]. Qed.

Lemma is_x_In l x : is_x l x = true ↔ x_status x ∈ l.
Proof. unfold is_x. by rewrite bool_decide_eq_true. Qed.
Lemma is_l_In l r : is_l l r = true ↔ l_status r ∈ l.
Proof. unfold is_l. by rewrite bool_decide_eq_true. Qed.

Lemma pending_not_terminal l : is_l L_PENDING l = true → is_l L_TERMINAL l = true → False.
Proof. unfold is_l. by destruct (l_status l). Qed.

Lemma pending_leg_le l l' :
  is_l L_PENDING l = true →
  (l_id l', l_exchange l', l_parent l', l_ordinal l') = (l_id l, l_exchange l, l_parent l, l_ordinal l) →
  (l_source l', l_target l', l_source_run l', l_owner_run l')
    = (l_source l, l_target l, l_source_run l, l_owner_run l) →
  (l_kind l', l_expects l', l_body l', l_key l') = (l_kind l, l_expects l, l_body l, l_key l) →
  (l_response l' = ROpen → l_response l = ROpen) → leg_le l l'.
Proof. intros Hp P C S O. split; [done..|]. intros Ht. by destruct (pending_not_terminal l). Qed.

(** An exchange that ends without being completed. *)
Lemma x_frame_end ls x x' :
  is_x X_OPEN x = true → is_x X_TERMINAL x' = true → x_status x' ≠ XCompleted →
  (x_id x', x_requester x', x_responder x', x_max x', x_used x', x_active x')
  = (x_id x, x_requester x, x_responder x, x_max x, x_used x, x_active x) →
  x_frame ls x x'.
Proof.
  intros Ho Ht Hc [= H1 H2 H3 H4 H5 H6]. split; [split|..]; try done; try lia; try congruence.
  - intros Hw. unfold is_x in Ht. rewrite Hw in Ht. done.
  - intros Ht'. unfold is_x in *. by destruct (x_status x).
  - by right.
Qed.

Lemma insert_legs_frame m k l l' : m !! k = Some l → leg_le l l' → legs_frame m (<[k := l']> m).
Proof.
  intros Hl Hle j. rewrite lookup_insert. case_decide; [subst; rewrite Hl; by constructor|done].
Qed.

Lemma insert_exchanges_frame ls m k x x' :
  m !! k = Some x → x_frame ls x x' → exchanges_frame ls m (<[k := x']> m).
Proof.
  intros Hl Hle j. rewrite lookup_insert. case_decide; [subst; rewrite Hl; by constructor|reflexivity].
Qed.

(** Legs of one exchange have different ordinals. *)
Lemma same_leg_at db k k' l l' :
  xwf db → legs db !! k = Some l → legs db !! k' = Some l' →
  l_exchange l = l_exchange l' → l_ordinal l = l_ordinal l' → k = k'.
Proof.
  intros W Hl Hl' He Ho. destruct (decide (k = k')) as [|Hne]; [done|].
  pose proof (wf_unique _ W _ _ _ _ Hl Hl' Hne) as Hc. unfold leg_clash in Hc.
  by rewrite He, Ho, String.eqb_refl, Z.eqb_refl in Hc.
Qed.

(** Only the last leg of an exchange awaits its answer. *)
Lemma open_is_last db k l x :
  xwf db → legs db !! k = Some l → conversation l = true → l_response l = ROpen →
  exchanges db !! l_exchange l = Some x →
  l_ordinal l = x_used x ∧ x_active x = Some k ∧ (l_expects l = true → x_used x < x_max x).
Proof.
  intros W Hl Hc Hr Hx. destruct (wf_l _ W _ _ Hl) as (x' & Hx' & H). rewrite Hc in H.
  destruct H as (Hrange & _). rewrite Hx in Hx'. injection Hx' as <-.
  pose proof (xo_legs _ _ (wf_x _ W _ _ Hx)) as Hlegs. rewrite (wf_xid _ W _ _ Hx) in Hlegs.
  assert (l_ordinal l = x_used x) as Ho.
  { destruct (decide (l_ordinal l = x_used x)) as [|Hne]; [done|].
    destruct (Hlegs (l_ordinal l + 1)) as (l2 & (Hl2 & He2 & Hc2 & Ho2) & _); [lia|].
    destruct (wf_l _ W _ _ Hl2) as (x2 & _ & H2). rewrite Hc2 in H2. destruct H2 as (_ & _ & _ & Hp).
    destruct (l_parent l2) as [p|]; [|lia]. destruct Hp as (l3 & Hl3 & He3 & Ho3 & _ & Hr3).
    assert (k = p) as -> by (eapply same_leg_at; [done|done|done|congruence|lia]). congruence. }
  destruct (Hlegs (x_used x)) as (l2 & (Hl2 & He2 & Hc2 & Ho2) & Hlast); [lia|].
  destruct Hlast as [Ha Hm]; [done|].
  assert (k = l_id l2) as -> by (eapply same_leg_at; [done|done|done|congruence|lia]).
  rewrite Hl in Hl2. injection Hl2 as E. rewrite <-E in Hm. done.
Qed.

Lemma x_frame_completed ls x x' :
  x_status x = XActive → x_status x' = XCompleted →
  (x_id x', x_requester x', x_responder x', x_max x', x_used x', x_active x')
  = (x_id x, x_requester x, x_responder x, x_max x, x_used x, x_active x) →
  completed_ok ls x' → x_frame ls x x'.
Proof.
  intros Hs Hc [= H1 H2 H3 H4 H5 H6] Hok. split; [split|..]; try done; try lia; try congruence.
  - intros Ht. unfold is_x in Ht. by rewrite Hs in Ht.
  - right. unfold is_x. by rewrite Hs, Hc.
  - by right.
Qed.

(** ** The methods *)

Section methods.
Variable sha256 : string → string.
Implicit Types (db : xdb) (now id : string).

Lemma obligation_effect now id requester run responder m expires instr db db' x :
  xwf db → 2 ≤ m →
  create_exchange_obligation now id requester run responder m expires instr db = Ok (db', x) →
  xeffect db db'.
Proof.
  intros W Hm E. unfold create_exchange_obligation in E. inv_res.
  destruct (exchanges db !! id) as [y|] eqn:Ey; inv_res; [apply eff_same|].
  match goal with H : insert_exchange _ _ = _ |- _ => apply insert_exchange_Ok in H as (? & ? & ->) end.
  by eapply eff_open.
Qed.

Lemma rebind_effect now ids old new db db' :
  rebind_exchange_source_run now ids old new db = Ok db' → xeffect db db'.
Proof.
  unfold rebind_exchange_source_run. destruct ids as [|i ids]; intros E; inv_res; [apply eff_same|].
  apply eff_frame; [apply legs_frame_refl|]. intros k. cbn. rewrite update_where_lookup.
  destruct (exchanges db !! k) as [y|]; constructor. destruct (_ && _); [same_exchange|done].
Qed.

Lemma reciprocal_effect now id effect route db db' r :
  mark_reciprocal_route_applied now id effect route db = Ok (db', r) → xeffect db db'.
Proof.
  unfold mark_reciprocal_route_applied. intros E. inv_res.
  destruct (exchanges db !! id) as [y|]; [|done]. inv_res.
  destruct (String.eqb (x_rstate y) "applied"); inv_res; [apply eff_same|].
  apply eff_exchange. intros z _ _. same_exchange.
Qed.

Lemma downgrade_effect now id active_leg instance db :
  xeffect db (downgrade_live_exchange now id active_leg instance db).1.
Proof. apply eff_exchange. intros z _ _. same_exchange. Qed.

Lemma expire_effect now id e l db : l ⊆ X_OPEN → xeffect db (expire_exchange now id e l db).
Proof.
  intros Hl. apply eff_exchange. intros x _ Hx%is_x_In. apply x_frame_end; try done.
  apply is_x_In. by apply Hl.
Qed.

Lemma update_leg_effect now id expected p db :
  leg_patch_used expected p → xeffect db (update_exchange_leg now id expected p db).1.
Proof.
  intros Hu. unfold update_exchange_leg. destruct (leg_patch_empty p); [apply eff_same|].
  destruct (row_matches _ _ _); [|apply eff_same]. apply eff_leg. intros l _ Hl.
  destruct Hu as [(Hsub & Hne & Hr & _)|[Hs Hr]].
  - assert (l_status l ∈ L_PENDING) as Hpend.
    { apply orb_true_iff in Hl as [Hl%bool_decide_eq_true|Hl%is_l_In]; [done|by apply Hsub]. }
    apply pending_leg_le; cbn; [by apply is_l_In|done..|].
    intros Ho. rewrite !elem_of_cons, elem_of_nil in Hr.
    destruct Hr as [Hr|[Hr|[]]]; rewrite Hr in Ho; done.
  - split; cbn; [done|done|done|by rewrite Hr|]. by rewrite Hs, Hr.
Qed.

Lemma update_effect now id expected p db db' r :
  exchange_patch_used expected p → update_exchange now id expected p db = Ok (db', r) → xeffect db db'.
Proof.
  intros (Hu & Ha & Hs) E. unfold update_exchange in E.
  destruct (exchange_patch_empty p); inv_res; [apply eff_same|].
  destruct (exchanges db !! id) as [y|]; [|inv_res; apply eff_same].
  destruct (_ || _); inv_res; [|apply eff_same].
  apply eff_exchange. intros z _ Hz. destruct Hs as [Hs|(Hsub & Hne & Hs)].
  - split; [split|..]; cbn; rewrite ?Hu, ?Ha, ?Hs; cbn; try done; by left.
  - apply x_frame_end.
    + apply is_x_In. apply orb_true_iff in Hz as [Hz%bool_decide_eq_true|Hz%is_x_In]; [done|by apply Hsub].
    + rewrite !elem_of_cons, elem_of_nil in Hs. destruct Hs as [Hs|[Hs|[Hs|[]]]]; unfold is_x; cbn; by rewrite Hs.
    + rewrite !elem_of_cons, elem_of_nil in Hs. destruct Hs as [Hs|[Hs|[Hs|[]]]]; cbn; by rewrite Hs.
    + cbn. by rewrite Hu, Ha.
Qed.

(** Closing the exchange and its leg in one transaction. *)
Lemma eff_both db kl P f kx Q g :
  (∀ l, legs db !! kl = Some l → P l = true → leg_le l (f l)) →
  (∀ x, exchanges db !! kx = Some x → Q x = true →
     x_frame (legs (set_leg kl P f db)) x (g x)) →
  xeffect db (set_exchange kx Q g (set_leg kl P f db)).
Proof.
  intros Hl Hx. apply eff_frame; [by apply set_leg_frame|].
  apply (set_exchange_frame _ _ _ _ (set_leg kl P f db)). done.
Qed.

Lemma cancel_queued_effect now id leg_id target queued code error db db' r :
  cancel_exact_queued_exchange_leg now id leg_id target queued code error db = Ok (db', r) → xeffect db db'.
Proof.
  unfold cancel_exact_queued_exchange_leg. intros E.
  destruct (legs db !! leg_id) as [l|], (exchanges db !! id) as [y|]; try (inv_res; apply eff_same).
  destruct (negb _); [inv_res; apply eff_same|]. destruct (_ && _); [inv_res; apply eff_same|].
  inv_res.
  assert (∀ l, legs db !! leg_id = Some l →
    String.eqb (l_exchange l) id && String.eqb (l_target l) target
      && bool_decide (l_queued l = Some queued) && is_l [LQueued] l = true →
    leg_le l (l {{ l_status := LCancelled; l_response := RClosed; l_error_code := Some code;
          l_error := Some error; l_lifecycle := ""; l_updated := now }})) as Hle.
  { intros z _ [_ Hz%is_l_In]%andb_true_iff. apply pending_leg_le; try done.
    apply is_l_In. apply list_elem_of_singleton in Hz. rewrite Hz. by repeat constructor. }
  destruct (negb _ && _).
  - apply eff_both; [exact Hle|]. intros z _ [Hz%is_x_In _]%andb_true_iff.
    apply list_elem_of_singleton in Hz. apply x_frame_end; try done. unfold is_x. by rewrite Hz.
  - apply eff_leg. exact Hle.
Qed.

Lemma outcome_x_close o x code error now :
  is_x X_TERMINAL (x_close (outcome_x o) code error now x) = true
  ∧ x_status (x_close (outcome_x o) code error now x) ≠ XCompleted.
Proof. by destruct o. Qed.

Lemma set_leg_exchange kl P f kx Q g db :
  set_leg kl P f (set_exchange kx Q g db) = set_exchange kx Q g (set_leg kl P f db).
Proof. done. Qed.

Lemma cancel_effect now id o code error db db' r :
  cancel_exchange now id o code error db = Ok (db', r) → xeffect db db'.
Proof.
  unfold cancel_exchange. intros E.
  destruct (exchanges db !! id) as [y|]; [|inv_res; apply eff_same]. inv_res. clear H.
  assert (∀ ls z, is_x X_OPEN z = true → x_frame ls z (x_close (outcome_x o) (Some code) (Some error) now z)) as Hx.
  { intros ls z Hz. apply x_frame_end; try done; by apply outcome_x_close. }
  destruct (is_x X_TERMINAL y); [apply eff_same|].
  destruct (active_leg y db) as [l|]; [|by apply eff_exchange; auto].
  destruct (is_l _ l); [|destruct (is_l _ l)]; rewrite ?set_leg_exchange;
    [apply eff_both; [|auto]..|apply eff_exchange; auto].
  - intros z _ Hz%is_l_In. apply pending_leg_le; try done. apply is_l_In. set_solver.
  - intros z _ Hz%is_l_In. apply pending_leg_le; try done. apply is_l_In. set_solver.
Qed.

Lemma status_effect now leg_id id source target body code db db' r :
  leg_id ≠ "" → create_exchange_status_leg sha256 now leg_id id source target body code db = Ok (db', r) →
  xeffect db db'.
Proof.
  intros Hne E. unfold create_exchange_status_leg in E.
  destruct (select_one _ _) as [l|]; inv_res; [apply eff_same|]. by eapply eff_status.
Qed.

Lemma set_leg_lookup k P f db l :
  legs db !! k = Some l → P l = true → set_leg k P f db = XDB (exchanges db) (<[k := f l]> (legs db)).
Proof. intros Hl HP. unfold set_leg, update_row. by rewrite Hl, HP. Qed.

Lemma set_exchange_lookup k P f db x :
  exchanges db !! k = Some x → P x = true → set_exchange k P f db = XDB (<[k := f x]> (exchanges db)) (legs db).
Proof. intros Hl HP. unfold set_exchange, update_row. by rewrite Hl, HP. Qed.

(** [finish_exchange_leg] on a pending leg. *)
Lemma finish_pending now leg_id st code error preserve db l x :
  legs db !! leg_id = Some l → is_l L_TERMINAL l = false →
  exchanges db !! l_exchange l = Some x → x_id x = l_exchange l →
  let st' := effective st preserve l in
  let kept := negb (bool_decide (st' = st)) in
  let l1 := finish_leg st' (if kept then None else code) (if kept then None else error) now l in
  finish_exchange_leg now leg_id st code error preserve db =
    match (if conversation l && is_x [XActive] x then ended_with st' l else None) with
    | None => Ok (XDB (exchanges db) (<[leg_id := l1]> (legs db)), Some (x, l1))
    | Some xst =>
        let done := bool_decide (xst = XCompleted) in
        let l2 := if done then close_response now l1 else l1 in
        let x' := x_close xst (if done then None else code) (if done then None else error) now x in
        Ok (XDB (<[l_exchange l := x']> (exchanges db)) (<[leg_id := l2]> (legs db)), Some (x', l2))
    end.
Proof.
  intros Hl Ht Hx Hid st' kept l1. unfold finish_exchange_leg. rewrite Hl, Ht. cbv zeta.
  fold st'. fold kept.
  assert (is_l L_PENDING l = true) as Hp by (unfold is_l in *; by destruct (l_status l)).
  rewrite (set_leg_lookup _ _ _ _ l Hl Hp). fold l1. cbn [legs]. rewrite lookup_insert_eq. cbn [fetched mbind res_bind].
  change (l_exchange l1) with (l_exchange l). change (l_kind l1) with (l_kind l).
  change (ended_with st' l1) with (ended_with st' l). cbn [exchanges]. rewrite Hx. cbn [fetched mbind res_bind].
  change (negb (bool_decide (l_kind l = KStatus))) with (conversation l).
  destruct (conversation l && is_x [XActive] x) eqn:Hc; [|done].
  apply andb_true_iff in Hc as [_ Ha]. destruct (ended_with st' l) as [xst|]; [|done]. rewrite Hid.
  assert ((if bool_decide (xst = XCompleted)
           then set_leg leg_id (λ _, true) (close_response now) (XDB (exchanges db) (<[leg_id:=l1]> (legs db)))
           else XDB (exchanges db) (<[leg_id:=l1]> (legs db)))
    = XDB (exchanges db) (<[leg_id := if bool_decide (xst = XCompleted) then close_response now l1 else l1]> (legs db)))
    as ->.
  { case_bool_decide; [|done]. rewrite (set_leg_lookup _ _ _ _ l1); [|by cbn; rewrite lookup_insert_eq|done].
    cbn. by rewrite insert_insert_eq. }
  erewrite set_exchange_lookup; [|exact Hx|exact Ha]. cbn [exchanges legs fetched mbind res_bind].
  rewrite lookup_insert_eq. cbn [fetched mbind res_bind]. by case_bool_decide.
Qed.

Lemma finish_effect now leg_id st code error preserve db db' r :
  xwf db → st ∈ L_TERMINAL →
  finish_exchange_leg now leg_id st code error preserve db = Ok (db', r) → xeffect db db'.
Proof.
  intros W Hst E.
  destruct (legs db !! leg_id) as [l|] eqn:El;
    [|unfold finish_exchange_leg in E; rewrite El in E; inv_res; apply eff_same].
  destruct (is_l L_TERMINAL l) eqn:Ht;
    [unfold finish_exchange_leg in E; rewrite El, Ht in E; inv_res; apply eff_same|].
  destruct (wf_l _ W _ _ El) as (x & Hx & _). pose proof (wf_xid _ W _ _ Hx) as Hid.
  rewrite (finish_pending _ _ _ _ _ _ _ _ _ El Ht Hx Hid) in E. cbv zeta in E.
  assert (is_l L_PENDING l = true) as Hp by (unfold is_l in *; by destruct (l_status l)).
  assert (∀ st c e, leg_le l (finish_leg st c e now l)) as Hle1 by (intros; by apply pending_leg_le).
  assert (∀ st c e, leg_le l (close_response now (finish_leg st c e now l))) as Hle2 by (intros; by apply pending_leg_le).
  destruct (conversation l && is_x [XActive] x) eqn:Hc;
    [|injection E as <- _; apply eff_frame; [by eapply insert_legs_frame|apply exchanges_frame_refl]].
  apply andb_true_iff in Hc as [Hc Ha]. assert (x_status x = XActive) as Hs.
  { apply is_x_In in Ha. by apply list_elem_of_singleton in Ha. }
  destruct (ended_with _ l) as [xst|] eqn:Ee;
    [|injection E as <- _; apply eff_frame; [by eapply insert_legs_frame|apply exchanges_frame_refl]].
  injection E as <- _. apply eff_frame; [eapply insert_legs_frame; [done|by case_bool_decide]|].
  eapply insert_exchanges_frame; [done|].
  destruct (decide (xst = XCompleted)) as [->|Hne].
  - assert (effective st preserve l = LDelivered ∧ l_response l = ROpen ∧ l_expects l = false) as (Hst' & Ho & He).
    { unfold ended_with in Ee. destruct (effective st preserve l); try done.
      case_bool_decide; [|done]. by destruct (l_expects l). }
    destruct (open_is_last _ _ _ _ W El Hc Ho Hx) as (Hord & _).
    destruct (wf_lid _ W _ _ El) as [Hlid _].
    rewrite !bool_decide_true by done. apply x_frame_completed; [done|done|done|].
    match goal with |- context [<[leg_id := ?y]> _] => exists y end.
    split; [|split; [exact Hst'|by split]]. unfold leg_at. cbn [legs].
    match goal with |- context [l_id (close_response ?n ?y)] =>
      change (l_id (close_response n y)) with (l_id l) end. rewrite Hlid, lookup_insert_eq. by split_and!.
  - apply x_frame_end; [unfold is_x; by rewrite Hs| |done|done].
    unfold ended_with in Ee. by destruct (effective st preserve l); repeat case_match; simplify_eq.
Qed.

(** ** The methods that add a leg *)

(** The first leg of an exchange that waits for it. *)
Lemma first_continues ls x x' id k source target run expects body key e now :
  x_used x = 0 → x_requester x = source → x_responder x = target → x_id x = id →
  x_status x = XWaiting → 2 ≤ x_max x → k ≠ "" →
  (x_id x', x_requester x', x_responder x', x_max x') = (x_id x, x_requester x, x_responder x, x_max x) →
  x_used x' = 1 → x_active x' = Some k → x_status x' = XActive →
  continues ls x x' (new_leg sha256 k id None 1 source run run target KRequest expects ROpen body key e now).
Proof.
  intros Hu Hq Hr Hid Hs Hm Hk HP Hu' Ha' Hs'. injection HP as P1 P2 P3 P4.
  split; cbn; rewrite ?Hu', ?Hu; try done; try lia.
  - split; rewrite ?Hs', ?Hs, ?Hu', ?Hu; try done; [congruence|].
    intros Ht. unfold is_x in Ht. by rewrite Hs in Ht.
  - unfold speaker. cbn. by rewrite Hq, Hr.
Qed.

Lemma continue_effect db db0 db1 id x l P f :
  legs_frame (legs db) (legs db0) → exchanges db0 = exchanges db →
  exchanges db !! id = Some x → x_id x = id → P x = true → is_x X_OPEN x = true →
  insert_leg l db0 = Ok db1 → continues (legs db0) x (f x) l →
  xeffect db (set_exchange id P f db1).
Proof.
  intros Hf Ee Hx Hid HP Ho (Hn & _ & _ & Hcl & ->)%insert_leg_Ok C.
  erewrite set_exchange_lookup; [|cbn; by rewrite Ee|done]. cbn. rewrite Ee.
  eapply eff_continue; [done|by rewrite Hid|done|done|done|done|by rewrite Hid].
Qed.

Lemma initial_effect now instance leg_id id source run target body key live db db' r :
  xwf db → leg_id ≠ "" →
  create_initial_exchange_leg sha256 now instance leg_id id source run target body key live db = Ok (db', r) →
  xeffect db db'.
Proof.
  intros W Hk E. unfold create_initial_exchange_leg in E.
  destruct (exchanges db !! id) as [y|] eqn:Hy; [|done].
  destruct (select_one _ _) as [l|]; inv_res; [apply eff_same|].
  destruct (bool_decide _); inv_res; [apply expire_effect; set_solver|].
  apply negb_false_iff in H, H0, H1. apply andb_true_iff in H1 as [Hq%String.eqb_eq Hr%String.eqb_eq].
  pose proof H as Hs. apply is_x_In, list_elem_of_singleton in Hs.
  pose proof (wf_x _ W _ _ Hy) as O.
  eapply (continue_effect db db); [apply legs_frame_refl|done|done|by eapply wf_xid|done| |done|].
  - unfold is_x. by rewrite Hs.
  - apply first_continues; try done.
    + by apply (xo_waiting _ _ O).
    + by eapply wf_xid.
    + apply (xo_budget _ _ O).
Qed.

Lemma route_effect now instance q db db' r :
  xwf db → 2 ≤ rr_max q → rr_leg q ≠ "" →
  create_route_exchange_request sha256 now instance q db = Ok (db', r) → xeffect db db'.
Proof.
  intros W Hm Hk E. unfold create_route_exchange_request in E. inv_res.
  destruct (exchanges db !! rr_exchange q) as [y|] eqn:Hy.
  { destruct (legs db !! rr_leg q); [|done]. inv_res. apply eff_same. }
  inv_res. apply insert_exchange_Ok in H5 as (_ & Hc & ->).
  apply insert_leg_Ok in H6 as (Hn & _ & _ & Hcl & ->). cbn in Hn, Hcl.
  set (actions := join "," x3) in *. set (rstate := if String.eqb _ _ then _ else _) in *.
  set (x' := route_exchange now instance q actions rstate) in *.
  pose (fresh := x' {{ x_used := 0; x_active := None; x_status := XWaiting }}).
  match type of Hcl with ∀ _ _, _ → leg_clash ?l _ = _ =>
    eapply (eff_ask _ _ fresh x' l); [done| |done|done|done|done|exact Hn|exact Hcl| |done] end.
  - unfold exchange_checks in *. cbn in *. repeat (apply andb_true_iff in Hc as [Hc ?]).
    rewrite Hc. repeat (apply andb_true_iff; split); try done. lia.
  - by apply first_continues.
Qed.

Lemma inbound_leg_Some id k db l :
  xwf db → inbound_leg id k db = Some l → legs db !! k = Some l ∧ l_exchange l = id.
Proof.
  intros W Hl. apply select_one_Some in Hl as ([<-%String.eqb_eq He%String.eqb_eq]%andb_true_iff & k' & Hk').
  by destruct (wf_lid _ W _ _ Hk') as [-> _].
Qed.

Lemma answered_le automatic now l : leg_le l (answered automatic now l) ∨ l_response l ≠ ROpen.
Proof.
  destruct (decide (l_response l = ROpen)) as [Ho|]; [left|by right].
  split; cbn; [done|done|done|by destruct automatic|]. intros _. split; [done|]. congruence.
Qed.

(** The answer to an open leg continues its exchange. *)
Lemma answer_continues db k i x source run owner leg_id (request automatic : bool) body key now :
  xwf db → legs db !! k = Some i → exchanges db !! l_exchange i = Some x → l_response i = ROpen →
  x_status x = XActive → l_target i = source → leg_id ≠ "" →
  (if request then 2 else 1) ≤ x_max x - x_used x →
  continues (<[k := answered automatic now i]> (legs db)) x
    (x {{ x_used := x_used x + 1; x_active := Some leg_id; x_updated := now }})
    (new_leg sha256 leg_id (l_exchange i) (Some k) (x_used x + 1) source run owner (l_source i)
       (if request then KRequest else KReply) request ROpen body key None now).
Proof.
  intros W Hi Hx Ho Hs Ht Hne Hb.
  destruct (wf_l _ W _ _ Hi) as (x' & Hx' & Hl). rewrite Hx in Hx'. injection Hx' as <-.
  destruct (conversation i) eqn:Hc; [|by destruct Hl as (_ & _ & [])].
  destruct Hl as (_ & Hsp & _). destruct (open_is_last _ _ _ _ W Hi Hc Ho Hx) as (Hord & Ha & _).
  pose proof (wf_xid _ W _ _ Hx) as Hid. split; cbn; try done.
  - split; [done| | |done|].
    + change (x_used x ≤ x_used x + 1). lia.
    + change (x_used x + 1 = x_used x → Some leg_id = x_active x). lia.
    + intros Hterm. unfold is_x in Hterm. by rewrite Hs in Hterm.
  - change (x_used x + 1 ≤ x_max x ∧ (request = true → x_used x + 1 < x_max x)).
    destruct request; split; try done; lia.
  - split_and!; try done. by destruct request.
  - subst source. unfold speaker in *. rewrite Z.add_1_r, Z.odd_succ, <-Z.negb_odd, <-Hord.
    destruct (Z.odd (l_ordinal i)); injection Hsp as -> ->; done.
  - by destruct request.
  - split; [done|]. exists (answered automatic now i). rewrite lookup_insert_eq, Hid.
    split_and!; try done; [change (l_ordinal i = x_used x + 1 - 1); lia|]. cbn. by destruct automatic.
Qed.

Lemma respond_effect now leg_id id inbound source run body key request automatic db db' r :
  xwf db → leg_id ≠ "" →
  commit_exchange_response sha256 now leg_id id inbound source run body key request automatic db = Ok (db', r) →
  xeffect db db'.
Proof.
  intros W Hk E. unfold commit_exchange_response in E.
  destruct (exchanges db !! id) as [y|] eqn:Hy; [|done].
  destruct (inbound_leg id inbound db) as [i|] eqn:Hi; [|done].
  destruct (answer_to inbound db) as [l|]; [destruct (response_matches _ _ _ _ _ _); inv_res; apply eff_same|].
  inv_res. destruct (_ && _); [inv_res; apply expire_effect; set_solver|]. inv_res.
  destruct (inbound_leg_Some _ _ _ _ W Hi) as [Hil Hie].
  apply negb_false_iff in H, H0, H2. apply bool_decide_eq_true in H0.
  unfold response_bound in H2. apply andb_true_iff in H2 as [[Ht%String.eqb_eq _]%andb_true_iff _].
  pose proof H as Hs. apply is_x_In, list_elem_of_singleton in Hs.
  rewrite (set_leg_lookup _ _ _ _ i) in H5; [|done|by rewrite bool_decide_true].
  eapply continue_effect; [| |exact Hy|by eapply wf_xid|done| |exact H5|].
  - cbn. eapply insert_legs_frame; [done|]. by destruct (answered_le automatic now i).
  - done.
  - unfold is_x. by rewrite Hs.
  - cbn. subst id. by apply answer_continues; try lia.
Qed.

(** Every method, as the server calls it, has one of the effects. *)
Lemma step_effect op db db' : xwf db → xstep sha256 op db db' → xeffect db db'.
Proof.
  intros W [Hu E]. destruct op; cbn [xapply op_used] in *;
    try (match type of E with Ok _ = Ok _ => injection E as <- end);
    try (apply res_bind_Ok in E as ([db1 r] & E & [= <-])).
  - by eapply obligation_effect.
  - destruct Hu. by eapply route_effect.
  - by eapply rebind_effect.
  - by eapply reciprocal_effect.
  - apply downgrade_effect.
  - by eapply initial_effect.
  - by eapply respond_effect.
  - by apply update_leg_effect.
  - by eapply update_effect.
  - by eapply cancel_queued_effect.
  - by eapply cancel_effect.
  - by eapply finish_effect.
  - by eapply status_effect.
Qed.

Lemma xwf_reachable db : reachable empty_xdb (xstep sha256) db → xwf db.
Proof.
  revert db. apply reachable_invariant; [apply xwf_empty|].
  intros op s s' W Hs. eapply xwf_effect; [done|by eapply step_effect].
Qed.
End methods.
