(* ===== verification/ExchangeSpec.v ===== *)
(** * What the exchange ledger promises

    Each exchange is a dialogue: two chats in turn, within a budget, until it
    ends.  The ledger implements it, gives each message at most one answer, and
    always keeps room for the answer to a question. *)
From S2P Require Import Prelude PyValues Exchanges ExchangeWf ExchangeSteps.

Open Scope string_scope.
Open Scope Z_scope.
Open Scope list_scope.

(** ** The abstract dialogue *)

Record message := Message { m_from : string; m_asks : bool; m_text : string }.
Record dialogue := Dialogue {
  d_asker : string;
  d_answerer : string;
  d_budget : Z;
  d_said : list message;
  d_state : xstatus;
}.

Definition next_speaker (asker answerer : string) (said : list message) : string :=
  if Nat.even (length said) then asker else answerer.

Definition room (m : message) : Z := if m_asks m then 2 else 1.

(** An exchange opens waiting or with its first message; the chats speak in
    turn, keeping room for the answer to a question; it ends once, as completed
    only after a message that asks nothing. *)
Inductive dialogue_step : option dialogue → option dialogue → Prop :=
| ds_idle d : dialogue_step d d
| ds_open a b n : a ≠ b → 2 ≤ n ≤ 6 → dialogue_step None (Some (Dialogue a b n [] XWaiting))
| ds_ask a b n m : a ≠ b → 2 ≤ n ≤ 6 → m_from m = a →
    dialogue_step None (Some (Dialogue a b n [m] XActive))
| ds_say a b n said st m :
    (st = XWaiting ∧ said = [] ∨ st = XActive) → m_from m = next_speaker a b said →
    Z.of_nat (length said) + room m ≤ n →
    dialogue_step (Some (Dialogue a b n said st)) (Some (Dialogue a b n (said ++ [m]) XActive))
| ds_end a b n said st st' :
    st ∈ X_OPEN → st' ∈ X_TERMINAL →
    (st' = XCompleted → st = XActive ∧ ∃ m, last said = Some m ∧ m_asks m = false) →
    dialogue_step (Some (Dialogue a b n said st)) (Some (Dialogue a b n said st')).

(** The dialogue an exchange of the ledger stands for. *)
Definition leg_numbered (id : string) (n : Z) (ls : gmap string leg) : option leg :=
  select_one (λ l, String.eqb (l_exchange l) id && conversation l && (l_ordinal l =? n)) ls.

Definition said_of (l : leg) : message := Message (l_source l) (l_expects l) (l_body l).

Definition transcript (id : string) (used : Z) (ls : gmap string leg) : list message :=
  omap (λ n, said_of <$> leg_numbered id n ls) (seqZ 1 used).

Definition view (id : string) (db : xdb) : option dialogue :=
  (λ x, Dialogue (x_requester x) (x_responder x) (x_max x)
          (transcript id (x_used x) (legs db)) (x_status x)) <$> exchanges db !! id.

(** ** Reading the transcript *)

Lemma leg_numbered_at ls id n l :
  (∀ k k' l l', ls !! k = Some l → ls !! k' = Some l' → k ≠ k' → leg_clash l l' = false) →
  leg_at ls id n l → leg_numbered id n ls = Some l.
Proof.
  intros Hu (Hl & He & Hc & Hn). unfold leg_numbered.
  destruct (select_one _ ls) as [l'|] eqn:E.
  - apply select_one_Some in E as ([[He'%String.eqb_eq Hc']%andb_true_iff Hn'%Z.eqb_eq]%andb_true_iff & k & Hk).
    destruct (decide (k = l_id l)) as [->|Hne]; [congruence|].
    pose proof (Hu _ _ _ _ Hk Hl Hne) as Hcl. unfold leg_clash in Hcl.
    rewrite He', He, Hn', Hn, String.eqb_refl, Z.eqb_refl in Hcl. done.
  - rewrite select_one_None in E. specialize (E _ _ Hl). by rewrite He, Hc, Hn, String.eqb_refl, Z.eqb_refl in E.
Qed.

Lemma transcript_ext id used ls ls' :
  (∀ n, 1 ≤ n ≤ used → said_of <$> leg_numbered id n ls' = said_of <$> leg_numbered id n ls) →
  transcript id used ls' = transcript id used ls.
Proof.
  intros H. unfold transcript.
  assert (∀ l : list Z, (∀ n, n ∈ l → 1 ≤ n ≤ used) →
    omap (λ n, said_of <$> leg_numbered id n ls') l = omap (λ n, said_of <$> leg_numbered id n ls) l) as Hl.
  { induction l as [|n l IH]; intros Hin; [done|]. cbn. rewrite H by (apply Hin; left).
    rewrite IH by (intros; apply Hin; by right). done. }
  apply Hl. intros n Hn%elem_of_seqZ. lia.
Qed.

Lemma transcript_snoc id used ls l :
  0 ≤ used → leg_numbered id (used + 1) ls = Some l →
  transcript id (used + 1) ls = transcript id used ls ++ [said_of l].
Proof.
  intros Hpos Hl. unfold transcript. rewrite seqZ_app by lia. rewrite omap_app. f_equal.
  assert (seqZ (1 + used) 1 = [used + 1]) as -> by (rewrite seqZ_cons, seqZ_nil by lia; f_equal; lia).
  cbn -[Z.add]. by rewrite Hl.
Qed.

Lemma transcript_length id db x :
  xwf db → exchanges db !! id = Some x → Z.of_nat (length (transcript id (x_used x) (legs db))) = x_used x.
Proof.
  intros W Hx. pose proof (wf_x _ W _ _ Hx) as O. destruct (xo_budget _ _ O) as [[Hpos _] _].
  pose proof (xo_legs _ _ O) as Hlegs. rewrite (wf_xid _ W _ _ Hx) in Hlegs.
  assert (∀ l : list Z, (∀ n, n ∈ l → 1 ≤ n ≤ x_used x) →
    length (omap (λ n, said_of <$> leg_numbered id n (legs db)) l) = length l) as Hl.
  { induction l as [|n l IH]; intros Hin; [done|]. cbn.
    destruct (Hlegs n) as (r & Hat & _); [apply Hin; left|].
    rewrite (leg_numbered_at _ _ _ _ (wf_unique _ W) Hat). cbn. rewrite IH; [done|].
    intros; apply Hin; by right. }
  unfold transcript. rewrite Hl; [rewrite length_seqZ; lia|]. intros n Hn%elem_of_seqZ. lia.
Qed.

Lemma transcript_last id used ls l :
  1 ≤ used → leg_numbered id used ls = Some l → last (transcript id used ls) = Some (said_of l).
Proof.
  intros Hu Hl. replace used with (used - 1 + 1) by lia.
  rewrite (transcript_snoc _ _ _ l); [apply last_snoc|lia|]. by replace (used - 1 + 1) with used by lia.
Qed.

Lemma said_of_le l l' : leg_le l l' → said_of l' = said_of l.
Proof. intros [_ [= Hs _ _ _] [= _ He Hb _] _ _]. unfold said_of. by rewrite Hs, He, Hb. Qed.

(** ** Each effect is a step of the dialogue *)

(** Legs that are there keep their numbers and what they say. *)
Lemma transcript_stable db db' id x :
  xwf db → xwf db' → exchanges db !! id = Some x →
  (∀ n l, leg_at (legs db) id n l → ∃ l', leg_at (legs db') id n l' ∧ leg_le l l') →
  transcript id (x_used x) (legs db') = transcript id (x_used x) (legs db).
Proof.
  intros W W' Hx Hle. apply transcript_ext. intros n Hn.
  destruct (xo_legs _ _ (wf_x _ W _ _ Hx) n Hn) as (l & Hat & _). rewrite (wf_xid _ W _ _ Hx) in Hat.
  destruct (Hle _ _ Hat) as (l' & Hat' & Hl).
  rewrite (leg_numbered_at _ _ _ _ (wf_unique _ W) Hat), (leg_numbered_at _ _ _ _ (wf_unique _ W') Hat').
  cbn. by rewrite (said_of_le _ _ Hl).
Qed.

Lemma view_frame db db' id :
  xwf db → xwf db' → legs_frame (legs db) (legs db') →
  exchanges_frame (legs db') (exchanges db) (exchanges db') → dialogue_step (view id db) (view id db').
Proof.
  intros W W' Hl Hx. unfold view. specialize (Hx id).
  destruct (exchanges db !! id) as [x|] eqn:Ex, (exchanges db' !! id) as [x'|] eqn:Ex'; inversion Hx as [? ? F|]; subst;
    [|constructor]. cbn.
  destruct F as [Hle Hu Hst Hc]. pose proof Hle as [[= Hid Hq Hr Hm] _ _ _ _].
  rewrite Hq, Hr, Hm, Hu, (transcript_stable db db' id x W W' Ex) by (intros; by eapply leg_at_le).
  destruct Hst as [->|[Ho Ht]]; [constructor|].
  apply is_x_In in Ho, Ht. constructor; [done|done|]. intros E.
  destruct (Hc E) as [E'|[Ha (l & Hat & _ & He & _)]]; [rewrite E' in Ho; set_solver|].
  split; [done|]. exists (said_of l). split; [|done].
  rewrite (wf_xid _ W' _ _ Ex'), Hu in Hat.
  rewrite <-(transcript_stable db db' id x W W' Ex) by (intros; by eapply leg_at_le).
  apply transcript_last.
  - pose proof (wf_x _ W _ _ Ex) as O. pose proof (proj1 (xo_budget _ _ O)).
    assert (x_used x ≠ 0); [|lia]. intros H0. by destruct (xo_unused _ _ O H0).
  - by apply leg_numbered_at; [apply W'|].
Qed.

Lemma odd_next n : Z.odd (Z.of_nat n + 1) = Nat.even n.
Proof.
  rewrite Z.add_1_r, Z.odd_succ. induction n as [|n IH]; [done|].
  by rewrite Nat2Z.inj_succ, Z.even_succ, <-Z.negb_even, IH, Nat.even_succ, <-Nat.negb_even.
Qed.

(** A leg added to an exchange says the next thing. *)
Lemma view_continue db ls x x' l :
  xwf (XDB (exchanges db) ls) → exchanges db !! x_id x = Some x →
  is_x X_OPEN x = true → ls !! l_id l = None → continues ls x x' l →
  xwf (XDB (<[x_id x := x']> (exchanges db)) (<[l_id l := l]> ls)) →
  dialogue_step (view (x_id x) (XDB (exchanges db) ls))
    (view (x_id x) (XDB (<[x_id x := x']> (exchanges db)) (<[l_id l := l]> ls))).
Proof.
  intros W Hx Ho Hn C W'. unfold view. cbn [exchanges legs]. rewrite Hx, lookup_insert_eq. cbn.
  pose proof C as [[[= Hid Hq Hr Hm] _ _ _ _] Hu _ Hs [Hb1 Hb2] (_ & He & Hc & Hno) Hsp _ _].
  pose proof (transcript_length _ _ _ W Hx) as Hlen. cbn [legs] in Hlen.
  destruct (xo_budget _ _ (wf_x _ W _ _ Hx)) as [[Hpos _] _].
  pose proof (transcript_stable _ _ _ _ W W' Hx) as Ht. cbn [legs] in Ht.
  rewrite Hq, Hr, Hm, Hs, Hu, (transcript_snoc _ _ _ l), Ht; cbn -[Z.add]; [..|done|].
  - constructor.
    + apply is_x_In in Ho. unfold X_OPEN in Ho. rewrite !elem_of_cons, elem_of_nil in Ho. destruct Ho as [Ho|[Ho|[]]]; [left|by right].
      split; [done|]. apply length_zero_iff_nil. apply (xo_waiting _ _ (wf_x _ W _ _ Hx)) in Ho. lia.
    + unfold next_speaker, speaker in *. cbn [m_from said_of].
      rewrite Hu, <-Hlen, odd_next in Hsp. by destruct (Nat.even _); injection Hsp as -> _.
    + rewrite Hlen. unfold room. cbn [m_asks said_of]. destruct (l_expects l); [specialize (Hb2 eq_refl)|]; lia.
  - intros n l' Hat. exists l'. split; [by apply leg_at_insert|done].
  - apply leg_numbered_at; [apply W'|]. unfold leg_at. cbn. rewrite lookup_insert_eq. split_and!; [done..|lia].
Qed.

(** An exchange whose row and legs are left in place keeps its dialogue. *)
Lemma view_stable db db' id :
  xwf db → xwf db' → exchanges db' !! id = exchanges db !! id →
  (∀ n l, leg_at (legs db) id n l → ∃ l', leg_at (legs db') id n l' ∧ leg_le l l') →
  view id db' = view id db.
Proof.
  intros W W' E H. unfold view. rewrite E. destruct (exchanges db !! id) as [x|] eqn:Hx; [|done]. cbn.
  by rewrite (transcript_stable _ _ _ _ W W' Hx H).
Qed.

Lemma checks_parties x :
  exchange_checks x = true → x_requester x ≠ x_responder x ∧ x_max x ≤ 6.
Proof.
  intros Hc. unfold exchange_checks in Hc. repeat (apply andb_true_iff in Hc as [Hc ?]).
  split; [by apply String.eqb_neq, negb_true_iff|lia].
Qed.

Lemma view_effect db db' id : xwf db → xeffect db db' → dialogue_step (view id db) (view id db').
Proof.
  intros W E. pose proof (xwf_effect _ _ W E) as W'.
  destruct E as [Hl Hx | x Hn Hc Hm Hu Ha Hs -> | x x' l Hn Hc Hm Hu Ha Hs Hl Hcl C -> | ls x x' l Hf Hx Ho Hl Hcl C -> | l Hi ? ? ? ? ?].
  - by apply view_frame.
  - destruct (decide (id = x_id x)) as [->|Hne].
    + unfold view. cbn [exchanges legs]. rewrite Hn, lookup_insert_eq. cbn. rewrite Hu, Hs.
      destruct (checks_parties _ Hc). by apply ds_open.
    + rewrite (view_stable _ _ _ W W'); [constructor|by cbn; rewrite lookup_insert_ne|]. by eexists.
  - destruct (decide (id = x_id x)) as [->|Hne].
    + unfold view. cbn [exchanges legs]. rewrite Hn, lookup_insert_eq. cbn -[Z.add].
      destruct (checks_parties _ Hc) as [Hp Hmax].
      pose proof C as [[[= Hid Hq Hr Hmx] _ _ _ _] Hu' _ Hs' _ (_ & He & Hcv & Hno) Hsp _ _].
      rewrite Hq, Hr, Hmx, Hu', Hs', Hu, (transcript_snoc _ _ _ l).
      * apply ds_ask; [done|done|]. rewrite Hu', Hu in Hsp. by injection Hsp.
      * done.
      * apply leg_numbered_at; [apply W'|]. unfold leg_at. cbn. rewrite lookup_insert_eq. split_and!; [done..|lia].
    + rewrite (view_stable _ _ _ W W'); [constructor|by cbn; rewrite lookup_insert_ne|].
      intros n r Hat. exists r. split; [by apply leg_at_insert|done].
  - assert (xwf (XDB (exchanges db) ls)) as W1.
    { apply (xwf_frame db); [done|exact Hf|apply exchanges_frame_refl]. }
    assert (view id (XDB (exchanges db) ls) = view id db) as <-.
    { apply view_stable; [done|done|done|]. intros n r Hat. by eapply leg_at_le. }
    destruct (decide (id = x_id x)) as [->|Hne]; [by apply view_continue|].
    rewrite (view_stable _ _ _ W1 W'); [constructor|by cbn; rewrite lookup_insert_ne|].
    intros n r Hat. exists r. split; [by apply leg_at_insert|done].
  - destruct (insert_leg_Ok _ _ _ Hi) as (Hn & _ & _ & _ & ->).
    rewrite (view_stable _ _ _ W W'); [constructor|done|].
    intros n r Hat. exists r. split; [by apply leg_at_insert|done].
Qed.

(** ** Growth

    Along a run rows stay, and change only as [leg_le] and [x_le] allow. *)
Definition grows {A} (R : relation A) (m m' : gmap string A) : Prop :=
  ∀ k a, m !! k = Some a → ∃ a', m' !! k = Some a' ∧ R a a'.

Definition xgrow (db db' : xdb) : Prop :=
  grows leg_le (legs db) (legs db') ∧ grows x_le (exchanges db) (exchanges db').

#[global] Instance grows_preorder {A} (R : relation A) `{!PreOrder R} : PreOrder (grows R).
Proof.
  split; [intros m k a Ha; by exists a|]. intros m1 m2 m3 H1 H2 k a Ha.
  destruct (H1 _ _ Ha) as (b & Hb & Hab), (H2 _ _ Hb) as (c & Hc & Hbc). exists c. split; [done|by etrans].
Qed.

#[global] Instance xgrow_preorder : PreOrder xgrow.
Proof. split; [by intros db; split|]. intros d1 d2 d3 [G1 G2] [G3 G4]. split; [by transitivity (legs d2)|by transitivity (exchanges d2)]. Qed.

Lemma grows_insert_new {A} (R : relation A) `{!Reflexive R} (m : gmap string A) k a :
  m !! k = None → grows R m (<[k := a]> m).
Proof.
  intros Hk j b Hj. exists b. split; [|done]. rewrite lookup_insert_ne; [done|]. intros ->. by rewrite Hj in Hk.
Qed.

Lemma grows_insert_old {A} (R : relation A) `{!Reflexive R} (m : gmap string A) k a b :
  m !! k = Some a → R a b → grows R m (<[k := b]> m).
Proof.
  intros Hk Hab j c Hj. destruct (decide (k = j)) as [->|].
  - rewrite lookup_insert_eq. exists b. split; [done|]. congruence.
  - rewrite lookup_insert_ne by done. by exists c.
Qed.

Lemma legs_frame_grows m m' : legs_frame m m' → grows leg_le m m'.
Proof. intros Hf k l. apply forall2_fwd, Hf. Qed.

Lemma xeffect_grow db db' : xeffect db db' → xgrow db db'.
Proof.
  intros [Hl Hx | x Hn ? ? ? ? ? -> | x x' l Hn ? ? ? ? ? Hl _ C -> | ls x x' l Hf Hx _ Hl _ C -> | l Hi ? ? ? ? ?]; split; cbn.
  - by apply legs_frame_grows.
  - intros k x Hk. destruct (forall2_fwd _ _ _ _ (Hx k) Hk) as (y & Hy & F). exists y. split; [done|apply F].
  - done.
  - by apply (grows_insert_new x_le).
  - by apply (grows_insert_new leg_le).
  - by apply (grows_insert_new x_le).
  - etrans; [by apply legs_frame_grows|]. by apply (grows_insert_new leg_le).
  - eapply (grows_insert_old x_le); [done|apply C].
  - destruct (insert_leg_Ok _ _ _ Hi) as (Hn & _ & _ & _ & ->). by apply (grows_insert_new leg_le).
  - by destruct (insert_leg_Ok _ _ _ Hi) as (_ & _ & _ & _ & ->).
Qed.

(** A leg is the answer to [k] in every later ledger. *)
Lemma answer_to_unique db k a l :
  xwf db → legs db !! a = Some l → l_parent l = Some k → answer_to k db = Some l.
Proof.
  intros W Hl Hp. unfold answer_to. destruct (select_one _ _) as [r|] eqn:E.
  - apply select_one_Some in E as (Hr%bool_decide_eq_true & a' & Ha').
    destruct (decide (a' = a)) as [->|Hne]; [congruence|].
    pose proof (wf_unique _ W _ _ _ _ Ha' Hl Hne) as Hc. unfold leg_clash in Hc.
    by rewrite Hr, Hp, !bool_decide_true, orb_true_r in Hc.
  - rewrite select_one_None in E. specialize (E _ _ Hl). by rewrite bool_decide_true in E.
Qed.

Lemma inbound_leg_there db id k l :
  xwf db → legs db !! k = Some l → l_exchange l = id → inbound_leg id k db = Some l.
Proof.
  intros W Hl He. unfold inbound_leg. destruct (select_one _ _) as [r|] eqn:E.
  - apply select_one_Some in E as ([Hk%String.eqb_eq _]%andb_true_iff & j & Hj).
    destruct (wf_lid _ W _ _ Hj) as [Hid _]. congruence.
  - rewrite select_one_None in E. specialize (E _ _ Hl). destruct (wf_lid _ W _ _ Hl) as [Hid _].
    by rewrite Hid, He, !String.eqb_refl in E.
Qed.

(** An exchange that has ended gets no further message. *)
Lemma ended_no_new_leg db db' id x k l :
  xwf db → xwf db' → xgrow db db' → exchanges db !! id = Some x → is_x X_TERMINAL x = true →
  legs db' !! k = Some l → l_exchange l = id → conversation l = true → is_Some (legs db !! k).
Proof.
  intros W W' [Gl Gx] Hx Ht Hl He Hc. destruct (Gx _ _ Hx) as (x' & Hx' & [_ _ _ _ T]).
  destruct (T Ht) as [_ Hu]. destruct (wf_l _ W' _ _ Hl) as (y & Hy & H). rewrite Hc in H.
  destruct H as (Hr & _). rewrite He, Hx' in Hy. injection Hy as <-. rewrite Hu in Hr.
  destruct (xo_legs _ _ (wf_x _ W _ _ Hx) _ Hr) as (r & (Hk & Hre & Hrc & Hro) & _).
  rewrite (wf_xid _ W _ _ Hx) in Hre. destruct (Gl _ _ Hk) as (r' & Hr' & [[= _ He' _ Ho'] _ _ _ _]).
  assert (k = l_id r) as ->; [|by eexists]. eapply (same_leg_at db'); [done|done|done|congruence|congruence].
Qed.

Section promises.
Variable sha256 : string → string.
Abbreviation step := (xstep sha256).
Abbreviation reach := (reachable empty_xdb (xstep sha256)).

(** every reachable ledger is well formed: the legs of an
    exchange are numbered from 1 to the number used, which stays within the
    budget of at most 6; the two chats take turns; every leg but the first
    answers the one before, which has then been answered; the last leg is the
    active one, and if it asks for a reply there is room for one; a completed
    exchange ended with a delivered leg that asked nothing. *)
Theorem exchange_reachable_wf db : reach db → xwf db.
Proof. apply xwf_reachable. Qed.

(** C33: the ledger implements the abstract dialogue: whatever a
    method does to a reachable ledger, each exchange makes one step of the
    dialogue it stands for, or none. *)
Theorem exchange_refines_dialogue db op db' id :
  reach db → step op db db' → dialogue_step (view id db) (view id db').
Proof. intros Hr Hs. pose proof (xwf_reachable _ _ Hr) as W. by eapply view_effect, step_effect. Qed.
Lemma set_exchange_legs k P f (db : xdb) : legs (set_exchange k P f db) = legs db.
Proof. done. Qed.

(** What a commit that creates the answer leaves behind. *)
Lemma respond_created db now leg_id id k source run body key request automatic db' x l :
  xwf db →
  commit_exchange_response sha256 now leg_id id k source run body key request automatic db
    = Ok (db', Some (x, l, true)) →
  (∃ i, legs db' !! k = Some i ∧ l_exchange i = id) ∧ exchanges db' !! id = Some x
  ∧ legs db' !! leg_id = Some l ∧ l_parent l = Some k
  ∧ (run ≠ "" → response_matches source run body key request l = true).
Proof.
  intros W E. unfold commit_exchange_response in E.
  destruct (exchanges db !! id) as [y|] eqn:Hy; [|done].
  destruct (inbound_leg id k db) as [i|] eqn:Hi; [|done].
  destruct (answer_to k db) as [r|]; [destruct (response_matches _ _ _ _ _ _); inv_res; done|].
  inv_res. destruct (_ && _); [done|]. inv_res.
  destruct (inbound_leg_Some _ _ _ _ W Hi) as [Hil Hie].
  match goal with H : fetched ?o = Ok _ |- _ => destruct o eqn:Hf; [injection H as ->|done] end.
  match goal with H : insert_leg _ _ = Ok _ |- _ =>
    apply insert_leg_Ok in H as (Hn & _ & _ & _ & ->) end.
  apply negb_false_iff, bool_decide_eq_true in H0.
  rewrite (set_leg_lookup _ _ _ _ i) in * by (done || by rewrite bool_decide_true).
  cbn [legs exchanges] in *. cbn [l_id new_leg] in *. split_and!.
  - exists (answered automatic now i). split; [|done]. rewrite set_exchange_legs. cbn [legs].
    rewrite lookup_insert_ne, lookup_insert_eq; [done|]. intros ->. by rewrite lookup_insert_eq in Hn.
  - done.
  - rewrite set_exchange_legs. cbn [legs]. by rewrite lookup_insert_eq.
  - done.
  - intros Hrun. unfold response_matches. cbn. rewrite (proj2 (String.eqb_neq _ _) Hrun).
    by rewrite !String.eqb_refl, bool_decide_true.
Qed.

Lemma response_matches_le source run body key request l l' :
  leg_le l l' → response_matches source run body key request l' = response_matches source run body key request l.
Proof.
  intros [_ [= Hs _ Hr Ho] [= Hk _ Hb Hy] _ _]. unfold response_matches. by rewrite Hs, Hr, Ho, Hk, Hb, Hy.
Qed.

Lemma step_grow op db db' : xwf db → step op db db' → xwf db' ∧ xgrow db db'.
Proof.
  intros W Hs%step_effect; [|done]. split; [by eapply xwf_effect|by apply xeffect_grow].
Qed.

Lemma steps_grow db ops db' : xwf db → steps step db ops db' → xwf db' ∧ xgrow db db'.
Proof.
  intros W Hs. induction Hs as [d|d op d1 ops d2 Hst Hrun IH]; [by split|].
  destruct (step_grow _ _ _ W Hst) as [W1 G1], (IH W1) as [W2 G2]. split; [done|by transitivity d1].
Qed.

(** C34: a message gets one answer: once it is committed, whatever the
    ledger does afterwards, a call that answers the same message returns the
    stored answer when it repeats the same call, and is refused otherwise; the
    ledger is left as it is. *)
Theorem response_once db now leg_id id k source run body key request automatic db1 x l ops db2 :
  reach db → leg_id ≠ "" → run ≠ "" →
  commit_exchange_response sha256 now leg_id id k source run body key request automatic db
    = Ok (db1, Some (x, l, true)) →
  steps step db1 ops db2 →
  ∃ x' l', l_id l' = leg_id ∧ said_of l' = said_of l
  ∧ response_matches source run body key request l' = true
  ∧ ∀ now' leg_id' source' run' body' key' request' automatic',
      commit_exchange_response sha256 now' leg_id' id k source' run' body' key' request' automatic' db2
      = if response_matches source' run' body' key' request' l' then Ok (db2, Some (x', l', false))
        else Err already_committed.
Proof.
  intros Hr Hk Hrun E Hs. pose proof (xwf_reachable _ _ Hr) as W.
  destruct (step_grow (XRespond now leg_id id k source run body key request automatic) db db1 W) as [W1 _].
  { split; [done|]. cbn. by rewrite E. }
  destruct (respond_created _ _ _ _ _ _ _ _ _ _ _ _ _ _ W E) as ((i & Hi & He) & Hx & Hl & Hp & Hm).
  destruct (steps_grow _ _ _ W1 Hs) as [W2 [Gl Gx]].
  destruct (Gl _ _ Hi) as (i' & Hi' & [[= _ He' _ _] _ _ _ _]), (Gl _ _ Hl) as (l' & Hl' & Hle),
    (Gx _ _ Hx) as (x' & Hx' & _).
  exists x', l'. split_and!.
  - by destruct (wf_lid _ W2 _ _ Hl').
  - by apply said_of_le.
  - rewrite (response_matches_le _ _ _ _ _ _ _ Hle). auto.
  - intros *. unfold commit_exchange_response.
    rewrite Hx', (inbound_leg_there _ _ _ _ W2 Hi') by congruence.
    pose proof Hle as [[= _ _ Hp' _] _ _ _ _].
    rewrite (answer_to_unique _ k leg_id l' W2 Hl') by congruence. done.
Qed.
(** A leg that awaits its answer is a message of the conversation, has no
    answer yet, and goes between the two chats of its exchange. *)
Lemma open_leg db k i x :
  xwf db → legs db !! k = Some i → exchanges db !! l_exchange i = Some x → l_response i = ROpen →
  conversation i = true ∧ answer_to k db = None ∧ l_source i ≠ l_target i
  ∧ response_parties (l_target i) x i = true.
Proof.
  intros W Hi Hx Ho. destruct (wf_l _ W _ _ Hi) as (x' & Hx' & Hl). rewrite Hx in Hx'. injection Hx' as <-.
  destruct (conversation i) eqn:Hc; [|by destruct Hl as (_ & _ & [])].
  destruct Hl as (_ & Hsp & _). pose proof (xo_parties _ _ (wf_x _ W _ _ Hx)) as Hne.
  assert (l_source i ≠ l_target i ∧ response_parties (l_target i) x i = true) as [H1 H2].
  { unfold response_parties, speaker in *. pose proof (not_eq_sym Hne) as Hne'.
    destruct (Z.odd (l_ordinal i)); injection Hsp as -> ->; (split; [done|]); cbn [str_in existsb];
      rewrite !String.eqb_refl, ?(proj2 (String.eqb_neq _ _) Hne), ?(proj2 (String.eqb_neq _ _) Hne'), ?orb_true_r; done. }
  split_and!; try done. unfold answer_to. apply select_one_None. intros j r Hr.
  destruct (wf_l _ W _ _ Hr) as (y & _ & Hrl). apply bool_decide_eq_false. intros Hp. rewrite Hp in Hrl.
  destruct (conversation r); [|by destruct Hrl as (_ & [=] & _)].
  destruct Hrl as (_ & _ & _ & (l & Hl & _ & _ & _ & Hr')). congruence.
Qed.

(** The run a response is filed under: a live exchange numbers them. *)
Definition response_run (run : string) (x : exchange) : string :=
  if x_live_lease x then run +:+ ":live:" +:+ pretty (x_used x + 1) else run.

Definition fresh_leg (db : xdb) (leg_id id run key : string) : Prop :=
  leg_id ≠ "" ∧ legs db !! leg_id = None
  ∧ ∀ j l, legs db !! j = Some l → l_exchange l = id → l_source_run l ≠ run ∧ l_key l ≠ key.

(** The id and the key of a leg that was never filed. *)
Definition unused_key (db : xdb) (leg_id id key : string) : Prop :=
  leg_id ≠ "" ∧ legs db !! leg_id = None ∧ ∀ j l, legs db !! j = Some l → l_exchange l = id → l_key l ≠ key.

(** The run already speaks in a leg of the exchange. *)
Definition spoke (db : xdb) (id run : string) : Prop :=
  ∃ j l, legs db !! j = Some l ∧ l_exchange l = id ∧ l_source_run l = run.

Lemma unused_fresh db leg_id id run key :
  unused_key db leg_id id key → ¬ spoke db id run → fresh_leg db leg_id id run key.
Proof. intros (? & ? & Hk) Hn. split_and!; try done. intros j l Hl He. split; [|by eapply Hk]. intros Hrun. by apply Hn; exists j, l. Qed.

(** A run has one leg per exchange: the table refuses the second. *)
Lemma insert_spoken_leg db l k i i' :
  legs db !! k = Some i → leg_le i i' → spoke db (l_exchange l) (l_source_run l) →
  insert_leg l (XDB (exchanges db) (<[k := i']> (legs db))) = Err (IntegrityError "cross_chat_exchange_legs").
Proof.
  intros Hi Hle (j & r & Hj & He & Hrun). unfold insert_leg. cbn [legs exchanges].
  assert (is_Some (select_one (leg_clash l) (<[k := i']> (legs db)))) as Hc.
  { destruct (select_one _ _) eqn:E; [done|]. rewrite select_one_None in E.
    assert (∃ r', (<[k := i']> (legs db)) !! j = Some r' ∧ leg_clash l r' = true) as (r' & Hr' & Hcl).
    { assert (leg_clash l r = true) as Hcl by (unfold leg_clash; by rewrite He, Hrun, !String.eqb_refl, orb_true_r).
      destruct (decide (k = j)) as [<-|Hne]; [|exists r; by rewrite lookup_insert_ne].
      exists i'. rewrite lookup_insert_eq. split; [done|]. rewrite (leg_clash_le l i l i') by done. congruence. }
    by rewrite (E _ _ Hr') in Hcl. }
  rewrite (bool_decide_true _ Hc), orb_true_r. done.
Qed.

(** A fresh leg takes the next ordinal of its exchange, once the leg [k] that
    it answers is marked. *)
Lemma insert_next_leg db x l k i i' :
  xwf db → legs db !! k = Some i → leg_le i i' → exchanges db !! l_exchange l = Some x → l_parent l = Some k → answer_to k db = None →
  l_ordinal l = x_used x + 1 → l_source l ≠ l_target l →
  fresh_leg db (l_id l) (l_exchange l) (l_source_run l) (l_key l) →
  insert_leg l (XDB (exchanges db) (<[k := i']> (legs db)))
  = Ok (XDB (exchanges db) (<[l_id l := l]> (<[k := i']> (legs db)))).
Proof.
  intros W Hi Hle Hx Hp Ha Hn Hst (Hid & Hnew & Hfresh). unfold insert_leg. cbn [legs exchanges].
  rewrite bool_decide_false by (rewrite lookup_insert_ne; [rewrite Hnew; apply is_Some_None|congruence]).
  rewrite bool_decide_false by congruence. rewrite (proj2 (String.eqb_neq _ _) Hst).
  rewrite bool_decide_false; [done|]. intros [r Hr].
  apply select_one_Some in Hr as (Hcl & j & Hj).
  assert (∃ r, legs db !! j = Some r ∧ leg_clash l r = true) as (r0 & Hj0 & Hcl0).
  { apply lookup_insert_Some in Hj as [[<- <-]|[_ Hj]]; [|by exists r].
    exists i. split; [done|]. by rewrite <-(leg_clash_le l i l i'). }
  clear r Hcl Hj. rename r0 into r, Hcl0 into Hcl, Hj0 into Hj. unfold leg_clash in Hcl.
  apply orb_true_iff in Hcl as [[He%String.eqb_eq Hcl]%andb_true_iff|[_ Hpar%bool_decide_eq_true]%andb_true_iff].
  - destruct (Hfresh _ _ Hj (eq_sym He)) as [H1 H2].
    rewrite (proj2 (String.eqb_neq _ _) (not_eq_sym H1)), (proj2 (String.eqb_neq _ _) (not_eq_sym H2)), !orb_false_r in Hcl.
    apply Z.eqb_eq in Hcl. destruct (wf_l _ W _ _ Hj) as (y & Hy & H). rewrite <-He, Hx in Hy. injection Hy as <-.
    pose proof (proj1 (xo_budget _ _ (wf_x _ W _ _ Hx))). destruct (conversation r); [|lia].
    destruct H as (Hr & _). lia.
  - unfold answer_to in Ha. rewrite select_one_None in Ha. specialize (Ha _ _ Hj).
    apply bool_decide_eq_false in Ha. congruence.
Qed.

(** C35: a question can be answered: while the exchange is active and has not
    expired (or was asked of a live run), the run that the question was
    delivered to commits its answer under a new id and key, and the budget was
    kept for it.  The one condition on the run is that it has no leg in the
    exchange yet ([spoke]): a run that already spoke there, as when two
    questions of one exchange were delivered to the same run, is refused by
    the database, which keeps one leg per exchange and run. *)
Theorem question_can_be_answered db now leg_id k i x run body key automatic :
  reach db → legs db !! k = Some i → exchanges db !! l_exchange i = Some x →
  x_status x = XActive → l_response i = ROpen → l_expects i = true →
  l_target_run i = Some run → is_l [LRunning; LDelivered] i = true →
  (¬ String.le (x_expires x) now ∨ x_live_requested x = true) →
  unused_key db leg_id (x_id x) key →
  let answer := commit_exchange_response sha256 now leg_id (x_id x) k (l_target i) run body key false automatic db in
  (¬ spoke db (x_id x) (response_run run x) →
    ∃ db' x' l, answer = Ok (db', Some (x', l, true))
      ∧ l_parent l = Some k ∧ l_target l = l_source i ∧ l_body l = body ∧ x_used x' = x_used x + 1)
  ∧ (spoke db (x_id x) (response_run run x) → answer = Err (IntegrityError "cross_chat_exchange_legs")).
Proof.
  intros Hr Hi Hx Hs Ho He Hrun Hst Hexp Hfresh. pose proof (xwf_reachable _ _ Hr) as W.
  pose proof (wf_xid _ W _ _ Hx) as Hid. rewrite Hid in *.
  destruct (open_leg _ _ _ _ W Hi Hx Ho) as (Hc & Ha & Hne & Hpar).
  destruct (open_is_last _ _ _ _ W Hi Hc Ho Hx) as (_ & _ & Hroom). specialize (Hroom He).
  unfold commit_exchange_response.
  rewrite Hx, (inbound_leg_there _ _ _ _ W Hi eq_refl), Ha.
  assert (is_x [XActive] x = true) as Hact by (unfold is_x; by rewrite Hs). rewrite Hact.
  assert (bool_decide (String.le (x_expires x) now) && negb (x_live_requested x) = false) as Hlive.
  { destruct Hexp as [Hle|Hl]; [by rewrite bool_decide_false|by rewrite Hl, andb_false_r]. }
  rewrite Hlive, Ho, He, Hpar. unfold response_bound. rewrite Hrun, Hst, String.eqb_refl, !bool_decide_true by done.
  rewrite (proj2 (Z.ltb_ge _ _)) by lia. cbn [negb andb raise_if mbind res_bind]. rewrite andb_false_r. cbn [raise_if mbind res_bind].
  rewrite (set_leg_lookup _ _ _ _ i Hi) by (by rewrite bool_decide_true).
  pose proof (wf_lid _ W _ _ Hi) as [Hk _]. assert (leg_le i (answered automatic now i)) as Hle by (by destruct (answered_le automatic now i)).
  split; intros Hsp.
  - pose proof (unused_fresh _ _ _ _ _ Hfresh Hsp) as Hf. rewrite (insert_next_leg db x _ k i); try done.
    cbn [mbind res_bind l_id new_leg]. erewrite set_exchange_lookup; [|exact Hx|done]. cbn [exchanges].
    rewrite lookup_insert_eq. cbn [fetched mbind res_bind]. by do 3 eexists.
  - by rewrite (insert_spoken_leg db _ k i).
Qed.
Lemma open_not_terminal x : is_x X_TERMINAL x = negb (is_x X_OPEN x).
Proof. unfold is_x. by destruct (x_status x). Qed.

Lemma set_leg_dom k P f (db : xdb) j : is_Some (legs (set_leg k P f db) !! j) → is_Some (legs db !! j).
Proof. cbn. rewrite update_row_lookup. case_decide; [|done]. by rewrite fmap_is_Some. Qed.

(** What [cancel_exchange] leaves: the exchange has ended, no leg is new, and
    its leg that was not yet running has ended with it. *)
Lemma cancel_exchange_ends now id o code error db x db1 r :
  xwf db → exchanges db !! id = Some x → cancel_exchange now id o code error db = Ok (db1, r) →
  (∃ x1, exchanges db1 !! id = Some x1 ∧ is_x X_TERMINAL x1 = true
    ∧ x_status x1 = if is_x X_OPEN x then outcome_x o else x_status x)
  ∧ (∀ k, is_Some (legs db1 !! k) → is_Some (legs db !! k))
  ∧ (is_x X_OPEN x = true → ∀ k l, x_active x = Some k → legs db !! k = Some l →
      is_l [LRegistered; LSubmitting; LQueued] l = true →
      ∃ l1, legs db1 !! k = Some l1 ∧ l_status l1 = outcome_l o ∧ l_response l1 = RClosed).
Proof.
  intros W Hx E. unfold cancel_exchange in E. rewrite Hx in E. inv_res. clear H.
  rewrite open_not_terminal. destruct (is_x X_OPEN x) eqn:Ho; cbn [negb].
  - set (db' := set_exchange id (is_x X_OPEN) _ db).
    assert (∃ x1, exchanges db' !! id = Some x1 ∧ is_x X_TERMINAL x1 = true ∧ x_status x1 = outcome_x o) as Hend.
    { subst db'. rewrite (set_exchange_lookup _ _ _ _ x Hx Ho). cbn [exchanges]. rewrite lookup_insert_eq.
      eexists. split; [done|]. split; [apply outcome_x_close|done]. }
    destruct (active_leg x db) as [l|] eqn:Ha.
    + split; [|split]; [by repeat case_match|by intros k; repeat case_match; try apply set_leg_dom|].
      intros _ k l0 Hk Hl Hst. unfold active_leg in Ha. rewrite Hk in *. cbn in Ha.
      destruct (String.eqb k ""); [done|]. assert (l0 = l) as -> by congruence. rewrite Hst. cbn [default].
      rewrite (set_leg_lookup _ _ _ _ l); [|done|done]. cbn [legs]. rewrite lookup_insert_eq. eauto.
    + split; [done|split; [done|]]. intros _ k l Hk Hl _. exfalso. unfold active_leg in Ha. rewrite Hk in Ha. cbn in Ha.
      destruct (wf_lid _ W _ _ Hl) as [_ Hne]. rewrite (proj2 (String.eqb_neq _ _) Hne) in Ha. congruence.
  - split; [|split; [done|done]]. exists x. by rewrite open_not_terminal, Ho.
Qed.

(** cancelling ends a dialogue for good: the exchange stays in
    the outcome that was asked for (or in the one it had already), whatever the
    ledger does afterwards no message is added to it, and the message that had
    not reached a run yet is never delivered. *)
Theorem cancelled_exchange_silent db now id o code error x db1 r ops db2 :
  reach db → exchanges db !! id = Some x →
  cancel_exchange now id o code error db = Ok (db1, r) → steps step db1 ops db2 →
  (∃ x2, exchanges db2 !! id = Some x2
    ∧ x_status x2 = if is_x X_OPEN x then outcome_x o else x_status x)
  ∧ (∀ k l, legs db2 !! k = Some l → l_exchange l = id → conversation l = true → is_Some (legs db !! k))
  ∧ (is_x X_OPEN x = true → ∀ k l, x_active x = Some k → legs db !! k = Some l →
      is_l [LRegistered; LSubmitting; LQueued] l = true →
      ∃ l2, legs db2 !! k = Some l2 ∧ l_status l2 = outcome_l o ∧ l_response l2 = RClosed).
Proof.
  intros Hr Hx E Hs. pose proof (xwf_reachable _ _ Hr) as W.
  destruct (step_grow (XCancel now id o code error) db db1 W) as [W1 _].
  { split; [done|]. cbn. by rewrite E. }
  destruct (steps_grow _ _ _ W1 Hs) as [W2 [Gl Gx]].
  destruct (cancel_exchange_ends _ _ _ _ _ _ _ _ _ W Hx E) as ((x1 & Hx1 & Ht & Hst) & Hdom & Hact).
  split; [|split].
  - destruct (Gx _ _ Hx1) as (x2 & Hx2 & [_ _ _ _ T]). exists x2. split; [done|].
    rewrite <-Hst. by apply T.
  - intros k l Hl He Hc. apply Hdom. by eapply (ended_no_new_leg db1 db2).
  - intros Ho k l Hk Hl Hq. destruct (Hact Ho _ _ Hk Hl Hq) as (l1 & Hl1 & H1 & H2).
    destruct (Gl _ _ Hl1) as (l2 & Hl2 & [_ _ _ _ T]). exists l2. split; [done|].
    assert (is_l L_TERMINAL l1 = true) as Ht1 by (unfold is_l; rewrite H1; by destruct o).
    destruct (T Ht1) as [-> HR]. split; [done|]. rewrite HR; congruence.
Qed.
End promises.

(** ** A small dialogue

    Alice asks Bob, Bob answers, both messages are delivered; or Alice gives
    up.  The guarantees are evaluated on it. *)
Definition plain (s : string) : string := s.

Fixpoint xrun (ops : list xop) (db : xdb) : res xdb :=
  match ops with
  | [] => Ok db
  | op :: ops => db ← xapply plain op db; xrun ops db
  end.

Lemma xrun_steps ops db db' : Forall op_used ops → xrun ops db = Ok db' → steps (xstep plain) db ops db'.
Proof.
  intros Hu. revert db. induction Hu as [|op ops Hop _ IH]; intros db E; cbn in E; inv_res; [constructor|].
  econstructor; [by split|by apply IH].
Qed.

Lemma xrun_reachable ops db : Forall op_used ops → xrun ops empty_xdb = Ok db → reachable empty_xdb (xstep plain) db.
Proof. intros Hu Hrun. eapply reachable_steps; [constructor|by apply xrun_steps]. Qed.

Definition keep : leg_patch := LegPatch None None None None None None None None.

Definition question : list xop := [
  XObligation "2026-01-01T10" "x1" "alice" "run1" "bob" 2 "2026-01-02T10" "ask bob";
  XInitial "2026-01-01T10" "server" "leg1" "x1" "alice" "run1" "bob" "which port?" "key1" false;
  XUpdateLeg "2026-01-01T11" "leg1" [LRegistered; LQueued]
    (keep {{ lp_status := Some LRunning; lp_target_run := Some (Some "run2") }})].

Definition answer : xop :=
  XRespond "2026-01-01T12" "leg2" "x1" "leg1" "bob" "run2" "port 80" "key2" false false.

Definition delivered : list xop := [
  XFinish "2026-01-01T13" "leg1" LDelivered None None false;
  XFinish "2026-01-01T14" "leg2" LDelivered None None false].

Definition db_of (ops : list xop) : xdb := match xrun ops empty_xdb with Ok db => db | Err _ => empty_xdb end.
Definition asked : xdb := Eval vm_compute in db_of question.
Definition answered_db : xdb := Eval vm_compute in db_of (question ++ [answer]).
Definition completed : xdb := Eval vm_compute in db_of (question ++ [answer] ++ delivered).

Definition answer_result : res (xdb * option (exchange * leg * bool)) := Eval vm_compute in
  commit_exchange_response plain "2026-01-01T12" "leg2" "x1" "leg1" "bob" "run2" "port 80" "key2" false false asked.

Lemma answer_result_eq :
  commit_exchange_response plain "2026-01-01T12" "leg2" "x1" "leg1" "bob" "run2" "port 80" "key2" false false asked
  = answer_result.
Proof. by vm_compute. Qed.

Lemma question_used : Forall op_used question.
Proof.
  apply Forall_cons; split; [done|]. apply Forall_cons; split; [done|].
  apply Forall_cons; split; [|done]. left. cbn. unfold L_PENDING.
  split_and!; [set_solver|done|set_solver|done].
Qed.

Lemma delivered_used : Forall op_used delivered.
Proof. do 2 (apply Forall_cons; split; [unfold op_used, L_TERMINAL; set_solver|]). done. Qed.

Lemma asked_reachable : reachable empty_xdb (xstep plain) asked.
Proof. apply (xrun_reachable question); [apply question_used|by vm_compute]. Qed.

Lemma answer_step : xstep plain answer asked answered_db.
Proof. by split; [|vm_compute]. Qed.

Lemma delivered_steps : steps (xstep plain) answered_db delivered completed.
Proof. apply xrun_steps; [apply delivered_used|by vm_compute]. Qed.

Lemma completed_reachable : reachable empty_xdb (xstep plain) completed.
Proof.
  eapply reachable_steps; [|exact delivered_steps]. eapply reachable_step; [exact asked_reachable|exact answer_step].
Qed.

Lemma exchange_reachable_wf_witness :
  (x_status <$> exchanges completed !! "x1") = Some XCompleted ∧ xwf completed.
Proof. split; [by vm_compute|]. apply (exchange_reachable_wf plain), completed_reachable. Defined.

Lemma exchange_refines_dialogue_witness :
  (d_said <$> view "x1" answered_db)
    = Some [Message "alice" true "which port?"; Message "bob" false "port 80"]
  ∧ dialogue_step (view "x1" asked) (view "x1" answered_db).
Proof.
  split; [by vm_compute|]. apply (exchange_refines_dialogue plain asked answer); [apply asked_reachable|apply answer_step].
Defined.

Lemma response_once_witness :
  ∃ x' l', l_id l' = "leg2" ∧
    commit_exchange_response plain "2026-01-01T15" "leg3" "x1" "leg1" "bob" "run2" "port 80" "key2" false false completed
      = Ok (completed, Some (x', l', false))
    ∧ commit_exchange_response plain "2026-01-01T15" "leg3" "x1" "leg1" "bob" "run2" "port 81" "key3" false false completed
      = Err already_committed.
Proof.
  destruct (response_once plain _ _ _ _ _ _ _ _ _ _ _ _ _ _ _ _ asked_reachable (ltac:(done) : "leg2" ≠ "")
    (ltac:(done) : "run2" ≠ "") answer_result_eq delivered_steps) as (x' & l' & Hid & Hs & Hm & H).
  exists x', l'. split; [done|]. split; [by rewrite H, Hm|]. rewrite H. injection Hs as H1 H2 H3.
  unfold response_matches. rewrite H3. by rewrite !andb_false_r.
Defined.

Lemma question_can_be_answered_witness :
  ∃ db' x' l, commit_exchange_response plain "2026-01-01T12" "leg2" "x1" "leg1" "bob" "run2" "port 80" "key2" false true asked
    = Ok (db', Some (x', l, true)) ∧ x_used x' = 2.
Proof.
  destruct (exchanges asked !! "x1") as [x|] eqn:Hx; [|by vm_compute in Hx].
  destruct (legs asked !! "leg1") as [i|] eqn:Hi; [|by vm_compute in Hi].
  assert (x_id x = "x1" ∧ x_status x = XActive ∧ x_used x = 1 ∧ x_expires x = "2026-01-02T10" ∧ response_run "run2" x = "run2")
    as (Hid & Hs & Hu & He & Hrun) by (vm_compute in Hx; by injection Hx as <-).
  assert (l_exchange i = "x1" ∧ l_response i = ROpen ∧ l_expects i = true ∧ l_target_run i = Some "run2"
    ∧ is_l [LRunning; LDelivered] i = true ∧ l_target i = "bob")
    as (Hie & Ho & Hq & Ht & Hst & Hb) by (vm_compute in Hi; by injection Hi as <-).
  assert (unused_key asked "leg2" (x_id x) "key2" ∧ ¬ spoke asked (x_id x) (response_run "run2" x)) as [Hf Hsp].
  { rewrite Hid, Hrun. assert (∀ j l, legs asked !! j = Some l → l_key l ≠ "key2" ∧ l_source_run l ≠ "run2") as H; cycle 1.
    { split; [|by intros (j & l & Hl & _ & H2); destruct (H j l Hl)].
      split; [done|]. split; [by vm_compute|]. intros j l Hl _. by destruct (H j l Hl). }
    intros j l Hl.
    assert (j ∈ dom (legs asked)) as Hj by (apply elem_of_dom; by exists l).
    assert (dom (legs asked) = {["leg1"]}) as Hd by (by vm_compute).
    assert (j = "leg1") as -> by set_solver. assert (l = i) as -> by congruence.
    vm_compute in Hi. by injection Hi as <-. }
  assert (¬ String.le (x_expires x) "2026-01-01T12") as Hlate by (rewrite He; by vm_compute).
  rewrite <-Hie in Hx.
  destruct (proj1 (question_can_be_answered plain asked "2026-01-01T12" "leg2" "leg1" i x "run2" "port 80" "key2" true
    asked_reachable Hi Hx Hs Ho Hq Ht Hst (or_introl Hlate) Hf) Hsp) as (db' & x' & l & E & _ & _ & _ & Hu').
  exists db', x', l. rewrite <-Hid, <-Hb. split; [done|]. by rewrite Hu', Hu.
Defined.

Lemma cancelled_exchange_silent_witness :
  ∃ db1 r, cancel_exchange "2026-01-01T12" "x1" OCancelled "stopped" "no need" asked = Ok (db1, r)
  ∧ (∃ x2, exchanges db1 !! "x1" = Some x2 ∧ x_status x2 = XCancelled).
Proof.
  destruct (exchanges asked !! "x1") as [x|] eqn:Hx; [|by vm_compute in Hx].
  assert (is_x X_OPEN x = true) as Ho by (vm_compute in Hx; injection Hx as <-; by vm_compute).
  destruct (cancel_exchange "2026-01-01T12" "x1" OCancelled "stopped" "no need" asked) as [[db1 r]|] eqn:E;
    [|by vm_compute in E].
  exists db1, r. split; [done|].
  destruct (cancelled_exchange_silent plain _ _ _ _ _ _ _ _ _ _ _ asked_reachable Hx E (steps_nil _ db1)) as (H & _).
  by rewrite Ho in H.
Defined.
