(* ===== verification/Envelopes.v ===== *)
(** * Direct messages between chats: the envelope ledger

    [agent_server.py], the part of [CrossChatStore] on [cross_chat_envelopes]:
    an instruction one chat sends another, or the final result it owes it.  An
    envelope is either delivered as a turn of the target's queue, or stored in
    the passive mailbox of [Mailbox], which reads the same table inside the
    same transaction.  A method is a function of the two that leaves them as
    they were when it raises; the clock and the envelope ids are arguments.
    Columns are never NULL except where the model has an option. *)
From S2P Require Import Prelude PyValues Mailbox Exchanges.

Open Scope string_scope.
Open Scope Z_scope.
Open Scope list_scope.

(** ** The table *)

Inductive ekind := KInstruction | KFinalResult.
#[global] Instance ekind_eq_dec : EqDecision ekind.
Proof. solve_decision. Defined.
Definition ekind_text (k : ekind) : string :=
  match k with KInstruction => "instruction" | KFinalResult => "final_result" end.

Inductive estatus := EWaitingSource | EWaitingAdmission | EReady | ESubmitting | EQueued | ERunning
  | EStored | EDelivered | EFailed | ECancelled.
#[global] Instance estatus_eq_dec : EqDecision estatus.
Proof. solve_decision. Defined.
Definition estatus_text (st : estatus) : string :=
  match st with
  | EWaitingSource => "waiting_source" | EWaitingAdmission => "waiting_admission"
  | EReady => "ready" | ESubmitting => "submitting" | EQueued => "queued" | ERunning => "running"
  | EStored => "stored" | EDelivered => "delivered" | EFailed => "failed" | ECancelled => "cancelled"
  end.

(** [TERMINAL_STATUSES], and the statuses that [recoverable] asks for. *)
Definition E_TERMINAL : list estatus := [EDelivered; EFailed; ECancelled].
Definition E_ACTIVE : list estatus := [EWaitingAdmission; EWaitingSource; EReady; ESubmitting; EQueued; ERunning].

(** The column [action] repeats [kind]. *)
Record message_row := MessageRow {
  c_id : string;
  c_kind : ekind;
  c_source : string;
  c_source_run : string;
  c_target : string;
  c_body : string;
  c_instruction : string;
  c_delegation : string;
  c_target_body : option string;
  c_revision : Z;
  c_key : string;
  c_auth_kind : string;
  c_route : option string;
  c_pair : string;
  c_mode : string;
  c_reply_to : option string;
  c_status : estatus;
  c_queued : option string;
  c_position : option Z;
  c_target_run : option string;
  c_result_hash : option string;
  c_error : option string;
  c_lifecycle : string;
  c_created : string;
  c_updated : string;
}.

Definition is_e (l : list estatus) (e : message_row) : bool := bool_decide (c_status e ∈ l).

(** The rows as the mailbox reads them. *)
Definition envelope_of (e : message_row) : envelope := {|
  e_status := estatus_text (c_status e); e_mode := c_mode e; e_kind := ekind_text (c_kind e);
  e_auth_kind := c_auth_kind e; e_source := c_source e; e_target := c_target e; e_pair := c_pair e;
  e_target_run := c_target_run e; e_reply_to := c_reply_to e; e_body := c_body e;
  e_target_body := c_target_body e; e_revision := c_revision e; e_created_at := c_created e;
  e_source_run := c_source_run e; e_instruction := c_instruction e; e_delegation := c_delegation e |}.

(** The table of envelopes and the tables of the mailbox; the mailbox sees
    the former through [mail_db]. *)
Record store := Store {
  messages : gmap string message_row;
  box : mailbox;
}.

Definition empty_store : store := Store ∅ empty_mailbox.

Definition mail_db (s : store) : mailbox := (box s) {{ envelopes := envelope_of <$> messages s }}.

(** ** Inserting *)

(** [WHERE source_run_id=? AND idempotency_key=?], which is [UNIQUE]. *)
Definition sent_by (run key : string) (s : store) : option message_row :=
  select_one (λ e, String.eqb (c_source_run e) run && String.eqb (c_key e) key) (messages s).

Definition new_message (now id : string) (kind : ekind) (source run target body instruction key auth_kind : string)
    (route : option string) (pair : string) (status : estatus) : message_row := {|
  c_id := id; c_kind := kind; c_source := source; c_source_run := run; c_target := target;
  c_body := body; c_instruction := instruction; c_delegation := ""; c_target_body := None;
  c_revision := 0; c_key := key; c_auth_kind := auth_kind; c_route := route; c_pair := pair;
  c_mode := ""; c_reply_to := None; c_status := status; c_queued := None; c_position := None;
  c_target_run := None; c_result_hash := None; c_error := None; c_lifecycle := "";
  c_created := now; c_updated := now |}.

(** [INSERT OR IGNORE]: a row that breaks a constraint is not written. *)
Definition create_final_obligation (now id source run target key instruction : string) (s : store)
    : res (store * message_row) :=
  instruction ← validated_instruction instruction;
  let s' :=
    if bool_decide (is_Some (messages s !! id)) || bool_decide (is_Some (sent_by run key s)) then s
    else s {{ messages := <[id := new_message now id KFinalResult source run target "" instruction key
                                    "explicit_prompt" None "" EWaitingSource]> (messages s) }} in
  match sent_by run key s' with
  | None => Err AssertionError
  | Some e => Ok (s', e)
  end.

(** The arguments of [create_instruction]. *)
Record instruction_request := InstructionRequest {
  ir_id : string;
  ir_source : string;
  ir_run : string;
  ir_target : string;
  ir_body : string;
  ir_key : string;
  ir_instruction : string;
  ir_delegation : string;
  ir_auth_kind : string;
  ir_route : option string;
  ir_pair : string;
  ir_status : estatus;
  ir_reply_to : option string;
}.

Definition instruction_checks (q : instruction_request) : res unit :=
  _ ← validated_instruction (ir_instruction q);
  _ ← raise_if (negb (str_in (ir_auth_kind q) ["explicit_prompt"; "configured_route"]))
        (ValueError "invalid cross-chat authorization kind");
  _ ← (if String.eqb (ir_auth_kind q) "configured_route"
       then raise_if (negb (hex_id "route_" (default "" (ir_route q))))
              (ValueError "configured route authorization requires a route id")
       else raise_if (bool_decide (is_Some (ir_route q)))
              (ValueError "explicit prompt authorization cannot carry a route id"));
  _ ← raise_if (negb (String.eqb (ir_pair q) "")
                && (negb (String.eqb (ir_auth_kind q) "configured_route") || negb (hex_id "pair_" (ir_pair q))))
        (ValueError "invalid permanent pair authorization");
  _ ← raise_if (negb (bool_decide (ir_status q ∈ [EReady; EWaitingAdmission; EStored])))
        (ValueError "invalid initial cross-chat instruction status");
  _ ← raise_if (bool_decide (ir_status q = EStored) && String.eqb (ir_pair q) "")
        (ValueError "mailbox storage requires a permanent pair");
  raise_if (negb (String.eqb (ir_delegation q) "")
            && (negb (str_in (ir_delegation q) ["route"; "instruction"; "request_reply"])
                || negb (bool_decide (ir_status q = EStored)) || blank (ir_instruction q)))
    (ValueError "user delegation requires an exact source instruction and mailbox message").

(** The answer to a repeated send. *)
Definition instruction_matches (q : instruction_request) (e : message_row) : bool :=
  bool_decide (c_kind e = KInstruction) && String.eqb (c_target e) (ir_target q)
  && String.eqb (c_body e) (ir_body q) && String.eqb (c_instruction e) (ir_instruction q)
  && String.eqb (c_delegation e) (ir_delegation q) && String.eqb (c_auth_kind e) (ir_auth_kind q)
  && bool_decide (c_route e = ir_route q) && String.eqb (c_pair e) (ir_pair q)
  && bool_decide (c_reply_to e = ir_reply_to q).

(** The row the [INSERT] and, for a mailbox message, the [UPDATE] leave. *)
Definition instruction_row (now : string) (q : instruction_request) : message_row :=
  let e := new_message now (ir_id q) KInstruction (ir_source q) (ir_run q) (ir_target q) (ir_body q)
             (ir_instruction q) (ir_key q) (ir_auth_kind q) (ir_route q) (ir_pair q) (ir_status q) in
  if bool_decide (ir_status q = EStored)
  then e {{ c_mode := "mailbox"; c_reply_to := ir_reply_to q; c_delegation := ir_delegation q }}
  else e.

(** [chat_mailbox.store_message(connection, ...)] *)
Definition store_in_mailbox (now id : string) (reply : option string) (s : store) : res store :=
  '(db, _) ← store_message now id reply (mail_db s);
  Ok (s {{ box := db }}).

Definition different_handoff : exn :=
  HTTPError 409 "idempotency key was already used for a different handoff".

Definition create_instruction (now : string) (q : instruction_request) (s : store)
    : res (store * (message_row * bool)) :=
  _ ← instruction_checks q;
  match sent_by (ir_run q) (ir_key q) s with
  | Some e => _ ← raise_if (negb (instruction_matches q e)) different_handoff; Ok (s, (e, false))
  | None =>
      _ ← raise_if (bool_decide (is_Some (messages s !! ir_id q))) (IntegrityError "cross_chat_envelopes");
      let s := s {{ messages := <[ir_id q := instruction_row now q]> (messages s) }} in
      s ← (if bool_decide (ir_status q = EStored)
           then store_in_mailbox now (ir_id q) (ir_reply_to q) s else Ok s);
      match messages s !! ir_id q with
      | None => Err AssertionError
      | Some e => Ok (s, (e, true))
      end
  end.

(** ** Moving pending messages to the mailbox *)

Definition e_by_created : relation message_row := by_key (λ e, (c_created e, c_id e)) text_text_le.
#[global] Instance e_by_created_dec : RelDecision e_by_created := _.

Definition pending_mailbox_migration_candidates (initialized : bool) (s : store) : list message_row :=
  if negb initialized then [] else
  select_ordered (λ e, bool_decide (c_kind e = KInstruction) && String.eqb (c_auth_kind e) "configured_route"
      && negb (String.eqb (c_pair e) "") && String.eqb (c_mode e) "" && is_e [EReady; ESubmitting; EQueued] e
      && bool_decide (c_target_run e = None)) e_by_created (messages s).

(** The row is still the one the candidate was read from. *)
Definition migrates (c e : message_row) : bool :=
  String.eqb (c_source e) (c_source c) && String.eqb (c_target e) (c_target c)
  && String.eqb (c_auth_kind e) "configured_route" && bool_decide (c_kind e = KInstruction)
  && bool_decide (is_Some (c_route c)) && bool_decide (c_route e = c_route c)
  && String.eqb (c_pair e) (c_pair c) && bool_decide (c_status e = c_status c)
  && bool_decide (c_queued e = c_queued c) && bool_decide (c_target_run e = None)
  && String.eqb (c_mode e) "".

Definition set_message (id : string) (P : message_row → bool) (f : message_row → message_row) (s : store) : store :=
  s {{ messages := update_row id P f (messages s) }}.

Definition migrated (now : string) (e : message_row) : message_row := e {{
  c_status := EStored; c_mode := "mailbox"; c_position := None;
  c_lifecycle := "mailbox_migration_pending"; c_updated := now }}.

Definition migrate_pending_mailbox_message (now now' : string) (c : message_row) (s : store)
    : res (store * option message_row) :=
  if negb (row_matches (c_id c) (migrates c) (messages s)) then Ok (s, None) else
  let s := set_message (c_id c) (migrates c) (migrated now) s in
  s ← store_in_mailbox (if bool_decide (c_status c = EReady) then now' else c_created c) (c_id c) None s;
  Ok (s, messages s !! c_id c).

(** [mailbox_call]: one function of [chat_mailbox], in one transaction.  Only
    [cancel_message] writes the envelope. *)
Definition mailbox_call (o : mop) (s : store) : store :=
  let s' := s {{ box := mapply o (mail_db s) }} in
  match o with
  | OpCancel now id =>
      match cancel_message now id (mail_db s) with
      | Ok (_, true) => set_message id (λ _, true) (λ e, e {{
          c_status := ECancelled; c_lifecycle := ""; c_updated := now }}) s'
      | _ => s'
      end
  | _ => s'
  end.

(** The lifecycle a mailbox message should have been given. *)
Definition mailbox_lifecycle (m : mail) : string :=
  if bool_decide (m_excluded_reason m = Some "deleted") then "mailbox_deleted"
  else if bool_decide (is_Some (m_excluded_at m)) then "mailbox_cancelled" else "mailbox_received".

(** At most 100 rows; the query does not order them. *)
Definition mailbox_envelopes (pending_only : bool) (id : string) (s : store) : list (message_row * mail) :=
  take 100 (select_where (λ r : message_row * mail,
      String.eqb (c_mode r.1) "mailbox"
      && (negb pending_only
          || is_e [EStored] r.1 && negb (String.eqb (c_lifecycle r.1) (mailbox_lifecycle r.2)))
      && (String.eqb id "" || String.eqb (c_id r.1) id))
    (map_zip (messages s) (mails (box s)))).

(** ** Admission, editing, rebinding *)

Definition admissible (run : string) (s : store) (id : string) : res unit :=
  match messages s !! id with
  | None => Err (RuntimeError "direct cross-chat instruction disappeared before admission")
  | Some e =>
      _ ← raise_if (negb (bool_decide (c_kind e = KInstruction) && String.eqb (c_source_run e) run))
            (RuntimeError "direct cross-chat instruction owner changed before admission");
      raise_if (negb (is_e ([EWaitingAdmission; EReady] ++ E_TERMINAL) e))
        (RuntimeError "direct cross-chat instruction changed before admission")
  end.

Fixpoint each {A} (f : A → res unit) (l : list A) : res unit :=
  match l with [] => Ok tt | a :: l => _ ← f a; each f l end.

Definition admit_direct_instructions (now : string) (ids : list string) (run : string) (s : store)
    : res (store * list message_row) :=
  let ids := filter (λ id, id ≠ "") ids in
  match ids with
  | [] => Ok (s, [])
  | _ =>
      _ ← raise_if (negb (bool_decide (NoDup ids))) (RuntimeError "duplicate direct cross-chat instruction id");
      _ ← raise_if (existsb (λ id, bool_decide (messages s !! id = None)) ids)
            (RuntimeError "direct cross-chat instruction disappeared before admission");
      _ ← each (admissible run s) ids;
      let s := s {{ messages := update_where
        (λ e, str_in (c_id e) ids && String.eqb (c_source_run e) run && is_e [EWaitingAdmission] e)
        (λ e, e {{ c_status := EReady; c_updated := now }}) (messages s) }} in
      Ok (s, omap (λ id, messages s !! id) ids)
  end.

Definition get_message (id : string) (s : store) : option message_row := messages s !! id.

Definition for_source_run (run : string) (s : store) : list message_row :=
  select_ordered (λ e, String.eqb (c_source_run e) run) e_by_created (messages s).

(** The recipient's user edits what its chat will read. *)
Definition edit_exact_queued_message (now id target queued pair : string) (revision : Z) (body : string)
    (s : store) : store * option message_row :=
  let hit e := String.eqb (c_target e) target && bool_decide (c_queued e = Some queued)
    && String.eqb (c_auth_kind e) "configured_route" && bool_decide (c_kind e = KInstruction)
    && String.eqb (c_pair e) pair && is_e [EQueued] e && bool_decide (c_target_run e = None)
    && (c_revision e =? revision) in
  if row_matches id hit (messages s) then
    let s := set_message id hit (λ e, e {{
      c_target_body := Some body; c_revision := c_revision e + 1; c_updated := now }}) s in
    (s, messages s !! id)
  else (s, None).

Definition rebind_source_run (now : string) (ids : list string) (old new : string) (s : store) : res store :=
  match ids with
  | [] => Ok s
  | _ =>
      let hit e := String.eqb (c_source_run e) old && str_in (c_id e) ids && is_e [EWaitingSource] e in
      let clash e := hit e && bool_decide (is_Some (select_one
        (λ e', negb (hit e') && String.eqb (c_source_run e') new && String.eqb (c_key e') (c_key e)) (messages s))) in
      _ ← raise_if (bool_decide (is_Some (select_one clash (messages s)))) (IntegrityError "cross_chat_envelopes");
      _ ← raise_if (negb (Nat.eqb (count_where hit (messages s)) (length ids)))
            (RuntimeError "cross-chat obligations changed before source run binding");
      Ok (s {{ messages := update_where hit (λ e, e {{ c_source_run := new; c_updated := now }}) (messages s) }})
  end.

(** ** Delivery *)

(** The [changes] of [update] that are allowed. *)
Record message_patch := MessagePatch {
  mp_body : option string;
  mp_status : option estatus;
  mp_queued : option (option string);
  mp_position : option (option Z);
  mp_target_run : option (option string);
  mp_result_hash : option (option string);
  mp_error : option (option string);
  mp_lifecycle : option string;
}.

Definition message_patch_empty (p : message_patch) : bool :=
  match p with MessagePatch None None None None None None None None => true | _ => false end.

(** A terminal status reopens the lifecycle outbox. *)
Definition message_lifecycle (p : message_patch) (e : message_row) : string :=
  match mp_lifecycle p, mp_status p with
  | Some s, _ => s
  | None, Some st => if bool_decide (st ∈ E_TERMINAL) then "" else c_lifecycle e
  | None, None => c_lifecycle e
  end.

Definition patch_message (now : string) (p : message_patch) (e : message_row) : message_row := e {{
  c_body := default (c_body e) (mp_body p);
  c_status := default (c_status e) (mp_status p);
  c_queued := default (c_queued e) (mp_queued p);
  c_position := default (c_position e) (mp_position p);
  c_target_run := default (c_target_run e) (mp_target_run p);
  c_result_hash := default (c_result_hash e) (mp_result_hash p);
  c_error := default (c_error e) (mp_error p);
  c_lifecycle := message_lifecycle p e;
  c_updated := now }}.

(** [update]; [expected] is empty when there is none. *)
Definition update_message (now id : string) (expected : list estatus) (p : message_patch) (s : store)
    : store * option message_row :=
  if message_patch_empty p then (s, messages s !! id) else
  let hit e := bool_decide (expected = []) || is_e expected e in
  if row_matches id hit (messages s) then
    let s := set_message id hit (patch_message now p) s in (s, messages s !! id)
  else (s, None).

Definition cancel_exact_queued_envelope (now id target queued error : string) (s : store)
    : store * option message_row :=
  let hit e := String.eqb (c_target e) target && bool_decide (c_queued e = Some queued) && is_e [EQueued] e in
  if row_matches id hit (messages s) then
    let s := set_message id hit (λ e, e {{
      c_status := ECancelled; c_error := Some error; c_lifecycle := ""; c_updated := now }}) s in
    (s, messages s !! id)
  else (s, None).

(** What [initialize] does with messages of an interface that is gone. *)
Definition retire_legacy_direct (now : string) (s : store) : store :=
  s {{ messages := update_where
    (λ e, bool_decide (c_kind e = KInstruction) && String.eqb (c_auth_kind e) "explicit_prompt"
          && String.eqb (prefix_of 7 (c_key e)) "direct:"
          && is_e [EWaitingAdmission; EReady; ESubmitting; EQueued] e)
    (λ e, e {{ c_status := EFailed;
               c_error := Some "legacy raw @chat delivery retired during route-hint migration";
               c_lifecycle := ""; c_updated := now }}) (messages s) }}.

(** ** Queries *)

Definition recoverable_messages (s : store) : list message_row :=
  select_ordered (is_e E_ACTIVE) e_by_created (messages s).

Definition pending_terminal_lifecycle (s : store) : list message_row :=
  select_ordered (λ e, is_e E_TERMINAL e && negb (String.eqb (c_lifecycle e) (estatus_text (c_status e))))
    e_by_created (messages s).

Definition nonterminal_for_session (session : string) (s : store) : list message_row :=
  select_ordered (λ e, (String.eqb (c_source e) session || String.eqb (c_target e) session) && is_e E_ACTIVE e)
    e_by_created (messages s).

(** ** Runs of the ledger *)

Inductive eop :=
| EFinal (now id source run target key instruction : string)
| EInstruction (now : string) (q : instruction_request)
| EMigrate (now now' : string) (c : message_row)
| EMail (o : mop)
| EAdmit (now : string) (ids : list string) (run : string)
| EEdit (now id target queued pair : string) (revision : Z) (body : string)
| ERebind (now : string) (ids : list string) (old new : string)
| EUpdate (now id : string) (expected : list estatus) (p : message_patch)
| ECancelQueued (now id target queued error : string)
| ERetire (now : string).

Definition eapply_op (o : eop) (s : store) : res store :=
  match o with
  | EFinal now id source run target key instruction =>
      '(s, _) ← create_final_obligation now id source run target key instruction s; Ok s
  | EInstruction now q => '(s, _) ← create_instruction now q s; Ok s
  | EMigrate now now' c => '(s, _) ← migrate_pending_mailbox_message now now' c s; Ok s
  | EMail o => Ok (mailbox_call o s)
  | EAdmit now ids run => '(s, _) ← admit_direct_instructions now ids run s; Ok s
  | EEdit now id target queued pid revision body =>
      Ok (edit_exact_queued_message now id target queued pid revision body s).1
  | ERebind now ids old new => rebind_source_run now ids old new s
  | EUpdate now id expected p => Ok (update_message now id expected p s).1
  | ECancelQueued now id target queued error => Ok (cancel_exact_queued_envelope now id target queued error s).1
  | ERetire now => Ok (retire_legacy_direct now s)
  end.

(** What the server passes.  [update] changes only active rows, back to
    [ready] or onwards, and fills in the body of a final result when its
    source has finished; a closed row is only written for its outbox.
    [OpEnvelopes] is not a function of the mailbox; a row that is migrated was
    a candidate. *)
Definition message_patch_used (expected : list estatus) (p : message_patch) : Prop :=
  expected ⊆ E_ACTIVE ∧ expected ≠ []
  ∧ (∀ st, mp_status p = Some st → st ∈ [EReady; ESubmitting; EQueued; ERunning] ++ E_TERMINAL)
  ∧ (mp_body p ≠ None → expected = [EWaitingSource] ∧ mp_status p = Some EReady)
  ∨ p = MessagePatch None None None None None None None (mp_lifecycle p).

Definition eop_used (o : eop) : Prop :=
  match o with
  | EUpdate _ _ expected p => message_patch_used expected p
  | EMail o => match o with OpEnvelopes _ _ => False | _ => True end
  | EMigrate _ _ c => c_status c ∈ [EReady; ESubmitting; EQueued]
  | _ => True
  end.

Definition estep (o : eop) (s s' : store) : Prop := eop_used o ∧ eapply_op o s = Ok s'.
