(* ===== verification/EnvelopeSteps.v ===== *)
(** * What each method of the envelope ledger does

    How a row may change, what the mailbox sees of it, and that every method,
    called as the server calls it, keeps the ledger well formed. *)
From S2P Require Import Prelude PyValues Mailbox MailboxReads Exchanges Envelopes.

Open Scope string_scope.
Open Scope Z_scope.
Open Scope list_scope.

(** ** What a method may do to a row *)

(** A row's route never changes; its body and its sender's run are fixed once
    the sender has finished; the recipient's edit only replaces an older one;
    a terminal row is frozen but for its outbox. *)
Record message_le (e e' : message_row) : Prop := {
  me_route : (c_id e', c_kind e', c_source e', c_target e', c_auth_kind e', c_route e', c_pair e', c_key e')
             = (c_id e, c_kind e, c_source e, c_target e, c_auth_kind e, c_route e, c_pair e, c_key e);
  me_said : (c_instruction e', c_delegation e', c_reply_to e', c_created e')
            = (c_instruction e, c_delegation e, c_reply_to e, c_created e);
  me_sent : c_status e ≠ EWaitingSource → c_body e' = c_body e ∧ c_source_run e' = c_source_run e;
  me_waits : c_status e' = EWaitingSource → c_status e = EWaitingSource;
  me_edit : c_revision e ≤ c_revision e'
            ∧ (c_revision e' = c_revision e → c_target_body e' = c_target_body e);
  me_closed : is_e E_TERMINAL e = true →
    e' = e {{ c_lifecycle := c_lifecycle e'; c_updated := c_updated e' }};
  me_stored : c_status e = EStored → c_status e' = EStored ∨ c_status e' = ECancelled;
}.

#[global] Instance message_le_preorder : PreOrder message_le.
Proof.
  split.
  - intros e. split; auto; [by split; [lia|]|]. intros _. by destruct e.
  - intros e e' e'' [R S B W [E1 E2] C T] [R' S' B' W' [E1' E2'] C' T'].
    split; [congruence|congruence|..|auto| | |].
    + intros Hw. destruct (B Hw) as [<- <-]. apply B'. auto.
    + split; [lia|]. intros Hr. rewrite E2', E2 by lia. done.
    + intros Ht. pose proof (C Ht) as Ec. assert (is_e E_TERMINAL e' = true) as Ht' by (by rewrite Ec).
      pose proof (C' Ht') as Ec'. rewrite Ec'. by rewrite Ec.
    + intros Hs. destruct (T Hs) as [Hs'|Hs']; [by apply T'|right].
      assert (is_e E_TERMINAL e' = true) as Ht' by (unfold is_e; by rewrite Hs').
      by rewrite (C' Ht').
Qed.

Lemma is_e_In l e : is_e l e = true ↔ c_status e ∈ l.
Proof. unfold is_e. by rewrite bool_decide_eq_true. Qed.

(** An update of an active row. *)
Lemma active_message_le e e' :
  c_status e ∈ E_ACTIVE →
  (c_id e', c_kind e', c_source e', c_target e', c_auth_kind e', c_route e', c_pair e', c_key e')
    = (c_id e, c_kind e, c_source e, c_target e, c_auth_kind e, c_route e, c_pair e, c_key e) →
  (c_instruction e', c_delegation e', c_reply_to e', c_created e')
    = (c_instruction e, c_delegation e, c_reply_to e, c_created e) →
  (c_status e ≠ EWaitingSource → c_body e' = c_body e ∧ c_source_run e' = c_source_run e) →
  (c_status e' = EWaitingSource → c_status e = EWaitingSource) →
  (c_revision e ≤ c_revision e' ∧ (c_revision e' = c_revision e → c_target_body e' = c_target_body e)) →
  message_le e e'.
Proof.
  intros Ha R S B W E. split; [done..| |].
  - intros Ht. exfalso. unfold is_e in Ht. by destruct (c_status e); vm_compute in Ht; repeat (apply elem_of_cons in Ha as [?|Ha]; [done|]); apply elem_of_nil in Ha.
  - intros Hs. rewrite Hs in Ha. exfalso. unfold E_ACTIVE in Ha. set_solver.
Qed.

(** The outbox may be written on any row. *)
Lemma outbox_message_le e l u : message_le e (e {{ c_lifecycle := l; c_updated := u }}).
Proof. split; try done; auto. Qed.

(** ** What the mailbox sees *)

Lemma mcommit_envelopes {A} db (r : res (mailbox * A)) :
  (∀ db' a, r = Ok (db', a) → envelopes db' = envelopes db) → envelopes (mcommit db r) = envelopes db.
Proof. intros Hr. destruct r as [[db' a]|e]; [by eapply Hr|done]. Qed.

Lemma take_page_envelopes now b P after limit db db' r :
  take_page now b P after limit db = Ok (db', r) → envelopes db' = envelopes db.
Proof.
  unfold take_page. destruct (pages db !! _); intros H; [by injection H as <-|].
  mailbox_inv H. destruct u0 as [rows more]. by injection H as <- _.
Qed.

Lemma read_sender_envelopes now fresh target source reader request pairs after limit db db' r :
  read_sender now fresh target source reader request pairs after limit db = Ok (db', r) →
  envelopes db' = envelopes db.
Proof.
  unfold read_sender. intros H. mailbox_inv H. destruct u5 as [db1 b]. mailbox_inv H.
  destruct u6 as [db2 [p replayed]]. mailbox_inv H. destruct u6 as [rows overflow]. mailbox_inv H.
  injection H as <- _. rewrite (take_page_envelopes _ _ _ _ _ _ _ _ Hg7).
  unfold open_batch in Hg5. destruct (select_where _ _) as [|b1 [|]]; [|by injection Hg5 as <- _|done].
  mailbox_inv Hg5. by injection Hg5 as <- _.
Qed.

(** The functions of the mailbox do not write envelopes, [cancel_message] apart. *)
Lemma mailbox_keeps_envelopes o db :
  match o with OpEnvelopes _ _ | OpCancel _ _ => True | _ => envelopes (mapply o db) = envelopes db end.
Proof.
  destruct o; try done; cbn [mapply]; try (apply mcommit_envelopes; intros db' a H).
  - destruct (store_message_inv _ _ _ _ _ _ H) as (e & m & _ & -> & _). unfold insert_mail. by destruct (mails db !! id).
  - by eapply read_sender_envelopes.
  - unfold exclude_message in H. mailbox_inv H. by injection H as <- _.
  - unfold exclude_pair in H. mailbox_inv H. by injection H as <- _.
  - unfold exclude_session in H. mailbox_inv H. by injection H as <- _.
  - unfold mark_read_event_published in H. mailbox_inv H. by injection H as <- _.
  - unfold claim_wake in H. mailbox_inv H. repeat case_match; mailbox_inv H; by simplify_eq.
  - unfold admit_wake in H. mailbox_inv H. repeat case_match; by simplify_eq.
  - unfold release_wake in H. mailbox_inv H. by simplify_eq.
  - unfold suppress_wake in H. mailbox_inv H. by simplify_eq.
Qed.

Lemma mail_db_mails s : mails (mail_db s) = mails (box s).
Proof. done. Qed.

(** Writing envelopes is a step of the mailbox's environment. *)
Lemma mail_db_write s s' :
  box s' = box s → dom (messages s) ⊆ dom (messages s') →
  steps mstep (mail_db s) [OpEnvelopes (envelope_of <$> messages s') 0] (mail_db s').
Proof.
  intros Hb Hd. econstructor; [|constructor]. unfold mstep, mapply.
  rewrite decide_True; [|cbn; rewrite !dom_fmap_L; exact Hd]. cbn. unfold mail_db. rewrite Hb. destruct (box s) as [es ms fl bs ps ws]; cbn.
  by rewrite Z.add_0_r.
Qed.

(** Storing a message is [store_message] of the mailbox. *)
Lemma store_in_mailbox_inv now id reply s s' :
  store_in_mailbox now id reply s = Ok s' →
  messages s' = messages s ∧ mstep (OpStore now id reply) (mail_db s) (mail_db s')
  ∧ ∃ e m, messages s !! id = Some e ∧ mails (box s') !! id = Some m ∧ storable (envelope_of e) = true
    ∧ m_source m = c_source e ∧ m_target m = c_target e ∧ m_pair m = c_pair e.
Proof.
  unfold store_in_mailbox. intros H. apply res_bind_Ok in H as ([db d] & E & [= <-]).
  destruct (store_message_inv _ _ _ _ _ _ E) as (e & m & He & Hdb & Hm & Hst & _ & H1 & H2 & H3 & _).
  cbn in He. rewrite lookup_fmap in He. destruct (messages s !! id) as [r|] eqn:Hr; [|done]. injection He as <-.
  split; [done|]. split; [|exists r, m; exact (conj eq_refl (conj Hm (conj Hst (conj H1 (conj H2 H3)))))].
  unfold mstep. cbn [mapply]. rewrite E. cbn [mcommit].
  assert (envelopes db = envelope_of <$> messages s) as Henv.
  { rewrite Hdb. unfold insert_mail. by case_match. }
  change (db {{ envelopes := envelope_of <$> messages s }} = db). rewrite <-Henv. by destruct db.
Qed.

(** ** The invariant *)

(** A stored message is in the mailbox, with the same sender, recipient and
    pair, as the kind of message the mailbox serves. *)
Definition stored_ok (s : store) (k : string) (e : message_row) : Prop :=
  c_mode e = "mailbox" ∧ c_kind e = KInstruction ∧ c_auth_kind e = "configured_route"
  ∧ ∃ m, mails (box s) !! k = Some m
    ∧ m_source m = c_source e ∧ m_target m = c_target e ∧ m_pair m = c_pair e.

Record ewf (s : store) : Prop := {
  ew_id k e : messages s !! k = Some e → c_id e = k;
  ew_unique k k' e e' : messages s !! k = Some e → messages s !! k' = Some e' →
    c_source_run e = c_source_run e' → c_key e = c_key e' → k = k';
  ew_stored k e : messages s !! k = Some e → c_status e = EStored → stored_ok s k e;
}.

Lemma ewf_empty : ewf empty_store.
Proof. split; intros *; cbn; rewrite ?lookup_empty; done. Qed.

(** A row that a method writes without moving it to another sender. *)
Definition row_le (e e' : message_row) : Prop := message_le e e' ∧ c_source_run e' = c_source_run e.

Definition rows_le (m m' : gmap string message_row) : Prop := ∀ k, option_Forall2 row_le (m !! k) (m' !! k).

(** What a method does to the envelopes, whatever the method. *)
Inductive eeffect (s s' : store) : Prop :=
| ef_rows : rows_le (messages s) (messages s') → eeffect s s'
| ef_new e :
    messages s !! c_id e = None → sent_by (c_source_run e) (c_key e) s = None →
    messages s' = <[c_id e := e]> (messages s) → eeffect s s'
| ef_rebind P f new :
    messages s' = update_where P f (messages s) →
    (∀ e, P e = true → message_le e (f e) ∧ c_source_run (f e) = new) →
    (∀ k k' e e', messages s !! k = Some e → messages s !! k' = Some e' → P e = true → P e' = false →
       c_source_run e' = new → c_key e' ≠ c_key e) →
    (∃ old, ∀ e, P e = true → c_source_run e = old) → eeffect s s'.

(** With what the mailbox sees of it, and how messages come to be stored. *)
Record step_ok (s s' : store) : Prop := {
  so_effect : eeffect s s';
  so_mail : ∃ ls, steps mstep (mail_db s) ls (mail_db s');
  so_stored k e' : messages s' !! k = Some e' → c_status e' = EStored →
    (∃ e, messages s !! k = Some e ∧ c_status e = EStored ∧ c_mode e' = c_mode e) ∨ stored_ok s' k e';
}.

Lemma sent_by_None run key s k e :
  sent_by run key s = None → messages s !! k = Some e → c_source_run e = run → c_key e = key → False.
Proof.
  unfold sent_by. rewrite select_one_None. intros Hn Hk <- <-. specialize (Hn _ _ Hk).
  by rewrite !String.eqb_refl in Hn.
Qed.

(** The rows of the table only advance. *)
Lemma eeffect_rows s s' :
  eeffect s s' → ∀ k e, messages s !! k = Some e → ∃ e', messages s' !! k = Some e' ∧ message_le e e'.
Proof.
  intros [Hr|e0 Hn _ ->|P f new -> Hf _ _] k e He.
  - destruct (forall2_fwd _ _ _ _ (Hr k) He) as (e' & He' & [? _]). by exists e'.
  - exists e. split; [|done]. rewrite lookup_insert_ne; [done|]. intros <-. by rewrite Hn in He.
  - rewrite update_where_lookup, He. cbn. destruct (P e) eqn:HP; [|by eexists].
    eexists. split; [done|]. by apply Hf.
Qed.

Lemma ewf_unique_effect s s' :
  ewf s → eeffect s s' → ∀ k k' e e', messages s' !! k = Some e → messages s' !! k' = Some e' →
    c_source_run e = c_source_run e' → c_key e = c_key e' → k = k'.
Proof.
  intros W [Hr|e0 Hn Hs ->|P f new -> Hf Hcl [old Hold]] k k' e e' He He' Hrun Hkey.
  - destruct (forall2_bwd _ _ _ _ (Hr k) He) as (d & Hd & [[R _ _ _ _ _ _] Hdr]).
    destruct (forall2_bwd _ _ _ _ (Hr k') He') as (d' & Hd' & [[R' _ _ _ _ _ _] Hdr']).
    eapply (ew_unique _ W); [done..|congruence|congruence].
  - apply lookup_insert_Some in He as [[<- <-]|[_ He]], He' as [[<- <-]|[_ He']]; [done| | |by eapply (ew_unique _ W)].
    + exfalso. by eapply sent_by_None.
    + exfalso. by eapply sent_by_None.
  - rewrite update_where_lookup in He, He'.
    destruct (messages s !! k) as [d|] eqn:Hd; [|done]. destruct (messages s !! k') as [d'|] eqn:Hd'; [|done].
    cbn in He, He'. injection He as <-. injection He' as <-.
    assert (∀ d, P d = true → c_key (f d) = c_key d) as Hk by (intros x Hx; by destruct (Hf x Hx) as [[R _ _ _ _ _ _] _]; injection R).
    destruct (P d) eqn:HP, (P d') eqn:HP'; rewrite ?Hk in Hkey by done.
    + eapply (ew_unique _ W); [done..| |done]. by rewrite (Hold d), (Hold d').
    + destruct (Hf d HP) as [_ Hnew]. exfalso. eapply (Hcl k k' d d'); [done..|congruence|done].
    + destruct (Hf d' HP') as [_ Hnew]. exfalso. eapply (Hcl k' k d' d); [done..|congruence|done].
    + by eapply (ew_unique _ W).
Qed.

Lemma ewf_step s s' : ewf s → mreachable (mail_db s) → step_ok s s' → ewf s'.
Proof.
  intros W M [E [ls Hls] Hst]. split.
  - intros k e' He'. destruct E as [Hr|e0 _ _ Em|P f new Em Hf _ _].
    + destruct (forall2_bwd _ _ _ _ (Hr k) He') as (e & He & [[R _ _ _ _ _ _] _]).
      injection R as -> _. by apply (ew_id _ W).
    + rewrite Em in He'. apply lookup_insert_Some in He' as [[<- <-]|[_ He]]; [done|by apply (ew_id _ W)].
    + rewrite Em, update_where_lookup in He'. destruct (messages s !! k) as [e|] eqn:He; [|done].
      injection He' as <-. pose proof (ew_id _ W _ _ He). destruct (P e) eqn:HP; [|done].
      destruct (Hf e HP) as [[R _ _ _ _ _ _] _]. injection R as -> _. done.
  - by eapply ewf_unique_effect.
  - intros k e' He' Hs'. destruct (Hst k e' He' Hs') as [(e & He & Hse & Hmode)|]; [|done].
    destruct (eeffect_rows _ _ E _ _ He) as (e2 & He2 & [R _ _ _ _ _ _]).
    rewrite He' in He2. injection He2 as <-. injection R as _ R2 R3 R4 R5 _ R7 _.
    destruct (ew_stored _ W _ _ He Hse) as (H1 & H2 & H3 & m & Hm & Hm1 & Hm2 & Hm3).
    destruct (msteps_sound _ _ _ (mreachable_wf _ M) Hls) as [_ [Hle _ _ _]].
    destruct (Hle _ _ Hm) as (m' & Hm' & [Hi _ _ _]). apply ident_fields in Hi.
    unfold stored_ok. rewrite Hmode, R2, R5. split_and!; [done..|]. exists m'. split; [done|].
    rewrite R3, R4, R7. naive_solver congruence.
Qed.

(** ** Steps that write rows in place *)

(** An update that stores no message. *)
Definition row_ok (e e' : message_row) : Prop :=
  row_le e e' ∧ (c_status e' = EStored → c_status e = EStored ∧ c_mode e' = c_mode e).

#[global] Instance row_ok_refl : Reflexive row_ok.
Proof. intros e. split; [split; done|done]. Qed.

Lemma rows_step s s' :
  box s' = box s → (∀ k, option_Forall2 row_ok (messages s !! k) (messages s' !! k)) → step_ok s s'.
Proof.
  intros Hb Hr. split.
  - apply ef_rows. intros k. destruct (Hr k) as [? ? []|]; by constructor.
  - eexists. apply mail_db_write; [done|]. intros k. rewrite !elem_of_dom. destruct (Hr k); by intros [].
  - intros k e' He' Hs. left. destruct (forall2_bwd _ _ _ _ (Hr k) He') as (e & He & [_ H]).
    exists e. destruct (H Hs). done.
Qed.

Lemma step_ok_refl s : step_ok s s.
Proof. apply rows_step; [done|]. intros k. by destruct (messages s !! k); constructor. Qed.

Lemma set_message_step s id P f :
  (∀ e, P e = true → row_ok e (f e)) → step_ok s (set_message id P f s).
Proof.
  intros Hf. apply rows_step; [done|]. intros k. cbn. rewrite update_row_lookup.
  case_decide; [|by destruct (messages s !! k); constructor].
  destruct (messages s !! k) as [e|]; constructor. destruct (P e) eqn:HP; [by apply Hf|done].
Qed.

Lemma update_where_step s P f :
  (∀ e, P e = true → row_ok e (f e)) → step_ok s (s {{ messages := update_where P f (messages s) }}).
Proof.
  intros Hf. apply rows_step; [done|]. intros k. cbn. rewrite update_where_lookup.
  destruct (messages s !! k) as [e|]; constructor. destruct (P e) eqn:HP; [by apply Hf|done].
Qed.

(** Moving an active row to another status. *)
Lemma active_row_ok e e' :
  c_status e ∈ E_ACTIVE →
  (c_id e', c_kind e', c_source e', c_target e', c_auth_kind e', c_route e', c_pair e', c_key e')
    = (c_id e, c_kind e, c_source e, c_target e, c_auth_kind e, c_route e, c_pair e, c_key e) →
  (c_instruction e', c_delegation e', c_reply_to e', c_created e')
    = (c_instruction e, c_delegation e, c_reply_to e, c_created e) →
  (c_status e ≠ EWaitingSource → c_body e' = c_body e) → c_source_run e' = c_source_run e →
  (c_status e' = c_status e ∨ c_status e' ∈ [EReady; ESubmitting; EQueued; ERunning] ++ E_TERMINAL) →
  (c_revision e ≤ c_revision e' ∧ (c_revision e' = c_revision e → c_target_body e' = c_target_body e)) →
  row_ok e e'.
Proof.
  intros Ha R S B N St E.
  assert (c_status e' = EWaitingSource → c_status e = EWaitingSource) as Hw.
  { intros Hw. destruct St as [Hst|Hst]; [congruence|]. rewrite Hw in Hst. unfold E_TERMINAL in Hst. set_solver. }
  split; [split; [|done]|].
  - apply active_message_le; auto.
  - intros Hs. exfalso. unfold E_ACTIVE, E_TERMINAL in *. destruct St as [Hst|Hst]; rewrite Hs in Hst.
    + rewrite <-Hst in Ha. set_solver.
    + set_solver.
Qed.

Lemma is_e_sub l e : is_e l e = true → l ⊆ E_ACTIVE → c_status e ∈ E_ACTIVE.
Proof. intros He%is_e_In Hl. by apply Hl. Qed.

Ltac active_row :=
  apply active_row_ok; cbn;
  [eapply is_e_sub; [eassumption|unfold E_ACTIVE; set_solver]|done|done|done|done|..].

Lemma update_message_step now id expected p s :
  message_patch_used expected p → step_ok s (update_message now id expected p s).1.
Proof.
  intros Hu. unfold update_message. destruct (message_patch_empty p); [apply step_ok_refl|].
  destruct (row_matches _ _ _); [|apply step_ok_refl]. apply set_message_step. intros e He.
  destruct Hu as [(Hsub & Hne & Hst & Hbody)|Hp].
  - assert (c_status e ∈ expected) as Hin.
    { apply orb_true_iff in He as [He%bool_decide_eq_true|He%is_e_In]; done. }
    apply active_row_ok; cbn; try done; [by apply Hsub| |].
    + destruct (mp_body p) as [b|]; [|done]. intros Hw. destruct Hbody as [-> _]; [done|].
      by apply list_elem_of_singleton in Hin.
    + destruct (mp_status p) as [st|]; [right; by apply Hst|by left].
  - rewrite Hp. unfold patch_message. cbn. split; [split; [|done]|done]. apply outbox_message_le.
Qed.

Lemma cancel_queued_step now id target queued error s :
  step_ok s (cancel_exact_queued_envelope now id target queued error s).1.
Proof.
  unfold cancel_exact_queued_envelope. destruct (row_matches _ _ _); [|apply step_ok_refl].
  apply set_message_step. intros e [_ He]%andb_true_iff. active_row; [right; by vm_compute; set_solver|].
  split; [apply Z.le_refl|done].
Qed.

Lemma edit_step now id target queued pid revision body s :
  step_ok s (edit_exact_queued_message now id target queued pid revision body s).1.
Proof.
  unfold edit_exact_queued_message. destruct (row_matches _ _ _); [|apply step_ok_refl].
  apply set_message_step. intros e [[[_ He]%andb_true_iff _]%andb_true_iff _]%andb_true_iff.
  active_row; [by left|split; lia].
Qed.

Lemma retire_step now s : step_ok s (retire_legacy_direct now s).
Proof.
  apply update_where_step. intros e [_ He]%andb_true_iff. active_row; [right; unfold E_TERMINAL; set_solver|].
  split; [apply Z.le_refl|done].
Qed.

Lemma admit_direct_step now ids run s s' r :
  admit_direct_instructions now ids run s = Ok (s', r) → step_ok s s'.
Proof.
  unfold admit_direct_instructions. destruct (filter _ ids); intros H; inv_res; [apply step_ok_refl|].
  apply update_where_step. intros e [_ He]%andb_true_iff. active_row; [right; set_solver|].
  split; [apply Z.le_refl|done].
Qed.

(** ** Steps that add a row, and the mailbox *)

(** Running on the mailbox after writing envelopes. *)
Lemma mail_db_then s s1 s' ls :
  box s1 = box s → dom (messages s) ⊆ dom (messages s1) →
  steps mstep (mail_db s1) ls (mail_db s') → ∃ ls, steps mstep (mail_db s) ls (mail_db s').
Proof.
  intros Hb Hd Hs. exists (OpEnvelopes (envelope_of <$> messages s1) 0 :: ls).
  pose proof (mail_db_write s s1 Hb Hd) as Hw. inversion Hw as [|? ? db1 ? ? H1 H2]; subst.
  inversion H2; subst. by econstructor.
Qed.

Lemma dom_insert_sub (m : gmap string message_row) k e : dom m ⊆ dom (<[k := e]> m).
Proof. rewrite dom_insert. set_solver. Qed.

Lemma insert_step s e :
  messages s !! c_id e = None → sent_by (c_source_run e) (c_key e) s = None → c_status e ≠ EStored →
  step_ok s (s {{ messages := <[c_id e := e]> (messages s) }}).
Proof.
  intros Hn Hs He. split.
  - by eapply ef_new.
  - eexists. apply mail_db_write; [done|apply dom_insert_sub].
  - intros k e' He' Hst. left. change (<[c_id e := e]> (messages s) !! k = Some e') in He'. apply lookup_insert_Some in He' as [[<- <-]|[_ He']]; [done|]. by exists e'.
Qed.

Lemma storable_message e :
  storable (envelope_of e) = true → c_kind e = KInstruction ∧ c_auth_kind e = "configured_route".
Proof.
  destruct e as [id kind]. unfold storable. cbn -[String.eqb]. rewrite !andb_true_iff, !String.eqb_eq.
  intros [[[[[_ Hk] Ha] _] _] _]. split; [|done]. by destruct kind.
Qed.

(** Inserting a message and storing it in the mailbox. *)
Lemma insert_stored_step now reply s s' e :
  messages s !! c_id e = None → sent_by (c_source_run e) (c_key e) s = None →
  c_mode e = "mailbox" →
  store_in_mailbox now (c_id e) reply (s {{ messages := <[c_id e := e]> (messages s) }}) = Ok s' →
  step_ok s s'.
Proof.
  intros Hn Hs Hmode H. destruct (store_in_mailbox_inv _ _ _ _ _ H) as (Hm & Hst & r & m & Hr & Hmail & Hok & H123).
  cbn in Hm, Hr. rewrite lookup_insert_eq in Hr. injection Hr as <-. split.
  - by eapply ef_new.
  - eapply mail_db_then; [| |econstructor; [exact Hst|constructor]]; [done|apply dom_insert_sub].
  - intros k e' He' Hse. rewrite Hm in He'. apply lookup_insert_Some in He' as [[<- <-]|[_ He']].
    + right. destruct (storable_message _ Hok) as [Hk Ha]. by do 3 (split; [done|]); exists m.
    + left. by exists e'.
Qed.

Lemma final_step now id source run target key instr s s' r :
  create_final_obligation now id source run target key instr s = Ok (s', r) → step_ok s s'.
Proof.
  unfold create_final_obligation. intros H. inv_res.
  match type of H with match ?o with _ => _ end = _ => destruct o; [|done] end. inv_res.
  destruct (bool_decide _ || bool_decide _) eqn:Hb; [apply step_ok_refl|].
  apply orb_false_iff in Hb as [H1%bool_decide_eq_false H2%bool_decide_eq_false].
  apply eq_None_not_Some in H1, H2.
  match goal with |- context [<[id := ?e]> _] => by apply (insert_step s e) end.
Qed.

Lemma instruction_step now q s s' r :
  create_instruction now q s = Ok (s', r) → step_ok s s'.
Proof.
  unfold create_instruction. intros H. inv_res.
  destruct (sent_by _ _ _) as [e|] eqn:Hs; [inv_res; apply step_ok_refl|]. inv_res.
  apply bool_decide_eq_false, eq_None_not_Some in H1.
  destruct (messages x1 !! _); [|done]. injection H as <- _.
  assert (c_id (instruction_row now q) = ir_id q ∧ c_source_run (instruction_row now q) = ir_run q
    ∧ c_key (instruction_row now q) = ir_key q ∧ c_status (instruction_row now q) = ir_status q) as (E1 & E2 & E3 & E4).
  { unfold instruction_row. by destruct (bool_decide _). }
  destruct (bool_decide (ir_status q = EStored)) eqn:Hst; inv_res.
  - rewrite <-E1 in *. eapply insert_stored_step; [done|by rewrite E2, E3| |done].
    unfold instruction_row. by rewrite Hst.
  - apply bool_decide_eq_false in Hst. rewrite <-E1 in *. apply insert_step; [done|by rewrite E2, E3|by rewrite E4].
Qed.

Lemma migrate_step now now' c s s' r :
  c_status c ∈ [EReady; ESubmitting; EQueued] →
  migrate_pending_mailbox_message now now' c s = Ok (s', r) → step_ok s s'.
Proof.
  intros Hc. unfold migrate_pending_mailbox_message. intros H.
  destruct (row_matches (c_id c) (migrates c) (messages s)) eqn:Hm; [|injection H as <- _; apply step_ok_refl].
  unfold row_matches in Hm. destruct (messages s !! c_id c) as [e|] eqn:He; [|done].
  cbn [negb] in H. apply res_bind_Ok in H as (s1 & H & [= <- _]).
  assert (set_message (c_id c) (migrates c) (migrated now) s
    = s {{ messages := <[c_id c := migrated now e]> (messages s) }}) as E.
  { unfold set_message, update_row. by rewrite He, Hm. }
  rewrite E in H. destruct (store_in_mailbox_inv _ _ _ _ _ H) as (Em & Hst & r' & m & Hr & Hmail & Hok & H123).
  change (messages s1 = <[c_id c := migrated now e]> (messages s)) in Em.
  change (<[c_id c := migrated now e]> (messages s) !! c_id c = Some r') in Hr. rewrite lookup_insert_eq in Hr. injection Hr as <-.
  unfold migrates in Hm. repeat (apply andb_true_iff in Hm as [Hm ?]).
  repeat match goal with H : bool_decide _ = true |- _ => apply bool_decide_eq_true in H end.
  assert (c_status e ∈ E_ACTIVE) as Ha.
  { match goal with H : c_status e = c_status c |- _ => rewrite H end. revert Hc. clear. unfold E_ACTIVE. set_solver. }
  split.
  - apply ef_rows. intros k. rewrite Em. destruct (decide (c_id c = k)) as [<-|Hk].
    + rewrite lookup_insert_eq, He. constructor. split; [|done]. by apply active_message_le.
    + rewrite lookup_insert_ne by done. destruct (messages s !! k); constructor. by split.
  - eapply mail_db_then; [| |econstructor; [exact Hst|constructor]]; [done|apply dom_insert_sub].
  - intros k e' He' Hse. rewrite Em in He'. apply lookup_insert_Some in He' as [[<- <-]|[_ He']].
    + right. destruct (storable_message _ Hok) as [Hk Hauth]. by do 3 (split; [done|]); exists m.
    + left. by exists e'.
Qed.

Lemma rebind_step now ids old new s s' :
  rebind_source_run now ids old new s = Ok s' → step_ok s s'.
Proof.
  unfold rebind_source_run. destruct ids as [|i ids]; intros H; inv_res; [apply step_ok_refl|].
  set (hit := λ e, String.eqb (c_source_run e) old && str_in (c_id e) (i :: ids) && is_e [EWaitingSource] e) in *.
  apply bool_decide_eq_false, eq_None_not_Some in H0. rewrite select_one_None in H0.
  assert (∀ e, hit e = true → c_status e = EWaitingSource) as Hw.
  { intros e [_ He%is_e_In]%andb_true_iff. by apply list_elem_of_singleton in He. }
  set (f := λ e, e {{ c_source_run := new; c_updated := now }}).
  assert (∀ e, hit e = true → message_le e (f e)) as Hle.
  { intros e He. specialize (Hw e He). apply active_message_le; try done.
    rewrite Hw. unfold E_ACTIVE. set_solver. }
  split.
  - apply (ef_rebind s _ hit f new); [done| | |].
    + intros e He. split; [by apply Hle|done].
    + intros k k' e e' He He' Hh Hh' Hrun Hkey. unfold hit in Hh, Hh'. specialize (H0 _ _ He). cbv beta in H0. rewrite Hh in H0. cbn [andb] in H0.
      apply bool_decide_eq_false, eq_None_not_Some in H0. rewrite select_one_None in H0.
      specialize (H0 _ _ He'). cbv beta in H0. by rewrite Hh', Hrun, Hkey, !String.eqb_refl in H0.
    + exists old. by intros e [[He%String.eqb_eq _]%andb_true_iff _]%andb_true_iff.
  - eexists. apply mail_db_write; [done|]. intros k. rewrite !elem_of_dom. cbn. rewrite update_where_lookup.
    by rewrite fmap_is_Some.
  - intros k e' He' Hst. left. change (update_where hit f (messages s) !! k = Some e') in He'.
    rewrite update_where_lookup in He'. destruct (messages s !! k) as [e|] eqn:He; [|done]. injection He' as <-.
    exists e. split; [done|]. destruct (hit e) eqn:Hh; [|done]. specialize (Hw e Hh).
    change (c_status e = EStored) in Hst. congruence.
Qed.

(** A function of the mailbox that leaves the envelopes alone. *)
Lemma box_step s db o :
  mstep o (mail_db s) db → envelopes db = envelopes (mail_db s) → step_ok s (s {{ box := db }}).
Proof.
  intros Hst Henv. assert (mail_db (s {{ box := db }}) = db) as Hdb.
  { change (db {{ envelopes := envelopes (mail_db s) }} = db). rewrite <-Henv. by destruct db. }
  split.
  - apply ef_rows. intros k. change (option_Forall2 row_le (messages s !! k) (messages s !! k)).
    destruct (messages s !! k); constructor. by split.
  - exists [o]. econstructor; [|constructor]. by rewrite Hdb.
  - intros k e He Hs. left. by exists e.
Qed.

Lemma stored_text st : estatus_text st = "stored" → st = EStored.
Proof. by destruct st. Qed.

(** [cancel_message] closes the envelope of the message it excludes. *)
Lemma cancel_mail_step now id s : step_ok s (mailbox_call (OpCancel now id) s).
Proof.
  unfold mailbox_call. destruct (cancel_message now id (mail_db s)) as [[db b]|x] eqn:E.
  2: { apply (box_step _ _ (OpCancel now id)); [done|]. cbn [mapply]. by rewrite E. }
  destruct b; [|apply (box_step _ _ (OpCancel now id)); [done|]; cbn [mapply]; rewrite E; cbn [mcommit]].
  - destruct (cancel_message_inv _ _ _ _ E) as (m & e & Hm & He & _ & _ & Hs & Hdb).
    change ((envelope_of <$> messages s) !! id = Some e) in He. rewrite lookup_fmap in He.
    destruct (messages s !! id) as [r|] eqn:Hr; [|done]. injection He as <-. apply stored_text in Hs.
    set (f := λ e : message_row, e {{ c_status := ECancelled; c_lifecycle := ""; c_updated := now }}).
    set (s' := set_message _ _ _ _).
    assert (messages s' = <[id := f r]> (messages s)) as Em.
    { change (messages s') with (update_row id (λ _, true) f (messages s)). unfold update_row. by rewrite Hr. }
    assert (message_le r (f r)) as Hle.
    { split; try done; [|by right]. intros Ht. unfold is_e in Ht. by rewrite Hs in Ht. }
    split.
    + apply ef_rows. intros k. rewrite Em. destruct (decide (id = k)) as [<-|Hk].
      * rewrite lookup_insert_eq, Hr. constructor. by split.
      * rewrite lookup_insert_ne by done. destruct (messages s !! k); constructor. by split.
    + exists [OpCancel now id]. econstructor; [|constructor]. unfold mstep. cbn [mapply]. rewrite E. cbn [mcommit].
      unfold mail_db at 1. rewrite Em, fmap_insert. change (box s') with (mapply (OpCancel now id) (mail_db s)).
      cbn [mapply]. rewrite E. cbn [mcommit]. rewrite Hdb. done.
    + intros k e He Hst. left. rewrite Em in He. apply lookup_insert_Some in He as [[<- <-]|[_ He]]; [done|]. by exists e.
  - unfold cancel_message in E. mailbox_inv E. destruct (join_table _ !! _); [|by injection E as <-].
    destruct (_ && _); [by injection E as <-|]. by mailbox_inv E.
Qed.

Lemma mail_step o s : eop_used (EMail o) → step_ok s (mailbox_call o s).
Proof.
  intros Hu. pose proof (mailbox_keeps_envelopes o (mail_db s)) as Henv.
  destruct o; try (by apply (box_step _ _ _ eq_refl)). apply cancel_mail_step.
Qed.

(** Every method, as the server calls it. *)
Lemma estep_ok op s s' : estep op s s' → step_ok s s'.
Proof.
  intros [Hu E]. destruct op; cbn [eapply_op] in E;
    try (match type of E with Ok _ = Ok _ => injection E as <- end);
    try (apply res_bind_Ok in E as ([s1 r] & E & [= <-])).
  - by eapply final_step.
  - by eapply instruction_step.
  - by eapply migrate_step.
  - by apply mail_step.
  - by eapply admit_direct_step.
  - apply edit_step.
  - by eapply rebind_step.
  - by apply update_message_step.
  - apply cancel_queued_step.
  - apply retire_step.
Qed.

Abbreviation ereachable := (reachable empty_store estep).

Lemma ereachable_ok s : ereachable s → ewf s ∧ mreachable (mail_db s).
Proof.
  revert s. apply reachable_invariant.
  - split; [apply ewf_empty|]. assert (mail_db empty_store = empty_mailbox) as -> by (by vm_compute). constructor.
  - intros op s s' [W M] Hst%estep_ok. split; [by eapply ewf_step|].
    destruct (so_mail _ _ Hst) as [ls Hls]. by eapply reachable_steps.
Qed.

Lemma esteps_rows s ops s' :
  steps estep s ops s' → ∀ k e, messages s !! k = Some e → ∃ e', messages s' !! k = Some e' ∧ message_le e e'.
Proof.
  induction 1 as [s|s op s1 ops s2 Hst _ IH]; intros k e He; [by exists e|].
  destruct (eeffect_rows _ _ (so_effect _ _ (estep_ok _ _ _ Hst)) _ _ He) as (e1 & He1 & H1).
  destruct (IH _ _ He1) as (e2 & He2 & H2). exists e2. split; [done|by etrans].
Qed.
