(* ===== verification/EnvelopeSpec.v ===== *)
(** * What the envelope ledger promises

    The mailbox inside the ledger behaves as the mailbox alone, and holds every
    stored message; a message is sent once; its route never changes and its
    delivery only advances. *)
From S2P Require Import Prelude PyValues Mailbox MailboxReads Exchanges Envelopes EnvelopeSteps.

Open Scope string_scope.
Open Scope Z_scope.
Open Scope list_scope.

(** A stored message is a row of the mailbox that a read in scope returns,
    unless it was excluded. *)
Lemma stored_valid s k e m :
  stored_ok s k e → c_status e = EStored → mails (box s) !! k = Some m → m_excluded_at m = None →
  valid (Joined m (envelope_of e)) = true.
Proof.
  intros (Hmode & Hk & Ha & m' & Hm' & H1 & H2 & H3) Hs Hm Hx. rewrite Hm in Hm'. injection Hm' as <-.
  unfold valid. cbn [j_mail j_env]. rewrite bool_decide_true by done.
  unfold envelope_of. cbn [e_status e_mode e_kind e_auth_kind e_source e_target e_pair].
  by rewrite Hs, Hmode, Hk, Ha, H1, H2, H3, !String.eqb_refl.
Qed.

(** C36: the ledger and the mailbox agree: the tables the mailbox works
    on are always those of a run of the mailbox alone, so its guarantees hold
    in the ledger; and a message accepted for the mailbox is in it, in the
    scope of its recipient and sender, unless it was excluded since. *)
Theorem stored_mail_is_served s k e pairs :
  ereachable s → messages s !! k = Some e → c_status e = EStored → c_pair e ∈ pairs →
  mreachable (mail_db s)
  ∧ ∃ m, join_table (mail_db s) !! k = Some (Joined m (envelope_of e))
    ∧ (m_excluded_at m = None →
       in_scope (c_target e) (Some (c_source e)) pairs (Joined m (envelope_of e)) = true).
Proof.
  intros Hr He Hs Hp. destruct (ereachable_ok _ Hr) as [W M]. split; [done|].
  pose proof (ew_stored _ W _ _ He Hs) as Hok. pose proof Hok as (_ & _ & _ & m & Hm & H1 & H2 & H3).
  exists m. split.
  - apply join_lookup. split; [done|]. cbn. by rewrite lookup_fmap, He.
  - intros Hx. unfold in_scope. rewrite (stored_valid s k) by done. cbn [j_mail].
    rewrite H1, H2, H3, !String.eqb_refl, orb_true_r, andb_true_r. cbn [andb].
    unfold str_in. apply existsb_exists. exists (c_pair e). split; [by apply list_elem_of_In|apply String.eqb_refl].
Qed.

(** an envelope only advances: whatever the ledger does, a message
    keeps its route, its idempotency key and what its user said; its text and
    its sender's run are fixed once its source has finished; and delivered,
    failed and cancelled are final. *)
Theorem envelope_advances s ops s' k e :
  steps estep s ops s' → messages s !! k = Some e → ∃ e', messages s' !! k = Some e' ∧ message_le e e'.
Proof. intros Hs He. by eapply esteps_rows. Qed.

(** ** Sending once *)

Lemma sent_by_there s run key k e :
  ewf s → messages s !! k = Some e → c_source_run e = run → c_key e = key → sent_by run key s = Some e.
Proof.
  intros W He Hr Hk. destruct (sent_by run key s) as [e'|] eqn:E; [|by destruct (sent_by_None _ _ _ _ _ E He Hr Hk)].
  apply select_one_Some in E as ([H1%String.eqb_eq H2%String.eqb_eq]%andb_true_iff & k' & He').
  assert (k = k') as <- by (eapply (ew_unique _ W); [done|done|congruence|congruence]). congruence.
Qed.

(** What a send that creates its message leaves. *)
Lemma instruction_created now q s s1 e :
  (ir_status q = EStored ∨ ir_reply_to q = None) →
  create_instruction now q s = Ok (s1, (e, true)) →
  messages s1 !! ir_id q = Some e ∧ c_source_run e = ir_run q ∧ c_key e = ir_key q
  ∧ c_status e ≠ EWaitingSource ∧ instruction_matches q e = true.
Proof.
  intros Hreply. unfold create_instruction. intros H. apply res_bind_Ok in H as ([] & Hc & H).
  destruct (sent_by _ _ _) as [e0|]; [inv_res; done|]. inv_res.
  destruct (messages x0 !! ir_id q) as [r|] eqn:Hr; [|done]. injection H as <- <-. split; [done|].
  assert (r = instruction_row now q) as ->.
  { destruct (bool_decide (ir_status q = EStored)); inv_res.
    - match goal with H : store_in_mailbox _ _ _ _ = _ |- _ =>
        destruct (store_in_mailbox_inv _ _ _ _ _ H) as (Em & _) end.
      rewrite Em in Hr. cbn [messages] in Hr.
      change (<[ir_id q := instruction_row now q]> (messages s) !! ir_id q = Some r) in Hr.
      rewrite lookup_insert_eq in Hr. congruence.
    - change (<[ir_id q := instruction_row now q]> (messages s) !! ir_id q = Some r) in Hr.
      rewrite lookup_insert_eq in Hr. congruence. }
  unfold instruction_checks in Hc. do 6 (apply res_bind_Ok in Hc as (? & ? & Hc)).
  repeat match goal with H : raise_if _ _ = Ok _ |- _ => apply raise_if_Ok in H end.
  unfold instruction_matches, instruction_row.
  destruct (bool_decide (ir_status q = EStored)) eqn:Hst.
  - apply bool_decide_eq_true in Hst. cbn. rewrite Hst, !String.eqb_refl, !bool_decide_true by done. done.
  - apply bool_decide_eq_false in Hst. destruct Hreply as [|Hreply]; [done|]. cbn.
    assert (ir_status q ≠ EWaitingSource) as Hw.
    { intros Hw. rewrite Hw in *. done. }
    assert (ir_delegation q = "") as Hd.
    { apply andb_false_iff in Hc as [Hc|Hc]; [by apply negb_false_iff, String.eqb_eq in Hc|].
      rewrite orb_true_r in Hc. done. }
    rewrite Hreply, Hd, !String.eqb_refl, !bool_decide_true by done. done.
Qed.

Lemma instruction_matches_le q e e' :
  message_le e e' → c_status e ≠ EWaitingSource → instruction_matches q e' = instruction_matches q e.
Proof.
  intros [[= _ H1 _ H2 H3 H4 H5 _] [= H6 H7 H8 _] B _ _ _ _] Hw. destruct (B Hw) as [H9 _].
  unfold instruction_matches. by rewrite H1, H2, H3, H4, H5, H6, H7, H8, H9.
Qed.

(** C37: a message is sent once: after a send, whatever the ledger does,
    another send of the same run under the same key makes no second message: it
    returns the one there is when it says the same, and is refused otherwise. *)
Theorem message_sent_once s now q s1 e ops s2 :
  ereachable s → (ir_status q = EStored ∨ ir_reply_to q = None) →
  create_instruction now q s = Ok (s1, (e, true)) → steps estep s1 ops s2 →
  ∃ e2, messages s2 !! ir_id q = Some e2 ∧ instruction_matches q e2 = true ∧ c_body e2 = c_body e
  ∧ ∀ now' q', instruction_checks q' = Ok tt → ir_run q' = ir_run q → ir_key q' = ir_key q →
      create_instruction now' q' s2 =
      if instruction_matches q' e2 then Ok (s2, (e2, false)) else Err different_handoff.
Proof.
  intros Hr Hreply Hc Hs. destruct (instruction_created _ _ _ _ _ Hreply Hc) as (He & Hrun & Hkey & Hw & Hm).
  assert (estep (EInstruction now q) s s1) as Hst by (split; [done|]; cbn; by rewrite Hc).
  assert (ereachable s2) as Hr2 by (eapply reachable_steps; [by eapply reachable_step|done]).
  destruct (ereachable_ok _ Hr2) as [W2 _].
  destruct (esteps_rows _ _ _ Hs _ _ He) as (e2 & He2 & Hle). exists e2.
  pose proof Hle as [[= _ _ _ _ _ _ _ Hk2] _ B _ _ _ _]. destruct (B Hw) as [Hb Hrun2].
  split; [done|]. split; [by rewrite (instruction_matches_le _ _ _ Hle Hw)|]. split; [done|].
  intros now' q' Hq Eq Ek. unfold create_instruction. rewrite Hq. cbn [mbind res_bind].
  rewrite (sent_by_there _ _ _ _ _ W2 He2) by congruence.
  by destruct (instruction_matches q' e2).
Qed.

(** ** A small ledger

    Alice leaves a message in Bob's mailbox, which Bob's run reads; a second
    message is delivered as a turn. *)
Definition mail_request : instruction_request := {|
  ir_id := "m1"; ir_source := "alice"; ir_run := "run1"; ir_target := "bob"; ir_body := "hello";
  ir_key := "key1"; ir_instruction := "say hello"; ir_delegation := ""; ir_auth_kind := "configured_route";
  ir_route := Some "route_0123456789abcdef0123456789abcdef";
  ir_pair := "pair_0123456789abcdef0123456789abcdef"; ir_status := EStored; ir_reply_to := None |}.

Definition turn_request : instruction_request :=
  mail_request {{ ir_id := "m2"; ir_key := "key2"; ir_status := EReady }}.

Definition no_change : message_patch := MessagePatch None None None None None None None None.

Definition deliver : list eop := [
  EMail (OpRead "t2" "f1" "bob" "alice" "run2" "req" ["pair_0123456789abcdef0123456789abcdef"] 0 1);
  EInstruction "t3" turn_request;
  EUpdate "t4" "m2" [EReady] (no_change {{ mp_status := Some ESubmitting }});
  EUpdate "t5" "m2" [ESubmitting] (no_change {{ mp_status := Some ERunning; mp_target_run := Some (Some "run3") }});
  EUpdate "t6" "m2" [ERunning; EQueued; ESubmitting] (no_change {{ mp_status := Some EDelivered }})].

Fixpoint erun (ops : list eop) (s : store) : res store :=
  match ops with
  | [] => Ok s
  | op :: ops => s ← eapply_op op s; erun ops s
  end.

Lemma erun_steps ops s s' : Forall eop_used ops → erun ops s = Ok s' → steps estep s ops s'.
Proof.
  intros Hu. revert s. induction Hu as [|op ops Hop _ IH]; intros s E; cbn in E; inv_res; [constructor|].
  econstructor; [by split|by apply IH].
Qed.

Definition result_store (r : res store) : store := match r with Ok s => s | Err _ => empty_store end.
Definition mailed : store := Eval vm_compute in result_store (erun [EInstruction "t1" mail_request] empty_store).
Definition all_sent : store := Eval vm_compute in result_store (erun deliver mailed).

Lemma deliver_used : Forall eop_used deliver.
Proof.
  assert (∀ (l : list estatus) st p, l ⊆ E_ACTIVE → l ≠ [] → mp_status p = Some st →
    st ∈ [EReady; ESubmitting; EQueued; ERunning] ++ E_TERMINAL → mp_body p = None → message_patch_used l p) as Hu.
  { intros l st p Hl Hn Hp Hst Hb. left. split_and!; [done..|congruence|by rewrite Hb]. }
  do 2 (apply Forall_cons; split; [done|]). unfold E_ACTIVE, E_TERMINAL in Hu.
  do 3 (apply Forall_cons; split; [eapply Hu; [set_solver|done|done|set_solver|done]|]). done.
Qed.

Lemma mailed_reachable : ereachable mailed.
Proof. apply (reachable_step _ _ (EInstruction "t1" mail_request) empty_store); [constructor|]. by split; [|vm_compute]. Qed.

Lemma deliver_steps : steps estep mailed deliver all_sent.
Proof. apply erun_steps; [apply deliver_used|by vm_compute]. Qed.

Lemma all_sent_reachable : ereachable all_sent.
Proof. eapply reachable_steps; [exact mailed_reachable|exact deliver_steps]. Qed.

Lemma stored_mail_is_served_witness :
  ∃ e m, messages all_sent !! "m1" = Some e ∧ c_status e = EStored
    ∧ join_table (mail_db all_sent) !! "m1" = Some (Joined m (envelope_of e)).
Proof.
  destruct (messages all_sent !! "m1") as [e|] eqn:He; [|by vm_compute in He].
  assert (c_status e = EStored ∧ c_pair e = "pair_0123456789abcdef0123456789abcdef") as [Hs Hp]
    by (vm_compute in He; by injection He as <-).
  destruct (stored_mail_is_served all_sent "m1" e [c_pair e] all_sent_reachable He Hs) as (_ & m & Hm & _); [left|].
  by exists e, m.
Defined.

Lemma envelope_advances_witness :
  ∃ e e', messages mailed !! "m1" = Some e ∧ messages all_sent !! "m1" = Some e' ∧ message_le e e'.
Proof.
  destruct (messages mailed !! "m1") as [e|] eqn:He; [|by vm_compute in He].
  destruct (envelope_advances mailed deliver all_sent "m1" e deliver_steps He) as (e' & He' & Hle).
  by exists e, e'.
Defined.

Definition send_result : res (store * (message_row * bool)) := Eval vm_compute in
  create_instruction "t1" mail_request empty_store.

Lemma send_result_eq : create_instruction "t1" mail_request empty_store = send_result.
Proof. by vm_compute. Qed.

Lemma message_sent_once_witness :
  ∃ e2, create_instruction "t9" (mail_request {{ ir_id := "m9" }}) all_sent = Ok (all_sent, (e2, false))
    ∧ create_instruction "t9" (mail_request {{ ir_id := "m9"; ir_body := "bye" }}) all_sent = Err different_handoff.
Proof.
  destruct (message_sent_once _ _ _ _ _ _ _ (reachable_init empty_store estep) (or_introl (eq_refl : ir_status mail_request = EStored)) send_result_eq deliver_steps)
    as (e2 & _ & Hm & Hb & H).
  exists e2. split.
  - rewrite H by (by vm_compute). change (instruction_matches (mail_request {{ ir_id := "m9" }}) e2) with (instruction_matches mail_request e2).
    by rewrite Hm.
  - rewrite H by (by vm_compute). unfold instruction_matches. rewrite Hb. cbn -[String.eqb]. by rewrite !andb_false_r.
Defined.
