(* ===== verification/Delivery.v ===== *)
(** * One delivery, two ledgers

    [agent_server.py]: a delivery to a chat is a leg of an exchange or an
    envelope.  The queue and the launch of a run handle both through
    [get_cross_chat_delivery_record] and [update_cross_chat_delivery_record],
    an interface that both ledgers implement: compare-and-set on the status of
    one row.  What the queue and the launch need is proved against the
    interface, once. *)
From S2P Require Import Prelude PyValues Mailbox Exchanges ExchangeWf ExchangeSteps ExchangeSpec.
From S2P Require Import Envelopes EnvelopeSteps EnvelopeSpec.

Open Scope string_scope.
Open Scope Z_scope.
Open Scope list_scope.

(** ** The interface *)

(** The statuses the callers of the interface name. *)
Inductive dstatus := DSubmitting | DQueued | DRunning | DFailed.
Definition dstatus_text (st : dstatus) : string :=
  match st with DSubmitting => "submitting" | DQueued => "queued" | DRunning => "running" | DFailed => "failed" end.

(** The [changes] they pass; the status is always one of them. *)
Record dpatch := DPatch {
  dp_status : dstatus;
  dp_queued : option (option string);
  dp_position : option (option Z);
  dp_target_run : option (option string);
  dp_error_code : option string;
  dp_error : option string;
}.

(** The records of a ledger with state [S], named by [I]. *)
Class DeliveryRecords (I R S : Type) := {
  get_record : I → S → option R;
  update_record : string → I → list dstatus → dpatch → S → S * option R;
  record_status : R → string;
  record_queued : R → option string;
  record_run : R → option string;
  ledger_inv : S → Prop;
  ledger_moves : S → S → Prop;
}.

(** The status a record cannot leave. *)
Definition ended_text (s : string) : bool := str_in s ["delivered"; "failed"; "cancelled"; "expired"].

(** What a ledger promises: an update is a compare-and-set of one record and
    one move of the ledger; a record that has ended keeps its status. *)
Class DeliveryLaws (I R S : Type) `{!DeliveryRecords I R S} : Prop := {
  update_hits now id expected p s r :
    get_record id s = Some r → str_in (record_status r) (map dstatus_text expected) = true →
    ∃ s' r', update_record now id expected p s = (s', Some r') ∧ get_record id s' = Some r'
      ∧ record_status r' = dstatus_text (dp_status p)
      ∧ (∀ q, dp_queued p = Some q → record_queued r' = q)
      ∧ (∀ q, dp_target_run p = Some q → record_run r' = q);
  update_misses now id expected p s :
    expected ≠ [] →
    (∀ r, get_record id s = Some r → str_in (record_status r) (map dstatus_text expected) = false) →
    update_record now id expected p s = (s, None);
  move_keeps s s' : ledger_inv s → ledger_moves s s' → ledger_inv s';
  update_moves now id expected p s :
    expected ≠ [] → DFailed ∉ expected → ledger_moves s (update_record now id expected p s).1;
  ended_stays id s s' r : ledger_inv s → ledger_moves s s' →
    get_record id s = Some r → ended_text (record_status r) = true →
    ∃ r', get_record id s' = Some r' ∧ record_status r' = record_status r;
}.

(** ** The queue and the launch *)

Section clients.
Context {I R S : Type} `{!DeliveryRecords I R S}.

(** [enqueue_turn]: the queue row becomes the owner. *)
Definition bind_queue_owner (now : string) (id : I) (queued : string) (position : Z) (s : S) : S * option R :=
  update_record now id [DSubmitting]
    (DPatch DQueued (Some (Some queued)) (Some (Some position)) (Some None) None None) s.

(** [enqueue_turn], when the row could not be queued after all. *)
Definition release_queue_owner (now : string) (id : I) (s : S) : S * option R :=
  update_record now id [DQueued] (DPatch DSubmitting (Some None) (Some None) (Some None) None None) s.

(** [admit_cross_chat_delivery_run]; [live] is what
    [provider_cross_chat_delivery_pair_is_live] answered. *)
Definition admit_delivery_run (now : string) (live : R → bool) (id : I) (queued : option string) (run : string)
    (s : S) : S * option R :=
  match get_record id s with
  | None => (s, None)
  | Some r =>
      if negb (live r) then (s, None)
      else update_record now id [if queued then DQueued else DSubmitting]
             (DPatch DRunning (Some queued) (Some None) (Some (Some run)) None None) s
  end.

Context `{!DeliveryLaws I R S}.

Inductive moves : S → S → Prop :=
| moves_refl s : moves s s
| moves_step s s' s'' : ledger_moves s s' → moves s' s'' → moves s s''.

Lemma ended_stays_moves id s s' r :
  ledger_inv s → moves s s' → get_record id s = Some r → ended_text (record_status r) = true →
  ∃ r', get_record id s' = Some r' ∧ record_status r' = record_status r.
Proof.
  intros Hi Hm. revert r. induction Hm as [s|s s1 s2 Hst _ IH]; intros r Hr He; [by exists r|].
  destruct (ended_stays id s s1 r Hi Hst Hr He) as (r1 & Hr1 & E1).
  destruct (IH (move_keeps _ _ Hi Hst) r1 Hr1) as (r2 & Hr2 & E2); [by rewrite E1|].
  exists r2. split; [done|congruence].
Qed.

(** An update that does not expect the status of the record does nothing. *)
Lemma update_wrong_status now id expected p s r :
  expected ≠ [] → get_record id s = Some r →
  str_in (record_status r) (map dstatus_text expected) = false → update_record now id expected p s = (s, None).
Proof. intros Hne Hr Hst. apply update_misses; [done|]. intros r' Hr'. congruence. Qed.

Lemma ended_not_expected st l :
  ended_text st = true → DFailed ∉ l → str_in st (map dstatus_text l) = false.
Proof.
  intros He Hl. destruct (str_in st _) eqn:E; [|done]. exfalso.
  apply existsb_exists in E as (t & Ht & <-%String.eqb_eq). apply in_map_iff in Ht as (d & <- & Hd%list_elem_of_In).
  by destruct d.
Qed.

Lemma admit_misses now live id (queued : option string) run s r :
  get_record id s = Some r →
  str_in (record_status r) (map dstatus_text [if queued then DQueued else DSubmitting]) = false →
  admit_delivery_run now live id queued run s = (s, None).
Proof.
  intros Hr Hst. unfold admit_delivery_run. rewrite Hr. destruct (negb (live r)); [done|].
  by eapply update_wrong_status.
Qed.

(** Whoever still tries to move the delivery loses. *)
Definition settled (id : I) (s : S) : Prop := ∀ now,
  (∀ live queued run, admit_delivery_run now live id queued run s = (s, None))
  ∧ (∀ queued position, bind_queue_owner now id queued position s = (s, None))
  ∧ release_queue_owner now id s = (s, None).

Lemma not_waiting_settled id s r :
  get_record id s = Some r → str_in (record_status r) ["submitting"; "queued"] = false → settled id s.
Proof.
  intros Hr Hst now. cbn [str_in existsb] in Hst. apply orb_false_iff in Hst as [H1 [H2 _]%orb_false_iff].
  split; [|split].
  - intros live queued run. eapply admit_misses; [done|]. destruct queued; cbn; by rewrite ?H1, ?H2.
  - intros queued position. eapply update_wrong_status; [done|done|]. cbn. by rewrite H1.
  - eapply update_wrong_status; [done|done|]. cbn. by rewrite H2.
Qed.

(** C38: a delivery is launched at most once per claim, and never after
    it ended: when a run is admitted the record names that run, and any other
    admission, queue binding or release of it fails and changes nothing; once
    the delivery has ended this holds for ever, whatever the ledgers do. *)
Theorem delivery_launch_exclusive now live id (queued : option string) run s s1 r1 :
  ledger_inv s → admit_delivery_run now live id queued run s = (s1, Some r1) →
  (get_record id s1 = Some r1 ∧ record_status r1 = "running" ∧ record_run r1 = Some run ∧ record_queued r1 = queued)
  ∧ settled id s1
  ∧ ∀ s2 s3 r2, moves s1 s2 → get_record id s2 = Some r2 → ended_text (record_status r2) = true →
      moves s2 s3 → settled id s3.
Proof.
  intros Hi Ha. assert (ledger_moves s s1 ∧ get_record id s1 = Some r1 ∧ record_status r1 = "running"
    ∧ record_run r1 = Some run ∧ record_queued r1 = queued) as (Hm & Hr & Hst & Hrun & Hq).
  { unfold admit_delivery_run in Ha. destruct (get_record id s) as [r|] eqn:Hr; [|done].
    destruct (negb (live r)); [done|].
    set (p := DPatch DRunning (Some queued) (Some None) (Some (Some run)) None None) in *.
    set (exp := [if queued then DQueued else DSubmitting]) in *.
    pose proof (update_moves now id exp p s) as Hm. rewrite Ha in Hm.
    split; [apply Hm; subst exp; destruct queued; first [done|set_solver]|].
    destruct (str_in (record_status r) (map dstatus_text exp)) eqn:E.
    - destruct (update_hits now id exp p s r Hr E) as (s' & r' & E' & Hr' & Hst & Hq & Hrun).
      rewrite Ha in E'. injection E' as <- <-. split_and!; [done|done|by apply Hrun|by apply Hq].
    - rewrite (update_wrong_status now id exp p s r) in Ha by (by destruct queued). done. }
  split; [done|]. split; [eapply not_waiting_settled; [done|by rewrite Hst]|].
  intros s2 s3 r2 H12 Hr2 He H23.
  assert (ledger_inv s1) as Hi1 by (by eapply move_keeps).
  assert (ledger_inv s2) as Hi2 by (clear -Hi1 H12 DeliveryLaws0; induction H12; [done|]; apply IHmoves; by eapply move_keeps).
  destruct (ended_stays_moves _ _ _ _ Hi2 H23 Hr2 He) as (r3 & Hr3 & E3).
  eapply not_waiting_settled; [done|]. rewrite E3.
  change ["submitting"; "queued"] with (map dstatus_text [DSubmitting; DQueued]).
  apply ended_not_expected; [done|set_solver].
Qed.
End clients.

(** ** The exchange ledger *)

Definition leg_status (st : dstatus) : lstatus :=
  match st with DSubmitting => LSubmitting | DQueued => LQueued | DRunning => LRunning | DFailed => LFailed end.

Definition leg_changes (p : dpatch) : leg_patch := {|
  lp_status := Some (leg_status (dp_status p)); lp_queued := dp_queued p; lp_position := dp_position p;
  lp_target_run := dp_target_run p; lp_response := None; lp_lifecycle := None;
  lp_error_code := Some <$> dp_error_code p; lp_error := Some <$> dp_error p |}.

#[global] Instance leg_records (sha256 : string → string) : DeliveryRecords string leg xdb := {|
  get_record := get_exchange_leg;
  update_record now id expected p s := update_exchange_leg now id (map leg_status expected) (leg_changes p) s;
  record_status l := lstatus_text (l_status l);
  record_queued := l_queued;
  record_run := l_target_run;
  ledger_inv := xwf;
  ledger_moves s s' := ∃ op, xstep sha256 op s s';
|}.

Lemma leg_status_expected l expected :
  str_in (lstatus_text (l_status l)) (map dstatus_text expected) = is_l (map leg_status expected) l.
Proof.
  unfold is_l. induction expected as [|st expected IH]; [done|]. cbn [map str_in existsb].
  rewrite bool_decide_cons, <-IH. f_equal. by destruct (l_status l), st.
Qed.

Lemma ended_leg l : ended_text (lstatus_text (l_status l)) = is_l L_TERMINAL l.
Proof. unfold is_l. by destruct (l_status l). Qed.

#[global] Instance leg_laws sha256 : DeliveryLaws (DeliveryRecords0 := leg_records sha256) string leg xdb.
Proof.
  split; cbn [get_record update_record record_status record_queued record_run ledger_inv ledger_moves leg_records].
  - intros now id expected p s l Hl Hst. rewrite leg_status_expected in Hst.
    unfold get_exchange_leg in *. unfold update_exchange_leg. cbn [leg_patch_empty leg_changes].
    unfold row_matches. rewrite Hl, Hst, orb_true_r.
    rewrite (set_leg_lookup _ _ _ _ l) by (done || by rewrite Hst, orb_true_r). cbn [legs]. rewrite lookup_insert_eq.
    do 2 eexists. split; [reflexivity|]. cbn [legs]. rewrite lookup_insert_eq. split; [reflexivity|].
    cbn. split; [by destruct (dp_status p)|].
    split; by intros q ->.
  - intros now id expected p s Hne Hst. unfold update_exchange_leg. cbn [leg_patch_empty leg_changes].
    unfold row_matches, get_exchange_leg in *. destruct (legs s !! id) as [l|] eqn:Hl; [|done].
    specialize (Hst l eq_refl). rewrite leg_status_expected in Hst. rewrite Hst.
    by rewrite bool_decide_false by (by destruct expected).
  - intros s s' W [op Hop]. eapply xwf_effect; [done|by eapply step_effect].
  - intros now id expected p s Hne Hf. exists (XUpdateLeg now id (map leg_status expected) (leg_changes p)).
    split; [|done]. left. split; [|split; [by destruct expected|]].
    + intros st (d & -> & Hd)%list_elem_of_fmap. unfold L_PENDING. destruct d; [set_solver..|done].
    + split; [left|cbn; by destruct (dp_status p)].
  - intros id s s' l W [op Hop] Hl He. rewrite ended_leg in He.
    pose proof (xeffect_grow _ _ (step_effect _ _ _ _ W Hop)) as [Gl _].
    destruct (Gl _ _ Hl) as (l' & Hl' & [_ _ _ _ T]). exists l'. split; [done|].
    by destruct (T He) as [-> _].
Qed.

(** ** The envelope ledger *)

Definition message_status (st : dstatus) : estatus :=
  match st with DSubmitting => ESubmitting | DQueued => EQueued | DRunning => ERunning | DFailed => EFailed end.

(** [error_code] is not a column of this table, and [update] drops it. *)
Definition message_changes (p : dpatch) : message_patch := {|
  mp_body := None; mp_status := Some (message_status (dp_status p)); mp_queued := dp_queued p;
  mp_position := dp_position p; mp_target_run := dp_target_run p; mp_result_hash := None;
  mp_error := Some <$> dp_error p; mp_lifecycle := None |}.

#[global] Instance message_records : DeliveryRecords string message_row store := {|
  get_record := get_message;
  update_record now id expected p s := update_message now id (map message_status expected) (message_changes p) s;
  record_status e := estatus_text (c_status e);
  record_queued := c_queued;
  record_run := c_target_run;
  ledger_inv _ := True;
  ledger_moves s s' := ∃ op, estep op s s';
|}.

Lemma message_status_expected e expected :
  str_in (estatus_text (c_status e)) (map dstatus_text expected) = is_e (map message_status expected) e.
Proof.
  unfold is_e. induction expected as [|st expected IH]; [done|]. cbn [map str_in existsb].
  rewrite bool_decide_cons, <-IH. f_equal. by destruct (c_status e), st.
Qed.

Lemma ended_message e : ended_text (estatus_text (c_status e)) = is_e E_TERMINAL e.
Proof. unfold is_e. by destruct (c_status e). Qed.

Lemma set_message_lookup id P f (s : store) e :
  messages s !! id = Some e → P e = true → set_message id P f s = Store (<[id := f e]> (messages s)) (box s).
Proof. intros He HP. unfold set_message, update_row. by rewrite He, HP. Qed.

#[global] Instance message_laws : DeliveryLaws string message_row store.
Proof.
  split; cbn [get_record update_record record_status record_queued record_run ledger_inv ledger_moves message_records].
  - intros now id expected p s e He Hst. rewrite message_status_expected in Hst.
    unfold get_message in *. unfold update_message. cbn [message_patch_empty message_changes].
    unfold row_matches. rewrite He, Hst, orb_true_r.
    rewrite (set_message_lookup _ _ _ _ e) by (done || by rewrite Hst, orb_true_r).
    cbn [messages]. rewrite lookup_insert_eq.
    do 2 eexists. split; [reflexivity|]. cbn [messages]. rewrite lookup_insert_eq. split; [reflexivity|]. cbn. split; [by destruct (dp_status p)|]. split; by intros q ->.
  - intros now id expected p s Hne Hst. unfold update_message. cbn [message_patch_empty message_changes].
    unfold row_matches, get_message in *. destruct (messages s !! id) as [e|] eqn:He; [|done].
    specialize (Hst e eq_refl). rewrite message_status_expected in Hst. rewrite Hst.
    by rewrite bool_decide_false by (by destruct expected).
  - done.
  - intros now id expected p s Hne Hf. exists (EUpdate now id (map message_status expected) (message_changes p)).
    split; [|done]. left. split; [|split; [by destruct expected|split]].
    + intros st (d & -> & Hd)%list_elem_of_fmap. unfold E_ACTIVE. destruct d; [set_solver..|done].
    + intros st [= <-]. unfold E_TERMINAL. destruct (dp_status p); set_solver.
    + done.
  - intros id s s' e _ [op Hop] He Hc. rewrite ended_message in Hc.
    destruct (eeffect_rows _ _ (so_effect _ _ (estep_ok _ _ _ Hop)) _ _ He) as (e' & He' & [_ _ _ _ _ C _]).
    exists e'. split; [done|]. by rewrite (C Hc).
Qed.

(** ** Both ledgers

    The two tables are in one database; a method moves one of them. *)
Section both.
Context {I1 R1 S1 I2 R2 S2 : Type} `{A : !DeliveryRecords I1 R1 S1} `{B : !DeliveryRecords I2 R2 S2}.

#[global] Instance both_records : DeliveryRecords (I1 + I2) (R1 + R2) (S1 * S2) := {|
  get_record id s := match id with inl i => inl <$> get_record i s.1 | inr i => inr <$> get_record i s.2 end;
  update_record now id expected p s :=
    match id with
    | inl i => let '(s1, r) := update_record now i expected p s.1 in ((s1, s.2), inl <$> r)
    | inr i => let '(s2, r) := update_record now i expected p s.2 in ((s.1, s2), inr <$> r)
    end;
  record_status r := match r with inl r => record_status r | inr r => record_status r end;
  record_queued r := match r with inl r => record_queued r | inr r => record_queued r end;
  record_run r := match r with inl r => record_run r | inr r => record_run r end;
  ledger_inv s := ledger_inv s.1 ∧ ledger_inv s.2;
  ledger_moves s s' := ledger_moves s.1 s'.1 ∧ s'.2 = s.2 ∨ s'.1 = s.1 ∧ ledger_moves s.2 s'.2;
|}.

Context `{!DeliveryLaws I1 R1 S1} `{!DeliveryLaws I2 R2 S2}.

#[global] Instance both_laws : DeliveryLaws (I1 + I2) (R1 + R2) (S1 * S2).
Proof.
  split; cbn [get_record update_record record_status record_queued record_run ledger_inv ledger_moves both_records].
  - intros now [i|i] expected p [s1 s2] r Hr Hst; cbn [fst snd] in *.
    + apply fmap_Some in Hr as (r1 & Hr & ->).
      destruct (update_hits now i expected p s1 r1 Hr Hst) as (s' & r' & E & Hr' & H).
      exists (s', s2), (inl r'). rewrite E. cbn. by rewrite Hr'.
    + apply fmap_Some in Hr as (r1 & Hr & ->).
      destruct (update_hits now i expected p s2 r1 Hr Hst) as (s' & r' & E & Hr' & H).
      exists (s1, s'), (inr r'). rewrite E. cbn. by rewrite Hr'.
  - intros now [i|i] expected p [s1 s2] Hne Hst; cbn [fst snd] in *.
    + rewrite update_misses; [done|done|]. intros r Hr. apply (Hst (inl r)). by rewrite Hr.
    + rewrite update_misses; [done|done|]. intros r Hr. apply (Hst (inr r)). by rewrite Hr.
  - intros [s1 s2] [s1' s2'] [H1 H2] [[Hm E]|[E Hm]]; cbn in *; subst; split; try (by eapply move_keeps); done.
  - intros now [i|i] expected p [s1 s2] Hne Hf; cbn [fst snd] in *.
    + pose proof (update_moves now i expected p s1 Hne Hf) as Hm.
      destruct (update_record now i expected p s1). by left.
    + pose proof (update_moves now i expected p s2 Hne Hf) as Hm.
      destruct (update_record now i expected p s2). by right.
  - intros [i|i] [s1 s2] [s1' s2'] r [H1 H2] [[Hm E]|[E Hm]] Hr He; cbn [fst snd] in *; subst;
      apply fmap_Some in Hr as (r1 & Hr & ->); try (exists (inl r1) || exists (inr r1); by rewrite Hr).
    + destruct (ended_stays i s1 s1' r1 H1 Hm Hr He) as (r' & Hr' & E'). exists (inl r'). by rewrite Hr'.
    + destruct (ended_stays i s2 s2' r1 H2 Hm Hr He) as (r' & Hr' & E'). exists (inr r'). by rewrite Hr'.
Qed.
End both.

(** A request names the leg, or else the envelope, of its delivery. *)
Definition delivery_id (envelope leg : option string) : option (string + string) :=
  match leg, envelope with
  | Some l, _ => if String.eqb l "" then
      match envelope with Some e => if String.eqb e "" then None else Some (inr e) | None => None end
      else Some (inl l)
  | None, Some e => if String.eqb e "" then None else Some (inr e)
  | None, None => None
  end.

Section server.
Variable sha256 : string → string.
#[local] Existing Instance leg_records.
Abbreviation tables := (xdb * store)%type.

#[global] Instance tables_records : DeliveryRecords (string + string) (leg + message_row) tables :=
  both_records (A := leg_records sha256) (B := message_records).

Definition get_cross_chat_delivery_record (envelope leg_id : option string) (s : tables)
    : option (leg + message_row) :=
  id ← delivery_id envelope leg_id; get_record id s.

Definition update_cross_chat_delivery_record (now : string) (envelope leg_id : option string)
    (expected : list dstatus) (p : dpatch) (s : tables) : tables * option (leg + message_row) :=
  match delivery_id envelope leg_id with
  | Some id => update_record now id expected p s
  | None => (s, None)
  end.

#[global] Instance tables_laws : DeliveryLaws (string + string) (leg + message_row) tables :=
  both_laws (DeliveryLaws0 := leg_laws sha256).
End server.

(** The second message of [EnvelopeSpec] is being submitted; a run starts it. *)
Definition submitted : xdb * store := Eval vm_compute in
  (empty_xdb, result_store (erun (firstn 3 deliver) mailed)).

Definition launched : (xdb * store) * option (leg + message_row) := Eval vm_compute in
  @admit_delivery_run _ _ _ (tables_records plain) "t5" (λ _, true) (inr "m2") None "run3" submitted.

Lemma delivery_launch_exclusive_witness :
  ∃ s1 r1, @admit_delivery_run _ _ _ (tables_records plain) "t5" (λ _, true) (inr "m2") None "run3" submitted
      = (s1, Some r1)
    ∧ @admit_delivery_run _ _ _ (tables_records plain) "t6" (λ _, true) (inr "m2") None "run4" s1 = (s1, None).
Proof.
  destruct launched as [s1 [r1|]] eqn:E; [|by vm_compute in E]. exists s1, r1.
  assert (@admit_delivery_run _ _ _ (tables_records plain) "t5" (λ _, true) (inr "m2") None "run3" submitted
    = (s1, Some r1)) as Ha by (rewrite <-E; by vm_compute).
  split; [exact Ha|].
  destruct (delivery_launch_exclusive (DeliveryLaws0 := tables_laws plain) "t5" (λ _, true) (inr "m2") None "run3" submitted s1 r1)
    as (_ & Hs & _); [split; [apply xwf_empty|done]|exact Ha|].
  apply Hs.
Defined.
