(* ===== verification/Activation.v ===== *)
(** * The journal of a release activation: data

    [activation_transaction.py] installs a release.  It keeps one manifest from
    the last moment before links and configuration are touched until the new
    release is healthy or the old one is back; a later installer recovers from
    the manifest.  This file has the phases, the manifest, its JSON text and
    the checks of [_read_manifest]. *)
From S2P Require Import Prelude PyValues Json FileSystem.

Open Scope string_scope.

(** ** Phases *)

Inductive phase :=
| Prepared | Guarded | Linking | Linked | Stopping | Stopped | Fencing | Fenced
| Authorizing | Authority | CandidateStarting | CandidateHealthy
| Committing | Committed | RollingBack | RolledBack | RollbackHealthy.
#[global] Instance phase_eq_dec : EqDecision phase.
Proof. solve_decision. Defined.

Definition PHASES : list (phase * string) :=
  [(Prepared, "prepared"); (Guarded, "guarded"); (Linking, "linking"); (Linked, "linked");
   (Stopping, "stopping"); (Stopped, "stopped"); (Fencing, "fencing"); (Fenced, "fenced");
   (Authorizing, "authorizing"); (Authority, "authority");
   (CandidateStarting, "candidate-starting"); (CandidateHealthy, "candidate-healthy");
   (Committing, "committing"); (Committed, "committed"); (RollingBack, "rolling-back");
   (RolledBack, "rolled-back"); (RollbackHealthy, "rollback-healthy")].

Definition phase_name (p : phase) : string :=
  match find (λ x, bool_decide (x.1 = p)) PHASES with Some x => x.2 | None => "" end.
Definition phase_of (s : string) : option phase :=
  fst <$> find (λ x, String.eqb x.2 s) PHASES.

Definition TRANSITIONS (p : phase) : list phase :=
  match p with
  | Prepared => [Guarded; Linking; RollingBack]
  | Guarded => [Linking; RollingBack]
  | Linking => [Linked; RollingBack]
  | Linked => [Stopping; CandidateStarting; RollingBack]
  | Stopping => [Stopped; RollingBack]
  | Stopped => [Fencing; Fenced; Authorizing; RollingBack]
  | Fencing => [Fenced; RollingBack]
  | Fenced => [Authorizing; RollingBack]
  | Authorizing => [Authority; RollingBack]
  | Authority => [CandidateStarting; RollingBack]
  | CandidateStarting => [CandidateHealthy; RollingBack]
  | CandidateHealthy => [Committing; RollingBack]
  | Committing => [Committed]
  | Committed => []
  | RollingBack => [RolledBack]
  | RolledBack => [RollbackHealthy]
  | RollbackHealthy => []
  end.

Definition in_phases (p : phase) (l : list phase) : bool := bool_decide (p ∈ l).

(** ** The manifest *)

Record release := mkRelease {
  source : string;
  target : string;
  r_device : Z;
  r_inode : Z;
  version_sha256 : string;
}.
#[global] Instance release_eq_dec : EqDecision release.
Proof. solve_decision. Defined.

Inductive link_kind := Missing | Symlink | Directory.
#[global] Instance link_kind_eq_dec : EqDecision link_kind.
Proof. solve_decision. Defined.

Record link_state := mkLink { kind : link_kind; link_target : string }.
#[global] Instance link_state_eq_dec : EqDecision link_state.
Proof. solve_decision. Defined.

Definition kind_name (k : link_kind) : string :=
  match k with Missing => "missing" | Symlink => "symlink" | Directory => "directory" end.
Definition kind_of (s : string) : link_kind :=
  if String.eqb s "symlink" then Symlink else if String.eqb s "directory" then Directory else Missing.

(** A configuration file as it was: [saved] is the digest and the mode of the
    backup, if the file existed. *)
Record backup := mkBackup { backup_name : string; saved : option (string * Z) }.
#[global] Instance backup_eq_dec : EqDecision backup.
Proof. solve_decision. Defined.

(** A configuration file as it is to be. *)
Record desired := mkDesired {
  d_sha256 : string;
  d_mode : Z;
  d_source : string;
  d_device : Z;
  d_inode : Z;
}.
#[global] Instance desired_eq_dec : EqDecision desired.
Proof. solve_decision. Defined.

Record hub := mkHub {
  hub_kind : string;
  data_dir : string;
  hub_id : string;
  host_identity : string;
  operation_id : string;
  snapshot : string;
  fence_device : Z;
  fence_inode : Z;
}.
#[global] Instance hub_eq_dec : EqDecision hub.
Proof. solve_decision. Defined.

Record guard := mkGuard { guard_id : string; guard_device : Z; guard_inode : Z }.
#[global] Instance guard_eq_dec : EqDecision guard.
Proof. solve_decision. Defined.

Record manifest := mkManifest {
  transaction_id : string;
  release_version : string;
  release_dir : string;
  candidate_release : release;
  old_target : string;
  old_release : option release;
  current : link_state;
  previous : link_state;
  previous_release : option release;
  env_path : string;
  env : backup;
  service_path : string;
  service : backup;
  service_state : string;
  service_enabled : bool;
  legacy_service_state : string;
  legacy_service_enabled : bool;
  prior_port : Z;
  prior_bind_address : string;
  intent : string;
  client_binding : string;
  desired_env : option desired;
  desired_service : option desired;
  m_phase : phase;
  rollback_from : option phase;
  m_hub : option hub;
  m_guard : option guard;
  authority_pending : bool;
  observed_env : list (option string);
  observed_service : list (option string);
}.
#[global] Instance manifest_eq_dec : EqDecision manifest.
Proof. solve_decision. Defined.

(** ** Its JSON *)

Definition json_of_release (r : option release) : pyval :=
  match r with
  | None => PDict []
  | Some r => PDict [("device", PInt (r_device r)); ("inode", PInt (r_inode r));
      ("source", PStr (source r)); ("target", PStr (target r));
      ("version_sha256", PStr (version_sha256 r))]
  end.

Definition json_of_link (l : link_state) : pyval :=
  PDict [("kind", PStr (kind_name (kind l))); ("target", PStr (link_target l))].

Definition json_of_backup (b : backup) : pyval :=
  PDict [("backup", PStr (backup_name b));
    ("existed", PBool (if saved b then true else false));
    ("mode", match saved b with Some (_, m) => PInt m | None => PNone end);
    ("sha256", match saved b with Some (s, _) => PStr s | None => PNone end)].

Definition json_of_desired (d : option desired) : pyval :=
  match d with
  | None => PNone
  | Some d => PDict [("device", PInt (d_device d)); ("inode", PInt (d_inode d));
      ("mode", PInt (d_mode d)); ("sha256", PStr (d_sha256 d)); ("source", PStr (d_source d))]
  end.

Definition json_of_hub (h : option hub) : pyval :=
  match h with
  | None => PDict []
  | Some h => PDict [("data_dir", PStr (data_dir h)); ("fence_device", PInt (fence_device h));
      ("fence_inode", PInt (fence_inode h)); ("host_identity", PStr (host_identity h));
      ("hub_id", PStr (hub_id h)); ("kind", PStr (hub_kind h));
      ("operation_id", PStr (operation_id h)); ("snapshot", PStr (snapshot h))]
  end.

Definition json_of_guard (g : option guard) : pyval :=
  match g with
  | None => PDict []
  | Some g => PDict [("device", PInt (guard_device g)); ("id", PStr (guard_id g));
      ("inode", PInt (guard_inode g))]
  end.

Definition json_opt_str (s : option string) : pyval :=
  match s with Some s => PStr s | None => PNone end.

(** The dict of a manifest, keys sorted. *)
Definition json_of (m : manifest) : pyval := PDict
  [("authority_pending", PBool (authority_pending m));
   ("candidate_release", json_of_release (Some (candidate_release m)));
   ("client_binding", PStr (client_binding m));
   ("current", json_of_link (current m));
   ("desired_env", json_of_desired (desired_env m));
   ("desired_service", json_of_desired (desired_service m));
   ("env", json_of_backup (env m));
   ("env_path", PStr (env_path m));
   ("format", PInt 1);
   ("guard", json_of_guard (m_guard m));
   ("hub", json_of_hub (m_hub m));
   ("intent", PStr (intent m));
   ("legacy_service_enabled", PBool (legacy_service_enabled m));
   ("legacy_service_state", PStr (legacy_service_state m));
   ("observed_env_sha256", PList (map json_opt_str (observed_env m)));
   ("observed_service_sha256", PList (map json_opt_str (observed_service m)));
   ("old_release", json_of_release (old_release m));
   ("old_target", PStr (old_target m));
   ("phase", PStr (phase_name (m_phase m)));
   ("previous", json_of_link (previous m));
   ("previous_release", json_of_release (previous_release m));
   ("prior_bind_address", PStr (prior_bind_address m));
   ("prior_port", PInt (prior_port m));
   ("release_dir", PStr (release_dir m));
   ("release_version", PStr (release_version m));
   ("rollback_from", json_opt_str (phase_name <$> rollback_from m));
   ("service", json_of_backup (service m));
   ("service_enabled", PBool (service_enabled m));
   ("service_path", PStr (service_path m));
   ("service_state", PStr (service_state m));
   ("transaction_id", PStr (transaction_id m))].

(** [_canonical] *)
Definition canonical (m : manifest) : string :=
  encode_ascii (sort_keys (json_of m)) +:+ String (chr 10) "".

(** ** Reading a file *)

Section reading.
Context {host : Host}.

(** [_absolute] *)
Definition absolute (s : string) : path :=
  if is_absolute s then normalize [] (parts s) else relative s.

Definition MAX_CONTROL_BYTES : Z := 256 * 1024.
Definition MAX_CONFIG_BYTES : Z := 16 * 1024 * 1024.

(** Nobody else may write: [mode & 0o022 == 0]. *)
Definition unshared (mode : Z) : bool := (Z.land mode 18 =? 0)%Z.

(** What [os.open] and [os.fstat] give for a file that is not to be a link:
    identity, owner, mode, link count and bytes, of a regular file. *)
Definition open_regular (f : fs) (p : path) (unsafe : exn) : res (ident * Z * Z * nat * string) :=
  n ← lstat f p;
  match n with
  | Lnk _ => Err OSError
  | Reg i o m c => Ok (i, o, m, nlink f i, c)
  | Dir _ _ _ | Special => Err unsafe
  end.

(** [_read_private] *)
Definition read_private (f : fs) (p : path) (maximum : Z) : res string :=
  let unsafe := PermissionError "activation transaction file is unsafe" in
  '(i, o, m, links, c) ← open_regular f p unsafe;
  raise_if (negb (o =? uid) || negb (Nat.eqb links 1) || negb (m =? 384) || (maximum <? len c))%Z unsafe;;
  Ok c.

(** [_read_owned_regular] *)
Definition read_owned_regular (f : fs) (p : path) (maximum : Z) : res string :=
  let unsafe := PermissionError "activation configuration file is unsafe" in
  '(i, o, m, links, c) ← open_regular f p unsafe;
  raise_if (negb (o =? uid) || negb (Nat.eqb links 1) || negb (unshared m) || (maximum <? len c))%Z unsafe;;
  Ok c.

(** [_owned_regular_sha256] *)
Definition owned_regular_sha256 (f : fs) (p : path) (maximum : Z) : res string :=
  let unsafe := PermissionError "activation release identity is unsafe" in
  '(i, o, m, links, c) ← open_regular f p unsafe;
  raise_if (negb (o =? uid) || negb (Nat.eqb links 1) || negb (unshared m)
            || (len c <? 1) || (maximum <? len c))%Z unsafe;;
  Ok (sha256 c).

(** [_sha256] *)
Definition sha256_file (f : fs) (p : path) : res string :=
  c ← read_private f p MAX_CONFIG_BYTES; Ok (sha256 c).

(** [_validate_root], [_validate_releases_root] *)
Definition owned_directory (f : fs) (p : path) (mode_ok : Z → bool) (e : exn) : res unit :=
  n ← lstat f p;
  match n with
  | Dir _ o m => raise_if (negb (o =? uid)%Z || negb (mode_ok m)) e
  | _ => Err e
  end.
Definition validate_root (f : fs) (root : path) : res unit :=
  owned_directory f root unshared (PermissionError "activation transaction root is unsafe").
Definition validate_releases_root (f : fs) (root : path) : res path :=
  owned_directory f (root // "releases") unshared
    (PermissionError "activation releases root is unsafe");;
  Ok (root // "releases").

(** ** Tests on text *)

(** [[0-9a-f]{n}] *)
Definition hex_text (n : nat) (s : string) : bool :=
  Nat.eqb (String.length s) n && string_forallb hex_char s.

Definition letter_or_digit (c : Ascii.ascii) : bool :=
  let n := code c in
  ((48 <=? n) && (n <=? 57) || (65 <=? n) && (n <=? 90) || (97 <=? n) && (n <=? 122))%N.

Definition one_of (l : string) (c : Ascii.ascii) : bool := string_contains c l.

(** [s] after the prefix [p]. *)
Fixpoint after (p s : string) : option string :=
  match p, s with
  | "", _ => Some s
  | String c p, String d s => if Ascii.eqb c d then after p s else None
  | String _ _, "" => None
  end.

(** [activation-[0-9a-f]{24}] *)
Definition is_transaction_id (s : string) : bool :=
  match after "activation-" s with Some t => hex_text 24 t | None => false end.

(** A first character and up to [n] more. *)
Definition token_text (first rest : Ascii.ascii → bool) (low n : nat) (s : string) : bool :=
  match s with
  | String c s => first c && string_forallb rest s && Nat.leb low (String.length s)
                  && Nat.leb (String.length s) n
  | "" => false
  end.

(** [[A-Za-z0-9][A-Za-z0-9._+-]{0,127}] *)
Definition is_version (s : string) : bool :=
  token_text letter_or_digit (λ c, letter_or_digit c || one_of "._+-" c) 0 127 s.

(** No NUL, CR or LF. *)
Definition one_line (s : string) : bool :=
  string_forallb (λ c, negb ((code c =? 0) || (code c =? 10) || (code c =? 13))%N) s.

(** [_safe_text] *)
Definition safe_text (v : pyval) (name : string) (maximum : Z) : res string :=
  let e := RuntimeError ("activation transaction " +:+ name +:+ " is invalid") in
  match v with
  | PStr s =>
      raise_if (String.eqb s "" || (maximum <? len s)%Z) e;;
      raise_if (negb (one_line s)) e;; Ok s
  | _ => Err e
  end.

(** [v in {...}], with [TypeError] for a list or a dict. *)
Definition in_set (v : pyval) (l : list string) : res bool :=
  match v with
  | PList _ | PDict _ => Err (TypeError "unhashable type")
  | PStr s => Ok (str_in s l)
  | _ => Ok false
  end.

(** [isinstance(v, int)]; a [bool] is one. *)
Definition as_int (v : pyval) : option Z :=
  match v with PInt z => Some z | PBool b => Some (Z.b2z b) | _ => None end.
(** The same, a [bool] excepted. *)
Definition as_int' (v : pyval) : option Z := match v with PInt z => Some z | _ => None end.
Definition as_str (v : pyval) : option string := match v with PStr s => Some s | _ => None end.
Definition as_bool (v : pyval) : option bool := match v with PBool b => Some b | _ => None end.
Definition as_dict (v : pyval) : option (list (string * pyval)) :=
  match v with PDict d => Some d | _ => None end.

(** [set(d) == {...}] *)
Definition keys_are (d : list (string * pyval)) (l : list string) : bool :=
  forallb (λ kv, str_in kv.1 l) d && forallb (λ k, str_in k (map fst d)) l.

Definition or_raise {A} (o : option A) (e : exn) : res A :=
  match o with Some a => Ok a | None => Err e end.

Definition when {A} (b : bool) (a : A) : option A := if b then Some a else None.
End reading.

(** ** Checks of single fields *)

Section fields.
Context {host : Host}.

(** [valid_release] of [_read_manifest] *)
Definition valid_release (v : pyval) : option release :=
  d ← as_dict v;
  if negb (keys_are d ["source"; "target"; "device"; "inode"; "version_sha256"]) then None else
  s ← as_str (items_get d "source"); t ← as_str (items_get d "target");
  if negb (is_absolute s && is_absolute t) then None else
  dv ← as_int (items_get d "device"); ino ← as_int (items_get d "inode");
  sha ← as_str (items_get d "version_sha256");
  when ((0 <=? dv) && (0 <? ino) && hex_text 64 sha)%Z (mkRelease s t dv ino sha).

Definition release_or_empty (v : pyval) (e : exn) : res (option release) :=
  match v with
  | PDict [] => Ok None
  | _ => r ← or_raise (valid_release v) e; Ok (Some r)
  end.

Definition read_link (v : pyval) (directory : bool) : res link_state :=
  let e := RuntimeError "activation transaction link state is invalid" in
  d ← or_raise (as_dict v) e;
  raise_if (negb (keys_are d ["kind"; "target"])) e;;
  ok ← in_set (items_get d "kind") ["missing"; "symlink"; "directory"];
  raise_if (negb ok) e;;
  k ← or_raise (as_str (items_get d "kind")) e;
  t ← or_raise (as_str (items_get d "target")) e;
  raise_if (negb (one_line t)) e;;
  raise_if (negb directory && String.eqb k "directory") e;;
  Ok (mkLink (kind_of k) t).

(** The modes a configuration file may have had. *)
Definition backup_mode (m : Z) : bool := ((m =? 384) || (m =? 416) || (m =? 420))%Z.

Definition read_backup (f : fs) (directory : path) (v : pyval) : res backup :=
  let e := RuntimeError "activation transaction backup metadata is invalid" in
  d ← or_raise (as_dict v) e;
  raise_if (negb (keys_are d ["existed"; "backup"; "sha256"; "mode"])) e;;
  existed ← or_raise (as_bool (items_get d "existed")) e;
  ok ← in_set (items_get d "backup") ["env.backup"; "service.backup"];
  raise_if (negb ok) e;;
  name ← or_raise (as_str (items_get d "backup")) e;
  if existed : bool then
    sha ← or_raise (as_str (items_get d "sha256")) e;
    raise_if (negb (hex_text 64 sha)) e;;
    mode ← or_raise (as_int (items_get d "mode")) e;
    raise_if (negb (backup_mode mode)) e;;
    now ← sha256_file f (directory // name);
    raise_if (negb (String.eqb now sha)) (RuntimeError "activation transaction backup changed");;
    Ok (mkBackup name (Some (sha, mode)))
  else
    raise_if (negb (bool_decide (items_get d "sha256" = PNone))
              || negb (bool_decide (items_get d "mode" = PNone))) e;;
    Ok (mkBackup name None).

(** [_config_staging_paths] *)
Definition config_staging_paths (destination : path) (id kind : string) : path * path :=
  let prefix := "." +:+ basename destination +:+ ".activation-" +:+ id +:+ "-" +:+ kind in
  (parent destination // (prefix +:+ ".source"), parent destination // (prefix +:+ ".publication")).

Definition read_desired (destination : path) (id kind : string) (v : pyval) : res (option desired) :=
  let e := RuntimeError "activation desired configuration is invalid" in
  match v with
  | PNone => Ok None
  | _ =>
      d ← or_raise (as_dict v) e;
      raise_if (negb (keys_are d ["sha256"; "mode"; "source"; "device"; "inode"])) e;;
      sha ← or_raise (as_str (items_get d "sha256")) e;
      raise_if (negb (hex_text 64 sha)) e;;
      mode ← or_raise (as_int (items_get d "mode")) e;
      raise_if (negb ((mode =? 384) || String.eqb kind "service" && (mode =? 420))%Z) e;;
      src ← or_raise (as_str (items_get d "source")) e;
      raise_if (negb (String.eqb src (str (config_staging_paths destination id kind).1))) e;;
      dv ← or_raise (as_int' (items_get d "device")) e;
      raise_if (dv <=? 0)%Z e;;
      ino ← or_raise (as_int' (items_get d "inode")) e;
      raise_if (ino <=? 0)%Z e;;
      Ok (Some (mkDesired sha mode src dv ino))
  end.

Definition read_history (v : pyval) : res (list (option string)) :=
  let e := RuntimeError "activation transaction configuration history is invalid" in
  match v with
  | PList l =>
      or_raise (mapM (λ x, match x with
        | PNone => Some None
        | PStr s => when (hex_text 64 s) (Some s)
        | _ => None
        end) l) e
  | _ => Err e
  end.

Definition hub_paths_ok (dir snap : string) : bool :=
  String.eqb dir (str (absolute dir)) && String.eqb snap (str (absolute snap))
  && bool_decide (parent (absolute snap) = absolute dir // "maintenance-backups")
  && match after "snapshot_" (basename (absolute snap)) with
     | Some r => negb (String.eqb r "")
                 && string_forallb (λ c, letter_or_digit c || one_of "_" c) r
     | None => false
     end.

(** [_validate_hub_metadata] *)
Definition validate_hub_metadata (h : option hub) (intent : string) : res unit :=
  let e := RuntimeError "activation transaction Hub state is invalid" in
  match h with
  | None => Ok tt
  | Some h =>
      let letters c := letter_or_digit c || one_of "_" c in
      raise_if (
        negb (hub_paths_ok (data_dir h) (snapshot h))
        || negb (str_in (hub_kind h) ["server-update"; "host-reactivation"])
        || negb (string_forallb (λ c, letters c || one_of ".:-" c) (hub_id h)
                 && Nat.leb 8 (String.length (hub_id h)) && Nat.leb (String.length (hub_id h)) 240)
        || negb (token_text letter_or_digit (λ c, letters c || one_of ".:@/-" c) 7 239 (host_identity h))
        || negb (token_text letter_or_digit (λ c, letters c || one_of ".:-" c) 0 127 (operation_id h))
        || (fence_device h <=? 0)%Z || (fence_inode h <=? 0)%Z) e;;
      raise_if (
        String.eqb (hub_kind h) "server-update" && negb (String.eqb intent "server-update")
        || String.eqb (hub_kind h) "host-reactivation"
           && negb (str_in intent ["host-reactivation"; "failed-host-repair"]))
        (RuntimeError "activation transaction Hub intent changed")
  end.

Definition read_hub (v : pyval) (intent : string) : res (option hub) :=
  let e := RuntimeError "activation transaction Hub state is invalid" in
  match v with
  | PDict [] => Ok None
  | _ =>
      d ← or_raise (as_dict v) e;
      raise_if (negb (keys_are d ["kind"; "data_dir"; "hub_id"; "host_identity"; "operation_id";
                                  "snapshot"; "fence_device"; "fence_inode"])) e;;
      dir ← or_raise (as_str (items_get d "data_dir")) e;
      snap ← or_raise (as_str (items_get d "snapshot")) e;
      raise_if (negb (hub_paths_ok dir snap)) e;;
      _ ← in_set (items_get d "kind") [];
      k ← or_raise (as_str (items_get d "kind")) e;
      i ← or_raise (as_str (items_get d "hub_id")) e;
      h ← or_raise (as_str (items_get d "host_identity")) e;
      o ← or_raise (as_str (items_get d "operation_id")) e;
      fd ← or_raise (as_int' (items_get d "fence_device")) e;
      fi ← or_raise (as_int' (items_get d "fence_inode")) e;
      let hub := Some (mkHub k dir i h o snap fd fi) in
      validate_hub_metadata hub intent;; Ok hub
  end.

(** [_validate_guard_metadata] *)
Definition validate_guard_metadata (g : option guard) : res unit :=
  match g with
  | None => Ok tt
  | Some g => raise_if (
      negb (match after "cold-handoff-" (guard_id g) with Some t => hex_text 24 t | None => false end)
      || (guard_device g <=? 0)%Z || (guard_inode g <=? 0)%Z)
      (RuntimeError "activation transaction guard state is invalid")
  end.

Definition read_guard (v : pyval) : res (option guard) :=
  let e := RuntimeError "activation transaction guard state is invalid" in
  match v with
  | PDict [] => Ok None
  | _ =>
      d ← or_raise (as_dict v) e;
      raise_if (negb (keys_are d ["id"; "device"; "inode"])) e;;
      i ← or_raise (as_str (items_get d "id")) e;
      dv ← or_raise (as_int' (items_get d "device")) e;
      ino ← or_raise (as_int' (items_get d "inode")) e;
      let guard := Some (mkGuard i dv ino) in
      validate_guard_metadata guard;; Ok guard
  end.
End fields.

(** ** [_read_manifest] *)

Definition MANIFEST_KEYS : list string :=
  ["format"; "transaction_id"; "release_version"; "release_dir"; "candidate_release";
   "old_target"; "old_release"; "current"; "previous"; "previous_release"; "env_path"; "env";
   "service_path"; "service"; "service_state"; "service_enabled"; "legacy_service_state";
   "legacy_service_enabled"; "prior_port"; "prior_bind_address"; "intent"; "client_binding";
   "desired_env"; "desired_service"; "phase"; "rollback_from"; "hub"; "guard";
   "authority_pending"; "observed_env_sha256"; "observed_service_sha256"].

Definition rolling : list phase := [RollingBack; RolledBack; RollbackHealthy].

Section read_manifest.
Context {host : Host}.

Definition read_phase (v : pyval) (e : exn) : res phase :=
  ok ← in_set v (map snd PHASES);
  raise_if (negb ok) e;;
  s ← or_raise (as_str v) e; or_raise (phase_of s) e.

Definition read_rollback_from (v : pyval) (now : phase) : res (option phase) :=
  let e := RuntimeError "activation transaction rollback origin is invalid" in
  match v with
  | PNone =>
      raise_if (in_phases now rolling)
        (RuntimeError "activation transaction rollback origin is missing");;
      Ok None
  | _ =>
      p ← read_phase v e;
      raise_if (in_phases p (rolling ++ [Committing; Committed]) || negb (in_phases now rolling)) e;;
      Ok (Some p)
  end.

Definition read_state (v : pyval) (e : exn) : res string :=
  ok ← in_set v ["absent"; "stopped"; "running"];
  raise_if (negb ok) e;; or_raise (as_str v) e.

Definition read_bind (v : pyval) : res string :=
  s ← safe_text v "prior bind" 64;
  if String.eqb s "localhost" then Ok s else
  match canonical_address s with
  | None => Err (RuntimeError "activation transaction prior bind is invalid")
  | Some t =>
      raise_if (negb (String.eqb t s)) (RuntimeError "activation transaction prior bind is noncanonical");;
      Ok s
  end.

(** The paths of the releases are where the installer puts them. *)
Definition check_candidate (releases : path) (version dir : string) (candidate : release) : res unit :=
  let release_dir := absolute dir in
  let source_path := absolute (source candidate) in
  let target_path := absolute (target candidate) in
  raise_if (
    negb (String.eqb dir (str release_dir)) || negb (is_version version)
    || negb (bool_decide (release_dir = releases // version))
    || negb (String.eqb (source candidate) (str source_path))
    || negb (String.eqb (target candidate) (str target_path))
    || negb (bool_decide (parent source_path = releases))
    || bool_decide (source_path = target_path)
    || negb (bool_decide (target_path = release_dir)))
    (RuntimeError "activation transaction release path is invalid").

Definition check_old (root releases : path) (old_target : string) (old : option release) : res unit :=
  let e := RuntimeError "activation transaction rollback release path is invalid" in
  match old with
  | Some r =>
      let s := absolute (source r) in
      let t := absolute (target r) in
      raise_if (
        negb (String.eqb (source r) (str s)) || negb (String.eqb (target r) (str t))
        || negb (bool_decide (parent t = releases))
        || negb (bool_decide (parent s = releases)) && negb (bool_decide (s = root // "current"))
        || negb (String.eqb old_target (str t))) e
  | None => raise_if (negb (String.eqb old_target "")) e
  end.

Definition check_previous (releases : path) (prev : option release) : res unit :=
  match prev with
  | Some r =>
      let s := absolute (source r) in
      let t := absolute (target r) in
      raise_if (
        negb (String.eqb (source r) (str s)) || negb (String.eqb (target r) (str t))
        || negb (bool_decide (parent s = releases)) || negb (bool_decide (parent t = releases)))
        (RuntimeError "activation transaction previous release path is invalid")
  | None => Ok tt
  end.

Definition parse_manifest (f : fs) (root releases directory : path) (v : pyval) : res manifest :=
  let bad s := RuntimeError ("activation transaction " +:+ s) in
  d ← or_raise (as_dict v) (bad "manifest is invalid");
  raise_if (negb (keys_are d MANIFEST_KEYS)
            || negb (bool_decide (as_int (items_get d "format") = Some 1%Z))) (bad "manifest is invalid");;
  ph ← read_phase (items_get d "phase") (bad "phase is invalid");
  from ← read_rollback_from (items_get d "rollback_from") ph;
  id ← safe_text (items_get d "transaction_id") "id" 64;
  raise_if (negb (is_transaction_id id)) (bad "id is invalid");;
  version ← safe_text (items_get d "release_version") "version" 128;
  dir ← safe_text (items_get d "release_dir") "release_dir" 4096;
  envp ← safe_text (items_get d "env_path") "env_path" 4096;
  servp ← safe_text (items_get d "service_path") "service_path" 4096;
  oldt ← or_raise (as_str (items_get d "old_target")) (bad "old target is invalid");
  raise_if (negb (one_line oldt)) (bad "old target is invalid");;
  old ← release_or_empty (items_get d "old_release") (bad "rollback release is invalid");
  prev ← release_or_empty (items_get d "previous_release") (bad "previous release is invalid");
  cur ← read_link (items_get d "current") true;
  prl ← read_link (items_get d "previous") false;
  env ← read_backup f directory (items_get d "env");
  serv ← read_backup f directory (items_get d "service");
  state ← read_state (items_get d "service_state") (bad "service state is invalid");
  enabled ← or_raise (as_bool (items_get d "service_enabled")) (bad "service enablement is invalid");
  lstate ← read_state (items_get d "legacy_service_state") (bad "legacy service state is invalid");
  lenabled ← or_raise (as_bool (items_get d "legacy_service_enabled")) (bad "legacy enablement is invalid");
  port ← or_raise (as_int (items_get d "prior_port")) (bad "prior port is invalid");
  raise_if (negb ((1 <=? port) && (port <=? 65535)))%Z (bad "prior port is invalid");;
  bind ← read_bind (items_get d "prior_bind_address");
  ok ← in_set (items_get d "intent") ["ordinary"; "server-update"; "host-reactivation"; "failed-host-repair"];
  raise_if (negb ok) (bad "intent is invalid");;
  intent ← or_raise (as_str (items_get d "intent")) (bad "intent is invalid");
  binding ← or_raise (as_str (items_get d "client_binding")) (bad "client binding is invalid");
  raise_if ((64 * 1024 <? len binding)%Z || negb (one_line binding)) (bad "client binding is invalid");;
  denv ← read_desired (absolute envp) id "env" (items_get d "desired_env");
  dserv ← read_desired (absolute servp) id "service" (items_get d "desired_service");
  pending ← or_raise (as_bool (items_get d "authority_pending")) (bad "authority state is invalid");
  henv ← read_history (items_get d "observed_env_sha256");
  hserv ← read_history (items_get d "observed_service_sha256");
  candidate ← or_raise (valid_release (items_get d "candidate_release")) (bad "candidate release is invalid");
  check_candidate releases version dir candidate;;
  check_old root releases oldt old;;
  check_previous releases prev;;
  hub ← read_hub (items_get d "hub") intent;
  guard ← read_guard (items_get d "guard");
  Ok (mkManifest id version dir candidate oldt old cur prl prev envp env servp serv state enabled
        lstate lenabled port bind intent binding denv dserv ph from hub guard pending henv hserv).

(** The names of manifests being written. *)
Definition manifest_temp (n : string) : bool :=
  match after ".manifest.json." n with
  | Some r => Nat.eqb (String.length r) 28 && hex_text 24 (prefix_of 24 r)
              && String.eqb (String.substring 24 4 r) ".tmp"
  | None => false
  end.

(** [_cleanup_manifest_temps] *)
Definition cleanup_manifest_temps (directory : path) : M unit :=
  l ← reading (λ f, Ok (filter (λ n, manifest_temp n = true) (scandir f directory)));
  for_each l (λ n,
    node ← reading (λ f, lstat f (directory // n));
    links ← reading (λ f, Ok (match file_ident node with Some i => nlink f i | None => O end));
    guard_not (match node with
               | Reg _ o m _ => negb (o =? uid) || negb (Nat.eqb links 1) || negb (m =? 384)
               | _ => true
               end)%Z (PermissionError "activation transaction staging file is unsafe");;
    unlink (directory // n));;
  if l is [] then mret tt else fsync_directory directory.

(** [_read_manifest]; the directory is the pending transaction, if none is
    given. *)
Definition transaction_directory (root : path) : path := root // ".activation-transaction".

Definition read_manifest (root directory : path) : M manifest :=
  releases ← reading (λ f, validate_root f root;; validate_releases_root f root);
  reading (λ f, owned_directory f directory (λ m, m =? 448)%Z
    (PermissionError "activation transaction directory is unsafe"));;
  cleanup_manifest_temps directory;;
  v ← reading (λ f,
    text ← read_private f (directory // "manifest.json") MAX_CONTROL_BYTES;
    match json_loads text with
    | Err JSONDecodeError => Err (RuntimeError "activation transaction manifest is invalid")
    | r => r
    end);
  reading (λ f, parse_manifest f root releases directory v).
End read_manifest.
