(* ===== verification/ActivationJson.v ===== *)
(** * The journal of a release activation: its text

    A manifest that [_read_manifest] accepted, or that satisfies the same
    checks, is written by [_canonical] as a text that reads back as itself. *)
From S2P Require Import Prelude.
From S2P Require Import PyValues.
From S2P Require Import Json.
From S2P Require Import FileSystem.
From S2P Require Import Activation.
Open Scope string_scope.

(** ** The keys are written sorted *)

Lemma sort_release r : sort_keys (json_of_release r) = json_of_release r.
Proof. by destruct r. Qed.
Lemma sort_link l : sort_keys (json_of_link l) = json_of_link l.
Proof. done. Qed.
Lemma sort_backup b : sort_keys (json_of_backup b) = json_of_backup b.
Proof. by destruct b as [n [[]|]]. Qed.
Lemma sort_desired d : sort_keys (json_of_desired d) = json_of_desired d.
Proof. by destruct d. Qed.
Lemma sort_hub h : sort_keys (json_of_hub h) = json_of_hub h.
Proof. by destruct h. Qed.
Lemma sort_guard g : sort_keys (json_of_guard g) = json_of_guard g.
Proof. by destruct g. Qed.
Lemma sort_opt_str s : sort_keys (json_opt_str s) = json_opt_str s.
Proof. by destruct s. Qed.
Lemma sort_history l : sort_keys (PList (map json_opt_str l)) = PList (map json_opt_str l).
Proof.
  cbn. f_equal. rewrite map_map. apply map_ext. intros s. apply sort_opt_str.
Qed.

Lemma sort_manifest m : sort_keys (json_of m) = json_of m.
Proof.
  destruct m as [id ver dir c ot o cu pr prr ep e sp s ss se ls le pp pb i cb de ds ph rf h g ap oe os].
  transitivity (PDict (merge_sort key_le (map (λ kv, (kv.1, sort_keys kv.2))
    match json_of (mkManifest id ver dir c ot o cu pr prr ep e sp s ss se ls le pp pb i cb de ds ph rf h g ap oe os) with PDict d => d | _ => [] end))); [done|].
  unfold json_of. cbn [map fst snd].
  rewrite !sort_release, !sort_link, !sort_backup, !sort_desired, sort_hub, sort_guard,
    sort_opt_str, !sort_history. done.
Qed.

(** ** Numbers of 64 bits are short *)

Definition small (z : Z) : Prop := (Z.abs z < 2 ^ 64)%Z.

Lemma small_pretty z : small z → (String.length (pretty z) ≤ 4300)%nat.
Proof.
  unfold small. intros Hz.
  assert (∀ x : N, (x < 2 ^ 64)%N → (String.length (pretty x) ≤ 65)%nat) as Hp.
  { intros x Hx. unfold pretty, pretty_N. case_decide; [cbn; lia|].
    assert (x < 10 ^ N.of_nat 64)%N as Hx' by (etrans; [exact Hx|done]).
    pose proof (pretty_go_length 64 x "" Hx'). cbn in *. lia. }
  destruct z as [|p|p].
  - cbn. lia.
  - pose proof (Hp (N.pos p) ltac:(lia)). change (pretty (Z.pos p)) with (pretty (N.pos p)). lia.
  - pose proof (Hp (N.pos p) ltac:(lia)).
    change (pretty (Z.neg p)) with (String (chr 45) (pretty (N.pos p))). cbn [String.length]. lia.
Qed.

Definition release_numbers (r : option release) : list Z :=
  match r with Some r => [r_device r; r_inode r] | None => [] end.
Definition desired_numbers (d : option desired) : list Z :=
  match d with Some d => [d_device d; d_inode d; d_mode d] | None => [] end.
Definition saved_numbers (b : backup) : list Z := match saved b with Some (_, m) => [m] | None => [] end.

Definition numbers (m : manifest) : list Z :=
  release_numbers (Some (candidate_release m)) ++ release_numbers (old_release m)
  ++ release_numbers (previous_release m) ++ saved_numbers (env m) ++ saved_numbers (service m)
  ++ desired_numbers (desired_env m) ++ desired_numbers (desired_service m) ++ [prior_port m]
  ++ match m_hub m with Some h => [fence_device h; fence_inode h] | None => [] end
  ++ match m_guard m with Some g => [guard_device g; guard_inode g] | None => [] end.

(** Every number of the manifest is one the operating system can report. *)
Definition fits (m : manifest) : Prop := Forall small (numbers m).

Ltac json_dict :=
  apply json_wf_dict; split; [by apply (bool_decide_unpack _)|];
  repeat (apply Forall_cons; split; cbn [snd]); try done; try (by apply small_pretty).

Lemma wf_release r : Forall small (release_numbers r) → json_wf (json_of_release r).
Proof.
  destruct r as [[s t d i v]|]; [|intros _; json_dict].
  intros [Hd [Hi _]%Forall_cons]%Forall_cons. cbn in Hd, Hi. cbn [json_of_release]. json_dict.
Qed.

Lemma wf_backup b : Forall small (saved_numbers b) → json_wf (json_of_backup b).
Proof.
  destruct b as [n [[s m]|]]; [|intros _; json_dict]. intros [Hm _]%Forall_cons. json_dict.
Qed.

Lemma wf_desired d : Forall small (desired_numbers d) → json_wf (json_of_desired d).
Proof.
  destruct d as [[s m c d i]|]; [|done].
  intros [Hd [Hi [Hm _]%Forall_cons]%Forall_cons]%Forall_cons. cbn in Hd, Hi, Hm.
  cbn [json_of_desired]. json_dict.
Qed.

Lemma wf_history l : json_wf (PList (map json_opt_str l)).
Proof. apply json_wf_list, Forall_map, Forall_true. by intros []. Qed.

Lemma wf_manifest m : fits m → json_wf (json_of m).
Proof.
  unfold fits, numbers. rewrite !Forall_app.
  intros (Hc & Ho & Hp & He & Hs & Hde & Hds & Hport & Hh & Hg).
  unfold json_of. apply Forall_cons in Hport as [Hport _].
  apply json_wf_dict; split; [by apply (bool_decide_unpack _)|].
  repeat (apply Forall_cons; split; cbn [snd]);
    try first [done|by apply small_pretty|by apply wf_release|by apply wf_backup
              |by apply wf_desired|apply wf_history|exact (wf_release (Some _) Hc)].
  - json_dict.
  - destruct (m_guard m) as [[i d n]|]; [|json_dict].
    apply Forall_cons in Hg as [? [? _]%Forall_cons]. json_dict.
  - destruct (m_hub m) as [[k dd hi ho o sn fd fi]|]; [|json_dict].
    apply Forall_cons in Hh as [? [? _]%Forall_cons]. json_dict.
  - json_dict.
  - destruct (rollback_from m); done.
Qed.

(** ** What a manifest has to satisfy *)

Definition release_ok (r : release) : bool :=
  is_absolute (source r) && is_absolute (target r)
  && (0 <=? r_device r)%Z && (0 <? r_inode r)%Z && hex_text 64 (version_sha256 r).

Definition link_ok (directory : bool) (l : link_state) : bool :=
  one_line (link_target l) && (directory || negb (bool_decide (kind l = Directory))).

Definition id_ok (d i : Z) : bool := (0 <? d)%Z && (0 <? i)%Z.

Lemma or_raise_Ok {A} (o : option A) e a : or_raise o e = Ok a ↔ o = Some a.
Proof. destruct o; cbn; naive_solver. Qed.

Lemma as_str_Some v s : as_str v = Some s ↔ v = PStr s.
Proof. destruct v; cbn; naive_solver. Qed.
Lemma as_dict_Some v d : as_dict v = Some d ↔ v = PDict d.
Proof. destruct v; cbn; naive_solver. Qed.

(** What the tests of an accepted value say. *)
Ltac bools := repeat match goal with
  | H : negb _ = false |- _ => apply negb_false_iff in H
  | H : _ && _ = true |- _ => apply andb_true_iff in H as [? ?]
  | H : _ || _ = false |- _ => apply orb_false_iff in H as [? ?]
  | H : or_raise _ _ = Ok _ |- _ => apply or_raise_Ok in H
  | H : as_str _ = Some _ |- _ => apply as_str_Some in H
  | H : as_dict _ = Some _ |- _ => apply as_dict_Some in H
  | H : bool_decide _ = true |- _ => apply bool_decide_eq_true in H
  end.

Section fields.
Context {host : Host}.

Definition backup_ok (f : fs) (directory : path) (b : backup) : Prop :=
  str_in (backup_name b) ["env.backup"; "service.backup"] = true ∧
  match saved b with
  | Some (sha, mode) => hex_text 64 sha = true ∧ backup_mode mode = true ∧
      sha256_file f (directory // backup_name b) = Ok sha
  | None => True
  end.

Definition desired_ok (destination : path) (id kind : string) (d : option desired) : Prop :=
  match d with
  | None => True
  | Some d =>
      hex_text 64 (d_sha256 d) = true ∧
      ((d_mode d =? 384) || String.eqb kind "service" && (d_mode d =? 420))%Z = true ∧
      d_source d = str (config_staging_paths destination id kind).1 ∧
      id_ok (d_device d) (d_inode d) = true
  end.

Definition history_ok (l : list (option string)) : bool :=
  forallb (λ s, match s with Some s => hex_text 64 s | None => true end) l.

Definition text_ok (s : string) (maximum : Z) : Prop := safe_text (PStr s) "" maximum = Ok s.

(** A rollback knows the phase it started from, which is not a late one. *)
Definition rollback_ok (now : phase) (p : option phase) : Prop :=
  match p with
  | None => in_phases now rolling = false
  | Some p => in_phases p (rolling ++ [Committing; Committed]) = false ∧ in_phases now rolling = true
  end.

Record manifest_ok (f : fs) (root releases directory : path) (m : manifest) : Prop := {
  ok_rollback : rollback_ok (m_phase m) (rollback_from m);
  ok_id : text_ok (transaction_id m) 64 ∧ is_transaction_id (transaction_id m) = true;
  ok_version : text_ok (release_version m) 128;
  ok_paths : text_ok (release_dir m) 4096 ∧ text_ok (env_path m) 4096 ∧ text_ok (service_path m) 4096;
  ok_old_target : one_line (old_target m) = true;
  ok_old : from_option release_ok true (old_release m) = true;
  ok_previous_release : from_option release_ok true (previous_release m) = true;
  ok_current : link_ok true (current m) = true;
  ok_previous : link_ok false (previous m) = true;
  ok_env : backup_ok f directory (env m);
  ok_service : backup_ok f directory (service m);
  ok_states : str_in (service_state m) ["absent"; "stopped"; "running"] = true ∧
              str_in (legacy_service_state m) ["absent"; "stopped"; "running"] = true;
  ok_port : ((1 <=? prior_port m) && (prior_port m <=? 65535))%Z = true;
  ok_bind : read_bind (PStr (prior_bind_address m)) = Ok (prior_bind_address m);
  ok_intent : str_in (intent m) ["ordinary"; "server-update"; "host-reactivation"; "failed-host-repair"] = true;
  ok_binding : (64 * 1024 <? len (client_binding m))%Z = false ∧ one_line (client_binding m) = true;
  ok_desired_env : desired_ok (absolute (env_path m)) (transaction_id m) "env" (desired_env m);
  ok_desired_service : desired_ok (absolute (service_path m)) (transaction_id m) "service" (desired_service m);
  ok_history : history_ok (observed_env m) = true ∧ history_ok (observed_service m) = true;
  ok_candidate : release_ok (candidate_release m) = true ∧
    check_candidate releases (release_version m) (release_dir m) (candidate_release m) = Ok tt;
  ok_check_old : check_old root releases (old_target m) (old_release m) = Ok tt;
  ok_check_previous : check_previous releases (previous_release m) = Ok tt;
  ok_hub : validate_hub_metadata (m_hub m) (intent m) = Ok tt;
  ok_guard : validate_guard_metadata (m_guard m) = Ok tt;
}.

(** ** From the text *)

Lemma valid_release_ok v r : valid_release v = Some r → release_ok r = true.
Proof.
  unfold valid_release, when. intros H.
  repeat (apply bind_Some in H as (? & ? & H) || case_match); try done.
  injection H as <-. unfold release_ok. cbn.
  bools. by rewrite !andb_true_iff.
Qed.

Lemma release_or_empty_ok v e r :
  release_or_empty v e = Ok r → from_option release_ok true r = true.
Proof.
  unfold release_or_empty. intros H.
  assert (r = None ∨ ∃ x, r = Some x ∧ valid_release v = Some x) as [->|(x & -> & Hx)]; [|done|].
  - destruct v as [| | | | |[|]]; inv_res; rewrite ?or_raise_Ok in *; eauto.
  - by eapply valid_release_ok.
Qed.

Lemma in_set_Ok v l b : in_set v l = Ok b → b = true → ∃ s, v = PStr s ∧ str_in s l = true.
Proof. destruct v; cbn; intros [=]; subst; try done. eauto. Qed.

Lemma read_link_ok v directory l : read_link v directory = Ok l → link_ok directory l = true.
Proof.
  unfold read_link. intros H. inv_res. bools. unfold link_ok. cbn [kind link_target].
  repeat match goal with H : one_line _ = true |- _ => rewrite H end.
  destruct directory; [done|]. cbn [negb andb orb] in *. unfold kind_of.
  repeat match goal with H : String.eqb _ _ = false |- _ => rewrite H end.
  by case_match.
Qed.

Lemma safe_text_ok v name maximum s : safe_text v name maximum = Ok s → v = PStr s ∧ text_ok s maximum.
Proof.
  unfold safe_text, text_ok. destruct v; try done. intros H. inv_res. split; [done|].
  unfold safe_text. by repeat match goal with H : _ = false |- _ => rewrite H end.
Qed.

Lemma read_backup_ok f directory v b : read_backup f directory v = Ok b → backup_ok f directory b.
Proof.
  unfold read_backup. intros H. inv_res. bools.
  match goal with H : in_set _ _ = Ok ?x, E : ?x = true |- _ =>
    destruct (in_set_Ok _ _ _ H E) as (s & Hs & Hin) end.
  assert (s = x4) as -> by congruence.
  destruct x1; inv_res; bools; split; cbn [backup_name saved]; try done.
  split_and!; try done. repeat match goal with E : String.eqb _ _ = true |- _ =>
    apply String.eqb_eq in E; subst end. done.
Qed.

Lemma read_desired_ok dest id kind v d :
  read_desired dest id kind v = Ok d → desired_ok dest id kind d.
Proof.
  unfold read_desired. intros H. destruct v; inv_res; bools; try done.
  unfold desired_ok, id_ok. cbn [d_sha256 d_mode d_source d_device d_inode].
  repeat match goal with E : String.eqb _ _ = true |- _ => apply String.eqb_eq in E end.
  split_and!; try done. apply andb_true_iff. split; apply Z.ltb_lt; lia.
Qed.

Lemma read_history_ok v l : read_history v = Ok l → history_ok l = true.
Proof.
  unfold read_history. destruct v as [| | | |k|]; try done. intros H. bools.
  apply mapM_Some_1 in H. unfold history_ok. apply forallb_forall. intros x Hx.
  apply list_elem_of_In in Hx. apply list_elem_of_lookup in Hx as [i Hx].
  destruct (Forall2_lookup_r _ _ _ _ _ H Hx) as (y & _ & Hy). unfold when in Hy.
  by repeat case_match; simplify_eq.
Qed.

Lemma read_hub_ok v intent h : read_hub v intent = Ok h → validate_hub_metadata h intent = Ok tt.
Proof.
  unfold read_hub. intros H. destruct v as [| | | | |[|]]; inv_res; try done.
  all: match goal with E : validate_hub_metadata _ _ = Ok ?u |- _ => by destruct u end.
Qed.

Lemma read_guard_ok v g : read_guard v = Ok g → validate_guard_metadata g = Ok tt.
Proof.
  unfold read_guard. intros H. destruct v as [| | | | |[|]]; inv_res; try done.
  all: match goal with E : validate_guard_metadata _ = Ok ?u |- _ => by destruct u end.
Qed.

Lemma read_rollback_ok v now p :
  read_rollback_from v now = Ok p → rollback_ok now p.
Proof.
  unfold read_rollback_from, rollback_ok. intros H. destruct v; inv_res; bools; done.
Qed.

Lemma read_state_ok v e s :
  read_state v e = Ok s → str_in s ["absent"; "stopped"; "running"] = true.
Proof.
  unfold read_state. intros H. inv_res. bools.
  match goal with H : in_set _ _ = Ok ?x, E : ?x = true |- _ =>
    destruct (in_set_Ok _ _ _ H E) as (t & -> & Hin) end. by simplify_eq.
Qed.

Lemma read_bind_ok v s : read_bind v = Ok s → read_bind (PStr s) = Ok s.
Proof.
  unfold read_bind. intros H. inv_res. apply safe_text_ok in H0 as [-> Ht].
  assert (x = s) as -> by (repeat case_match; inv_res; done).
  unfold text_ok, safe_text in Ht |- *. inv_res. rewrite H0, H1. cbn. done.
Qed.

(** Whatever [_read_manifest] accepts satisfies the checks. *)
Lemma parse_manifest_ok f root releases directory v m :
  parse_manifest f root releases directory v = Ok m → manifest_ok f root releases directory m.
Proof.
  unfold parse_manifest. intros H. inv_res. bools.
  repeat match goal with
  | H : safe_text _ _ _ = Ok _ |- _ => apply safe_text_ok in H as [? ?]
  | H : in_set _ _ = Ok ?x, E : ?x = true |- _ =>
      destruct (in_set_Ok _ _ _ H E) as (? & ? & ?); clear H
  | u : unit |- _ => destruct u
  end.
  split; cbn [m_phase rollback_from transaction_id release_version release_dir candidate_release
    old_target old_release current previous previous_release env_path env service_path service
    service_state legacy_service_state prior_port prior_bind_address intent client_binding
    desired_env desired_service m_hub m_guard observed_env observed_service];
    eauto using read_rollback_ok, release_or_empty_ok, read_link_ok, read_backup_ok,
      read_desired_ok, read_hub_ok, read_guard_ok, read_state_ok, read_bind_ok,
      read_history_ok, valid_release_ok, conj.
  - by apply andb_true_iff.
  - match goal with E : str_in ?x _ = true |- str_in ?y _ = true => by replace y with x by congruence end.
Qed.
End fields.

(** * The journal of a release activation: reading the text back

    A manifest that satisfies the checks is read from the text [_canonical]
    gives it. *)
Section reading.
Context {host : Host}.

(** ** Back from the text *)

Lemma read_release r : release_ok r = true → valid_release (json_of_release (Some r)) = Some r.
Proof.
  destruct r as [s t d i v]. unfold release_ok. cbn [source target r_device r_inode version_sha256].
  intros H. bools. unfold valid_release, when. cbn -[is_absolute hex_text Z.leb Z.ltb].
  repeat match goal with E : is_absolute _ = true |- _ => rewrite E end.
  cbn -[hex_text Z.leb Z.ltb].
  repeat match goal with E : _ = true |- _ => rewrite E end. done.
Qed.

Lemma read_release_opt r e :
  from_option release_ok true r = true → release_or_empty (json_of_release r) e = Ok r.
Proof.
  destruct r as [r|]; [|done]. intros H. apply read_release in H. unfold release_or_empty.
  change (or_raise (valid_release (json_of_release (Some r))) e ≫= (λ r, Ok (Some r)) = Ok (Some r)).
  by rewrite H.
Qed.

Lemma read_link_json directory l :
  link_ok directory l = true → read_link (json_of_link l) directory = Ok l.
Proof.
  destruct l as [k t]. unfold link_ok. cbn [kind link_target]. intros [Ht Hd]%andb_true_iff.
  unfold read_link. cbn -[one_line]. destruct k; cbn -[one_line]; rewrite Ht; by destruct directory.
Qed.

Lemma str_in_or_raise s l e :
  str_in s l = true → (ok ← in_set (PStr s) l; raise_if (negb ok) e) = Ok tt.
Proof. intros H. cbn. by rewrite H. Qed.

Lemma read_backup_json f directory b :
  backup_ok f directory b → read_backup f directory (json_of_backup b) = Ok b.
Proof.
  destruct b as [n o]. unfold backup_ok. cbn [backup_name saved]. intros [Hn Ho].
  unfold read_backup, json_of_backup. cbn [backup_name saved].
  destruct o as [[sha mode]|]; cbn -[str_in hex_text backup_mode sha256_file child];
    rewrite Hn; cbn -[str_in hex_text backup_mode sha256_file child].
  - destruct Ho as (-> & -> & ->). cbn -[child]. by rewrite String.eqb_refl.
  - done.
Qed.

Lemma read_desired_json dest id kind d :
  desired_ok dest id kind d → read_desired dest id kind (json_of_desired d) = Ok d.
Proof.
  destruct d as [[s m c d i]|]; [|done]. unfold desired_ok, id_ok, read_desired.
  cbn -[hex_text config_staging_paths str Z.eqb Z.ltb Z.leb].
  intros (-> & -> & -> & [Hd Hi]%andb_true_iff).
  cbn -[hex_text config_staging_paths str Z.eqb Z.ltb Z.leb].
  rewrite String.eqb_refl. cbn -[Z.leb config_staging_paths str].
  assert ((d <=? 0)%Z = false) as -> by lia. assert ((i <=? 0)%Z = false) as -> by lia. done.
Qed.

Lemma read_history_json l : history_ok l = true → read_history (PList (map json_opt_str l)) = Ok l.
Proof.
  unfold read_history, history_ok. intros H. apply or_raise_Ok.
  induction l as [|x l IH]; [done|]. cbn [forallb] in H. apply andb_true_iff in H as [Hx Hl].
  cbn [map mapM]. destruct x as [s|]; cbn -[hex_text mapM].
  - rewrite Hx. cbn -[mapM]. by rewrite (IH Hl).
  - by rewrite (IH Hl).
Qed.

Lemma read_hub_json h intent :
  validate_hub_metadata h intent = Ok tt → read_hub (json_of_hub h) intent = Ok h.
Proof.
  destruct h as [h|]; [|done]. intros H. unfold read_hub.
  assert (hub_paths_ok (data_dir h) (snapshot h) = true ∧
    str_in (hub_kind h) ["server-update"; "host-reactivation"] = true) as [Hp Hk].
  { unfold validate_hub_metadata in H. inv_res. by bools. }
  destruct h as [k dd hi ho o sn fd fi]. cbn -[hub_paths_ok validate_hub_metadata] in Hp, Hk |- *.
  rewrite Hp. cbn -[hub_paths_ok validate_hub_metadata]. by rewrite H.
Qed.

Lemma read_guard_json g :
  validate_guard_metadata g = Ok tt → read_guard (json_of_guard g) = Ok g.
Proof.
  destruct g as [[i d n]|]; [|done]. intros H. unfold read_guard.
  cbn -[validate_guard_metadata]. by rewrite H.
Qed.

Lemma read_phase_json p e : read_phase (PStr (phase_name p)) e = Ok p.
Proof. by destruct p. Qed.

Lemma read_rollback_json now p :
  rollback_ok now p → read_rollback_from (json_opt_str (phase_name <$> p)) now = Ok p.
Proof.
  unfold rollback_ok, read_rollback_from. destruct p as [p|]; cbn -[in_phases read_phase].
  - intros [H1 H2]. rewrite read_phase_json. cbn -[in_phases rolling]. by rewrite H1, H2.
  - by intros ->.
Qed.

Lemma read_state_json s e :
  str_in s ["absent"; "stopped"; "running"] = true → read_state (PStr s) e = Ok s.
Proof. intros H. unfold read_state. cbn -[str_in]. by rewrite H. Qed.

Lemma safe_text_json s name maximum : text_ok s maximum → safe_text (PStr s) name maximum = Ok s.
Proof. unfold text_ok, safe_text. intros H. inv_res. by rewrite H0, H1. Qed.

(** One step of a chain of checks that all succeed. *)
Lemma bind_ok {A B} (r : res A) (a : A) (k : A → res B) b : r = Ok a → k a = b → (r ≫= k) = b.
Proof. intros ->. done. Qed.

Lemma raise_if_ok b e : b = false → raise_if b e = Ok tt.
Proof. by intros ->. Qed.

Lemma or_raise_ok {A} (o : option A) e a : o = Some a → or_raise o e = Ok a.
Proof. by intros ->. Qed.

(** The text of a manifest that satisfies the checks is accepted, and read as
    this manifest. *)
Lemma read_manifest_json f root releases directory m :
  manifest_ok f root releases directory m →
  parse_manifest f root releases directory (json_of m) = Ok m.
Proof.
  intros [Hroll [Hid Hid2] Hver [Hdir [Henvp Hservp]] Hot Hold Hprev Hcur Hpl Henv Hserv
    [Hst Hls] Hport Hbind Hint [Hb1 Hb2] Hde Hds [Hhe Hhs] [Hc1 Hc2] Hco Hcp Hhub Hguard].
  unfold parse_manifest.
  eapply bind_ok; [done|]. eapply bind_ok; [done|].
  eapply bind_ok; [apply read_phase_json|].
  eapply bind_ok; [by apply read_rollback_json|].
  eapply bind_ok; [by apply safe_text_json|].
  eapply bind_ok; [apply raise_if_ok; by rewrite Hid2|].
  do 4 (eapply bind_ok; [by apply safe_text_json|]).
  eapply bind_ok; [done|]. eapply bind_ok; [apply raise_if_ok; by rewrite Hot|].
  do 2 (eapply bind_ok; [by apply read_release_opt|]).
  do 2 (eapply bind_ok; [by apply read_link_json|]).
  do 2 (eapply bind_ok; [by apply read_backup_json|]).
  eapply bind_ok; [by apply read_state_json|]. eapply bind_ok; [done|].
  eapply bind_ok; [by apply read_state_json|]. do 2 (eapply bind_ok; [done|]).
  eapply bind_ok; [apply raise_if_ok; by rewrite Hport|].
  eapply bind_ok; [done|]. eapply bind_ok; [done|].
  eapply bind_ok; [apply raise_if_ok, negb_false_iff, Hint|].
  do 2 (eapply bind_ok; [done|]).
  eapply bind_ok; [apply raise_if_ok; by rewrite Hb1, Hb2|].
  do 2 (eapply bind_ok; [by apply read_desired_json|]). eapply bind_ok; [done|].
  do 2 (eapply bind_ok; [by apply read_history_json|]).
  eapply bind_ok; [by apply or_raise_ok, read_release|].
  do 3 (eapply bind_ok; [done|]).
  eapply bind_ok; [by apply read_hub_json|].
  eapply bind_ok; [by apply read_guard_json|]. by destruct m.
Qed.

(** Reading the file gives the manifest back. *)
Lemma json_loads_canonical m : fits m → json_loads (canonical m) = Ok (json_of m).
Proof.
  intros H. unfold canonical. rewrite sort_manifest. by apply json_loads_ascii, wf_manifest.
Qed.
End reading.
