(* ===== verification/ActivationOps.v ===== *)
(** * The journal of a release activation: commands

    Every command of [activation_transaction.py] as a program on the file
    system: [begin], [load], [record], [replace_config], [activate_files],
    [restore_files], [finish], and [_validate_invocation], which each of them
    runs first. *)
From S2P Require Import Prelude PyValues Json FileSystem Activation.

Open Scope string_scope.

(** The arguments that all commands share; a command that is not bound to a
    transaction has no id, version and release directory. *)
Record args := mkArgs {
  a_root : path;
  a_current : path;
  a_previous : path;
  a_env : path;
  a_service : path;
  a_transaction_id : string;
  a_release_version : string;
  a_release_dir : option path;
}.

Section commands.
Context {host : Host}.

(** ** Releases *)

(** [_release_identity] *)
Definition release_identity (f : fs) (src tgt : option path) : res (option release) :=
  match src, tgt with
  | Some src, Some tgt =>
      let unsafe := PermissionError "activation rollback release is unsafe" in
      n ← lstat f src;
      match n with
      | Dir i o m =>
          raise_if (negb (o =? uid)%Z || negb (unshared m)) unsafe;;
          sha ← owned_regular_sha256 f (src // "VERSION") 4096;
          Ok (Some (mkRelease (str src) (str tgt) (device i) (inode i) sha))
      | _ => Err unsafe
      end
  | _, _ => Ok None
  end.

(** [_release_matches] *)
Definition release_matches (f : fs) (p : path) (r : release) : res bool :=
  match f !! p with
  | Some (Dir i o m) =>
      if ((o =? uid) && unshared m && (device i =? r_device r) && (inode i =? r_inode r))%Z then
        sha ← owned_regular_sha256 f (p // "VERSION") 4096;
        Ok (String.eqb sha (version_sha256 r))
      else Ok false
  | _ => Ok false
  end.

(** [_locate_release] *)
Fixpoint first_match (f : fs) (r : release) (seen l : list path) : res (option path) :=
  match l with
  | [] => Ok None
  | p :: l =>
      if bool_decide (p ∈ seen) then first_match f r seen l else
      ok ← release_matches f p r;
      if ok : bool then Ok (Some p) else first_match f r (p :: seen) l
  end.

Definition locate_release (f : fs) (r : release) (extras : list path) : res (option path) :=
  first_match f r [] (absolute (source r) :: absolute (target r) :: extras).

(** Where a link at [p] with the text [raw] leads. *)
Definition resolve (p : path) (raw : string) : path :=
  if is_absolute raw then normalize [] (parts raw)
  else normalize (rev (parent p)) (parts raw).

(** [_link_state] *)
Definition link_state_of (f : fs) (p : path) (allow_directory : bool) : res link_state :=
  match f !! p with
  | None => Ok (mkLink Missing "")
  | Some (Lnk raw) => t ← safe_text (PStr raw) "link target" 4096; Ok (mkLink Symlink t)
  | Some n =>
      match n with
      | Dir _ o _ =>
          if allow_directory && (o =? uid)%Z then Ok (mkLink Directory "")
          else Err (RuntimeError "activation path is not supported")
      | _ => Err (RuntimeError "activation path is not supported")
      end
  end.

(** [_linked_release_identity] *)
Definition linked_release_identity (f : fs) (p : path) : res (option release) :=
  st ← link_state_of f p false;
  if bool_decide (kind st = Symlink) then
    let t := resolve p (link_target st) in
    match release_identity f (Some t) (Some t) with
    | Err FileNotFoundError => Ok None
    | r => r
    end
  else Ok None.

(** [link_points_to] of [_validate_invocation] *)
Definition link_points_to (f : fs) (p : path) (r : release) : res bool :=
  match f !! p with
  | Some (Lnk raw) => release_matches f (resolve p raw) r
  | _ => Ok false
  end.

(** ** Configuration files *)

(** [_current_config_metadata] *)
Definition current_config_metadata (f : fs) (p : path) : res (option (string * Z)) :=
  match f !! p with
  | None => Ok None
  | Some n =>
      c ← read_owned_regular f p MAX_CONFIG_BYTES;
      Ok (Some (sha256 c, match n with Reg _ _ m _ => m | _ => 0 end))%Z
  end.

(** [_config_identity_matches] *)
Definition config_identity_matches (i : option ident) (d : desired) : bool :=
  bool_decide (i = Some (Ident (d_device d) (d_inode d))).

(** [_desired_content_metadata] *)
Definition desired_content (d : desired) : string * Z := (d_sha256 d, d_mode d).

(** [_config_path_matches_desired] *)
Definition config_path_matches_desired (f : fs) (p : path) (d : desired) : res bool :=
  match f !! p with
  | None => Ok false
  | Some n =>
      if negb (config_identity_matches (node_ident n) d) then Ok false else
      m ← current_config_metadata f p;
      Ok (bool_decide (m = Some (desired_content d)))
  end.

(** ** [_validate_invocation] *)

Definition candidate_retired (root : path) (m : manifest) : path :=
  root // "releases" // (".activation-candidate-retired-" +:+ transaction_id m).
Definition candidate_parked (directory : path) : path := directory // "candidate.retired".

(** Lazy [and]. *)
Definition and_then (b : bool) (r : res bool) : res bool := if b then r else Ok false.

Definition candidate_current (m : manifest) : link_state := mkLink Symlink (release_dir m).

(** What is found at [current]. *)
Record current_view := mkCurrentView {
  cv_state : link_state;
  cv_points_to_candidate : bool;
  cv_dangling : bool;  (* the candidate link, its target missing *)
  cv_original : bool;
}.

Definition view_current (f : fs) (a : args) (m : manifest) : res current_view :=
  st ← link_state_of f (a_current a) true;
  let is_candidate := bool_decide (st = candidate_current m) in
  let dangling := is_candidate && negb (lexists f (resolve (a_current a) (link_target st))) in
  to_candidate ← and_then is_candidate (link_points_to f (a_current a) (candidate_release m));
  to_old ← match old_release m with
           | None => Ok false
           | Some old =>
               and_then (bool_decide (st = current m))
                 match kind (current m) with
                 | Symlink => link_points_to f (a_current a) old
                 | Directory => release_matches f (a_current a) old
                 | Missing => Ok false
                 end
           end;
  Ok (mkCurrentView st to_candidate dangling
        (bool_decide (st = current m) && (bool_decide (kind (current m) = Missing) || to_old))).

Definition check_current (m : manifest) (allow_missing : bool) (v : current_view) : res unit :=
  let is_candidate := bool_decide (cv_state v = candidate_current m) in
  let candidate_valid :=
    cv_points_to_candidate v || allow_missing && is_candidate && cv_dangling v in
  if in_phases (m_phase m) [Prepared; Guarded] then
    raise_if (negb (cv_original v)) (RuntimeError "current release changed before link takeover")
  else if in_phases (m_phase m) [Linking; RollingBack] then
    raise_if (negb (cv_original v || candidate_valid
                    || bool_decide (cv_state v = mkLink Missing "")
                    || is_candidate && cv_dangling v))
      (RuntimeError "current release target changed during activation")
  else if in_phases (m_phase m) [RolledBack; RollbackHealthy] then
    raise_if (negb (cv_original v)) (RuntimeError "current release was not restored")
  else raise_if (negb candidate_valid)
    (RuntimeError "current release does not resolve to the candidate").

Record previous_view := mkPreviousView {
  pv_state : link_state;
  pv_original : bool;
  pv_candidate : bool;
  pv_dangling : bool;
}.

(** What [previous] is to be; [None] leaves it as it is. *)
Definition candidate_previous (m : manifest) : option link_state :=
  if String.eqb (old_target m) "" then None else Some (mkLink Symlink (old_target m)).

Definition view_previous (f : fs) (a : args) (m : manifest) : res previous_view :=
  st ← link_state_of f (a_previous a) false;
  original ← and_then (bool_decide (st = previous m))
    match previous_release m with
    | None => Ok true
    | Some r => link_points_to f (a_previous a) r
    end;
  candidate ← match candidate_previous m with
              | None => Ok original
              | Some c =>
                  and_then (bool_decide (st = c))
                    match old_release m with
                    | Some old => link_points_to f (a_previous a) old
                    | None => Ok false
                    end
              end;
  dangling ← and_then (bool_decide (m_phase m = RollingBack))
    match candidate_previous m, old_release m with
    | Some c, Some old =>
        and_then (bool_decide (st = c)) (release_matches f (absolute (source old)) old)
    | _, _ => Ok false
    end;
  Ok (mkPreviousView st original candidate dangling).

Definition check_previous_link (m : manifest) (v : previous_view) : res unit :=
  if in_phases (m_phase m) [Prepared; Guarded] then
    raise_if (negb (pv_original v)) (RuntimeError "previous release changed before link takeover")
  else if in_phases (m_phase m) [Linking; RollingBack] then
    raise_if (negb (pv_original v || pv_candidate v || pv_dangling v
                    || bool_decide (pv_state v = mkLink Missing "")))
      (RuntimeError "previous release changed during activation")
  else if in_phases (m_phase m) [RolledBack; RollbackHealthy] then
    raise_if (negb (pv_original v)) (RuntimeError "previous release link was not restored")
  else raise_if (negb (pv_candidate v))
    (RuntimeError "previous release does not resolve to the rollback release").

(** [authorized_configuration] *)
Definition authorized_configuration (now : option (string * Z)) (history : list (option string))
    (modes : Z → bool) : bool :=
  match now with
  | None => bool_decide (None ∈ history)
  | Some (sha, mode) => bool_decide (Some sha ∈ history) && modes mode
  end.

Definition check_configs (f : fs) (a : args) (m : manifest) : res unit :=
  e ← current_config_metadata f (a_env a);
  s ← current_config_metadata f (a_service a);
  let original := bool_decide (e = saved (env m)) && bool_decide (s = saved (service m)) in
  ok ←
    if in_phases (m_phase m) [Prepared; Guarded; Linking; Stopping; Stopped; Fencing] then Ok original
    else if in_phases (m_phase m) [Linked; Fenced; Authorizing; Authority; RollingBack] then
      Ok (authorized_configuration e (observed_env m) (λ x, x =? 384)%Z
          && authorized_configuration s (observed_service m) backup_mode)
    else if in_phases (m_phase m) [RolledBack; RollbackHealthy] then Ok original
    else match desired_env m, desired_service m with
         | Some de, Some ds =>
             ok ← config_path_matches_desired f (a_env a) de;
             and_then ok (config_path_matches_desired f (a_service a) ds)
         | _, _ => Ok false
         end;
  raise_if (negb ok) (RuntimeError "activation configuration does not match its phase").

Definition check_ownership (a : args) (m : manifest) : res unit :=
  raise_if (negb (bool_decide (absolute (env_path m) = a_env a))
            || negb (bool_decide (absolute (service_path m) = a_service a))
            || negb (bool_decide (a_current a = a_root a // "current"))
            || negb (bool_decide (a_previous a = a_root a // "previous")))
    (RuntimeError "pending activation belongs to a different layout");;
  raise_if (negb (str_in (a_transaction_id a) [""; transaction_id m]))
    (RuntimeError "activation transaction ownership changed");;
  raise_if (negb (str_in (a_release_version a) [""; release_version m]))
    (RuntimeError "activation transaction release version changed");;
  raise_if (match a_release_dir a with
            | Some d => negb (bool_decide (absolute (release_dir m) = d))
            | None => false
            end) (RuntimeError "activation transaction release path changed").

Definition validate_invocation (f : fs) (a : args) (m : manifest) (allow_missing : bool)
    (directory : path) : res unit :=
  check_ownership a m;;
  old ← match old_release m with
        | Some old => p ← locate_release f old []; Ok (bool_decide (is_Some p))
        | None => Ok true
        end;
  raise_if (negb old) (RuntimeError "activation rollback release identity changed");;
  candidate ← locate_release f (candidate_release m)
    [candidate_retired (a_root a) m; candidate_parked directory];
  raise_if (negb (bool_decide (is_Some candidate)) && negb allow_missing)
    (RuntimeError "activation candidate release identity changed");;
  cv ← view_current f a m;
  check_current m allow_missing cv;;
  pv ← view_previous f a m;
  check_previous_link m pv;;
  check_configs f a m.

(** ** Building blocks that change the file system *)

(** A new file with its mode and bytes, on the disk. *)
Definition write_new (p : path) (mode : Z) (value : string) : M unit :=
  create p mode;; chmod p mode;; write_all p value;; fsync_file p.

(** [_write_new_private] *)
Definition write_new_private (p : path) (value : string) : M unit := write_new p 384 value.

Definition temporary_for (p : path) : M path :=
  t ← token_hex; mret (parent p // tmp_name (basename p) t).

Definition unlink_quietly (p : path) : M unit := catch_missing (unlink p) (mret tt).

(** [_replace_private] *)
Definition replace_private (p : path) (value : string) : M unit :=
  t ← temporary_for p;
  finally (write_new_private t value;; rename t p;; fsync_directory (parent p))
    (unlink_quietly t).

(** [_replace_symlink] *)
Definition replace_symlink (p : path) (raw : string) : M unit :=
  t ← temporary_for p;
  finally (symlink raw t;; rename t p;; fsync_directory (parent p)) (unlink_quietly t).

(** [_rename_and_fsync] *)
Definition rename_and_fsync (s d : path) : M unit :=
  rename s d;;
  fsync_directory (parent s);;
  if bool_decide (parent d = parent s) then mret tt else fsync_directory (parent d).

Definition matches (p : path) (r : release) : M bool := reading (λ f, release_matches f p r).
Definition present (p : path) : M bool := reading (λ f, Ok (lexists f p)).

(** ** [activate_files] *)

(** The old release goes to the place it is kept at. *)
Definition park_old (m : manifest) : M unit :=
  match old_release m with
  | Some old =>
      if String.eqb (source old) (target old) then mret tt else
      let s := absolute (source old) in
      let t := absolute (target old) in
      here ← matches s old;
      if here : bool then
        taken ← present t;
        guard_not taken (RuntimeError "activation rollback quarantine already exists");;
        rename_and_fsync s t
      else
        there ← matches t old;
        guard_not (negb there) (RuntimeError "activation rollback release is missing")
  | None => mret tt
  end.

(** The candidate goes to the directory of its version. *)
Definition place_candidate (m : manifest) : M unit :=
  let c := candidate_release m in
  let s := absolute (source c) in
  let t := absolute (target c) in
  there ← matches t c;
  if there : bool then mret tt else
  here ← matches s c;
  guard_not (negb here) (RuntimeError "activation candidate release is missing");;
  taken ← present t;
  guard_not taken (RuntimeError "activation candidate destination changed");;
  rename_and_fsync s t.

Definition activate_files (a : args) : M unit :=
  m ← read_manifest (a_root a) (transaction_directory (a_root a));
  reading (λ f, validate_invocation f a m false (transaction_directory (a_root a)));;
  guard_not (negb (bool_decide (m_phase m = Linking)))
    (RuntimeError "activation transaction is not linking");;
  park_old m;;
  place_candidate m;;
  (if String.eqb (old_target m) "" then mret tt else replace_symlink (a_previous a) (old_target m));;
  replace_symlink (a_current a) (release_dir m);;
  ok ← matches (absolute (target (candidate_release m))) (candidate_release m);
  guard_not (negb ok) (RuntimeError "activation candidate release changed after link takeover").

(** ** [restore_files] *)

(** Something else is where the old release was: the candidate link, or the
    candidate itself, which goes into the transaction's directory. *)
Definition clear_old_source (a : args) (directory : path) (m : manifest) (s : path) : M unit :=
  node ← reading (λ f, Ok (f !! s));
  match node with
  | None => mret tt
  | Some n =>
      if is_link n && bool_decide (s = a_current a) then unlink s;; fsync_directory (parent s) else
      c ← matches s (candidate_release m);
      guard_not (negb c) (RuntimeError "activation candidate release changed");;
      let retired := candidate_parked directory in
      done ← matches retired (candidate_release m);
      if done : bool then mret tt else
      taken ← present retired;
      guard_not taken (RuntimeError "activation candidate retirement path exists");;
      rename_and_fsync s retired
  end.

(** The old release comes back. *)
Definition unpark_old (a : args) (directory : path) (m : manifest) : M unit :=
  match old_release m with
  | Some old =>
      if String.eqb (source old) (target old) then mret tt else
      let s := absolute (source old) in
      let t := absolute (target old) in
      here ← matches s old;
      if here : bool then mret tt else
      there ← matches t old;
      guard_not (negb there) (RuntimeError "activation rollback release is missing");;
      clear_old_source a directory m s;;
      rename_and_fsync t s
  | None => mret tt
  end.

(** A link that was not there is removed. *)
Definition remove_link (p : path) (e : exn) : M unit :=
  node ← reading (λ f, Ok (f !! p));
  match node with
  | None => mret tt
  | Some n => guard_not (negb (is_link n)) e;; unlink p;; fsync_directory (parent p)
  end.

Definition restore_current (a : args) (m : manifest) : M unit :=
  match kind (current m) with
  | Symlink => replace_symlink (a_current a) (link_target (current m))
  | Missing => remove_link (a_current a) (RuntimeError "current release path changed during rollback")
  | Directory =>
      let bring_back :=
        if bool_decide (absolute (old_target m) = a_current a) then mret tt
        else rename_and_fsync (absolute (old_target m)) (a_current a) in
      node ← reading (λ f, Ok (f !! a_current a));
      match node with
      | None => bring_back
      | Some (Lnk _) =>
          unlink (a_current a);; fsync_directory (parent (a_current a));; bring_back
      | Some (Dir _ _ _) => mret tt
      | Some _ => raise (RuntimeError "legacy current path changed during rollback")
      end
  end.

Definition restore_previous (a : args) (m : manifest) : M unit :=
  match kind (previous m) with
  | Symlink => replace_symlink (a_previous a) (link_target (previous m))
  | _ => remove_link (a_previous a) (RuntimeError "previous release path changed during rollback")
  end.

(** [_restore_configuration] *)
Definition restore_configuration (destination directory : path) (b : backup) : M unit :=
  match saved b with
  | None =>
      node ← reading (λ f, Ok (f !! destination));
      match node with
      | None => mret tt
      | Some n =>
          guard_not (match n with Reg _ o _ _ => negb (o =? uid)%Z | _ => true end)
            (PermissionError "activation configuration destination is unsafe");;
          unlink destination;; fsync_directory (parent destination)
      end
  | Some (_, mode) =>
      value ← reading (λ f, read_private f (directory // backup_name b) MAX_CONFIG_BYTES);
      t ← temporary_for destination;
      finally (write_new t mode value;; rename t destination;; fsync_directory (parent destination))
        (unlink_quietly t)
  end.

(** [_staged_config_metadata] *)
Definition staged_config_metadata (f : fs) (p : path) : res ((string * Z) * ident * nat) :=
  let unsafe := PermissionError "activation configuration publication is unsafe" in
  '(i, o, m, links, c) ← open_regular f p unsafe;
  raise_if (negb (o =? uid) || negb (Nat.eqb links 1 || Nat.eqb links 2) || negb (unshared m)
            || (MAX_CONFIG_BYTES <? len c))%Z unsafe;;
  Ok (sha256 c, m, i, links).

(** The same, [None] when the file is missing. *)
Definition staged_if_any (f : fs) (p : path) : res (option ((string * Z) * ident * nat)) :=
  match staged_config_metadata f p with
  | Err FileNotFoundError => Ok None
  | r => Some <$> r
  end.

Definition is_desired (x : (string * Z) * ident * nat) (d : desired) : bool :=
  let '(meta, i, _) := x in
  bool_decide (meta = desired_content d) && config_identity_matches (Some i) d.

(** One file of [_cleanup_config_staging]. *)
Definition cleanup_staging (destination : path) (id kind : string) (want : option desired) : M unit :=
  let '(src, secured) := config_staging_paths destination id kind in
  sec ← reading (λ f, staged_if_any f secured);
  sou ← reading (λ f, staged_if_any f src);
  (match sou with
   | None => mret tt
   | Some ((_, mode), i, links) =>
       let draft := Nat.eqb links 1 && (mode =? 384)%Z in
       match want with
       | None => guard_not (negb draft)
                   (PermissionError "activation unjournaled configuration staging is unsafe")
       | Some d =>
           guard_not (match sou with Some x => negb (is_desired x d) | None => false end
                      && (negb draft || match sec with Some x => negb (is_desired x d) | None => false end))
             (RuntimeError "activation configuration staging ownership changed")
       end;;
       unlink src;; fsync_directory (parent src)
   end);;
  match sec with
  | None => mret tt
  | Some x =>
      guard_not (match want with Some d => negb (is_desired x d) | None => true end)
        (RuntimeError "activation configuration publication ownership changed");;
      unlink secured;; fsync_directory (parent destination)
  end.

(** [_cleanup_config_staging] *)
Definition cleanup_config_staging (m : manifest) : M unit :=
  cleanup_staging (absolute (env_path m)) (transaction_id m) "env" (desired_env m);;
  cleanup_staging (absolute (service_path m)) (transaction_id m) "service" (desired_service m).

Definition restore_files (a : args) : M unit :=
  let directory := transaction_directory (a_root a) in
  m ← read_manifest (a_root a) directory;
  reading (λ f, validate_invocation f a m true directory);;
  guard_not (negb (bool_decide (m_phase m = RollingBack)))
    (RuntimeError "activation transaction is not rolling back");;
  unpark_old a directory m;;
  restore_current a m;;
  restore_previous a m;;
  cleanup_config_staging m;;
  restore_configuration (absolute (env_path m)) directory (env m);;
  restore_configuration (absolute (service_path m)) directory (service m).

(** ** [record] *)

Record record_args := mkRecordArgs {
  ra_phase : string;
  ra_hub_kind : string;
  ra_hub_data_dir : string;
  ra_hub_id : string;
  ra_host_identity : string;
  ra_operation_id : string;
  ra_snapshot : string;
  ra_fence_device : string;
  ra_fence_inode : string;
  ra_guard_id : string;
  ra_guard_device : string;
  ra_guard_inode : string;
  ra_authority_pending : string;
}.

Definition rolling_back_name (s : string) : bool :=
  str_in s ["rolling-back"; "rolled-back"; "rollback-healthy"].

(** The phase and where the rollback started. *)
Definition advance (m : manifest) (next : phase) : res manifest :=
  if bool_decide (next = m_phase m) then Ok m else
  raise_if (negb (in_phases next (TRANSITIONS (m_phase m))))
    (RuntimeError "activation transaction phase transition is invalid");;
  let m' := m {{ m_phase := next }} in
  Ok (if bool_decide (next = RollingBack) then m' {{ rollback_from := Some (m_phase m) }} else m').

Definition coordinate (s : string) (e : exn) : res Z :=
  match int_of_string s with Err (ValueError _) => Err e | r => r end.

(** [int(s or 0)] *)
Definition coordinate_or_zero (s : string) (e : exn) : res Z :=
  if String.eqb s "" then Ok 0%Z else coordinate s e.

(** The hub that the arguments name, checked against the files of the hub. *)
Definition hub_of_args (f : fs) (r : record_args) (intent : string) : res hub :=
  let e := RuntimeError "activation transaction Hub coordinates are invalid" in
  fd ← coordinate_or_zero (ra_fence_device r) e;
  fi ← coordinate_or_zero (ra_fence_inode r) e;
  let dir := absolute (ra_hub_data_dir r) in
  let snap := absolute (ra_snapshot r) in
  i ← safe_text (PStr (ra_hub_id r)) "Hub id" 240;
  h ← safe_text (PStr (ra_host_identity r)) "host identity" 240;
  o ← safe_text (PStr (ra_operation_id r)) "operation id" 128;
  let hub d n := mkHub (ra_hub_kind r) (str dir) i h o (str snap) d n in
  let or_one z := if (z =? 0)%Z then 1%Z else z in
  validate_hub_metadata (Some (hub (or_one fd) (or_one fi))) intent;;
  raise_if (negb (String.eqb (ra_hub_data_dir r) (str dir)) || negb (String.eqb (ra_snapshot r) (str snap)))
    (RuntimeError "activation transaction Hub path is invalid");;
  owned_directory f dir (λ _, true) (PermissionError "activation Team Hub directory is unsafe");;
  owned_directory f (dir // "maintenance-backups") (λ _, true)
    (PermissionError "activation Team Hub directory is unsafe");;
  fence ← lstat f (dir // "maintenance-fence.json");
  let unsafe := PermissionError "activation Team Hub fence is unsafe" in
  match fence with
  | Reg id owner mode _ =>
      raise_if (negb (owner =? uid) || negb (Nat.eqb (nlink f id) 1) || negb (mode =? 384))%Z unsafe;;
      raise_if (negb ((fd =? 0) && (fi =? 0))
                && (negb (fd =? device id) || negb (fi =? inode id)))%Z
        (RuntimeError "activation Team Hub fence ownership changed");;
      let hub := hub (device id) (inode id) in
      validate_hub_metadata (Some hub) intent;; Ok hub
  | _ => Err unsafe
  end.

(** The same hub, its fence apart. *)
Definition without_fence (h : hub) : hub := h {{ fence_device := 0%Z; fence_inode := 0%Z }}.

Definition record_hub (f : fs) (r : record_args) (from next : phase) (m : manifest) : res manifest :=
  if negb (String.eqb (ra_hub_kind r) "") then
    h ← hub_of_args f r (intent m);
    raise_if (match m_hub m with
              | Some old =>
                  negb (bool_decide (old = h))
                  && negb (bool_decide (from = Fencing) && in_phases next [Fenced; RollingBack]
                           && bool_decide (without_fence old = without_fence h))
              | None => false
              end) (RuntimeError "activation Team Hub ownership changed");;
    Ok (m {{ m_hub := Some h }})
  else
    raise_if (negb (forallb (String.eqb "")
        [ra_hub_data_dir r; ra_hub_id r; ra_host_identity r; ra_operation_id r; ra_snapshot r;
         ra_fence_device r; ra_fence_inode r]))
      (RuntimeError "activation transaction Hub metadata has no kind");;
    Ok m.

Definition record_guard (r : record_args) (m : manifest) : res manifest :=
  if negb (String.eqb (ra_guard_id r) "") then
    let e := RuntimeError "activation transaction guard coordinates are invalid" in
    i ← safe_text (PStr (ra_guard_id r)) "guard id" 64;
    d ← coordinate (ra_guard_device r) e;
    n ← coordinate (ra_guard_inode r) e;
    let g := mkGuard i d n in
    validate_guard_metadata (Some g);;
    raise_if (match m_guard m with Some old => negb (bool_decide (old = g)) | None => false end)
      (RuntimeError "activation Team Hub guard ownership changed");;
    Ok (m {{ m_guard := Some g }})
  else
    raise_if (negb (String.eqb (ra_guard_device r) "" && String.eqb (ra_guard_inode r) ""))
      (RuntimeError "activation transaction guard coordinates have no id");;
    Ok m.

Definition record_authority (r : record_args) (m : manifest) : manifest :=
  if String.eqb (ra_authority_pending r) "unchanged" then m
  else m {{ authority_pending := String.eqb (ra_authority_pending r) "true" }}.

(** What [record] makes of the manifest. *)
Definition recorded (f : fs) (r : record_args) (m : manifest) : res manifest :=
  next ← or_raise (phase_of (ra_phase r)) (RuntimeError "activation transaction phase is invalid");
  m1 ← advance m next;
  m2 ← record_hub f r (m_phase m) next m1;
  m3 ← record_guard r m2;
  let m4 := record_authority r m3 in
  validate_hub_metadata (m_hub m4) (intent m4);;
  validate_guard_metadata (m_guard m4);;
  raise_if (in_phases (m_phase m) [Committed; RollbackHealthy] && negb (bool_decide (m4 = m)))
    (RuntimeError "terminal activation transaction metadata is immutable");;
  Ok m4.

Definition record (a : args) (r : record_args) : M (option (Z * Z)) :=
  let directory := transaction_directory (a_root a) in
  m ← read_manifest (a_root a) directory;
  reading (λ f, validate_invocation f a m (rolling_back_name (ra_phase r)) directory);;
  m' ← reading (λ f, recorded f r m);
  reading (λ f, validate_invocation f a m' (rolling_back_name (ra_phase r)) directory);;
  replace_private (directory // "manifest.json") (canonical m');;
  mret (if String.eqb (ra_hub_kind r) "" then None
        else (λ h, (fence_device h, fence_inode h)) <$> m_hub m').

(** ** [replace_config] *)

(** [_open_config_staging_source] *)
Definition open_staging_source (f : fs) (p : path) : res (ident * string) :=
  let unsafe := PermissionError "activation configuration staging file is unsafe" in
  '(i, o, m, links, c) ← open_regular f p unsafe;
  raise_if (negb (o =? uid) || negb (Nat.eqb links 1) || negb (unshared m)
            || (MAX_CONFIG_BYTES <? len c))%Z unsafe;;
  Ok (i, c).

(** [_unlink_if_same_file] *)
Definition unlink_if_same (p : path) (i : ident) : M unit :=
  node ← reading (λ f, Ok (f !! p));
  if bool_decide (node ≫= node_ident = Some i) then unlink p else mret tt.

(** [_publish_staged_config] *)
Definition publish_staged_config (staged src destination : path) (d : desired) : M unit :=
  x ← reading (λ f, staged_config_metadata f staged);
  guard_not (negb (is_desired x d))
    (RuntimeError "activation staged configuration does not match its journal");;
  unlink_if_same src x.1.2;;
  fsync_directory (parent src);;
  (if bool_decide (parent staged = parent src) then mret tt else fsync_directory (parent staged));;
  on_error (rename staged destination)
    (s ← present staged; t ← present src;
     if (s : bool) && negb t then rename staged src;; fsync_directory (parent src) else mret tt);;
  fsync_directory (parent destination);;
  ok ← reading (λ f, config_path_matches_desired f destination d);
  guard_not (negb ok) (RuntimeError "activation configuration changed after publication").

Inductive config_kind := Env | Service.
#[global] Instance config_kind_eq_dec : EqDecision config_kind.
Proof. solve_decision. Defined.

Definition config_name (k : config_kind) : string :=
  match k with Env => "env" | Service => "service" end.
Definition config_path (m : manifest) (k : config_kind) : path :=
  absolute match k with Env => env_path m | Service => service_path m end.
Definition config_desired (m : manifest) (k : config_kind) : option desired :=
  match k with Env => desired_env m | Service => desired_service m end.
Definition config_history (m : manifest) (k : config_kind) : list (option string) :=
  match k with Env => observed_env m | Service => observed_service m end.

(** The journal of the write: what is wanted, and its digest in the history. *)
Definition journaled (m : manifest) (k : config_kind) (d : desired) : manifest :=
  let h := config_history m k in
  let h' := if bool_decide (Some (d_sha256 d) ∈ h) then h else (h ++ [Some (d_sha256 d)])%list in
  match k with
  | Env => m {{ desired_env := Some d; observed_env := h' }}
  | Service => m {{ desired_service := Some d; observed_service := h' }}
  end.

Definition config_frozen : list phase :=
  [Committing; Committed; RollingBack; RolledBack; RollbackHealthy].

Definition has_mode (d : option desired) (mode : Z) : bool :=
  match d with Some d => (d_mode d =? mode)%Z | None => false end.

(** [replace_config]; the mode is given in octal on the command line. *)
Definition replace_config (a : args) (k : config_kind) (src : path) (mode : Z) : M unit :=
  let directory := transaction_directory (a_root a) in
  m ← read_manifest (a_root a) directory;
  reading (λ f, validate_invocation f a m false directory);;
  guard_not (in_phases (m_phase m) config_frozen)
    (RuntimeError "activation configuration cannot change in this phase");;
  let destination := config_path m k in
  let '(expected, secured) := config_staging_paths destination (transaction_id m) (config_name k) in
  guard_not (negb (bool_decide (src = expected)))
    (RuntimeError "activation configuration staging path is invalid");;
  guard_not (negb ((mode =? 384) || bool_decide (k = Service) && (mode =? 420)))%Z
    (RuntimeError "activation configuration mode is invalid");;
  has_source ← present src;
  has_secured ← present secured;
  let again := config_desired m k in
  if negb has_source then
    guard_not (negb (has_mode again mode))
      (RuntimeError "activation configuration staging file is missing");;
    match again with
    | None => mret tt
    | Some d =>
        if has_secured : bool then publish_staged_config secured src destination d else
        ok ← reading (λ f, config_path_matches_desired f destination d);
        guard_not (negb ok) (RuntimeError "activation configuration publication is incomplete");;
        fsync_directory (parent destination)
    end
  else if has_secured : bool then
    guard_not (negb (has_mode again mode))
      (RuntimeError "activation configuration publication path exists");;
    match again with
    | None => mret tt
    | Some d => publish_staged_config secured src destination d
    end
  else
    x ← reading (λ f, open_staging_source f src);
    let d := mkDesired (sha256 x.2) mode (str src) (device x.1) (inode x.1) in
    replace_private (directory // "manifest.json") (canonical (journaled m k d));;
    chmod src mode;; fsync_file src;; link src secured;; fsync_directory (parent src);;
    same ← reading (λ f, n ← lstat f secured; Ok (bool_decide (node_ident n = Some x.1)));
    guard_not (negb same) (RuntimeError "activation configuration staging identity changed");;
    publish_staged_config secured src destination d.

(** ** [begin] *)

Record begin_args := mkBeginArgs {
  b_release_dir : path;
  b_release_version : string;
  b_old_target : option path;
  b_old_source : option path;
  b_candidate_source : path;
  b_service_state : string;
  b_service_enabled : bool;
  b_legacy_service_state : string;
  b_legacy_service_enabled : bool;
  b_prior_port : Z;
  b_prior_bind_address : string;
  b_intent : string;
  b_client_binding : string;
}.

(** [shutil.rmtree(p, ignore_errors=True)] *)
Definition ignoring_errors (m : M unit) : M unit := λ w,
  match m w with
  | (w', Err Killed) => (w', Err Killed)
  | (w', _) => (w', Ok tt)
  end.

(** [GC_DIRECTORY_RE], [BEGIN_DIRECTORY_RE] *)
Definition gc_directory (n : string) : bool :=
  match after ".activation-transaction-gc-activation-" n with Some t => hex_text 24 t | None => false end.
Definition begin_directory (n : string) : bool :=
  match after ".activation-transaction." n with
  | Some r => Nat.eqb (String.length r) 28 && hex_text 24 (prefix_of 24 r)
              && String.eqb (String.substring 24 4 r) ".tmp"
  | None => false
  end.

(** [_remove_private_transaction_directory] *)
Definition remove_private_transaction_directory (d : path) : M unit :=
  let unsafe := PermissionError "retired activation transaction is unsafe" in
  reading (λ f, owned_directory f d (λ m, m =? 448)%Z unsafe);;
  l ← reading (λ f, Ok (scandir f d));
  for_each l (λ n,
    node ← reading (λ f, lstat f (d // n));
    if String.eqb n "candidate.retired" then
      guard_not (match node with Dir _ o _ => negb (o =? uid)%Z | _ => true end)
        (PermissionError "retired activation candidate is unsafe");;
      rmtree (d // n)
    else
      links ← reading (λ f, Ok (match file_ident node with Some i => nlink f i | None => O end));
      guard_not (negb (str_in n ["manifest.json"; "env.backup"; "service.backup"] || manifest_temp n)
        || match node with
           | Reg _ o m _ => negb (o =? uid) || negb (Nat.eqb links 1) || negb (m =? 384)
           | _ => true
           end)%Z unsafe;;
      unlink (d // n));;
  rmdir d.

(** [_cleanup_retired_transactions] *)
Definition cleanup_retired_transactions (root : path) : M unit :=
  l ← reading (λ f, Ok (filter (λ n, gc_directory n || begin_directory n = true) (scandir f root)));
  for_each l (λ n, remove_private_transaction_directory (root // n));;
  if l is [] then mret tt else fsync_directory root.

(** [_copy_config], [_configuration] *)
Definition configuration (p copy : path) (allowed : Z → bool) : M backup :=
  node ← reading (λ f, Ok (f !! p));
  match node with
  | None => mret (mkBackup (basename copy) None)
  | Some n =>
      let unsafe := PermissionError "configuration path is unsafe" in
      mode ← reading (λ _, match n with
                           | Reg _ o m _ => raise_if (negb (o =? uid)%Z) unsafe;; Ok m
                           | _ => Err unsafe
                           end);
      value ← reading (λ f, read_owned_regular f p MAX_CONFIG_BYTES);
      write_new_private copy value;;
      guard_not (negb (allowed mode))
        (PermissionError "configuration mode cannot be restored safely");;
      mret (mkBackup (basename copy) (Some (sha256 value, mode)))
  end.

Definition begin_paths_ok (a : args) (b : begin_args) : bool :=
  let releases := a_root a // "releases" in
  bool_decide (a_current a = a_root a // "current")
  && bool_decide (a_previous a = a_root a // "previous")
  && is_version (b_release_version b)
  && bool_decide (b_release_dir b = releases // b_release_version b)
  && bool_decide (parent (b_candidate_source b) = releases)
  && negb (bool_decide (b_candidate_source b = b_release_dir b))
  && match b_old_target b with Some t => bool_decide (parent t = releases) | None => true end
  && match b_old_source b with
     | Some s => bool_decide (parent s = releases) || bool_decide (s = a_current a)
     | None => true
     end
  && Bool.eqb (bool_decide (b_old_source b = None)) (bool_decide (b_old_target b = None)).

(** The current release is the one to roll back to. *)
Definition check_rollback (f : fs) (a : args) (b : begin_args) (st : link_state)
    (old : option release) : res unit :=
  match kind st, old with
  | Missing, Some _ =>
      Err (RuntimeError "activation rollback identity exists without a current release")
  | Missing, None => Ok tt
  | _, None => Err (RuntimeError "activation current release has no rollback identity")
  | Directory, Some r =>
      ok ← and_then (bool_decide (b_old_source b = Some (a_current a)))
             (release_matches f (a_current a) r);
      raise_if (negb ok) (RuntimeError "activation legacy current rollback identity changed")
  | Symlink, Some r =>
      ok ← release_matches f (resolve (a_current a) (link_target st)) r;
      raise_if (negb ok) (RuntimeError "activation current rollback identity changed")
  end.

(** The version the candidate carries. *)
Definition check_candidate_version (f : fs) (b : begin_args) : res unit :=
  text ← read_owned_regular f (b_candidate_source b // "VERSION") 4096;
  match utf8_decode text with
  | None => Err (RuntimeError "activation candidate version is invalid")
  | Some s => raise_if (negb (String.eqb (strip s) (b_release_version b)))
                (RuntimeError "activation candidate release version changed")
  end.

Definition opt_path (p : option path) : string := match p with Some p => str p | None => "" end.

(** The first manifest of a transaction. *)
Definition new_manifest (f : fs) (a : args) (b : begin_args) (id : string) (env service : backup)
    : res manifest :=
  cur ← link_state_of f (a_current a) true;
  old ← release_identity f (b_old_source b) (b_old_target b);
  check_rollback f a b cur old;;
  cand ← release_identity f (Some (b_candidate_source b)) (Some (b_release_dir b));
  check_candidate_version f b;;
  candidate ← or_raise cand (RuntimeError "unreachable");
  prev ← link_state_of f (a_previous a) false;
  prevr ← linked_release_identity f (a_previous a);
  Ok (mkManifest id (b_release_version b) (str (b_release_dir b)) candidate
    (opt_path (b_old_target b)) old cur prev prevr (str (a_env a)) env (str (a_service a)) service
    (b_service_state b) (b_service_enabled b) (b_legacy_service_state b) (b_legacy_service_enabled b)
    (b_prior_port b) (b_prior_bind_address b) (b_intent b) (b_client_binding b)
    None None Prepared None None None false [fst <$> saved env] [fst <$> saved service]).

Definition begin (a : args) (b : begin_args) : M string :=
  let root := a_root a in
  reading (λ f, validate_root f root;; validate_releases_root f root);;
  cleanup_retired_transactions root;;
  reading (λ _, safe_text (PStr (b_release_version b)) "version" 128);;
  guard_not (negb (begin_paths_ok a b)) (RuntimeError "activation transaction paths are invalid");;
  let final := transaction_directory root in
  pending ← present final;
  guard_not pending (RuntimeError "an activation transaction is already pending");;
  t ← token_hex;
  let temporary := root // (".activation-transaction." +:+ t +:+ ".tmp") in
  mkdir temporary 448;; chmod temporary 448;;
  on_error (
    env ← configuration (a_env a) (temporary // "env.backup") (λ m, m =? 384)%Z;
    service ← configuration (a_service a) (temporary // "service.backup") backup_mode;
    u ← token_hex;
    m ← reading (λ f, new_manifest f a b ("activation-" +:+ u) env service);
    write_new_private (temporary // "manifest.json") (canonical m);;
    fsync_directory temporary;;
    verified ← read_manifest root temporary;
    reading (λ f, validate_invocation f a verified false temporary);;
    rename temporary final;; fsync_directory root;;
    mret (transaction_id m))
    (ignoring_errors (rmtree temporary)).

(** ** [finish] *)

(** [Path.exists] *)
Definition exists_path (f : fs) (p : path) : bool :=
  match f !! p with
  | None => false
  | Some (Lnk raw) => lexists f (resolve p raw)
  | Some _ => true
  end.

(** The candidate of an activation that was rolled back goes into the
    transaction's directory, to be removed with it. *)
Definition park_candidate (root directory : path) (m : manifest) : M unit :=
  let parked := candidate_parked directory in
  p ← reading (λ f, locate_release f (candidate_release m) [candidate_retired root m; parked]);
  match p with
  | None => mret tt
  | Some p =>
      if bool_decide (p = parked) then mret tt else
      taken ← present parked;
      guard_not taken (RuntimeError "activation candidate retirement path exists");;
      rename_and_fsync p parked
  end.

Definition same_names (l k : list string) : bool :=
  forallb (λ n, str_in n k) l && forallb (λ n, str_in n l) k.

Definition settle (a : args) (directory retired : path) (m : manifest) : M unit :=
  reading (λ f, validate_invocation f a m (bool_decide (m_phase m = RollbackHealthy)) directory);;
  guard_not (negb (in_phases (m_phase m) [Committed; RollbackHealthy]))
    (RuntimeError "activation transaction is not terminal");;
  (if bool_decide (m_phase m = RollbackHealthy)
   then park_candidate (a_root a) directory m else mret tt);;
  cleanup_config_staging m;;
  strange ← reading (λ f, Ok (negb (same_names (scandir f directory)
    (["manifest.json"]
     ++ (if saved (env m) then ["env.backup"] else [])
     ++ (if saved (service m) then ["service.backup"] else [])
     ++ (if bool_decide (m_phase m = RollbackHealthy) && exists_path f (candidate_parked directory)
         then ["candidate.retired"] else [])))));
  guard_not strange (RuntimeError "activation transaction directory contains unexpected files");;
  (if bool_decide (directory = retired) then mret tt else
   taken ← present retired;
   guard_not taken (RuntimeError "activation transaction retirement path exists");;
   rename directory retired;; fsync_directory (a_root a));;
  cleanup_retired_transactions (a_root a).

Definition finish (a : args) : M unit :=
  let root := a_root a in
  reading (λ f, validate_root f root;; validate_releases_root f root);;
  guard_not (negb (is_transaction_id (a_transaction_id a)))
    (RuntimeError "activation transaction id is invalid");;
  let active := transaction_directory root in
  let retired := root // (".activation-transaction-gc-" +:+ a_transaction_id a) in
  live ← present active;
  if live : bool then m ← read_manifest root active; settle a active retired m else
  left ← present retired;
  if negb left then fsync_directory root else
  m ← catch_missing (m ← read_manifest root retired; mret (Some m)) (mret None);
  match m with
  | Some m => settle a retired retired m
  | None => remove_private_transaction_directory retired;; fsync_directory root
  end.

(** ** [load] *)

Definition truth (b : bool) : string := if b then "true" else "false".

(** Whether links or services may have been touched. *)
Definition activated (m : manifest) : bool :=
  let p := if in_phases (m_phase m) rolling then default Prepared (rollback_from m) else m_phase m in
  in_phases p [Linking; Linked; Stopping; Stopped; Fencing; Fenced; Authorizing; Authority;
               CandidateStarting; CandidateHealthy; Committing; Committed; RollingBack].

Definition load (a : args) : M (list string) :=
  let directory := transaction_directory (a_root a) in
  m ← read_manifest (a_root a) directory;
  reading (λ f, validate_invocation f a m true directory);;
  p ← reading (λ f, locate_release f (candidate_release m)
        [candidate_retired (a_root a) m; candidate_parked directory]);
  let h g := match m_hub m with Some h => g h | None => "" end in
  let gd g := match m_guard m with Some x => g x | None => "" end in
  let fields :=
    [transaction_id m; release_version m; release_dir m; phase_name (m_phase m);
     match rollback_from m with Some p => phase_name p | None => "" end;
     old_target m; match old_release m with Some r => source r | None => "" end;
     kind_name (kind (current m)); link_target (current m);
     kind_name (kind (previous m)); link_target (previous m);
     truth (if saved (env m) then true else false); str (directory // backup_name (env m));
     truth (if saved (service m) then true else false); str (directory // backup_name (service m));
     service_state m; truth (service_enabled m);
     legacy_service_state m; truth (legacy_service_enabled m);
     intent m; client_binding m;
     h hub_kind; h data_dir; h hub_id; h host_identity; h operation_id; h snapshot;
     h (λ x, pretty (fence_device x)); h (λ x, pretty (fence_inode x));
     gd guard_id; gd (λ x, pretty (guard_device x)); gd (λ x, pretty (guard_inode x));
     truth (authority_pending m); truth (activated m);
     match p with Some p => str p | None => "" end;
     pretty (prior_port m); prior_bind_address m; "activation-end"] in
  guard_not (negb (forallb one_line fields))
    (RuntimeError "activation transaction output field is invalid");;
  mret fields.
End commands.
