(* ===== verification/ActivationReplace.v ===== *)
(** * The journal of a release activation: replacing at once

    [_replace_private], [_replace_symlink] and [_restore_configuration] write a
    temporary beside the entry and rename it.  Whatever interrupts them, the
    entry is the old one or the new one, and at most the temporary is left. *)
From S2P Require Import Prelude PyValues FileSystem FileLogic ActivationOps.

Open Scope string_scope.

Section replace.
Context {host : Host} {laws : HostLaws host}.
Context (staged : path → bool) (staged_temp : ∀ p, staged p = true → temp p = true).

Notation holds := (holds staged).
Notation atomic := (atomic staged).

(** No regular file of [F] has the identity of [n]. *)
Definition fresh (F : fs) (n : node) : Prop :=
  ∀ q i, file_ident n = Some i → F !! q ≫= file_ident ≠ Some i.

(** The temporary [t] is [n] and nothing else has its identity. *)
Record drafted (F : fs) (t : path) (n : node) (w : world) : Prop := {
  dr_holds : holds F w;
  dr_here : files w !! t = Some n;
  dr_lone : lone (files w) t (Some n);
  dr_plain : is_dir n = false;
  dr_fresh : fresh F n;
  dr_ident : ∀ i, file_ident n = Some i → (inode i < next_inode w)%Z;
  dr_temp : temp t = true;
  dr_unused : unused (draws w) t;
  dr_parent : dir_at (files w) (parent t) = true;
}.

Lemma set_comm f s w : set_files f (set_script s w) = set_script s (set_files f w).
Proof. done. Qed.

Lemma drafted_script F t n w s : drafted F t n w → drafted F t n (set_script s w).
Proof. intros []. split; try done. by apply holds_script. Qed.

Lemma drafted_dir F t n w : drafted F t n w → dir_at (files w) t = false.
Proof. intros H. unfold dir_at. rewrite (dr_here _ _ _ _ H). pose proof (dr_plain _ _ _ _ H). by destruct n. Qed.

Lemma dir_at_insert f p n q : p ≠ q → dir_at (<[p := n]> f) q = dir_at f q.
Proof. intros H. unfold dir_at. by rewrite lookup_insert_ne. Qed.

(** The temporary changes. *)
Lemma drafted_put F t n n' w :
  drafted F t n w → file_ident n' = file_ident n → is_dir n' = false →
  (staged t = true → ∃ i c, n' = Reg i uid 384 c) →
  drafted F t n' (set_files (<[t := n']> (files w)) w).
Proof.
  intros D Hi Hn Hs. pose proof (drafted_dir _ _ _ _ D) as Hd. destruct D.
  assert (lone (files w) t (Some n')) as Hl.
  { intros q i Hq H. cbn. rewrite Hi. by apply (dr_lone0 q i Hq H). }
  split; cbn [files next_inode draws set_files]; try done.
  - apply holds_temp_put; try done.
    + by rewrite dr_here0.
    + intros i E. apply dr_ident0. by rewrite <-Hi.
  - by rewrite lookup_insert_eq.
  - intros q i Hq H. rewrite lookup_insert_ne in H by done. exact (Hl q i Hq H).
  - intros q i E. apply dr_fresh0. by rewrite <-Hi.
  - intros i E. apply dr_ident0. by rewrite <-Hi.
  - rewrite dir_at_insert; [done|]. intros E. rewrite <-E in dr_parent0. congruence.
Qed.

(** The temporary goes. *)
Lemma drafted_drop F t n w : drafted F t n w → holds F (set_files (delete t (files w)) w).
Proof.
  intros D. pose proof (drafted_dir _ _ _ _ D) as Hd. destruct D.
  apply holds_temp_drop; try done. by rewrite dr_here0.
Qed.

(** The temporary takes the place of an entry. *)
Lemma drafted_publish F t n w p :
  drafted F t n w → temp p = false → (∀ d m, p = d // m → dir_at F d = true) → dir_at F p = false →
  holds (<[p := n]> F) (set_files (<[p := n]> (delete t (files w))) w).
Proof. intros [] Hp Hpar Hd. by apply holds_publish. Qed.

(** A name for a temporary: nothing has it, and no later one is the same. *)
Record vacant (F : fs) (t : path) (w : world) : Prop := {
  va_holds : holds F w;
  va_none : files w !! t = None;
  va_temp : temp t = true;
  va_unused : unused (draws w) t;
  va_parent : dir_at (files w) (parent t) = true;
}.

Lemma vacant_script F t w s : vacant F t w → vacant F t (set_script s w).
Proof. intros []. split; try done. by apply holds_script. Qed.

Lemma wp_temporary F p w Q C :
  holds F w → temp p = false → dir_at F (parent p) = true →
  (∀ t w', parent t = parent p → vacant F t w' → Q t w') →
  wp (temporary_for p) Q C w.
Proof.
  intros Hw Hp Hd HQ. unfold temporary_for, wp, token_hex, mbind, M_bind, mret, M_ret.
  split; [done|]. set (t := parent p // _). assert (temp t = true) as Ht.
  { unfold t. by rewrite temp_child, tmp_name_temp, orb_true_r. }
  assert (parent t = parent p) as Hpt by (unfold t, parent, child; apply removelast_last).
  apply HQ; [done|]. destruct Hw as [[G1 G2 G3 G4 G5] He Hb Hr].
  assert (temp (parent p) = false) as Htp.
  { destruct p as [|x p _] using rev_ind; [done|]. unfold parent. rewrite removelast_last.
    rewrite temp_app in Hp. by apply orb_false_iff in Hp as [? _]. }
  split; cbn [files next_inode draws].
  - split; try done. split; try done. intros k d n Hk. apply G1. cbn in Hk. lia.
  - apply G1. lia.
  - done.
  - unfold t. apply unused_drawn. lia.
  - rewrite Hpt. unfold dir_at. by rewrite (eqv_lookup _ _ He _ Htp).
Qed.

(** The temporary is there or not. *)
Definition loose (F : fs) (t : path) (w : world) : Prop :=
  vacant F t w ∨ ∃ n, drafted F t n w.

Lemma loose_holds F t w : loose F t w → holds F w.
Proof. intros [[]|[n []]]; done. Qed.

Lemma loose_script F t w s : loose F t w → loose F t (set_script s w).
Proof. intros [H|[n H]]; [left; by apply vacant_script|right; exists n; by apply drafted_script]. Qed.

(** [catch_missing] of a call on an entry that is missing. *)
Lemma wp_unlink_missing t (Q : unit → world → Prop) C w :
  files w !! t = None → (∀ s, Q tt (set_script s w)) → (∀ s, C (set_script s w)) →
  wp (unlink_quietly t) Q C w.
Proof.
  intros Ht HQ HC. unfold wp, unlink_quietly, catch_missing, unlink, change, syscall.
  destruct (script w) as [|[[]|] s] eqn:Es; cbn [files set_script]; unfold lstat; rewrite ?Ht; cbn.
  - rewrite Es. split; [done|]. specialize (HQ []). assert (set_script [] w = w) as E by
      (destruct w; cbn in *; by subst). by rewrite E in HQ.
  - split; [by apply suffix_cons_r|]. split_and!; [done|eexists; left|done].
  - split; [by apply suffix_cons_r|]. split_and!; [done|eexists; left|done].
  - split; [by apply suffix_cons_r|]. apply HQ.
Qed.

Lemma wp_unlink_quietly F t (Q : unit → world → Prop) C w :
  loose F t w → (∀ w', holds F w' → Q tt w') → (∀ w', holds F w' → C w') →
  wp (unlink_quietly t) Q C w.
Proof.
  intros [V|[n D]] HQ HC.
  - apply wp_unlink_missing; [apply V|..]; intros s; [apply HQ|apply HC]; by apply holds_script, V.
  - apply wp_catch_missing. eapply wp_change.
    + unfold lstat. rewrite (dr_here _ _ _ _ D). cbn. by rewrite (dr_plain _ _ _ _ D).
    + intros s. apply HQ. rewrite set_comm. eapply holds_script, drafted_drop, D.
    + intros s. apply HC, holds_script, D.
Qed.

(** ** What comes before the rename *)

(** A link is made. *)
Lemma wp_symlink F t raw w (Q : unit → world → Prop) C :
  vacant F t w → staged t = false →
  (∀ w', drafted F t (Lnk raw) w' → Q tt w') → (∀ w', loose F t w' → C w') →
  wp (symlink raw t) Q C w.
Proof.
  intros V Hs HQ HC. eapply wp_change.
  - unfold enter, lexists. rewrite (va_none _ _ _ V), (va_parent _ _ _ V). done.
  - intros s. apply HQ. assert (t ≠ parent t) as Hne.
    { intros E. pose proof (va_parent _ _ _ V) as H. rewrite <-E in H. unfold dir_at in H.
      by rewrite (va_none _ _ _ V) in H. }
    assert (dir_at (files w) t = false) as Hd by (unfold dir_at; by rewrite (va_none _ _ _ V)).
    rewrite set_comm. apply drafted_script. destruct V.
    split; cbn [files next_inode draws set_files]; try done.
    + apply holds_temp_put; try done; [by rewrite va_none0|congruence].
    + by rewrite lookup_insert_eq.
    + by rewrite dir_at_insert.
  - intros s. apply HC. left. by apply vacant_script.
Qed.

(** A file is made. *)
Lemma wp_create F t mode w (Q : unit → world → Prop) C :
  vacant F t w → (staged t = true → mode = 384%Z) →
  (∀ i m w', drafted F t (Reg i uid m "") w' → (staged t = true → m = 384%Z) → Q tt w') →
  (∀ w', loose F t w' → C w') →
  wp (create t mode) Q C w.
Proof.
  intros V Hs HQ HC. apply wp_syscall; [|intros s; apply HC; left; by apply vacant_script].
  intros s. unfold wp. set (i := new_ident _ _ _). cbn [files next_inode set_script].
  assert (inode i = next_inode w) as Hi by (unfold i, new_ident; by repeat case_match).
  unfold enter, lexists. rewrite (va_none _ _ _ V), (va_parent _ _ _ V). cbn. split; [done|].
  assert (t ≠ parent t) as Hne.
  { intros E. pose proof (va_parent _ _ _ V) as H. rewrite <-E in H. unfold dir_at in H.
    by rewrite (va_none _ _ _ V) in H. }
  assert (dir_at (files w) t = false) as Hd by (unfold dir_at; by rewrite (va_none _ _ _ V)).
  destruct V as [Hw Hn Ht Hu Hp].
  assert (∀ q, files w !! q ≫= file_ident ≠ Some i) as Hfresh.
  { intros q E. destruct (files w !! q) as [n|] eqn:Hq; [|done].
    pose proof (good_inodes _ _ _ _ (holds_good _ _ _ Hw) q n i Hq (file_node_ident n i E)). lia. }
  assert (∀ q, F !! q ≫= file_ident ≠ Some i) as HF.
  { intros q E. pose proof (holds_bounded _ _ _ Hw q i E). lia. }
  apply (HQ i (Z.land mode (Z.lnot umask))).
  - assert (holds F (World (files w) (next_inode w + 1) (draws w) s)) as Hw'.
    { destruct Hw as [[G1 G2 G3 G4 G5] He Hb Hr]. split; try done.
      - split; try done. cbn. intros q n j H1 H2. specialize (G2 q n j H1 H2). lia.
      - cbn. intros q j H. specialize (Hb q j H). lia. }
    split; cbn [files next_inode draws]; try done.
    + apply (holds_temp_put staged F (World (files w) (next_inode w + 1) (draws w) s));
        cbn [files next_inode draws]; try done.
      * by rewrite Hn.
      * intros q j Hq H. cbn. intros [= <-]. by apply (Hfresh q).
      * intros j [= <-]. lia.
      * intros Hst. rewrite (Hs Hst), umask_owner by by left. by eauto.
    + by rewrite lookup_insert_eq.
    + intros q j Hq. rewrite lookup_insert_ne by done. intros H. cbn. intros [= <-].
      by apply (Hfresh q).
    + intros q j [= <-]. apply HF.
    + intros j [= <-]. lia.
    + by rewrite dir_at_insert.
  - intros Hst. rewrite (Hs Hst). by apply umask_owner; left.
Qed.

Lemma wp_chmod F t i m mode c w (Q : unit → world → Prop) C :
  drafted F t (Reg i uid m c) w → (staged t = true → mode = 384%Z) →
  (∀ w', drafted F t (Reg i uid mode c) w' → Q tt w') → (∀ w', loose F t w' → C w') →
  wp (chmod t mode) Q C w.
Proof.
  intros D Hs HQ HC. eapply wp_change.
  - unfold lstat. rewrite (dr_here _ _ _ _ D). done.
  - intros s. apply HQ. rewrite set_comm. apply drafted_script.
    eapply drafted_put; [done..|]. intros H. rewrite (Hs H). by eauto.
  - intros s. apply HC. right. eexists. by apply drafted_script.
Qed.

Lemma wp_write_all F t i m v c w (Q : unit → world → Prop) C :
  drafted F t (Reg i uid m c) w → (staged t = true → m = 384%Z) →
  (∀ w', drafted F t (Reg i uid m (c +:+ v)) w' → Q tt w') → (∀ w', loose F t w' → C w') →
  wp (write_all t v) Q C w.
Proof.
  intros D Hs HQ HC. revert c w D HQ. induction v as [|x v IH]; intros c w D HQ; cbn.
  - apply (wp_ret tt Q C), HQ. by rewrite sapp_nil_r.
  - apply wp_bind. eapply wp_change.
    + unfold lstat. rewrite (dr_here _ _ _ _ D). done.
    + intros s. apply (IH (c +:+ String x "")).
      * rewrite set_comm. apply drafted_script.
        eapply drafted_put; [done..|].
        intros H. rewrite (Hs H). by eauto.
      * intros w'. rewrite sapp_assoc, sapp_cons, sapp_nil_l. apply HQ.
    + intros s. apply HC. right. eexists. by apply drafted_script.
Qed.

(** The temporary has its mode and all its bytes. *)
Lemma wp_write_new F t mode v w (Q : unit → world → Prop) C :
  vacant F t w → (staged t = true → mode = 384%Z) →
  (∀ i w', drafted F t (Reg i uid mode v) w' → Q tt w') → (∀ w', loose F t w' → C w') →
  wp (write_new t mode v) Q C w.
Proof.
  intros V Hs HQ HC. unfold write_new. apply wp_bind. eapply wp_create; [done..| |done].
  intros i m w1 D1 _. apply wp_bind. eapply wp_chmod; [done..| |done].
  intros w2 D2. apply wp_bind. eapply wp_write_all; [done..| |done].
  intros w3 D3. rewrite sapp_nil_l in D3. eapply wp_change.
  - unfold lstat. rewrite (dr_here _ _ _ _ D3). done.
  - intros s. apply (HQ i). assert (set_files (files w3) (set_script s w3) = set_script s w3) as ->
      by (by destruct w3). by apply drafted_script.
  - intros s. apply HC. right. eexists. by apply drafted_script.
Qed.

(** ** The rename *)

(** The entry the temporary is renamed to: a place for a link or a file. *)
Record target_place (F : fs) (p : path) : Prop := {
  tp_temp : temp p = false;
  tp_root : p ≠ [];
  tp_parent : dir_at F (parent p) = true;
  tp_plain : dir_at F p = false;
}.

Lemma temp_parent p : temp p = false → temp (parent p) = false.
Proof.
  destruct p as [|n p _] using rev_ind; [done|]. unfold parent. rewrite removelast_last, temp_app.
  by intros [? _]%orb_false_iff.
Qed.

Lemma wp_rename F t n p w (Q : unit → world → Prop) C :
  drafted F t n w → target_place F p →
  (∀ w', holds (<[p := n]> F) w' → files w' !! t = None → Q tt w') →
  (∀ w', loose F t w' → C w') →
  wp (rename t p) Q C w.
Proof.
  intros D [Hp Hne Hpar Hd] HQ HC.
  assert (t ≠ p) as Htp by (intros ->; destruct D; congruence).
  assert (dir_at (files w) p = false) as Hdw by (by rewrite (holds_dir staged F w p (dr_holds _ _ _ _ D))).
  assert (dir_at (files w) (parent p) = true) as Hpw.
  { rewrite (holds_dir staged F w _ (dr_holds _ _ _ _ D)); [done|]. by apply temp_parent. }
  eapply (wp_change _ (<[p := n]> (delete t (files w)))).
  - unfold rename_files, lstat. rewrite (dr_here _ _ _ _ D), Hpw. cbn.
    pose proof (dr_plain _ _ _ _ D) as Hn.
    assert (match files w !! p with
      | Some (Dir _ _ _) => Err OSError
      | Some m => if bool_decide (is_Some (file_ident n) ∧ file_ident n = file_ident m)
                  then Ok (files w) else Ok (<[p := n]> (delete t (files w)))
      | None => Ok (<[p := n]> (delete t (files w)))
      end = Ok (<[p := n]> (delete t (files w)))) as E.
    { unfold dir_at in Hdw. destruct (files w !! p) as [m|] eqn:Hm; [|done].
      assert (bool_decide (is_Some (file_ident n) ∧ file_ident n = file_ident m) = false) as ->.
      { apply bool_decide_eq_false. intros [[i Hi] E]. rewrite Hi in E.
        apply (dr_lone _ _ _ _ D p i); [done|by rewrite Hm|done]. }
      by destruct m. }
    by destruct n.
  - intros s. rewrite set_comm. apply HQ.
    + apply holds_script. eapply drafted_publish; [done..| |done].
      intros d m ->. unfold parent, child in Hpar. by rewrite removelast_last in Hpar.
    + cbn. by rewrite lookup_insert_ne, lookup_delete_eq.
  - intros s. apply HC. right. eexists. by apply drafted_script.
Qed.

(** The whole: after the temporary is ready, the entry is the old one until the
    rename and the new one from then on. *)
Lemma wp_publish F t n p w (Q : unit → world → Prop) C :
  drafted F t n w → target_place F p →
  (∀ w', holds (<[p := n]> F) w' → files w' !! t = None → Q tt w') →
  (∀ w', loose F t w' → C w') →
  (∀ w', holds (<[p := n]> F) w' → files w' !! t = None → C w') →
  wp (rename t p;; fsync_directory (parent p)) Q C w.
Proof.
  intros D Hp HQ HC HC'. apply wp_bind. eapply wp_rename; [done..| |done].
  intros w1 H1 Ht. assert (dir_at (<[p := n]> F) (parent p) = true) as Hd.
  { destruct Hp as [? Hne Hpar Hd]. rewrite dir_at_insert; [done|].
    intros E. rewrite <-E in Hpar. congruence. }
  eapply wp_change.
  - unfold lstat. rewrite (holds_lookup staged _ w1 (parent p) H1) by apply temp_parent, Hp.
    unfold dir_at in Hd. destruct (<[p:=n]> F !! parent p) as [[]|]; done.
  - intros s. rewrite set_comm. destruct w1. apply HQ; [by apply (holds_script staged _ (World _ _ _ _) s)|done].
  - intros s. apply HC'; [by apply holds_script|done].
Qed.

(** [finally] around it removes a temporary that is left. *)
Lemma wp_finally_publish F t p (m : M unit) w (Q : unit → world → Prop) C (ok : node → Prop) :
  (∀ (Q' : unit → world → Prop) (C' : world → Prop),
    (∀ n w', ok n → holds (<[p := n]> F) w' → files w' !! t = None → Q' tt w') →
    (∀ w', loose F t w' → C' w') →
    (∀ n w', ok n → holds (<[p := n]> F) w' → files w' !! t = None → C' w') →
    wp m Q' C' w) →
  (∀ n w', ok n → holds (<[p := n]> F) w' → Q tt w') →
  (∀ w', holds F w' → C w') → (∀ n w', ok n → holds (<[p := n]> F) w' → C w') →
  wp (finally m (unlink_quietly t)) Q C w.
Proof.
  intros Hm HQ HC HC'. apply wp_finally, Hm.
  - intros n w' Hn H Ht. apply wp_unlink_missing; [done|..]; intros s.
    + eapply HQ; [done|]. by apply holds_script.
    + eapply HC'; [done|]. by apply holds_script.
  - intros w' H. split; [by eapply HC, loose_holds|]. by eapply wp_unlink_quietly.
  - intros n w' Hn H Ht. split; [by eapply HC'|].
    apply wp_unlink_missing; [done|..]; intros s; (eapply HC'; [done|]; by apply holds_script).
Qed.

(** ** The operations *)

Lemma atomic_replace_symlink F p raw :
  target_place F p → (∀ t, parent t = parent p → staged t = false) →
  atomic F (replace_symlink p raw) (<[p := Lnk raw]> F).
Proof.
  intros Hp Hst w Hw. unfold replace_symlink. apply wp_bind.
  eapply wp_temporary; [done|apply Hp|apply Hp|]. intros t w1 Hpt V.
  apply (wp_finally_publish F t p _ _ _ _ (eq (Lnk raw))).
  - intros Q' C' HQ HC HC'. apply wp_bind. eapply wp_symlink; [done|by apply Hst| |done].
    intros w2 D. eapply wp_publish; [done..| | |]; [|done|]; naive_solver.
  - by intros n w' <- H.
  - by left.
  - intros n w' <- H. by right.
Qed.

(** A file with these bytes is there. *)
Definition new_file (F : fs) (p : path) (mode : Z) (v : string) (F' : fs) : Prop :=
  ∃ i, F' = <[p := Reg i uid mode v]> F ∧ fresh F (Reg i uid mode v).

(** The common end of [_replace_private] and [_restore_configuration]. *)
Lemma wp_replace_file F p mode v w Q C :
  holds F w → target_place F p →
  ((∀ t, parent t = parent p → staged t = false) ∨ mode = 384%Z) →
  (∀ F' w', new_file F p mode v F' → holds F' w' → Q tt w') →
  (∀ w', holds F w' → C w') → (∀ F' w', new_file F p mode v F' → holds F' w' → C w') →
  wp (t ← temporary_for p;
      finally (write_new t mode v;; rename t p;; fsync_directory (parent p)) (unlink_quietly t)) Q C w.
Proof.
  intros Hw Hp Hst HQ HC HC'. apply wp_bind.
  eapply wp_temporary; [done|apply Hp|apply Hp|]. intros t w1 Hpt V.
  apply (wp_finally_publish F t p _ _ _ _ (λ n, ∃ i, n = Reg i uid mode v ∧ fresh F n)).
  - intros Q' C' HQ1 HC1 HC1'. apply wp_bind. eapply wp_write_new; [done| | |done].
    + intros E. destruct Hst as [Hst| ->]; [|done]. by rewrite Hst in E.
    + intros i w2 D. assert (fresh F (Reg i uid mode v)) as Hf by apply D.
      eapply wp_publish; [done..| | |]; [|done|]; eauto.
  - intros n w' (i & -> & Hf) H. eapply HQ; [|done]. by exists i.
  - done.
  - intros n w' (i & -> & Hf) H. eapply HC'; [|done]. by exists i.
Qed.

Lemma atomic_rename_and_fsync F s d :
  dir_at F s = true → temp s = false → temp d = false → apart s d →
  F !! d = None → dir_at F (parent d) = true → dir_at F (parent s) = true →
  under s (parent s) = None → under s (parent d) = None → under d (parent s) = None →
  under d (parent d) = None →
  (∀ p, staged p = true → under s p = None ∧ under d p = None) →
  atomic F (rename_and_fsync s d) (mv s d F).
Proof.
  intros Hs Hts Htd Ha Hd Hpd Hps U1 U2 U3 U4 Hst. unfold rename_and_fsync.
  eapply atomic_bind; [by apply atomic_move| |by right].
  assert (∀ p, under s p = None → under d p = None → dir_at F p = true → temp p = false →
    atomic (mv s d F) (fsync_directory p) (mv s d F)) as Hf.
  { intros p E1 E2 E3 E4. apply atomic_fsync; [|done]. unfold dir_at in *.
    rewrite lookup_mv by apply Ha. by rewrite E2, E1. }
  intros _. eapply atomic_bind; [apply Hf; [done..|by apply temp_parent]| |by left].
  intros _. case_bool_decide; [|apply Hf; [done..|by apply temp_parent]].
  intros w Hw. by apply wp_ret.
Qed.

(** An entry is removed. *)
Lemma atomic_remove F p n :
  F !! p = Some n → is_dir n = false → temp p = false → p ≠ [] → dir_at F (parent p) = true →
  atomic F (unlink p;; fsync_directory (parent p)) (delete p F).
Proof.
  intros Hp Hn Ht Hne Hd. eapply atomic_bind; [by eapply atomic_unlink| |by right].
  intros _. apply atomic_fsync; [|by apply temp_parent]. unfold dir_at in *.
  rewrite lookup_delete_ne; [done|]. intros E. rewrite <-E, Hp in Hd. by destruct n.
Qed.
End replace.
