(* ===== verification/ActivationState.v ===== *)
(** * The journal of a release activation: what the disk shows

    Releases, links and configuration files as facts about the file system,
    with what the reading functions of [activation_transaction.py] give for
    them, and how the facts survive a move and a replaced link. *)
From S2P Require Import Prelude PyValues Json FileSystem FileLogic Activation.
From S2P Require Import ActivationJson ActivationOps.

Open Scope string_scope.

Section state.
Context {host : Host} {laws : HostLaws host}.

(** ** Facts *)

(** A file of ours that a reader accepts. *)
Definition plain_file (f : fs) (p : path) (mode : Z) (c : string) : Prop :=
  ∃ i, f !! p = Some (Reg i uid mode c) ∧ nlink f i = 1.

(** The release [r] is at [p]. *)
Definition release_at (f : fs) (p : path) (r : release) : Prop :=
  (∃ mode, f !! p = Some (Dir (Ident (r_device r) (r_inode r)) uid mode) ∧ unshared mode = true) ∧
  ∃ mode c, plain_file f (p // "VERSION") mode c ∧ unshared mode = true ∧
    (1 ≤ len c ≤ 4096)%Z ∧ sha256 c = version_sha256 r.

(** Some other directory, or none, is at [p]. *)
Definition not_at (f : fs) (p : path) (r : release) : Prop :=
  ∀ i o m, f !! p = Some (Dir i o m) → i ≠ Ident (r_device r) (r_inode r).

(** The configuration file at [p]: missing, or its mode and bytes. *)
Definition config_at (f : fs) (p : path) (o : option (Z * string)) : Prop :=
  match o with
  | None => f !! p = None
  | Some (mode, c) => plain_file f p mode c ∧ unshared mode = true ∧ (len c ≤ MAX_CONFIG_BYTES)%Z
  end.

Definition config_meta (o : option (Z * string)) : option (string * Z) :=
  match o with None => None | Some (mode, c) => Some (sha256 c, mode) end.

(** ** What readers give *)

Lemma read_plain f p mode c e :
  plain_file f p mode c → ∃ i, open_regular f p e = Ok (i, uid, mode, 1, c).
Proof. intros (i & Hp & Hn). exists i. unfold open_regular, lstat. rewrite Hp. cbn. by rewrite Hn. Qed.

Lemma read_private_plain f p c maximum :
  plain_file f p 384 c → (len c ≤ maximum)%Z → read_private f p maximum = Ok c.
Proof.
  intros Hp Hl. unfold read_private. edestruct (read_plain f p 384 c) as [i ->]; [done|].
  cbn -[Z.eqb Z.ltb]. rewrite Z.eqb_refl. assert ((maximum <? len c)%Z = false) as -> by lia. done.
Qed.

Lemma release_at_matches f p r : release_at f p r → release_matches f p r = Ok true.
Proof.
  intros [(mode & Hp & Hm) (vm & c & Hv & Hvm & Hl & Hs)]. unfold release_matches.
  rewrite Hp, Hm. cbn [device inode]. rewrite !Z.eqb_refl. cbn [andb].
  unfold owned_regular_sha256. edestruct (read_plain f (p // "VERSION") vm c) as [i ->]; [done|].
  cbn -[Z.eqb Z.ltb unshared]. rewrite Z.eqb_refl, Hvm. cbn -[Z.ltb].
  assert ((len c <? 1)%Z = false) as -> by lia. assert ((4096 <? len c)%Z = false) as -> by lia.
  cbn. by rewrite Hs, String.eqb_refl.
Qed.

Lemma not_at_matches f p r : not_at f p r → release_matches f p r = Ok false.
Proof.
  intros H. unfold release_matches. destruct (f !! p) as [[i o m| | |]|] eqn:Hp; try done.
  destruct (_ && _) eqn:E; [|done].
  apply andb_true_iff in E as [E Ei%Z.eqb_eq]. apply andb_true_iff in E as [_ Ed%Z.eqb_eq].
  destruct (H i o m Hp). destruct i. cbn in *. by subst.
Qed.

Lemma not_at_none f p r : f !! p = None → not_at f p r.
Proof. intros H i o m. by rewrite H. Qed.

Lemma not_at_link f p r raw : f !! p = Some (Lnk raw) → not_at f p r.
Proof. intros H i o m. by rewrite H. Qed.

(** Two releases with different directories. *)
Definition distinct (r q : release) : Prop := r_device r ≠ r_device q ∨ r_inode r ≠ r_inode q.

Lemma not_at_other f p r q : release_at f p r → distinct r q → not_at f p q.
Proof.
  intros [(mode & Hp & _) _] Hd i o m H. rewrite Hp in H. injection H as <- _ _.
  intros [= E1 E2]. by destruct Hd.
Qed.

Lemma release_dir_at f p r : release_at f p r → dir_at f p = true.
Proof. intros [(mode & Hp & _) _]. unfold dir_at. by rewrite Hp. Qed.

Lemma config_metadata_at f p o :
  config_at f p o → current_config_metadata f p = Ok (config_meta o).
Proof.
  unfold config_at, current_config_metadata. destruct o as [[mode c]|]; [|by intros ->].
  intros (Hp & Hu & Hl). pose proof Hp as (i & Hi & Hn). rewrite Hi.
  unfold read_owned_regular. edestruct (read_plain f p mode c) as [j ->]; [done|].
  cbn -[Z.eqb Z.ltb unshared MAX_CONFIG_BYTES]. rewrite Z.eqb_refl, Hu. cbn -[Z.ltb MAX_CONFIG_BYTES].
  assert ((MAX_CONFIG_BYTES <? len c)%Z = false) as -> by lia. done.
Qed.

(** ** What survives *)

(** [g] shows the same as [f] at the paths of [P], the link counts of the files
    there included. *)
Definition agree (P : path → Prop) (f g : fs) : Prop :=
  (∀ p, P p → g !! p = f !! p) ∧
  ∀ p i o mode c, P p → f !! p = Some (Reg i o mode c) → nlink g i = nlink f i.

Lemma agree_plain P f g p mode c : agree P f g → P p → plain_file f p mode c → plain_file g p mode c.
Proof. intros [Hl Hn] Hp (i & Hi & H1). exists i. by rewrite (Hl p Hp), (Hn p _ _ _ _ Hp Hi). Qed.

Lemma agree_release P f g p r :
  agree P f g → P p → P (p // "VERSION") → release_at f p r → release_at g p r.
Proof.
  intros H Hp Hv [(mode & Hi & Hm) (vm & c & Hc & Hr)]. split.
  - exists mode. by rewrite (proj1 H).
  - exists vm, c. split; [|done]. by eapply agree_plain.
Qed.

Lemma agree_config P f g p o : agree P f g → P p → config_at f p o → config_at g p o.
Proof.
  intros H Hp. destruct o as [[mode c]|]; cbn.
  - intros (Hc & Hr). split; [|done]. by eapply agree_plain.
  - by rewrite (proj1 H).
Qed.

Lemma agree_mv s d f :
  apart s d → rooted f → f !! d = None →
  agree (λ p, under s p = None ∧ under d p = None) f (mv s d f).
Proof.
  intros Ha Hr Hd. split.
  - intros p [Hs Hp]. rewrite lookup_mv by apply Ha. by rewrite Hp, Hs.
  - intros p i o mode c _ _. apply nlink_mv; [done|]. intros r. by apply rooted_none.
Qed.

Lemma release_mv s d f r :
  apart s d → rooted f → f !! d = None → release_at f s r → release_at (mv s d f) d r.
Proof.
  intros Ha Hr Hd [(mode & Hp & Hm) (vm & c & (i & Hi & Hn) & Hrest)].
  assert (∀ q, mv s d f !! (d ++ q)%list = f !! (s ++ q)%list) as Hl.
  { intros q. rewrite lookup_mv by apply Ha. by rewrite under_below. }
  split.
  - exists mode. specialize (Hl []). rewrite !app_nil_r in Hl. by rewrite Hl.
  - exists vm, c. split; [|done]. exists i. split; [unfold child; by rewrite Hl|].
    rewrite nlink_mv; [done|done|]. intros q. by apply rooted_none.
Qed.

Lemma mv_gone s d f : apart s d → mv s d f !! s = None.
Proof.
  intros Ha. rewrite lookup_mv by apply Ha. rewrite (proj2 Ha).
  by rewrite under_refl.
Qed.

(** A link takes the place of a link or of nothing. *)
Definition no_file (o : option node) : Prop := match o with Some (Reg _ _ _ _) => False | _ => True end.

Lemma agree_link f p raw :
  no_file (f !! p) → agree (λ q, q ≠ p) f (<[p := Lnk raw]> f).
Proof.
  intros Hp. split.
  - intros q Hq. by rewrite lookup_insert_ne.
  - intros q i o mode c _ _. pose proof (nlink_insert f p (Lnk raw) i) as E.
    rewrite (links_other (Some (Lnk raw))), (links_other (f !! p)) in E; [lia|..|done].
    destruct (f !! p) as [[]|]; try done.
Qed.

Lemma agree_unlink f p raw :
  f !! p = Some (Lnk raw) → agree (λ q, q ≠ p) f (delete p f).
Proof.
  intros Hp. split.
  - intros q Hq. by rewrite lookup_delete_ne.
  - intros q i o mode c _ _. pose proof (nlink_delete f p i) as E. rewrite Hp in E.
    rewrite (links_other (Some (Lnk raw))) in E; [lia|done].
Qed.

(** The file at [p] has no other name. *)
Lemma nlink_one f p q i : f !! p ≫= file_ident = Some i → nlink f i = 1 →
  f !! q ≫= file_ident = Some i → q = p.
Proof.
  intros Hp Hn Hq. destruct (decide (q = p)) as [|Hne]; [done|].
  pose proof (nlink_delete f p i) as E1. pose proof (nlink_delete (delete p f) q i) as E2.
  rewrite lookup_delete_ne in E2 by done. unfold links in E1, E2.
  rewrite (decide_True _ _ Hp) in E1. rewrite (decide_True _ _ Hq) in E2. lia.
Qed.

Definition plain_or_none (f : fs) (p : path) : Prop :=
  f !! p = None ∨ ∃ mode c, plain_file f p mode c.

Lemma plain_or_none_links f p q i o mode c :
  plain_or_none f p → q ≠ p → f !! q = Some (Reg i o mode c) → links (f !! p) i = 0.
Proof.
  intros [Hp|(mode' & c' & j & Hp & Hn)] Hne Hq; [by rewrite Hp|].
  apply links_other. intros E. assert (j = i) as -> by (rewrite Hp in E; cbn in E; congruence).
  apply Hne. apply (nlink_one f p q i); [done..|]. by rewrite Hq.
Qed.

(** A new file takes the place of a file or of nothing; a file goes. *)
Lemma agree_file f p n :
  plain_or_none f p → (∀ q i, file_ident n = Some i → f !! q ≫= file_ident ≠ Some i) →
  agree (λ q, q ≠ p) f (<[p := n]> f).
Proof.
  intros Hp Hf. split.
  - intros q Hq. by rewrite lookup_insert_ne.
  - intros q i o mode c Hne Hq. pose proof (nlink_insert f p n i) as E.
    rewrite (plain_or_none_links f p q i o mode c) in E by done.
    rewrite (links_other (Some n)) in E; [lia|]. cbn. intros Hi. apply (Hf q i Hi). by rewrite Hq.
Qed.

Lemma agree_unfile f p : plain_or_none f p → agree (λ q, q ≠ p) f (delete p f).
Proof.
  intros Hp. split.
  - intros q Hq. by rewrite lookup_delete_ne.
  - intros q i o mode c Hne Hq. pose proof (nlink_delete f p i) as E.
    rewrite (plain_or_none_links f p q i o mode c) in E by done. lia.
Qed.

Lemma plain_new f p i mode c :
  (∀ q, f !! q ≫= file_ident ≠ Some i) → plain_file (<[p := Reg i uid mode c]> f) p mode c.
Proof.
  intros Hf. exists i. split; [by rewrite lookup_insert_eq|].
  pose proof (nlink_insert f p (Reg i uid mode c) i) as E.
  rewrite (links_other (f !! p)), (nlink_absent f i Hf) in E by done.
  unfold links in E. rewrite decide_True in E by done. lia.
Qed.
End state.

(** ** The views of [_validate_invocation] *)

Section views.
Context {host : Host} {laws : HostLaws host}.

(** Nothing that would make [_release_matches] raise. *)
Definition calm (f : fs) (p : path) : Prop :=
  f !! p = None ∨ (∃ raw, f !! p = Some (Lnk raw)) ∨ ∃ r, release_at f p r.

Lemma release_calm f p r : release_at f p r → calm f p.
Proof. right. right. eauto. Qed.

Lemma calm_matches f p r : calm f p → ∃ b, release_matches f p r = Ok b.
Proof.
  intros [H|[[raw H]|[q H]]].
  - exists false. by apply not_at_matches, not_at_none.
  - exists false. by eapply not_at_matches, not_at_link.
  - destruct H as [(mode & Hp & Hm) (vm & c & Hv & Hvm & Hl & Hs)]. unfold release_matches.
    rewrite Hp. destruct (_ && _); [|by eauto]. unfold owned_regular_sha256.
    edestruct (read_plain f (p // "VERSION") vm c) as [i ->]; [done|].
    cbn -[Z.eqb Z.ltb unshared]. rewrite Z.eqb_refl, Hvm. cbn -[Z.ltb].
    assert ((len c <? 1)%Z = false) as -> by lia. assert ((4096 <? len c)%Z = false) as -> by lia.
    cbn. by eauto.
Qed.

Lemma first_match_here f r seen p l :
  p ∉ seen → release_matches f p r = Ok true → first_match f r seen (p :: l) = Ok (Some p).
Proof. intros Hp H. cbn. rewrite bool_decide_false by done. by rewrite H. Qed.

Lemma first_match_found f r p l seen :
  (∀ q, q ∈ l → calm f q) → release_at f p r → p ∈ l → p ∉ seen →
  ∃ q, first_match f r seen l = Ok (Some q).
Proof.
  revert seen. induction l as [|q l IH]; intros seen Hc Hr Hin Hs; [by apply elem_of_nil in Hin|].
  cbn. case_bool_decide as Hq.
  - apply IH; try done; [set_solver|]. apply elem_of_cons in Hin as [->|Hin]; [done|done].
  - destruct (calm_matches f q r) as [b Hb]; [apply Hc; left|]. rewrite Hb. cbn.
    destruct b; [by eauto|].
    assert (q ≠ p) as Hne by (intros ->; by rewrite (release_at_matches f p r Hr) in Hb).
    apply IH; try done; [set_solver|set_solver|set_solver].
Qed.

Lemma first_match_ok f r l seen :
  (∀ q, q ∈ l → calm f q) → ∃ o, first_match f r seen l = Ok o.
Proof.
  revert seen. induction l as [|q l IH]; intros seen Hc; cbn; [by eauto|].
  case_bool_decide as Hq.
  - apply IH. set_solver.
  - destruct (calm_matches f q r) as [b Hb]; [apply Hc; left|]. rewrite Hb. cbn.
    destruct b; [by eauto|]. apply IH. set_solver.
Qed.

(** A link text that [_safe_text] accepts. *)
Definition link_text (raw : string) : Prop := text_ok raw 4096.

Lemma link_state_link f p raw directory :
  f !! p = Some (Lnk raw) → link_text raw → link_state_of f p directory = Ok (mkLink Symlink raw).
Proof.
  intros Hp Ht. unfold link_state_of. rewrite Hp.
  unfold link_text, text_ok, safe_text in *. inv_res. by rewrite H, H0.
Qed.

Lemma link_state_none f p directory :
  f !! p = None → link_state_of f p directory = Ok (mkLink Missing "").
Proof. intros Hp. unfold link_state_of. by rewrite Hp. Qed.

Lemma link_points_link f p raw r : f !! p = Some (Lnk raw) →
  link_points_to f p r = release_matches f (resolve p raw) r.
Proof. intros Hp. unfold link_points_to. by rewrite Hp. Qed.
End views.
