(* ===== verification/ActivationViews.v ===== *)
(** * The journal of a release activation: states that validate

    While links change hands, in [linking] and in [rolling-back],
    [_validate_invocation] accepts a few shapes of [current] and [previous].
    Here they are named, and shown to be accepted. *)
From S2P Require Import Prelude PyValues Json FileSystem FileLogic Activation.
From S2P Require Import ActivationJson ActivationOps ActivationState.

Open Scope string_scope.

Section views.
Context {host : Host} {laws : HostLaws host} (a : args) (m : manifest).

Definition moving : Prop := m_phase m = Linking ∨ m_phase m = RollingBack.

(** [current] as it was, leading to the old release. *)
Definition current_original (f : fs) : Prop :=
  ∃ r, old_release m = Some r ∧
    ((∃ raw, current m = mkLink Symlink raw ∧ f !! a_current a = Some (Lnk raw) ∧ link_text raw ∧
             release_at f (resolve (a_current a) raw) r)
     ∨ current m = mkLink Directory "" ∧ release_at f (a_current a) r).

(** [current] leads to the candidate, or to where it will be. *)
Definition current_candidate (f : fs) : Prop :=
  f !! a_current a = Some (Lnk (release_dir m)) ∧ link_text (release_dir m) ∧
  (f !! resolve (a_current a) (release_dir m) = None
   ∨ release_at f (resolve (a_current a) (release_dir m)) (candidate_release m)).

Definition current_ok (f : fs) : Prop :=
  f !! a_current a = None ∨ current_candidate f ∨ current_original f.

Lemma check_current_ok am v :
  moving →
  cv_original v || cv_points_to_candidate v || bool_decide (cv_state v = mkLink Missing "")
    || bool_decide (cv_state v = candidate_current m) && cv_dangling v = true →
  check_current m am v = Ok tt.
Proof.
  intros Hp H. unfold check_current.
  assert (in_phases (m_phase m) [Prepared; Guarded] = false ∧
          in_phases (m_phase m) [Linking; RollingBack] = true) as [-> ->]
    by (by destruct Hp as [-> | ->]).
  apply raise_if_ok. destruct (cv_original v), (cv_points_to_candidate v),
    (bool_decide (cv_state v = mkLink Missing "")), am, (bool_decide (cv_state v = candidate_current m)),
    (cv_dangling v); done.
Qed.

Lemma kind_missing (k : link_kind) : bool_decide (k = Missing) = match k with Missing => true | _ => false end.
Proof. by destruct k. Qed.

Lemma view_current_accepted f am :
  moving → current_ok f → ∃ v, view_current f a m = Ok v ∧ check_current m am v = Ok tt.
Proof.
  intros Hp [Hn|[(Hc & Ht & Hr)|(r & Hold & [(raw & Hm & Hc & Ht & Hr)|[Hm Hr]])]].
  - unfold view_current. rewrite link_state_none by done. cbn -[check_current].
    rewrite bool_decide_false by done. cbn -[check_current].
    assert (∃ b, match old_release m with
      | None => Ok false
      | Some old => and_then (bool_decide (mkLink Missing "" = current m))
          match kind (current m) with
          | Symlink => link_points_to f (a_current a) old
          | Directory => release_matches f (a_current a) old
          | Missing => Ok false
          end
      end = Ok b) as [b ->].
    { destruct (old_release m); [|by eauto]. unfold and_then. case_bool_decide as E; [|by eauto].
      rewrite <-E. by eauto. }
    cbn -[check_current]. eexists. split; [done|]. apply check_current_ok; [done|].
    cbn. by rewrite !orb_true_r.
  - unfold view_current. erewrite link_state_link by done. cbn -[check_current].
    unfold candidate_current. rewrite bool_decide_true by done. cbn -[check_current].
    rewrite (link_points_link f (a_current a) (release_dir m)) by done.
    assert (calm f (resolve (a_current a) (release_dir m))) as Hcalm.
    { destruct Hr as [Hr|Hr]; [by left|by eapply release_calm]. }
    destruct (calm_matches _ _ (candidate_release m) Hcalm) as [b Hb]. rewrite Hb. cbn -[check_current].
    assert (∃ b, match old_release m with
      | None => Ok false
      | Some old => and_then (bool_decide (mkLink Symlink (release_dir m) = current m))
          match kind (current m) with
          | Symlink => link_points_to f (a_current a) old
          | Directory => release_matches f (a_current a) old
          | Missing => Ok false
          end
      end = Ok b) as [b' ->].
    { destruct (old_release m) as [old|]; [|by eauto]. unfold and_then. case_bool_decide as E; [|by eauto].
      rewrite <-E. cbn. rewrite (link_points_link f (a_current a) (release_dir m)) by done.
      by apply calm_matches. }
    cbn -[check_current]. eexists. split; [done|]. apply check_current_ok; [done|].
    cbn -[lexists]. unfold candidate_current.
    rewrite (bool_decide_true (mkLink Symlink (release_dir m) = mkLink Symlink (release_dir m))) by done.
    cbn -[lexists].
    destruct Hr as [Hr|Hr].
    + unfold lexists. rewrite Hr. cbn. by rewrite !orb_true_r.
    + rewrite (release_at_matches _ _ _ Hr) in Hb. injection Hb as <-. by rewrite orb_true_r.
  - unfold view_current. erewrite link_state_link by done. cbn -[check_current].
    rewrite Hold, Hm. cbn -[check_current].
    rewrite (bool_decide_true (mkLink Symlink raw = mkLink Symlink raw)) by done.
    cbn -[check_current].
    assert (∃ b, and_then (bool_decide (mkLink Symlink raw = candidate_current m))
      (link_points_to f (a_current a) (candidate_release m)) = Ok b) as [b ->].
    { unfold and_then. case_match; [|by eauto].
      rewrite (link_points_link f (a_current a) raw) by done. apply calm_matches.
      by eapply release_calm. }
    rewrite (link_points_link f (a_current a) raw) by done. rewrite (release_at_matches _ _ _ Hr).
    cbn -[check_current]. eexists. split; [done|]. apply check_current_ok; [done|].
    cbn. by rewrite !orb_true_r.
  - unfold view_current.
    assert (link_state_of f (a_current a) true = Ok (mkLink Directory "")) as ->.
    { unfold link_state_of. destruct Hr as [(mode & Hd & _) _]. rewrite Hd. by rewrite Z.eqb_refl. }
    cbn -[check_current]. rewrite Hold, Hm. cbn -[check_current].
    rewrite (release_at_matches _ _ _ Hr).
    rewrite (bool_decide_true (mkLink Directory "" = mkLink Directory "")) by done.
    rewrite !(bool_decide_false (mkLink Directory "" = candidate_current m)) by done.
    cbn -[check_current]. eexists. split; [done|]. apply check_current_ok; [done|]. done.
Qed.

(** [previous] as it was. *)
Definition previous_original (f : fs) : Prop :=
  ∃ raw, previous m = mkLink Symlink raw ∧ f !! a_previous a = Some (Lnk raw) ∧ link_text raw ∧
    ∀ r, previous_release m = Some r → release_at f (resolve (a_previous a) raw) r.

(** [previous] leads to the old release, or will once it is moved. *)
Definition previous_candidate (f : fs) : Prop :=
  ∃ r, old_release m = Some r ∧ old_target m ≠ "" ∧
    f !! a_previous a = Some (Lnk (old_target m)) ∧ link_text (old_target m) ∧
    (release_at f (resolve (a_previous a) (old_target m)) r
     ∨ m_phase m = RollingBack ∧ release_at f (absolute (source r)) r).

Definition previous_ok (f : fs) : Prop :=
  f !! a_previous a = None ∨ previous_original f ∨ previous_candidate f.

(** The places of the releases, and where links lead, hold releases or
    nothing. *)
Record calm_places (f : fs) : Prop := {
  calm_source : calm f (absolute (source (candidate_release m)));
  calm_target : calm f (absolute (target (candidate_release m)));
  calm_retired : calm f (candidate_retired (a_root a) m);
  calm_parked : calm f (candidate_parked (transaction_directory (a_root a)));
  calm_old : ∀ r, old_release m = Some r →
    calm f (absolute (source r)) ∧ calm f (absolute (target r)) ∧
    calm f (resolve (a_previous a) (old_target m));
}.

Lemma check_previous_ok v :
  moving →
  pv_original v || pv_candidate v || pv_dangling v || bool_decide (pv_state v = mkLink Missing "") = true →
  check_previous_link m v = Ok tt.
Proof.
  intros Hp H. unfold check_previous_link.
  assert (in_phases (m_phase m) [Prepared; Guarded] = false ∧
          in_phases (m_phase m) [Linking; RollingBack] = true) as [-> ->]
    by (by destruct Hp as [-> | ->]).
  apply raise_if_ok. by apply negb_false_iff.
Qed.

(** The three questions about [previous], asked of a state that raises
    nothing. *)
Definition ask_original (f : fs) (st : link_state) : res bool :=
  and_then (bool_decide (st = previous m))
    match previous_release m with
    | None => Ok true
    | Some r => link_points_to f (a_previous a) r
    end.
Definition ask_candidate (f : fs) (st : link_state) (original : bool) : res bool :=
  match candidate_previous m with
  | None => Ok original
  | Some c => and_then (bool_decide (st = c))
      match old_release m with
      | Some old => link_points_to f (a_previous a) old
      | None => Ok false
      end
  end.
Definition ask_dangling (f : fs) (st : link_state) : res bool :=
  and_then (bool_decide (m_phase m = RollingBack))
    match candidate_previous m, old_release m with
    | Some c, Some old =>
        and_then (bool_decide (st = c)) (release_matches f (absolute (source old)) old)
    | _, _ => Ok false
    end.

Lemma view_previous_asks f st b1 b2 b3 :
  link_state_of f (a_previous a) false = Ok st →
  ask_original f st = Ok b1 → ask_candidate f st b1 = Ok b2 → ask_dangling f st = Ok b3 →
  view_previous f a m = Ok (mkPreviousView st b1 b2 b3).
Proof.
  intros Hst H1 H2 H3. unfold view_previous. rewrite Hst. cbn.
  unfold ask_original in H1. rewrite H1. cbn. unfold ask_candidate in H2. rewrite H2. cbn.
  unfold ask_dangling in H3. rewrite H3. done.
Qed.

Lemma and_then_total b r : (∃ x, r = Ok x) → ∃ x, and_then b r = Ok x.
Proof. intros [x ->]. destruct b; cbn; eauto. Qed.

Lemma ask_dangling_total f st : calm_places f → ∃ b, ask_dangling f st = Ok b.
Proof.
  intros Hc. apply and_then_total. destruct (candidate_previous m); [|by eauto].
  destruct (old_release m) as [r|] eqn:Hr; [|by eauto]. apply and_then_total, calm_matches.
  by apply (calm_old f Hc r).
Qed.

Lemma ask_candidate_total f st b1 :
  calm_places f → (∀ raw, f !! a_previous a = Some (Lnk raw) → st = mkLink Symlink raw) →
  ∃ b, ask_candidate f st b1 = Ok b.
Proof.
  intros Hc Hst. unfold ask_candidate, candidate_previous.
  destruct (String.eqb_spec (old_target m) ""); [by eauto|]. unfold and_then.
  case_bool_decide as E; [|by eauto]. destruct (old_release m) as [r|] eqn:Hr; [|by eauto].
  unfold link_points_to. destruct (f !! a_previous a) as [[]|] eqn:Hp; try by eauto.
  rewrite (Hst _ eq_refl) in E. injection E as ->. apply calm_matches. by apply (calm_old f Hc r).
Qed.

Lemma view_previous_accepted f :
  moving → calm_places f → previous_ok f →
  ∃ v, view_previous f a m = Ok v ∧ check_previous_link m v = Ok tt.
Proof.
  intros Hp Hc [Hn|[(raw & Hm & Hl & Ht & Hr)|(r & Hold & Hne & Hl & Ht & Hr)]].
  - assert (∃ b, ask_original f (mkLink Missing "") = Ok b) as [b1 H1].
    { apply and_then_total. destruct (previous_release m); [|by eauto].
      unfold link_points_to. rewrite Hn. by eauto. }
    destruct (ask_candidate_total f (mkLink Missing "") b1) as [b2 H2]; [done|congruence|].
    destruct (ask_dangling_total f (mkLink Missing "") Hc) as [b3 H3].
    eexists. split; [eapply view_previous_asks; [by apply link_state_none|done..]|].
    apply check_previous_ok; [done|]. cbn. by rewrite !orb_true_r.
  - assert (ask_original f (mkLink Symlink raw) = Ok true) as H1.
    { unfold ask_original. rewrite Hm, bool_decide_true by done. cbn.
      destruct (previous_release m) as [pr|]; [|done].
      rewrite (link_points_link f (a_previous a) raw) by done.
      by apply release_at_matches, Hr. }
    destruct (ask_candidate_total f (mkLink Symlink raw) true) as [b2 H2]; [done|congruence|].
    destruct (ask_dangling_total f (mkLink Symlink raw) Hc) as [b3 H3].
    eexists. split; [eapply view_previous_asks; [by apply link_state_link|done..]|].
    apply check_previous_ok; [done|]. done.
  - set (st := mkLink Symlink (old_target m)).
    assert (link_state_of f (a_previous a) false = Ok st) as Hst by by apply link_state_link.
    assert (candidate_previous m = Some st) as Hcp.
    { unfold candidate_previous. by rewrite (proj2 (String.eqb_neq _ _) Hne). }
    assert (∃ b, ask_original f st = Ok b) as [b1 H1].
    { apply and_then_total. destruct (previous_release m) as [pr|]; [|by eauto].
      rewrite (link_points_link f (a_previous a) (old_target m)) by done.
      apply calm_matches. by apply (calm_old f Hc r). }
    destruct (ask_candidate_total f st b1) as [b2 H2]; [done|intros; unfold st; congruence|].
    destruct (ask_dangling_total f st Hc) as [b3 H3].
    eexists. split; [by eapply view_previous_asks|].
    apply check_previous_ok; [done|]. cbn. apply orb_true_iff. left.
    destruct Hr as [Hr|[Hroll Hr]].
    + unfold ask_candidate in H2. rewrite Hcp, Hold, bool_decide_true in H2 by done. cbn in H2.
      rewrite (link_points_link f (a_previous a) (old_target m)) in H2 by done.
      rewrite (release_at_matches _ _ _ Hr) in H2. injection H2 as <-. by rewrite orb_true_r.
    + unfold ask_dangling in H3. rewrite Hcp, Hold, !bool_decide_true in H3 by done. cbn in H3.
      rewrite (release_at_matches _ _ _ Hr) in H3. injection H3 as <-. by rewrite !orb_true_r.
Qed.

(** ** Configuration *)

(** The two files as they may be in the phase. *)
Definition configs_ok (e s : option (Z * string)) : Prop :=
  match m_phase m with
  | Linking => config_meta e = saved (env m) ∧ config_meta s = saved (service m)
  | _ => authorized_configuration (config_meta e) (observed_env m) (λ x, x =? 384)%Z = true ∧
         authorized_configuration (config_meta s) (observed_service m) backup_mode = true
  end.

Lemma check_configs_accepted f e s :
  moving → config_at f (a_env a) e → config_at f (a_service a) s → configs_ok e s →
  check_configs f a m = Ok tt.
Proof.
  intros Hp He Hs Hok. unfold check_configs.
  rewrite (config_metadata_at _ _ _ He), (config_metadata_at _ _ _ Hs). cbn -[in_phases].
  unfold configs_ok in Hok. destruct Hp as [Hp|Hp]; rewrite Hp in *; cbn -[authorized_configuration].
  - destruct Hok as [-> ->]. by rewrite !bool_decide_true.
  - destruct Hok as [-> ->]. done.
Qed.

(** ** The whole check *)

Record acceptable (f : fs) (am : bool) : Prop := {
  acc_own : check_ownership a m = Ok tt;
  acc_calm : calm_places f;
  acc_old : ∀ r, old_release m = Some r →
    release_at f (absolute (source r)) r ∨ release_at f (absolute (target r)) r;
  acc_candidate : am = true ∨ release_at f (absolute (source (candidate_release m))) (candidate_release m)
    ∨ release_at f (absolute (target (candidate_release m))) (candidate_release m);
  acc_current : current_ok f;
  acc_previous : previous_ok f;
  acc_configs : ∃ e s, config_at f (a_env a) e ∧ config_at f (a_service a) s ∧ configs_ok e s;
}.

Lemma locate_found f r p extras :
  calm f (absolute (source r)) → calm f (absolute (target r)) → (∀ q, q ∈ extras → calm f q) →
  release_at f p r → p ∈ absolute (source r) :: absolute (target r) :: extras →
  ∃ q, locate_release f r extras = Ok (Some q).
Proof.
  intros H1 H2 H3 Hr Hp. eapply first_match_found; [|exact Hr|done|by apply not_elem_of_nil].
  intros q [->|[->|Hq]%elem_of_cons]%elem_of_cons; auto.
Qed.

Lemma validate_accepted f am :
  moving → acceptable f am →
  validate_invocation f a m am (transaction_directory (a_root a)) = Ok tt.
Proof.
  intros Hp [Hown Hc Hold Hcand Hcur Hprev (e & s & He & Hs & Hcf)]. unfold validate_invocation.
  eapply bind_ok; [exact Hown|].
  apply (bind_ok _ true).
  { destruct (old_release m) as [r|] eqn:Hr; [|done].
    destruct (calm_old f Hc r Hr) as (C1 & C2 & _).
    assert (∃ q, locate_release f r [] = Ok (Some q)) as [q ->]; [|done].
    destruct (Hold r eq_refl) as [H|H].
    - eapply locate_found; [done|done| |exact H|left]. intros q ?%not_elem_of_nil. done.
    - eapply locate_found; [done|done| |exact H|right; left]. intros q ?%not_elem_of_nil. done. }
  eapply bind_ok; [done|].
  assert (∃ o, locate_release f (candidate_release m)
      [candidate_retired (a_root a) m; candidate_parked (transaction_directory (a_root a))] = Ok o ∧
      (am = true ∨ is_Some o)) as (o & Ho & Hor).
  { destruct Hc as [C1 C2 C3 C4 _].
    assert (∀ q, q ∈ [candidate_retired (a_root a) m; candidate_parked (transaction_directory (a_root a))]
      → calm f q) as Hq.
    { intros q [->|[->|?%not_elem_of_nil]%elem_of_cons]%elem_of_cons; done. }
    destruct Hcand as [->|[H|H]].
    - destruct (first_match_ok f (candidate_release m)
        (absolute (source (candidate_release m)) :: absolute (target (candidate_release m)) ::
         [candidate_retired (a_root a) m; candidate_parked (transaction_directory (a_root a))]) [])
        as [o Ho]; [|by eauto].
      intros q [->|[->|Hq']%elem_of_cons]%elem_of_cons; auto.
    - edestruct locate_found as [q E]; [exact C1|exact C2|exact Hq|exact H|left|by eauto].
    - edestruct locate_found as [q E]; [exact C1|exact C2|exact Hq|exact H|right; left|by eauto]. }
  eapply bind_ok; [exact Ho|].
  eapply bind_ok; [apply raise_if_ok|].
  { destruct Hor as [->|Hs']; [by rewrite andb_false_r|]. by rewrite bool_decide_true. }
  destruct (view_current_accepted f am Hp Hcur) as (cv & Hcv & Hck).
  eapply bind_ok; [exact Hcv|]. eapply bind_ok; [exact Hck|].
  destruct (view_previous_accepted f Hp Hc Hprev) as (pv & Hpv & Hpk).
  eapply bind_ok; [exact Hpv|]. eapply bind_ok; [exact Hpk|].
  by eapply check_configs_accepted.
Qed.
End views.
