(* ===== verification/ActivationJournal.v ===== *)
(** * The journal of a release activation: its building blocks

    [_read_manifest] finds the manifest whatever an interrupted command left
    beside it; a replaced link, a renamed directory, a rewritten manifest and a
    restored file appear at once. *)
From S2P Require Import Prelude PyValues Json FileSystem FileLogic Activation.
From S2P Require Import ActivationJson ActivationOps ActivationState.

Open Scope string_scope.

(** ** The temporary files of the manifest *)

Lemma substring_split n k s :
  String.length s = (n + k)%nat → s = String.substring 0 n s +:+ String.substring n k s.
Proof.
  revert s. induction n as [|n IH]; intros s Hs.
  - cbn in Hs. revert s Hs. induction k as [|k IHk]; intros [|c s] Hs; try done.
    cbn in Hs. cbn [String.substring]. rewrite sapp_nil_l. f_equal.
    specialize (IHk s ltac:(lia)). destruct s; cbn in *; by rewrite sapp_nil_l in IHk.
  - destruct s as [|c s]; [done|]. cbn [String.substring]. rewrite sapp_cons. f_equal.
    apply IH. cbn in Hs. lia.
Qed.

Lemma after_Some p s r : after p s = Some r → s = p +:+ r.
Proof.
  revert s. induction p as [|c p IH]; intros s; cbn; [naive_solver|].
  destruct s as [|d s]; [done|]. destruct (Ascii.eqb_spec c d) as [->|]; [|done].
  intros ->%IH. by rewrite sapp_cons.
Qed.

Lemma manifest_temp_temp n : manifest_temp n = true → temp_name n = true.
Proof.
  unfold manifest_temp. destruct (after _ n) as [r|] eqn:Ha; [|done].
  intros [[Hl%Nat.eqb_eq _]%andb_true_iff Ht%String.eqb_eq]%andb_true_iff.
  apply after_Some in Ha as ->. unfold temp_name. apply andb_true_iff. split.
  - change ".manifest.json." with ("." +:+ "manifest.json.").
    rewrite sapp_assoc. apply startswith_app.
  - rewrite (substring_split 24 4 r Hl), Ht, <-sapp_assoc. apply endswith_app.
Qed.

Section journal.
Context {host : Host} {laws : HostLaws host} (root : path).

Notation tx := (transaction_directory root).

Definition staged (p : path) : bool := bool_decide (parent p = tx) && manifest_temp (basename p).

Lemma parent_child p n : parent (p // n) = p.
Proof. unfold parent, child. apply removelast_last. Qed.
Lemma basename_child p n : basename (p // n) = n.
Proof. unfold basename, child. by rewrite last_snoc. Qed.
Lemma child_parent p : p ≠ [] → parent p // basename p = p.
Proof.
  destruct p as [|n p _] using rev_ind; [done|]. intros _.
  change (p ++ [n])%list with (p // n). by rewrite parent_child, basename_child.
Qed.

Lemma staged_child n : staged (tx // n) = manifest_temp n.
Proof. unfold staged. rewrite parent_child, basename_child. by rewrite bool_decide_true. Qed.

Lemma staged_temp p : staged p = true → temp p = true.
Proof.
  unfold staged. intros [Hp%bool_decide_eq_true Hn]%andb_true_iff.
  rewrite <-(child_parent p).
  - by rewrite temp_child, (manifest_temp_temp _ Hn), orb_true_r.
  - intros ->. cbn in Hp. by destruct root.
Qed.

Notation holds := (holds staged).
Notation atomic := (atomic staged).

(** ** [_read_manifest] *)

(** The journal of [m] is on the disk, complete. *)
Record journal (F : fs) (m : manifest) : Prop := {
  j_plain : temp root = false;
  j_root : ∃ i mode, F !! root = Some (Dir i uid mode) ∧ unshared mode = true;
  j_releases : ∃ i mode, F !! (root // "releases") = Some (Dir i uid mode) ∧ unshared mode = true;
  j_dir : ∃ i, F !! tx = Some (Dir i uid 448);
  j_manifest : plain_file F (tx // "manifest.json") 384 (canonical m);
  j_size : (len (canonical m) ≤ MAX_CONTROL_BYTES)%Z;
  j_ok : manifest_ok F root (root // "releases") tx m;
  j_fits : fits m;
}.

Lemma temp_tx : temp root = false → temp tx = false.
Proof. intros H. unfold transaction_directory. by rewrite temp_child, H. Qed.

Lemma nlink_unique f p i :
  f !! p ≫= file_ident = Some i → (∀ q, f !! q ≫= file_ident = Some i → q = p) → nlink f i = 1.
Proof.
  intros Hp Hu. destruct (f !! p) as [n|] eqn:E; [|done].
  pose proof (nlink_new (delete p f) p n i (lookup_delete_eq _ _)) as H.
  rewrite insert_delete_id in H by done. rewrite H.
  rewrite nlink_absent.
  - unfold links. by rewrite decide_True.
  - intros q Hq. destruct (decide (q = p)) as [->|Hne]; [by rewrite lookup_delete_eq in Hq|].
    rewrite lookup_delete_ne in Hq by done. by apply Hne, Hu.
Qed.

Lemma wp_cleanup_loop F l w (Q : unit → world → Prop) C :
  holds F w → temp root = false → NoDup l →
  (∀ n, n ∈ l → manifest_temp n = true ∧ is_Some (files w !! (tx // n))) →
  (∀ w', holds F w' → Q tt w') → (∀ w', holds F w' → C w') →
  wp (for_each l (λ n,
    node ← reading (λ f, lstat f (tx // n));
    links ← reading (λ f, Ok (match file_ident node with Some i => nlink f i | None => O end));
    guard_not (match node with
               | Reg _ o m _ => negb (o =? uid) || negb (Nat.eqb links 1) || negb (m =? 384)
               | _ => true
               end)%Z (PermissionError "activation transaction staging file is unsafe");;
    unlink (tx // n))) Q C w.
Proof.
  intros Hw Hroot Hnd Hl HQ HC. revert w Hw Hl. induction Hnd as [|n l Hn Hnd IH]; intros w Hw Hl.
  - by apply wp_ret, HQ.
  - destruct (Hl n ltac:(left)) as [Ht [x Hx]].
    destruct (good_staged _ _ _ _ (holds_good _ _ _ Hw) (tx // n) x) as (i & c & ->);
      [by rewrite staged_child|done|].
    assert (∀ q, files w !! q ≫= file_ident = Some i → q = tx // n) as Hu.
    { intros q Hq. eapply (good_unique _ _ _ _ (holds_good _ _ _ Hw)); [by rewrite staged_child| |exact Hq].
      by rewrite Hx. }
    assert (nlink (files w) i = 1) as Hn1 by (eapply nlink_unique; [by rewrite Hx|done]).
    cbn [for_each]. apply wp_bind, wp_bind. eapply wp_reading; [unfold lstat; by rewrite Hx|].
    apply wp_bind. eapply wp_reading; [done|]. cbn [file_ident].
    apply wp_bind, wp_guard; [by rewrite Hn1, !Z.eqb_refl|].
    eapply wp_change.
    + unfold lstat. rewrite Hx. done.
    + intros s. apply IH.
      * apply (holds_script staged F (set_files _ w) s), holds_temp_drop; [done| | |].
        -- by apply staged_temp; rewrite staged_child.
        -- unfold dir_at. by rewrite Hx.
        -- intros q j Hq Hqj. rewrite Hx. cbn. intros [= ->]. by apply Hq, Hu.
      * intros k Hk. destruct (Hl k ltac:(by right)) as [Hkt Hks]. split; [done|]. cbn.
        rewrite lookup_delete_ne; [done|]. intros [_ ->]%child_inj. done.
    + intros s. apply HC. by apply holds_script.
Qed.

Lemma wp_cleanup F m w (Q : unit → world → Prop) C :
  holds F w → journal F m → (∀ w', holds F w' → Q tt w') → (∀ w', holds F w' → C w') →
  wp (cleanup_manifest_temps tx) Q C w.
Proof.
  intros Hw J HQ HC. unfold cleanup_manifest_temps. apply wp_bind. eapply wp_reading; [done|].
  apply wp_bind. eapply (wp_cleanup_loop F); [done|apply J| | | |done].
  - apply NoDup_filter, NoDup_scandir.
  - intros n [Hn Hin]%list_elem_of_filter. split; [done|]. by apply elem_of_scandir.
  - intros w' Hw'. destruct (filter _ _); [by apply wp_ret, HQ|].
    eapply wp_mono; [apply (atomic_fsync staged F tx); [|apply temp_tx, J|done]|..].
    + destruct (j_dir F m J) as [i Hi]. unfold dir_at. by rewrite Hi.
    + intros [] w2. apply HQ.
    + intros w2 [H|H]; by apply HC.
Qed.

Lemma owned_dir f p i mode (ok : Z → bool) e :
  f !! p = Some (Dir i uid mode) → ok mode = true → owned_directory f p ok e = Ok tt.
Proof.
  intros Hp Hm. unfold owned_directory, lstat. rewrite Hp. cbn -[Z.eqb]. by rewrite Z.eqb_refl, Hm.
Qed.

(** What is not a temporary reads the same in the world. *)
Lemma holds_plain F w p mode c :
  holds F w → temp p = false → plain_file F p mode c → plain_file (files w) p mode c.
Proof.
  intros Hw Hp (i & Hi & Hn). exists i. rewrite (holds_lookup _ _ _ _ Hw Hp). split; [done|].
  by rewrite (holds_nlink _ _ _ _ _ _ _ _ Hw Hp Hi).
Qed.

Lemma holds_release F w p r :
  holds F w → temp p = false → release_at F p r → release_at (files w) p r.
Proof.
  intros Hw Hp [(mode & Hd & Hm) (vm & c & Hc & Hr)]. split.
  - exists mode. by rewrite (holds_lookup _ _ _ _ Hw Hp).
  - exists vm, c. split; [|done]. eapply holds_plain; [done| |done]. by rewrite temp_child, Hp.
Qed.

Lemma holds_config F w p o :
  holds F w → temp p = false → config_at F p o → config_at (files w) p o.
Proof.
  intros Hw Hp. destruct o as [[mode c]|]; cbn.
  - intros (Hc & Hr). split; [|done]. by eapply holds_plain.
  - by rewrite (holds_lookup _ _ _ _ Hw Hp).
Qed.

(** The digest of a backup is that of its file. *)
Lemma sha256_same F w p : holds F w → temp p = false → sha256_file (files w) p = sha256_file F p.
Proof.
  intros Hw Hp. unfold sha256_file, read_private, open_regular, lstat.
  rewrite (holds_lookup _ _ _ _ Hw Hp). destruct (F !! p) as [[]|] eqn:E; try done. cbn.
  by rewrite (holds_nlink _ _ _ _ _ _ _ _ Hw Hp E).
Qed.

Lemma manifest_ok_files f g r rel dir m :
  manifest_ok f r rel dir m →
  sha256_file g (dir // "env.backup") = sha256_file f (dir // "env.backup") →
  sha256_file g (dir // "service.backup") = sha256_file f (dir // "service.backup") →
  manifest_ok g r rel dir m.
Proof.
  intros [] He Hs.
  assert (∀ b, backup_ok f dir b → backup_ok g dir b) as Hb.
  { intros b [Hn Hd]. split; [done|]. destruct (saved b) as [[sha mode]|]; [|done].
    destruct Hd as (H1 & H2 & H3). split_and!; [done..|]. rewrite <-H3.
    apply str_in_spec in Hn. destruct Hn as [<-|[<-|[]]]; done. }
  split; auto.
Qed.

(** Reading the manifest gives it back and changes nothing that matters. *)
Lemma wp_read_manifest F m w Q C :
  holds F w → journal F m → (∀ w', holds F w' → Q m w') → (∀ w', holds F w' → C w') →
  wp (read_manifest root tx) Q C w.
Proof.
  intros Hw J HQ HC. pose proof (j_plain F m J) as Hroot. pose proof (temp_tx Hroot) as Htx.
  unfold read_manifest. apply wp_bind. eapply wp_reading.
  { unfold validate_root, validate_releases_root.
    destruct (j_root F m J) as (i & mode & Hr & Hm).
    destruct (j_releases F m J) as (i2 & mode2 & Hr2 & Hm2).
    rewrite <-(holds_lookup _ _ _ _ Hw) in Hr by done.
    rewrite <-(holds_lookup _ _ _ _ Hw) in Hr2 by (by rewrite temp_child, Hroot).
    rewrite (owned_dir _ _ i mode _ _ Hr Hm). cbn.
    by rewrite (owned_dir _ _ i2 mode2 _ _ Hr2 Hm2). }
  apply wp_bind. destruct (j_dir F m J) as [i Hi]. eapply wp_reading.
  { apply (owned_dir _ _ i 448); [|done]. by rewrite (holds_lookup _ _ _ _ Hw Htx). }
  apply wp_bind. eapply (wp_cleanup F m); [done..| |done]. intros w1 Hw1.
  apply wp_bind. eapply wp_reading.
  { rewrite (read_private_plain _ _ (canonical m)).
    - cbn. by rewrite json_loads_canonical by apply J.
    - eapply holds_plain; [done| |apply J]. by rewrite temp_child, Htx.
    - apply J. }
  eapply wp_reading; [|by apply HQ]. apply read_manifest_json.
  eapply manifest_ok_files; [apply J|..]; apply sha256_same; try done; by rewrite temp_child, Htx.
Qed.
End journal.
