(* ===== verification/ActivationPlaces.v ===== *)
(** * The journal of a release activation: places

    An activation moves two releases and changes two links and two files.
    Here the file system is abstracted to what lies at these places, and the
    operations of [activate_files] and [restore_files] to updates of that. *)
From S2P Require Import Prelude PyValues Json FileSystem FileLogic Activation.
From S2P Require Import ActivationJson ActivationOps ActivationReplace.
From S2P Require Import ActivationState ActivationViews ActivationJournal.

Open Scope string_scope.

(** What can be at a place. *)
Inductive item :=
| Nothing
| Link (raw : string)
| Release (r : release)
| Conf (o : option (Z * string)).
#[global] Instance item_eq_dec : EqDecision item.
Proof. solve_decision. Defined.

Notation view := (path → item).

Definition upd (p : path) (it : item) (v : view) : view := λ q, if decide (q = p) then it else v q.

Lemma upd_same p it v : upd p it v p = it.
Proof. unfold upd. by rewrite decide_True. Qed.
Lemma upd_other p q it v : q ≠ p → upd p it v q = v q.
Proof. intros H. unfold upd. by rewrite decide_False. Qed.

Section places.
Context {host : Host} {laws : HostLaws host} (a : args) (m : manifest).
(** The tree of a release, and the rest of the file system. *)
Context (tree : release → path → option node) (rest : path → option node).

Notation root := (a_root a).
Notation rel := (a_root a // "releases").
Notation tx := (transaction_directory (a_root a)).
Notation staged := (staged (a_root a)).
Notation holds := (holds (ActivationJournal.staged (a_root a))).

Definition candidate_source : path := absolute (source (candidate_release m)).
Definition candidate_target : path := absolute (target (candidate_release m)).
Definition retired_place : path := candidate_retired root m.
Definition parked_place : path := candidate_parked tx.

(** The files that [replace_config] stages. *)
Definition staging : list path :=
  let e := config_staging_paths (absolute (env_path m)) (transaction_id m) "env" in
  let s := config_staging_paths (absolute (service_path m)) (transaction_id m) "service" in
  [e.1; e.2; s.1; s.2].

(** The places that do not depend on the release to go back to. *)
Definition own_places : list path :=
  [candidate_source; candidate_target; retired_place; parked_place; a_current a; a_previous a;
   a_env a; a_service a] ++ staging.

Definition old_source (r : release) : path := absolute (source r).
Definition old_place (r : release) : path := absolute (target r).
Definition previous_place : path := resolve (a_previous a) (link_target (previous m)).

Definition places : list path :=
  own_places
  ++ match old_release m with Some r => [old_source r; old_place r] | None => [] end
  ++ match previous_release m with Some _ => [previous_place] | None => [] end.

(** Directories and files that stay. *)
Definition kept : list path :=
  [root; rel; tx; tx // "manifest.json"; tx // "env.backup"; tx // "service.backup";
   parent (a_env a); parent (a_service a)].

(** How the installer lays the places out.  No place is inside another; the
    old release is where [current] leads; it is put aside when it is in the way
    of the candidate or is the directory [current] itself. *)
Record layout : Prop := {
  lay_own : check_ownership a m = Ok tt;
  lay_apart : ∀ p q, p ∈ places → q ∈ places → p ≠ q → apart p q;
  lay_temp : ∀ p, p ∈ places → temp p = false;
  lay_kept : ∀ p k, p ∈ places → k ∈ kept → under p k = None;
  lay_parent : ∀ p, p ∈ places → parent p ∈ kept;
  lay_configs : parent (a_env a) ≠ tx ∧ parent (a_service a) ≠ tx;
  lay_nodup : NoDup own_places;
  lay_old : ∀ r, old_release m = Some r →
    old_place r ∉ own_places ∧ distinct r (candidate_release m) ∧ link_text (old_target m);
  lay_dir_text : link_text (release_dir m);
  lay_current :
    match kind (current m) with
    | Missing => current m = mkLink Missing "" ∧ old_release m = None
    | Symlink => ∃ r, old_release m = Some r ∧ link_text (link_target (current m)) ∧
        resolve (a_current a) (link_target (current m)) = old_source r ∧
        (old_source r = old_place r
         ∨ old_source r = candidate_target ∧ link_target (current m) = release_dir m)
    | Directory => current m = mkLink Directory "" ∧
        ∃ r, old_release m = Some r ∧ old_source r = a_current a
    end;
  lay_previous :
    match kind (previous m) with
    | Missing => previous m = mkLink Missing "" ∧ previous_release m = None
    | Symlink => link_text (link_target (previous m))
    | Directory => False
    end;
  lay_previous_place : ∀ q, previous_release m = Some q →
    previous_place ∉ own_places ∧
    ∀ r, old_release m = Some r →
      previous_place ≠ old_source r ∧ previous_place ≠ old_place r
      ∨ old_source r = old_place r ∧ q = r;
}.

(** ** What is at a place *)

Definition item_at (F : fs) (p : path) (it : item) : Prop :=
  match it with
  | Nothing => F !! p = None
  | Link raw => F !! p = Some (Lnk raw)
  | Release r => release_at F p r ∧ ∀ q, F !! (p ++ q)%list = tree r q
  | Conf o => config_at F p o
  end.

(** [F] shows [v]: the journal, the places as in [v], and nothing else than
    [rest], the manifest apart. *)
Record shows (F : fs) (v : view) : Prop := {
  sh_journal : journal root F m;
  sh_rooted : rooted F;
  sh_dirs : ∀ p, p ∈ places → dir_at F (parent p) = true;
  sh_places : ∀ p, p ∈ places → item_at F p (v p);
  sh_rest : ∀ q, q ≠ tx // "manifest.json" → (∀ p, p ∈ places → under p q = None) → F !! q = rest q;
}.

Lemma shows_ext F v v' : (∀ p, p ∈ places → v' p = v p) → shows F v → shows F v'.
Proof. intros E []. split; try done. intros p Hp. rewrite (E p Hp). by apply sh_places0. Qed.

(** ** Changes away from a place *)

Lemma apart_sub p q r : apart p q → under p (q ++ r)%list = None.
Proof. apply apart_below. Qed.

Lemma item_agree (P : path → Prop) F G p it :
  agree P F G → (∀ q, P (p ++ q)%list) → item_at F p it → item_at G p it.
Proof.
  intros HA HP. assert (P p) as Hp by (specialize (HP []); by rewrite app_nil_r in HP).
  destruct it as [|raw|r|o]; cbn.
  - by rewrite (proj1 HA p Hp).
  - by rewrite (proj1 HA p Hp).
  - intros [Hr Ht]. split; [by eapply agree_release; [..|apply (HP ["VERSION"])|]|].
    intros q. by rewrite (proj1 HA _ (HP q)).
  - by eapply agree_config.
Qed.

Lemma agree_sha (P : path → Prop) F G p :
  agree P F G → P p → sha256_file G p = sha256_file F p.
Proof.
  intros [Hl Hn] Hp. unfold sha256_file, read_private, open_regular, lstat. rewrite (Hl p Hp).
  destruct (F !! p) as [[]|] eqn:E; try done. cbn. by rewrite (Hn p _ _ _ _ Hp E).
Qed.

Lemma journal_agree (P : path → Prop) F G :
  agree P F G → (∀ k, k ∈ kept → P k) → journal root F m → journal root G m.
Proof.
  intros HA HP [J1 J2 J3 J4 J5 J6 J7 J8].
  assert (∀ k, k ∈ kept → G !! k = F !! k) as Hl by (intros k Hk; by apply HA, HP).
  unfold kept in *. split; try done.
  - rewrite Hl by set_solver. done.
  - rewrite Hl by set_solver. done.
  - rewrite Hl by set_solver. done.
  - eapply agree_plain; [exact HA| |done]. apply HP. set_solver.
  - eapply manifest_ok_files; [done|..]; (eapply agree_sha; [exact HA|]; apply HP; set_solver).
Qed.

Lemma agree_mono (P P' : path → Prop) F G : agree P F G → (∀ p, P' p → P p) → agree P' F G.
Proof. intros [H1 H2] HP. split; [auto|]. intros p i o mode c Hp. by apply (H2 p), HP. Qed.

Lemma in_pair (p s d : path) : p ∈ [s; d] → p = s ∨ p = d.
Proof. rewrite !elem_of_cons, elem_of_nil. tauto. Qed.
Lemma pair_in (p s d : path) : p = s ∨ p = d → p ∈ [s; d].
Proof. rewrite !elem_of_cons. tauto. Qed.

Section changes.
Context (lay : layout).

Lemma shows_changed (l : list path) F G v v' :
  shows F v → (∀ p, p ∈ l → p ∈ places) → rooted G →
  agree (λ q, ∀ p, p ∈ l → under p q = None) F G →
  (∀ p, p ∈ l → item_at G p (v' p)) → (∀ p, p ∈ places → p ∉ l → v' p = v p) →
  shows G v'.
Proof.
  intros [SJ SR SD SP SX] Hl HR HA Hnew Hold.
  assert (∀ k, k ∈ kept → ∀ p, p ∈ l → under p k = None) as Hk.
  { intros k Hk p Hp. by apply (lay_kept lay); [apply Hl|]. }
  split.
  - by eapply journal_agree.
  - done.
  - intros p Hp. unfold dir_at. rewrite (proj1 HA); [by apply SD|].
    apply Hk, (lay_parent lay), Hp.
  - intros p Hp. destruct (decide (p ∈ l)) as [|Hpl]; [by apply Hnew|].
    rewrite Hold by done. eapply item_agree; [exact HA| |by apply SP].
    intros q p' Hp'. apply apart_below, (lay_apart lay); [by apply Hl|done|congruence].
  - intros q Hm Hq. rewrite (proj1 HA); [by apply SX|]. intros p Hp. by apply Hq, Hl.
Qed.

(** The old name of a release is free, the new one has it. *)
Lemma shows_mv F v s d r :
  shows F v → s ∈ places → d ∈ places → s ≠ d → v s = Release r → v d = Nothing →
  shows (mv s d F) (upd d (Release r) (upd s Nothing v)).
Proof.
  intros HS Hs Hd Hne Es Ed. assert (apart s d) as Ha by by apply (lay_apart lay).
  pose proof (sh_places _ _ HS s Hs) as Is. pose proof (sh_places _ _ HS d Hd) as Id.
  rewrite Es in Is. rewrite Ed in Id. destruct Is as [Hr Ht]. cbn in Id.
  pose proof (sh_rooted _ _ HS) as HR.
  eapply (shows_changed [s; d]); [done| |..].
  - by intros p [->| ->]%in_pair.
  - apply rooted_mv; [done..|]. by apply (sh_dirs _ _ HS).
  - eapply agree_mono; [by apply agree_mv|]. intros q Hq. split; apply Hq, pair_in; tauto.
  - intros p Hp. destruct (decide (p = d)) as [->|Hpd].
    + rewrite upd_same. split; [by apply release_mv|]. intros q.
      rewrite lookup_mv by apply Ha. by rewrite under_below.
    + rewrite upd_other by done. assert (p = s) as -> by (apply in_pair in Hp; tauto). rewrite upd_same.
      by apply mv_gone.
  - intros p _ Hp. rewrite !upd_other; [done|..]; intros ->; apply Hp, pair_in; tauto.
Qed.

Definition small (it : item) : Prop := it = Nothing ∨ ∃ raw, it = Link raw.

Lemma shows_link F v p raw :
  shows F v → p ∈ places → small (v p) → shows (<[p := Lnk raw]> F) (upd p (Link raw) v).
Proof.
  intros HS Hp Hv. pose proof (sh_places _ _ HS p Hp) as Ip.
  eapply (shows_changed [p]); [done|set_solver|..].
  - apply rooted_insert; [apply HS| |].
    + intros d n ->. pose proof (sh_dirs _ _ HS _ Hp) as H. by rewrite parent_child in H.
    + unfold dir_at. destruct Hv as [Hv|[raw' Hv]]; rewrite Hv in Ip; cbn in Ip; by rewrite Ip.
  - eapply agree_mono; [apply agree_link|].
    + destruct Hv as [Hv|[raw' Hv]]; rewrite Hv in Ip; cbn in Ip; by rewrite Ip.
    + intros q Hq ->. specialize (Hq p ltac:(set_solver)). by rewrite under_refl in Hq.
  - intros q ->%list_elem_of_singleton. rewrite upd_same. cbn. apply lookup_insert_eq.
  - intros q _ Hq. apply upd_other. set_solver.
Qed.

Lemma shows_unlink F v p raw :
  shows F v → p ∈ places → v p = Link raw → shows (delete p F) (upd p Nothing v).
Proof.
  intros HS Hp Hv. pose proof (sh_places _ _ HS p Hp) as Ip. rewrite Hv in Ip. cbn in Ip.
  eapply (shows_changed [p]); [done|set_solver|..].
  - apply rooted_delete; [apply HS|]. unfold dir_at. by rewrite Ip.
  - eapply agree_mono; [by eapply agree_unlink|].
    intros q Hq ->. specialize (Hq p ltac:(set_solver)). by rewrite under_refl in Hq.
  - intros q ->%list_elem_of_singleton. rewrite upd_same. cbn. apply lookup_delete_eq.
  - intros q _ Hq. apply upd_other. set_solver.
Qed.

Lemma config_plain F p o : config_at F p o → plain_or_none F p.
Proof. destruct o as [[mode c]|]; [intros [H _]; right; eauto|by left]. Qed.

Lemma shows_config F v p o mode c F' :
  shows F v → p ∈ places → v p = Conf o → unshared mode = true → (len c ≤ MAX_CONFIG_BYTES)%Z →
  new_file F p mode c F' → shows F' (upd p (Conf (Some (mode, c))) v).
Proof.
  intros HS Hp Hv Hm Hc (i & -> & Hf). pose proof (sh_places _ _ HS p Hp) as Ip. rewrite Hv in Ip.
  apply config_plain in Ip. eapply (shows_changed [p]); [done|set_solver|..].
  - apply rooted_insert; [apply HS| |].
    + intros d n ->. pose proof (sh_dirs _ _ HS _ Hp) as H. by rewrite parent_child in H.
    + unfold dir_at. destruct Ip as [Ip|(? & ? & ? & Ip & _)]; by rewrite Ip.
  - eapply agree_mono; [by apply agree_file|].
    intros q Hq ->. specialize (Hq p ltac:(set_solver)). by rewrite under_refl in Hq.
  - intros q ->%list_elem_of_singleton. rewrite upd_same. cbn. split; [|done].
    apply plain_new. intros q. by apply Hf.
  - intros q _ Hq. apply upd_other. set_solver.
Qed.

Lemma shows_unconfig F v p o :
  shows F v → p ∈ places → v p = Conf o → shows (delete p F) (upd p (Conf None) v).
Proof.
  intros HS Hp Hv. pose proof (sh_places _ _ HS p Hp) as Ip. rewrite Hv in Ip.
  apply config_plain in Ip. eapply (shows_changed [p]); [done|set_solver|..].
  - apply rooted_delete; [apply HS|]. unfold dir_at.
    destruct Ip as [Ip|(? & ? & ? & Ip & _)]; by rewrite Ip.
  - eapply agree_mono; [by apply agree_unfile|].
    intros q Hq ->. specialize (Hq p ltac:(set_solver)). by rewrite under_refl in Hq.
  - intros q ->%list_elem_of_singleton. rewrite upd_same. cbn. apply lookup_delete_eq.
  - intros q _ Hq. apply upd_other. set_solver.
Qed.
End changes.
End places.
