(* ===== verification/ActivationSteps.v ===== *)
(** * The journal of a release activation: what is under way

    The states of the places that an activation or its undoing can be
    interrupted in, that [_validate_invocation] accepts them, and the
    operations as steps between them. *)
From S2P Require Import Prelude PyValues Json FileSystem FileLogic Activation.
From S2P Require Import ActivationJson ActivationOps ActivationReplace.
From S2P Require Import ActivationState ActivationViews ActivationJournal ActivationPlaces.

Open Scope string_scope.

Section looks.
Context {host : Host} {laws : HostLaws host}.

(** What a reader sees of an item. *)
Definition looks (f : fs) (p : path) (it : item) : Prop :=
  match it with
  | Nothing => f !! p = None
  | Link raw => f !! p = Some (Lnk raw)
  | Release r => release_at f p r
  | Conf o => config_at f p o
  end.

(** An item that is no configuration file. *)
Definition solid (it : item) : Prop := match it with Conf _ => False | _ => True end.

Lemma looks_matches f p it r :
  looks f p it → solid it → (∀ r', it = Release r' → r' = r ∨ distinct r' r) →
  release_matches f p r = Ok (bool_decide (it = Release r)).
Proof.
  intros H Hs Hd. destruct it as [|raw|r'|o]; cbn in *; [| | |done].
  - rewrite bool_decide_false by done. by apply not_at_matches, not_at_none.
  - rewrite bool_decide_false by done. by eapply not_at_matches, not_at_link.
  - destruct (Hd r' eq_refl) as [->|Hd'].
    + rewrite bool_decide_true by done. by apply release_at_matches.
    + rewrite bool_decide_false.
      * apply not_at_matches. by eapply not_at_other.
      * intros [= ->]. by destruct Hd'.
Qed.

Lemma looks_present f p it : looks f p it → solid it → lexists f p = negb (bool_decide (it = Nothing)).
Proof.
  intros H Hs. unfold lexists. destruct it as [|raw|r|o]; cbn in *; [..|done].
  - by rewrite H.
  - by rewrite H.
  - destruct H as [(mode & H & _) _]. by rewrite H.
Qed.

Lemma looks_calm f p it : looks f p it → solid it → calm f p.
Proof.
  intros H Hs. destruct it as [|raw|r|o]; cbn in *; [..|done].
  - by left.
  - right. left. eauto.
  - right. right. eauto.
Qed.
End looks.

Section underway.
Context {host : Host} {laws : HostLaws host} (a : args) (m : manifest).
Context (lay : layout a m).

Notation root := (a_root a).
Notation tx := (transaction_directory (a_root a)).
Notation places := (places a m).
Notation own_places := (own_places a m).
Notation source_c := (candidate_source m).
Notation target_c := (candidate_target m).
Notation parked := (parked_place a).
Notation candidate := (candidate_release m).

(** [current] and [previous] before the activation. *)
Definition original_current : item :=
  match kind (current m) with
  | Symlink => Link (link_target (current m))
  | Directory => match old_release m with Some r => Release r | None => Nothing end
  | Missing => Nothing
  end.
Definition original_previous : item :=
  match kind (previous m) with Symlink => Link (link_target (previous m)) | _ => Nothing end.

(** The place of the candidate is free, or has the old release. *)
Definition target_free (v : view) : Prop :=
  v target_c = Nothing ∨ ∃ r, old_release m = Some r ∧ old_source r = target_c ∧ v target_c = Release r.

(** The states in which an activation, or its undoing, can be interrupted: each
    release is at exactly one of its places, each link is the old one, the new
    one, or missing. *)
Record underway (v : view) : Prop := {
  u_old : ∀ r, old_release m = Some r →
    if decide (old_source r = old_place r) then v (old_source r) = Release r
    else v (old_source r) = Release r ∧ v (old_place r) = Nothing
         ∨ v (old_place r) = Release r ∧ v (old_source r) ≠ Release r;
  u_candidate :
    v source_c = Release candidate ∧ target_free v ∧ v parked = Nothing
    ∨ v source_c = Nothing ∧ v target_c = Release candidate ∧ v parked = Nothing
    ∨ v source_c = Nothing ∧ target_free v ∧ v parked = Release candidate;
  u_retired : v (retired_place a m) = Nothing;
  u_staging : ∀ p, p ∈ staging m → v p = Nothing;
  u_current : v (a_current a) = Nothing ∨ v (a_current a) = Link (release_dir m)
              ∨ v (a_current a) = original_current;
  u_previous : v (a_previous a) = Nothing
    ∨ (∃ r, old_release m = Some r ∧ v (a_previous a) = Link (old_target m))
    ∨ v (a_previous a) = original_previous;
  u_previous_place : ∀ q, previous_release m = Some q → v (previous_place a m) = Release q;
  u_configs : ∃ e s, v (a_env a) = Conf e ∧ v (a_service a) = Conf s ∧ configs_ok m e s;
}.

(** Before the release of [previous] is in its place, only a rollback may see
    the link to it. *)
Definition previous_ready (v : view) : Prop :=
  m_phase m = RollingBack ∨
  ∀ r, old_release m = Some r → v (a_previous a) = Link (old_target m) →
    v (old_place r) = Release r ∨ original_previous = Link (old_target m).

(** *** Facts of the layout *)

Lemma own_in p : p ∈ own_places → p ∈ places.
Proof. intros H. apply elem_of_app. by left. Qed.
Lemma source_own : source_c ∈ own_places. Proof. left. Qed.
Lemma source_in : source_c ∈ places. Proof. apply own_in, source_own. Qed.
Lemma target_own : target_c ∈ own_places. Proof. right. left. Qed.
Lemma target_in : target_c ∈ places. Proof. apply own_in, target_own. Qed.
Lemma retired_own : retired_place a m ∈ own_places. Proof. do 2 right. left. Qed.
Lemma retired_in : retired_place a m ∈ places. Proof. apply own_in, retired_own. Qed.
Lemma parked_own : parked ∈ own_places. Proof. do 3 right. left. Qed.
Lemma parked_in : parked ∈ places. Proof. apply own_in, parked_own. Qed.
Lemma current_own : a_current a ∈ own_places. Proof. do 4 right. left. Qed.
Lemma current_in : a_current a ∈ places. Proof. apply own_in, current_own. Qed.
Lemma previous_own : a_previous a ∈ own_places. Proof. do 5 right. left. Qed.
Lemma previous_in : a_previous a ∈ places. Proof. apply own_in, previous_own. Qed.
Lemma env_own : a_env a ∈ own_places. Proof. do 6 right. left. Qed.
Lemma env_in : a_env a ∈ places. Proof. apply own_in, env_own. Qed.
Lemma service_own : a_service a ∈ own_places. Proof. do 7 right. left. Qed.
Lemma service_in : a_service a ∈ places. Proof. apply own_in, service_own. Qed.
Lemma staging_own p : p ∈ staging m → p ∈ own_places.
Proof. intros H. do 8 right. done. Qed.
Lemma old_source_in r : old_release m = Some r → old_source r ∈ places.
Proof. intros H. apply elem_of_app. right. rewrite H. left. Qed.
Lemma old_place_in r : old_release m = Some r → old_place r ∈ places.
Proof. intros H. apply elem_of_app. right. rewrite H. right. left. Qed.
Lemma previous_place_in q : previous_release m = Some q → previous_place a m ∈ places.
Proof. intros H. apply elem_of_app. right. apply elem_of_app. right. rewrite H. left. Qed.

(** The places that do not depend on the old release are pairwise different. *)
Ltac differ :=
  let H := fresh in
  pose proof (lay_nodup a m lay) as H; unfold ActivationPlaces.own_places, staging in H;
  cbn zeta in H; cbn [app] in H;
  repeat match type of H with
    | NoDup (_ :: _) => let X := fresh in apply NoDup_cons in H as [X H]
    | NoDup [] => clear H
  end;
  repeat match goal with
    | X : _ ∉ _ :: _ |- _ => apply not_elem_of_cons in X as [? X]
    | X : _ ∉ [] |- _ => clear X
  end.

Lemma target_not_source : target_c ≠ source_c.
Proof. differ. congruence. Qed.

(** The same for the place the old release is put aside at. *)
Lemma old_place_ne r p : old_release m = Some r → p ∈ own_places → old_place r ≠ p.
Proof. intros Hr Hp <-. by apply (lay_old a m lay r Hr). Qed.

(** The old release is in the way of the candidate, or it is the directory
    [current], or it stays. *)
Lemma old_source_cases r : old_release m = Some r →
  old_source r = old_place r
  ∨ old_source r ≠ old_place r ∧ old_source r = target_c ∧ kind (current m) = Symlink
    ∧ link_target (current m) = release_dir m
  ∨ old_source r ≠ old_place r ∧ old_source r = a_current a ∧ kind (current m) = Directory.
Proof.
  intros Hr. pose proof (lay_current a m lay) as H. destruct (kind (current m)) eqn:E.
  - destruct H. congruence.
  - destruct H as (r' & Hr' & _ & _ & [H|[H1 H2]]); assert (r' = r) as -> by congruence; [by left|].
    right. left. split_and!; [|done..]. rewrite H1. apply not_eq_sym, old_place_ne; [done|].
    right. left.
  - destruct H as (_ & r' & Hr' & H). assert (r' = r) as -> by congruence.
    right. right. split_and!; [|done..]. rewrite H. apply not_eq_sym, old_place_ne; [done|].
    do 4 right. left.
Qed.

Lemma old_solid v r : underway v → old_release m = Some r → solid (v (old_source r)) ∧ solid (v (old_place r)).
Proof.
  intros U Hr. pose proof (u_old v U r Hr) as Ho. pose proof (u_candidate v U) as Hc.
  pose proof (u_current v U) as Hk. unfold target_free, original_current in *. rewrite Hr in Hk.
  destruct (old_source_cases r Hr) as [E|[(E & E2 & _)|(E & E2 & E3)]].
  - rewrite decide_True in Ho by done. rewrite <-E, Ho. done.
  - rewrite decide_False in Ho by done. destruct Ho as [[-> ->]|[-> _]]; [done|].
    split; [|done]. rewrite E2.
    destruct Hc as [(_ & [->|(? & _ & _ & ->)] & _)|[(_ & -> & _)|(_ & [->|(? & _ & _ & ->)] & _)]]; done.
  - rewrite decide_False in Ho by done. destruct Ho as [[-> ->]|[-> _]]; [done|].
    split; [|done]. rewrite E2. rewrite E3 in Hk. destruct Hk as [-> |[-> | ->]]; done.
Qed.

(** *** The states validate *)

Lemma release_text f r rel dir : manifest_ok f r rel dir m →
  absolute (release_dir m) = target_c ∧ is_absolute (release_dir m) = true.
Proof.
  intros H. destruct (ok_candidate _ _ _ _ _ H) as [_ Hc]. unfold check_candidate in Hc.
  apply raise_if_Ok in Hc. repeat (apply orb_false_iff in Hc as [Hc ?]). bools.
  unfold candidate_target. split; [done|]. apply String.eqb_eq in Hc. rewrite Hc. apply startswith_app.
Qed.

Lemma resolve_absolute p raw : is_absolute raw = true → resolve p raw = absolute raw.
Proof. intros H. unfold resolve, absolute. by rewrite H. Qed.

Lemma old_text f r0 rel dir r : manifest_ok f r0 rel dir m → old_release m = Some r →
  absolute (old_target m) = old_place r ∧ is_absolute (old_target m) = true.
Proof.
  intros H Hr. pose proof (ok_check_old _ _ _ _ _ H) as Hc. unfold check_old in Hc. rewrite Hr in Hc.
  apply raise_if_Ok in Hc. repeat (apply orb_false_iff in Hc as [Hc ?]). bools.
  repeat match goal with X : String.eqb _ _ = true |- _ => apply String.eqb_eq in X end.
  unfold old_place. split; [congruence|].
  assert (old_target m = str (absolute (target r))) as -> by congruence. apply startswith_app.
Qed.

Section accepted.
Context (f g : fs) (v : view) (am : bool) (r0 rel dir : path) (ok : manifest_ok g r0 rel dir m).
Context (Hf : ∀ p, p ∈ places → looks f p (v p)) (U : underway v).

Lemma current_accepted : current_ok a m f.
Proof.
  pose proof (Hf _ current_in) as Lc. pose proof (Hf _ target_in) as Lt.
  destruct (release_text _ _ _ _ ok) as [Hrel Habs].
  assert (resolve (a_current a) (release_dir m) = target_c) as Hres by (by rewrite resolve_absolute).
  assert (v (a_current a) = Link (release_dir m) →
    (∀ r, old_release m = Some r → old_source r = target_c → v target_c ≠ Release r) →
    current_ok a m f) as Hcand.
  { intros Hc Hno. right. left. rewrite Hc in Lc. split_and!; [done|apply lay|]. rewrite Hres.
    destruct (u_candidate v U) as [(_ & [Ht|(r & H1 & H2 & H3)] & _)|[(_ & Ht & _)|(_ & [Ht|(r & H1 & H2 & H3)] & _)]].
    - left. by rewrite Ht in Lt.
    - by destruct (Hno r H1 H2).
    - right. by rewrite Ht in Lt.
    - left. by rewrite Ht in Lt.
    - by destruct (Hno r H1 H2). }
  assert (∀ r, old_release m = Some r → kind (current m) = Symlink →
    v (a_current a) = Link (link_target (current m)) → v (old_source r) = Release r →
    current_ok a m f) as Horig.
  { intros r Hr Hk Hc Ho. right. right. exists r. split; [done|]. left.
    pose proof (lay_current a m lay) as H. rewrite Hk in H.
    destruct H as (r' & Hr' & Ht & Hrs & _). assert (r' = r) as -> by congruence.
    exists (link_target (current m)). rewrite Hc in Lc. split_and!; [|done|done|].
    - destruct (current m). cbn in *. by subst.
    - rewrite Hrs. pose proof (Hf _ (old_source_in r Hr)) as L. by rewrite Ho in L. }
  destruct (u_current v U) as [Hc|[Hc|Hc]].
  - left. by rewrite Hc in Lc.
  - destruct (old_release m) as [r|] eqn:Hr; [|by apply Hcand].
    destruct (decide (v target_c = Release r)) as [Ht|Ht]; [|by apply Hcand; [|intros ? [= <-]]].
    destruct (decide (old_source r = target_c)) as [E|E]; [|by apply Hcand; [|intros ? [= <-]]].
    destruct (old_source_cases r Hr) as [E1|[(E1 & E2 & E3 & E4)|(E1 & E2 & _)]].
    + exfalso. apply (old_place_ne r target_c Hr); [right; left|congruence].
    + apply (Horig r eq_refl); [done|by rewrite E4|by rewrite E].
    + exfalso. differ. congruence.
  - unfold original_current in Hc. pose proof (lay_current a m lay) as HL.
    destruct (kind (current m)) eqn:Hk.
    + left. by rewrite Hc in Lc.
    + destruct HL as (r & Hr & _). pose proof (u_old v U r Hr) as Ho.
      destruct (decide (v (old_source r) = Release r)) as [H|H]; [by apply (Horig r)|].
      destruct (old_source_cases r Hr) as [E1|[(E1 & E2 & E3 & E4)|(E1 & E2 & E3)]]; [| |congruence].
      * by rewrite decide_True in Ho.
      * apply Hcand; [by rewrite Hc, E4|]. intros r' Hr' E. rewrite <-E2. congruence.
    + destruct HL as (Hcm & r & Hr & E). rewrite Hr in Hc. right. right. exists r. split; [done|].
      right. split; [done|]. by rewrite Hc in Lc.
Qed.

Lemma previous_accepted : previous_ready v → previous_ok a m f.
Proof.
  intros Hready. pose proof (Hf _ previous_in) as Lp. pose proof (lay_previous a m lay) as HL.
  assert (v (a_previous a) = original_previous → previous_ok a m f) as Horig.
  { unfold original_previous. destruct (kind (previous m)) eqn:Hk; [| |done]; intros Hp; rewrite Hp in Lp.
    - by left.
    - right. left. exists (link_target (previous m)). split_and!; [|done|done|].
      + destruct (previous m). cbn in *. by subst.
      + intros q Hq. pose proof (Hf _ (previous_place_in q Hq)) as L.
        by rewrite (u_previous_place v U q Hq) in L. }
  destruct (u_previous v U) as [Hp|[(r & Hr & Hp)|Hp]]; [left; by rewrite Hp in Lp| |by apply Horig].
  destruct (old_text _ _ _ _ r ok Hr) as [Hot Habs].
  assert (resolve (a_previous a) (old_target m) = old_place r) as Hres by by rewrite resolve_absolute.
  assert (v (old_place r) = Release r ∨ m_phase m = RollingBack ∧ v (old_source r) = Release r →
    previous_ok a m f) as Hcand.
  { intros H. right. right. exists r. rewrite Hp in Lp. split_and!; [done|by intros E; rewrite E in Habs|done| |].
    - by apply (lay_old a m lay r Hr).
    - rewrite Hres. pose proof (Hf _ (old_source_in r Hr)) as L1.
      pose proof (Hf _ (old_place_in r Hr)) as L2.
      destruct H as [H|[Hph H]]; [left; by rewrite H in L2|right; split; [done|]; by rewrite H in L1]. }
  destruct Hready as [Hph|H].
  - apply Hcand. pose proof (u_old v U r Hr) as Ho. case_decide as E.
    + rewrite <-E. by left.
    + naive_solver.
  - destruct (H r Hr Hp) as [H'|H']; [apply Hcand; by left|]. apply Horig. congruence.
Qed.

Lemma target_solid : solid (v target_c).
Proof.
  destruct (u_candidate v U) as [(_ & [->|(r & _ & _ & ->)] & _)|[(_ & -> & _)|(_ & [->|(r & _ & _ & ->)] & _)]]; done.
Qed.
Lemma source_solid : solid (v source_c).
Proof. destruct (u_candidate v U) as [(-> & _)|[(-> & _)|(-> & _)]]; done. Qed.
Lemma parked_solid : solid (v parked).
Proof. destruct (u_candidate v U) as [(_ & _ & ->)|[(_ & _ & ->)|(_ & _ & ->)]]; done. Qed.

Lemma underway_acceptable :
  previous_ready v → am = true ∨ v parked = Nothing → acceptable a m f am.
Proof.
  intros Hready Ham. split.
  - apply lay.
  - split.
    + eapply looks_calm; [apply Hf, source_in|apply source_solid].
    + eapply looks_calm; [apply Hf, target_in|apply target_solid].
    + eapply looks_calm; [apply Hf, retired_in|].
      pose proof (u_retired v U) as H. unfold retired_place in H. by rewrite H.
    + eapply looks_calm; [apply Hf, parked_in|apply parked_solid].
    + intros r Hr. destruct (old_solid v r U Hr) as [S1 S2].
      destruct (old_text _ _ _ _ r ok Hr) as [Hot Habs].
      rewrite (resolve_absolute _ _ Habs), Hot.
      split_and!; eapply looks_calm; eauto using old_source_in, old_place_in.
  - intros r Hr. pose proof (u_old v U r Hr) as Ho.
    pose proof (Hf _ (old_source_in r Hr)) as L1. pose proof (Hf _ (old_place_in r Hr)) as L2.
    case_decide as E; [left; by rewrite Ho in L1|].
    destruct Ho as [[Ho _]|[Ho _]]; [left; by rewrite Ho in L1|right; by rewrite Ho in L2].
  - pose proof (Hf _ source_in) as L1. pose proof (Hf _ target_in) as L2.
    destruct (u_candidate v U) as [(H & _)|[(_ & H & _)|(_ & _ & H)]].
    + right. left. by rewrite H in L1.
    + right. right. by rewrite H in L2.
    + left. destruct Ham; congruence.
  - apply current_accepted.
  - by apply previous_accepted.
  - destruct (u_configs v U) as (e & s & He & Hs & Hok). exists e, s.
    pose proof (Hf _ env_in) as L1. pose proof (Hf _ service_in) as L2.
    rewrite He in L1. rewrite Hs in L2. done.
Qed.
End accepted.
End underway.
