(* ===== verification/ActivationRules.v ===== *)
(** * The journal of a release activation: rules

    The worlds that show a view of the places, and what each operation does to
    the view. *)
From S2P Require Import Prelude PyValues Json FileSystem FileLogic Activation.
From S2P Require Import ActivationJson ActivationOps ActivationReplace.
From S2P Require Import ActivationState ActivationViews ActivationJournal ActivationPlaces ActivationSteps.

Open Scope string_scope.

Section rules.
Context {host : Host} {laws : HostLaws host} (a : args) (m : manifest).
Context (tree : release → path → option node) (rest : path → option node).
Context (lay : layout a m).

Notation root := (a_root a).
Notation tx := (transaction_directory (a_root a)).
Notation places := (places a m).
Notation staged := (staged (a_root a)).
Notation holds := (holds (ActivationJournal.staged (a_root a))).
Notation shows := (shows a m tree rest).

(** The world shows the view, temporary files apart. *)
Definition st (v : view) (w : world) : Prop := ∃ F, holds F w ∧ shows F v.

Lemma st_ext v v' w : (∀ p, p ∈ places → v' p = v p) → st v w → st v' w.
Proof. intros E (F & Hw & HS). exists F. split; [done|]. by eapply shows_ext. Qed.

Lemma st_looks v w p : st v w → p ∈ places → looks (files w) p (v p).
Proof.
  intros (F & Hw & HS) Hp. pose proof (lay_temp a m lay p Hp) as Ht.
  pose proof (sh_places _ _ _ _ _ _ HS p Hp) as H. destruct (v p) as [|raw|r|o]; cbn in *.
  - by rewrite (holds_lookup staged F w p Hw Ht).
  - by rewrite (holds_lookup staged F w p Hw Ht).
  - eapply holds_release; [done..|apply H].
  - by eapply holds_config.
Qed.

Lemma st_journal v w : st v w → ∃ F, holds F w ∧ journal root F m.
Proof. intros (F & Hw & HS). exists F. split; [done|apply HS]. Qed.

Lemma st_ok v w : st v w → ∃ f, manifest_ok f root (root // "releases") tx m.
Proof. intros (F & _ & HS). exists F. apply HS. Qed.

Lemma wp_st_manifest v w Q C :
  st v w → (∀ w', st v w' → Q m w') → (∀ w', st v w' → C w') →
  wp (read_manifest root tx) Q C w.
Proof.
  intros (F & Hw & HS) HQ HC. eapply (wp_read_manifest root F); [done|apply HS|..].
  - intros w' H. apply HQ. by exists F.
  - intros w' H. apply HC. by exists F.
Qed.

Lemma wp_st_validate v w am (Q : unit → world → Prop) C :
  st v w → moving m → underway a m v → previous_ready a m v →
  am = true ∨ v (parked_place a) = Nothing → Q tt w →
  wp (reading (λ f, validate_invocation f a m am tx)) Q C w.
Proof.
  intros Hw Hm U Hr Ham HQ. eapply wp_reading; [|exact HQ].
  apply validate_accepted; [done|]. destruct (st_ok v w Hw) as [f Hok].
  eapply underway_acceptable; try done. intros p. by apply st_looks.
Qed.

Lemma wp_st_matches v w p r Q C :
  st v w → p ∈ places → solid (v p) → (∀ r', v p = Release r' → r' = r ∨ distinct r' r) →
  Q (bool_decide (v p = Release r)) w → wp (matches p r) Q C w.
Proof.
  intros Hw Hp Hs Hd HQ. eapply wp_reading; [|exact HQ].
  apply looks_matches; [by apply st_looks|done..].
Qed.

Lemma wp_st_present v w p Q C :
  st v w → p ∈ places → solid (v p) →
  Q (negb (bool_decide (v p = Nothing))) w → wp (present p) Q C w.
Proof.
  intros Hw Hp Hs HQ. eapply wp_reading; [|exact HQ]. f_equal.
  apply looks_present; [by apply st_looks|done].
Qed.

(** *** Steps *)

Definition steps (v : view) (mm : M unit) (v' : view) : Prop :=
  ∀ w, st v w → wp mm (λ _, st v') (λ w', st v w' ∨ st v' w') w.

Lemma steps_atomic v mm v' :
  (∀ F, shows F v → ∃ F', shows F' v' ∧ atomic staged F mm F') → steps v mm v'.
Proof.
  intros H w (F & Hw & HS). destruct (H F HS) as (F' & HS' & HA).
  eapply wp_mono; [by apply HA|..].
  - intros [] w' Hw'. by exists F'.
  - intros w' [Hw'|Hw']; [left; by exists F|right; by exists F'].
Qed.

Lemma staged_apart p q : p ∈ places → staged q = true → under p q = None.
Proof.
  intros Hp Hq. destruct (under p q) as [r|] eqn:E; [|done]. exfalso.
  apply under_Some in E as ->. pose proof (lay_temp a m lay p Hp) as Ht.
  destruct r as [|n r _] using rev_ind.
  - rewrite app_nil_r in Hq. apply staged_temp in Hq. congruence.
  - unfold ActivationJournal.staged in Hq. apply andb_true_iff in Hq as [Hq%bool_decide_eq_true _].
    rewrite app_assoc in Hq. change ((p ++ r) ++ [n])%list with ((p ++ r)%list // n) in Hq.
    rewrite parent_child in Hq. pose proof (lay_kept a m lay p tx Hp) as Hk.
    rewrite <-Hq, under_below in Hk. specialize (Hk ltac:(unfold kept; set_solver)). done.
Qed.

Lemma place_nonempty p : p ∈ places → p ≠ [].
Proof.
  intros Hp ->. pose proof (lay_kept a m lay [] tx Hp ltac:(unfold kept; set_solver)). done.
Qed.

Lemma step_move v s d r :
  s ∈ places → d ∈ places → s ≠ d → v s = Release r → v d = Nothing →
  steps v (rename_and_fsync s d) (upd d (Release r) (upd s Nothing v)).
Proof.
  intros Hs Hd Hne Es Ed. apply steps_atomic. intros F HS. exists (mv s d F).
  split; [by eapply shows_mv|].
  pose proof (sh_places _ _ _ _ _ _ HS s Hs) as Is. rewrite Es in Is. destruct Is as [Is _].
  pose proof (sh_places _ _ _ _ _ _ HS d Hd) as Id. rewrite Ed in Id. cbn in Id.
  apply atomic_rename_and_fsync; try done.
  - by eapply release_dir_at.
  - by apply (lay_temp a m lay).
  - by apply (lay_temp a m lay).
  - by apply (lay_apart a m lay).
  - by apply (sh_dirs _ _ _ _ _ _ HS).
  - by apply (sh_dirs _ _ _ _ _ _ HS).
  - by apply (lay_kept a m lay), (lay_parent a m lay).
  - by apply (lay_kept a m lay), (lay_parent a m lay).
  - by apply (lay_kept a m lay), (lay_parent a m lay).
  - by apply (lay_kept a m lay), (lay_parent a m lay).
  - intros p Hp. split; by apply staged_apart.
Qed.

(** A place of a link or a file. *)
Lemma place_target F v p :
  shows F v → p ∈ places → (∀ r, v p ≠ Release r) → target_place F p.
Proof.
  intros HS Hp Hv. split.
  - by apply (lay_temp a m lay).
  - by apply place_nonempty.
  - by apply (sh_dirs _ _ _ _ _ _ HS).
  - pose proof (sh_places _ _ _ _ _ _ HS p Hp) as H. unfold dir_at.
    destruct (v p) as [|raw|r|[[mode c]|]]; cbn in H; [by rewrite H|by rewrite H|by destruct (Hv r)| |by rewrite H].
    destruct H as ((i & H & _) & _). by rewrite H.
Qed.

Lemma not_staged p : parent p ≠ tx → ∀ t, parent t = parent p → staged t = false.
Proof.
  intros H t Ht. unfold ActivationJournal.staged. rewrite bool_decide_false; [done|congruence].
Qed.

Lemma step_link v p raw :
  p ∈ places → parent p ≠ tx → small (v p) → steps v (replace_symlink p raw) (upd p (Link raw) v).
Proof.
  intros Hp Hpar Hv. apply steps_atomic. intros F HS. exists (<[p := Lnk raw]> F).
  split; [by apply shows_link|]. apply atomic_replace_symlink.
  - apply staged_temp.
  - eapply place_target; [done..|]. intros r E. rewrite E in Hv. by destruct Hv as [|[? ?]].
  - by apply not_staged.
Qed.

Lemma step_unlink v p raw :
  p ∈ places → v p = Link raw → steps v (unlink p;; fsync_directory (parent p)) (upd p Nothing v).
Proof.
  intros Hp Hv. apply steps_atomic. intros F HS. exists (delete p F).
  split; [by eapply shows_unlink|].
  pose proof (sh_places _ _ _ _ _ _ HS p Hp) as H. rewrite Hv in H. cbn in H.
  eapply atomic_remove; [done|done|by apply (lay_temp a m lay)|by apply place_nonempty|].
  by apply (sh_dirs _ _ _ _ _ _ HS).
Qed.

Lemma step_config v p o mode c :
  p ∈ places → parent p ≠ tx → v p = Conf o → unshared mode = true → (len c ≤ MAX_CONFIG_BYTES)%Z →
  steps v (t ← temporary_for p;
           finally (write_new t mode c;; rename t p;; fsync_directory (parent p)) (unlink_quietly t))
        (upd p (Conf (Some (mode, c))) v).
Proof.
  intros Hp Hpar Hv Hm Hc w (F & Hw & HS).
  assert (∀ F' w', new_file F p mode c F' → holds F' w' → st (upd p (Conf (Some (mode, c))) v) w') as HN.
  { intros F' w' HF Hw'. exists F'. split; [done|]. by eapply shows_config. }
  eapply (wp_replace_file staged); [apply staged_temp|done| | |by eauto|..].
  - eapply place_target; [done..|]. intros r. by rewrite Hv.
  - left. by apply not_staged.
  - intros w' Hw'. left. by exists F.
  - eauto.
Qed.

Lemma step_unconfig v p mode c :
  p ∈ places → v p = Conf (Some (mode, c)) →
  steps v (unlink p;; fsync_directory (parent p)) (upd p (Conf None) v).
Proof.
  intros Hp Hv. apply steps_atomic. intros F HS. exists (delete p F).
  split; [by eapply shows_unconfig|].
  pose proof (sh_places _ _ _ _ _ _ HS p Hp) as H. rewrite Hv in H. destruct H as ((i & H & _) & _).
  eapply atomic_remove; [done|done|by apply (lay_temp a m lay)|by apply place_nonempty|].
  by apply (sh_dirs _ _ _ _ _ _ HS).
Qed.

(** *** Programs under an invariant *)

(** From a view with [I] and [P], [mm] ends in one with [I] and [Q], and an
    interruption leaves one with [I]. *)
Definition during (I P : view → Prop) (mm : M unit) (Q : view → Prop) : Prop :=
  ∀ v w, st v w → I v → P v →
    wp mm (λ _ w', ∃ v', st v' w' ∧ I v' ∧ Q v') (λ w', ∃ v', st v' w' ∧ I v') w.

Lemma during_bind I P mm Q k R : during I P mm Q → during I Q k R → during I P (mm;; k) R.
Proof.
  intros Hm Hk v w Hw HI HP. apply wp_bind. eapply wp_mono; [by eapply Hm| |done].
  intros [] w' (v' & Hw' & HI' & HQ). by eapply Hk.
Qed.

Lemma during_ret (I P : view → Prop) : during I P (mret tt) P.
Proof. intros v w Hw HI HP. apply wp_ret. eauto. Qed.

Lemma during_weaken (I P P' : view → Prop) mm Q Q' :
  during I P mm Q → (∀ v, I v → P' v → P v) → (∀ v, I v → Q v → Q' v) → during I P' mm Q'.
Proof.
  intros H HP HQ v w Hw HI HP'. eapply wp_mono; [by eapply H; eauto| |done].
  intros [] w' (v' & ? & ? & ?). eauto 10.
Qed.

Lemma wp_steps (I Q : view → Prop) v mm v' w :
  steps v mm v' → st v w → I v → I v' → Q v' →
  wp mm (λ _ w', ∃ v', st v' w' ∧ I v' ∧ Q v') (λ w', ∃ v', st v' w' ∧ I v') w.
Proof.
  intros Hs Hw HI HI' HQ. eapply wp_mono; [by apply Hs|..].
  - intros [] w' H. eauto.
  - intros w' [H|H]; eauto.
Qed.
End rules.
