(* ===== verification/ActivationMoves.v ===== *)
(** * The journal of a release activation: moves between states under way

    Every operation of [activate_files] and [restore_files] leads from a state
    that is under way to one that is. *)
From S2P Require Import Prelude PyValues Json FileSystem FileLogic Activation.
From S2P Require Import ActivationJson ActivationOps ActivationReplace.
From S2P Require Import ActivationState ActivationViews ActivationJournal ActivationPlaces ActivationSteps.

Open Scope string_scope.

Section moves.
Context {host : Host} {laws : HostLaws host} (a : args) (m : manifest).
Context (lay : layout a m).

Notation places := (places a m).
Notation own_places := (own_places a m).
Notation source_c := (candidate_source m).
Notation target_c := (candidate_target m).
Notation parked := (parked_place a).
Notation candidate := (candidate_release m).
Notation underway := (underway a m).

Lemma own_ne i j p q : own_places !! i = Some p → own_places !! j = Some q → i ≠ j → p ≠ q.
Proof.
  intros Hp Hq Hij ->. apply Hij. by eapply (NoDup_lookup own_places); [apply lay|..].
Qed.

Lemma staging_ne i p q : p ∈ staging m → own_places !! i = Some q → i < 8 → p ≠ q.
Proof.
  intros [j Hj]%list_elem_of_lookup Hq Hi. apply (own_ne (8 + j) i); [done|done|lia].
Qed.

Lemma source_at : own_places !! 0 = Some source_c. Proof. done. Qed.
Lemma target_at : own_places !! 1 = Some target_c. Proof. done. Qed.
Lemma retired_at : own_places !! 2 = Some (retired_place a m). Proof. done. Qed.
Lemma parked_at : own_places !! 3 = Some parked. Proof. done. Qed.
Lemma current_at : own_places !! 4 = Some (a_current a). Proof. done. Qed.
Lemma previous_at : own_places !! 5 = Some (a_previous a). Proof. done. Qed.
Lemma env_at : own_places !! 6 = Some (a_env a). Proof. done. Qed.
Lemma service_at : own_places !! 7 = Some (a_service a). Proof. done. Qed.

Ltac index := first [exact source_at | exact target_at | exact retired_at | exact parked_at
  | exact current_at | exact previous_at | exact env_at | exact service_at].

(** Two fixed places, or one and a staged file. *)
Ltac apart_places := first [done | eapply own_ne; [index|index|lia]
  | eapply staging_ne; [eassumption|index|lia]
  | apply not_eq_sym; eapply staging_ne; [eassumption|index|lia]].

(** The release of [previous] is at a place of its own. *)
Lemma previous_place_ne q p : previous_release m = Some q → p ∈ own_places → previous_place a m ≠ p.
Proof. intros Hq Hp <-. by apply (lay_previous_place a m lay q Hq). Qed.

(** The old release, when it has to move: from the place of the candidate or
    from [current]. *)
Record moved (r : release) : Prop := {
  mo_old : old_release m = Some r;
  mo_ne : old_source r ≠ old_place r;
  mo_own : old_source r = target_c ∨ old_source r = a_current a;
  mo_place : ∀ p, p ∈ own_places → old_place r ≠ p;
  mo_previous : ∀ q, previous_release m = Some q →
    previous_place a m ≠ old_source r ∧ previous_place a m ≠ old_place r;
}.

Lemma moves r : old_release m = Some r → old_source r ≠ old_place r → moved r.
Proof.
  intros Hr Hne. split; try done.
  - destruct (old_source_cases a m lay r Hr) as [?|[(_ & H & _)|(_ & H & _)]]; auto. done.
  - intros p Hp. by eapply old_place_ne.
  - intros q Hq. destruct (lay_previous_place a m lay q Hq) as [_ H]. by destruct (H r Hr) as [?|[? _]].
Qed.

(** The fixed places other than that of the candidate and [current]. *)
Lemma moved_ne r i p : moved r → own_places !! i = Some p → i ≠ 1 → i ≠ 4 → p ≠ old_source r.
Proof.
  intros Mr Hp H1 H4. destruct (mo_own r Mr) as [-> | ->].
  - by eapply own_ne; [exact Hp|exact target_at|].
  - by eapply own_ne; [exact Hp|exact current_at|].
Qed.

Lemma distinct_sym r q : distinct r q → distinct q r.
Proof. unfold distinct. intuition congruence. Qed.
Lemma distinct_ne r q : distinct r q → r ≠ q.
Proof. intros [H|H] ->; done. Qed.

Lemma old_not_candidate r : old_release m = Some r → Release r ≠ Release candidate.
Proof. intros Hr [= H]. by apply (distinct_ne r candidate); [apply (lay_old a m lay r Hr)|]. Qed.

(** The configuration files in a state. *)
Definition configs (v : view) : Prop :=
  ∃ e s, v (a_env a) = Conf e ∧ v (a_service a) = Conf s ∧ configs_ok m e s.

(** *** The old release goes and comes *)

Section old.
Context (r : release) (Mr : moved r) (v : view) (U : underway v).

Let gone := upd (old_place r) (Release r) (upd (old_source r) Nothing v).
Let back := upd (old_source r) (Release r) (upd (old_place r) Nothing v).

Lemma gone_other p : p ∈ own_places → p ≠ old_source r → gone p = v p.
Proof. intros Hp Hne. unfold gone. rewrite !upd_other; [done|done|]. by apply not_eq_sym, Mr. Qed.
Lemma back_other p : p ∈ own_places → p ≠ old_source r → back p = v p.
Proof. intros Hp Hne. unfold back. rewrite !upd_other; [done| |done]. by apply not_eq_sym, Mr. Qed.

Lemma gone_at i p : own_places !! i = Some p → i ≠ 1 → i ≠ 4 → gone p = v p.
Proof.
  intros Hp H1 H4. apply gone_other; [by eapply list_elem_of_lookup_2|by eapply moved_ne].
Qed.
Lemma back_at i p : own_places !! i = Some p → i ≠ 1 → i ≠ 4 → back p = v p.
Proof.
  intros Hp H1 H4. apply back_other; [by eapply list_elem_of_lookup_2|by eapply moved_ne].
Qed.

Lemma staging_index p : p ∈ staging m → ∃ i, own_places !! i = Some p ∧ (8 ≤ i)%nat.
Proof. intros [j Hj]%list_elem_of_lookup. exists (8 + j). split; [done|lia]. Qed.

Lemma gone_underway : v (old_source r) = Release r → underway gone.
Proof.
  intros Hs. assert (old_source r ≠ old_place r) as Hne by apply Mr.
  assert (gone (old_source r) = Nothing) as Gs by (unfold gone; by rewrite upd_other, upd_same).
  assert (gone (old_place r) = Release r) as Gp by (unfold gone; by rewrite upd_same).
  assert (target_free m v → target_free m gone) as Hfree.
  { intros H. destruct (decide (target_c = old_source r)) as [E|E]; [left; by rewrite E|].
    unfold target_free. by rewrite (gone_other _ (target_own a m) E). }
  pose proof (old_not_candidate r (mo_old r Mr)) as Hrc.
  split.
  - intros r' Hr'. assert (r' = r) as -> by (rewrite (mo_old r Mr) in Hr'; congruence).
    rewrite decide_False by done. right. by rewrite Gp, Gs.
  - rewrite (gone_at 0) by done. rewrite (gone_at 3) by done.
    destruct (u_candidate _ _ _ U) as [(? & ? & ?)|[(? & Ht & ?)|(? & ? & ?)]]; [by auto| |by auto 6].
    right. left. rewrite gone_other; [done|by right; left|]. intros E. rewrite E in Ht. congruence.
  - rewrite (gone_at 2) by done. apply U.
  - intros p Hp. destruct (staging_index p Hp) as (i & Hi & Hi8).
    rewrite (gone_at i) by (done || lia). by apply U.
  - destruct (decide (a_current a = old_source r)) as [E|E]; [left; by rewrite E|].
    rewrite gone_other; [apply U|apply current_own|done].
  - rewrite (gone_at 5) by done. apply U.
  - intros q Hq. unfold gone. destruct (mo_previous r Mr q Hq). rewrite !upd_other by done. by apply U.
  - rewrite (gone_at 6) by done. rewrite (gone_at 7) by done. apply U.
Qed.

Lemma back_underway : v (old_place r) = Release r → v (old_source r) = Nothing → underway back.
Proof.
  intros Hp Hs. assert (old_source r ≠ old_place r) as Hne by apply Mr.
  assert (back (old_source r) = Release r) as Bs by (unfold back; by rewrite upd_same).
  assert (back (old_place r) = Nothing) as Bp.
  { unfold back. rewrite upd_other by done. by rewrite upd_same. }
  pose proof (mo_old r Mr) as Hr.
  assert (target_free m v → target_free m back) as Hfree.
  { intros H. destruct (decide (old_source r = target_c)) as [E|E].
    - right. exists r. split_and!; [done|done|]. by rewrite <-E.
    - unfold target_free. by rewrite (back_other _ (target_own a m)) by done. }
  split.
  - intros r' Hr'. assert (r' = r) as -> by congruence.
    rewrite decide_False by done. left. by rewrite Bp, Bs.
  - rewrite (back_at 0) by done. rewrite (back_at 3) by done.
    destruct (u_candidate _ _ _ U) as [(? & ? & ?)|[(? & Ht & ?)|(? & ? & ?)]]; [by auto| |by auto 6].
    right. left. rewrite back_other; [done|by right; left|]. intros E. rewrite <-E in Hs. congruence.
  - rewrite (back_at 2) by done. apply U.
  - intros p Hq. destruct (staging_index p Hq) as (i & Hi & Hi8).
    rewrite (back_at i) by (done || lia). by apply U.
  - destruct (decide (a_current a = old_source r)) as [E|E].
    + right. right. rewrite E, Bs. unfold original_current.
      destruct (old_source_cases a m lay r Hr) as [?|[(_ & E' & _)|(_ & _ & ->)]].
      * done.
      * exfalso. assert (a_current a ≠ target_c) by apart_places. congruence.
      * by rewrite Hr.
    + rewrite back_other; [apply U|apply current_own|done].
  - rewrite (back_at 5) by done. apply U.
  - intros q Hq. unfold back. destruct (mo_previous r Mr q Hq). rewrite !upd_other by done. by apply U.
  - rewrite (back_at 6) by done. rewrite (back_at 7) by done. apply U.
Qed.
End old.

(** *** The candidate goes to its place, and out of the way *)

Lemma old_source_ne r i p : old_release m = Some r → own_places !! i = Some p → i ≠ 1 → i ≠ 4 →
  old_source r ≠ p.
Proof.
  intros Hr Hp H1 H4. destruct (decide (old_source r = old_place r)) as [E|E].
  - rewrite E. eapply old_place_ne; [done..|]. by eapply list_elem_of_lookup_2.
  - apply not_eq_sym. eapply moved_ne; [by apply moves|done..].
Qed.

Lemma staying_ne r p : old_release m = Some r → old_source r = old_place r → p ∈ own_places →
  old_source r ≠ p.
Proof. intros Hr -> Hp. by eapply old_place_ne. Qed.

(** The candidate goes from one of its places to another. *)
Section candidate.
Context (v : view) (U : underway v) (i j : nat) (s d : path).
Context (Hs : own_places !! i = Some s) (Hd : own_places !! j = Some d).
Context (Hi : (i ≤ 3)%nat) (Hj : (j ≤ 3)%nat) (Hi2 : i ≠ 2) (Hj2 : j ≠ 2) (Hij : i ≠ j).
Context (Vs : v s = Release candidate) (Vd : v d = Nothing).

Let v' := upd d (Release candidate) (upd s Nothing v).

Lemma cand_other k p : own_places !! k = Some p → k ≠ i → k ≠ j → v' p = v p.
Proof. intros Hp H1 H2. unfold v'. rewrite !upd_other; [done|by eapply own_ne..]. Qed.

Lemma cand_source : v' s = Nothing.
Proof. unfold v'. rewrite upd_other by (by eapply own_ne). apply upd_same. Qed.
Lemma cand_target : v' d = Release candidate.
Proof. unfold v'. apply upd_same. Qed.

Lemma cand_foreign p : p ≠ s → p ≠ d → v' p = v p.
Proof. intros H1 H2. unfold v'. by rewrite !upd_other. Qed.

Lemma cand_old r : old_release m = Some r →
  if decide (old_source r = old_place r) then v' (old_source r) = Release r
  else v' (old_source r) = Release r ∧ v' (old_place r) = Nothing
       ∨ v' (old_place r) = Release r ∧ v' (old_source r) ≠ Release r.
Proof.
  intros Hr. pose proof (u_old _ _ _ U r Hr) as Ho. pose proof (old_not_candidate r Hr) as Hc.
  assert (s ∈ own_places ∧ d ∈ own_places) as [Os Od] by (split; by eapply list_elem_of_lookup_2).
  assert (v' (old_place r) = v (old_place r)) as E by (apply cand_foreign; by eapply old_place_ne).
  case_decide as Ed.
  - rewrite cand_foreign; [done|by eapply staying_ne..].
  - rewrite E. destruct (decide (old_source r = s)) as [Es|Es]; [|destruct (decide (old_source r = d)) as [Ed'|Ed']].
    + right. rewrite Es, cand_source. rewrite Es, Vs in Ho. naive_solver.
    + right. rewrite Ed', cand_target. rewrite Ed', Vd in Ho. naive_solver.
    + by rewrite cand_foreign.
Qed.

Lemma cand_underway :
  (v' source_c = Release candidate ∧ target_free m v' ∧ v' parked = Nothing
    ∨ v' source_c = Nothing ∧ v' target_c = Release candidate ∧ v' parked = Nothing
    ∨ v' source_c = Nothing ∧ target_free m v' ∧ v' parked = Release candidate) →
  underway v'.
Proof.
  intros Hc. split.
  - apply cand_old.
  - done.
  - rewrite (cand_other 2) by done. apply U.
  - intros p Hp. destruct (staging_index p Hp) as (k & Hk & Hk8).
    rewrite (cand_other k) by (done || lia). by apply U.
  - rewrite (cand_other 4) by (done || lia). apply U.
  - rewrite (cand_other 5) by (done || lia). apply U.
  - intros q Hq. rewrite cand_foreign; [by apply U|..];
      (eapply previous_place_ne; [done|by eapply list_elem_of_lookup_2]).
  - rewrite (cand_other 6), (cand_other 7) by (done || lia). apply U.
Qed.
End candidate.

Lemma placed_underway v : underway v → v source_c = Release candidate → v target_c = Nothing →
  underway (upd target_c (Release candidate) (upd source_c Nothing v)).
Proof.
  intros U Vs Vd. apply (cand_underway v U 0 1); try done; try lia. right. left.
  split_and!; [by apply (cand_source v 0 1)|by apply cand_target|].
  rewrite (cand_other v 0 1 source_c target_c source_at target_at 3) by done.
  destruct (u_candidate _ _ _ U) as [(? & ? & ?)|[(? & ? & ?)|(? & ? & ?)]]; congruence.
Qed.

Lemma cleared_underway v : underway v → v target_c = Release candidate →
  underway (upd parked (Release candidate) (upd target_c Nothing v)) ∧ v parked = Nothing.
Proof.
  intros U Vt.
  assert (v source_c = Nothing ∧ v parked = Nothing) as [Vs Vp].
  { destruct (u_candidate _ _ _ U) as [(? & [?|(r & H1 & H2 & H3)] & ?)|[(? & ? & ?)|(? & [?|(r & H1 & H2 & H3)] & ?)]];
      try congruence; try done; by destruct (old_not_candidate r H1); congruence. }
  split; [|done]. apply (cand_underway v U 1 3); try done; try lia. right. right. split_and!.
  - by rewrite (cand_other v 1 3 target_c parked target_at parked_at 0).
  - left. by apply (cand_source v 1 3).
  - by apply cand_target.
Qed.

(** *** The links change *)

Lemma current_underway v it : underway v →
  it = Nothing ∨ it = Link (release_dir m) ∨ it = original_current m →
  (∀ r, moved r → old_source r = a_current a → v (a_current a) ≠ Release r ∧ it ≠ Release r) →
  underway (upd (a_current a) it v).
Proof.
  intros U Hit Hold.
  assert (∀ k p, own_places !! k = Some p → k ≠ 4 → upd (a_current a) it v p = v p) as K.
  { intros k p Hk H4. apply upd_other. eapply own_ne; [exact Hk|exact current_at|done]. }
  assert (∀ p, p ∉ own_places → upd (a_current a) it v p = v p) as K'.
  { intros p Hp. apply upd_other. intros ->. apply Hp, (current_own a m). }
  split.
  - intros r Hr. pose proof (u_old _ _ _ U r Hr) as Ho.
    rewrite (K' (old_place r)) by apply (lay_old a m lay r Hr).
    destruct (decide (old_source r = a_current a)) as [E|E].
    + rewrite decide_False in Ho |- *.
      2-3: rewrite E; intros E2; by apply (old_place_ne a m lay r _ Hr (current_own a m)).
      destruct (Hold r) as [H1 H2]; [|done|].
      { apply moves; [done|]. rewrite E. apply not_eq_sym, (old_place_ne a m lay r); [done|apply current_own]. }
      rewrite E in Ho |- *. rewrite upd_same. naive_solver.
    + rewrite (upd_other _ (old_source r)) by done. done.
  - unfold target_free. rewrite (K 0), (K 1), (K 3) by done. apply U.
  - rewrite (K 2) by done. apply U.
  - intros p Hp. destruct (staging_index p Hp) as (k & Hk & Hk8).
    rewrite (K k) by (done || lia). by apply U.
  - by rewrite upd_same.
  - rewrite (K 5) by done. apply U.
  - intros q Hq. rewrite K' by apply (lay_previous_place a m lay q Hq). by apply U.
  - rewrite (K 6), (K 7) by done. apply U.
Qed.

(** An update at a place that is none of the releases' and not [current]. *)
Section elsewhere.
Context (v : view) (U : underway v) (i : nat) (p : path) (it : item).
Context (Hp : own_places !! i = Some p) (Hi : (5 ≤ i < 8)%nat).

Lemma elsewhere_at k q : own_places !! k = Some q → k ≠ i → upd p it v q = v q.
Proof. intros Hk Hne. apply upd_other. by eapply own_ne. Qed.

Lemma elsewhere_underway :
  (upd p it v (a_previous a) = Nothing
    ∨ (∃ r, old_release m = Some r ∧ upd p it v (a_previous a) = Link (old_target m))
    ∨ upd p it v (a_previous a) = original_previous m) →
  configs (upd p it v) → underway (upd p it v).
Proof.
  intros Hprev Hconf.
  assert (∀ q, q ∉ own_places → upd p it v q = v q) as K'.
  { intros q Hq. apply upd_other. intros ->. by apply Hq; eapply list_elem_of_lookup_2. }
  split; try done.
  - intros r Hr. rewrite (K' (old_place r)) by apply (lay_old a m lay r Hr).
    rewrite (upd_other _ (old_source r)); [by apply U|]. eapply old_source_ne; [done..|lia|lia].
  - unfold target_free. rewrite (elsewhere_at 0), (elsewhere_at 1), (elsewhere_at 3) by (done || lia). apply U.
  - rewrite (elsewhere_at 2) by (done || lia). apply U.
  - intros q Hq. destruct (staging_index q Hq) as (k & Hk & Hk8).
    rewrite (elsewhere_at k) by (done || lia). by apply U.
  - rewrite (elsewhere_at 4) by (done || lia). apply U.
  - intros q Hq. rewrite K' by apply (lay_previous_place a m lay q Hq). by apply U.
Qed.
End elsewhere.

Lemma previous_underway v it : underway v →
  it = Nothing ∨ (∃ r, old_release m = Some r ∧ it = Link (old_target m)) ∨ it = original_previous m →
  underway (upd (a_previous a) it v).
Proof.
  intros U H. apply (elsewhere_underway v U 5); [done|lia|by rewrite upd_same|].
  unfold configs. rewrite (elsewhere_at v 5 _ it previous_at 6), (elsewhere_at v 5 _ it previous_at 7) by done.
  apply U.
Qed.

Lemma env_underway v e s : underway v → v (a_service a) = Conf s → configs_ok m e s →
  underway (upd (a_env a) (Conf e) v).
Proof.
  intros U Hs Hok. apply (elsewhere_underway v U 6); [done|lia|..].
  - rewrite (elsewhere_at v 6 _ _ env_at 5) by done. apply U.
  - exists e, s. by rewrite upd_same, (elsewhere_at v 6 _ _ env_at 7).
Qed.

Lemma service_underway v e s : underway v → v (a_env a) = Conf e → configs_ok m e s →
  underway (upd (a_service a) (Conf s) v).
Proof.
  intros U He Hok. apply (elsewhere_underway v U 7); [done|lia|..].
  - rewrite (elsewhere_at v 7 _ _ service_at 5) by done. apply U.
  - exists e, s. by rewrite upd_same, (elsewhere_at v 7 _ _ service_at 6).
Qed.
End moves.
