(* ===== verification/ActivationActivate.v ===== *)
(** * The journal of a release activation: [activate_files]

    The command can be interrupted before every call, by an error or by the end
    of the process.  Whatever state in [linking] it is left in, it can be run
    again from there, and a run that is not interrupted activates the release. *)
From S2P Require Import Prelude PyValues Json FileSystem FileLogic Activation.
From S2P Require Import ActivationJson ActivationOps ActivationReplace ActivationState.
From S2P Require Import ActivationViews ActivationJournal ActivationPlaces ActivationSteps ActivationRules ActivationMoves.

Open Scope string_scope.

Section activate.
Context {host : Host} {laws : HostLaws host} (a : args) (m : manifest).
Context (tree : release → path → option node) (rest : path → option node).
Context (lay : layout a m).

Notation root := (a_root a).
Notation tx := (transaction_directory (a_root a)).
Notation places := (places a m).
Notation own_places := (own_places a m).
Notation source_c := (candidate_source m).
Notation target_c := (candidate_target m).
Notation parked := (parked_place a).
Notation candidate := (candidate_release m).
Notation underway := (underway a m).
Notation st := (st a m tree rest).
Notation during := (during a m tree rest).
Notation steps := (steps a m tree rest).

(** ** Facts shared by both commands *)

Lemma old_names f r0 rel dir r : manifest_ok f r0 rel dir m → old_release m = Some r →
  source r = str (old_source r) ∧ target r = str (old_place r) ∧ old_target m = str (old_place r).
Proof.
  intros H Hr. pose proof (ok_check_old _ _ _ _ _ H) as Hc. unfold check_old in Hc. rewrite Hr in Hc.
  apply raise_if_Ok in Hc. repeat (apply orb_false_iff in Hc as [Hc ?]). bools.
  repeat match goal with X : String.eqb _ _ = true |- _ => apply String.eqb_eq in X end.
  unfold old_place, old_source. done.
Qed.

Lemma same_name v w r : st v w → old_release m = Some r →
  String.eqb (source r) (target r) = bool_decide (old_source r = old_place r).
Proof.
  intros Hw Hr. destruct (st_ok _ _ _ _ v w Hw) as [f Hok].
  destruct (old_names _ _ _ _ r Hok Hr) as (E1 & E2 & _). case_bool_decide as E.
  - apply String.eqb_eq. congruence.
  - apply String.eqb_neq. intros E'. apply E. unfold old_source, old_place. congruence.
Qed.

(** The releases at the places where one is looked for. *)
Lemma place_releases v r p : underway v → p ∈ [source_c; target_c; parked] →
  v p = Release r → r = candidate ∨ old_release m = Some r.
Proof.
  intros U Hp Hr. destruct (u_candidate _ _ _ U) as
    [(E1 & [E2|(q & Hq & _ & E2)] & E3)|[(E1 & E2 & E3)|(E1 & [E2|(q & Hq & _ & E2)] & E3)]];
    repeat (apply elem_of_cons in Hp as [->|Hp]); try (by apply elem_of_nil in Hp);
    rewrite ?E1, ?E2, ?E3 in Hr; try done; injection Hr as <-; auto.
Qed.

Lemma old_releases v r q p : underway v → old_release m = Some r → p = old_source r ∨ p = old_place r →
  v p = Release q → q = candidate ∨ q = r.
Proof.
  intros U Hr Hp Hq. pose proof (u_old _ _ _ U r Hr) as Ho. case_decide as E.
  - assert (p = old_source r) as -> by (destruct Hp; congruence). right. congruence.
  - destruct Hp as [-> | ->].
    + destruct (mo_own a m r (moves a m lay r Hr E)) as [Es|Es].
      * destruct (place_releases v q target_c U) as [->|H]; [right; left|by rewrite <-Es|by left|right; congruence].
      * destruct (u_current _ _ _ U) as [H|[H|H]]; rewrite <-Es, Hq in H; try done.
        unfold original_current in H. destruct (kind _); try done. rewrite Hr in H. right. congruence.
    + destruct Ho as [[_ Ho]|[Ho _]]; [congruence|]. right. congruence.
Qed.

Lemma wp_matches_candidate v w p Q C :
  st v w → underway v → p ∈ [source_c; target_c; parked] →
  Q (bool_decide (v p = Release candidate)) w → wp (matches p candidate) Q C w.
Proof.
  intros Hw U Hp HQ. eapply wp_st_matches; [done|exact Hw| | | |done].
  - repeat (apply elem_of_cons in Hp as [->|Hp]); [..|by apply elem_of_nil in Hp].
    + apply source_in.
    + apply target_in.
    + apply parked_in.
  - repeat (apply elem_of_cons in Hp as [->|Hp]); [..|by apply elem_of_nil in Hp].
    + by eapply source_solid.
    + by eapply target_solid.
    + by eapply parked_solid.
  - intros r Hr. destruct (place_releases v r p U Hp Hr) as [->|H]; [by left|right].
    by apply (lay_old a m lay).
Qed.

Lemma wp_matches_old v w r p Q C :
  st v w → underway v → old_release m = Some r → p = old_source r ∨ p = old_place r →
  Q (bool_decide (v p = Release r)) w → wp (matches p r) Q C w.
Proof.
  intros Hw U Hr Hp HQ. destruct (old_solid a m lay v r U Hr) as [S1 S2].
  eapply wp_st_matches; [done|exact Hw| | | |done].
  - destruct Hp as [-> | ->]; [by apply old_source_in|by apply old_place_in].
  - by destruct Hp as [-> | ->].
  - intros q Hq. destruct (old_releases v r q p U Hr Hp Hq) as [->|H]; [|by left].
    right. by apply distinct_sym, (lay_old a m lay).
Qed.

(** ** Activation *)

(** The states while links change hands in [linking]. *)
Definition linking (v : view) : Prop :=
  underway v ∧ v parked = Nothing ∧
  ∀ r, old_release m = Some r → v (a_previous a) = Link (old_target m) →
    v (old_place r) = Release r ∨ original_previous m = Link (old_target m).

(** How far the activation is. *)
Definition old_aside (v : view) : Prop := ∀ r, old_release m = Some r → v (old_place r) = Release r.
Definition candidate_placed (v : view) : Prop := old_aside v ∧ v target_c = Release candidate.
Definition previous_linked (v : view) : Prop :=
  candidate_placed v ∧ ∀ r, old_release m = Some r → v (a_previous a) = Link (old_target m).
Definition activated_view (v : view) : Prop :=
  previous_linked v ∧ v (a_current a) = Link (release_dir m).

Lemma aside_free v r : underway v → old_aside v → moved a m r → v (old_source r) ≠ Release r.
Proof.
  intros U Ha Mr. pose proof (u_old _ _ _ U r (mo_old _ _ _ Mr)) as Ho.
  rewrite decide_False in Ho by apply Mr. destruct Ho as [[_ Ho]|[_ Ho]]; [|done].
  rewrite (Ha r (mo_old _ _ _ Mr)) in Ho. done.
Qed.

Lemma during_park : during linking (λ _, True) (park_old m) old_aside.
Proof.
  intros v w Hw HI _. pose proof HI as (U & Hpk & Hrd). unfold park_old.
  destruct (old_release m) as [r|] eqn:Hr.
  2:{ apply wp_ret. exists v. split_and!; [done|done|]. intros r. congruence. }
  pose proof (u_old _ _ _ U r Hr) as Ho. rewrite (same_name v w r Hw Hr). case_bool_decide as E.
  { apply wp_ret. exists v. split_and!; [done|done|]. intros r' Hr'. assert (r' = r) as -> by congruence.
    rewrite decide_True in Ho by done. by rewrite <-E. }
  rewrite decide_False in Ho by done. pose proof (moves a m lay r Hr E) as Mr.
  apply wp_bind, (wp_matches_old v w r (old_source r)); [done|done|done|by left|].
  destruct Ho as [[Hs Hp]|[Hp Hs]].
  - rewrite bool_decide_true by done. apply wp_bind.
    eapply (wp_st_present a m tree rest lay v w (old_place r)); [exact Hw|by apply old_place_in|by rewrite Hp|].
    apply wp_bind, wp_guard; [by rewrite bool_decide_true|].
    eapply (wp_steps a m tree rest); [apply (step_move a m tree rest lay v)|..]; try done.
    + by apply old_source_in.
    + by apply old_place_in.
    + split_and!.
      * by apply gone_underway.
      * by rewrite (gone_at a m lay r Mr v 3) by done.
      * intros r' Hr' _. left. assert (r' = r) as -> by congruence. apply upd_same.
    + intros r' Hr'. assert (r' = r) as -> by congruence. apply upd_same.
  - rewrite bool_decide_false by done. apply wp_bind, (wp_matches_old v w r (old_place r)); [done|done|done|by right|].
    apply wp_guard; [by rewrite bool_decide_true|]. exists v. split_and!; [done|done|].
    intros r' Hr'. by assert (r' = r) as -> by congruence.
Qed.

Lemma during_place : during linking old_aside (place_candidate m) candidate_placed.
Proof.
  intros v w Hw HI Ha. pose proof HI as (U & Hpk & Hrd). unfold place_candidate.
  apply wp_bind, (wp_matches_candidate v w target_c); [done|done|right; left|]. case_bool_decide as Ht.
  { apply wp_ret. by exists v. }
  apply wp_bind, (wp_matches_candidate v w source_c); [done|done|left|].
  assert (v source_c = Release candidate ∧ v target_c = Nothing) as [Hs Hn].
  { destruct (u_candidate _ _ _ U) as [(Hs & [H|(r & Hr & E & H)] & _)|[(_ & H & _)|(_ & _ & H)]]; try congruence.
    - done.
    - exfalso. destruct (decide (old_source r = old_place r)) as [E2|E2].
      + eapply (old_place_ne a m lay r target_c Hr); [apply target_own|congruence].
      + apply (aside_free v r U Ha (moves a m lay r Hr E2)). congruence. }
  rewrite bool_decide_true by done. apply wp_bind, wp_guard; [done|].
  apply wp_bind. eapply (wp_st_present a m tree rest lay v w target_c); [exact Hw|apply target_in|by rewrite Hn|].
  apply wp_bind, wp_guard; [by rewrite bool_decide_true|].
  assert (∀ r, old_release m = Some r →
    upd target_c (Release candidate) (upd source_c Nothing v) (old_place r) = v (old_place r)) as Hop.
  { intros r Hr. apply cand_foreign; (eapply old_place_ne; [done..|]); [apply source_own|apply target_own]. }
  eapply (wp_steps a m tree rest); [apply (step_move a m tree rest lay v)|..]; try done.
  - apply source_in.
  - apply target_in.
  - apply not_eq_sym, (target_not_source a m lay).
  - split_and!.
    + by apply placed_underway.
    + by rewrite (cand_other a m lay v 0 1 _ _ (source_at a m) (target_at a m) 3).
    + intros r Hr. rewrite Hop by done. left. by apply Ha.
  - split; [|apply upd_same]. intros r Hr. rewrite Hop by done. by apply Ha.
Qed.

Lemma links_at : parent (a_current a) ≠ tx ∧ parent (a_previous a) ≠ tx.
Proof.
  pose proof (lay_own a m lay) as H. unfold check_ownership in H. inv_res. bools.
  assert (root ≠ tx).
  { intros E. apply (f_equal length) in E. unfold transaction_directory, child in E.
    rewrite length_app in E. cbn in E. lia. }
  repeat match goal with X : ?x = _ // _ |- _ => rewrite X; clear X end.
  by rewrite !parent_child.
Qed.

Lemma current_small v : underway v → (∀ r, moved a m r → old_source r = a_current a → v (a_current a) ≠ Release r) →
  small (v (a_current a)).
Proof.
  intros U Hm. destruct (u_current _ _ _ U) as [H|[H|H]]; rewrite H; [by left|right; eauto|].
  pose proof (lay_current a m lay) as HL. revert H. unfold original_current.
  destruct (kind (current m)) eqn:Hk; intros H; [by left|right; eauto|].
  destruct HL as (_ & r & Hr & E). rewrite Hr in H |- *. exfalso.
  apply (Hm r); [|done|done]. apply moves; [done|done|].
  rewrite E. apply not_eq_sym, (old_place_ne a m lay r); [done|apply current_own].
Qed.

Lemma previous_small v : underway v → small (v (a_previous a)).
Proof.
  intros U. destruct (u_previous _ _ _ U) as [H|[(r & _ & H)|H]]; rewrite H; [by left|right; eauto|].
  unfold original_previous. destruct (kind _); [by left|right; eauto|by left].
Qed.

Lemma during_previous :
  during linking candidate_placed
    (if String.eqb (old_target m) "" then mret tt else replace_symlink (a_previous a) (old_target m))
    previous_linked.
Proof.
  intros v w Hw HI [Ha Ht]. pose proof HI as (U & Hpk & Hrd).
  destruct (st_ok _ _ _ _ v w Hw) as [f Hok]. destruct (old_release m) as [r|] eqn:Hr.
  - destruct (old_names _ _ _ _ r Hok Hr) as (_ & _ & E).
    rewrite (proj2 (String.eqb_neq _ _)) by (rewrite E; done).
    assert (∀ p, p ≠ a_previous a → upd (a_previous a) (Link (old_target m)) v p = v p) as K.
    { intros p Hp. by apply upd_other. }
    assert (old_place r ≠ a_previous a) as Hop by (eapply old_place_ne; [done..|apply previous_own]).
    eapply (wp_steps a m tree rest); [apply (step_link a m tree rest lay v)|..]; try done.
    + apply previous_in.
    + apply links_at.
    + by apply previous_small.
    + split_and!.
      * apply previous_underway; [done|done|]. right. left. by exists r.
      * rewrite K; [done|]. by eapply own_ne; [done|exact (parked_at a m)|exact (previous_at a m)|].
      * intros r' Hr' _. assert (r' = r) as -> by congruence. left. rewrite K by done. by apply Ha.
    + split; [split|].
      * intros r' Hr'. assert (r' = r) as -> by congruence. rewrite K by done. by apply Ha.
      * rewrite K; [done|]. by eapply own_ne; [done|exact (target_at a m)|exact (previous_at a m)|].
      * intros r' _. apply upd_same.
  - pose proof (ok_check_old _ _ _ _ _ Hok) as Hc. unfold check_old in Hc. rewrite Hr in Hc.
    apply raise_if_Ok, negb_false_iff in Hc. rewrite Hc. apply wp_ret. exists v. split_and!; [done|done|].
    split; [done|]. intros r. congruence.
Qed.

Lemma during_current :
  during linking previous_linked (replace_symlink (a_current a) (release_dir m)) activated_view.
Proof.
  intros v w Hw HI [[Ha Ht] Hp]. pose proof HI as (U & Hpk & Hrd).
  assert (∀ p, p ≠ a_current a → upd (a_current a) (Link (release_dir m)) v p = v p) as K.
  { intros p Hne. by apply upd_other. }
  assert (∀ r, old_release m = Some r → old_place r ≠ a_current a) as Hop
    by (intros r Hr; eapply old_place_ne; [done..|apply current_own]).
  assert (∀ r, moved a m r → old_source r = a_current a → v (a_current a) ≠ Release r) as Hm.
  { intros r Mr E. rewrite <-E. by apply aside_free. }
  assert (a_previous a ≠ a_current a) as Hpc
    by (by eapply own_ne; [done|exact (previous_at a m)|exact (current_at a m)|]).
  eapply (wp_steps a m tree rest); [apply (step_link a m tree rest lay v)|..]; try done.
  - apply current_in.
  - apply links_at.
  - by apply current_small.
  - split_and!.
    + apply current_underway; [done|done|by right; left|]. intros r Mr E. by split; [apply Hm|].
    + rewrite K; [done|]. by eapply own_ne; [done|exact (parked_at a m)|exact (current_at a m)|].
    + intros r Hr. rewrite !K by auto. by apply Hrd.
  - split; [split; [split|]|].
    + intros r Hr. rewrite K by auto. by apply Ha.
    + rewrite K; [done|]. by eapply own_ne; [done|exact (target_at a m)|exact (current_at a m)|].
    + intros r Hr. rewrite K by done. by eapply Hp.
    + apply upd_same.
Qed.

(** From every state in [linking], [activate_files] ends with the candidate
    activated, or it is interrupted in such a state. *)
Lemma wp_activate v w : m_phase m = Linking → st v w → linking v →
  wp (activate_files a)
    (λ _ w', ∃ v', st v' w' ∧ linking v' ∧ activated_view v')
    (λ w', ∃ v', st v' w' ∧ linking v') w.
Proof.
  intros Hph Hw HI. unfold activate_files. apply wp_bind.
  eapply (wp_st_manifest a m tree rest); [exact Hw| |by eauto]. clear w Hw. intros w Hw.
  apply wp_bind. eapply (wp_st_validate a m tree rest); [done|exact Hw|by left|apply HI| |right; apply HI|].
  { right. apply HI. }
  apply wp_bind, wp_guard; [by rewrite Hph|].
  revert v w Hw HI.
  assert (during linking (λ _, True)
    (park_old m;; place_candidate m;;
     (if String.eqb (old_target m) "" then mret tt else replace_symlink (a_previous a) (old_target m));;
     replace_symlink (a_current a) (release_dir m);;
     (ok ← matches target_c candidate;
      guard_not (negb ok) (RuntimeError "activation candidate release changed after link takeover")))
    activated_view) as H; [|intros v w Hw HI; exact (H v w Hw HI I)].
  eapply during_bind; [apply during_park|]. eapply during_bind; [apply during_place|].
  eapply during_bind; [apply during_previous|]. eapply during_bind; [apply during_current|].
  intros v w Hw HI HA. apply wp_bind, (wp_matches_candidate v w target_c); [done|apply HI|right; left|].
  apply wp_guard; [by rewrite bool_decide_true by apply HA|]. by exists v.
Qed.
End activate.
