(* ===== verification/ActivationRestore.v ===== *)
(** * The journal of a release activation: [restore_files]

    From every state that is under way, an activation's or its own, the command
    brings back the old release, both links and both files, or it is
    interrupted in such a state. *)
From S2P Require Import Prelude PyValues Json FileSystem FileLogic Activation.
From S2P Require Import ActivationJson ActivationOps ActivationReplace ActivationState ActivationViews.
From S2P Require Import ActivationJournal ActivationPlaces ActivationSteps ActivationRules ActivationMoves ActivationActivate.

Open Scope string_scope.

Section restore.
Context {host : Host} {laws : HostLaws host} (a : args) (m : manifest).
Context (tree : release → path → option node) (rest : path → option node).
Context (lay : layout a m) (rolling_back : m_phase m = RollingBack).

Notation root := (a_root a).
Notation tx := (transaction_directory (a_root a)).
Notation places := (places a m).
Notation own_places := (own_places a m).
Notation source_c := (candidate_source m).
Notation target_c := (candidate_target m).
Notation parked := (parked_place a).
Notation candidate := (candidate_release m).
Notation underway := (underway a m).
Notation st := (st a m tree rest).
Notation during := (during a m tree rest).

(** The configuration before the transaction is in the histories of what the
    transaction has seen. *)
Record original_seen : Prop := {
  seen_env : (fst <$> saved (env m)) ∈ observed_env m;
  seen_service : (fst <$> saved (service m)) ∈ observed_service m;
  seen_mode : ∀ sha mode, saved (env m) = Some (sha, mode) → mode = 384%Z;
}.

(** How far the restoration is. *)
Definition old_back (v : view) : Prop := ∀ r, old_release m = Some r → v (old_source r) = Release r.
Definition current_back (v : view) : Prop := old_back v ∧ v (a_current a) = original_current m.
Definition links_back (v : view) : Prop := current_back v ∧ v (a_previous a) = original_previous m.

(** The file of a backup: with its mode, and bytes with its digest. *)
Definition as_saved (b : backup) (it : item) : Prop :=
  match saved b with
  | None => it = Conf None
  | Some (sha, mode) => ∃ c, it = Conf (Some (mode, c)) ∧ sha256 c = sha
  end.

Definition env_back (v : view) : Prop := links_back v ∧ as_saved (env m) (v (a_env a)).
Definition restored (v : view) : Prop := env_back v ∧ as_saved (service m) (v (a_service a)).

(** ** The old release *)

Lemma node_item v w p : st v w → p ∈ places → solid (v p) →
  match v p with
  | Nothing => files w !! p = None
  | Link raw => files w !! p = Some (Lnk raw)
  | _ => ∃ i o mode, files w !! p = Some (Dir i o mode)
  end.
Proof.
  intros Hw Hp Hs. pose proof (st_looks _ _ _ _ lay _ _ _ Hw Hp) as L. destruct (v p); cbn in *; try done.
  destruct L as [(mode & H & _) _]. eauto.
Qed.

Lemma during_clear r : moved a m r →
  during underway (λ v, v (old_place r) = Release r ∧ v (old_source r) ≠ Release r)
    (clear_old_source a tx m (old_source r))
    (λ v, v (old_place r) = Release r ∧ v (old_source r) = Nothing).
Proof.
  intros Mr v w Hw U [Hp Hs]. pose proof (mo_old _ _ _ Mr) as Hr. unfold clear_old_source.
  apply wp_bind. eapply wp_reading; [done|].
  pose proof (node_item v w (old_source r) Hw (old_source_in a m r Hr)
    (proj1 (old_solid a m lay v r U Hr))) as Hn.
  destruct (v (old_source r)) as [|raw|q|o] eqn:Hi; [| | |by destruct (old_solid a m lay v r U Hr); rewrite Hi in *].
  - rewrite Hn. apply wp_ret. eauto.
  - rewrite Hn. cbn [is_link andb].
    assert (old_source r = a_current a) as Ec.
    { destruct (mo_own _ _ _ Mr) as [E|E]; [|done]. rewrite E in Hi. exfalso.
      destruct (u_candidate _ _ _ U) as [(_ & [H|(?&_&_&H)] & _)|[(_ & H & _)|(_ & [H|(?&_&_&H)] & _)]]; congruence. }
    rewrite bool_decide_true by done.
    eapply (wp_steps a m tree rest); [apply (step_unlink a m tree rest lay v _ raw)|..]; try done.
    + by apply old_source_in.
    + rewrite Ec. apply current_underway; [done|done|by left|].
      intros r' Mr' _. rewrite <-Ec, Hi. done.
    + rewrite upd_same, upd_other; [done|apply not_eq_sym, Mr].
  - destruct Hn as (i & o & mode & Hn). rewrite Hn. cbn [is_link andb].
    assert (q = candidate) as ->.
    { destruct (old_releases a m lay v r q (old_source r) U Hr) as [?| ->]; [by left|done|done|done]. }
    assert (old_source r = target_c) as Et.
    { destruct (mo_own _ _ _ Mr) as [E|E]; [done|]. rewrite E in Hi. exfalso.
      destruct (u_current _ _ _ U) as [H|[H|H]]; rewrite Hi in H; try done. unfold original_current in H.
      destruct (kind _); try done. rewrite Hr in H. symmetry in H. by apply (old_not_candidate a m lay r Hr). }
    rewrite Et in Hi |- *. destruct (cleared_underway a m lay v U Hi) as [U' Hpk].
    apply wp_bind, (wp_matches_candidate a m tree rest lay v w target_c); [done|done|right; left|].
    apply wp_bind, wp_guard; [by rewrite bool_decide_true|].
    apply wp_bind, (wp_matches_candidate a m tree rest lay v w parked); [done|done|right; right; left|].
    rewrite bool_decide_false by (by rewrite Hpk).
    apply wp_bind. eapply (wp_st_present a m tree rest lay v w parked); [exact Hw|apply parked_in|by rewrite Hpk|].
    apply wp_bind, wp_guard; [by rewrite bool_decide_true|].
    eapply (wp_steps a m tree rest); [apply (step_move a m tree rest lay v)|..]; try done.
    + apply target_in.
    + apply parked_in.
    + by eapply own_ne; [done|exact (target_at a m)|exact (parked_at a m)|].
    + rewrite cand_foreign; [|apply Mr, target_own|apply Mr, parked_own].
      split; [done|]. apply (cand_source a m lay v 1 3); done.
Qed.

Lemma during_unpark : during underway (λ _, True) (unpark_old a tx m) old_back.
Proof.
  intros v w Hw U _. unfold unpark_old. destruct (old_release m) as [r|] eqn:Hr.
  2:{ apply wp_ret. exists v. split_and!; [done|done|]. intros r. congruence. }
  pose proof (u_old _ _ _ U r Hr) as Ho. rewrite (same_name a m tree rest v w r Hw Hr). case_bool_decide as E.
  { apply wp_ret. exists v. split_and!; [done|done|]. intros r' Hr'. assert (r' = r) as -> by congruence.
    by rewrite decide_True in Ho. }
  rewrite decide_False in Ho by done. pose proof (moves a m lay r Hr E) as Mr.
  apply wp_bind, (wp_matches_old a m tree rest lay v w r (old_source r)); [done|done|done|by left|].
  case_bool_decide as Hs.
  { apply wp_ret. exists v. split_and!; [done|done|]. intros r' Hr'. by assert (r' = r) as -> by congruence. }
  destruct Ho as [[? _]|[Hp _]]; [done|].
  apply wp_bind, (wp_matches_old a m tree rest lay v w r (old_place r)); [done|done|done|by right|].
  apply wp_bind, wp_guard; [by rewrite bool_decide_true|].
  revert v w Hw U Hs Hp.
  assert (during underway (λ v, v (old_place r) = Release r ∧ v (old_source r) ≠ Release r)
    (clear_old_source a tx m (old_source r);; rename_and_fsync (old_place r) (old_source r)) old_back) as H;
    [|intros v w Hw U Hs Hp; exact (H v w Hw U (conj Hp Hs))].
  eapply during_bind; [by apply during_clear|]. intros v w Hw U [Hp Hs].
  eapply (wp_steps a m tree rest); [apply (step_move a m tree rest lay v)|..]; try done.
  - by apply old_place_in.
  - by apply old_source_in.
  - by apply back_underway.
  - intros r' Hr'. assert (r' = r) as -> by congruence. apply upd_same.
Qed.

(** ** The links *)

(** What a later step leaves of an earlier one. *)
Lemma old_back_other v p it :
  old_back v → (∀ r, old_release m = Some r → old_source r ≠ p) → old_back (upd p it v).
Proof. intros H Hp r Hr. rewrite upd_other by by apply Hp. by apply H. Qed.

Lemma source_not_current r : old_release m = Some r → kind (current m) ≠ Directory →
  old_source r ≠ a_current a.
Proof.
  intros Hr Hk. destruct (old_source_cases a m lay r Hr) as [E|[(_ & E & _)|(_ & _ & E)]]; [| |done].
  - eapply staying_ne; [done|done|done|apply current_own].
  - rewrite E. by eapply own_ne; [done|exact (target_at a m)|exact (current_at a m)|].
Qed.

(** A link that was not there goes. *)
Lemma wp_remove_link v w p e (I Q : view → Prop) :
  st v w → p ∈ places → small (v p) → I v → (v p = Nothing → Q v) →
  I (upd p Nothing v) → Q (upd p Nothing v) →
  wp (remove_link p e) (λ _ w', ∃ v', st v' w' ∧ I v' ∧ Q v') (λ w', ∃ v', st v' w' ∧ I v') w.
Proof.
  intros Hw Hp Hs HI HQ HI' HQ'. unfold remove_link. apply wp_bind. eapply wp_reading; [done|].
  pose proof (st_looks a m tree rest lay v w p Hw Hp) as L.
  destruct Hs as [E|[raw E]]; rewrite E in L; cbn in L; rewrite L.
  - apply wp_ret. eauto.
  - apply wp_bind, wp_guard; [done|].
    by eapply (wp_steps a m tree rest); [by apply (step_unlink a m tree rest lay v p raw)|..].
Qed.

Lemma during_current_back : during underway old_back (restore_current a m) current_back.
Proof.
  intros v w Hw U Hb. unfold restore_current. pose proof (lay_current a m lay) as HL.
  assert (kind (current m) ≠ Directory → old_back (upd (a_current a) (original_current m) v)) as Hold.
  { intros Hk. apply old_back_other; [done|]. intros r Hr. by apply source_not_current. }
  assert (kind (current m) ≠ Directory →
    underway (upd (a_current a) (original_current m) v) ∧ small (v (a_current a))) as Hund.
  { intros Hk. assert (∀ r, moved a m r → old_source r ≠ a_current a) as Hne
      by (intros r Mr; by apply source_not_current; [apply Mr|]). split.
    - apply current_underway; [done|done|by right; right|]. intros r Mr E. by destruct (Hne r Mr).
    - apply (current_small a m lay); [done|]. intros r Mr E. by destruct (Hne r Mr). }
  destruct (kind (current m)) eqn:Hk.
  - destruct (Hund ltac:(done)) as [HU HS]. assert (original_current m = Nothing) as E
      by (unfold original_current; by rewrite Hk).
    rewrite E in HU, Hold. apply (wp_remove_link v); try done; [apply current_in|..].
    + intros H. split; [done|]. by rewrite E.
    + split; [by apply Hold|]. by rewrite E, upd_same.
  - destruct (Hund ltac:(done)) as [HU HS]. assert (original_current m = Link (link_target (current m))) as E
      by (unfold original_current; by rewrite Hk).
    rewrite E in HU, Hold.
    eapply (wp_steps a m tree rest); [apply (step_link a m tree rest lay v)|..]; try done.
    + apply current_in.
    + apply (links_at a m lay).
    + split; [by apply Hold|]. by rewrite E, upd_same.
  - destruct HL as (_ & r & Hr & E). pose proof (Hb r Hr) as Hs. rewrite E in Hs.
    apply wp_bind. eapply wp_reading; [done|].
    pose proof (node_item v w (a_current a) Hw (current_in a m)) as Hn. rewrite Hs in Hn.
    destruct Hn as (i & o & mode & ->); [done|]. apply wp_ret. exists v. split_and!; [done|done|].
    split; [done|]. unfold original_current. by rewrite Hk, Hr.
Qed.

Lemma during_previous_back : during underway current_back (restore_previous a m) links_back.
Proof.
  intros v w Hw U [Hb Hc]. unfold restore_previous.
  assert (∀ it, old_back (upd (a_previous a) it v)) as Hold.
  { intros it. apply old_back_other; [done|]. intros r Hr.
    by eapply old_source_ne; [done|done|exact (previous_at a m)|..]. }
  assert (∀ it, upd (a_previous a) it v (a_current a) = v (a_current a)) as K.
  { intros it. apply upd_other. by eapply own_ne; [done|exact (current_at a m)|exact (previous_at a m)|]. }
  assert (links_back (upd (a_previous a) (original_previous m) v)) as HQ.
  { split; [split|]; [done|by rewrite K|apply upd_same]. }
  assert (underway (upd (a_previous a) (original_previous m) v)) as HU
    by (apply previous_underway; [done|done|by right; right]).
  pose proof (previous_small a m v U) as HS.
  destruct (kind (previous m)) eqn:Hk.
  - assert (original_previous m = Nothing) as E by (unfold original_previous; by rewrite Hk).
    rewrite E in HU, HQ. apply (wp_remove_link v); try done; [apply previous_in|].
    intros H. split; [done|]. by rewrite E.
  - assert (original_previous m = Link (link_target (previous m))) as E
      by (unfold original_previous; by rewrite Hk).
    rewrite E in HU, HQ.
    eapply (wp_steps a m tree rest); [apply (step_link a m tree rest lay v)|..]; try done.
    + apply previous_in.
    + apply (links_at a m lay).
  - pose proof (lay_previous a m lay) as HL. by rewrite Hk in HL.
Qed.

(** ** Staged files *)

Lemma staged_none f p : f !! p = None → staged_if_any f p = Ok None.
Proof. intros H. unfold staged_if_any, staged_config_metadata, open_regular, lstat. by rewrite H. Qed.

Lemma wp_cleanup_staging v w dest id k want (Q : unit → world → Prop) C :
  st v w → underway v → (config_staging_paths dest id k).1 ∈ staging m →
  (config_staging_paths dest id k).2 ∈ staging m → Q tt w →
  wp (cleanup_staging dest id k want) Q C w.
Proof.
  intros Hw U H1 H2 HQ. unfold cleanup_staging. destruct (config_staging_paths dest id k) as [p q].
  cbn in H1, H2.
  assert (∀ x, x ∈ staging m → files w !! x = None) as Hn.
  { intros x Hx. pose proof (st_looks a m tree rest lay v w x Hw (own_in a m x (staging_own a m x Hx))) as L.
    by rewrite (u_staging _ _ _ U x Hx) in L. }
  apply wp_bind. eapply wp_reading; [by apply staged_none, Hn|].
  apply wp_bind. eapply wp_reading; [by apply staged_none, Hn|].
  apply wp_bind, wp_ret. by apply wp_ret.
Qed.

Lemma during_cleanup P : during underway P (cleanup_config_staging m) P.
Proof.
  intros v w Hw U HP. unfold cleanup_config_staging. apply wp_bind.
  apply (wp_cleanup_staging v); [done|done|left|right; left|].
  apply (wp_cleanup_staging v); [done|done|do 2 right; left|do 3 right; left|]. eauto.
Qed.

(** ** The files *)

Lemma config_paths : absolute (env_path m) = a_env a ∧ absolute (service_path m) = a_service a.
Proof. pose proof (lay_own a m lay) as H. unfold check_ownership in H. inv_res. bools. done. Qed.

Lemma backup_unshared mode : backup_mode mode = true → unshared mode = true.
Proof.
  unfold backup_mode. intros H. apply orb_true_iff in H as [H|H]; [apply orb_true_iff in H as [H|H]|];
    apply Z.eqb_eq in H as ->; done.
Qed.

(** The backup is there. *)
Lemma backup_there v w b sha mode :
  st v w → b = env m ∨ b = service m → saved b = Some (sha, mode) →
  ∃ c, read_private (files w) (tx // backup_name b) MAX_CONFIG_BYTES = Ok c ∧ sha256 c = sha ∧
    (len c ≤ MAX_CONFIG_BYTES)%Z ∧ backup_mode mode = true.
Proof.
  intros Hw Hb Hs. destruct (st_journal _ _ _ _ v w Hw) as (F & HF & J).
  assert (backup_ok F tx b) as [Hn Hok] by (destruct Hb as [-> | ->]; apply (j_ok _ _ _ J)).
  rewrite Hs in Hok. destruct Hok as (_ & Hm & Hsha).
  assert (temp (tx // backup_name b) = false) as Ht.
  { rewrite temp_child, (temp_tx _ (j_plain _ _ _ J)). apply str_in_spec in Hn.
    by destruct Hn as [<-|[<-|[]]]. }
  rewrite <-(sha256_same root F w _ HF Ht) in Hsha. unfold sha256_file in Hsha. inv_res.
  exists x. split_and!; [done|done| |done]. unfold read_private in H. inv_res.
  destruct x0 as [[[[? ?] ?] ?] ?]. inv_res. bools. lia.
Qed.

Lemma wp_restore_configuration v w p b o (I Q : view → Prop) :
  st v w → p ∈ places → parent p ≠ tx → v p = Conf o → b = env m ∨ b = service m →
  I v → (as_saved b (v p) → Q v) →
  (∀ it, as_saved b it → I (upd p it v) ∧ Q (upd p it v)) →
  wp (restore_configuration p tx b) (λ _ w', ∃ v', st v' w' ∧ I v' ∧ Q v') (λ w', ∃ v', st v' w' ∧ I v') w.
Proof.
  intros Hw Hp Hpar Hv Hb HI HQ HIQ. unfold restore_configuration. unfold as_saved in *.
  destruct (saved b) as [[sha mode]|] eqn:Hs.
  - destruct (backup_there v w b sha mode Hw Hb Hs) as (c & Hc & Hsha & Hlen & Hm).
    destruct (HIQ (Conf (Some (mode, c)))) as [HI' HQ']; [by exists c|].
    apply wp_bind. eapply wp_reading; [exact Hc|].
    eapply (wp_steps a m tree rest); [eapply (step_config a m tree rest lay v p o)|..]; try done.
    by apply backup_unshared.
  - pose proof (st_looks a m tree rest lay v w p Hw Hp) as L. rewrite Hv in L. cbn in L.
    apply wp_bind. eapply wp_reading; [done|]. destruct o as [[mode c]|].
    + destruct L as ((i & L & _) & _). rewrite L. apply wp_bind, wp_guard; [by rewrite Z.eqb_refl|].
      destruct (HIQ (Conf None)) as [HI' HQ']; [done|].
      eapply (wp_steps a m tree rest); [eapply (step_unconfig a m tree rest lay v p)|..]; done.
    + cbn in L. rewrite L. apply wp_ret. exists v. split_and!; [done|done|]. by apply HQ.
Qed.

Context (seen : original_seen).

Lemma saved_meta b it : as_saved b it → ∃ e, it = Conf e ∧ config_meta e = saved b.
Proof.
  unfold as_saved. destruct (saved b) as [[sha mode]|].
  - intros (c & -> & <-). by eexists.
  - intros ->. by eexists.
Qed.

Lemma authorized_env : authorized_configuration (saved (env m)) (observed_env m) (λ x, x =? 384)%Z = true.
Proof.
  destruct seen as [H _ Hm]. unfold authorized_configuration. destruct (saved (env m)) as [[sha mode]|] eqn:E.
  - apply andb_true_iff. split; [by apply bool_decide_eq_true|]. apply Z.eqb_eq. by eapply Hm.
  - by apply bool_decide_eq_true.
Qed.

Lemma authorized_service v w : st v w →
  authorized_configuration (saved (service m)) (observed_service m) backup_mode = true.
Proof.
  intros Hw. destruct seen as [_ H _]. unfold authorized_configuration.
  destruct (saved (service m)) as [[sha mode]|] eqn:E.
  - apply andb_true_iff. split; [by apply bool_decide_eq_true|].
    by destruct (backup_there v w (service m) sha mode) as (c & _ & _ & _ & Hm); [done|by right|done|].
  - by apply bool_decide_eq_true.
Qed.

(** Links and releases do not depend on the configuration. *)
Lemma links_back_config v i p it :
  links_back v → own_places !! i = Some p → 5 < i → links_back (upd p it v).
Proof.
  intros [[Hb Hc] Hp] Hi H5.
  assert (∀ k q, own_places !! k = Some q → k ≠ i → upd p it v q = v q) as K.
  { intros k q Hk Hne. apply upd_other. by eapply own_ne. }
  split; [split|].
  - apply old_back_other; [done|]. intros r Hr. eapply old_source_ne; [done|done|exact Hi|lia|lia].
  - by rewrite (K 4) by (done || lia).
  - by rewrite (K 5) by (done || lia).
Qed.

Lemma during_env_back :
  during underway links_back (restore_configuration (absolute (env_path m)) tx (env m)) env_back.
Proof.
  intros v w Hw U Hl. rewrite (proj1 config_paths). destruct (u_configs _ _ _ U) as (e & s & He & Hs & Hok).
  unfold configs_ok in Hok. rewrite rolling_back in Hok.
  apply (wp_restore_configuration v w (a_env a) (env m) e); try done; [apply env_in|apply lay|by left|].
  intros it Hit. destruct (saved_meta _ _ Hit) as (e' & -> & Hm). split.
  - eapply env_underway; [done|done|exact Hs|]. unfold configs_ok. rewrite rolling_back, Hm.
    split; [apply authorized_env|apply Hok].
  - split; [by apply (links_back_config v 6); [| |lia]|]. by rewrite upd_same.
Qed.

Lemma during_service_back :
  during underway env_back (restore_configuration (absolute (service_path m)) tx (service m)) restored.
Proof.
  intros v w Hw U [Hl Hb]. rewrite (proj2 config_paths). destruct (u_configs _ _ _ U) as (e & s & He & Hs & Hok).
  unfold configs_ok in Hok. rewrite rolling_back in Hok.
  apply (wp_restore_configuration v w (a_service a) (service m) s); try done; [apply service_in|apply lay|by right|].
  intros it Hit. destruct (saved_meta _ _ Hit) as (s' & -> & Hm). split.
  - eapply service_underway; [done|done|exact He|]. unfold configs_ok. rewrite rolling_back, Hm.
    split; [apply Hok|by eapply authorized_service].
  - split; [split; [by apply (links_back_config v 7); [| |lia]|]|by rewrite upd_same].
    rewrite upd_other; [done|]. by eapply own_ne; [done|exact (env_at a m)|exact (service_at a m)|].
Qed.

(** ** The whole *)

Lemma wp_restore v w : st v w → underway v →
  wp (restore_files a)
    (λ _ w', ∃ v', st v' w' ∧ underway v' ∧ restored v')
    (λ w', ∃ v', st v' w' ∧ underway v') w.
Proof.
  intros Hw U. unfold restore_files. apply wp_bind.
  eapply (wp_st_manifest a m tree rest); [exact Hw| |by eauto]. clear w Hw. intros w Hw.
  apply wp_bind. eapply (wp_st_validate a m tree rest); [done|exact Hw|by right|exact U|by left|by left|].
  apply wp_bind, wp_guard; [by rewrite rolling_back|].
  revert v w Hw U.
  assert (during underway (λ _, True)
    (unpark_old a tx m;; restore_current a m;; restore_previous a m;; cleanup_config_staging m;;
     restore_configuration (absolute (env_path m)) tx (env m);;
     restore_configuration (absolute (service_path m)) tx (service m)) restored) as H;
    [|intros v w Hw U; exact (H v w Hw U I)].
  eapply during_bind; [apply during_unpark|]. eapply during_bind; [apply during_current_back|].
  eapply during_bind; [apply during_previous_back|]. eapply during_bind; [apply during_cleanup|].
  eapply during_bind; [apply during_env_back|apply during_service_back].
Qed.
End restore.
