(* ===== verification/ActivationRecord.v ===== *)
(** * The journal of a release activation: [record]

    A transition is written at once: an interruption leaves the manifest before
    it or after it.  Here is what that does to the states under way when an
    activation turns into a rollback. *)
From S2P Require Import Prelude PyValues Json FileSystem FileLogic Activation.
From S2P Require Import ActivationJson ActivationOps ActivationReplace ActivationState ActivationViews.
From S2P Require Import ActivationJournal ActivationPlaces ActivationSteps ActivationRules ActivationMoves ActivationActivate ActivationRestore.

Open Scope string_scope.

Section record.
Context {host : Host} {laws : HostLaws host} (a : args).

Notation root := (a_root a).
Notation rel := (a_root a // "releases").
Notation tx := (transaction_directory (a_root a)).
Notation manifest_path := (transaction_directory (a_root a) // "manifest.json").
Notation staged := (staged (a_root a)).
Notation holds := (holds (ActivationJournal.staged (a_root a))).

Lemma manifest_target F m : journal root F m → target_place F manifest_path.
Proof.
  intros J. split.
  - by rewrite temp_child, (temp_tx _ (j_plain _ _ _ J)).
  - intros E. by apply app_eq_nil in E as [_ ?].
  - rewrite parent_child. destruct (j_dir _ _ _ J) as [i H]. unfold dir_at. by rewrite H.
  - destruct (j_manifest _ _ _ J) as (i & H & _). unfold dir_at. by rewrite H.
Qed.

(** What is not the manifest stays. *)
Lemma manifest_agree F F' m c :
  journal root F m → new_file F manifest_path 384 c F' → agree (λ q, q ≠ manifest_path) F F'.
Proof.
  intros J (i & -> & Hf). apply agree_file; [|done]. right. eexists _, _. apply J.
Qed.

Lemma journal_next F F' m m' :
  journal root F m → new_file F manifest_path 384 (canonical m') F' →
  manifest_ok F root rel tx m' → fits m' → (len (canonical m') ≤ MAX_CONTROL_BYTES)%Z →
  journal root F' m'.
Proof.
  intros J HF Hok Hfit Hlen. pose proof (manifest_agree F F' m _ J HF) as HA.
  assert (∀ n, root // n ≠ manifest_path) as Hd.
  { intros n E. apply (f_equal length) in E. unfold transaction_directory, child in E.
    rewrite !length_app in E. cbn in E. lia. }
  assert (∀ n, n ≠ "manifest.json" → tx // n ≠ manifest_path) as Hc by (by intros n Hn [_ ?]%child_inj).
  assert (root ≠ manifest_path) as Hr.
  { intros E. apply (f_equal length) in E. unfold transaction_directory, child in E.
    rewrite !length_app in E. cbn in E. lia. }
  destruct J as [J1 J2 J3 J4 J5 J6 J7 J8]. split; try done.
  - by rewrite (proj1 HA) by done.
  - rewrite (proj1 HA); [done|]. apply Hd.
  - rewrite (proj1 HA); [done|]. apply Hd.
  - destruct HF as (i & -> & Hf). apply plain_new. intros q. by apply Hf.
  - eapply manifest_ok_files; [done|..]; (eapply agree_sha; [exact HA|]; by apply Hc).
Qed.

(** The command, when it accepts the transition. *)
Lemma wp_record F m m' r w Q C :
  holds F w → journal root F m →
  manifest_ok F root rel tx m' → fits m' → (len (canonical m') ≤ MAX_CONTROL_BYTES)%Z →
  (∀ w', holds F w' →
    validate_invocation (files w') a m (rolling_back_name (ra_phase r)) tx = Ok tt ∧
    validate_invocation (files w') a m' (rolling_back_name (ra_phase r)) tx = Ok tt ∧
    recorded (files w') r m = Ok m') →
  (∀ F' w' x, new_file F manifest_path 384 (canonical m') F' → journal root F' m' → holds F' w' → Q x w') →
  (∀ w', holds F w' → C w') →
  (∀ F' w', new_file F manifest_path 384 (canonical m') F' → journal root F' m' → holds F' w' → C w') →
  wp (record a r) Q C w.
Proof.
  intros Hw J Hok Hfit Hlen Hval HQ HC HC'. unfold record. apply wp_bind.
  eapply (wp_read_manifest root F); [done|done| |done]. clear w Hw. intros w Hw.
  destruct (Hval w Hw) as (H1 & H2 & H3).
  apply wp_bind. eapply wp_reading; [exact H1|]. apply wp_bind. eapply wp_reading; [exact H3|].
  apply wp_bind. eapply wp_reading; [exact H2|]. apply wp_bind.
  apply (wp_replace_file staged (staged_temp root) F manifest_path 384 (canonical m') w); try done.
  - by eapply manifest_target.
  - by right.
  - intros F' w' HF HF'. apply wp_ret. eapply HQ; [done| |done]. by eapply journal_next.
  - intros F' w' HF HF'. eapply HC'; [done| |done]. by eapply journal_next.
Qed.

(** ** From activation to rollback *)

(** The manifest of a rollback. *)
Definition roll (m : manifest) : manifest :=
  m {{ m_phase := RollingBack; rollback_from := Some (m_phase m) }}.

(** [record --phase rolling-back] *)
Definition rolling_args : record_args :=
  mkRecordArgs "rolling-back" "" "" "" "" "" "" "" "" "" "" "" "unchanged".

(** A transition that names no hub and no guard changes nothing but the phase. *)
Lemma recorded_plain f g rel' dir m m' :
  manifest_ok g root rel' dir m → advance m RollingBack = Ok m' →
  m_hub m' = m_hub m → intent m' = intent m → m_guard m' = m_guard m →
  in_phases (m_phase m) [Committed; RollbackHealthy] = false →
  recorded f rolling_args m = Ok m'.
Proof.
  intros Hok Ha Hh Hi Hg Hph. unfold recorded. eapply bind_ok; [done|]. eapply bind_ok; [exact Ha|].
  eapply bind_ok; [done|]. eapply bind_ok; [done|]. cbn zeta.
  change (record_authority rolling_args m') with m'. rewrite Hh, Hi, Hg.
  eapply bind_ok; [apply Hok|]. eapply bind_ok; [apply Hok|]. by rewrite Hph.
Qed.

Lemma recorded_rolling f g rel' dir m :
  manifest_ok g root rel' dir m → in_phases RollingBack (TRANSITIONS (m_phase m)) = true →
  recorded f rolling_args m = Ok (roll m).
Proof.
  intros Hok Hph. eapply recorded_plain; [done| |done..|by destruct (m_phase m)].
  unfold advance. rewrite bool_decide_false by (intros E; by rewrite <-E in Hph).
  rewrite Hph. cbn. by rewrite bool_decide_true.
Qed.

Lemma recorded_again f g rel' dir m :
  manifest_ok g root rel' dir m → m_phase m = RollingBack → recorded f rolling_args m = Ok m.
Proof.
  intros Hok Hph. eapply recorded_plain; [done| |done..|by rewrite Hph].
  unfold advance. by rewrite bool_decide_true.
Qed.

Lemma roll_ok f r0 rel' dir m :
  manifest_ok f r0 rel' dir m → in_phases RollingBack (TRANSITIONS (m_phase m)) = true →
  manifest_ok f r0 rel' dir (roll m).
Proof.
  intros [] Hph. split; try done. split; [|done]. by destruct (m_phase m).
Qed.

Lemma roll_layout m : layout a m → layout a (roll m).
Proof. intros []. split; done. Qed.

Section roll.
Context (m : manifest) (tree : release → path → option node) (rest : path → option node).
Context (lay : layout a m).

(** The places show the same after the manifest is written. *)
Lemma shows_write F F' v m' : places a m' = places a m →
  shows a m tree rest F v → new_file F manifest_path 384 (canonical m') F' →
  journal root F' m' → shows a m' tree rest F' v.
Proof.
  intros Ep [SJ SR SD SP SX] HF J. pose proof (manifest_agree F F' m _ SJ HF) as HA.
  assert (∀ p q, p ∈ places a m → (p ++ q)%list ≠ manifest_path) as Hne.
  { intros p q Hp E. pose proof (lay_kept a m lay p manifest_path Hp) as Hk.
    rewrite <-E, under_below in Hk. specialize (Hk ltac:(unfold kept; rewrite E; set_solver)). done. }
  split; rewrite ?Ep.
  - done.
  - destruct HF as (i & -> & _). apply rooted_insert; [done| |].
    + intros d n [<- <-]%child_inj. destruct (j_dir _ _ _ SJ) as [j H]. unfold dir_at. by rewrite H.
    + destruct (j_manifest _ _ _ SJ) as (j & H & _). unfold dir_at. by rewrite H.
  - intros p Hp. pose proof (SD p Hp) as H. unfold dir_at in *. rewrite (proj1 HA); [done|].
    intros E. rewrite E in H. destruct (j_manifest _ _ _ SJ) as (j & Hj & _). by rewrite Hj in H.
  - intros p Hp. eapply item_agree; [exact HA| |by apply SP]. intros q. by apply Hne.
  - intros q Hq Hp. rewrite (proj1 HA) by done. by apply SX.
Qed.

Lemma underway_roll v : m_phase m = Linking → original_seen m →
  authorized_configuration (saved (service m)) (observed_service m) backup_mode = true →
  underway a m v → underway a (roll m) v.
Proof.
  intros Hph Hseen Hs U. pose proof (authorized_env m Hseen) as He.
  destruct U as [U1 U2 U3 U4 U5 U6 U7 (e & s & Ce & Cs & Hc)]. split; try done.
  exists e, s. split_and!; [done|done|]. unfold configs_ok in *. rewrite Hph in Hc.
  cbn. destruct Hc as [-> ->]. done.
Qed.

(** The world is that of an interrupted activation, in any phase: its places are
    in a state that a rollback starts from, and the check of the journal accepts
    what is on the disk, temporary files apart. *)
Definition interrupted (v : view) (w : world) : Prop :=
  ∃ F, holds F w ∧ shows a m tree rest F v ∧ underway a (roll m) v ∧
    ∀ w', holds F w' → validate_invocation (files w') a m true tx = Ok tt.

(** The rollback is recorded at once, and a world that shows a state of the
    activation shows it as a state of the rollback. *)
Lemma wp_record_rolling v w Q C :
  in_phases RollingBack (TRANSITIONS (m_phase m)) = true → (len (canonical (roll m)) ≤ MAX_CONTROL_BYTES)%Z →
  interrupted v w →
  (∀ x w', st a (roll m) tree rest v w' → Q x w') →
  (∀ w', interrupted v w' → C w') →
  (∀ w', st a (roll m) tree rest v w' → C w') →
  wp (record a rolling_args) Q C w.
Proof.
  intros Htr Hlen (F & HF & HS & U' & Hval) HQ HC HC'.
  pose proof (sh_journal _ _ _ _ _ _ HS) as J. pose proof (j_ok _ _ _ J) as Hok.
  assert (∀ w', holds F w' → st a m tree rest v w') as Hst by (intros w' Hw'; by exists F).
  eapply (wp_record F m (roll m)); [done|done|by apply roll_ok|apply J|done|..].
  - intros w' Hw'. split_and!.
    + by apply Hval.
    + apply validate_accepted; [by right|].
      eapply (underway_acceptable a (roll m)); [by apply roll_layout|by apply roll_ok| |done|by left|by left].
      intros p. by apply (st_looks a m tree rest), Hst.
    + by eapply recorded_rolling.
  - intros F' w' x HN J' Hw'. apply HQ. exists F'. split; [done|]. by eapply shows_write.
  - intros w' Hw'. apply HC. by exists F.
  - intros F' w' HN J' Hw'. apply HC'. exists F'. split; [done|]. by eapply shows_write.
Qed.

(** An activation in [linking] is one of them, wherever it was interrupted. *)
Lemma linking_interrupted v w :
  m_phase m = Linking → original_seen m → st a m tree rest v w → linking a m v → interrupted v w.
Proof.
  intros Hph Hseen Hw HI. pose proof Hw as (F & HF & HS). exists F. split_and!; [done|done| |].
  - apply underway_roll; [done|done| |apply HI]. by eapply (authorized_service a m tree rest Hseen v w).
  - intros w' Hw'. assert (st a m tree rest v w') as Hst by (by exists F).
    apply validate_accepted; [by left|].
    eapply (underway_acceptable a m lay); [apply (sh_journal _ _ _ _ _ _ HS)| |apply HI|right; apply HI|by left].
    intros p. by apply (st_looks a m tree rest).
Qed.

(** Recorded again, it is written again. *)
Lemma wp_record_again v w Q C :
  m_phase m = RollingBack → st a m tree rest v w → underway a m v →
  (∀ x w', st a m tree rest v w' → Q x w') → (∀ w', st a m tree rest v w' → C w') →
  wp (record a rolling_args) Q C w.
Proof.
  intros Hph (F & HF & HS) U HQ HC. pose proof (sh_journal _ _ _ _ _ _ HS) as J.
  assert (∀ w', holds F w' → st a m tree rest v w') as Hst by (intros w' Hw'; by exists F).
  eapply (wp_record F m m); [done|done|apply J|apply J|apply J|..].
  - intros w' Hw'. assert (validate_invocation (files w') a m (rolling_back_name (ra_phase rolling_args)) tx = Ok tt) as H.
    { apply validate_accepted; [by right|].
      eapply (underway_acceptable a m lay); [apply J| |done|by left|by left].
      intros p. by apply (st_looks a m tree rest), Hst. }
    split_and!; [done|done|]. by eapply recorded_again; [apply J|].
  - intros F' w' x HN J' Hw'. apply HQ. exists F'. split; [done|]. by eapply shows_write.
  - eauto.
  - intros F' w' HN J' Hw'. apply HC. exists F'. split; [done|]. by eapply shows_write.
Qed.
End roll.
End record.
