(* ===== verification/ActivationExample.v ===== *)
(** * The journal of a release activation: an example

    Version 1.0.0 is installed over itself: the old release is in the way of the
    candidate and has to be put aside.  The manifest is in [linking] and nothing
    is moved yet, or it is in [linked], everything is moved, and the
    environment file is already the new one. *)
From S2P Require Import Prelude PyValues Json FileSystem FileLogic Activation.
From S2P Require Import ActivationJson ActivationOps ActivationReplace ActivationState ActivationViews.
From S2P Require Import ActivationJournal ActivationPlaces ActivationSteps ActivationRules ActivationMoves ActivationActivate ActivationRestore ActivationRecord.

Open Scope string_scope.

Fixpoint repeated (n : nat) (c : Ascii.ascii) : string :=
  match n with O => "" | S n => String c (repeated n c) end.

(** A host whose digest tells apart lengths of different parity. *)
Definition example_host : Host := {|
  uid := 1000%Z;
  umask := 18%Z;
  sha256 := λ s, repeated 64 (if Nat.even (String.length s) then chr 97 else chr 98);
  token := λ k, repeated k (chr 99);
  relative := λ s, [s];
  canonical_address := λ _, None;
|}.

Lemma repeated_length n c : String.length (repeated n c) = n.
Proof. induction n as [|n IH]; [done|]. cbn. by rewrite IH. Qed.

Lemma example_laws : HostLaws example_host.
Proof.
  split.
  - intros j k H. apply (f_equal String.length) in H. cbn in H. by rewrite !repeated_length in H.
  - intros k. cbn. induction k as [|k IH]; [done|]. unfold string_contains in *. cbn. done.
  - intros s. cbn -[repeated]. by destruct (Nat.even (String.length s)).
  - by intros n [-> | ->].
Qed.
#[global] Existing Instance example_host.
#[global] Existing Instance example_laws.

Definition example_args : args :=
  mkArgs ["srv"] ["srv"; "current"] ["srv"; "previous"] ["etc"; "env"] ["etc"; "unit"] "" "" None.

Definition a64 : string := repeated 64 (chr 97).
Definition b64 : string := repeated 64 (chr 98).
Definition example_id : string := "activation-" +:+ repeated 24 (chr 48).

Definition example_manifest : manifest :=
  mkManifest example_id "1.0.0" "/srv/releases/1.0.0"
    (mkRelease "/srv/releases/.new" "/srv/releases/1.0.0" 1 6 a64)
    "/srv/releases/1.0.0-old"
    (Some (mkRelease "/srv/releases/1.0.0" "/srv/releases/1.0.0-old" 1 4 a64))
    (mkLink Symlink "/srv/releases/1.0.0") (mkLink Missing "") None
    "/etc/env" (mkBackup "env.backup" (Some (b64, 384%Z)))
    "/etc/unit" (mkBackup "service.backup" (Some (b64, 420%Z)))
    "running" true "absent" false 7850 "localhost" "ordinary" "" None None
    Linking None None None false [Some b64] [Some b64].

Definition example_files : fs :=
  let dir i := Dir (Ident 1 i) 1000 493 in
  let reg i m c := Reg (Ident 1 i) 1000 m c in
  let version := "1.0.0" +:+ String (chr 10) "" in
  let at_root p := "srv" :: p in
  list_to_map
    [([], dir 1); (["srv"], dir 2); (at_root ["releases"], dir 3);
     (at_root ["releases"; "1.0.0"], dir 4); (at_root ["releases"; "1.0.0"; "VERSION"], reg 5 420 version);
     (at_root ["releases"; ".new"], dir 6); (at_root ["releases"; ".new"; "VERSION"], reg 7 420 version);
     (at_root ["current"], Lnk "/srv/releases/1.0.0");
     (["etc"], dir 8); (["etc"; "env"], reg 9 384 "TOKEN=old");
     (["etc"; "unit"], reg 10 420 "[Service]");
     (at_root [".activation-transaction"], Dir (Ident 1 11) 1000 448);
     (at_root [".activation-transaction"; "manifest.json"], reg 12 384 (canonical example_manifest));
     (at_root [".activation-transaction"; "env.backup"], reg 13 384 "TOKEN=old");
     (at_root [".activation-transaction"; "service.backup"], reg 14 384 "[Service]")]%Z.

Definition example_world : world := World example_files 100 0 [].

(** A run that is killed at its tenth call, one whose fourth call fails. *)
Definition example_faults : list (list (option fault)) :=
  [(replicate 9 None ++ [Some Kill])%list; (replicate 3 None ++ [Some Fail])%list].

Definition example_tree (r : release) (q : path) : option node :=
  example_files !! (absolute (source r) ++ q)%list.
Definition example_rest (q : path) : option node := example_files !! q.

Definition example_view : view := λ p,
  match example_files !! p with
  | None => Nothing
  | Some (Lnk raw) => Link raw
  | Some (Reg _ _ mode c) => Conf (Some (mode, c))
  | Some _ => if bool_decide (p = ["srv"; "releases"; ".new"]) then Release (candidate_release example_manifest)
              else match old_release example_manifest with Some r => Release r | None => Nothing end
  end.

(** *** Checks on finite maps *)

Lemma all_entries (f : fs) (ok : path → node → bool) :
  forallb (λ kv, ok kv.1 kv.2) (map_to_list f) = true →
  ∀ p n, f !! p = Some n → ok p n = true.
Proof.
  intros H p n Hp. rewrite forallb_forall in H. apply (H (p, n)).
  by apply list_elem_of_In, elem_of_map_to_list.
Qed.

(** The files of an example, by checks on each. *)
Section checked.
Context (F : fs).

Definition good_entry (p : path) (n : node) : bool :=
  negb (temp p) && match p with [] => true | _ => dir_at F (parent p) end
  && match node_ident n with Some i => (inode i <? 100)%Z | None => true end
  && match file_ident n with Some i => (inode i <? 100)%Z | None => true end.
Context (good : forallb (λ kv, good_entry kv.1 kv.2) (map_to_list F) = true).

Lemma checked p n : F !! p = Some n → temp p = false ∧ (p = [] ∨ dir_at F (parent p) = true)
  ∧ (∀ i, node_ident n = Some i → (inode i < 100)%Z) ∧ (∀ i, file_ident n = Some i → (inode i < 100)%Z).
Proof.
  intros H. apply (all_entries F good_entry good) in H. unfold good_entry in H.
  apply andb_true_iff in H as [[[Ht%negb_true_iff Hd]%andb_true_iff Hn]%andb_true_iff Hf].
  split_and!; [done|destruct p; auto| |].
  - intros i Hi. rewrite Hi in Hn. by apply Z.ltb_lt.
  - intros i Hi. rewrite Hi in Hf. by apply Z.ltb_lt.
Qed.

Lemma checked_rooted : rooted F.
Proof.
  intros p k [n H]. destruct (checked _ _ H) as (_ & [E|E] & _); [by destruct p|]. by rewrite parent_child in E.
Qed.

Lemma checked_holds : holds (staged ["srv"]) F (World F 100 0 []).
Proof.
  assert (∀ p, staged ["srv"] p = true → F !! p = None) as Hs.
  { intros p Hp. apply staged_temp in Hp. apply eq_None_not_Some. intros [n Hn].
    destruct (checked _ _ Hn). congruence. }
  split.
  - split.
    + intros k d n _. apply eq_None_not_Some. intros [x Hx]. destruct (checked _ _ Hx) as [Ht _].
      by rewrite temp_child, tmp_name_temp, orb_true_r in Ht.
    + intros p n i H Hi. destruct (checked _ _ H) as (_ & _ & Hn & _). by apply Hn.
    + apply checked_rooted.
    + intros p n Hp Hn. by rewrite Hs in Hn.
    + intros p q i Hp Hn. by rewrite Hs in Hn.
  - done.
  - intros p i H. destruct (F !! p) as [n|] eqn:E; [|done]. cbn in H. destruct (checked _ _ E) as (_ & _ & _ & Hn). by apply Hn.
  - apply checked_rooted.
Qed.
End checked.

Lemma example_good : forallb (λ kv, good_entry example_files kv.1 kv.2) (map_to_list example_files) = true.
Proof. vm_compute. reflexivity. Qed.

Lemma example_rooted : rooted example_files.
Proof. apply checked_rooted, example_good. Qed.

Lemma example_holds : holds (staged ["srv"]) example_files example_world.
Proof. apply checked_holds, example_good. Qed.

(** *** The journal and the places *)

Lemma example_ok : manifest_ok example_files ["srv"] ["srv"; "releases"]
  (transaction_directory ["srv"]) example_manifest.
Proof. split; vm_compute; done. Qed.

Ltac plain := eexists; split; [vm_compute; reflexivity|vm_compute; reflexivity].

Lemma example_journal : journal ["srv"] example_files example_manifest.
Proof.
  split.
  - done.
  - eexists _, _. split; vm_compute; reflexivity.
  - eexists _, _. split; vm_compute; reflexivity.
  - eexists. vm_compute. reflexivity.
  - plain.
  - vm_compute. done.
  - apply example_ok.
  - repeat constructor.
Qed.

Definition example_places : list path := Eval vm_compute in places example_args example_manifest.

Lemma example_places_eq : places example_args example_manifest = example_places.
Proof. vm_compute. reflexivity. Qed.

Definition apart_b (p q : path) : bool := negb (bool_decide (is_Some (under p q))) && negb (bool_decide (is_Some (under q p))).

Lemma apart_b_spec p q : apart_b p q = true → apart p q.
Proof.
  unfold apart_b, apart. intros [H1 H2]%andb_true_iff.
  apply negb_true_iff, bool_decide_eq_false in H1, H2. by rewrite <-!eq_None_not_Some in H1, H2.
Qed.

Lemma all_pairs (ok : path → path → bool) (l k : list path) :
  forallb (λ p, forallb (ok p) k) l = true → ∀ p q, p ∈ l → q ∈ k → ok p q = true.
Proof.
  rewrite forallb_forall. intros H p q Hp Hq. apply list_elem_of_In in Hp, Hq.
  specialize (H p Hp). rewrite forallb_forall in H. by apply H.
Qed.

Lemma all_one (ok : path → bool) (l : list path) :
  forallb ok l = true → ∀ p, p ∈ l → ok p = true.
Proof. rewrite forallb_forall. intros H p Hp. by apply H, list_elem_of_In. Qed.

Lemma example_layout : layout example_args example_manifest.
Proof.
  split.
  - vm_compute. done.
  - intros p q Hp Hq Hne. apply apart_b_spec.
    pose proof (all_pairs (λ p q, bool_decide (p = q) || apart_b p q)
      (places example_args example_manifest) (places example_args example_manifest) ltac:(vm_compute; done) p q Hp Hq) as H.
    apply orb_true_iff in H as [H%bool_decide_eq_true|H]; done.
  - intros p Hp. apply negb_true_iff.
    by apply (all_one (λ p, negb (temp p)) (places example_args example_manifest)); [vm_compute|].
  - intros p k Hp Hk. apply eq_None_not_Some.
    pose proof (all_pairs (λ p k, negb (bool_decide (is_Some (under p k))))
      (places example_args example_manifest) (kept example_args) ltac:(vm_compute; done) p k Hp Hk) as H.
    by apply negb_true_iff, bool_decide_eq_false in H.
  - intros p Hp.
    pose proof (all_one (λ p, bool_decide (parent p ∈ kept example_args))
      (places example_args example_manifest) ltac:(vm_compute; done) p Hp) as H.
    by apply bool_decide_eq_true in H.
  - split; vm_compute; done.
  - apply (bool_decide_unpack _). vm_compute. done.
  - intros r [= <-]. split_and!.
    + apply (bool_decide_unpack _). vm_compute. done.
    + right. done.
    + vm_compute. done.
  - vm_compute. done.
  - eexists. split_and!; [reflexivity|vm_compute; done|vm_compute; done|]. right. split; vm_compute; done.
  - split; done.
  - done.
Qed.

(** The places with what is there. *)
Definition example_items : list (path * item) :=
  Eval vm_compute in map (λ p, (p, example_view p)) example_places.

Lemma example_items_eq : map (λ p, (p, example_view p)) example_places = example_items.
Proof. vm_compute. reflexivity. Qed.

Lemma release_item (f : fs) tree p r :
  (∀ q, f !! (p ++ q)%list = tree r q) →
  match f !! p with
  | Some (Dir i o mode) => bool_decide (i = Ident (r_device r) (r_inode r)) && (o =? uid)%Z && unshared mode
  | _ => false
  end = true →
  match f !! (p // "VERSION") with
  | Some (Reg i o mode c) => (o =? uid)%Z && Nat.eqb (nlink f i) 1 && unshared mode
      && (1 <=? len c)%Z && (len c <=? 4096)%Z && String.eqb (sha256 c) (version_sha256 r)
  | _ => false
  end = true →
  item_at tree f p (Release r).
Proof.
  intros Ht Hd Hv. split; [|exact Ht]. split.
  - destruct (f !! _) as [[i o mode| | |]|]; try done. bools.
    exists mode. apply Z.eqb_eq in H1. by subst.
  - destruct (f !! (_ // _)) as [[|i o mode c| |]|] eqn:E; try done. bools.
    apply Z.eqb_eq in H. apply Nat.eqb_eq in H4. apply String.eqb_eq in H0. subst.
    exists mode, c. split_and!; [|done|lia|lia|done]. by exists i.
Qed.

Lemma config_item (f : fs) tree p mode c :
  match f !! p with
  | Some (Reg i o mode' c') => bool_decide (o = uid ∧ mode' = mode ∧ c' = c)
      && Nat.eqb (nlink f i) 1 && unshared mode && (len c <=? MAX_CONFIG_BYTES)%Z
  | _ => false
  end = true →
  item_at tree f p (Conf (Some (mode, c))).
Proof.
  intros H. destruct (f !! p) as [[|i o mode' c'| |]|] eqn:E; try done. bools.
  destruct H as (-> & -> & ->). apply Nat.eqb_eq in H2. split_and!; [|done|lia]. by exists i.
Qed.

Lemma example_at : Forall (λ kv, item_at example_tree example_files kv.1 kv.2) example_items.
Proof.
  unfold example_items.
  repeat (apply Forall_cons; split; cbn [fst snd]); [..|by apply Forall_nil];
    first [apply release_item; [exact (λ _, eq_refl)|by vm_compute|by vm_compute]
      |apply config_item; by vm_compute|by vm_compute].
Qed.

Lemma example_shows : shows example_args example_manifest example_tree example_rest example_files example_view.
Proof.
  split.
  - apply example_journal.
  - apply example_rooted.
  - intros p Hp.
    exact (all_one (λ p, dir_at example_files (parent p)) (places example_args example_manifest)
      ltac:(vm_compute; done) p Hp).
  - rewrite example_places_eq. intros p Hp. pose proof example_at as H. rewrite <-example_items_eq in H.
    rewrite Forall_forall in H. apply (H (p, example_view p)). apply list_elem_of_fmap. by exists p.
  - done.
Qed.

Lemma example_linking : linking example_args example_manifest example_view.
Proof.
  split_and!.
  - split.
    + intros r [= <-]. vm_compute. left. split; reflexivity.
    + left. split_and!; [vm_compute; reflexivity| |vm_compute; reflexivity].
      right. eexists. split_and!; [reflexivity|vm_compute; reflexivity|vm_compute; reflexivity].
    + vm_compute. reflexivity.
    + intros p Hp. apply (all_one (λ p, bool_decide (example_view p = Nothing)) (staging example_manifest)
        ltac:(vm_compute; done) p) in Hp. by apply bool_decide_eq_true in Hp.
    + right. left. vm_compute. reflexivity.
    + left. vm_compute. reflexivity.
    + done.
    + eexists _, _. split_and!; [vm_compute; reflexivity..|]. split; vm_compute; reflexivity.
  - vm_compute. reflexivity.
  - intros r _ H. vm_compute in H. done.
Qed.

Lemma example_seen : original_seen example_manifest.
Proof. split; [left|left|by intros ? ? [= _ <-]]. Qed.

Lemma example_st : st example_args example_manifest example_tree example_rest example_view example_world.
Proof. exists example_files. split; [apply example_holds|apply example_shows]. Qed.

(** ** Later, in [linked]: the environment file is replaced *)

Definition staged_env : path := Eval vm_compute in
  (config_staging_paths ["etc"; "env"] example_id "env").1.

Definition late_manifest : manifest := example_manifest {{ m_phase := Linked;
  desired_env := Some (mkDesired a64 384 (str staged_env) 1 15); observed_env := [Some b64; Some a64] }}.

Definition late_files : fs :=
  let dir i := Dir (Ident 1 i) 1000 493 in
  let reg i m c := Reg (Ident 1 i) 1000 m c in
  let version := "1.0.0" +:+ String (chr 10) "" in
  let at_root p := "srv" :: p in
  list_to_map
    [([], dir 1); (["srv"], dir 2); (at_root ["releases"], dir 3);
     (at_root ["releases"; "1.0.0-old"], dir 4); (at_root ["releases"; "1.0.0-old"; "VERSION"], reg 5 420 version);
     (at_root ["releases"; "1.0.0"], dir 6); (at_root ["releases"; "1.0.0"; "VERSION"], reg 7 420 version);
     (at_root ["current"], Lnk "/srv/releases/1.0.0"); (at_root ["previous"], Lnk "/srv/releases/1.0.0-old");
     (["etc"], dir 8); (["etc"; "env"], reg 15 384 "TOKEN=next");
     (["etc"; "unit"], reg 10 420 "[Service]");
     (at_root [".activation-transaction"], Dir (Ident 1 11) 1000 448);
     (at_root [".activation-transaction"; "manifest.json"], reg 12 384 (canonical late_manifest));
     (at_root [".activation-transaction"; "env.backup"], reg 13 384 "TOKEN=old");
     (at_root [".activation-transaction"; "service.backup"], reg 14 384 "[Service]")]%Z.

Definition late_world : world := World late_files 100 0 [].
Definition late_tree (r : release) (q : path) : option node := late_files !! (absolute (target r) ++ q)%list.
Definition late_rest (q : path) : option node := late_files !! q.

Definition late_view : view := λ p,
  match late_files !! p with
  | None => Nothing
  | Some (Lnk raw) => Link raw
  | Some (Reg _ _ mode c) => Conf (Some (mode, c))
  | Some _ => if bool_decide (p = ["srv"; "releases"; "1.0.0"]) then Release (candidate_release late_manifest)
              else match old_release late_manifest with Some r => Release r | None => Nothing end
  end.

Lemma late_good : forallb (λ kv, good_entry late_files kv.1 kv.2) (map_to_list late_files) = true.
Proof. vm_compute. reflexivity. Qed.

Lemma late_journal : journal ["srv"] late_files late_manifest.
Proof.
  split.
  - done.
  - eexists _, _. split; vm_compute; reflexivity.
  - eexists _, _. split; vm_compute; reflexivity.
  - eexists. vm_compute. reflexivity.
  - plain.
  - vm_compute. done.
  - split; vm_compute; done.
  - repeat constructor.
Qed.

(** The places are those of [example_manifest]. *)
Lemma late_layout : layout example_args late_manifest.
Proof. destruct example_layout. split; done. Qed.

Lemma late_seen : original_seen late_manifest.
Proof. split; [left|left|by intros ? ? [= _ <-]]. Qed.

Definition late_items : list (path * item) := Eval vm_compute in map (λ p, (p, late_view p)) example_places.

Lemma late_items_eq : map (λ p, (p, late_view p)) example_places = late_items.
Proof. vm_compute. reflexivity. Qed.

Lemma late_at : Forall (λ kv, item_at late_tree late_files kv.1 kv.2) late_items.
Proof.
  unfold late_items.
  repeat (apply Forall_cons; split; cbn [fst snd]); [..|by apply Forall_nil];
    first [apply release_item; [exact (λ _, eq_refl)|by vm_compute|by vm_compute]
      |apply config_item; by vm_compute|by vm_compute].
Qed.

Lemma late_shows : shows example_args late_manifest late_tree late_rest late_files late_view.
Proof.
  split.
  - apply late_journal.
  - apply checked_rooted, late_good.
  - intros p Hp.
    exact (all_one (λ p, dir_at late_files (parent p)) (places example_args late_manifest)
      ltac:(vm_compute; done) p Hp).
  - change (places example_args late_manifest) with (places example_args example_manifest).
    rewrite example_places_eq. intros p Hp. pose proof late_at as H. rewrite <-late_items_eq in H.
    rewrite Forall_forall in H. apply (H (p, late_view p)). apply list_elem_of_fmap. by exists p.
  - done.
Qed.

Lemma late_underway : underway example_args (roll late_manifest) late_view.
Proof.
  split.
  - intros r [= <-]. vm_compute. right. split; [reflexivity|discriminate].
  - right. left. split_and!; vm_compute; reflexivity.
  - vm_compute. reflexivity.
  - intros p Hp. apply (all_one (λ p, bool_decide (late_view p = Nothing)) (staging example_manifest)
      ltac:(vm_compute; done) p) in Hp. by apply bool_decide_eq_true in Hp.
  - right. left. vm_compute. reflexivity.
  - right. left. eexists. split; [reflexivity|vm_compute; reflexivity].
  - done.
  - eexists _, _. split_and!; [vm_compute; reflexivity..|]. split; vm_compute; reflexivity.
Qed.

(** The check of the journal accepts the files, temporary ones apart. *)
Lemma late_accepted w : holds (staged ["srv"]) late_files w →
  validate_invocation (files w) example_args late_manifest true (transaction_directory ["srv"]) = Ok tt.
Proof.
  intros Hw. assert (st example_args late_manifest late_tree late_rest late_view w) as Hst
    by (exists late_files; split; [done|apply late_shows]).
  assert (∀ p, bool_decide (p ∈ example_places) = true → looks (files w) p (late_view p)) as L.
  { intros p Hp%bool_decide_eq_true. apply (st_looks example_args late_manifest late_tree late_rest late_layout); [done|].
    change (places example_args late_manifest) with (places example_args example_manifest).
    by rewrite example_places_eq. }
  set (cand := candidate_release late_manifest).
  set (old := mkRelease "/srv/releases/1.0.0" "/srv/releases/1.0.0-old" 1 4 a64).
  set (f := files w) in *. clearbody f.
  pose proof (L ["srv"; "releases"; "1.0.0"] eq_refl : release_at f _ cand) as A1.
  pose proof (L ["srv"; "releases"; "1.0.0-old"] eq_refl : release_at f _ old) as A2.
  pose proof (L ["srv"; "releases"; ".new"] eq_refl : f !! _ = None) as A3.
  pose proof (L ["srv"; "current"] eq_refl : f !! _ = Some (Lnk "/srv/releases/1.0.0")) as A4.
  pose proof (L ["srv"; "previous"] eq_refl : f !! _ = Some (Lnk "/srv/releases/1.0.0-old")) as A5.
  pose proof (config_metadata_at f _ _ (L ["etc"; "env"] eq_refl : config_at f _ (Some (384%Z, "TOKEN=next")))) as A6.
  pose proof (config_metadata_at f _ _ (L ["etc"; "unit"] eq_refl : config_at f _ (Some (420%Z, "[Service]")))) as A7.
  assert (release_matches f ["srv"; "releases"; "1.0.0"] old = Ok false) as B1.
  { apply not_at_matches. eapply not_at_other; [exact A1|]. right. discriminate. }
  pose proof (release_at_matches f _ _ A1) as B2. pose proof (release_at_matches f _ _ A2) as B3.
  pose proof (not_at_matches f _ cand (not_at_none f _ cand A3)) as B4.
  clear L A1 A2 A3 Hst Hw.
  eapply bind_ok; [reflexivity|]. eapply (bind_ok _ true).
  { change (old_release late_manifest) with (Some old). unfold locate_release. cbn [first_match].
    change (absolute (source old)) with ["srv"; "releases"; "1.0.0"].
    change (absolute (target old)) with ["srv"; "releases"; "1.0.0-old"].
    rewrite bool_decide_false by (by intros ?%elem_of_nil). rewrite B1. cbn [mbind res_bind].
    rewrite bool_decide_false by (by intros ?%list_elem_of_singleton). rewrite B3. reflexivity. }
  eapply bind_ok; [reflexivity|].
  eapply (bind_ok _ (Some ["srv"; "releases"; "1.0.0"])).
  { unfold locate_release. cbn [first_match].
    change (absolute (source (candidate_release late_manifest))) with ["srv"; "releases"; ".new"].
    change (absolute (target (candidate_release late_manifest))) with ["srv"; "releases"; "1.0.0"].
    change (candidate_release late_manifest) with cand.
    rewrite bool_decide_false by (by intros ?%elem_of_nil). rewrite B4. cbn [mbind res_bind].
    rewrite bool_decide_false by (by intros ?%list_elem_of_singleton). rewrite B2. reflexivity. }
  eapply bind_ok; [reflexivity|].
  assert (∀ b, link_state_of f ["srv"; "current"] b = Ok (mkLink Symlink "/srv/releases/1.0.0")) as C1
    by (intros b; unfold link_state_of; by rewrite A4).
  assert (∀ b, link_state_of f ["srv"; "previous"] b = Ok (mkLink Symlink "/srv/releases/1.0.0-old")) as C2
    by (intros b; unfold link_state_of; by rewrite A5).
  assert (link_points_to f ["srv"; "current"] cand = Ok true) as D1 by (unfold link_points_to; by rewrite A4).
  assert (link_points_to f ["srv"; "current"] old = Ok false) as D2 by (unfold link_points_to; by rewrite A4).
  assert (link_points_to f ["srv"; "previous"] old = Ok true) as D3 by (unfold link_points_to; by rewrite A5).
  eapply bind_ok.
  { unfold view_current. change (a_current example_args) with ["srv"; "current"]. rewrite C1. cbn [mbind res_bind].
    change (old_release late_manifest) with (Some old). fold cand.
    rewrite D1. change (kind (current late_manifest)) with Symlink. cbn iota. rewrite D2. reflexivity. }
  eapply bind_ok; [reflexivity|]. eapply bind_ok.
  { eapply view_previous_asks; [apply C2|reflexivity| |reflexivity].
    unfold ask_candidate. change (old_release late_manifest) with (Some old).
    change (a_previous example_args) with ["srv"; "previous"].
    change (candidate_previous late_manifest) with (Some (mkLink Symlink "/srv/releases/1.0.0-old")).
    cbv beta iota. rewrite D3. reflexivity. }
  eapply bind_ok; [reflexivity|].
  unfold check_configs. change (a_env example_args) with ["etc"; "env"]. change (a_service example_args) with ["etc"; "unit"].
  rewrite A6, A7. vm_compute. reflexivity.
Qed.

Lemma late_interrupted : interrupted example_args late_manifest late_tree late_rest late_view late_world.
Proof.
  exists late_files. split_and!; [apply checked_holds, late_good|apply late_shows|apply late_underway|apply late_accepted].
Qed.
