(* ===== verification/ActivationPhases.v ===== *)
(** * The journal of a release activation: phases

    What [record] can do to the manifest, once and over a whole transaction. *)
From S2P Require Import Prelude.
From S2P Require Import PyValues.
From S2P Require Import Json.
From S2P Require Import FileSystem.
From S2P Require Import FileLogic.
From S2P Require Import Activation.
From S2P Require Import ActivationJson.
From S2P Require Import ActivationOps.
From S2P Require Import ActivationRecord.
From S2P Require Import ActivationExample.
Open Scope string_scope.

(** The order in which the phases come. *)
Definition rank (p : phase) : nat :=
  match p with
  | Prepared => 0 | Guarded => 1 | Linking => 2 | Linked => 3 | Stopping => 4 | Stopped => 5
  | Fencing => 6 | Fenced => 7 | Authorizing => 8 | Authority => 9 | CandidateStarting => 10
  | CandidateHealthy => 11 | Committing => 12 | Committed => 13 | RollingBack => 14
  | RolledBack => 15 | RollbackHealthy => 16
  end.

Lemma transition_rank p q : in_phases q (TRANSITIONS p) = true → (rank p < rank q)%nat.
Proof. intros H%bool_decide_eq_true. destruct p; cbn in H; set_solver by (cbn; lia). Qed.

(** What a transaction never changes: all but the phase, the origin of a
    rollback, the hub, the guard, the pending authority and the configuration
    to be written. *)
Definition fixed_part (m : manifest) : manifest :=
  m {{ m_phase := Prepared; rollback_from := None; m_hub := None; m_guard := None;
       authority_pending := false;
       desired_env := None; desired_service := None; observed_env := []; observed_service := [] }}.

(** The configuration to be written, and every digest it ever had. *)
Definition config_state (m : manifest) :=
  (desired_env m, desired_service m, observed_env m, observed_service m).

Definition going_back (m : manifest) : Prop := m_phase m ∈ rolling.
Definition going_on (m : manifest) : Prop := m_phase m ∈ [Committing; Committed].

(** [m'] can come later than [m] in one transaction. *)
Record later (m m' : manifest) : Prop := {
  lt_fixed : fixed_part m' = fixed_part m;
  lt_rank : m_phase m' = m_phase m ∨ (rank (m_phase m) < rank (m_phase m'))%nat;
  lt_commit : going_on m → going_on m';
  lt_rollback : going_back m → going_back m' ∧ rollback_from m' = rollback_from m;
  lt_origin : going_back m' → ¬ going_back m →
    ∃ p, rollback_from m' = Some p ∧ (rank (m_phase m) ≤ rank p)%nat;
  lt_hub : ∀ h, m_hub m = Some h → ∃ h', m_hub m' = Some h' ∧ without_fence h' = without_fence h;
  lt_fence : (rank Fencing < rank (m_phase m))%nat → ∀ h, m_hub m = Some h → m_hub m' = Some h;
  lt_guard : ∀ g, m_guard m = Some g → m_guard m' = Some g;
  lt_env : observed_env m ⊆ observed_env m';
  lt_service : observed_service m ⊆ observed_service m';
  lt_frozen : m_phase m ∈ config_frozen → m_phase m' ∈ config_frozen ∧ config_state m' = config_state m;
}.

Section phases.
Context {host : Host}.

Lemma advance_ok m next m' : advance m next = Ok m' →
  (next = m_phase m ∧ m' = m) ∨
  in_phases next (TRANSITIONS (m_phase m)) = true ∧
  m' = (if bool_decide (next = RollingBack)
        then m {{ m_phase := next; rollback_from := Some (m_phase m) }}
        else m {{ m_phase := next }}).
Proof.
  unfold advance. case_bool_decide as E; [intros [= <-]; by left|]. intros H. inv_res.
  match goal with H : negb _ = false |- _ => apply negb_false_iff in H end.
  right. split; [done|]. by case_bool_decide.
Qed.

Lemma record_hub_ok f r from next m m' : record_hub f r from next m = Ok m' →
  ∃ h', m' = m {{ m_hub := h' }} ∧
    ∀ h, m_hub m = Some h → h' = Some h ∨
      from = Fencing ∧ ∃ k, h' = Some k ∧ without_fence k = without_fence h.
Proof.
  unfold record_hub. destruct (negb _); intros H; inv_res.
  - exists (Some x). split; [done|]. intros h Hh.
    match goal with H : _ = false |- _ => rewrite Hh in H; rename H into Hf end.
    apply andb_false_iff in Hf as [Hf|Hf].
    + left. apply negb_false_iff, bool_decide_eq_true in Hf. by subst.
    + right. apply negb_false_iff in Hf. bools. split; [done|]. exists x. split; [done|]. congruence.
  - exists (m_hub m'). split; [by destruct m'|]. intros h Hh. by left.
Qed.

Lemma record_guard_ok r m m' : record_guard r m = Ok m' →
  ∃ g', m' = m {{ m_guard := g' }} ∧ ∀ g, m_guard m = Some g → g' = Some g.
Proof.
  unfold record_guard. destruct (negb _); intros H; inv_res.
  - eexists. split; [done|]. intros g Hg.
    match goal with H : context [m_guard m] |- _ =>
      rewrite Hg in H; apply negb_false_iff, bool_decide_eq_true in H end. by subst.
  - exists (m_guard m'). split; [by destruct m'|done].
Qed.

#[global] Instance later_preorder : PreOrder later.
Proof.
  split.
  - intros m. split; try done; eauto.
  - intros a b c [F1 R1 C1 B1 O1 H1 N1 G1 E1 S1 Z1] [F2 R2 C2 B2 O2 H2 N2 G2 E2 S2 Z2].
    assert (rank (m_phase a) ≤ rank (m_phase b))%nat as Hab by (destruct R1 as [->|]; lia).
    split.
    + congruence.
    + destruct R1 as [E|R1], R2 as [E'|R2].
      * left. congruence.
      * right. by rewrite <-E.
      * right. by rewrite E'.
      * right. lia.
    + auto.
    + intros Ha. destruct (B1 Ha) as [Hb E]. destruct (B2 Hb) as [Hc E']. split; [done|congruence].
    + intros Hc Ha. destruct (decide (m_phase b ∈ rolling)) as [Hb|Hb].
      * destruct (O1 Hb Ha) as (p & Hp & Hr). destruct (B2 Hb) as [_ E]. exists p. split; [congruence|done].
      * destruct (O2 Hc Hb) as (p & Hp & Hr). exists p. split; [done|lia].
    + intros h Hh. destruct (H1 h Hh) as (h1 & Hh1 & E). destruct (H2 h1 Hh1) as (h2 & Hh2 & E').
      exists h2. split; [done|congruence].
    + intros Hr h Hh. apply N2; [lia|]. by apply N1.
    + auto.
    + by etrans.
    + by etrans.
    + intros Ha. destruct (Z1 Ha) as [Hb E]. destruct (Z2 Hb) as [Hc E']. split; [done|congruence].
Qed.

Lemma advance_later m next m' : advance m next = Ok m' → later m m'.
Proof.
  intros [[-> ->]|[Ht ->]]%advance_ok; [done|]. pose proof (transition_rank _ _ Ht) as Hr.
  assert (m_phase (if bool_decide (next = RollingBack)
        then m {{ m_phase := next; rollback_from := Some (m_phase m) }}
        else m {{ m_phase := next }}) = next) as Hph by by case_bool_decide.
  split.
  - by case_bool_decide.
  - right. by rewrite Hph.
  - unfold going_on. rewrite Hph. apply bool_decide_eq_true in Ht.
    destruct (m_phase m); cbn in Ht; set_solver.
  - unfold going_back. rewrite Hph. apply bool_decide_eq_true in Ht. intros Hm.
    assert (next ∈ [RolledBack; RollbackHealthy]) as Hn.
    { destruct (m_phase m); cbn in Ht; set_solver. }
    split; [set_solver|]. rewrite bool_decide_eq_false_2; [done|set_solver].
  - unfold going_back. rewrite Hph. intros Hn Hm. exists (m_phase m). split; [|done].
    case_bool_decide as E; [done|]. exfalso. apply bool_decide_eq_true in Ht.
    destruct (m_phase m); cbn in Ht; set_solver.
  - intros h Hh. exists h. split; [|done]. by case_bool_decide.
  - intros _ h Hh. by case_bool_decide.
  - intros g Hg. by case_bool_decide.
  - by case_bool_decide.
  - by case_bool_decide.
  - rewrite Hph. apply bool_decide_eq_true in Ht. intros Hm. split; [|by case_bool_decide].
    destruct (m_phase m); cbn in Ht; set_solver.
Qed.

(** Hub, guard and pending authority do not count for the phase. *)
Lemma details_later m m1 h g b :
  later m m1 →
  (∀ x, m_hub m = Some x → h = Some x ∨
     m_phase m = Fencing ∧ ∃ y, h = Some y ∧ without_fence y = without_fence x) →
  (∀ x, m_guard m = Some x → g = Some x) →
  later m (m1 {{ m_hub := h; m_guard := g; authority_pending := b }}).
Proof.
  intros [] Hh Hg. split; try done; cbn.
  - intros x Hx. destruct (Hh x Hx) as [->|(_ & y & -> & Hy)]; eauto.
  - intros Hr x Hx. destruct (Hh x Hx) as [->|(E & _)]; [done|]. rewrite E in Hr. by apply Nat.lt_irrefl in Hr.
Qed.

Lemma advance_details m next m' : advance m next = Ok m' → m_hub m' = m_hub m ∧ m_guard m' = m_guard m.
Proof. intros [[-> ->]|[_ ->]]%advance_ok; [done|]. by case_bool_decide. Qed.

Lemma record_authority_ok r m : ∃ b, record_authority r m = m {{ authority_pending := b }}.
Proof.
  unfold record_authority. destruct (String.eqb _ _); [|by eexists].
  exists (authority_pending m). by destruct m.
Qed.

Lemma recorded_ok f r m m' : recorded f r m = Ok m' →
  later m m' ∧ (m_phase m ∈ [Committed; RollbackHealthy] → m' = m)
  ∧ phase_of (ra_phase r) = Some (m_phase m').
Proof.
  unfold recorded. intros H. inv_res.
  match goal with H : advance m ?n = Ok ?x |- _ =>
    rename H into Ha; pose proof (advance_details _ _ _ Ha) as [Eh Eg]; rename n into next, x into m1 end.
  match goal with H : record_hub _ _ _ _ _ = _ |- _ => apply record_hub_ok in H as (h & -> & Hh) end.
  match goal with H : record_guard _ _ = _ |- _ => apply record_guard_ok in H as (g & -> & Hg) end.
  destruct (record_authority_ok r (m1 {{ m_hub := h }} {{ m_guard := g }})) as [b Hb]. rewrite Hb in *.
  rewrite Eh in Hh. change (m_guard (m1 {{ m_hub := h }})) with (m_guard m1) in Hg. rewrite Eg in Hg. split_and!.
  - eapply details_later; [by eapply advance_later|done..].
  - intros Ht. match goal with H : _ && _ = false |- _ => apply andb_false_iff in H as [Hx|Hx] end.
    + by apply bool_decide_eq_false in Hx.
    + by apply negb_false_iff, bool_decide_eq_true in Hx.
  - assert (m_phase m1 = next) as E.
    { apply advance_ok in Ha as [[E1 E2]|[_ E1]]; [congruence|]. rewrite E1. by destruct (bool_decide _). }
    transitivity (Some next); [|by rewrite <-E].
    match goal with H : or_raise _ _ = Ok _ |- _ => rename H into Hp end.
    by destruct (phase_of _); cbn in Hp; simplify_eq.
Qed.

(** Every write of the manifest after [begin]. *)
Inductive manifest_step (m : manifest) : manifest → Prop :=
| step_recorded f r m' : recorded f r m = Ok m' → manifest_step m m'
| step_config k d : in_phases (m_phase m) config_frozen = false →
    desired_ok (config_path m k) (transaction_id m) (config_name k) (Some d) →
    manifest_step m (journaled m k d).

Lemma journaled_later m k d : in_phases (m_phase m) config_frozen = false → later m (journaled m k d).
Proof.
  intros Hp%bool_decide_eq_false. unfold journaled, config_history.
  destruct k; split; cbn; try done; try (by left); try (by eauto);
    repeat case_bool_decide; set_solver.
Qed.

Lemma manifest_step_later m m' : manifest_step m m' → later m m'.
Proof. intros [f r m'' H|k d H _]; [by apply recorded_ok in H as [H _]|by apply journaled_later]. Qed.

Lemma manifest_step_last m m' :
  manifest_step m m' → m_phase m ∈ [Committed; RollbackHealthy] → m' = m.
Proof.
  intros [f r m'' H|k d H _] Ht; [by apply recorded_ok in H as (_ & H & _); apply H|].
  apply bool_decide_eq_false in H. unfold config_frozen in H. set_solver.
Qed.

(** The manifests of a transaction, one after the other. *)
Fixpoint history (m : manifest) (l : list manifest) : Prop :=
  match l with [] => True | m' :: l => manifest_step m m' ∧ history m' l end.
Fixpoint phase_changes (m : manifest) (l : list manifest) : nat :=
  match l with
  | [] => 0
  | m' :: l => (if decide (m_phase m' = m_phase m) then 0 else 1) + phase_changes m' l
  end.

(** The origin of a rollback stays right. *)
Lemma advance_rollback m next m' : advance m next = Ok m' →
  rollback_ok (m_phase m) (rollback_from m) → rollback_ok (m_phase m') (rollback_from m').
Proof.
  intros [[-> ->]|[Ht ->]]%advance_ok; [done|].
  unfold in_phases in Ht. apply bool_decide_eq_true in Ht.
  case_bool_decide as E.
  - subst. intros _. split; [|done]. apply bool_decide_eq_false. destruct (m_phase m); cbn in Ht |- *; set_solver.
  - change (rollback_ok (m_phase m) (rollback_from m) → rollback_ok next (rollback_from m)).
    unfold rollback_ok, in_phases. destruct (rollback_from m) as [p|].
    + intros [Hp Hm]. split; [done|]. apply bool_decide_eq_true in Hm. apply bool_decide_eq_true.
      destruct (m_phase m); cbn in Ht; set_solver.
    + intros Hm. apply bool_decide_eq_false in Hm. apply bool_decide_eq_false.
      destruct (m_phase m); cbn in Ht; set_solver.
Qed.

Lemma recorded_typed f r m m' g root releases dir : recorded f r m = Ok m' →
  manifest_ok g root releases dir m → manifest_ok g root releases dir m'.
Proof.
  intros H Hm. unfold recorded in H. inv_res.
  repeat match goal with x : () |- _ => destruct x end.
  match goal with H : advance m ?n = Ok ?x |- _ => rename H into Ha; rename x into m1 end.
  match goal with H : record_hub _ _ _ _ _ = _ |- _ => apply record_hub_ok in H as (h & -> & _) end.
  match goal with H : record_guard _ _ = _ |- _ => apply record_guard_ok in H as (k & -> & _) end.
  destruct (record_authority_ok r (m1 {{ m_hub := h }} {{ m_guard := k }})) as [b Hb]. rewrite Hb in *.
  pose proof (advance_rollback _ _ _ Ha (ok_rollback _ _ _ _ _ Hm)) as Hr.
  apply advance_ok in Ha as [[_ ->]|[_ E]]; [|destruct (bool_decide (_ = RollingBack)); subst m1]; destruct Hm; by split.
Qed.

Lemma journaled_typed m k d g root releases dir :
  desired_ok (config_path m k) (transaction_id m) (config_name k) (Some d) →
  manifest_ok g root releases dir m → manifest_ok g root releases dir (journaled m k d).
Proof.
  intros Hd Hm.
  assert (∀ l, history_ok l = true → history_ok (if bool_decide (Some (d_sha256 d) ∈ l) then l
      else (l ++ [Some (d_sha256 d)])%list) = true) as Hl.
  { intros l H. case_bool_decide; [done|]. unfold history_ok. rewrite List.forallb_app.
    apply andb_true_iff. split; [done|]. cbn. destruct Hd as [-> _]. done. }
  destruct Hm, k; split; try done; cbn; naive_solver.
Qed.

Lemma manifest_step_typed m m' g root releases dir : manifest_step m m' →
  manifest_ok g root releases dir m → manifest_ok g root releases dir m'.
Proof. intros [f r m'' H|k d _ H]; [by eapply recorded_typed|by apply journaled_typed]. Qed.

Lemma rank_bound p : (rank p ≤ 16)%nat.
Proof. destruct p; cbn; lia. Qed.
End phases.

(** In one transaction, whatever is recorded and whatever configuration is
    journaled, the manifest only advances: releases, links, backups and the
    rest of what was found stay; a commit is never undone and a rollback never
    turns back, nor forgets where it began; hub and guard stay who they are,
    the fence of the hub may be replaced only until it is known to hold; the
    digests a configuration has had are never forgotten, and none is added
    once the transaction commits or rolls back; a transaction that is over
    stays as it is. *)
Theorem transaction_advances {host : Host} m m' :
  rtc manifest_step m m' → later m m' ∧ (m_phase m ∈ [Committed; RollbackHealthy] → m' = m).
Proof.
  induction 1 as [m|m m1 m' H _ [IH Hl]]; [done|]. split.
  - etrans; [by apply manifest_step_later|done].
  - intros Ht. assert (m1 = m) as -> by by apply manifest_step_last. auto.
Qed.

(** A configuration is journaled, then the activation is given up. *)
Definition example_journaled : manifest :=
  journaled example_manifest Env (mkDesired (sha256 "x") 384
    (str (config_staging_paths (config_path example_manifest Env) (transaction_id example_manifest) "env").1) 5 6).

Lemma example_steps : manifest_step example_manifest example_journaled
  ∧ manifest_step example_journaled (roll example_journaled).
Proof.
  split; [apply step_config; by vm_compute|]. apply (step_recorded _ ∅ rolling_args). reflexivity.
Qed.

Lemma transaction_advances_witness :
  later example_manifest (roll example_journaled) ∧
  (m_phase example_manifest ∈ [Committed; RollbackHealthy] → roll example_journaled = example_manifest).
Proof.
  apply transaction_advances. destruct example_steps as [H1 H2].
  eapply rtc_l; [exact H1|]. by apply rtc_once.
Defined.

(** A transaction changes its phase a bounded number of times, at most as
    often as there are phases after the one it is in. *)
Theorem transaction_ends {host : Host} m l :
  history m l → (rank (m_phase m) + phase_changes m l ≤ 16)%nat.
Proof.
  revert m. induction l as [|m' l IH]; intros m.
  - intros _. cbn. pose proof (rank_bound (m_phase m)). lia.
  - intros [H Hl]. specialize (IH m' Hl). cbn [phase_changes].
    destruct (lt_rank _ _ (manifest_step_later _ _ H)) as [E|E].
    + rewrite decide_True by done. rewrite E in IH. lia.
    + case_decide; lia.
Qed.

Lemma transaction_ends_witness :
  (rank (m_phase example_manifest)
    + phase_changes example_manifest [example_journaled; roll example_journaled] ≤ 16)%nat.
Proof. apply transaction_ends. destruct example_steps as [H1 H2]. by split_and!. Defined.

(** C22: A manifest that is accepted is well formed: every field has its type
    and its range, the releases are where the installer puts them, each backup
    has the digest it had, a rollback knows the phase it began in, and hub,
    guard and staged configuration fit the rest. *)
Theorem read_manifest_typed {host : Host} root dir w w' m :
  read_manifest root dir w = (w', Ok m) → manifest_ok (files w') root (root // "releases") dir m.
Proof.
  unfold read_manifest. intros H.
  repeat match goal with
  | H : (_ ≫= _) _ = (_, Ok _) |- _ => apply M_bind_Ok in H as (? & ? & ? & H)
  end.
  repeat match goal with H : reading _ _ = _ |- _ => apply reading_Ok in H as [-> H] end.
  match goal with H : _ ≫= _ = Ok ?x |- _ => assert (x = root // "releases") as ->
    by (unfold validate_releases_root in H; inv_res; done) end.
  by eapply parse_manifest_ok.
Qed.

Lemma read_manifest_typed_witness :
  let d := transaction_directory (a_root example_args) in
  manifest_ok (files (read_manifest (a_root example_args) d example_world).1)
    (a_root example_args) (a_root example_args // "releases") d example_manifest.
Proof.
  apply (read_manifest_typed _ _ example_world). vm_compute. reflexivity.
Defined.

(** C18: What is recorded can be read back: from a well-formed manifest a
    transaction only gets to well-formed ones, and the text that is written
    for each parses to that manifest. *)
Theorem transaction_reads_back {host : Host} f root releases dir m m' :
  manifest_ok f root releases dir m → rtc manifest_step m m' → fits m' →
  (v ← json_loads (canonical m'); parse_manifest f root releases dir v) = Ok m'.
Proof.
  intros Hm Hs Hf. rewrite json_loads_canonical by done. apply read_manifest_json.
  induction Hs as [|m m1 m' H _ IH]; [done|]. apply IH; [|done]. by eapply manifest_step_typed.
Qed.

Lemma transaction_reads_back_witness :
  let d := transaction_directory (a_root example_args) in
  let n := roll example_journaled in
  (v ← json_loads (canonical n);
   parse_manifest example_files (a_root example_args) (a_root example_args // "releases") d v) = Ok n.
Proof.
  apply (transaction_reads_back _ _ _ _ example_manifest).
  - exact example_ok.
  - destruct example_steps as [H1 H2]. eapply rtc_l; [exact H1|]. by apply rtc_once.
  - repeat constructor.
Defined.

(** * The journal of a release activation: a run that gets stuck

    The link [current] may be relative; here is what an interruption does to a
    reinstallation of the same version then. *)
(** The example, with [raw] in [current]. *)
Definition linked_manifest (raw : string) : manifest :=
  example_manifest {{ current := mkLink Symlink raw }}.

Definition linked_files (raw : string) : fs :=
  <[["srv"; ".activation-transaction"; "manifest.json"] :=
      Reg (Ident 1 12) 1000 384 (canonical (linked_manifest raw))]>
    (<[["srv"; "current"] := Lnk raw]> example_files).

(** [activate_files], killed before its [n]-th call, if at all. *)
Definition run_activation (raw : string) (n : option nat) : world * option exn :=
  let s := match n with Some n => (replicate n None ++ [Some Kill])%list | None => [] end in
  let '(w, r) := activate_files example_args (World (linked_files raw) 100 0 s) in
  (set_script [] w, match r with Ok _ => None | Err e => Some e end).

Definition said {A} (m : M A) (w : world) : option exn :=
  match (m w).2 with Ok _ => None | Err e => Some e end.

(** What the next commands say. *)
Definition then_said (raw : string) (n : nat) : option exn * option exn :=
  let '(w, _) := run_activation raw (Some n) in
  (said (activate_files example_args) w, said (record example_args rolling_args) w).

(** What [begin] writes of the link. *)
Definition begin_manifest (raw : string) : res link_state :=
  m ← new_manifest (linked_files raw) example_args
        (mkBeginArgs ["srv"; "releases"; "1.0.0"] "1.0.0" (Some ["srv"; "releases"; "1.0.0-old"])
          (Some ["srv"; "releases"; "1.0.0"]) ["srv"; "releases"; ".new"]
          "running" true "absent" false 7850 "localhost" "ordinary" "")
        example_id (env example_manifest) (service example_manifest);
  Ok (current m).

(** A link [current] may be relative: [begin] takes it, and an activation
    that is not interrupted replaces it.  But a reinstallation of the same
    version that is killed after its first move can neither be completed nor be
    rolled back: [activate_files] and [record --phase rolling-back] refuse the
    link, which dangles and does not read like the one to come.  With the
    absolute link both go on. *)
Theorem relative_link_gets_stuck :
  let e := Some (RuntimeError "current release target changed during activation") in
  begin_manifest "releases/1.0.0" = Ok (mkLink Symlink "releases/1.0.0")
  ∧ (run_activation "releases/1.0.0" None).2 = None
  ∧ then_said "releases/1.0.0" 1 = (e, e)
  ∧ then_said "/srv/releases/1.0.0" 1 = (None, None).
Proof. vm_compute. done. Qed.
