(* ===== verification/ActivationSafe.v ===== *)
(** * The journal of a release activation: what survives interruptions

    Any number of runs of [activate_files], [record] and [restore_files], each
    killed or failing anywhere, then one that is not: the activation is
    complete, or it is undone completely. *)
From S2P Require Import Prelude PyValues Json FileSystem FileLogic Activation.
From S2P Require Import ActivationJson ActivationOps ActivationReplace ActivationState ActivationViews.
From S2P Require Import ActivationJournal ActivationPlaces ActivationSteps ActivationRules ActivationMoves ActivationActivate ActivationRestore ActivationRecord ActivationExample.

Open Scope string_scope.

Section safe.
Context {host : Host} {laws : HostLaws host} (a : args) (m : manifest).
Context (tree : release → path → option node) (rest : path → option node).

Lemma st_script n v w s : st a n tree rest v w → st a n tree rest v (set_script s w).
Proof. intros (F & Hw & HS). exists F. split; [by apply holds_script|done]. Qed.

(** A world in which the activation is under way, each release in one of its
    places and each link old, new or missing. *)
Definition activating (w : world) : Prop := ∃ v, st a m tree rest v w ∧ linking a m v.
(** The same of a rollback. *)
Definition rolling_back (n : manifest) (w : world) : Prop := ∃ v, st a n tree rest v w ∧ underway a n v.

(** The release, with every file of it, is at [p]. *)
Definition whole (w : world) (p : path) (r : release) : Prop :=
  release_at (files w) p r ∧ ∀ q, temp q = false → files w !! (p ++ q)%list = tree r q.

(** Nothing else is changed: no path that leads to none of the places. *)
Definition untouched (w : world) : Prop :=
  ∀ q, temp q = false → q ≠ transaction_directory (a_root a) // "manifest.json" →
    (∀ p, p ∈ places a m → under p q = None) → files w !! q = rest q.

(** The candidate is in its place and [current] leads to it; [previous] leads
    to the old release, which is complete. *)
Definition is_activated (w : world) : Prop :=
  whole w (candidate_target m) (candidate_release m) ∧
  files w !! a_current a = Some (Lnk (release_dir m)) ∧
  (∀ r, old_release m = Some r →
    whole w (old_place r) r ∧ files w !! a_previous a = Some (Lnk (old_target m))) ∧
  untouched w.

(** The old release and both links are as they were, and the files have the
    modes and the digests they had; the candidate is not lost. *)
Definition is_restored (w : world) : Prop :=
  (∀ r, old_release m = Some r → whole w (old_source r) r) ∧
  looks (files w) (a_current a) (original_current m) ∧
  looks (files w) (a_previous a) (original_previous m) ∧
  (∃ e, config_at (files w) (a_env a) e ∧ config_meta e = saved (env m)) ∧
  (∃ s, config_at (files w) (a_service a) s ∧ config_meta s = saved (service m)) ∧
  (∃ p, p ∈ [candidate_source m; candidate_target m; parked_place a] ∧ whole w p (candidate_release m)) ∧
  untouched w.

Context (lay : layout a m).

Lemma st_whole n v w p r : places a n = places a m →
  st a n tree rest v w → p ∈ places a m → v p = Release r → whole w p r.
Proof.
  intros E (F & Hw & HS) Hp Hv. pose proof (lay_temp a m lay p Hp) as Ht.
  pose proof Hp as Hp'. rewrite <-E in Hp'.
  pose proof (sh_places _ _ _ _ _ _ HS p Hp') as H. rewrite Hv in H. destruct H as [Hr Hq]. split.
  - by eapply holds_release.
  - intros q Hq'. rewrite (holds_lookup _ _ _ _ Hw); [apply Hq|]. by rewrite temp_app, Ht.
Qed.

Lemma st_untouched n v w : places a n = places a m → st a n tree rest v w → untouched w.
Proof.
  intros E (F & Hw & HS) q Hq Hm Hp. rewrite (holds_lookup _ _ _ _ Hw Hq).
  apply (sh_rest _ _ _ _ _ _ HS); [done|]. by rewrite E.
Qed.

Lemma activated_world v w : st a m tree rest v w → activated_view a m v → is_activated w.
Proof.
  intros Hw [[[Ho Ht] Hp] Hc].
  assert (∀ p, p ∈ places a m → looks (files w) p (v p)) as L by (intros p; by apply (st_looks a m tree rest lay)).
  split_and!.
  - eapply st_whole; [done|exact Hw|apply target_in|done].
  - pose proof (L _ (current_in a m)) as H. by rewrite Hc in H.
  - intros r Hr. split; [eapply st_whole; [done|exact Hw|by apply old_place_in|by apply Ho]|].
    pose proof (L _ (previous_in a m)) as H. by rewrite (Hp r Hr) in H.
  - by eapply st_untouched.
Qed.

(** [n] is [m] in another phase. *)
Lemma restored_world n v w : n = m ∨ n = roll m → layout a n → st a n tree rest v w →
  underway a n v → restored a n v → is_restored w.
Proof.
  intros Hn lay' Hw U [[[[Hb Hc] Hp] He] Hs].
  assert (places a n = places a m) as E by (by destruct Hn as [-> | ->]).
  assert (∀ p, p ∈ places a m → looks (files w) p (v p)) as L
    by (intros p; rewrite <-E; by apply (st_looks a n tree rest lay')).
  split_and!.
  - intros r Hr. eapply st_whole; [done|exact Hw|by apply old_source_in|].
    apply Hb. by destruct Hn as [-> | ->].
  - pose proof (L _ (current_in a m)) as H. rewrite Hc in H. by destruct Hn as [-> | ->].
  - pose proof (L _ (previous_in a m)) as H. rewrite Hp in H. by destruct Hn as [-> | ->].
  - destruct (saved_meta _ _ He) as (e & Ee & Hm). exists e. pose proof (L _ (env_in a m)) as H.
    rewrite Ee in H. split; [done|]. by destruct Hn as [-> | ->].
  - destruct (saved_meta _ _ Hs) as (e & Ee & Hm). exists e. pose proof (L _ (service_in a m)) as H.
    rewrite Ee in H. split; [done|]. by destruct Hn as [-> | ->].
  - assert (∃ p, p ∈ [candidate_source m; candidate_target m; parked_place a] ∧
      p ∈ places a m ∧ v p = Release (candidate_release m)) as (p & Hp1 & Hp2 & Hp3).
    { pose proof (u_candidate _ _ _ U) as H.
      assert (candidate_release n = candidate_release m ∧ candidate_source n = candidate_source m ∧
        candidate_target n = candidate_target m) as (E1 & E2 & E3) by (by destruct Hn as [-> | ->]).
      rewrite E1, E2, E3 in H. destruct H as [(H & _)|[(_ & H & _)|(_ & _ & H)]].
      - eexists. split_and!; [left|apply source_in|done].
      - eexists. split_and!; [right; left|apply target_in|done].
      - eexists. split_and!; [right; right; left|apply parked_in|done]. }
    exists p. split; [done|]. by eapply st_whole.
  - by eapply st_untouched.
Qed.

Lemma activating_script w s : activating w → activating (set_script s w).
Proof. intros (v & Hw & HI). exists v. split; [by apply st_script|done]. Qed.
Lemma rolling_back_script n w s : rolling_back n w → rolling_back n (set_script s w).
Proof. intros (v & Hw & HI). exists v. split; [by apply st_script|done]. Qed.

(** ** Activation *)

Lemma activate_attempts l w : m_phase m = Linking → activating w →
  activating (attempts (activate_files a) l w) ∧
  ∃ x w', activate_files a (set_script [] (attempts (activate_files a) l w)) = (w', Ok x) ∧
    activating w' ∧ is_activated w'.
Proof.
  intros Hph Hw. apply (wp_attempts (activate_files a) activating (λ _ w', activating w' ∧ is_activated w'));
    [apply activating_script| |by intros ? ? []|done].
  clear w Hw. intros w (v & Hw & HI). eapply wp_mono; [by apply (wp_activate a m tree rest lay v w)|..].
  - intros [] w' (v' & Hw' & HI' & HA). split; [by exists v'|by eapply activated_world].
  - intros w' (v' & Hw' & HI'). by exists v'.
Qed.

(** ** Rollback *)

Lemma restore_attempts n l w : n = m ∨ n = roll m → m_phase n = RollingBack → original_seen n →
  rolling_back n w →
  rolling_back n (attempts (restore_files a) l w) ∧
  ∃ x w', restore_files a (set_script [] (attempts (restore_files a) l w)) = (w', Ok x) ∧
    rolling_back n w' ∧ is_restored w'.
Proof.
  intros Hn Hph Hseen Hw.
  assert (layout a n) as lay' by (destruct Hn as [-> | ->]; [done|by apply roll_layout]).
  apply (wp_attempts (restore_files a) (rolling_back n) (λ _ w', rolling_back n w' ∧ is_restored w'));
    [apply rolling_back_script| |by intros ? ? []|done].
  clear w Hw. intros w (v & Hw & HI).
  eapply wp_mono; [by apply (wp_restore a n tree rest lay' Hph Hseen v w)|..].
  - intros [] w' (v' & Hw' & HI' & HA). split; [by exists v'|by eapply restored_world].
  - intros w' (v' & Hw' & HI'). by exists v'.
Qed.

(** The places of an activation that was interrupted, in any phase. *)
Definition left_off (w : world) : Prop := ∃ v, interrupted a m tree rest v w.

Lemma activating_left_off w : m_phase m = Linking → original_seen m → activating w → left_off w.
Proof. intros Hph Hseen (v & Hw & HI). exists v. by apply linking_interrupted. Qed.

Lemma left_off_script w s : left_off w → left_off (set_script s w).
Proof. intros (v & F & Hw & HF). exists v, F. split; [by apply holds_script|done]. Qed.

Lemma left_off_rolling v w : interrupted a m tree rest v w → st a (roll m) tree rest v w → rolling_back (roll m) w.
Proof. intros (F & _ & _ & U & _) Hw. by exists v. Qed.

(** Recording the rollback, wherever the activation is. *)
Lemma rolling_attempts l w : in_phases RollingBack (TRANSITIONS (m_phase m)) = true →
  (len (canonical (roll m)) ≤ MAX_CONTROL_BYTES)%Z → left_off w →
  (left_off (attempts (record a rolling_args) l w) ∨ rolling_back (roll m) (attempts (record a rolling_args) l w)) ∧
  ∃ x w', record a rolling_args (set_script [] (attempts (record a rolling_args) l w)) = (w', Ok x) ∧
    rolling_back (roll m) w'.
Proof.
  intros Hph Hlen Hw.
  apply (wp_attempts (record a rolling_args) (λ w, left_off w ∨ rolling_back (roll m) w)
    (λ _ w', rolling_back (roll m) w')); [| |by right|by left].
  - intros w1 s [H|H]; [left; by apply left_off_script|right; by apply rolling_back_script].
  - clear w Hw. intros w [(v & Hv)|(v & Hw & HI)].
    + pose proof Hv as (F & _ & _ & U & _).
      eapply (wp_record_rolling a m tree rest lay v w); [done..| | |].
      * intros x w' Hw'. by exists v.
      * intros w' Hw'. left. by exists v.
      * intros w' Hw'. right. by exists v.
    + eapply (wp_record_again a (roll m) tree rest (roll_layout a m lay) v w); [done..| |].
      * intros x w' Hw'. by exists v.
      * intros w' Hw'. right. by exists v.
Qed.
End safe.

(** C1: A release activation that is interrupted any number of times, by a
    failing call or by the death of the process, leaves every time a state in
    which each release is complete at one of its places and the links are old,
    new or missing; one more run of [activate_files] completes it: the candidate
    is at its place with every file, [current] leads to it, [previous] to the
    old release, which is complete too, and nothing else has changed.  The places
    are as [layout] says: distinct, none inside another, and [current], if it is
    a link, resolves to the old release, by the absolute link if the candidate
    goes to the same place. *)
Theorem activation_survives {host : Host} {laws : HostLaws host} a m tree rest l w :
  layout a m → m_phase m = Linking → activating a m tree rest w →
  activating a m tree rest (attempts (activate_files a) l w) ∧
  ∃ x w', activate_files a (set_script [] (attempts (activate_files a) l w)) = (w', Ok x) ∧
    activating a m tree rest w' ∧ is_activated a m tree rest w'.
Proof. intros lay. by apply activate_attempts. Qed.

Lemma activation_survives_witness :
  activating example_args example_manifest example_tree example_rest
    (attempts (activate_files example_args) example_faults example_world) ∧
  ∃ x w', activate_files example_args
      (set_script [] (attempts (activate_files example_args) example_faults example_world)) = (w', Ok x) ∧
    activating example_args example_manifest example_tree example_rest w' ∧
    is_activated example_args example_manifest example_tree example_rest w'.
Proof.
  apply activation_survives; [exact example_layout|reflexivity|].
  exists example_view. split; [exact example_st|exact example_linking].
Defined.

(** C2: From whatever state an activation was left in, in any phase before
    [committing], that the check of the journal accepts and in which each release
    is complete at one of its places, each link is old, new or missing, and both
    configuration files are ones the transaction has written or found: [record
    --phase rolling-back] and then [restore_files], each interrupted any number
    of times before it completes, bring back the old release with every file,
    both links, and both configuration files with the modes and digests they had
    before the transaction; the candidate is kept, and nothing else has changed.
    The places are as in [layout], the original files are among those seen, the
    environment file with mode 0600 ([original_seen], as [begin] writes them),
    and the manifest of the rollback fits its size limit. *)
Theorem activation_undone {host : Host} {laws : HostLaws host} a m tree rest l w :
  layout a m → in_phases RollingBack (TRANSITIONS (m_phase m)) = true → original_seen m →
  (len (canonical (roll m)) ≤ MAX_CONTROL_BYTES)%Z → left_off a m tree rest w →
  ∃ x w1, record a rolling_args (set_script [] (attempts (record a rolling_args) l w)) = (w1, Ok x) ∧
    ∀ k, rolling_back a tree rest (roll m) (attempts (restore_files a) k w1) ∧
      ∃ y w2, restore_files a (set_script [] (attempts (restore_files a) k w1)) = (w2, Ok y) ∧
        is_restored a m tree rest w2.
Proof.
  intros lay Hph Hseen Hlen Hw.
  destruct (rolling_attempts a m tree rest lay l w Hph Hlen Hw) as (_ & x & w1 & Hr & Hw1).
  exists x, w1. split; [done|]. intros k.
  destruct (restore_attempts a m tree rest lay (roll m) k w1) as (Hk & y & w2 & H & _ & Hres);
    [by right|done|by destruct Hseen|done|].
  split; [done|]. by exists y, w2.
Qed.

Lemma activation_undone_witness :
  saved (env late_manifest) = Some (b64, 384%Z) ∧ current_config_metadata late_files ["etc"; "env"] = Ok (Some (a64, 384%Z)) ∧
  ∃ x w1, record example_args rolling_args
      (set_script [] (attempts (record example_args rolling_args) example_faults late_world)) = (w1, Ok x) ∧
    ∀ k, rolling_back example_args late_tree late_rest (roll late_manifest)
        (attempts (restore_files example_args) k w1) ∧
      ∃ y w2, restore_files example_args (set_script [] (attempts (restore_files example_args) k w1)) = (w2, Ok y) ∧
        is_restored example_args late_manifest late_tree late_rest w2.
Proof.
  split; [reflexivity|]. split; [vm_compute; reflexivity|].
  apply activation_undone; [exact late_layout|vm_compute; reflexivity|exact late_seen|vm_compute; discriminate|].
  exists late_view. exact late_interrupted.
Defined.
