(* ===== verification/JobRules.v ===== *)
(** * Scheduled jobs: schedules

    A job runs at an interval, by a cron expression or by a recurrence rule.
    This file has the record of a job, the checks of its schedule and
    [next_job_occurrence].

    A time is a number of ticks of [2^-22] seconds.  Between 2004 and 2038 that
    is the spacing of the floats that [time.time()] returns, so the sums of the
    code with whole seconds are exact there.  Where a cron expression or a
    recurrence rule falls is decided by croniter, dateutil and the time-zone
    data, which are parameters. *)
From S2P Require Import Prelude.
From S2P Require Import PyValues.
Open Scope string_scope.

Definition second : Z := 4194304.

(** [float(math.ceil(t))] *)
Definition ceil_second (t : Z) : Z := (- (- t / second) * second)%Z.

(** The microseconds of a [datetime] made of a timestamp, ties to even. *)
Definition microsecond (t : Z) : Z :=
  let n := (t mod second * 1000000)%Z in
  let q := (n / second)%Z in
  let r := (n mod second)%Z in
  ((if (2 * r <? second) || (2 * r =? second) && Z.even q then q else q + 1) mod 1000000)%Z.

(** ** Jobs *)

Inductive schedule_kind := Interval | Cron | Rrule.
#[global] Instance schedule_kind_eq_dec : EqDecision schedule_kind.
Proof. solve_decision. Defined.

Inductive job_context := InChat | Standalone.
#[global] Instance job_context_eq_dec : EqDecision job_context.
Proof. solve_decision. Defined.

(** The private marks of a job that waits for a server update. *)
Record park := mkPark {
  park_schedule : string;
  park_occurrence : Z;
  park_original : Z;
  park_revision : string;
}.
#[global] Instance park_eq_dec : EqDecision park.
Proof. solve_decision. Defined.

Record job := mkJob {
  j_session : string;
  j_title : string;
  j_prompt : string;
  j_chat_references : list pyval;
  j_team_references : list pyval;
  j_kind : schedule_kind;
  j_interval : option Z;
  j_cron : option string;
  j_rrule : option string;
  j_timezone : string;
  j_start : option Z;              (* schedule_start_at *)
  j_scheduled : option Z;          (* scheduled_run_at *)
  j_loop : bool;
  j_max_runs : option Z;
  j_enabled : bool;
  j_backend : option string;
  j_context : job_context;
  j_created_at : string;
  j_updated_at : string;
  j_last_run_at : option string;
  j_next : option Z;               (* next_run_at *)
  j_run_count : Z;
  j_manual : bool;                 (* manual_run_pending *)
  j_manual_requested : option string;
  j_manual_reason : option string;
  j_manual_event : option Z;       (* _last_manual_defer_event_at *)
  j_manual_error : option (string * string);
  j_last_manual : option string;
  j_last_scheduled : option Z;     (* last_scheduled_run_at *)
  j_last_deferred : option (string * string);
  j_defer_event : option Z;        (* _last_defer_event_at *)
  j_unavailable : option (Z * Z);  (* _runtime_unavailable_occurrence, ..._defer_count *)
  j_park : option park;
  j_revision : string;
}.
#[global] Instance job_eq_dec : EqDecision job.
Proof. solve_decision. Defined.

(** ** Text *)

(** [str.upper], on Latin-1; two letters whose capitals are not in Latin-1
    stay. *)
Definition upper_char (c : Ascii.ascii) : string :=
  let n := code c in
  if (n =? 223)%N then "SS"
  else if ((97 <=? n) && (n <=? 122) || (224 <=? n) && (n <=? 254) && negb (n =? 247))%N
  then String (chr (n - 32)) "" else String c "".
Definition upper (s : string) : string := concat_map upper_char s.

(** [s.partition("=")], with [None] when there is no [=]. *)
Fixpoint partition_eq (s : string) : string * option string :=
  match s with
  | "" => ("", None)
  | String d s => if (code d =? 61)%N then ("", Some s) else
      let '(a, b) := partition_eq s in (String d a, b)
  end.

(** [s.split()] *)
Fixpoint split_ws (s : string) : list string :=
  match s with
  | "" => []
  | String c s' =>
      if py_isspace c then split_ws s' else
      match s' with
      | String d _ => if py_isspace d then String c "" :: split_ws s' else
          match split_ws s' with x :: l => String c x :: l | [] => [String c ""] end
      | "" => [String c ""]
      end
  end.

(** A character that [\w] matches. *)
Definition word_char (c : Ascii.ascii) : bool :=
  let n := code c in
  ((48 <=? n) && (n <=? 57) || (65 <=? n) && (n <=? 90) || (n =? 95) || (97 <=? n) && (n <=? 122)
   || (n =? 170) || (n =? 178) || (n =? 179) || (n =? 181) || (185 <=? n) && (n <=? 186)
   || (188 <=? n) && (n <=? 190) || (192 <=? n) && negb (n =? 215) && negb (n =? 247))%N.

(** [(?i)\bX\b] somewhere in [s], [x] being the lower-case letter; [b] says
    whether the character before is part of a word. *)
Fixpoint has_word (x : Ascii.ascii) (b : bool) (s : string) : bool :=
  match s with
  | "" => false
  | String c s =>
      Ascii.eqb (lower_char c) x && negb b
        && match s with String d _ => negb (word_char d) | "" => true end
      || has_word x (word_char c) s
  end.

Definition digit (c : Ascii.ascii) : bool := if digit_of c then true else false.

(** [\d+] *)
Definition digits (s : string) : bool := negb (String.eqb s "") && string_forallb digit s.

Definition is_sign (c : Ascii.ascii) : bool := ((code c =? 43) || (code c =? 45))%N.

(** [[+-]?\d+] *)
Definition signed_digits (s : string) : bool :=
  match s with
  | String c t => if is_sign c then digits t else digits s
  | "" => false
  end.

(** [s.lstrip("+-")] *)
Fixpoint lstrip_sign (s : string) : string :=
  match s with
  | String c t => if is_sign c then lstrip_sign t else s
  | "" => ""
  end.

(** [int(s)] of a text that matches [[+-]?\d+]. *)
Definition number (s : string) : Z :=
  match int_of_string s with Ok z => z | Err _ => 0 end.

Definition bad (detail : string) : exn := HTTPError 400 detail.

(** ** Cron expressions *)

(** What the libraries and the rest of the server answer. *)
Record candidate := mkCandidate {
  c_time : Z;          (* timestamp() *)
  c_fold : bool;       (* the second pass of a repeated hour *)
  c_exists : bool;     (* datetime_exists *)
  c_hour : Z;
  c_minute : Z;
  c_second : Z;
}.

Inductive cron_answer :=
| CronNext (c : candidate)
| CronNone                    (* CroniterBadDateError *)
| CronError (msg : string).   (* CroniterError *)

(** What a chat is to its jobs. *)
Record session := mkSession { s_archived : bool; s_backend : option string }.

(** [zone_key] is the key of [ZoneInfo(name)], if there is such a zone;
    [parse_time] is [parse_job_timestamp]; the references of a prompt are
    checked elsewhere; the rest is croniter, the local clock and dateutil. *)
Class JobHost := {
  zone_key : string → option string;
  parse_time : string → string → res (option Z);
  check_chat_references : string → string → list pyval → res (list pyval);
  check_team_references : string → list pyval → list pyval → res (list pyval);
  cron_valid : string → option string → bool + string;
  cron_fields : string → option string → list (list (option Z));
  cron_matches : string → string → Z → bool;
  cron_next : string → option string → string → Z → nat → cron_answer;
  local_time : string → Z → candidate;
  rrule_accepts : string → string → Z → option string;
  rrule_item : string → string → Z → nat → option candidate;
  rrule_after : string → string → Z → Z + candidate → bool → option candidate;
  default_backend : string;
  max_prompt_chars : Z;
  busy_retry_seconds : Z;
  defer_event_min_seconds : Z;
}.

Section schedules.
Context {host : JobHost}.

Definition or_empty (s : option string) : string := default "" s.

Definition normalize_job_timezone (s : option string) : res string :=
  let name := let n := strip (let t := or_empty s in if String.eqb t "" then "UTC" else t) in
              if String.eqb n "" then "UTC" else n in
  match zone_key name with
  | None => Err (bad ("invalid IANA timezone: " +:+ name))
  | Some key => Ok (if String.eqb key "" then name else key)
  end.

Definition CRON_RANDOM_TOKEN (s : string) : bool := has_word (chr 114) false s.
Definition CRON_HASH_TOKEN (s : string) : bool := has_word (chr 104) false s.

Definition cron_hash_id (expression id : string) : option string :=
  if CRON_HASH_TOKEN expression then Some id else None.

Definition normalize_cron_expression (value : option string) (id : string) : res string :=
  let expression := join " " (split_ws (or_empty value)) in
  raise_if (String.eqb expression "") (bad "cron_expression is required for a cron schedule");;
  raise_if (CRON_RANDOM_TOKEN expression)
    (bad "cron random (R) fields are not supported; use hashed (H) fields for stable schedules");;
  match cron_valid expression (cron_hash_id expression id) with
  | inr msg => Err (bad ("invalid cron expression: " +:+ msg))
  | inl false => Err (bad "invalid cron expression")
  | inl true => Ok expression
  end.

(** [None] is the star. *)
Definition cron_clock_field_allows (values : list (option Z)) (actual : Z) : bool :=
  bool_decide (None ∈ values) || bool_decide (Some actual ∈ values).

Definition cron_candidate_has_requested_clock (fields : list (list (option Z))) (c : candidate) : bool :=
  cron_clock_field_allows (nth 0 fields []) (c_minute c)
  && cron_clock_field_allows (nth 1 fields []) (c_hour c)
  && cron_clock_field_allows (if Nat.leb 6 (length fields) then nth 5 fields [] else [Some 0%Z]) (c_second c).

(** ** Recurrence rules *)

Definition RRULE_FREQUENCIES : list string :=
  ["SECONDLY"; "MINUTELY"; "HOURLY"; "DAILY"; "WEEKLY"; "MONTHLY"; "YEARLY"].
Definition RRULE_WEEKDAYS : list string := ["MO"; "TU"; "WE"; "TH"; "FR"; "SA"; "SU"].
Definition RRULE_ALLOWED_PARTS : list string :=
  ["FREQ"; "UNTIL"; "COUNT"; "INTERVAL"; "BYSECOND"; "BYMINUTE"; "BYHOUR"; "BYDAY";
   "BYMONTHDAY"; "BYYEARDAY"; "BYWEEKNO"; "BYMONTH"; "BYSETPOS"; "WKST"].
Definition RRULE_INTEGER_LIST_RANGES : list (string * (Z * Z * bool)) :=
  [("BYSECOND", (0, 59, true)); ("BYMINUTE", (0, 59, true)); ("BYHOUR", (0, 23, true));
   ("BYMONTHDAY", (-31, 31, false)); ("BYYEARDAY", (-366, 366, false));
   ("BYWEEKNO", (-53, 53, false)); ("BYMONTH", (1, 12, true)); ("BYSETPOS", (-366, 366, false))]%Z.
Definition MAX_RRULE_COUNT : Z := 10000.
Definition MAX_RRULE_SCAN : Z := MAX_RRULE_COUNT + 10000.
Definition MAX_JOB_INTERVAL_SECONDS : Z := 10 * 366 * 24 * 60 * 60.

Definition rule := list (string * string).

(** [parts.get(key)] *)
Fixpoint part (r : rule) (key : string) : option string :=
  match r with
  | [] => None
  | (k, v) :: r => if String.eqb k key then Some v else part r key
  end.
Definition has_part (r : rule) (key : string) : bool := if part r key then true else false.

(** The loop over the properties. *)
Fixpoint rrule_parts (l : list string) (parts : rule) : res rule :=
  match l with
  | [] => Ok parts
  | raw :: l =>
      let '(key, value) := partition_eq raw in
      let key := upper (strip key) in
      let item := strip (or_empty value) in
      raise_if (bool_decide (value = None) || String.eqb key "" || String.eqb item "")
        (bad "invalid RFC 5545 RRULE property");;
      raise_if (negb (str_in key RRULE_ALLOWED_PARTS)) (bad ("unsupported RFC 5545 RRULE part: " +:+ key));;
      raise_if (has_part parts key) (bad ("RRULE part may appear only once: " +:+ key));;
      rrule_parts l (parts ++ [(key, item)])%list
  end.

(** [COUNT] and [INTERVAL] *)
Definition check_number (parts : rule) (key : string) : res unit :=
  match part parts key with
  | None => Ok tt
  | Some s =>
      raise_if (negb (digits s)) (bad ("RRULE " +:+ key +:+ " must be a positive integer"));;
      raise_if (10 <? len s)%Z (bad ("RRULE " +:+ key +:+ " is too large"));;
      raise_if (number s <? 1)%Z (bad ("RRULE " +:+ key +:+ " must be at least 1"));;
      raise_if (String.eqb key "COUNT" && (MAX_RRULE_COUNT <? number s))%Z
        (bad ("RRULE COUNT must be at most " +:+ pretty MAX_RRULE_COUNT))
  end.

Definition in_range (lo hi : Z) (zero : bool) (n : Z) : bool :=
  ((lo <=? n) && (n <=? hi) && (negb (n =? 0) || zero))%Z.

Definition check_range (parts : rule) (x : string * (Z * Z * bool)) : res unit :=
  let '(key, (lo, hi, zero)) := x in
  match part parts key with
  | None => Ok tt
  | Some s =>
      let values := split_on (chr 44) s in
      raise_if (negb (forallb signed_digits values)) (bad ("RRULE " +:+ key +:+ " contains an invalid integer"));;
      raise_if (existsb (λ v, 3 <? len (lstrip_sign v))%Z values)
        (bad ("RRULE " +:+ key +:+ " contains an integer that is too large"));;
      raise_if (negb (forallb (λ v, in_range lo hi zero (number v)) values))
        (bad ("RRULE " +:+ key +:+ " contains a value outside its RFC 5545 range"))
  end.

(** [([+-]?\d{1,2})?(MO|TU|WE|TH|FR|SA|SU)]: the ordinal, if there is one. *)
Definition weekday (s : string) : option (option string) :=
  let n := String.length s in
  let day := String.substring (n - 2) 2 s in
  let ordinal := prefix_of (n - 2) s in
  if Nat.leb 2 n && str_in day RRULE_WEEKDAYS then
    if String.eqb ordinal "" then Some None
    else if signed_digits ordinal && (len (lstrip_sign ordinal) <=? 2)%Z then Some (Some ordinal) else None
  else None.

Definition check_weekday (parts : rule) (frequency s : string) : res unit :=
  match weekday s with
  | None => Err (bad "RRULE BYDAY contains an invalid weekday")
  | Some None => Ok tt
  | Some (Some ordinal) =>
      let n := Z.abs (number ordinal) in
      raise_if ((n =? 0) || (53 <? n))%Z (bad "RRULE BYDAY ordinal must be between 1 and 53");;
      raise_if (negb (str_in frequency ["MONTHLY"; "YEARLY"]))
        (bad "numeric BYDAY is only valid with MONTHLY or YEARLY");;
      raise_if (String.eqb frequency "MONTHLY" && (5 <? n))%Z
        (bad "numeric MONTHLY BYDAY must be between 1 and 5");;
      raise_if (String.eqb frequency "YEARLY" && has_part parts "BYWEEKNO")
        (bad "numeric BYDAY cannot be combined with YEARLY BYWEEKNO")
  end.

Fixpoint check_all {A} (check : A → res unit) (l : list A) : res unit :=
  match l with [] => Ok tt | x :: l => check x;; check_all check l end.

(** What goes together. *)
Definition check_combination (parts : rule) (frequency : string) : res unit :=
  raise_if (match part parts "WKST" with Some s => negb (str_in (upper s) RRULE_WEEKDAYS) | None => false end)
    (bad "RRULE WKST must be a weekday");;
  raise_if (has_part parts "BYWEEKNO" && negb (String.eqb frequency "YEARLY"))
    (bad "RRULE BYWEEKNO is only valid with YEARLY");;
  raise_if (has_part parts "BYMONTHDAY" && String.eqb frequency "WEEKLY")
    (bad "RRULE BYMONTHDAY is not valid with WEEKLY");;
  raise_if (has_part parts "BYYEARDAY" && str_in frequency ["DAILY"; "WEEKLY"; "MONTHLY"])
    (bad ("RRULE BYYEARDAY is not valid with " +:+ frequency));;
  raise_if (has_part parts "BYSETPOS"
            && negb (existsb (λ x, startswith "BY" x.1 && negb (String.eqb x.1 "BYSETPOS")) parts))
    (bad "RRULE BYSETPOS requires another BY rule part").

Definition validate_rrule_parts (expression : string) : res rule :=
  parts ← rrule_parts (split_on (chr 59) expression) [];
  let frequency := upper (or_empty (part parts "FREQ")) in
  raise_if (negb (str_in frequency RRULE_FREQUENCIES)) (bad "RRULE requires a valid FREQ part");;
  raise_if (has_part parts "COUNT" && has_part parts "UNTIL")
    (bad "RRULE cannot contain both COUNT and UNTIL");;
  check_all (check_number parts) ["COUNT"; "INTERVAL"];;
  check_all (check_range parts) RRULE_INTEGER_LIST_RANGES;;
  match part parts "BYDAY" with
  | Some s => check_all (check_weekday parts frequency) (split_on (chr 44) (upper s))
  | None => Ok tt
  end;;
  check_combination parts frequency;;
  Ok parts.

Definition normalize_rrule_expression (value : option string) (zone : string) (start : Z) : res string :=
  let expression := strip (or_empty value) in
  let expression := if startswith "RRULE:" (upper expression)
                    then strip (String.substring 6 (String.length expression - 6) expression) else expression in
  raise_if (String.eqb expression "") (bad "rrule is required for an RRULE schedule");;
  raise_if (string_contains (chr 10) expression || string_contains (chr 13) expression)
    (bad "rrule must be one RFC 5545 RRULE property, not an iCalendar document");;
  validate_rrule_parts expression;;
  zone ← normalize_job_timezone (Some zone);
  match rrule_accepts expression zone start with
  | Some msg => Err (bad ("invalid RFC 5545 RRULE: " +:+ msg))
  | None => Ok expression
  end.

(** ** [next_job_occurrence] *)

(** [timestamp > after or (inclusive and timestamp >= after)] *)
Definition is_after (inclusive : bool) (t after : Z) : bool :=
  ((after <? t) || inclusive && (after <=? t))%Z.

Definition next_interval (anchor interval : option Z) (after : Z) (inclusive : bool) : option Z :=
  match anchor with
  | None => None
  | Some anchor =>
      match interval with
      | Some i =>
          if (i =? 0)%Z then (if is_after inclusive anchor after then Some anchor else None)
          else if (i <=? 0)%Z then None
          else if is_after inclusive anchor after then Some anchor
          else
            let elapsed := Z.max 0 (after - anchor) in
            let steps := (elapsed / (i * second))%Z in
            let candidate := (anchor + steps * i * second)%Z in
            Some (if (candidate <? after) || negb inclusive && (candidate <=? after)
                  then candidate + i * second else candidate)%Z
      | None => if is_after inclusive anchor after then Some anchor else None
      end
  end.

(** The candidates of croniter, from the [n]-th on. *)
Fixpoint cron_scan (fuel : nat) (expression : string) (hash : option string) (zone : string)
    (after : Z) (inclusive : bool) (n : nat) : res (option Z) :=
  match fuel with
  | O => Err (bad "cron expression produced too many invalid occurrences")
  | S fuel =>
      match cron_next expression hash zone after n with
      | CronNone => Ok None
      | CronError msg => Err (bad ("invalid cron expression: " +:+ msg))
      | CronNext c =>
          if negb (c_fold c) && c_exists c
             && cron_candidate_has_requested_clock (cron_fields expression hash) c
             && is_after inclusive (c_time c) after
          then Ok (Some (c_time c))
          else cron_scan fuel expression hash zone after inclusive (S n)
      end
  end.

Definition next_cron (expression id zone : string) (after : Z) (inclusive : bool) : res (option Z) :=
  let hash := cron_hash_id expression id in
  let base := local_time zone after in
  if inclusive && (microsecond after =? 0)%Z && bool_decide (hash = None)
     && negb (c_fold base) && c_exists base && cron_matches expression zone after
  then Ok (Some (c_time base))
  else cron_scan (Z.to_nat 10000) expression hash zone after inclusive 0.

(** The rule without its count. *)
Definition drop_count (expression : string) : string :=
  join ";" (filter (λ p, startswith "COUNT=" (upper (strip p)) = false) (split_on (chr 59) expression)).

(** The occurrences of a counted rule, from the [n]-th on, [seen] valid ones
    having passed. *)
Fixpoint rrule_count_scan (fuel : nat) (expression zone : string) (anchor after : Z) (inclusive : bool)
    (limit seen : Z) (n : nat) : option Z :=
  match fuel with
  | O => None
  | S fuel =>
      match rrule_item expression zone anchor n with
      | None => None
      | Some c =>
          if c_fold c || negb (c_exists c)
          then rrule_count_scan fuel expression zone anchor after inclusive limit seen (S n)
          else if (limit <? seen + 1)%Z then None
          else if is_after inclusive (c_time c) after then Some (c_time c)
          else rrule_count_scan fuel expression zone anchor after inclusive limit (seen + 1) (S n)
      end
  end.

Fixpoint rrule_scan (fuel : nat) (expression zone : string) (anchor after : Z) (inclusive : bool)
    (cursor : Z + candidate) (include : bool) : res (option Z) :=
  match fuel with
  | O => Err (bad "rrule produced too many invalid occurrences")
  | S fuel =>
      match rrule_after expression zone anchor cursor include with
      | None => Ok None
      | Some c =>
          if negb (c_fold c) && c_exists c && is_after inclusive (c_time c) after
          then Ok (Some (c_time c))
          else rrule_scan fuel expression zone anchor after inclusive (inr c) false
      end
  end.

Definition next_rrule (expression zone : string) (anchor after : Z) (inclusive : bool) : res (option Z) :=
  parts ← validate_rrule_parts expression;
  match part parts "COUNT" with
  | Some count =>
      raise_if (negb (bool_decide (rrule_accepts (drop_count expression) zone anchor = None)))
        (bad "invalid RFC 5545 RRULE");;
      Ok (rrule_count_scan (Z.to_nat MAX_RRULE_SCAN) (drop_count expression) zone anchor after inclusive
            (number count) 0 0)
  | None => rrule_scan (Z.to_nat 10000) expression zone anchor after inclusive (inl after) inclusive
  end.

(** The first of the times that is there. *)
Fixpoint first_time (l : list (option Z)) : option Z :=
  match l with
  | [] => None
  | Some t :: _ => Some t
  | None :: l => first_time l
  end.

Definition next_job_occurrence (id : string) (j : job) (after : Z) (inclusive : bool) : res (option Z) :=
  let anchor := first_time [j_start j; j_scheduled j; j_next j] in
  match j_kind j with
  | Interval => Ok (next_interval anchor (j_interval j) after inclusive)
  | Cron =>
      zone ← normalize_job_timezone (Some (j_timezone j));
      expression ← normalize_cron_expression (j_cron j) (if String.eqb id "" then "job" else id);
      next_cron expression (if String.eqb id "" then "job" else id) zone
        (Z.max after (default after anchor)) inclusive
  | Rrule =>
      zone ← normalize_job_timezone (Some (j_timezone j));
      let anchor := default after anchor in
      expression ← normalize_rrule_expression (j_rrule j) zone anchor;
      next_rrule expression zone anchor after inclusive
  end.
End schedules.

(** * Scheduled jobs: when a job runs next

    What [next_job_occurrence] returns, and what a recurrence rule that is
    accepted looks like. *)
Open Scope string_scope.

Lemma second_pos : (0 < second)%Z.
Proof. done. Qed.

Section intervals.
Local Open Scope Z_scope.

(** The times of an interval schedule. *)
Definition on_grid (anchor i t : Z) : Prop := ∃ n, 0 ≤ n ∧ t = anchor + n * (i * second).

Lemma next_interval_spec anchor i after t :
  next_interval (Some anchor) (Some i) after false = Some t → 0 < i →
  after < t ∧ on_grid anchor i t ∧ ∀ u, on_grid anchor i u → after < u → t ≤ u.
Proof.
  unfold next_interval, is_after. cbn [andb orb negb]. rewrite !orb_false_r. intros H Hi.
  assert (0 < i * second) as Hp by (unfold second; lia).
  rewrite (proj2 (Z.eqb_neq i 0)), (proj2 (Z.leb_gt i 0)) in H by lia.
  destruct (Z.ltb_spec after anchor) as [Ha|Ha].
  - injection H as <-. split_and!; [done|exists 0; lia|]. intros u (n & Hn & ->) _. nia.
  - rewrite Z.max_r in H by lia.
    pose proof (Z.mul_div_le (after - anchor) (i * second) Hp) as Hlo.
    pose proof (Z.mul_succ_div_gt (after - anchor) (i * second) Hp) as Hhi.
    pose proof (Z.div_pos (after - anchor) (i * second) ltac:(lia) Hp) as Hn.
    set (n := (after - anchor) / (i * second)) in *.
    replace (anchor + n * i * second) with (anchor + n * (i * second)) in H by ring.
    assert ((anchor + n * (i * second) <? after) || (anchor + n * (i * second) <=? after) = true) as E.
    { apply orb_true_iff. right. apply Z.leb_le. lia. }
    rewrite E in H. injection H as <-. split_and!.
    + lia.
    + exists (n + 1). split; [lia|ring].
    + intros u (k & Hk & ->) Hu. assert (n < k) by nia. nia.
Qed.

Lemma next_interval_after anchor interval after t :
  next_interval anchor interval after false = Some t → after < t.
Proof.
  destruct anchor as [a|]; [|done]. destruct interval as [i|].
  - destruct (Z.ltb_spec 0 i); [intros; by eapply next_interval_spec|].
    unfold next_interval, is_after. cbn [andb orb]. rewrite orb_false_r.
    destruct (Z.eqb_spec i 0) as [->|]; [|by rewrite (proj2 (Z.leb_le i 0)) by lia].
    destruct (Z.ltb_spec after a); [by intros [= <-]|done].
  - unfold next_interval, is_after. cbn [andb orb]. rewrite orb_false_r.
    destruct (Z.ltb_spec after a); [by intros [= <-]|done].
Qed.
End intervals.

Section times.
Context {host : JobHost}.

Lemma is_after_false t a : is_after false t a = true ↔ (a < t)%Z.
Proof. unfold is_after. cbn. rewrite orb_false_r. apply Z.ltb_lt. Qed.

Lemma cron_scan_after fuel e h z a n t : cron_scan fuel e h z a false n = Ok (Some t) → (a < t)%Z.
Proof.
  revert n. induction fuel as [|fuel IH]; intros n; [done|]. cbn [cron_scan].
  destruct (cron_next e h z a n) as [c| |]; [|done..].
  destruct (_ && _) eqn:E; [|apply IH]. intros [= <-].
  apply andb_true_iff in E as [_ E]. by apply is_after_false.
Qed.

Lemma rrule_count_scan_after fuel e z anchor a limit seen n t :
  rrule_count_scan fuel e z anchor a false limit seen n = Some t → (a < t)%Z.
Proof.
  revert seen n. induction fuel as [|fuel IH]; intros seen n; [done|]. cbn [rrule_count_scan].
  destruct (rrule_item e z anchor n) as [c|]; [|done]. destruct (_ || _); [apply IH|].
  destruct (_ <? _)%Z; [done|]. destruct (is_after _ _ _) eqn:E; [|apply IH].
  intros [= <-]. by apply is_after_false.
Qed.

Lemma rrule_scan_after fuel e z anchor a cursor inc t :
  rrule_scan fuel e z anchor a false cursor inc = Ok (Some t) → (a < t)%Z.
Proof.
  revert cursor inc. induction fuel as [|fuel IH]; intros cursor inc; [done|]. cbn [rrule_scan].
  destruct (rrule_after e z anchor cursor inc) as [c|]; [|done].
  destruct (_ && _) eqn:E; [|apply IH]. intros [= <-].
  apply andb_true_iff in E as [_ E]. by apply is_after_false.
Qed.

Lemma next_occurrence_after id j a t : next_job_occurrence id j a false = Ok (Some t) → (a < t)%Z.
Proof.
  unfold next_job_occurrence. destruct (j_kind j); intros H.
  - injection H as H. by eapply next_interval_after.
  - inv_res. unfold next_cron in H. cbn [andb] in H. apply cron_scan_after in H. lia.
  - inv_res. unfold next_rrule in H. apply res_bind_Ok in H as (parts & _ & H).
    destruct (part parts "COUNT").
    + apply res_bind_Ok in H as (? & _ & H). apply Ok_inj in H. by eapply rrule_count_scan_after.
    + by eapply rrule_scan_after.
Qed.

Lemma next_occurrence_interval id j a t i anchor :
  j_kind j = Interval → j_interval j = Some i → first_time [j_start j; j_scheduled j; j_next j] = Some anchor →
  (0 < i)%Z → next_job_occurrence id j a false = Ok (Some t) →
  on_grid anchor i t ∧ ∀ u, on_grid anchor i u → (a < u)%Z → (t ≤ u)%Z.
Proof.
  intros Hk Hi Ha Hp. unfold next_job_occurrence. rewrite Hk, Hi, Ha. intros [= H].
  by apply next_interval_spec in H as (_ & H).
Qed.
End times.

(** ** Accepted rules *)

Lemma check_all_Ok {A} (check : A → res unit) l u :
  check_all check l = Ok u → ∀ x, x ∈ l → check x = Ok tt.
Proof.
  revert u. induction l as [|y l IH]; intros u; [intros _ x Hx; by apply elem_of_nil in Hx|].
  cbn. intros H x. apply res_bind_Ok in H as ([] & Hy & H).
  rewrite elem_of_cons. intros [->|Hx]; [done|by eapply IH].
Qed.

Lemma rrule_parts_keys l parts r : rrule_parts l parts = Ok r →
  NoDup (map fst parts) → (∀ k, k ∈ map fst parts → k ∈ RRULE_ALLOWED_PARTS) →
  NoDup (map fst r) ∧ ∀ k, k ∈ map fst r → k ∈ RRULE_ALLOWED_PARTS.
Proof.
  revert parts. induction l as [|raw l IH]; intros parts; [by intros [= <-]|].
  cbn [rrule_parts]. destruct (partition_eq raw) as [key value]. intros H Hd Ha. inv_res.
  repeat match goal with H : negb _ = false |- _ => apply negb_false_iff in H end.
  match goal with H : str_in _ _ = true |- _ => apply str_in_spec, list_elem_of_In in H end.
  match goal with H : has_part _ _ = false |- _ => rename H into Hn end.
  assert (upper (strip key) ∉ map fst parts) as Hk.
  { intros Hx. unfold has_part in Hn. revert Hn Hx. clear. induction parts as [|[k v] p IH]; cbn.
    - intros _ H. by apply elem_of_nil in H.
    - destruct (String.eqb_spec k (upper (strip key))) as [->|E]; [done|]. rewrite elem_of_cons.
      intros Hn [Hx|Hx]; [congruence|auto]. }
  eapply IH; [done|..]; rewrite map_app; cbn.
  - apply NoDup_app. split_and!; [done| |by apply NoDup_singleton].
    intros y Hy. by rewrite list_elem_of_singleton; intros ->.
  - intros k [Hk'|Hk'%list_elem_of_singleton]%elem_of_app; [auto|by subst].
Qed.

(** The rule has a frequency, each part at most once, and numbers in their
    ranges. *)
Record accepted (r : rule) : Prop := {
  ac_keys : NoDup (map fst r) ∧ ∀ k, k ∈ map fst r → k ∈ RRULE_ALLOWED_PARTS;
  ac_freq : ∃ f, part r "FREQ" = Some f ∧ upper f ∈ RRULE_FREQUENCIES;
  ac_end : part r "COUNT" = None ∨ part r "UNTIL" = None;
  ac_count : ∀ s, part r "COUNT" = Some s → (1 ≤ number s ≤ MAX_RRULE_COUNT)%Z;
  ac_interval : ∀ s, part r "INTERVAL" = Some s → (1 ≤ number s)%Z;
  ac_numbers : ∀ key lo hi zero s, (key, (lo, hi, zero)) ∈ RRULE_INTEGER_LIST_RANGES → part r key = Some s →
    ∀ v, v ∈ split_on (chr 44) s → (lo ≤ number v ≤ hi)%Z ∧ (number v = 0%Z → zero = true);
}.

Lemma check_number_Ok r key s : check_number r key = Ok tt → part r key = Some s →
  (1 ≤ number s)%Z ∧ (key = "COUNT" → number s ≤ MAX_RRULE_COUNT)%Z.
Proof.
  unfold check_number. intros H Hs. rewrite Hs in H. inv_res.
  match goal with H : (number s <? 1)%Z = false |- _ => apply Z.ltb_ge in H end. split; [done|]. intros ->.
  match goal with H : _ && _ = false |- _ => cbn [String.eqb] in H; by apply Z.ltb_ge in H end.
Qed.

Lemma check_range_Ok r key lo hi zero s v : check_range r (key, (lo, hi, zero)) = Ok tt → part r key = Some s →
  v ∈ split_on (chr 44) s → (lo ≤ number v ≤ hi)%Z ∧ (number v = 0%Z → zero = true).
Proof.
  unfold check_range. intros H Hs Hv. rewrite Hs in H. inv_res.
  match goal with H : negb (forallb (λ _, in_range _ _ _ _) _) = false |- _ =>
    apply negb_false_iff in H; rewrite forallb_forall in H; specialize (H v) end.
  match goal with H : In v _ → _ |- _ => specialize (H (proj1 (list_elem_of_In _ _) Hv)); rename H into Hr end.
  unfold in_range in Hr. apply andb_true_iff in Hr as [[Hl Hh]%andb_true_iff Hz].
  apply Z.leb_le in Hl, Hh. split; [lia|]. intros E. by rewrite E in Hz.
Qed.

Lemma validate_accepts e r : validate_rrule_parts e = Ok r → accepted r.
Proof.
  unfold validate_rrule_parts. intros H. apply res_bind_Ok in H as (parts & Hp & H).
  apply res_bind_Ok in H as (? & Hf & H). apply res_bind_Ok in H as (? & Hu & H).
  apply res_bind_Ok in H as (? & Hn & H). apply res_bind_Ok in H as (? & Hr & H).
  apply res_bind_Ok in H as (? & _ & H). apply res_bind_Ok in H as (? & _ & H).
  apply Ok_inj in H as <-. apply raise_if_Ok, negb_false_iff, str_in_spec, list_elem_of_In in Hf.
  pose proof (λ k, check_all_Ok _ _ _ Hn k) as Hn'. pose proof (λ k, check_all_Ok _ _ _ Hr k) as Hr'.
  split.
  - eapply rrule_parts_keys; [done|apply NoDup_nil_2|]. intros k Hk. by apply elem_of_nil in Hk.
  - unfold or_empty in Hf. destruct (part parts "FREQ") as [f|]; [by exists f|].
    exfalso. cbn in Hf. unfold RRULE_FREQUENCIES in Hf. set_solver.
  - apply raise_if_Ok, andb_false_iff in Hu as [Hu|Hu]; [left|right];
      unfold has_part in Hu; [destruct (part parts "COUNT")|destruct (part parts "UNTIL")]; done.
  - intros s Hs. eapply check_number_Ok in Hs as [? ?]; [|apply Hn'; by left]. auto.
  - intros s Hs. eapply check_number_Ok in Hs as [? ?]; [|apply Hn'; right; by left]. auto.
  - intros key lo hi zero s Hin Hs v Hv. eapply check_range_Ok; [by apply Hr'|done..].
Qed.
