(* ===== verification/Jobs.v ===== *)
(** * Scheduled jobs: the registry

    [JobStore]: the jobs in memory and the file they are saved to.  A method is
    a function of both; [saved] says whether the write of the file succeeded. *)
From S2P Require Import Prelude PyValues JobRules.

Open Scope string_scope.

(** [jobs] is what the server works with, [disk] what a restart finds. *)
Record store := mkStore { jobs : gmap string job; disk : gmap string job }.

(** What a method reads from the clock and from [uuid4]: the first, the second
    and the third look at [time.time()], [now_iso()] and a new revision. *)
Record clock := mkClock {
  now : Z;
  now2 : Z;
  now3 : Z;
  iso : string;
  rev : string;
}.

(** [save] after [self.jobs] was changed. *)
Definition save {A} (saved : bool) (js : gmap string job) (s : store) (a : A) : store * res A :=
  if saved then (mkStore js js, Ok a) else (mkStore js (disk s), Err OSError).

(** The same where a failure puts the jobs back. *)
Definition save_or_undo {A} (saved : bool) (js : gmap string job) (s : store) (a : A) : store * res A :=
  if saved then (mkStore js js, Ok a) else (s, Err OSError).

Definition MAX_JOB_TITLE_CHARS : Z := 200.

Section registry.
Context {host : JobHost}.

Definition validate_job_text_bounds (title prompt : string) : res unit :=
  raise_if (MAX_JOB_TITLE_CHARS <? len title)%Z
    (bad ("job title must be at most " +:+ pretty MAX_JOB_TITLE_CHARS +:+ " characters"));;
  raise_if (max_prompt_chars <? len prompt)%Z
    (bad ("job prompt must be at most " +:+ pretty max_prompt_chars +:+ " characters")).

(** ** The provider a job runs on *)

Definition VALID_BACKENDS : list string := ["claude"; "codex"; "cursor"; "opencode"].
Definition backend_error : exn := bad "backend must be one of ['claude', 'codex', 'cursor', 'opencode']".

Definition clean_backend (b : option string) : option string :=
  let t := lower (strip (or_empty b)) in if String.eqb t "" then None else Some t.

Definition parent_backend (p : session) : string :=
  let raw := match s_backend p with Some b => if String.eqb b "" then default_backend else b
                                  | None => default_backend end in
  let b := lower (strip raw) in if str_in b VALID_BACKENDS then b else default_backend.

Definition resolve_job_context_contract (p : session) (mode : job_context) (backend : option string)
    (explicit : bool) : res (job_context * option string) :=
  let b := clean_backend backend in
  raise_if (match b with Some b => negb (str_in b VALID_BACKENDS) | None => false end) backend_error;;
  let other := match b with Some b => negb (String.eqb b (parent_backend p)) | None => false end in
  let mode := if negb explicit && other then Standalone else mode in
  raise_if (bool_decide (mode = InChat) && other)
    (bad ("A job that continues in this chat must use the parent chat backend ("
          +:+ parent_backend p +:+ "); choose standalone context to use " +:+ or_empty b +:+ "."));;
  Ok (mode, b).

(** ** The schedule that is asked for *)

Definition KIND_ERROR : exn := bad "schedule_kind must be one of ['cron', 'interval', 'rrule']".
Definition kind_of_name (s : string) : option schedule_kind :=
  if String.eqb s "interval" then Some Interval
  else if String.eqb s "cron" then Some Cron
  else if String.eqb s "rrule" then Some Rrule else None.
Definition kind_text (k : schedule_kind) : string :=
  match k with Interval => "interval" | Cron => "cron" | Rrule => "rrule" end.

(** [str(value or "").strip()] is not empty. *)
Definition given_text (s : option string) : bool := negb (String.eqb (strip (or_empty s)) "").

Definition supplied (interval : option Z) (cron rrule : option string) : list schedule_kind :=
  (if interval then [Interval] else []) ++ (if given_text cron then [Cron] else [])
  ++ (if given_text rrule then [Rrule] else []).

Definition requested_job_schedule_kind (kind : option string) (interval : option Z)
    (cron rrule : option string) : res schedule_kind :=
  let explicit := lower (strip (or_empty kind)) in
  raise_if (negb (String.eqb explicit "") && bool_decide (kind_of_name explicit = None)) KIND_ERROR;;
  let l := supplied interval cron rrule in
  raise_if (Nat.ltb 1 (length l)) (bad "choose only one of interval_seconds, cron_expression, or rrule");;
  raise_if (match l, kind_of_name explicit with
            | k :: _, Some e => negb (bool_decide (e = k)) | _, _ => false end)
    (bad (match l with k :: _ => kind_text k | [] => "" end
          +:+ " schedule fields conflict with schedule_kind=" +:+ explicit));;
  Ok (match kind_of_name explicit with Some e => e | None => default Interval (head l) end).

Definition normalize_interval_seconds (value : option Z) : res (option Z) :=
  match value with
  | None => Ok None
  | Some i =>
      raise_if (i <=? 0)%Z (bad "interval_seconds must be a positive integer");;
      raise_if (MAX_JOB_INTERVAL_SECONDS <? i)%Z
        (bad ("interval_seconds must be at most " +:+ pretty MAX_JOB_INTERVAL_SECONDS));;
      Ok (Some i)
  end.

(** ** [create] *)

Record create_request := mkCreate {
  q_session : string;
  q_title : string;
  q_prompt : string;
  q_kind : option string;
  q_interval : option Z;
  q_cron : option string;
  q_rrule : option string;
  q_timezone : option string;
  q_first_run : option string;
  q_loop : bool;
  q_max_runs : option Z;
  q_enabled : bool;
  q_backend : option string;
  q_context : job_context;
  q_context_given : bool;
  q_chat_references : list pyval;
  q_team_references : list pyval;
}.

Definition parent_of (sess : gmap string session) (id : string) : res session :=
  match sess !! id with
  | None => Err (HTTPError 404 "session not found")
  | Some p =>
      raise_if (s_archived p) (HTTPError 409 "unarchive this chat before scheduling jobs");; Ok p
  end.

Definition is_calendar (k : schedule_kind) : bool := negb (bool_decide (k = Interval)).

(** How often a new job may run. *)
Definition new_max_runs (k : schedule_kind) (q : create_request) : option Z :=
  if is_calendar k then Z.max 1 <$> q_max_runs q
  else if q_loop q then None
  else Some (Z.max 1 (match q_max_runs q with Some m => if (m =? 0)%Z then 1 else m | None => 1 end)).

(** The anchor of the schedule of a new job. *)
Definition new_start (k : schedule_kind) (first interval : option Z) (now : Z) : Z :=
  match first with
  | Some t => t
  | None =>
      match k, interval with
      | Rrule, _ => ceil_second now
      | Interval, Some i => if (i =? 0)%Z then now else (now + i * second)%Z
      | _, _ => now
      end
  end.

Definition new_job (sess : gmap string session) (q : create_request) (jid : string) (k : clock) : res job :=
  validate_job_text_bounds (q_title q) (q_prompt q);;
  p ← parent_of sess (q_session q);
  '(mode, backend) ← resolve_job_context_contract p (q_context q) (q_backend q) (q_context_given q);
  chat ← check_chat_references (q_session q) (q_prompt q) (q_chat_references q);
  team ← check_team_references (q_prompt q) (q_team_references q) chat;
  kind ← requested_job_schedule_kind (q_kind q) (q_interval q) (q_cron q) (q_rrule q);
  zone ← normalize_job_timezone (q_timezone q);
  interval ← (if bool_decide (kind = Interval) then normalize_interval_seconds (q_interval q) else Ok None);
  first ← match q_first_run q with Some t => parse_time t zone | None => Ok None end;
  let start := new_start kind first interval (now k) in
  cron ← (if bool_decide (kind = Cron) then Some <$> normalize_cron_expression (q_cron q) jid else Ok None);
  rrule ← (if bool_decide (kind = Rrule) then Some <$> normalize_rrule_expression (q_rrule q) zone start else Ok None);
  let j := mkJob (q_session q) (q_title q) (q_prompt q) chat team kind interval cron rrule zone (Some start)
    None (is_calendar kind || q_loop q) (new_max_runs kind q) (q_enabled q) backend mode (iso k) (iso k)
    None None 0 false None None None None None None None None None None (rev k) in
  if negb (q_enabled q) then Ok j else
  next ← match first with
         | Some t => Ok (Some t)
         | None => match kind with
                   | Interval => Ok (if interval then Some start else None)
                   | _ => next_job_occurrence jid j (now k) false
                   end
         end;
  Ok (j {{ j_next := next; j_scheduled := next;
           j_enabled := negb (bool_decide (next = None) && is_calendar kind) }}).

(** The chat is looked at again under the lock. *)
Definition create (sess sess' : gmap string session) (q : create_request) (jid : string) (k : clock)
    (saved : bool) (s : store) : store * res job :=
  match (j ← new_job sess q jid k; parent_of sess' (q_session q);; Ok j) with
  | Err e => (s, Err e)
  | Ok j =>
      if saved then let js := <[jid := j]> (jobs s) in (mkStore js js, Ok j)
      else (mkStore (delete jid (jobs s)) (disk s), Err OSError)
  end.

(** ** [update] *)

(** A field of a patch: absent, [None], or a value. *)
Notation field A := (option (option A)).

Record patch := mkPatch {
  p_title : field string;
  p_prompt : field string;
  p_kind : field string;
  p_interval : field Z;
  p_cron : field string;
  p_rrule : field string;
  p_timezone : field string;
  p_next_run : field string;
  p_loop : field bool;
  p_max_runs : field Z;
  p_enabled : field bool;
  p_backend : field string;
  p_context : field job_context;
  p_chat_references : field (list pyval);
  p_team_references : field (list pyval);
}.

(** [patch.get(key)] *)
Definition given {A} (f : field A) : option A := match f with Some o => o | None => None end.
Definition present {A} (f : field A) : bool := if f then true else false.
(** [len(str(patch.get(key, "")))], [str(None)] being four letters. *)
Definition field_text (f : field string) : string :=
  match f with Some (Some s) => s | Some None => "None" | None => "" end.

Definition no_refs (f : field (list pyval)) : bool := bool_decide (f = Some (Some [])).

(** What an agent may do to a job that already addresses chats or teams. *)
Definition narrows (route : bool) (p : patch) (j : job) : res unit :=
  let chat := negb (bool_decide (j_chat_references j = [])) in
  let team := negb (bool_decide (j_team_references j = [])) in
  let revokes := no_refs (p_chat_references p) in
  let replaces := route && match given (p_chat_references p) with Some (_ :: _) => true | _ => false end in
  let revokes_team := negb team || no_refs (p_team_references p) in
  let forbidden := present (p_prompt p) || present (p_kind p) || present (p_interval p) || present (p_cron p)
    || present (p_rrule p) || present (p_timezone p) || present (p_next_run p) || present (p_loop p)
    || present (p_max_runs p) || present (p_backend p) || present (p_context p) in
  raise_if ((chat || team) && negb ((negb chat || revokes || replaces) && revokes_team)
            && (forbidden || bool_decide (given (p_enabled p) = Some true)))
    (HTTPError 403 ("agent jobs access cannot rewrite, accelerate, or re-enable a job with saved routed targets; "
      +:+ "supply a current opaque chat route or revoke the saved targets first")).

(** An archived chat keeps its jobs paused. *)
Definition archived_patch (sess : gmap string session) (p : patch) (j : job) : res patch :=
  match sess !! j_session j with
  | Some c =>
      if s_archived c then
        raise_if (bool_decide (given (p_enabled p) = Some true))
          (HTTPError 409 "unarchive this chat before enabling scheduled jobs");;
        Ok (p {{ p_enabled := Some (Some false) }})
      else Ok p
  | None => Ok p
  end.

(** The references, checked against the prompt to come. *)
Definition patch_references (p : patch) (j : job) : res job :=
  let prompt := default (j_prompt j) (given (p_prompt p)) in
  chat ← check_chat_references (j_session j) prompt (default (j_chat_references j) (given (p_chat_references p)));
  team ← check_team_references prompt (default (j_team_references j) (given (p_team_references p))) chat;
  Ok (j {{ j_chat_references := chat; j_team_references := team }}).

(** Backend and context. *)
Definition patch_contract (sess : gmap string session) (p : patch) (j : job) : res patch :=
  raise_if (match given (p_backend p) with Some b => negb (str_in b VALID_BACKENDS) | None => false end)
    backend_error;;
  if bool_decide (given (p_backend p) = None) && bool_decide (given (p_context p) = None) then Ok p else
  match sess !! j_session j with
  | None => Err (HTTPError 404 "session not found")
  | Some c =>
      let mode := default (j_context j) (given (p_context p)) in
      let b := match given (p_backend p) with Some b => Some b | None => j_backend j end in
      '(mode, b) ← resolve_job_context_contract c mode b (negb (bool_decide (given (p_context p) = None)));
      let p := p {{ p_context := Some (Some mode) }} in
      Ok (if given (p_backend p) then p {{ p_backend := Some b }} else p)
  end.

(** Old clients send an interval with every patch: it does not replace a
    calendar. *)
Definition drop_legacy_interval (p : patch) (j : job) : patch :=
  if is_calendar (j_kind j) && String.eqb (lower (strip (or_empty (given (p_kind p))))) ""
     && negb (bool_decide (given (p_interval p) = None))
     && negb (given_text (given (p_cron p))) && negb (given_text (given (p_rrule p)))
  then p {{ p_interval := None; p_loop := None; p_max_runs := None }} else p.

Definition patch_kind (p : patch) (requested : string) (j : job) : res schedule_kind :=
  let l := supplied (given (p_interval p)) (given (p_cron p)) (given (p_rrule p)) in
  raise_if (Nat.ltb 1 (length l)) (bad "choose only one schedule expression");;
  raise_if (negb (String.eqb requested "") && bool_decide (kind_of_name requested = None)) KIND_ERROR;;
  raise_if (match l, kind_of_name requested with
            | k :: _, Some r => negb (bool_decide (r = k)) | _, _ => false end)
    (bad "schedule fields conflict with schedule_kind");;
  Ok (match kind_of_name requested with Some r => r | None => default (j_kind j) (head l) end).

(** [x or y] for a time. *)
Definition or_time (x : option Z) (y : Z) : Z :=
  match x with Some t => if (t =? 0)%Z then y else t | None => y end.

Definition schedule_changed (p : patch) (jid : string) (next_kind : schedule_kind) (zone : string)
    (j : job) (now : Z) : res bool :=
  changed ← (if bool_decide (next_kind = j_kind j)
             then old ← normalize_job_timezone (Some (j_timezone j)); Ok (negb (String.eqb zone old))
             else Ok true);
  match next_kind with
  | Interval =>
      match given (p_interval p) with
      | Some i => if changed : bool then Ok true else
          n ← normalize_interval_seconds (Some i); Ok (negb (bool_decide (n = j_interval j)))
      | None => Ok changed
      end
  | Cron =>
      if given_text (given (p_cron p)) then if changed : bool then Ok true else
        e ← normalize_cron_expression (given (p_cron p)) jid; Ok (negb (bool_decide (Some e = j_cron j)))
      else Ok changed
  | Rrule =>
      if given_text (given (p_rrule p)) then if changed : bool then Ok true else
        e ← normalize_rrule_expression (given (p_rrule p)) zone (or_time (j_start j) now);
        Ok (negb (bool_decide (Some e = j_rrule j)))
      else Ok changed
  end.

Definition patch_texts (p : patch) (kind : schedule_kind) (zone : string) (j : job) : job :=
  j {{ j_title := default (j_title j) (given (p_title p));
       j_prompt := default (j_prompt j) (given (p_prompt p));
       j_enabled := default (j_enabled j) (given (p_enabled p));
       j_backend := match given (p_backend p) with Some b => Some b | None => j_backend j end;
       j_context := default (j_context j) (given (p_context p));
       j_kind := kind; j_timezone := zone }}.

(** How often an interval job may run from now on; [calendar] says whether it
    was a calendar job before. *)
Definition patch_runs (p : patch) (calendar : bool) (j : job) : job :=
  let j := match given (p_loop p) with
           | Some b => j {{ j_loop := b }}
           | None => if calendar then j {{ j_loop := false }} else j
           end in
  match p_max_runs p with
  | Some m =>
      if j_loop j then j {{ j_max_runs := None }}
      else match m with Some m => j {{ j_max_runs := Some (Z.max 1 m) }} | None => j end
  | None =>
      if present (p_loop p) && j_loop j then j {{ j_max_runs := None }}
      else if (calendar || present (p_loop p)) && negb (j_loop j)
      then j {{ j_max_runs := Some (Z.max (j_run_count j + 1)
                 (match j_max_runs j with Some m => if (m =? 0)%Z then 1 else m | None => 1 end))%Z }}
      else j
  end.

Definition patch_calendar_runs (p : patch) (j : job) : job :=
  match p_max_runs p with Some m => j {{ j_max_runs := Z.max 1 <$> m }} | None => j end.

Definition patch_schedule (p : patch) (jid : string) (current : schedule_kind) (now : Z) (j : job) : res job :=
  match j_kind j with
  | Interval =>
      i ← normalize_interval_seconds (match p_interval p with Some i => i | None => j_interval j end);
      Ok (patch_runs p (is_calendar current) (j {{ j_interval := i; j_cron := None; j_rrule := None }}))
  | Cron =>
      e ← normalize_cron_expression (match p_cron p with Some e => e | None => j_cron j end) jid;
      Ok (patch_calendar_runs p (j {{ j_cron := Some e; j_interval := None; j_rrule := None; j_loop := true }}))
  | Rrule =>
      let start := if negb (bool_decide (current = Rrule)) || bool_decide (j_start j = None)
                   then Some now else j_start j in
      e ← normalize_rrule_expression (match p_rrule p with Some e => e | None => j_rrule j end)
            (j_timezone j) (or_time start now);
      Ok (patch_calendar_runs p (j {{ j_start := start; j_rrule := Some e; j_interval := None;
                                      j_cron := None; j_loop := true }}))
  end.

(** The anchor; [exact] is the time that was asked for, if one was. *)
Definition patch_anchor (changed : bool) (exact : option (option Z)) (reference now : Z) (j : job) : job :=
  let j :=
    if changed then
      j {{ j_start := Some match j_kind j, j_interval j with
                           | Interval, Some i => if (i =? 0)%Z then reference else (reference + i * second)%Z
                           | Rrule, _ => ceil_second reference
                           | _, _ => reference
                           end }}
    else if j_start j then j
    else j {{ j_start := Some (or_time (j_scheduled j) (or_time (j_next j) now)) }} in
  match exact with
  | Some t => if bool_decide (j_kind j = Interval) then j {{ j_start := t }} else j
  | None => j
  end.

Definition limit_reached (j : job) : bool :=
  match j_max_runs j with Some m => (m <=? j_run_count j)%Z | None => false end.

(** [not job.get("next_run_at")] *)
Definition no_time (t : option Z) : bool := match t with Some t => (t =? 0)%Z | None => true end.

(** When the job runs next. *)
Definition patch_timing (p : patch) (jid : string) (changed was_enabled : bool) (exact : option (option Z))
    (reference : Z) (j : job) : res job :=
  let j := if limit_reached j then j {{ j_enabled := false }} else j in
  j ← (match exact with
       | Some t => if j_enabled j then Ok (j {{ j_next := t; j_scheduled := t }}) else Ok j
       | None =>
           if j_enabled j
              && (bool_decide (p_next_run p = Some None) || changed
                  || bool_decide (given (p_enabled p) = Some true) || no_time (j_next j))
           then
             let j := match j_kind j, j_interval j with
                      | Interval, Some i =>
                          if negb (i =? 0)%Z && bool_decide (given (p_enabled p) = Some true) && negb was_enabled
                          then j {{ j_start := Some (reference + i * second)%Z }} else j
                      | _, _ => j
                      end in
             next ← next_job_occurrence jid j reference false;
             Ok (j {{ j_next := next; j_scheduled := next; j_enabled := negb (bool_decide (next = None)) }})
           else Ok j
       end);
  Ok (if j_enabled j then j else j {{ j_next := None; j_scheduled := None }}).

Definition clear_unavailable (j : job) : job := j {{ j_unavailable := None }}.
Definition clear_park (j : job) : job := j {{ j_park := None }}.
(** The end of every change: a new revision. *)
Definition touch (k : clock) (j : job) : job := j {{ j_updated_at := iso k; j_revision := rev k }}.

(** The job after the patch. *)
Definition updated (sess : gmap string session) (jid : string) (p : patch) (narrow route : bool) (k : clock)
    (stored : job) : res job :=
  (if narrow : bool then narrows route p stored else Ok tt);;
  p ← archived_patch sess p stored;
  j ← patch_references p stored;
  p ← patch_contract sess p j;
  let p := drop_legacy_interval p j in
  next_kind ← patch_kind p (lower (strip (or_empty (given (p_kind p))))) j;
  zone ← normalize_job_timezone (match given (p_timezone p) with Some z => Some z | None => Some (j_timezone j) end);
  changed ← schedule_changed p jid next_kind zone j (now k);
  exact ← match given (p_next_run p) with
          | Some t => Some <$> parse_time t zone
          | None => Ok None
          end;
  j ← patch_schedule p jid (j_kind j) (now k) (patch_texts p next_kind zone j);
  j ← patch_timing p jid changed (j_enabled stored) exact (now3 k) (patch_anchor changed exact (now2 k) (now k) j);
  Ok (touch k (clear_park (clear_unavailable j))).

Definition not_found : exn := HTTPError 404 "job not found".

(** The job, if it is one of the chat that is expected. *)
Definition find_job (js : gmap string job) (jid : string) (expected : option string) : option job :=
  match js !! jid with
  | Some j => match expected with
              | Some c => if String.eqb (j_session j) c then Some j else None
              | None => Some j
              end
  | None => None
  end.

Definition update (sess : gmap string session) (jid : string) (p : patch) (expected : option string)
    (narrow route : bool) (k : clock) (saved : bool) (s : store) : store * res job :=
  match (validate_job_text_bounds (field_text (p_title p)) (field_text (p_prompt p));;
         stored ← (match find_job (jobs s) jid expected with Some j => Ok j | None => Err not_found end);
         updated sess jid p narrow route k stored) with
  | Err e => (s, Err e)
  | Ok j => save_or_undo saved (<[jid := j]> (jobs s)) s j
  end.

(** ** Removal and pauses *)

Definition delete_job (jid : string) (expected : option string) (saved : bool) (s : store) : store * res bool :=
  match find_job (jobs s) jid expected with
  | Some _ => save_or_undo saved (delete jid (jobs s)) s true
  | None => match expected with
            | Some _ => (s, Err not_found)
            | None => save_or_undo saved (jobs s) s false
            end
  end.

Definition of_session (c : string) (j : job) : bool := String.eqb (j_session j) c.

Definition delete_for_session (c : string) (saved : bool) (s : store) : store * res nat :=
  save_or_undo saved (delete_where (of_session c) (jobs s)) s (count_where (of_session c) (jobs s)).

Definition clear_manual (j : job) : job :=
  j {{ j_manual := false; j_manual_requested := None; j_manual_reason := None; j_manual_event := None }}.

Definition disable (j : job) : job := j {{ j_enabled := false; j_next := None; j_scheduled := None }}.

(** A chat is archived: its jobs stop. *)
Definition paused (k : clock) (j : job) : job :=
  let j' := clear_park (clear_unavailable (disable j)) in
  touch k (if j_manual j then clear_manual j' else j').

Definition runs_in (c : string) (j : job) : bool := of_session c j && (j_enabled j || j_manual j).

(** Each job gets a revision of its own. *)
Definition pause_for_session (c : string) (unchanged : bool) (k : clock) (revs : string → string) (saved : bool) (s : store) :
    store * res nat :=
  let n := count_where (runs_in c) (jobs s) in
  if Nat.eqb n 0 && negb unchanged then (s, Ok O) else
  save saved (map_imap (λ id j, Some (if runs_in c j then paused (k {{ rev := revs id }}) j else j)) (jobs s)) s n.

(** A chat or a team that the prompt addresses is gone. *)
Definition pause_for_chat_reference_repair (jid expected : string) (k : clock) (saved : bool) (s : store) :
    store * res bool :=
  match jobs s !! jid with
  | Some j =>
      if String.eqb (j_revision j) expected
      then save saved (<[jid := touch k (clear_manual (clear_park (clear_unavailable (disable j))))]> (jobs s)) s true
      else (s, Ok false)
  | None => (s, Ok false)
  end.

(** ** Runs *)

(** The occurrence a job waits for. *)
Definition occurrence (j : job) : option Z :=
  match j_scheduled j with Some t => Some t | None => j_next j end.

Definition recurring (j : job) : bool :=
  is_calendar (j_kind j) || j_loop j
  || match j_interval j, j_max_runs j with Some _, Some m => (j_run_count j <? m)%Z | _, _ => false end.

(** A run was admitted. *)
Definition counted (manual : bool) (at_ : Z) (k : clock) (j : job) : job :=
  let j := if manual
           then clear_manual j {{ j_last_manual := Some (iso k); j_manual_error := None }}
           else j {{ j_last_scheduled := Some at_ }} in
  j {{ j_last_run_at := Some (iso k); j_run_count := (j_run_count j + 1)%Z }}.

(** The next occurrence, or none: what a run that went as planned and one that
    failed have in common. *)
Definition next_run (jid : string) (after : Z) (j : job) : job * res unit :=
  match next_job_occurrence jid j after false with
  | Err e => (j, Err e)
  | Ok next =>
      (j {{ j_next := next; j_scheduled := next;
            j_enabled := j_enabled j && negb (bool_decide (next = None)) }}, Ok tt)
  end.

(** A run by hand before the next occurrence leaves that occurrence alone. *)
Definition additive (manual : bool) (before : option Z) (completed : Z) (j : job) : bool :=
  manual && j_enabled j && match before with Some t => (completed <? t)%Z | None => false end
  && recurring j && negb (limit_reached j).

(** [advance]: the job still is the one that was admitted. *)
Definition after_run (jid : string) (manual advance : bool) (at_ completed : Z) (before : option Z) (j : job) :
    job * res unit :=
  if additive manual before completed j then (j, Ok tt)
  else if advance && j_enabled j && recurring j && negb (limit_reached j)
  then next_run jid (Z.max at_ completed) j
  else if limit_reached j || advance && (negb (j_enabled j) || negb (recurring j))
  then (disable j, Ok tt)
  else (j, Ok tt).

Definition same_revision (expected : option string) (j : job) : bool :=
  match expected with Some r => String.eqb (j_revision j) r | None => true end.

Definition admitted_time (at_ : option Z) (k : clock) (j : job) : Z :=
  match at_ with Some t => t | None => or_time (j_scheduled j) (or_time (j_next j) (now k)) end.

(** The job after a run; an exception leaves what is done so far in memory. *)
Definition ran (jid : string) (manual : bool) (expected : option string) (at_ : Z) (k : clock) (j : job) :
    job * res unit :=
  let same := bool_decide (occurrence j = Some at_) in
  match after_run jid manual (same_revision expected j || same) at_ (now k) (occurrence j) (counted manual at_ k j) with
  | (j', Err e) => (j', Err e)
  | (j', Ok _) => (touch k (clear_park (clear_unavailable j')), Ok tt)
  end.

Definition mark_ran (jid : string) (manual : bool) (expected : option string) (scheduled : option Z)
    (exact : bool) (k : clock) (saved : bool) (s : store) : store * res (option job) :=
  match jobs s !! jid with
  | None => (s, Ok None)
  | Some j =>
      let at_ := admitted_time scheduled k j in
      if exact && (negb (same_revision expected j) || manual && negb (j_manual j)
                   || negb manual && negb (bool_decide (occurrence j = Some at_)))
      then (s, Ok None)
      else
        let '(j', r) := ran jid manual expected at_ k j in
        let js := <[jid := j']> (jobs s) in
        match r with
        | Err e => (mkStore js (disk s), Err e)
        | Ok _ => save saved js s (Some j')
        end
  end.

(** ** Deferrals *)

(** [now - last >= JOB_DEFER_EVENT_MIN_SECONDS], or no such pause. *)
Definition event_due (last : option Z) (now : Z) : bool :=
  ((defer_event_min_seconds <=? 0) || (defer_event_min_seconds * second <=? now - default 0 last))%Z.

Definition retry_at (delay now : Z) : Z := (now + Z.max delay 5 * second)%Z.

Definition deferred (reason : string) (delay : Z) (p : option park) (k : clock) (j : job) : job :=
  touch k (j {{ j_park := p; j_next := Some (retry_at delay (now k)); j_last_deferred := Some (iso k, reason);
                j_defer_event := if event_due (j_defer_event j) (now k) then Some (now k) else j_defer_event j }}).

(** The marks of a job that waits for the update [id]. *)
Definition update_park (id : string) (expected_next : option Z) (k : clock) (j : job) : res park :=
  let lost := RuntimeError "scheduled update park lost its occurrence" in
  let occ := match j_scheduled j with Some t => Some t | None => expected_next end in
  let original := match j_park j with
                  | Some q => if String.eqb (park_schedule q) id then Some (park_original q) else j_next j
                  | None => j_next j
                  end in
  match occ, original with
  | Some t, Some o => Ok (mkPark id t o (rev k))
  | _, _ => Err lost
  end.

(** The job is still the one the caller saw. *)
Definition still (expected : option string) (expected_next : option Z) (j : job) : bool :=
  same_revision expected j
  && match expected_next with Some t => bool_decide (j_next j = Some t) | None => true end.

Definition defer (jid reason : string) (delay : option Z) (expected : option string) (expected_next : option Z)
    (update_id : option string) (k : clock) (saved : bool) (s : store) : store * res bool :=
  let delay := match delay with Some d => if (d =? 0)%Z then busy_retry_seconds else d | None => busy_retry_seconds end in
  match jobs s !! jid with
  | None => (s, Ok false)
  | Some j =>
      if negb (j_enabled j && still expected expected_next j) then (s, Ok false) else
      match (match update_id with
             | Some id => Some <$> update_park id expected_next k j
             | None => Ok None
             end) with
      | Err e => (s, Err e)
      | Ok p => save saved (<[jid := deferred reason delay p k j]> (jobs s)) s true
      end
  end.

(** [schedule] is the update that is pending, if one is. *)
Definition defer_for_pending_server_update (schedule : option string) (jid reason : string)
    (expected : option string) (expected_next : option Z) (k : clock) (saved : bool) (s : store) :
    store * res bool :=
  match strip (or_empty schedule) with
  | "" => (s, Ok false)
  | id => defer jid reason (Some busy_retry_seconds) expected expected_next (Some id) k saved s
  end.

Definition resumes (schedule active : option string) (j : job) : bool :=
  match j_park j with
  | Some q =>
      let id := strip (park_schedule q) in
      negb (String.eqb id "")
      && match schedule with Some x => String.eqb id x | None => true end
      && match active with Some x => negb (String.eqb id x) | None => true end
  | None => false
  end.

(** The park is of the job as it is now. *)
Definition exact_park (q : park) (j : job) : bool :=
  String.eqb (j_revision j) (park_revision q) && j_enabled j && bool_decide (j_scheduled j = Some (park_occurrence q)).

Definition resumed (k : clock) (j : job) : job :=
  match j_park j with
  | Some q => touch k (clear_park (if exact_park q j then j {{ j_next := Some (Z.min (park_original q) (now k)) }} else j))
  | None => j
  end.

Definition counts_as_resumed (schedule active : option string) (j : job) : bool :=
  resumes schedule active j && match j_park j with Some q => exact_park q j | None => false end.

Definition resume_update_parked (schedule active : option string) (k : clock) (revs : string → string)
    (saved : bool) (s : store) : store * res nat :=
  if Nat.eqb (count_where (resumes schedule active) (jobs s)) 0 then (s, Ok O) else
  save saved (map_imap (λ id j, Some (if resumes schedule active j then resumed (k {{ rev := revs id }}) j else j)) (jobs s))
    s (count_where (counts_as_resumed schedule active) (jobs s)).

Definition JOB_RUNTIME_UNAVAILABLE_MAX_DEFERS : Z := 3.

Inductive unavailable_result := UDeferred | UExhausted | UStale.
#[global] Instance unavailable_result_eq_dec : EqDecision unavailable_result.
Proof. solve_decision. Defined.

(** How often this occurrence was put off already. *)
Definition defer_count (occ : Z) (j : job) : Z :=
  let n := match j_unavailable j with Some (o, n) => if (o =? occ)%Z then n else 0 | None => 0 end%Z in
  Z.max 0 (Z.min n JOB_RUNTIME_UNAVAILABLE_MAX_DEFERS).

Definition defer_runtime_unavailable (jid reason expected : string) (expected_next : Z) (k : clock)
    (saved : bool) (s : store) : store * res unavailable_result :=
  match jobs s !! jid with
  | None => (s, Ok UStale)
  | Some j =>
      if negb (j_enabled j && still (Some expected) (Some expected_next) j) then (s, Ok UStale) else
      let occ := default expected_next (j_scheduled j) in
      let n := defer_count occ j in
      if (JOB_RUNTIME_UNAVAILABLE_MAX_DEFERS <=? n)%Z then (s, Ok UExhausted) else
      save saved (<[jid := touch k (clear_park j {{ j_unavailable := Some (occ, n + 1)%Z;
          j_next := Some (retry_at busy_retry_seconds (now k)); j_last_deferred := Some (iso k, reason) }})]> (jobs s)) s UDeferred
  end.

(** ** Runs by hand *)

(** The part of [request_manual_run] under the lock. *)
Definition request_manual_run (sess : gmap string session) (jid : string) (expected : option string) (k : clock)
    (revs : string → string) (saved : bool) (s : store) : store * res bool :=
  match find_job (jobs s) jid expected with
  | None => (s, Err not_found)
  | Some j =>
      if match sess !! j_session j with Some p => s_archived p | None => false end then
        match pause_for_session (j_session j) false k revs saved s with
        | (s', Err e) => (s', Err e)
        | (s', Ok _) => (s', Err (HTTPError 409 "unarchive this chat before running scheduled jobs"))
        end
      else if j_manual j then (s, Ok false)
      else save saved (<[jid := touch k (j {{ j_manual := true; j_manual_requested := Some (iso k);
             j_manual_reason := None; j_manual_event := None; j_manual_error := None }})]> (jobs s)) s true
  end.

Definition record_manual_run_deferred (jid reason : string) (k : clock) (saved : bool) (s : store) :
    store * res bool :=
  let reason := if String.eqb reason "" then "the chat is temporarily unavailable" else reason in
  match jobs s !! jid with
  | None => (s, Err not_found)
  | Some j =>
      if negb (j_manual j) || bool_decide (j_manual_reason j = Some reason) then (s, Ok false)
      else save saved (<[jid := touch k (j {{ j_manual_reason := Some reason;
             j_manual_event := if event_due (j_manual_event j) (now k) then Some (now k) else j_manual_event j }})]>
             (jobs s)) s true
  end.

Definition clear_failed_manual_run (jid error : string) (k : clock) (saved : bool) (s : store) :
    store * res bool :=
  match jobs s !! jid with
  | Some j =>
      if j_manual j
      then save saved (<[jid := touch k (clear_manual j {{ j_manual_error := Some (error, iso k) }})]> (jobs s)) s true
      else (s, Ok false)
  | None => (s, Ok false)
  end.

(** ** The scheduler *)

Definition is_due (now : Z) (j : job) : bool :=
  j_manual j || j_enabled j && negb (no_time (j_next j)) && match j_next j with Some t => (t <=? now)%Z | None => false end.

(** The occurrence that a run is for. *)
Definition run_time (manual : bool) (k : clock) (j : job) : Z :=
  if manual then now k else or_time (j_scheduled j) (or_time (j_next j) (now k)).

(** [assert_dispatch_revision] *)
Definition assert_dispatch_revision (jid session expected : string) (s : store) : res unit :=
  raise_if (match jobs s !! jid with
            | Some j => negb (String.eqb (j_session j) session && String.eqb (j_revision j) expected)
            | None => true
            end) (HTTPError 409 "scheduled job changed before dispatch; retry the current revision").

(** A run that failed for good counts as done: the end of the loop in
    [_scheduler_loop_until_failure]. *)
Definition fail_occurrence (jid expected : string) (k : clock) (saved : bool) (s : store) : store * res bool :=
  match jobs s !! jid with
  | None => (s, Ok false)
  | Some j =>
      if negb (String.eqb (j_revision j) expected) then (s, Ok false) else
      let at_ := or_time (j_scheduled j) (or_time (j_next j) (now k)) in
      let '(j', r) := if j_enabled j && recurring j && negb (limit_reached j)
                      then next_run jid (Z.max at_ (now k)) j else (disable j, Ok tt) in
      match r with
      | Err e => (mkStore (<[jid := j']> (jobs s)) (disk s), Err e)
      | Ok _ => save saved (<[jid := clear_park (clear_unavailable j')]> (jobs s)) s true
      end
  end.

(** ** Restarts *)

(** A [turn_started] event of a job. *)
Record started := mkStarted {
  e_session : string;
  e_job : string;
  e_revision : string;
  e_occurrence : Z;
  e_manual : bool;
}.
#[global] Instance started_eq_dec : EqDecision started.
Proof. solve_decision. Defined.

(** The event is of the job as it is. *)
Definition owns (jid : string) (j : job) (e : started) : bool :=
  String.eqb (e_session e) (j_session j) && String.eqb (e_job e) jid && String.eqb (e_revision e) (j_revision j)
  && (if e_manual e then j_manual j else bool_decide (occurrence j = Some (e_occurrence e))).

(** [durable_scheduled_job_admissions], for one job: the last event that is
    still of it. *)
Definition durable_admission (log : list started) (jid : string) (j : job) : option started :=
  if negb (String.eqb (j_session j) "") && startswith "job_rev_" (j_revision j)
     && (negb (bool_decide (occurrence j = None)) || j_manual j)
  then find (owns jid j) (reverse log) else None.

(** [reconcile_admitted_runs_after_restart]: the jobs whose run was admitted
    but not counted, one after the other. *)
Fixpoint reconcile (admitted : list (string * started)) (k : string → clock) (saved : bool) (s : store) :
    store * res nat :=
  match admitted with
  | [] => (s, Ok O)
  | (jid, e) :: l =>
      match mark_ran jid (e_manual e) (Some (e_revision e)) (Some (e_occurrence e)) true (k jid) saved s with
      | (s', Ok o) =>
          match reconcile l k saved s' with
          | (s'', Ok n) => (s'', Ok (if o then S n else n))
          | r => r
          end
      | (s', Err e) => (s', Err e)
      end
  end.

Definition admissions (log : list started) (js : gmap string job) : list (string * started) :=
  merge_sort (by_key fst String.le) (omap (λ '(jid, j), (jid,.) <$> durable_admission log jid j) (map_to_list js)).

Definition reconcile_admitted_runs (log : list started) (k : string → clock) (saved : bool) (s : store) :
    store * res nat :=
  reconcile (admissions log (jobs s)) k saved s.

(** [load], of a file that this version of the server wrote: the jobs of
    archived chats stop. *)
Definition loaded (sess : gmap string session) (k : clock) (j : job) : job :=
  match sess !! j_session j with
  | Some p => if s_archived p && (j_enabled j || j_manual j)
              then touch k (clear_park (clear_manual (disable j))) else j
  | None => j
  end.

Definition load (sess : gmap string session) (k : clock) (revs : string → string) (saved : bool) (s : store) :
    store * res unit :=
  let js := map_imap (λ id j, Some (loaded sess (k {{ rev := revs id }}) j)) (disk s) in
  if bool_decide (js = disk s) then (mkStore js (disk s), Ok tt) else save saved js s tt.
End registry.
