(* ===== verification/JobSpec.v ===== *)
(** * Scheduled jobs: what always holds of the registry

    The operations as one type, and the invariant of the jobs. *)
From S2P Require Import Prelude PyValues JobRules Jobs.

Open Scope string_scope.

Section spec.
Context {host : JobHost}.

(** Every call that changes the jobs.  The scheduler defers a job with the time
    it was due at: a call without that time has an old revision and does
    nothing. *)
Inductive job_op :=
| OCreate (sess sess' : gmap string session) (q : create_request) (jid : string) (k : clock)
| OUpdate (sess : gmap string session) (jid : string) (p : patch) (expected : option string) (narrow route : bool) (k : clock)
| ODelete (jid : string) (expected : option string)
| ODeleteSession (c : string)
| OPause (c : string) (unchanged : bool) (k : clock) (revs : string → string)
| ORepair (jid expected : string) (k : clock)
| ORan (jid : string) (manual : bool) (expected : option string) (scheduled : option Z) (exact : bool) (k : clock)
| ODefer (jid reason : string) (delay : option Z) (expected : option string) (expected_next : Z) (k : clock)
| OParkUpdate (schedule : option string) (jid reason : string) (expected : option string) (expected_next : Z) (k : clock)
| OResume (schedule active : option string) (k : clock) (revs : string → string)
| OUnavailable (jid reason expected : string) (expected_next : Z) (k : clock)
| ORequest (sess : gmap string session) (jid : string) (expected : option string) (k : clock) (revs : string → string)
| OManualDeferred (jid reason : string) (k : clock)
| OManualFailed (jid error : string) (k : clock)
| OFail (jid expected : string) (k : clock)
| OLoad (sess : gmap string session) (k : clock) (revs : string → string).

Definition apply_op (o : job_op) (saved : bool) (s : store) : store :=
  match o with
  | OCreate sess sess' q jid k => (create sess sess' q jid k saved s).1
  | OUpdate sess jid p e n r k => (update sess jid p e n r k saved s).1
  | ODelete jid e => (delete_job jid e saved s).1
  | ODeleteSession c => (delete_for_session c saved s).1
  | OPause c u k revs => (pause_for_session c u k revs saved s).1
  | ORepair jid e k => (pause_for_chat_reference_repair jid e k saved s).1
  | ORan jid m e t x k => (mark_ran jid m e t x k saved s).1
  | ODefer jid r d e t k => (defer jid r d e (Some t) None k saved s).1
  | OParkUpdate id jid r e t k => (defer_for_pending_server_update id jid r e (Some t) k saved s).1
  | OResume x y k revs => (resume_update_parked x y k revs saved s).1
  | OUnavailable jid r e t k => (defer_runtime_unavailable jid r e t k saved s).1
  | ORequest sess jid e k revs => (request_manual_run sess jid e k revs saved s).1
  | OManualDeferred jid r k => (record_manual_run_deferred jid r k saved s).1
  | OManualFailed jid e k => (clear_failed_manual_run jid e k saved s).1
  | OFail jid e k => (fail_occurrence jid e k saved s).1
  | OLoad sess k revs => (load sess k revs saved s).1
  end.

(** ** The invariant of a job *)

(** The fields of a schedule go with its kind. *)
Definition schedule_ok (j : job) : Prop :=
  match j_kind j with
  | Interval => j_cron j = None ∧ j_rrule j = None
  | Cron => is_Some (j_cron j) ∧ j_interval j = None ∧ j_rrule j = None ∧ j_loop j = true
  | Rrule => is_Some (j_rrule j) ∧ j_interval j = None ∧ j_cron j = None ∧ j_loop j = true
  end.

Record limits_ok (j : job) : Prop := {
  ok_schedule : schedule_ok j;
  ok_interval : ∀ i, j_interval j = Some i → (0 < i ≤ MAX_JOB_INTERVAL_SECONDS)%Z;
  ok_max : ∀ m, j_max_runs j = Some m → (1 ≤ m)%Z;
  ok_count : (0 ≤ j_run_count j)%Z;
}.

(** An interval job runs at its anchor and whole intervals after it. *)
Definition grid_ok (j : job) : Prop :=
  ∀ i t, j_kind j = Interval → j_interval j = Some i → j_scheduled j = Some t →
    ∃ a, j_start j = Some a ∧ on_grid a i t.

Definition side_ok (j : job) : Prop :=
  (∀ o n, j_unavailable j = Some (o, n) → (1 ≤ n ≤ JOB_RUNTIME_UNAVAILABLE_MAX_DEFERS)%Z) ∧
  (j_manual j = false → j_manual_requested j = None ∧ j_manual_reason j = None ∧ j_manual_event j = None).

Record timing_ok (j : job) : Prop := {
  ok_off : j_enabled j = false → j_next j = None;
  ok_both : j_next j = None ↔ j_scheduled j = None;
  ok_limit : j_enabled j = true → limit_reached j = false;
  ok_grid : grid_ok j;
}.

Record job_wf (j : job) : Prop := {
  wf_limits : limits_ok j;
  wf_timing : timing_ok j;
  wf_side : side_ok j;
}.

Definition store_wf (s : store) : Prop :=
  (∀ jid j, jobs s !! jid = Some j → job_wf j) ∧ (∀ jid j, disk s !! jid = Some j → job_wf j).

(** *** Parts *)

Lemma grid_next jid j a t i u : limits_ok j → (j_start j = None → j_scheduled j = None ∧ j_next j = None) →
  next_job_occurrence jid j a false = Ok t →
  j_kind j = Interval → j_interval j = Some i → t = Some u → ∃ b, j_start j = Some b ∧ on_grid b i u.
Proof.
  intros [_ Hi _ _] Hs H Hk Hint ->. destruct (j_start j) as [b|] eqn:Hb.
  - exists b. split; [done|].
    eapply next_occurrence_interval in H as [? _]; [done..|by rewrite Hb|by apply Hi].
  - destruct (Hs eq_refl) as [E1 E2]. unfold next_job_occurrence in H. by rewrite Hk, Hb, E1, E2 in H.
Qed.

Lemma no_start j i : timing_ok j → j_kind j = Interval → j_interval j = Some i →
  j_start j = None → j_scheduled j = None ∧ j_next j = None.
Proof.
  intros [_ Hb _ Hg] Hk Hi Hs. destruct (j_scheduled j) as [t|] eqn:E; [|split; [done|by apply Hb]].
  destruct (Hg i t Hk Hi E) as (a & Ha & _). congruence.
Qed.

(** A new occurrence, computed from a job whose limit is not reached. *)
Lemma next_timing jid j a t :
  limits_ok j → limit_reached j = false →
  (∀ i, j_kind j = Interval → j_interval j = Some i → j_start j = None → j_scheduled j = None ∧ j_next j = None) →
  next_job_occurrence jid j a false = Ok t →
  timing_ok (j {{ j_next := t; j_scheduled := t; j_enabled := negb (bool_decide (t = None)) }}).
Proof.
  intros HL Hl Hs H. split; cbn; [|done|done|].
  - intros Hb%negb_false_iff%bool_decide_eq_true. done.
  - intros i u Hk Hi Hu. cbn in Hk, Hi, Hu. eapply grid_next in H; eauto.
Qed.

Lemma disable_timing j : timing_ok (disable j).
Proof. split; [done|done|done|]. intros i t _ _ [=]. Qed.

(** The state of a job that something other than its timing changed. *)
Lemma timing_same j j' : timing_ok j →
  j_enabled j' = j_enabled j → j_next j' = j_next j → j_scheduled j' = j_scheduled j →
  j_max_runs j' = j_max_runs j → j_run_count j' = j_run_count j → j_kind j' = j_kind j →
  j_interval j' = j_interval j → j_start j' = j_start j → timing_ok j'.
Proof.
  intros [H1 H2 H3 H4] E1 E2 E3 E4 E5 E6 E7 E8. unfold limit_reached, grid_ok in *.
  split; unfold limit_reached, grid_ok; by rewrite ?E1, ?E2, ?E3, ?E4, ?E5, ?E6, ?E7, ?E8.
Qed.

Lemma limits_same j j' : limits_ok j →
  j_kind j' = j_kind j → j_cron j' = j_cron j → j_rrule j' = j_rrule j → j_loop j' = j_loop j →
  j_interval j' = j_interval j → j_max_runs j' = j_max_runs j → (j_run_count j ≤ j_run_count j')%Z → limits_ok j'.
Proof.
  intros [H1 H2 H3 H4] E1 E2 E3 E4 E5 E6 E7. split; unfold schedule_ok in *;
    rewrite ?E1, ?E2, ?E3, ?E4, ?E5, ?E6; try done. lia.
Qed.

(** *** Runs *)

Lemma next_run_timing jid a j j' r : next_run jid a j = (j', r) → limits_ok j → timing_ok j →
  j_enabled j = true → limit_reached j = false → timing_ok j' ∧ limits_ok j' ∧ side_ok j = side_ok j'.
Proof.
  unfold next_run. intros H HL HT He Hl. destruct (next_job_occurrence jid j a false) as [t|e] eqn:E.
  - injection H as <- <-. rewrite He. split_and!; [|by eapply limits_same|done].
    eapply next_timing; [done..| |done]. intros i. by apply no_start.
  - by injection H as <- <-.
Qed.

Lemma counted_ok m at_ k j : job_wf j →
  limits_ok (counted m at_ k j) ∧ side_ok (counted m at_ k j)
  ∧ (limit_reached (counted m at_ k j) = false → timing_ok (counted m at_ k j)).
Proof.
  intros [HL [T1 T2 T3 T4] [S1 S2]]. split_and!.
  - eapply limits_same; [done|..]; unfold counted, clear_manual; destruct m; try done; apply (Z.le_succ_diag_r (j_run_count j)).
  - split; unfold counted, clear_manual; destruct m; cbn; auto.
  - intros Hl. split; [| |done|]; unfold counted, clear_manual; destruct m; done.
Qed.

Lemma touch_wf k j : job_wf j → job_wf (touch k (clear_park (clear_unavailable j))).
Proof.
  intros [HL HT [S1 S2]]. split; [by eapply limits_same|by eapply timing_same|]. by split.
Qed.

Lemma disable_wf j : limits_ok j → side_ok j → job_wf (disable j).
Proof. intros HL HS. split; [by eapply limits_same|apply disable_timing|done]. Qed.

Lemma after_run_wf jid m adv at_ t before j j' r :
  after_run jid m adv at_ t before j = (j', r) → limits_ok j → side_ok j →
  (limit_reached j = false → timing_ok j) → job_wf j'.
Proof.
  unfold after_run, additive. intros H HL HS HT.
  destruct (limit_reached j) eqn:El; cbn [negb] in H.
  - rewrite !andb_false_r in H. cbn [orb] in H. injection H as <- <-. by apply disable_wf.
  - specialize (HT eq_refl). rewrite !andb_true_r in H. cbn [orb] in H.
    destruct (m && j_enabled j && _ && recurring j); [by injection H as <- <-|].
    destruct (adv && j_enabled j && recurring j) eqn:E2.
    + apply andb_true_iff in E2 as [[_ He]%andb_true_iff _].
      eapply next_run_timing in H as (? & ? & E); [|done..]. split; [done..|]. by rewrite <-E.
    + destruct (adv && (_ || _)); injection H as <- <-; [by apply disable_wf|done].
Qed.

Lemma ran_wf jid m e at_ k j j' r : ran jid m e at_ k j = (j', r) → job_wf j → job_wf j'.
Proof.
  unfold ran. intros H Hj. destruct (counted_ok m at_ k j Hj) as (HL & HS & HT).
  destruct (after_run _ _ _ _ _ _ _) as [j1 r1] eqn:E. apply after_run_wf in E; [|done..].
  destruct r1; injection H as <- <-; [by apply touch_wf|done].
Qed.

(** *** Tables *)

Lemma save_wf {A} saved (js : gmap string job) s (a : A) : (∀ jid j, js !! jid = Some j → job_wf j) → store_wf s →
  store_wf (save saved js s a).1.
Proof. intros Hj [H1 H2]. unfold save. by destruct saved. Qed.

Lemma save_or_undo_wf {A} saved (js : gmap string job) s (a : A) : (∀ jid j, js !! jid = Some j → job_wf j) → store_wf s →
  store_wf (save_or_undo saved js s a).1.
Proof. intros Hj [H1 H2]. unfold save_or_undo. by destruct saved. Qed.

Lemma jobs_insert_wf jid j (js : gmap string job) : job_wf j → (∀ jid j, js !! jid = Some j → job_wf j) →
  ∀ i x, <[jid := j]> js !! i = Some x → job_wf x.
Proof. intros Hj H i x [[_ <-]|[_ Hx]]%lookup_insert_Some; [done|by eapply H]. Qed.

Lemma imap_wf (f : string → job → job) (js : gmap string job) : (∀ i j, js !! i = Some j → job_wf j → job_wf (f i j)) →
  (∀ i j, js !! i = Some j → job_wf j) → ∀ i x, map_imap (λ i j, Some (f i j)) js !! i = Some x → job_wf x.
Proof.
  intros Hf H i x Hx. rewrite map_lookup_imap in Hx. apply bind_Some in Hx as (j & Hj & [= <-]).
  apply Hf; [done|by eapply H].
Qed.

Lemma find_job_Some js jid e j : find_job js jid e = Some j → js !! jid = Some j.
Proof. unfold find_job. destruct (js !! jid); [|done]. destruct e; [by destruct (String.eqb _ _)|done]. Qed.

(** *** New jobs *)

Lemma new_max_ok kind q m : new_max_runs kind q = Some m → (1 ≤ m)%Z.
Proof.
  unfold new_max_runs. destruct (is_calendar kind).
  - destruct (q_max_runs q); [|done]. intros [= <-]. lia.
  - destruct (q_loop q); [done|]. intros [= <-]. lia.
Qed.

Lemma interval_ok v i : normalize_interval_seconds v = Ok (Some i) → (0 < i ≤ MAX_JOB_INTERVAL_SECONDS)%Z.
Proof. destruct v as [z|]; [|done]. cbn. intros H. inv_res. lia. Qed.

Lemma fmap_Some_Ok {A B} (f : A → B) (r : res A) b : f <$> r = Ok b → ∃ a, r = Ok a ∧ b = f a.
Proof. destruct r; cbn; [intros [= <-]; eauto|done]. Qed.

(** What the checks of a request give. *)
Lemma new_schedule_ok kind q (zone jid : string) (start : Z) interval cron rrule :
  (if bool_decide (kind = Interval) then normalize_interval_seconds (q_interval q) else Ok None) = Ok interval →
  (if bool_decide (kind = Cron) then Some <$> normalize_cron_expression (q_cron q) jid else Ok None) = Ok cron →
  (if bool_decide (kind = Rrule) then Some <$> normalize_rrule_expression (q_rrule q) zone start else Ok None)
    = Ok rrule →
  (∀ i, interval = Some i → (0 < i ≤ MAX_JOB_INTERVAL_SECONDS)%Z) ∧
  match kind with
  | Interval => cron = None ∧ rrule = None
  | Cron => is_Some cron ∧ interval = None ∧ rrule = None
  | Rrule => is_Some rrule ∧ interval = None ∧ cron = None
  end.
Proof.
  intros Hi Hc Hr. destruct kind; cbv -[normalize_interval_seconds normalize_cron_expression
    normalize_rrule_expression fmap MAX_JOB_INTERVAL_SECONDS] in Hi, Hc, Hr.
  - split; [|split; congruence]. intros i ->. by apply interval_ok in Hi.
  - apply fmap_Some_Ok in Hc as (e & _ & ->). simplify_eq. split; [done|eauto].
  - apply fmap_Some_Ok in Hr as (e & _ & ->). simplify_eq. split; [done|eauto].
Qed.

Lemma new_job_wf sess q jid k j : new_job sess q jid k = Ok j → job_wf j.
Proof.
  unfold new_job. intros H. inv_res.
  match goal with x : job_context * option string |- _ => destruct x as [mode backend] end. inv_res.
  match goal with
  | Hi : (if _ then normalize_interval_seconds _ else _) = _,
    Hc : (if _ then _ <$> normalize_cron_expression _ _ else _) = _,
    Hr : (if _ then _ <$> normalize_rrule_expression _ _ _ else _) = _ |- _ =>
      destruct (new_schedule_ok _ _ _ _ _ _ _ _ Hi Hc Hr) as [HI HS]; clear Hi Hc Hr end.
  match goal with H : context [parse_time _ _] |- _ => clear H end.
  match type of H with (if negb (q_enabled q) then Ok ?J else _) = _ => set (j0 := J) in * end.
  assert (limits_ok j0) as HL.
  { split; cbn; [|done|by eapply new_max_ok|done]. unfold schedule_ok, j0. cbn. match goal with x : schedule_kind |- _ => destruct x end; naive_solver. }
  assert (side_ok j0) as HJ by (by split).
  destruct (q_enabled q) eqn:He; cbn [negb] in H.
  - apply res_bind_Ok in H as (next & Hn & H). apply Ok_inj in H as <-.
    split; [by eapply limits_same| |done]. split.
    + cbn. intros Hb%negb_false_iff%andb_true_iff. destruct Hb as [Hb _]. by apply bool_decide_eq_true in Hb.
    + done.
    + intros _. unfold limit_reached. cbn. destruct (new_max_runs _ q) as [m|] eqn:Em; [|done].
      apply new_max_ok in Em. apply Z.leb_gt. lia.
    + intros i t Hk Hi Ht. cbn in Hk, Hi, Ht. subst. exists (new_start Interval x6 (Some i) (now k)).
      split; [done|]. exists 0%Z. destruct x6; cbn in Hn |- *; simplify_eq; lia.
  - apply Ok_inj in H as <-. split; [done| |done]. by split.
Qed.

(** *** Patches *)

(** What a patch does not touch before the timing. *)
Record same_run (j j' : job) : Prop := {
  sr_enabled : j_enabled j' = j_enabled j;
  sr_next : j_next j' = j_next j;
  sr_scheduled : j_scheduled j' = j_scheduled j;
  sr_count : j_run_count j' = j_run_count j;
  sr_manual : j_manual j' = j_manual j;
  sr_marks : j_manual_requested j' = j_manual_requested j ∧ j_manual_reason j' = j_manual_reason j
             ∧ j_manual_event j' = j_manual_event j;
  sr_unavailable : j_unavailable j' = j_unavailable j;
}.

Lemma patch_runs_spec p c j : (∀ m, j_max_runs j = Some m → (1 ≤ m)%Z) → (0 ≤ j_run_count j)%Z →
  (∀ m, j_max_runs (patch_runs p c j) = Some m → (1 ≤ m)%Z) ∧ same_run j (patch_runs p c j) ∧
  j_kind (patch_runs p c j) = j_kind j ∧ j_interval (patch_runs p c j) = j_interval j ∧
  j_cron (patch_runs p c j) = j_cron j ∧ j_rrule (patch_runs p c j) = j_rrule j ∧
  j_start (patch_runs p c j) = j_start j.
Proof.
  intros Hm Hc. destruct j. unfold patch_runs. cbn in *.
  repeat case_match; (split; [|by split]); cbn in *; try done; intros m; try (intros [= <-]; lia); auto.
Qed.

Lemma patch_calendar_runs_spec p j : (∀ m, j_max_runs j = Some m → (1 ≤ m)%Z) →
  (∀ m, j_max_runs (patch_calendar_runs p j) = Some m → (1 ≤ m)%Z) ∧ same_run j (patch_calendar_runs p j) ∧
  j_kind (patch_calendar_runs p j) = j_kind j ∧ j_interval (patch_calendar_runs p j) = j_interval j ∧
  j_cron (patch_calendar_runs p j) = j_cron j ∧ j_rrule (patch_calendar_runs p j) = j_rrule j ∧
  j_loop (patch_calendar_runs p j) = j_loop j ∧ j_start (patch_calendar_runs p j) = j_start j.
Proof.
  intros Hm. unfold patch_calendar_runs. destruct (p_max_runs p) as [o|]; [|by split].
  split; [|by split]. cbn. destruct o; cbn; [intros m [= <-]; lia|done].
Qed.

Lemma patch_schedule_spec p jid cur now j j' : patch_schedule p jid cur now j = Ok j' →
  (∀ m, j_max_runs j = Some m → (1 ≤ m)%Z) → (0 ≤ j_run_count j)%Z →
  limits_ok j' ∧ same_run j j' ∧ j_kind j' = j_kind j ∧
  (j_kind j = Interval → j_start j' = j_start j ∧
     normalize_interval_seconds (match p_interval p with Some i => i | None => j_interval j end) = Ok (j_interval j')).
Proof.
  destruct j. unfold patch_schedule. cbn in *. intros H Hm Hc. destruct j_kind; apply res_bind_Ok in H as (x & Hx & H);
    apply Ok_inj in H as <-.
  - match goal with |- context [patch_runs p ?c ?J] => set (j1 := J) end.
    destruct (patch_runs_spec p (is_calendar cur) j1)
      as (H1 & [] & H3 & H4 & H5 & H6 & H7); [done..|]. rewrite H3, H4, H7. cbn in *. split_and!; try done.
    split; [|intros i; rewrite H4; intros ->; by eapply interval_ok|done|by rewrite sr_count0].
    unfold schedule_ok. rewrite H3, H5, H6. done.
  - match goal with |- context [patch_calendar_runs p ?J] => set (j1 := J) end.
    destruct (patch_calendar_runs_spec p j1)
      as (H1 & [] & H3 & H4 & H5 & H6 & H7 & H8); [done|]. rewrite H3. cbn in *. split_and!; try done.
    split; [|intros i; by rewrite H4|done|by rewrite sr_count0].
    unfold schedule_ok. rewrite H3, H4, H5, H6, H7. eauto.
  - match goal with |- context [patch_calendar_runs p ?J] => set (j1 := J) end.
    destruct (patch_calendar_runs_spec p j1) as (H1 & [] & H3 & H4 & H5 & H6 & H7 & H8); [done|].
    rewrite H3. cbn in *. split_and!; try done.
    split; [|intros i; by rewrite H4|done|by rewrite sr_count0].
    unfold schedule_ok. rewrite H3, H4, H5, H6, H7. eauto.
Qed.

Lemma schedule_unchanged p jid nk zone j now : schedule_changed p jid nk zone j now = Ok false →
  nk = j_kind j ∧
  (nk = Interval → ∀ i, normalize_interval_seconds (match p_interval p with Some i => i | None => j_interval j end) = Ok (Some i) →
     (∀ k, j_interval j = Some k → normalize_interval_seconds (Some k) = Ok (Some k)) → j_interval j = Some i).
Proof.
  unfold schedule_changed. intros H. apply res_bind_Ok in H as (c & Hc & H). case_bool_decide as Hk.
  - split; [done|]. intros -> i Hi Hn. destruct (p_interval p) as [[k|]|] eqn:Hp; cbn [given] in H.
    + destruct c; [done|]. apply res_bind_Ok in H as (n & Hn' & H). apply Ok_inj, negb_false_iff, bool_decide_eq_true in H.
      rewrite Hi in Hn'. by simplify_eq.
    + done.
    + destruct (j_interval j) as [k|]; [|done]. rewrite Hn in Hi by done. by simplify_eq.
  - exfalso. apply Ok_inj in Hc as <-. destruct nk; [destruct (given (p_interval p))|destruct (given_text _)..]; done.
Qed.

Lemma anchor_fields changed exact r n j :
  let j' := patch_anchor changed exact r n j in
  same_run j j' ∧ (limits_ok j → limits_ok j') ∧ side_ok j = side_ok j' ∧
  j_kind j' = j_kind j ∧ j_interval j' = j_interval j ∧ limit_reached j' = limit_reached j ∧
  match exact with
  | Some t => j_kind j = Interval → j_start j' = t
  | None => is_Some (j_start j') ∧ (changed = false → is_Some (j_start j) → j_start j' = j_start j)
  end.
Proof.
  destruct j. unfold patch_anchor. cbn. destruct changed, exact, j_start; cbn; repeat case_bool_decide; split_and!;
    try done; eauto; intros HL; by eapply limits_same.
Qed.

(** A job whose timing is right if it is enabled at all. *)
Record ready (j : job) : Prop := {
  re_limits : limits_ok j;
  re_side : side_ok j;
  re_both : j_next j = None ↔ j_scheduled j = None;
  re_enabled : j_enabled j = true → limit_reached j = false ∧ grid_ok j;
}.

Lemma settle_wf j : ready j → job_wf (if j_enabled j then j else j {{ j_next := None; j_scheduled := None }}).
Proof.
  intros [HL HS HB HE]. destruct (j_enabled j) eqn:E.
  - destruct (HE eq_refl). split; [done| |done]. split; [congruence|done..].
  - split; [by eapply limits_same| |done]. split; [done|done| |by intros i t _ _ [=]].
    intros Ht. change (j_enabled j = true) in Ht. congruence.
Qed.

(** A new occurrence. *)
Lemma ready_next jid j a t : limits_ok j → side_ok j → limit_reached j = false → is_Some (j_start j) →
  next_job_occurrence jid j a false = Ok t →
  ready (j {{ j_next := t; j_scheduled := t; j_enabled := negb (bool_decide (t = None)) }}).
Proof.
  intros HL HS Hl [b Hb] H. split; [by eapply limits_same|done|done|]. intros _. split; [done|].
  intros i u Hk Hi Hu. eapply grid_next in H; eauto. congruence.
Qed.

(** A job that is enabled again starts anew. *)
Lemma restart_start (b : Z → bool) t j : is_Some (j_start j) →
  let j' := match j_kind j, j_interval j with
            | Interval, Some i => if b i then j {{ j_start := Some (t i) }} else j
            | _, _ => j
            end in
  is_Some (j_start j') ∧ (limits_ok j → limits_ok j') ∧ side_ok j = side_ok j' ∧ limit_reached j' = limit_reached j.
Proof.
  intros Hs. destruct (j_kind j); [destruct (j_interval j) as [i|]; [destruct (b i)|]|..]; cbn; split_and!; try done; eauto.
  intros HL. by eapply limits_same.
Qed.

Lemma patch_timing_wf p jid changed was exact r2 now r3 j j' :
  patch_timing p jid changed was exact r3 (patch_anchor changed exact r2 now j) = Ok j' →
  limits_ok j → side_ok j → (j_next j = None ↔ j_scheduled j = None) → (changed = false → grid_ok j) → job_wf j'.
Proof.
  intros H HL HS HB HG.
  destruct (anchor_fields changed exact r2 now j) as ([] & E2 & E3 & E4 & E5 & E6 & E7).
  specialize (E2 HL). rewrite E3 in HS. set (j3 := patch_anchor changed exact r2 now j) in *.
  unfold patch_timing in H. set (j4 := if limit_reached j3 then j3 {{ j_enabled := false }} else j3) in H.
  assert (limits_ok j4 ∧ side_ok j4 ∧ j_kind j4 = j_kind j3 ∧ j_interval j4 = j_interval j3 ∧
    j_start j4 = j_start j3 ∧ j_next j4 = j_next j3 ∧ j_scheduled j4 = j_scheduled j3 ∧
    (j_enabled j4 = true → limit_reached j4 = false)) as (HL4 & HS4 & K1 & K2 & K3 & K4 & K5 & K6).
  { unfold j4. destruct (limit_reached j3) eqn:El; split_and!; try done. by eapply limits_same. }
  clearbody j4. apply res_bind_Ok in H as (j5 & H5 & H). apply Ok_inj in H as <-. apply settle_wf.
  assert (j_enabled j4 = false → ready j4) as Hoff.
  { intros He. split; [done|done|congruence|congruence]. }
  destruct exact as [t|].
  - destruct (j_enabled j4) eqn:He; [|apply Ok_inj in H5 as <-; by apply Hoff].
    apply Ok_inj in H5 as <-. split; [by eapply limits_same|done|done|]. intros _. split; [by apply K6|].
    intros i u Hk Hi Hu. change (j_kind j4 = Interval) in Hk. change (t = Some u) in Hu. subst t. exists u.
    split; [change (j_start j4 = Some u); rewrite K3; apply E7; congruence|]. exists 0%Z. lia.
  - destruct E7 as [Es Eu]. destruct (j_enabled j4 && _) eqn:Hc.
    + apply andb_true_iff in Hc as [He _]. apply res_bind_Ok in H5 as (next & Hn & H5). apply Ok_inj in H5 as <-.
      destruct (restart_start (λ i, negb (i =? 0) && bool_decide (given (p_enabled p) = Some true) && negb was)%Z
        (λ i, r3 + i * second)%Z j4) as (R1 & R2 & R3 & R4); [by rewrite K3|].
      eapply ready_next; [by apply R2|by rewrite <-R3|rewrite R4; by apply K6|done..].
    + apply Ok_inj in H5 as <-. destruct (j_enabled j4) eqn:He; [|by apply Hoff].
      apply orb_false_iff in Hc as [[[_ Hch]%orb_false_iff _]%orb_false_iff Hnt].
      split; [done|done|congruence|]. intros _. split; [by apply K6|]. intros i t Hk Hi Ht.
      destruct (HG Hch i t) as (a & Ha & Hg); [congruence..|]. exists a. split; [|done].
      rewrite K3, Eu; [done..|]. by exists a.
Qed.

Lemma interval_again i : (0 < i ≤ MAX_JOB_INTERVAL_SECONDS)%Z → normalize_interval_seconds (Some i) = Ok (Some i).
Proof.
  intros [H1 H2]. unfold normalize_interval_seconds.
  rewrite (proj2 (Z.leb_gt i 0)), (proj2 (Z.ltb_ge MAX_JOB_INTERVAL_SECONDS i)) by lia. done.
Qed.

Lemma references_same p j j' : patch_references p j = Ok j' →
  (limits_ok j → limits_ok j') ∧ (timing_ok j → timing_ok j') ∧ (side_ok j → side_ok j').
Proof.
  unfold patch_references. intros H. inv_res. split_and!; [|intros HT; by eapply timing_same|done].
  intros HL. by eapply limits_same.
Qed.

Lemma updated_wf sess jid p n r k j j' : updated sess jid p n r k j = Ok j' → job_wf j → job_wf j'.
Proof.
  unfold updated. intros H [HL HT HS].
  apply res_bind_Ok in H as (? & _ & H). apply res_bind_Ok in H as (p1 & _ & H).
  apply res_bind_Ok in H as (j1 & H1 & H). apply references_same in H1 as (L1 & T1 & S1).
  specialize (L1 HL). specialize (T1 HT). specialize (S1 HS). clear HL HS.
  apply res_bind_Ok in H as (p2 & _ & H).
  set (p3 := drop_legacy_interval p2 j1) in *. apply res_bind_Ok in H as (nk & _ & H).
  apply res_bind_Ok in H as (zone & _ & H). apply res_bind_Ok in H as (changed & Hch & H).
  apply res_bind_Ok in H as (exact & _ & H). apply res_bind_Ok in H as (j2 & H2 & H).
  apply res_bind_Ok in H as (j3 & H3 & H). apply Ok_inj in H as <-. apply touch_wf.
  apply patch_schedule_spec in H2 as (L2 & [] & K2 & G2); [|apply (ok_max _ L1)|apply (ok_count _ L1)].
  eapply patch_timing_wf; [exact H3|done| | |].
  - destruct S1 as [Su Sm]. split; [by rewrite sr_unavailable0|].
    destruct sr_marks0 as (-> & -> & ->). by rewrite sr_manual0.
  - rewrite sr_next0, sr_scheduled0. apply T1.
  - intros ->. apply schedule_unchanged in Hch as [-> Hi]. intros i t Hk Hint Ht.
    rewrite K2 in Hk. change (j_kind j1 = Interval) in Hk. destruct (G2 Hk) as [Gs Gi].
    rewrite Gs. rewrite Hint in Gi. rewrite sr_scheduled0 in Ht. apply (ok_grid _ T1 i t Hk).
    + apply Hi; [done|exact Gi|]. intros m Hm. apply interval_again. by apply (ok_interval _ L1).
    + done.
Qed.

(** *** Every operation *)

Lemma row_wf jid j s : store_wf s → jobs s !! jid = Some j → job_wf j.
Proof. intros [H _]. apply H. Qed.

Ltac keep := match goal with HS : store_wf ?s |- store_wf (fst (?s, _)) => exact HS end.

Lemma create_wf sess sess' q jid k saved s : store_wf s → store_wf (create sess sess' q jid k saved s).1.
Proof.
  intros HS. unfold create. destruct (_ ≫= _) as [j|e] eqn:E; [|keep]. inv_res.
  match goal with H : new_job _ _ _ _ = _ |- _ => apply new_job_wf in H as Hj end.
  destruct HS as [H1 H2]. destruct saved; split; cbn; [by apply jobs_insert_wf..| |done].
  intros i x [_ Hx]%lookup_delete_Some. by eapply H1.
Qed.

Lemma pause_wf c u k revs saved s : store_wf s → store_wf (pause_for_session c u k revs saved s).1.
Proof.
  intros HS. unfold pause_for_session. destruct (_ && _); [keep|]. apply save_wf; [|done].
  apply imap_wf; [|apply HS]. intros i j _ [HL HT [S1 S2]]. destruct (runs_in c j); [|done].
  unfold paused. split.
  - eapply limits_same; [done|..]; by destruct (j_manual j).
  - split; destruct (j_manual j); try done; by intros ? ? _ _ [=].
  - split; destruct (j_manual j) eqn:E; cbn; auto; intros Hm; congruence.
Qed.

Lemma deferred_wf reason d p k j : job_wf j → j_enabled j = true → j_next j ≠ None → job_wf (deferred reason d p k j).
Proof.
  intros [HL HT HS] He Hn. split; [by eapply limits_same| |done]. destruct HT as [H1 H2 H3 H4].
  split; [|split; [done|intros E; by apply H2 in E]|done|done].
  intros E. change (j_enabled j = false) in E. congruence.
Qed.

Lemma defer_wf jid reason d e t u k saved s : store_wf s → store_wf (defer jid reason d e (Some t) u k saved s).1.
Proof.
  intros HS. unfold defer. destruct (jobs s !! jid) as [j|] eqn:Hj; [|keep].
  destruct (negb _) eqn:E; [keep|]. apply negb_false_iff, andb_true_iff in E as [He E].
  unfold still in E. apply andb_true_iff in E as [_ E]. apply bool_decide_eq_true in E.
  destruct (match u with Some id => _ | None => _ end); [|keep]. apply save_wf; [|done].
  apply jobs_insert_wf; [|apply HS]. apply deferred_wf; [by eapply row_wf|done|congruence].
Qed.

Lemma resumed_wf k j : job_wf j → job_wf (resumed k j).
Proof.
  intros [HL HT HS]. unfold resumed. destruct (j_park j) as [q|]; [|done].
  destruct (exact_park q j) eqn:E; [|split; [by eapply limits_same|by eapply timing_same|done]].
  unfold exact_park in E. apply andb_true_iff in E as [[_ He]%andb_true_iff Ht]. apply bool_decide_eq_true in Ht.
  destruct HT as [H1 H2 H3 H4]. split; [by eapply limits_same| |done].
  split; [|split; [done|intros E]|done|done].
  - intros E. change (j_enabled j = false) in E. congruence.
  - change (j_scheduled j = None) in E. congruence.
Qed.

Lemma unavailable_wf jid reason e t k saved s : store_wf s →
  store_wf (defer_runtime_unavailable jid reason e t k saved s).1.
Proof.
  intros HS. unfold defer_runtime_unavailable. destruct (jobs s !! jid) as [j|] eqn:Hj; [|keep].
  destruct (negb _) eqn:E; [keep|]. apply negb_false_iff, andb_true_iff in E as [He E].
  unfold still in E. apply andb_true_iff in E as [_ E]. apply bool_decide_eq_true in E.
  destruct (_ <=? _)%Z eqn:En; [keep|]. apply Z.leb_gt in En. apply save_wf; [|done].
  apply jobs_insert_wf; [|apply HS]. pose proof (row_wf _ _ _ HS Hj) as [HL [H1 H2 H3 H4] [S1 S2]].
  split; [by eapply limits_same| |].
  - split; [|split; [done|intros E'; by apply H2 in E'; congruence]|done|done].
    intros E'. change (j_enabled j = false) in E'. congruence.
  - split; [|done]. intros o n [= <- <-]. unfold defer_count in *. lia.
Qed.

(** The marks of a run by hand, alone. *)
Lemma manual_wf j j' : job_wf j → timing_ok j' → limits_ok j' → j_unavailable j' = j_unavailable j →
  (j_manual j' = false → j_manual_requested j' = None ∧ j_manual_reason j' = None ∧ j_manual_event j' = None) →
  job_wf j'.
Proof. intros [HL HT [S1 S2]] T L Eu H. split; [done|done|]. split; [by rewrite Eu|done]. Qed.

Lemma request_wf sess jid e k revs saved s : store_wf s → store_wf (request_manual_run sess jid e k revs saved s).1.
Proof.
  intros HS. unfold request_manual_run. destruct (find_job _ _ _) as [j|] eqn:Hj; [|keep].
  apply find_job_Some in Hj. destruct (match sess !! _ with Some _ => _ | None => _ end).
  - pose proof (pause_wf (j_session j) false k revs saved s HS) as Hp.
    by destruct (pause_for_session _ _ _ _ _ _) as [s' [|]].
  - destruct (j_manual j) eqn:Hm; [keep|]. apply save_wf; [|done]. apply jobs_insert_wf; [|apply HS].
    pose proof (row_wf _ _ _ HS Hj) as Hw. pose proof Hw as [HL HT _].
    eapply manual_wf; [exact Hw|by eapply timing_same|by eapply limits_same|done|done].
Qed.

Lemma manual_deferred_wf jid r k saved s : store_wf s → store_wf (record_manual_run_deferred jid r k saved s).1.
Proof.
  intros HS. unfold record_manual_run_deferred. destruct (jobs s !! jid) as [j|] eqn:Hj; [|keep].
  destruct (_ || _) eqn:E; [keep|]. apply orb_false_iff in E as [Hm%negb_false_iff _].
  apply save_wf; [|done]. apply jobs_insert_wf; [|apply HS].
  pose proof (row_wf _ _ _ HS Hj) as Hw. pose proof Hw as [HL HT _].
  eapply manual_wf; [exact Hw|by eapply timing_same|by eapply limits_same|done|].
  intros E. change (j_manual j = false) in E. congruence.
Qed.

Lemma manual_failed_wf jid r k saved s : store_wf s → store_wf (clear_failed_manual_run jid r k saved s).1.
Proof.
  intros HS. unfold clear_failed_manual_run. destruct (jobs s !! jid) as [j|] eqn:Hj; [|keep].
  destruct (j_manual j); [|keep]. apply save_wf; [|done]. apply jobs_insert_wf; [|apply HS].
  pose proof (row_wf _ _ _ HS Hj) as Hw. pose proof Hw as [HL HT _].
  eapply manual_wf; [exact Hw|by eapply timing_same|by eapply limits_same|done|done].
Qed.

Lemma fail_wf jid e k saved s : store_wf s → store_wf (fail_occurrence jid e k saved s).1.
Proof.
  intros HS. unfold fail_occurrence. destruct (jobs s !! jid) as [j|] eqn:Hj; [|keep].
  destruct (negb _); [keep|]. pose proof (row_wf _ _ _ HS Hj) as [HL HT [S1 S2]].
  match goal with |- context [let '(_, _) := ?X in _] => destruct X as [j' r] eqn:E end.
  assert (job_wf j') as Hj'.
  { destruct (_ && _) eqn:Ec in E.
    - apply andb_true_iff in Ec as [[He _]%andb_true_iff Hl%negb_true_iff].
      apply next_run_timing in E as (T & L & ES); [|done..]. split; [done..|]. rewrite <-ES. by split.
    - injection E as <- _. apply disable_wf; [done|by split]. }
  destruct r; cbn [fst].
  - apply save_wf; [|done]. apply jobs_insert_wf; [|apply HS]. destruct Hj' as [L T [S1' S2']].
    split; [by eapply limits_same|by eapply timing_same|]. by split.
  - destruct HS as [H1 H2]. split; [by apply jobs_insert_wf|done].
Qed.

Lemma mark_ran_wf jid m e t x k saved s : store_wf s → store_wf (mark_ran jid m e t x k saved s).1.
Proof.
  intros HS. unfold mark_ran. destruct (jobs s !! jid) as [j|] eqn:Hj; [|keep].
  destruct (x && _); [keep|]. destruct (ran _ _ _ _ _ _) as [j' r] eqn:E.
  pose proof (ran_wf _ _ _ _ _ _ _ _ E (row_wf _ _ _ HS Hj)) as Hj'.
  assert (∀ i y, <[jid := j']> (jobs s) !! i = Some y → job_wf y) by (apply jobs_insert_wf; [done|apply HS]).
  destruct r; [by apply save_wf|]. by destruct HS.
Qed.

Lemma loaded_wf sess k j : job_wf j → job_wf (loaded sess k j).
Proof.
  intros Hj. unfold loaded. destruct (sess !! _) as [p|]; [|done]. destruct (_ && _); [|done].
  destruct Hj as [HL HT [S1 S2]]. split; [by eapply limits_same| |].
  - by split.
  - by split.
Qed.

Lemma apply_op_wf o saved s : store_wf s → store_wf (apply_op o saved s).
Proof.
  intros HS. destruct o; cbn [apply_op].
  - by apply create_wf.
  - unfold update. destruct (_ ≫= _) as [j|] eqn:E; [|keep]. inv_res.
    destruct (find_job _ _ _) as [j0|] eqn:Hj; inv_res. apply save_or_undo_wf; [|done].
    apply jobs_insert_wf; [|apply HS]. eapply updated_wf; [done|]. apply find_job_Some in Hj. by eapply row_wf.
  - unfold delete_job. destruct (find_job _ _ _); [|destruct expected; [keep|]];
      (apply save_or_undo_wf; [|done]); [|apply HS]. intros i x [_ Hx]%lookup_delete_Some. by eapply row_wf.
  - apply save_or_undo_wf; [|done]. intros i x Hx. unfold delete_where in Hx.
    apply map_lookup_filter_Some in Hx as [Hx _]. by eapply row_wf.
  - by apply pause_wf.
  - unfold pause_for_chat_reference_repair. destruct (jobs s !! jid) as [j|] eqn:Hj; [|keep].
    destruct (String.eqb _ _); [|keep]. apply save_wf; [|done]. apply jobs_insert_wf; [|apply HS].
    pose proof (row_wf _ _ _ HS Hj) as [HL HT [S1 S2]]. split; [by eapply limits_same| |by split].
    by split.
  - by apply mark_ran_wf.
  - by apply defer_wf.
  - unfold defer_for_pending_server_update. destruct (strip _); [keep|]. by apply defer_wf.
  - unfold resume_update_parked. destruct (Nat.eqb _ _); [keep|]. apply save_wf; [|done].
    apply imap_wf; [|apply HS]. intros i j _ Hj. destruct (resumes _ _ _); [by apply resumed_wf|done].
  - by apply unavailable_wf.
  - by apply request_wf.
  - by apply manual_deferred_wf.
  - by apply manual_failed_wf.
  - by apply fail_wf.
  - unfold load. assert (∀ i x, map_imap (λ id j, Some (loaded sess (k {{ rev := revs id }}) j)) (disk s) !! i = Some x → job_wf x)
      by (apply imap_wf; [by intros; apply loaded_wf|apply HS]).
    case_bool_decide; [by destruct HS|by apply save_wf].
Qed.

(** What calls make of an empty registry. *)
Inductive jobs_reachable : store → Prop :=
| reach_empty : jobs_reachable (mkStore ∅ ∅)
| reach_op s o saved : jobs_reachable s → jobs_reachable (apply_op o saved s).

Lemma registry_reachable_wf s : jobs_reachable s → store_wf s.
Proof.
  induction 1; [|by apply apply_op_wf].
  split; intros jid j H; cbn in H; by rewrite lookup_empty in H.
Qed.
End spec.
