(* ===== verification/JobRuns.v ===== *)
(** * Scheduled jobs: how a job goes on

    What the operations other than edits make of a job: its occurrences only
    move forward, and it is not enabled again. *)
From S2P Require Import Prelude.
From S2P Require Import PyValues.
From S2P Require Import JobRules.
From S2P Require Import Jobs.
From S2P Require Import JobSpec.
Open Scope string_scope.

Section moves.
Context {host : JobHost}.

(** What every operation but an edit makes of a job: its occurrences go on,
    and it is not enabled again. *)
Record evolves (j j' : job) : Prop := {
  ev_session : j_session j' = j_session j;
  ev_max : j_max_runs j' = j_max_runs j;
  ev_count : (j_run_count j ≤ j_run_count j')%Z;
  ev_enabled : j_enabled j' = true → j_enabled j = true;
  ev_scheduled : j_scheduled j' = j_scheduled j ∨ j_scheduled j' = None
    ∨ ∃ t t', j_scheduled j = Some t ∧ j_scheduled j' = Some t' ∧ (t < t')%Z;
  ev_none : j_enabled j' = true → j_scheduled j' = None → j_scheduled j = None;
}.

#[global] Instance evolves_refl : Reflexive evolves.
Proof. intros j. split; auto. lia. Qed.

(** An operation that leaves the schedule alone. *)
Lemma evolves_same j j' : j_session j' = j_session j → j_max_runs j' = j_max_runs j →
  j_run_count j' = j_run_count j → j_enabled j' = j_enabled j → j_scheduled j' = j_scheduled j → evolves j j'.
Proof. intros E1 E2 E3 E4 E5. split; rewrite ?E3, ?E4, ?E5; auto. lia. Qed.

(** One that stops the job. *)
Lemma evolves_off j j' : j_session j' = j_session j → j_max_runs j' = j_max_runs j →
  (j_run_count j ≤ j_run_count j')%Z → j_enabled j' = false → j_scheduled j' = None → evolves j j'.
Proof. intros E1 E2 E3 E4 E5. split; rewrite ?E4, ?E5; auto; done. Qed.

(** Enabled jobs wait for an occurrence, after the beginning of time. *)
Record waiting (j : job) : Prop := {
  wt_some : j_enabled j = true → is_Some (j_scheduled j);
  wt_pos : ∀ t, j_scheduled j = Some t → (0 < t)%Z;
}.

Lemma evolves_waiting j j' : evolves j j' → waiting j → waiting j'.
Proof.
  intros E [H1 H2]. split.
  - intros He. destruct (j_scheduled j') eqn:Es; [done|].
    destruct (H1 (ev_enabled _ _ E He)) as [t Ht]. by rewrite (ev_none _ _ E He Es) in Ht.
  - intros t Ht. destruct (ev_scheduled _ _ E) as [Es|[Es|(u & v & Hu & Hv & Huv)]].
    + apply H2. congruence.
    + congruence.
    + apply H2 in Hu. simplify_eq. lia.
Qed.

(** ** Runs *)

Lemma or_time_pos j x : waiting j → j_enabled j = true → ∃ t, j_scheduled j = Some t ∧ or_time (j_scheduled j) x = t.
Proof.
  intros [H1 H2] He. destruct (H1 He) as [t Ht]. exists t. split; [done|]. rewrite Ht. cbn.
  by rewrite (proj2 (Z.eqb_neq t 0)) by (apply H2 in Ht; lia).
Qed.

Lemma next_run_evolves jid a j j' r t : next_run jid a j = (j', r) → j_scheduled j = Some t → (t ≤ a)%Z →
  evolves j j' ∧ ((∃ e, r = Err e) ∨ j_scheduled j' = None ∨ ∃ t', j_scheduled j' = Some t' ∧ (a < t')%Z).
Proof.
  unfold next_run. intros H Ht Ha. destruct (next_job_occurrence jid j a false) as [n|e] eqn:E.
  - injection H as <- <-. destruct n as [n|].
    + apply next_occurrence_after in E as Hn. split; [|right; right; by exists n].
      split; [done|done|apply Z.le_refl|by intros [? _]%andb_true_iff| |by intros _ [=]].
      right. right. exists t, n. split_and!; [done..|lia].
    + split; [|right; by left].
      split; [done|done|apply Z.le_refl|by intros [? _]%andb_true_iff|by right; left|by intros [_ ?]%andb_true_iff].
  - injection H as <- <-. split; [done|]. left. by eexists.
Qed.

Lemma counted_evolves m at_ k j : evolves j (counted m at_ k j) ∧ j_scheduled (counted m at_ k j) = j_scheduled j
  ∧ j_enabled (counted m at_ k j) = j_enabled j ∧ j_run_count (counted m at_ k j) = (j_run_count j + 1)%Z.
Proof.
  split_and!; [|by destruct m..]. split; [by destruct m|by destruct m| |by destruct m|left; by destruct m|].
  - destruct m; apply (Z.le_succ_diag_r (j_run_count j)).
  - destruct m; intros _ H; exact H.
Qed.

Lemma evolves_trans a b c : waiting a → evolves a b → evolves b c → evolves a c.
Proof.
  intros Hw E1 E2. pose proof (evolves_waiting _ _ E1 Hw) as Hw'. destruct E1, E2. split; try congruence; try lia.
  - auto.
  - destruct ev_scheduled1 as [->|[->|(t & u & Ht & Hu & Htu)]]; [done|by right; left|].
    destruct ev_scheduled0 as [E|[E|(v & w & Hv & Hw2 & Hvw)]]; [|congruence|].
    + right. right. exists t, u. split_and!; [congruence|done..].
    + right. right. exists v, u. split_and!; [done..|]. simplify_eq. lia.
  - auto.
Qed.

Lemma after_run_spec jid m adv at_ t before j j' :
  after_run jid m adv at_ t before j = (j', Ok tt) → waiting j → before = j_scheduled j →
  (m = false → adv = true → j_enabled j = true → j_scheduled j = Some at_) →
  evolves j j' ∧ j_run_count j' = j_run_count j ∧
  (m = false → adv = true → j_scheduled j' = None ∨ ∃ u, j_scheduled j' = Some u ∧ (at_ < u)%Z).
Proof.
  unfold after_run, additive. intros H Hw -> Ha.
  destruct (_ && _ && _ && _ && _) eqn:Eadd.
  { injection H as <-. split_and!; [done..|]. intros ->. by rewrite !andb_false_l in Eadd. }
  destruct (adv && j_enabled j && recurring j && negb (limit_reached j)) eqn:En.
  - apply andb_true_iff in En as [[[Hadv He]%andb_true_iff Hr]%andb_true_iff Hl].
    destruct (wt_some _ Hw He) as [s Hs]. rewrite He, Hr, Hl, Hs, !andb_true_r in Eadd.
    assert (s ≤ Z.max at_ t)%Z as Hle.
    { destruct m; cbn in Eadd; [apply Z.ltb_ge in Eadd; lia|]. specialize (Ha eq_refl Hadv He). simplify_eq. lia. }
    pose proof (next_run_evolves _ _ _ _ _ _ H Hs Hle) as (E & [[e ?]|Hn]); [done|]. split_and!; [done| |].
    + unfold next_run in H. destruct (next_job_occurrence _ _ _ _); simplify_eq. done.
    + intros _ _. destruct Hn as [Hn|(u & Hu & Hlt)]; [by left|]. right. exists u. split; [done|lia].
  - destruct (limit_reached j || _) eqn:Ed; injection H as <-.
    + split_and!; [by apply evolves_off; [..|apply Z.le_refl| |]|done|]. intros _ _. by left.
    + split_and!; [done..|]. intros _ ->. exfalso. apply orb_false_iff in Ed as [Hl Ed].
      cbn in Ed, En. apply orb_false_iff in Ed as [He%negb_false_iff Hr%negb_false_iff].
      by rewrite He, Hr, Hl in En.
Qed.

Lemma ran_spec jid m e at_ k j j' : ran jid m e at_ k j = (j', Ok tt) → waiting j → j_enabled j = true ∨ j_next j = None →
  (m = false → same_revision e j = true → j_enabled j = true → j_scheduled j = Some at_) →
  evolves j j' ∧ j_run_count j' = (j_run_count j + 1)%Z ∧
  (m = false → j_scheduled j = Some at_ → j_scheduled j' = None ∨ ∃ u, j_scheduled j' = Some u ∧ (at_ < u)%Z).
Proof.
  unfold ran. intros H Hw Hn Hrev. destruct (counted_evolves m at_ k j) as (E & Es & Ee & Ec).
  destruct (after_run _ _ _ _ _ _ _) as [j1 [[]|]] eqn:Ha; [|done]. injection H as <-.
  pose proof (evolves_waiting _ _ E Hw) as Hwc.
  (* the occurrence of the job is what it is scheduled for *)
  assert (occurrence j = j_scheduled j) as Ho.
  { unfold occurrence. destruct (j_scheduled j) eqn:Ej; [done|]. destruct Hn as [Hn|Hn]; [|done].
    destruct (wt_some _ Hw Hn) as [? ?]. congruence. }
  rewrite Ho in Ha. apply after_run_spec in Ha as (E1 & E2 & E3); [|done|by rewrite Es|].
  - split_and!.
    + eapply evolves_trans; [exact Hw|exact E|]. eapply evolves_trans; [exact Hwc|exact E1|]. by apply evolves_same.
    + by rewrite <-Ec, <-E2.
    + intros Hm Hs. apply (E3 Hm). rewrite Hs, bool_decide_eq_true_2 by done. by rewrite orb_true_r.
  - intros Hm Hadv He. rewrite Es. rewrite Ee in He. apply orb_true_iff in Hadv as [Hadv|Hadv].
    + by apply Hrev.
    + by apply bool_decide_eq_true in Hadv.
Qed.

(** ** Operations *)

(** Not an edit of the job, and not one of the steps of a run. *)
Definition leaves_alone (jid : string) (o : job_op) : bool :=
  match o with
  | OUpdate _ i _ _ _ _ _ | OCreate _ _ _ i _ | ORan i _ _ _ _ _ => negb (String.eqb i jid)
  | OLoad _ _ _ => false
  | _ => true
  end.

(** What is left of the job, in memory and on disk, comes from it. *)
Record moved (jid : string) (s s' : store) : Prop := {
  mv_job : ∀ j', jobs s' !! jid = Some j' → ∃ j, jobs s !! jid = Some j ∧ evolves j j';
  mv_disk : disk s !! jid = jobs s !! jid → disk s' !! jid = jobs s' !! jid;
}.

Lemma moved_refl jid s : moved jid s s.
Proof. split; [|done]. intros j Hj. by exists j. Qed.

(** Nothing is done to this job. *)
Lemma moved_same jid s s' : jobs s' !! jid = jobs s !! jid → (disk s' = disk s ∨ disk s' = jobs s') → moved jid s s'.
Proof.
  intros E Hd. split; [rewrite E; intros j Hj; by exists j|]. intros Ed. destruct Hd as [->| ->]; congruence.
Qed.

Lemma moved_disk jid s js : (∀ j', js !! jid = Some j' → ∃ j, jobs s !! jid = Some j ∧ evolves j j') →
  moved jid s (mkStore js js).
Proof. by split. Qed.

Lemma moved_insert jid i x j0 s : jobs s !! i = Some j0 → (i = jid → evolves j0 x) →
  moved jid s (mkStore (<[i := x]> (jobs s)) (<[i := x]> (jobs s))).
Proof.
  intros Hi He. apply moved_disk. intros j' [[-> <-]|[_ H]]%lookup_insert_Some; [exists j0; auto|by exists j'].
Qed.

Lemma moved_imap jid (f : string → job → job) s :
  (∀ j, jobs s !! jid = Some j → evolves j (f jid j)) →
  moved jid s (mkStore (map_imap (λ i j, Some (f i j)) (jobs s)) (map_imap (λ i j, Some (f i j)) (jobs s))).
Proof.
  intros Hf. apply moved_disk. intros j'. rewrite map_lookup_imap. intros (j & Hj & [= <-])%bind_Some. eauto.
Qed.

Lemma moved_trans jid s1 s2 s3 : (∀ j, jobs s1 !! jid = Some j → waiting j) →
  moved jid s1 s2 → moved jid s2 s3 → moved jid s1 s3.
Proof.
  intros Hw [H1 D1] [H2 D2]. split; [|auto]. intros j3 Hj3.
  destruct (H2 _ Hj3) as (j2 & Hj2 & E2). destruct (H1 _ Hj2) as (j1 & Hj1 & E1).
  exists j1. split; [done|]. eapply evolves_trans; eauto.
Qed.

Lemma paused_evolves k j : evolves j (paused k j).
Proof. unfold paused. apply evolves_off; by destruct (j_manual j). Qed.

Ltac stay := apply moved_refl.
Ltac put Hj := eapply (moved_insert _ _ _ _ _ Hj); intros _.

Lemma pause_moved jid c u k revs s : moved jid s (pause_for_session c u k revs true s).1.
Proof.
  unfold pause_for_session. destruct (_ && _); [stay|]. apply moved_imap. intros j _.
  destruct (runs_in c j); [apply paused_evolves|done].
Qed.

Lemma mark_ran_moved jid i m e t x k saved s : i ≠ jid → moved jid s (mark_ran i m e t x k saved s).1.
Proof.
  intros Hi. unfold mark_ran. destruct (jobs s !! i) as [j|]; [|stay]. destruct (x && _); [stay|].
  destruct (ran _ _ _ _ _ _) as [j1 r].
  destruct r; [destruct saved|]; (apply moved_same; [by apply lookup_insert_ne|auto]).
Qed.

Lemma fail_moved jid i e k s : (∀ j, jobs s !! jid = Some j → waiting j) →
  moved jid s (fail_occurrence i e k true s).1.
Proof.
  intros Hw. unfold fail_occurrence. destruct (jobs s !! i) as [j|] eqn:Hj; [|stay].
  destruct (negb _); [stay|].
  match goal with |- context [let '(_, _) := ?X in _] => destruct X as [j1 r] eqn:E end.
  assert (i = jid → evolves j j1) as He.
  { intros ->. specialize (Hw j Hj).
    destruct (_ && _) eqn:Ec in E; [|injection E as <- _; apply evolves_off; [done|done|apply Z.le_refl|done|done]].
    apply andb_true_iff in Ec as [[He _]%andb_true_iff _].
    destruct (or_time_pos j (or_time (j_next j) (now k)) Hw He) as (t & Ht & Eo). rewrite Eo in E.
    eapply next_run_evolves in E as [E _]; [done..|lia]. }
  destruct r as [u|e'].
  - eapply (moved_insert _ _ _ _ _ Hj). intros ->. eapply evolves_trans; [by apply Hw|by apply He|by apply evolves_same].
  - assert (j1 = j) as ->.
    { destruct (_ && _) in E; [|by injection E]. unfold next_run in E.
      destruct (next_job_occurrence _ _ _ _); congruence. }
    apply moved_same; [|by left]. cbn [fst jobs]. by rewrite insert_id.
Qed.

Lemma defer_moved jid i r d e t u k s : moved jid s (defer i r d e (Some t) u k true s).1.
Proof.
  unfold defer. destruct (jobs s !! i) as [j|] eqn:Hj; [|stay]. destruct (negb _); [stay|].
  destruct (match u with Some id => _ | None => _ end); [|stay]. put Hj. by apply evolves_same.
Qed.

Lemma request_moved jid sess i e k revs s : moved jid s (request_manual_run sess i e k revs true s).1.
Proof.
  unfold request_manual_run. destruct (find_job _ _ _) as [j|] eqn:Hj; [|stay]. apply find_job_Some in Hj.
  destruct (match sess !! _ with Some _ => _ | None => _ end).
  - pose proof (pause_moved jid (j_session j) false k revs s).
    by destruct (pause_for_session _ _ _ _ _ _) as [s' [|]].
  - destruct (j_manual j); [stay|]. put Hj. by apply evolves_same.
Qed.

Lemma resumed_evolves k j : evolves j (resumed k j).
Proof. unfold resumed. destruct (j_park j) as [q|]; [|done]. apply evolves_same; by destruct (exact_park q j). Qed.

Lemma op_moved jid o s : leaves_alone jid o = true → (∀ j, jobs s !! jid = Some j → waiting j) →
  moved jid s (apply_op o true s).
Proof.
  intros Hl Hw. destruct o; cbn [leaves_alone apply_op] in *;
    try (apply negb_true_iff, String.eqb_neq in Hl).
  - unfold create. destruct (_ ≫= _); [|stay]. apply moved_same; [by apply lookup_insert_ne|by right].
  - unfold update. destruct (_ ≫= _); [|stay]. apply moved_same; [by apply lookup_insert_ne|by right].
  - unfold delete_job. destruct (find_job _ _ _); [|destruct expected; [stay|by apply moved_same; [|right]]].
    apply moved_disk. intros j' [_ Hj]%lookup_delete_Some. by exists j'.
  - unfold delete_for_session. apply moved_disk. intros j' [Hj _]%map_lookup_filter_Some. by exists j'.
  - apply pause_moved.
  - unfold pause_for_chat_reference_repair. destruct (jobs s !! jid0) as [j|] eqn:Hj; [|stay].
    destruct (String.eqb _ _); [|stay]. put Hj. apply evolves_off; [done|done|apply Z.le_refl|done|done].
  - by apply mark_ran_moved.
  - apply defer_moved.
  - unfold defer_for_pending_server_update. destruct (strip _); [stay|]. apply defer_moved.
  - unfold resume_update_parked. destruct (Nat.eqb _ _); [stay|]. apply moved_imap. intros j _.
    destruct (resumes _ _ _); [apply resumed_evolves|done].
  - unfold defer_runtime_unavailable. destruct (jobs s !! jid0) as [j|] eqn:Hj; [|stay]. destruct (negb _); [stay|].
    destruct (_ <=? _)%Z; [stay|]. put Hj. by apply evolves_same.
  - apply request_moved.
  - unfold record_manual_run_deferred. destruct (jobs s !! jid0) as [j|] eqn:Hj; [|stay].
    destruct (_ || _); [stay|]. put Hj. by apply evolves_same.
  - unfold clear_failed_manual_run. destruct (jobs s !! jid0) as [j|] eqn:Hj; [|stay].
    destruct (j_manual j); [|stay]. put Hj. by apply evolves_same.
  - by apply fail_moved.
  - done.
Qed.
End moves.

(** * Scheduled jobs: runs, and restarts

    The scheduler, the requests of users and the crashes of the server, one
    step after the other.  A run is in flight from the look at the job until
    [mark_ran]; the scheduler has one at a time, and a job has one by hand at a
    time ([_manual_runs_in_flight]).  [start_turn] writes the [turn_started]
    event of the run, and can raise before it does and after.  What the
    scheduler does about that (deferrals, [fail_occurrence], pauses) are
    operations of [Jobs]. *)
(** A run on its way: what [_start_job_run] keeps of the job. *)
Record flight := mkFlight {
  f_job : string;
  f_session : string;
  f_revision : string;
  f_time : Z;
  f_accepted : bool;   (* assert_dispatch_revision went well *)
  f_logged : bool;     (* turn_started is written *)
}.

Record system := mkSystem {
  registry : store;
  journal : list started;
  auto : option flight;
  manuals : gmap string flight;
}.

Inductive label :=
| LOp (o : job_op) (saved : bool)
| LStart (jid : string) (manual late : bool) (k : clock)
| LAccept (jid : string) (manual : bool)
| LLog (jid : string) (manual : bool)
| LRefused (jid : string) (manual : bool)
| LRan (jid : string) (manual : bool) (k : clock) (saved : bool)
| LRestart (sess : gmap string session) (k : clock) (revs : string → string) (ks : string → clock).

Section runs.
Context {host : JobHost}.

(** The flight of a job, if it has one. *)
Definition flight_of (jid : string) (manual : bool) (s : system) : option flight :=
  if manual then manuals s !! jid else
  match auto s with Some f => if String.eqb (f_job f) jid then Some f else None | None => None end.

Definition set_flight (jid : string) (manual : bool) (f : option flight) (s : system) : system :=
  if manual then mkSystem (registry s) (journal s) (auto s) (partial_alter (λ _, f) jid (manuals s))
  else mkSystem (registry s) (journal s) f (manuals s).

Definition set_registry (r : store) (s : system) : system :=
  mkSystem r (journal s) (auto s) (manuals s).

(** The look at the job: the scheduler takes one that is due.  When it has to
    wait for the lock it takes the job as it is then ([late]). *)
Definition start_run (jid : string) (manual late : bool) (k : clock) (s : system) : option system :=
  j ← jobs (registry s) !! jid;
  let free := if manual then bool_decide (manuals s !! jid = None) else bool_decide (auto s = None) in
  let wanted := if manual then j_manual j else late || negb (j_manual j) && is_due (now k) j in
  if free && wanted
  then Some (set_flight jid manual
         (Some (mkFlight jid (j_session j) (j_revision j) (run_time manual k j) false false)) s)
  else None.

Definition accept_run (jid : string) (manual : bool) (s : system) : option system :=
  f ← flight_of jid manual s;
  match assert_dispatch_revision jid (f_session f) (f_revision f) (registry s) with
  | Ok _ => if f_logged f then None
            else Some (set_flight jid manual (Some (f {{ f_accepted := true }})) s)
  | Err _ => None
  end.

Definition event_of (manual : bool) (f : flight) : started :=
  mkStarted (f_session f) (f_job f) (f_revision f) (f_time f) manual.

Definition log_run (jid : string) (manual : bool) (s : system) : option system :=
  f ← flight_of jid manual s;
  if f_accepted f && negb (f_logged f) then
    let s := set_flight jid manual (Some (f {{ f_logged := true }})) s in
    Some (mkSystem (registry s) (journal s ++ [event_of manual f])%list (auto s) (manuals s))
  else None.

(** [start_turn] raises, before its event is written or after: the run is over
    and is not counted. *)
Definition refuse_run (jid : string) (manual : bool) (s : system) : option system :=
  _ ← flight_of jid manual s;
  Some (set_flight jid manual None s).

Definition end_run (jid : string) (manual : bool) (k : clock) (saved : bool) (s : system) : option system :=
  f ← flight_of jid manual s;
  if f_logged f then
    Some (set_registry (mark_ran jid manual (Some (f_revision f)) (Some (f_time f)) false k saved (registry s)).1
            (set_flight jid manual None s))
  else None.

(** The server dies and starts again. *)
Definition restart (sess : gmap string session) (k : clock) (revs : string → string) (ks : string → clock)
    (s : system) : option system :=
  match reconcile_admitted_runs (journal s) ks true (load sess k revs true (registry s)).1 with
  | (r, Ok _) => Some (mkSystem r (journal s) None ∅)
  | (_, Err _) => None
  end.

Definition jstep (l : label) (s : system) : option system :=
  match l with
  | LOp o saved => Some (set_registry (apply_op o saved (registry s)) s)
  | LStart jid m late k => start_run jid m late k s
  | LAccept jid m => accept_run jid m s
  | LLog jid m => log_run jid m s
  | LRefused jid m => refuse_run jid m s
  | LRan jid m k saved => end_run jid m k saved s
  | LRestart sess k revs ks => restart sess k revs ks s
  end.

Fixpoint jrun (ls : list label) (s : system) : option system :=
  match ls with [] => Some s | l :: ls => s' ← jstep l s; jrun ls s' end.

(** The occurrences of a job that the scheduler started, in order. *)
Definition is_auto (jid : string) (e : started) : bool := String.eqb (e_job e) jid && negb (e_manual e).
Definition starts (jid : string) (l : list started) : list Z :=
  map e_occurrence (base.filter (λ e, is_auto jid e = true) l).

Definition job_at (jid : string) (s : system) : option job := jobs (registry s) !! jid.
End runs.
