(* ===== verification/JobOnce.v ===== *)
(** * Scheduled jobs: no occurrence twice

    What is asked of a run of the server for a job not to be started twice for
    one occurrence, and the invariant that shows it: the events of the
    scheduler's runs are of earlier occurrences than the job waits for, but for
    the run that is on its way. *)
From S2P Require Import Prelude PyValues JobRules Jobs JobSpec JobRuns.

Open Scope string_scope.

Section once.
Context {host : JobHost}.
#[local] Arguments starts : simpl never.

(** ** What is asked of the steps *)

(** A change of the job gives it a new revision ([uuid4]). *)
Definition renamed (jid : string) (s s' : system) : Prop :=
  ∀ j j', job_at jid s = Some j → job_at jid s' = Some j' → j' = j ∨
    startswith "job_rev_" (j_revision j') = true ∧
    ∀ f, flight_of jid false s = Some f → f_revision f ≠ j_revision j'.

(** What the guarantee asks of each step:
    - the job is not edited, its saves succeed, and its occurrence is given up
      ([fail_occurrence]) only when no run of the scheduler is on its way;
    - the scheduler takes the job when it is due, without having to wait for
      another operation that holds the lock ([late]);
    - no start of a scheduled run of the job fails after its [turn_started]
      event is written (a run that is put off then is started again);
    - when a run is counted the next occurrence can be computed, and the count
      is saved;
    - the server does not die between the [turn_started] event of a scheduled
      run and its count if the job was given a new revision in between, by a
      request to run it by hand for instance. *)
Definition calm (jid : string) (l : label) (s : system) : Prop :=
  match l with
  | LOp o saved => saved = true ∧ leaves_alone jid o = true ∧
      match o with OFail i _ _ => i = jid → flight_of jid false s = None | _ => True end
  | LStart i manual late _ => i = jid → manual = false → late = false
  | LRefused i manual => i = jid → manual = false → ∀ f, flight_of jid false s = Some f → f_logged f = false
  | LRan i m k saved => i = jid → saved = true ∧ ∀ f, flight_of jid m s = Some f → ∃ o,
      (mark_ran jid m (Some (f_revision f)) (Some (f_time f)) false k true (registry s)).2 = Ok o
  | LRestart _ _ _ _ => ∀ f j, flight_of jid false s = Some f → f_logged f = true →
      job_at jid s = Some j → f_revision f = j_revision j
  | _ => True
  end.

Inductive calm_run (jid : string) : list label → system → system → Prop :=
| calm_nil s : calm_run jid [] s s
| calm_cons l ls s s' s'' : jstep l s = Some s' → calm jid l s → renamed jid s s' →
    calm_run jid ls s' s'' → calm_run jid (l :: ls) s s''.

(** A job that waits for its first occurrence. *)
Record fresh_job (jid : string) (j : job) (s : system) : Prop := {
  fr_job : job_at jid s = Some j;
  fr_disk : disk (registry s) !! jid = Some j;
  fr_wf : store_wf (registry s);
  fr_enabled : j_enabled j = true;
  fr_waiting : waiting j;
  fr_revision : startswith "job_rev_" (j_revision j) = true;
  fr_session : j_session j ≠ "";
  fr_starts : starts jid (journal s) = [];
  fr_flight : flight_of jid false s = None;
}.

(** ** The invariant *)

(** A run of the scheduler whose event is written, and one whose is not. *)
Definition open_runs (logged : bool) (jid : string) (s : system) : Z :=
  match flight_of jid false s with Some f => if Bool.eqb (f_logged f) logged then 1 else 0 | None => 0 end.

Record flight_ok (jid : string) (f : flight) (s : system) : Prop := {
  fl_job : f_job f = jid;
  fl_past : ∀ t, t ∈ starts jid (journal s) → (t < f_time f)%Z ∨ f_logged f = true ∧ t = f_time f;
  fl_next : ∀ j u, job_at jid s = Some j → j_scheduled j = Some u → (f_time f ≤ u)%Z;
  fl_same : ∀ j, job_at jid s = Some j → f_revision f = j_revision j →
    j_manual j = false ∧ j_scheduled j = Some (f_time f) ∧ f_session f = j_session j;
  fl_event : f_logged f = true → event_of false f ∈ journal s;
}.

Record job_ok (jid : string) (m : option Z) (j : job) (s : system) : Prop := {
  jo_waiting : waiting j;
  jo_revision : startswith "job_rev_" (j_revision j) = true;
  jo_session : j_session j ≠ "";
  jo_max : j_max_runs j = m;
  jo_past : ∀ t u, t ∈ starts jid (journal s) → j_scheduled j = Some u →
    (t < u)%Z ∨ ∃ f, flight_of jid false s = Some f ∧ f_logged f = true ∧ t = f_time f;
  jo_count : j_enabled j = true → (Z.of_nat (length (starts jid (journal s))) ≤ j_run_count j + open_runs true jid s)%Z;
}.

Record steady (jid : string) (m : option Z) (s : system) : Prop := {
  st_wf : store_wf (registry s);
  st_disk : disk (registry s) !! jid = jobs (registry s) !! jid;
  st_job : ∀ j, job_at jid s = Some j → job_ok jid m j s;
  st_flight : ∀ f, flight_of jid false s = Some f → flight_ok jid f s;
  st_sorted : StronglySorted Z.lt (starts jid (journal s));
  st_max : ∀ n, m = Some n → (Z.of_nat (length (starts jid (journal s))) + open_runs false jid s ≤ n)%Z;
}.

Lemma fresh_steady jid j s : fresh_job jid j s → steady jid (j_max_runs j) s.
Proof.
  intros [Hj Hd Hw He Hwait Hr Hs Hst Hf]. unfold job_at in Hj. split.
  - done.
  - congruence.
  - unfold job_at. intros j' Hj'. assert (j' = j) as -> by congruence. split; try done.
    + rewrite Hst. intros t u Ht%elem_of_nil. done.
    + intros _. unfold open_runs. rewrite Hst, Hf.
      pose proof (ok_count _ (wf_limits _ (row_wf _ _ _ Hw Hj))). cbn. lia.
  - intros f Hf'. congruence.
  - rewrite Hst. constructor.
  - intros n Hn. unfold open_runs. rewrite Hst, Hf.
    pose proof (ok_max _ (wf_limits _ (row_wf _ _ _ Hw Hj)) n Hn). cbn. lia.
Qed.

Lemma steady_waiting jid m s : steady jid m s → ∀ j, jobs (registry s) !! jid = Some j → waiting j.
Proof. intros H j Hj. apply (jo_waiting _ _ _ _ (st_job _ _ _ H j Hj)). Qed.

(** ** The steps *)

Lemma flight_job jid s f : flight_of jid false s = Some f → f_job f = jid ∧ auto s = Some f.
Proof.
  cbn. destruct (auto s) as [g|]; [|done]. destruct (String.eqb_spec (f_job g) jid); [|done]. by intros [= <-].
Qed.

(** The registry moves on. *)
Lemma steady_moved jid m s r : steady jid m s → store_wf r → moved jid (registry s) r →
  renamed jid s (set_registry r s) → steady jid m (set_registry r s).
Proof.
  intros [H1 H2 H3 H4 H5 H6] Hw [Hm Hd] Hn. split; [done|auto| | |done|done].
  - intros j' Hj'. destruct (Hm j' Hj') as (j & Hj & E).
    destruct (H3 j Hj) as [W R S M P C]. split.
    + by eapply evolves_waiting.
    + destruct (Hn j j' Hj Hj') as [->|[? _]]; done.
    + by rewrite (ev_session _ _ E).
    + by rewrite (ev_max _ _ E).
    + intros t u Ht Hu. destruct (ev_scheduled _ _ E) as [Es|[Es|(v & w & Hv & Hw' & Hvw)]].
      * apply P; [done|congruence].
      * congruence.
      * destruct (P t v Ht Hv); [left; simplify_eq; lia|by right].
    + intros He. eapply Z.le_trans; [apply (C (ev_enabled _ _ E He))|].
      apply Z.add_le_mono_r, (ev_count _ _ E).
  - intros f Hf. destruct (H4 f Hf) as [F1 F2 F3 F4 F5]. split; [done|done| | |done].
    + intros j' u Hj' Hu. destruct (Hm j' Hj') as (j & Hj & E).
      destruct (ev_scheduled _ _ E) as [Es|[Es|(v & w & Hv & Hw' & Hvw)]].
      * apply (F3 j); [done|congruence].
      * congruence.
      * pose proof (F3 j v Hj Hv). simplify_eq. lia.
    + intros j' Hj' Er. destruct (Hm j' Hj') as (j & Hj & E).
      destruct (Hn j j' Hj Hj') as [->|[_ Hne]]; [by apply F4|]. by destruct (Hne f Hf).
Qed.

(** A step that concerns other runs. *)
Lemma steady_same jid m s s' : registry s' = registry s → starts jid (journal s') = starts jid (journal s) →
  (∀ e, e ∈ journal s → e ∈ journal s') → flight_of jid false s' = flight_of jid false s →
  steady jid m s → steady jid m s'.
Proof.
  intros E1 E2 E3 E4 [H1 H2 H3 H4 H5 H6]. split; [by rewrite E1|by rewrite E1| | |by rewrite E2|].
  - intros j Hj. unfold job_at in Hj. rewrite E1 in Hj. destruct (H3 j Hj) as [W R S M P C].
    split; [done..| |].
    + intros t u. rewrite E2, E4. apply P.
    + unfold open_runs. rewrite E2, E4. apply C.
  - intros f. rewrite E4. intros Hf. destruct (H4 f Hf) as [F1 F2 F3 F4 F5].
    split; [done|by rewrite E2| | |auto].
    + unfold job_at. rewrite E1. apply F3.
    + unfold job_at. rewrite E1. apply F4.
  - intros n Hn. unfold open_runs. rewrite E2, E4. by apply H6.
Qed.

(** The flight changes, but not whether it is logged. *)
Lemma steady_flight jid m s s' f f' : registry s' = registry s → journal s' = journal s →
  flight_of jid false s = Some f → flight_of jid false s' = Some f' →
  f_job f' = f_job f → f_session f' = f_session f → f_revision f' = f_revision f → f_time f' = f_time f →
  f_logged f' = f_logged f → steady jid m s → steady jid m s'.
Proof.
  intros E1 E2 Hf Hf' A1 A2 A3 A4 A5 [H1 H2 H3 H4 H5 H6].
  split; [by rewrite E1|by rewrite E1| | |by rewrite E2|].
  - intros j Hj. unfold job_at in Hj. rewrite E1 in Hj. destruct (H3 j Hj) as [W R S M P C].
    split; [done..| |].
    + rewrite E2. intros t u Ht Hu. destruct (P t u Ht Hu) as [?|(g & Hg & L & Hg')]; [by left|].
      right. exists f'. split; [done|]. split; congruence.
    + unfold open_runs in *. rewrite Hf in C. by rewrite E2, Hf', A5.
  - intros g Hg. assert (g = f') as -> by congruence. destruct (H4 f Hf) as [F1 F2 F3 F4 F5]. split.
    + congruence.
    + by rewrite E2, A4, A5.
    + unfold job_at. by rewrite E1, A4.
    + unfold job_at. by rewrite E1, A2, A3, A4.
    + rewrite A5, E2. intros HL. unfold event_of. rewrite A1, A2, A3, A4. by apply F5.
  - intros n Hn. specialize (H6 n Hn). unfold open_runs in *. rewrite Hf in H6. by rewrite E2, Hf', A5.
Qed.

Lemma starts_app jid l e :
  starts jid (l ++ [e]) = (starts jid l ++ (if is_auto jid e then [e_occurrence e] else []))%list.
Proof. unfold starts. rewrite filter_app, map_app. cbn. by destruct (is_auto jid e). Qed.

Lemma set_other jid i manual f s :
  (manual = false → i ≠ jid ∧ (auto s = None ∨ is_Some (flight_of i false s)) ∧ ∀ g, f = Some g → f_job g = i) →
  flight_of jid false (set_flight i manual f s) = flight_of jid false s.
Proof.
  intros H. destruct manual; [done|]. destruct (H eq_refl) as (Hi & Ha & Hg). cbn.
  assert (flight_of jid false s = None) as E.
  { destruct Ha as [Ha|[g Hf]]; cbn; [by rewrite Ha|]. apply flight_job in Hf as [Hj ->].
    by rewrite Hj, (proj2 (String.eqb_neq i jid)). }
  cbn in E. rewrite E. destruct f as [g|]; [|done]. by rewrite (Hg g), (proj2 (String.eqb_neq i jid)).
Qed.

(** The scheduler takes the job. *)
Lemma start_steady jid m late k s s' : steady jid m s → late = false →
  start_run jid false late k s = Some s' → steady jid m s'.
Proof.
  intros H -> E. unfold start_run in E. apply bind_Some in E as (j & Hj & E).
  destruct (_ && _) eqn:Hc; [|done]. injection E as <-.
  apply andb_true_iff in Hc as [Ha%bool_decide_eq_true Hc]. cbn [orb] in Hc.
  apply andb_true_iff in Hc as [Hm%negb_true_iff Hd]. unfold is_due in Hd. rewrite Hm in Hd. cbn [orb] in Hd.
  apply andb_true_iff in Hd as [[He _]%andb_true_iff _].
  destruct (st_job _ _ _ H j Hj) as [W R S M P C].
  destruct (or_time_pos j (or_time (j_next j) (now k)) W He) as (t & Ht & Et).
  rewrite Et.
  assert (flight_of jid false s = None) as Hn by (cbn; by rewrite Ha).
  unfold open_runs in C. rewrite Hn in C. specialize (C He).
  set (f := mkFlight jid (j_session j) (j_revision j) t false false).
  change (steady jid m (set_flight jid false (Some f) s)).
  assert (flight_of jid false (set_flight jid false (Some f) s) = Some f) as Hf by (cbn; by rewrite String.eqb_refl).
  destruct H as [H1 H2 H3 H4 H5 H6]. split; [done|done| | |done|].
  - intros j' Hj'. destruct (H3 j' Hj') as [W' R' S' M' P' C']. split; [done..| |].
    + intros u v Hu Hv. destruct (P' u v Hu Hv) as [?|(g & Hg & _)]; [by left|]. congruence.
    + unfold open_runs in *. rewrite Hf. rewrite Hn in C'. exact C'.
  - intros g Hg. assert (g = f) as -> by congruence. split; [done| | | |done].
    + intros u Hu. destruct (P u t Hu Ht) as [?|(g & Hg' & _)]; [by left|]. congruence.
    + intros j' u Hj' Hu. assert (j' = j) as -> by (unfold job_at in Hj'; cbn in Hj'; congruence).
      assert (u = t) as -> by congruence. apply Z.le_refl.
    + intros j' Hj' _. assert (j' = j) as -> by (unfold job_at in Hj'; cbn in Hj'; congruence). done.
  - intros n Hn'. unfold open_runs. rewrite Hf. cbn [f_logged f Bool.eqb].
    pose proof (ok_limit _ (wf_timing _ (row_wf _ _ _ H1 Hj)) He) as Hl. unfold limit_reached in Hl.
    rewrite M, Hn' in Hl. apply Z.leb_gt in Hl. cbn [journal set_flight]. lia.
Qed.

(** The event of its run is written. *)
Lemma log_steady jid m s s' : steady jid m s → log_run jid false s = Some s' → steady jid m s'.
Proof.
  intros H E. unfold log_run in E. apply bind_Some in E as (f & Hf & E).
  destruct (_ && _) eqn:Hc; [|done]. apply andb_true_iff in Hc as [_ Hl%negb_true_iff]. injection E as <-.
  destruct (st_flight _ _ _ H f Hf) as [F1 F2 F3 F4 F5].
  set (f' := f {{ f_logged := true }}). set (s' := mkSystem _ _ _ _).
  assert (flight_of jid false s' = Some f') as Hf'.
  { subst f' s'. cbn. destruct f as [fj]. cbn in F1 |- *. by rewrite F1, String.eqb_refl. }
  assert (starts jid (journal s') = starts jid (journal s) ++ [f_time f])%list as Es.
  { cbn [journal s' set_flight]. rewrite starts_app. unfold is_auto. cbn. by rewrite F1, String.eqb_refl. }
  assert (∀ t, t ∈ starts jid (journal s) → (t < f_time f)%Z) as Hlt.
  { intros t Ht. destruct (F2 t Ht) as [?|[? _]]; [done|congruence]. }
  destruct H as [H1 H2 H3 H4 H5 H6].
  assert (Z.of_nat (length (starts jid (journal s'))) = Z.of_nat (length (starts jid (journal s))) + 1)%Z as Ec.
  { rewrite Es, length_app. cbn. lia. }
  split; [done|done| | | |].
  - intros j Hj. destruct (H3 j Hj) as [W R S M P C]. split; [done..| |].
    + intros t u. rewrite Es, elem_of_app, list_elem_of_singleton. intros [Ht|Ht] Hu.
      * destruct (P t u Ht Hu) as [?|(g & Hg & HL & _)]; [by left|]. congruence.
      * right. by exists f'.
    + intros He. specialize (C He). unfold open_runs in *. rewrite Hf, Hl in C. rewrite Hf', Ec. cbn in C |- *. lia.
  - intros g Hg. assert (g = f') as -> by congruence. split; [done| |done|done|].
    + intros t. rewrite Es, elem_of_app, list_elem_of_singleton. intros [Ht| ->]; [left; by apply Hlt|by right].
    + intros _. cbn. apply elem_of_app. right. by apply list_elem_of_singleton.
  - rewrite Es. apply StronglySorted_app_2; [|done|by repeat constructor].
    intros x y Hx Hy%list_elem_of_singleton. subst. by apply Hlt.
  - intros n Hn. specialize (H6 n Hn). unfold open_runs in *. rewrite Hf, Hl in H6. rewrite Hf', Ec. cbn in H6 |- *. lia.
Qed.

(** The run is refused. *)
Lemma refuse_steady jid m s s' : steady jid m s → refuse_run jid false s = Some s' →
  (∀ f, flight_of jid false s = Some f → f_logged f = false) → steady jid m s'.
Proof.
  intros H E Hno. unfold refuse_run in E. apply bind_Some in E as (f & Hf & E).
  pose proof (Hno f Hf) as Hl. apply (inj Some) in E as <-.
  destruct H as [H1 H2 H3 H4 H5 H6]. split; [done|done| |done|done|].
  - intros j Hj. destruct (H3 j Hj) as [W R S M P C]. split; [done..| |].
    + intros t u Ht Hu. destruct (P t u Ht Hu) as [?|(g & Hg & HL & _)]; [by left|]. congruence.
    + intros He. specialize (C He). unfold open_runs in *. rewrite Hf, Hl in C. exact C.
  - intros n Hn. specialize (H6 n Hn). unfold open_runs in *. rewrite Hf, Hl in H6. cbn in H6 |- *. lia.
Qed.

(** A run that is counted. *)
Lemma mark_ran_at jid m e t x k s o j : (mark_ran jid m e (Some t) x k true s).2 = Ok o → jobs s !! jid = Some j →
  (m = false → same_revision e j = true → j_enabled j = true → j_scheduled j = Some t) →
  waiting j → job_wf j →
  let s' := (mark_ran jid m e (Some t) x k true s).1 in
  s' = s ∧ (x = true ∧ (m = false → same_revision e j = true → occurrence j ≠ Some t)) ∨
  ∃ j', s' = mkStore (<[jid := j']> (jobs s)) (<[jid := j']> (jobs s)) ∧ evolves j j' ∧
    j_run_count j' = (j_run_count j + 1)%Z ∧
    (m = false → j_scheduled j = Some t → ∀ u, j_scheduled j' = Some u → (t < u)%Z).
Proof.
  unfold mark_ran. intros Ho Hj Hs Hw Hwf. rewrite Hj in Ho |- *. cbn [admitted_time] in *.
  destruct (x && _) eqn:Hx; cbv zeta.
  { left. split; [done|]. apply andb_true_iff in Hx as [-> Hx]. split; [done|]. intros -> Hr.
    rewrite Hr in Hx. cbn in Hx. by apply negb_true_iff, bool_decide_eq_false in Hx. }
  right. destruct (ran jid m e t k j) as [j' [[]|err]] eqn:E; [|done]. exists j'. split; [done|].
  apply ran_spec in E as (E1 & E2 & E3); [|done| |done].
  - split_and!; [done..|]. intros Hm Ht u Hu. destruct (E3 Hm Ht) as [?|(v & Hv & ?)]; [congruence|].
    by simplify_eq.
  - destruct (j_enabled j) eqn:He; [by left|right]. by apply (ok_off _ (wf_timing _ Hwf)).
Qed.

(** The end of the scheduler's run. *)
Lemma end_steady jid m k s s' : steady jid m s → end_run jid false k true s = Some s' →
  calm jid (LRan jid false k true) s → renamed jid s s' → steady jid m s'.
Proof.
  intros H E Hc Hr. unfold end_run in E. apply bind_Some in E as (f & Hf & E).
  destruct (f_logged f) eqn:Hl; [|done]. injection E as <-.
  destruct (Hc eq_refl) as [_ Hok]. destruct (Hok f Hf) as [o Ho]. clear Hok Hc.
  pose proof (mark_ran_wf jid false (Some (f_revision f)) (Some (f_time f)) false k true _ (st_wf _ _ _ H)) as Hw.
  destruct (st_flight _ _ _ H f Hf) as [F1 F2 F3 F4 F5]. destruct H as [H1 H2 H3 H4 H5 H6].
  assert (∀ t, t ∈ starts jid (journal s) → (t ≤ f_time f)%Z) as Hle.
  { intros t Ht. destruct (F2 t Ht) as [?|[_ ->]]; lia. }
  set (r := (mark_ran _ _ _ _ _ _ _ _).1) in *.
  assert (disk r !! jid = jobs r !! jid ∧ ∀ j', jobs r !! jid = Some j' → ∃ j, job_at jid s = Some j ∧ evolves j j' ∧
    j_run_count j' = (j_run_count j + 1)%Z ∧ ∀ u, j_scheduled j' = Some u → (f_time f < u)%Z) as [Hd Hj'].
  { unfold r. destruct (jobs (registry s) !! jid) as [j|] eqn:Hj;
      [|unfold mark_ran; rewrite Hj; cbn; split; [congruence|intros ? ?; cbn in *; congruence]].
    destruct (H3 j Hj) as [W R S M P C].
    assert (false = false → same_revision (Some (f_revision f)) j = true → j_enabled j = true →
      j_scheduled j = Some (f_time f)) as Hs.
    { intros _ Hrev _. cbn in Hrev. apply String.eqb_eq in Hrev. by apply (F4 j). }
    destruct (mark_ran_at _ _ _ _ _ _ _ _ _ Ho Hj Hs W (row_wf _ _ _ H1 Hj))
      as [[_ [? _]]|(j' & -> & Ev & Ec & Et)]; [done|].
    cbn. rewrite lookup_insert_eq. split; [done|]. intros ? [= <-]. exists j. split_and!; [done..|].
    intros u Hu. destruct (ev_scheduled _ _ Ev) as [Es|[Es|(v & w & Hv & Hw' & Hvw)]].
    - rewrite Es in Hu. pose proof (F3 j u Hj Hu). destruct (decide (u = f_time f)) as [->|]; [|lia].
      apply Et; [done|done|congruence].
    - congruence.
    - pose proof (F3 j v Hj Hv). simplify_eq. lia. }
  split; [done|done| |done|done|].
  - intros j' Hj. destruct (Hj' j' Hj) as (j & Hj0 & Ev & Ec & Et). destruct (H3 j Hj0) as [W R S M P C]. split.
    + by eapply evolves_waiting.
    + destruct (Hr j j' Hj0 Hj) as [->|[? _]]; done.
    + by rewrite (ev_session _ _ Ev).
    + by rewrite (ev_max _ _ Ev).
    + intros t u Ht Hu. left. specialize (Hle t Ht). specialize (Et u Hu). lia.
    + intros He. specialize (C (ev_enabled _ _ Ev He)). unfold open_runs in *. rewrite Hf, Hl in C.
      rewrite Ec. cbn in C |- *. lia.
  - intros n Hn. specialize (H6 n Hn). unfold open_runs in *. rewrite Hf, Hl in H6. exact H6.
Qed.

(** ** Restarts *)

Lemma reconcile_wf l ks saved s : store_wf s → store_wf (reconcile l ks saved s).1.
Proof.
  revert s. induction l as [|[i e] l IH]; intros s H; [done|]. cbn [reconcile].
  pose proof (mark_ran_wf i (e_manual e) (Some (e_revision e)) (Some (e_occurrence e)) true (ks i) saved s H) as H1.
  destruct (mark_ran _ _ _ _ _ _ _ _) as [s1 [o|]]; [|done]. specialize (IH s1 H1).
  by destruct (reconcile l ks saved s1) as [s2 [|]].
Qed.

Lemma reconcile_job jid l ks s s' n : reconcile l ks true s = (s', Ok n) → NoDup (map fst l) →
  disk s !! jid = jobs s !! jid → disk s' !! jid = jobs s' !! jid ∧
  ((∀ e, (jid, e) ∉ l) → jobs s' !! jid = jobs s !! jid) ∧
  (∀ e, (jid, e) ∈ l → ∃ s1 o, jobs s1 !! jid = jobs s !! jid ∧ disk s1 !! jid = jobs s1 !! jid ∧
     (mark_ran jid (e_manual e) (Some (e_revision e)) (Some (e_occurrence e)) true (ks jid) true s1).2 = Ok o ∧
     jobs s' !! jid =
       jobs (mark_ran jid (e_manual e) (Some (e_revision e)) (Some (e_occurrence e)) true (ks jid) true s1).1 !! jid).
Proof.
  revert s n. induction l as [|[i e] l IH]; intros s n E Hd Hs.
  { injection E as <- _. split_and!; [done..|]. intros e He. by apply elem_of_nil in He. }
  cbn [map fst] in Hd. apply NoDup_cons in Hd as [Hi Hd]. cbn [reconcile] in E.
  set (mr := mark_ran i _ _ _ _ _ _ s) in *. destruct mr as [s1 [o|x]] eqn:Em; [|done].
  destruct (reconcile l ks true s1) as [s2 [n2|x]] eqn:E2; [|done]. injection E as <- _.
  assert (∀ e', i = jid → (jid, e') ∉ l) as Hno.
  { intros e' -> Hin. apply Hi. apply list_elem_of_fmap. by exists (jid, e'). }
  destruct (decide (i = jid)) as [->|Hne].
  - assert (disk s1 !! jid = jobs s1 !! jid) as Hs1.
    { unfold mr, mark_ran in Em. destruct (jobs s !! jid) eqn:Hj; [|injection Em as <- _; congruence].
      destruct (true && _); [injection Em as <- _; congruence|]. destruct (ran _ _ _ _ _ _) as [j1 [?|?]]; [|done].
      by injection Em as <- _. }
    destruct (IH s1 n2 E2 Hd Hs1) as (D & Hn & _). split_and!; [done| |].
    + intros H. exfalso. apply (H e). by left.
    + intros e' [[= ->]|He']%elem_of_cons; [|by destruct (Hno e' eq_refl)].
      exists s, o. unfold mr in Em. rewrite Em. split_and!; [done..|]. apply Hn. intros e1. by apply Hno.
  - assert (jobs s1 !! jid = jobs s !! jid ∧ disk s1 !! jid = jobs s1 !! jid) as [Hj1 Hs1].
    { unfold mr, mark_ran in Em. destruct (jobs s !! i); [|by injection Em as <- _].
      destruct (true && _); [by injection Em as <- _|]. destruct (ran _ _ _ _ _ _) as [j1 [?|?]]; [|done].
      injection Em as <- _. cbn. by rewrite !lookup_insert_ne by done. }
    destruct (IH s1 n2 E2 Hd Hs1) as (D & Hn & Hy). split_and!; [done| |].
    + intros H. rewrite Hn, Hj1; [done|]. intros e' He'. apply (H e'). by right.
    + intros e' [[= -> _]|He']%elem_of_cons; [done|]. rewrite <-Hj1. by apply Hy.
Qed.

Lemma admissions_spec log js jid e : (jid, e) ∈ admissions log js ↔
  ∃ j, js !! jid = Some j ∧ durable_admission log jid j = Some e.
Proof.
  unfold admissions. rewrite merge_sort_Permutation, list_elem_of_omap. split.
  - intros ([i j] & Hin & H). apply elem_of_map_to_list in Hin. apply fmap_Some in H as (x & Hx & [= <- <-]). eauto.
  - intros (j & Hj & H). exists (jid, j). split; [by apply elem_of_map_to_list|]. by rewrite H.
Qed.

Lemma admissions_NoDup log js : NoDup (map fst (admissions log js)).
Proof.
  unfold admissions. rewrite merge_sort_Permutation. pose proof (NoDup_fst_map_to_list js) as H.
  induction (map_to_list js) as [|[i j] l IH]; [apply NoDup_nil_2|].
  cbn in H |- *. apply NoDup_cons in H as [Hi H]. destruct (durable_admission log i j) as [e|]; [|auto].
  cbn. apply NoDup_cons. split; [|auto]. intros Hx. apply Hi. apply list_elem_of_fmap in Hx as ([i' e'] & -> & Hx).
  apply list_elem_of_omap in Hx as ([i2 j2] & Hin & H2). apply fmap_Some in H2 as (? & _ & [= -> ->]).
  apply list_elem_of_fmap. by exists (i2, j2).
Qed.

Lemma durable_owns log jid j e : durable_admission log jid j = Some e → owns jid j e = true.
Proof. unfold durable_admission. destruct (_ && _); [|done]. intros H. by apply find_some in H as [_ H]. Qed.

(** A run that is in the journal is found again. *)
Lemma durable_found log jid j e : e ∈ log → owns jid j e = true → e_manual e = false → j_session j ≠ "" →
  startswith "job_rev_" (j_revision j) = true → is_Some (durable_admission log jid j).
Proof.
  intros He Ho Hm Hs Hr. unfold durable_admission. rewrite (proj2 (String.eqb_neq _ _) Hs), Hr.
  assert (occurrence j ≠ None) as Hoc.
  { unfold owns in Ho. rewrite Hm in Ho. apply andb_true_iff in Ho as [_ Ho%bool_decide_eq_true]. congruence. }
  rewrite bool_decide_eq_false_2 by done. cbn [negb andb orb].
  destruct (find (owns jid j) (reverse log)) eqn:E; [by eexists|]. exfalso.
  eapply find_none in E; [|apply list_elem_of_In, elem_of_reverse, He]. congruence.
Qed.

Lemma load_job jid sess k revs s : disk s !! jid = jobs s !! jid → let r := (load sess k revs true s).1 in
  disk r !! jid = jobs r !! jid ∧ ∀ j', jobs r !! jid = Some j' → ∃ j, jobs s !! jid = Some j ∧ evolves j j' ∧
    (j' = j ∨ j_enabled j' = false ∧ j_scheduled j' = None).
Proof.
  intros Hd. unfold load. set (js := map_imap _ (disk s)).
  assert (∀ j', js !! jid = Some j' → ∃ j, jobs s !! jid = Some j ∧ evolves j j' ∧
    (j' = j ∨ j_enabled j' = false ∧ j_scheduled j' = None)) as H.
  { intros j' Hj'. unfold js in Hj'. rewrite map_lookup_imap, Hd in Hj'.
    apply bind_Some in Hj' as (j & Hj & [= <-]). exists j. split; [done|]. unfold loaded.
    destruct (sess !! j_session j) as [p|]; [|by split; [|left]]. destruct (s_archived p && _); [|by split; [|left]].
    split; [|by right]. by apply evolves_off; [..|apply Z.le_refl| |]. }
  case_bool_decide as E; cbn; [|done]. split; [by rewrite E|done].
Qed.

(** What a restart makes of a job [j1] that [load] returned. *)
Lemma admitted_job jid log ks s s' n j1 : reconcile_admitted_runs log ks true s = (s', Ok n) →
  disk s !! jid = jobs s !! jid → jobs s !! jid = Some j1 → waiting j1 → job_wf j1 →
  ∃ j', jobs s' !! jid = Some j' ∧ evolves j1 j' ∧
  ∀ e, durable_admission log jid j1 = Some e → e_manual e = false →
    j_run_count j' = (j_run_count j1 + 1)%Z ∧
    (j_scheduled j1 = Some (e_occurrence e) → ∀ u, j_scheduled j' = Some u → (e_occurrence e < u)%Z).
Proof.
  unfold reconcile_admitted_runs. intros E Hd Hj Hw Hwf.
  destruct (reconcile_job jid _ _ _ _ _ E (admissions_NoDup _ _) Hd) as (_ & Hn & Hy).
  destruct (durable_admission log jid j1) as [e|] eqn:He.
  2:{ exists j1. split_and!; [|done|done]. rewrite Hn; [done|]. intros e He'.
      apply admissions_spec in He' as (j & Hj' & He'). congruence. }
  destruct (Hy e) as (s1 & o & Hj1 & Hd1 & Ho & ->); [apply admissions_spec; eauto|]. rewrite Hj in Hj1.
  pose proof (durable_owns _ _ _ _ He) as Hown. unfold owns in Hown.
  apply andb_true_iff in Hown as [[_ Hr%String.eqb_eq]%andb_true_iff Hm].
  destruct (mark_ran_at _ _ _ _ _ _ _ _ _ Ho Hj1) as [[-> [_ Hx]]|(j' & -> & Ev & Ec & Et)]; [|done..| |].
  - intros Em _ Hen. rewrite Em in Hm. apply bool_decide_eq_true in Hm. unfold occurrence in Hm.
    destruct (wt_some _ Hw Hen) as [t Ht]. by rewrite Ht in Hm |- *.
  - exists j1. split_and!; [done..|]. intros e' [= <-] Em. exfalso. rewrite Em in Hm. apply bool_decide_eq_true in Hm.
    apply (Hx Em); [|done]. cbn. rewrite Hr. apply String.eqb_refl.
  - exists j'. cbn. rewrite lookup_insert_eq. split_and!; [done..|]. intros e' [= <-] Em. auto.
Qed.

(** A job after a restart, from the one before ([j]) and the one loaded ([j1]). *)
Lemma restarted_job jid m s j j1 j' : steady jid m s → job_at jid s = Some j →
  (∀ f, flight_of jid false s = Some f → f_logged f = true → f_revision f = j_revision j) →
  j1 = j ∨ j_enabled j1 = false ∧ j_scheduled j1 = None → evolves j1 j' →
  (∀ e, durable_admission (journal s) jid j1 = Some e → e_manual e = false →
    j_run_count j' = (j_run_count j1 + 1)%Z ∧
    (j_scheduled j1 = Some (e_occurrence e) → ∀ u, j_scheduled j' = Some u → (e_occurrence e < u)%Z)) →
  (∀ t u, t ∈ starts jid (journal s) → j_scheduled j' = Some u → (t < u)%Z) ∧
  (j_enabled j' = true → (Z.of_nat (length (starts jid (journal s))) ≤ j_run_count j')%Z).
Proof.
  intros H Hj Hc Hcase Ev Had. destruct (st_job _ _ _ H j Hj) as [W R S M P C].
  destruct Hcase as [->|[Hoff Hnone]].
  2:{ split; [|intros He; apply (ev_enabled _ _ Ev) in He; congruence]. intros t u _ Hu. exfalso.
      destruct (ev_scheduled _ _ Ev) as [Es|[Es|(v & w & Hv & _)]]; congruence. }
  (* without a run whose event is written *)
  assert ((∀ g, flight_of jid false s = Some g → f_logged g = false) →
    (∀ t u, t ∈ starts jid (journal s) → j_scheduled j' = Some u → (t < u)%Z) ∧
    (j_enabled j' = true → (Z.of_nat (length (starts jid (journal s))) ≤ j_run_count j')%Z)) as Hrest.
  { intros Hno. split.
    - intros t u Ht Hu. assert (∀ v, j_scheduled j = Some v → (t < v)%Z) as Hp.
      { intros v Hv. destruct (P t v Ht Hv) as [?|(g & Hg & ? & _)]; [done|]. apply Hno in Hg. congruence. }
      destruct (ev_scheduled _ _ Ev) as [Es|[Es|(v & w & Hv & Hw & Hvw)]]; [apply Hp; congruence|congruence|].
      specialize (Hp v Hv). simplify_eq. lia.
    - intros He. specialize (C (ev_enabled _ _ Ev He)). pose proof (ev_count _ _ Ev). unfold open_runs in C.
      destruct (flight_of jid false s) as [g|]; [rewrite (Hno g eq_refl) in C|]; cbn [Bool.eqb] in C; lia. }
  destruct (flight_of jid false s) as [f|] eqn:Hf; [destruct (f_logged f) eqn:Hl|].
  - destruct (st_flight _ _ _ H f Hf) as [F1 F2 F3 F4 F5]. specialize (Hc f eq_refl Hl).
    destruct (F4 j Hj Hc) as (Hm & Hs & Hses).
    assert (occurrence j = Some (f_time f)) as Ho by (unfold occurrence; by rewrite Hs).
    assert (owns jid j (event_of false f) = true) as Hown.
    { unfold owns. cbn. rewrite F1, Hc, Hses, !String.eqb_refl. by apply bool_decide_eq_true. }
    destruct (durable_found _ _ _ _ (F5 Hl) Hown eq_refl S R) as [e He].
    pose proof (durable_owns _ _ _ _ He) as Hoe. unfold owns in Hoe. rewrite Hm, Ho in Hoe.
    apply andb_true_iff in Hoe as [_ Hoe]. destruct (e_manual e) eqn:Em; [done|].
    apply bool_decide_eq_true in Hoe. rename Hoe into Ht'. destruct (Had e He Em) as [Hcount Hlt].
    injection Ht' as Ht'. rewrite <-Ht' in Hlt. specialize (Hlt Hs). split.
    + intros t u Ht Hu. specialize (Hlt u Hu). destruct (F2 t Ht) as [?|[_ ->]]; lia.
    + intros He'. specialize (C (ev_enabled _ _ Ev He')). unfold open_runs in C. rewrite Hf, Hl in C.
      rewrite Hcount. exact C.
  - apply Hrest. by intros g [= <-].
  - by apply Hrest.
Qed.

Lemma restart_steady jid m sess k revs ks s s' : steady jid m s → restart sess k revs ks s = Some s' →
  calm jid (LRestart sess k revs ks) s → renamed jid s s' → steady jid m s'.
Proof.
  intros H E Hc Hr. unfold restart in E.
  pose proof (apply_op_wf (OLoad sess k revs) true _ (st_wf _ _ _ H)) as Hw1. cbn [apply_op] in Hw1.
  destruct (load_job jid sess k revs _ (st_disk _ _ _ H)) as [Hd1 Hj1].
  set (r1 := (load sess k revs true (registry s)).1) in *.
  destruct (reconcile_admitted_runs (journal s) ks true r1) as [r [n|]] eqn:Er; [|done]. injection E as <-.
  pose proof Er as Er'. unfold reconcile_admitted_runs in Er'.
  pose proof (reconcile_wf (admissions (journal s) (jobs r1)) ks true r1 Hw1) as Hw. rewrite Er' in Hw.
  destruct (reconcile_job jid _ _ _ _ _ Er' (admissions_NoDup _ _) Hd1) as (Hd & Hno & _).
  (* the job after the restart, from the one before *)
  assert (∀ j', jobs r !! jid = Some j' → ∃ j, job_at jid s = Some j ∧ evolves j j' ∧
    (∀ t u, t ∈ starts jid (journal s) → j_scheduled j' = Some u → (t < u)%Z) ∧
    (j_enabled j' = true → (Z.of_nat (length (starts jid (journal s))) ≤ j_run_count j')%Z)) as Hj'.
  { intros j' Hj'. destruct (jobs r1 !! jid) as [j1|] eqn:Hjr1.
    2:{ exfalso. rewrite Hno in Hj'; [congruence|]. intros e He. apply admissions_spec in He as (? & ? & _). congruence. }
    destruct (Hj1 j1 eq_refl) as (j & Hj & Ev & Hcase). pose proof (st_job _ _ _ H j Hj) as HJ.
    pose proof (evolves_waiting _ _ Ev (jo_waiting _ _ _ _ HJ)) as Hwait. rewrite <-Hjr1 in Hd1.
    destruct (admitted_job jid _ _ _ _ _ j1 Er Hd1 Hjr1 Hwait (row_wf _ _ _ Hw1 Hjr1)) as (j2 & Hj2 & Ev2 & Had).
    assert (j2 = j') as -> by congruence. exists j. split; [done|].
    split; [eapply evolves_trans; [apply HJ|done..]|].
    eapply restarted_job; [done|exact Hj| |done..]. intros f Hf Hl. by apply (Hc f j). }
  destruct H as [H1 H2 H3 H4 H5 H6]. split; [done|done| |done|done|].
  - intros j' Hj. destruct (Hj' j' Hj) as (j & Hj0 & Ev & Hlt & Hcnt). destruct (H3 j Hj0) as [W R S M P C]. split.
    + by eapply evolves_waiting.
    + destruct (Hr j j' Hj0 Hj) as [->|[? _]]; done.
    + by rewrite (ev_session _ _ Ev).
    + by rewrite (ev_max _ _ Ev).
    + intros t u Ht Hu. left. by apply Hlt.
    + intros He. rewrite Z.add_0_r. by apply Hcnt.
  - intros n' Hn. specialize (H6 n' Hn). unfold open_runs in *. cbn [flight_of auto].
    destruct (flight_of jid false s) as [f|]; [destruct (Bool.eqb _ _)|]; cbn [journal]; lia.
Qed.

Lemma end_others jid i m k saved s s' (M : option Z) : end_run i m k saved s = Some s' →
  steady jid M s → (i = jid → m = true ∧ saved = true ∧ ∀ f, flight_of jid m s = Some f → ∃ o,
      (mark_ran jid m (Some (f_revision f)) (Some (f_time f)) false k true (registry s)).2 = Ok o) →
  renamed jid s s' → steady jid M s'.
Proof.
  intros E H Hi Hr. unfold end_run in E. apply bind_Some in E as (f & Hf & E).
  destruct (f_logged f); [|done]. injection E as <-.
  assert (flight_of jid false (set_flight i m None s) = flight_of jid false s) as Hfl.
  { apply set_other. intros ->. split_and!; [|right; by eexists|done].
    intros ->. destruct (Hi eq_refl) as [? _]. done. }
  assert (steady jid M (set_flight i m None s)) as H1 by (by eapply steady_same; [..|exact H]; destruct m).
  assert (registry (set_flight i m None s) = registry s) as Ereg by (by destruct m).
  apply steady_moved; [exact H1|apply mark_ran_wf, H| |].
  - rewrite Ereg. destruct (decide (i = jid)) as [->|Hne]; [|by apply mark_ran_moved].
    destruct (Hi eq_refl) as (-> & -> & Hok). destruct (Hok f Hf) as [o Ho].
    destruct (jobs (registry s) !! jid) as [j|] eqn:Hj; [|unfold mark_ran; rewrite Hj; apply moved_refl].
    destruct (mark_ran_at _ _ _ _ _ _ _ _ _ Ho Hj) as [[-> _]|(j' & -> & Ev & _)];
      [done|by eapply steady_waiting|by eapply row_wf, Hj; apply H|apply moved_refl|].
    by apply (moved_insert _ _ _ _ _ Hj).
  - intros j j' Hj Hj'. unfold job_at in Hj. rewrite Ereg in Hj. rewrite Hfl. by apply (Hr j j').
Qed.

(** A step of another run. *)
Lemma set_same jid i man f g s : flight_of i man s = Some f → man = true ∨ i ≠ jid →
  (∀ h, g = Some h → f_job h = f_job f) →
  registry (set_flight i man g s) = registry s ∧ journal (set_flight i man g s) = journal s ∧
  flight_of jid false (set_flight i man g s) = flight_of jid false s.
Proof.
  intros Hf Ho Hg. split_and!; [by destruct man..|]. apply set_other. intros ->. destruct Ho as [|Ho]; [done|].
  apply flight_job in Hf as Hf'. split_and!; [done|right; by eexists|]. intros h Hh. rewrite (Hg h Hh). apply Hf'.
Qed.

Lemma accept_steady jid m i man s s' : steady jid m s → accept_run i man s = Some s' → steady jid m s'.
Proof.
  intros H E. unfold accept_run in E. apply bind_Some in E as (f & Hf & E).
  destruct (assert_dispatch_revision _ _ _ _); [|done]. destruct (f_logged f) eqn:Hl; [done|]. apply (inj Some) in E as <-.
  destruct (decide (man = true ∨ i ≠ jid)) as [Ho|Ho].
  - destruct (set_same jid i man f (Some (f {{ f_accepted := true }})) s Hf Ho) as (E1 & E2 & E3); [by intros h [= <-]|].
    eapply steady_same; [done|by rewrite E2|by rewrite E2|done|done].
  - assert (man = false ∧ i = jid) as [-> ->] by (destruct man; [tauto|split; [done|]; destruct (decide (i = jid)); tauto]).
    eapply (steady_flight jid m s _ f (f {{ f_accepted := true }})); try done.
    apply flight_job in Hf as [Hj _]. destruct f. cbn in *. by rewrite Hj, String.eqb_refl.
Qed.

Lemma log_others jid m i man s s' : steady jid m s → log_run i man s = Some s' → man = true ∨ i ≠ jid →
  steady jid m s'.
Proof.
  intros H E Ho. unfold log_run in E. apply bind_Some in E as (f & Hf & E). destruct (_ && _); [|done].
  apply (inj Some) in E as <-.
  destruct (set_same jid i man f (Some (f {{ f_logged := true }})) s Hf Ho) as (E1 & E2 & E3); [by intros h [= <-]|].
  eapply steady_same; [exact E1| | |exact E3|exact H]; cbn [journal]; rewrite E2.
  - rewrite starts_app. assert (is_auto jid (event_of man f) = false) as ->; [|by rewrite app_nil_r].
    unfold is_auto. cbn. destruct Ho as [->|Ho]; [by rewrite andb_false_r|]. destruct man; [by rewrite andb_false_r|].
    apply flight_job in Hf as [-> _]. by rewrite (proj2 (String.eqb_neq i jid)).
  - intros e He. apply elem_of_app. by left.
Qed.

Lemma calm_steady jid m l s s' : steady jid m s → jstep l s = Some s' → calm jid l s → renamed jid s s' →
  steady jid m s'.
Proof.
  intros H E Hc Hr. destruct l as [o saved|i man late k|i man|i man|i man|i man k saved|sess k revs ks]; cbn [jstep] in E.
  - apply (inj Some) in E as <-. destruct Hc as (-> & Hl & _).
    apply steady_moved; [done|by apply apply_op_wf, H|apply op_moved; [done|by eapply steady_waiting]|done].
  - destruct man; [|destruct (decide (i = jid)) as [->|Hne]; [by eapply start_steady; [..|exact E]; [done|apply Hc]|]];
      (unfold start_run in E; apply bind_Some in E as (j & _ & E); destruct (_ && _) eqn:Hg; [|done];
       apply (inj Some) in E as <-; eapply steady_same; [..|exact H]; try done).
    apply andb_true_iff in Hg as [Hg%bool_decide_eq_true _].
    apply (set_other jid i false). intros _. split_and!; [done|by left|by intros g [= <-]].
  - by eapply accept_steady.
  - destruct man; [|destruct (decide (i = jid)) as [->|Hne]];
      [by eapply log_others; [..|left]|by eapply log_steady|by eapply log_others; [..|right]].
  - destruct man; [|destruct (decide (i = jid)) as [->|Hne]; [eapply refuse_steady; [done..|by apply Hc]|]];
      (unfold refuse_run in E; apply bind_Some in E as (f & Hf & E); apply (inj Some) in E as <-).
    + destruct (set_same jid i true f None s Hf) as (E1 & E2 & E3); [by left|done|].
      eapply steady_same; [done|by rewrite E2|by rewrite E2|done|done].
    + destruct (set_same jid i false f None s Hf) as (E1 & E2 & E3); [by right|done|].
      eapply steady_same; [done|by rewrite E2|by rewrite E2|done|done].
  - destruct man; [|destruct (decide (i = jid)) as [->|Hne]].
    + eapply end_others; [done..| |done]. intros ->. split; [done|by apply Hc].
    + destruct (Hc eq_refl) as [-> _]. by eapply end_steady.
    + by eapply end_others; [done..| |done].
  - by eapply restart_steady.
Qed.

Lemma calm_run_steady jid m ls s s' : calm_run jid ls s s' → steady jid m s → steady jid m s'.
Proof. induction 1; [done|]. intros Hs. by apply IHcalm_run, (calm_steady jid m l s). Qed.
End once.
