(* ===== verification/JobStops.v ===== *)
(** * Scheduled jobs: archived chats

    Nothing but an edit or a request of a user turns a job on, and both look at
    the chat first. *)
From S2P Require Import Prelude PyValues JobRules Jobs JobSpec.

Open Scope string_scope.

Section stops.
Context {host : JobHost}.

(** The job is of the same chat and is not turned on. *)
Record quiet (j j' : job) : Prop := {
  qu_session : j_session j' = j_session j;
  qu_enabled : j_enabled j = false → j_enabled j' = false;
  qu_manual : j_manual j = false → j_manual j' = false;
}.

#[global] Instance quiet_refl : Reflexive quiet.
Proof. by split. Qed.
#[global] Instance quiet_trans : Transitive quiet.
Proof. intros a b c [] []. split; auto. congruence. Qed.

(** Jobs of the chat [c] do not run. *)
Definition stopped (c : string) (js : gmap string job) : Prop :=
  ∀ i j, js !! i = Some j → j_session j = c → j_enabled j = false ∧ j_manual j = false.

Lemma stopped_insert c i j0 j (js : gmap string job) : stopped c js → js !! i = Some j0 → quiet j0 j →
  stopped c (<[i := j]> js).
Proof.
  intros H Hi [Q1 Q2 Q3] i' j' [[<- <-]|[_ Hj]]%lookup_insert_Some Hc; [|by eapply H].
  destruct (H _ _ Hi); [congruence|]. auto.
Qed.

Lemma stopped_imap c (f : string → job → job) js : stopped c js → (∀ i j, quiet j (f i j)) →
  stopped c (map_imap (λ i j, Some (f i j)) js).
Proof.
  intros H Hf i j' Hj Hc. rewrite map_lookup_imap in Hj. apply bind_Some in Hj as (j & Hj & [= <-]).
  destruct (Hf i j) as [Q1 Q2 Q3]. destruct (H i j Hj); [congruence|]. auto.
Qed.

Lemma stopped_sub c js js' : stopped c js → js' ⊆ js → stopped c js'.
Proof. intros H Hs i j Hj. apply H with i. by eapply lookup_weaken. Qed.

Lemma stopped_save {A} c saved js s (a : A) : stopped c js → stopped c (jobs (save saved js s a).1).
Proof. by destruct saved. Qed.

Lemma stopped_undo {A} c saved js s (a : A) : stopped c js → stopped c (jobs s) →
  stopped c (jobs (save_or_undo saved js s a).1).
Proof. by destruct saved. Qed.

(** ** The steps of a run *)

Lemma next_run_quiet jid a j : quiet j (next_run jid a j).1.
Proof.
  unfold next_run. destruct (next_job_occurrence _ _ _ _); [|done]. split; [done| |done].
  cbn. by intros ->.
Qed.

Lemma disable_quiet j : quiet j (disable j).
Proof. by split. Qed.

Lemma after_run_quiet jid m adv t now before j : quiet j (after_run jid m adv t now before j).1.
Proof.
  unfold after_run. destruct (additive _ _ _ _); [done|]. destruct (_ && _ && _ && _); [apply next_run_quiet|].
  destruct (_ || _); [apply disable_quiet|done].
Qed.

Lemma ran_quiet jid m e t k j : quiet j (ran jid m e t k j).1.
Proof.
  unfold ran. assert (quiet j (counted m t k j)) as Hc by (destruct m; by split).
  pose proof (after_run_quiet jid m (same_revision e j || bool_decide (occurrence j = Some t)) t (now k)
    (occurrence j) (counted m t k j)) as Ha.
  destruct (after_run _ _ _ _ _ _ _) as [j1 [?|?]]; cbn in *; [|by transitivity (counted m t k j)].
  transitivity (counted m t k j); [done|]. transitivity j1; [done|by split].
Qed.

Lemma mark_ran_stopped c jid m e t x k saved s : stopped c (jobs s) →
  stopped c (jobs (mark_ran jid m e t x k saved s).1).
Proof.
  intros H. unfold mark_ran. destruct (jobs s !! jid) as [j|] eqn:Hj; [|done]. destruct (x && _); [done|].
  pose proof (ran_quiet jid m e (admitted_time t k j) k j) as Hr. destruct (ran _ _ _ _ _ _) as [j1 r].
  assert (stopped c (<[jid := j1]> (jobs s))) by (by eapply stopped_insert).
  destruct r; [by apply stopped_save|done].
Qed.

Lemma fail_stopped c jid e k saved s : stopped c (jobs s) → stopped c (jobs (fail_occurrence jid e k saved s).1).
Proof.
  intros H. unfold fail_occurrence. destruct (jobs s !! jid) as [j|] eqn:Hj; [|done]. destruct (negb _); [done|].
  match goal with |- context [let '(_, _) := ?X in _] => assert (quiet j X.1) as Hq; [|destruct X as [j1 r]] end.
  { destruct (_ && _); [apply next_run_quiet|apply disable_quiet]. }
  destruct r; [apply stopped_save|]; (eapply stopped_insert; [done|done|]); [|done].
  by transitivity j1.
Qed.

(** ** Edits and requests *)

Definition is_archived (sess : gmap string session) (c : string) : bool :=
  match sess !! c with Some p => s_archived p | None => false end.

Lemma parent_archived sess c p : parent_of sess c = Ok p → is_archived sess c = false.
Proof. unfold parent_of, is_archived. destruct (sess !! c) as [q|]; [|done]. intros H. inv_res. done. Qed.

Lemma new_job_session sess q jid k j : new_job sess q jid k = Ok j → j_session j = q_session q.
Proof.
  unfold new_job. intros H. inv_res.
  match goal with x : job_context * option string |- _ => destruct x as [mode backend] end. inv_res.
  clear -H. match type of H with (if negb (q_enabled q) then Ok ?J else _) = _ => set (j0 := J) in * end.
  destruct (negb (q_enabled q)); [by apply Ok_inj in H as <-|].
  apply res_bind_Ok in H as (next & _ & H). by apply Ok_inj in H as <-.
Qed.

Lemma create_stopped c sess sess' q jid k saved s : stopped c (jobs s) → is_archived sess' c = true →
  stopped c (jobs (create sess sess' q jid k saved s).1).
Proof.
  intros H Ha. unfold create. destruct (_ ≫= _) as [j|] eqn:E; [|done]. inv_res.
  match goal with Hn : new_job _ _ _ _ = _, Hp : parent_of _ _ = _ |- _ =>
    apply new_job_session in Hn; apply parent_archived in Hp end.
  destruct saved; cbn; [|eapply stopped_sub; [done|apply delete_subseteq]].
  intros i j' [[<- <-]|[_ Hj]]%lookup_insert_Some Hc; [congruence|by eapply H].
Qed.

Lemma archived_patch_off sess p j p' : archived_patch sess p j = Ok p' → is_archived sess (j_session j) = true →
  p_enabled p' = Some (Some false).
Proof.
  unfold archived_patch, is_archived. destruct (sess !! j_session j) as [q|]; [|done]. intros H Ha.
  rewrite Ha in H. apply res_bind_Ok in H as (? & _ & H). by apply Ok_inj in H as <-.
Qed.

Lemma patch_contract_enabled sess p j p' : patch_contract sess p j = Ok p' → p_enabled p' = p_enabled p.
Proof.
  unfold patch_contract. intros H. apply res_bind_Ok in H as (? & _ & H).
  destruct (_ && _); [by apply Ok_inj in H as <-|]. destruct (sess !! j_session j); [|done].
  apply res_bind_Ok in H as ([mode b] & _ & H). apply Ok_inj in H as <-. destruct p. by destruct (given _).
Qed.

Lemma drop_legacy_enabled p j : p_enabled (drop_legacy_interval p j) = p_enabled p.
Proof. unfold drop_legacy_interval. by destruct (_ && _). Qed.

Lemma patch_schedule_same p jid cur now j j' : patch_schedule p jid cur now j = Ok j' →
  j_session j' = j_session j ∧ j_enabled j' = j_enabled j ∧ j_manual j' = j_manual j.
Proof.
  assert (∀ c x, j_session (patch_runs p c x) = j_session x ∧ j_enabled (patch_runs p c x) = j_enabled x
    ∧ j_manual (patch_runs p c x) = j_manual x) as Hr.
  { intros c x. unfold patch_runs. destruct x. cbn. repeat case_match; done. }
  assert (∀ x, j_session (patch_calendar_runs p x) = j_session x ∧ j_enabled (patch_calendar_runs p x) = j_enabled x
    ∧ j_manual (patch_calendar_runs p x) = j_manual x) as Hc.
  { intros x. unfold patch_calendar_runs. by destruct (p_max_runs p). }
  unfold patch_schedule. destruct (j_kind j); intros H; apply res_bind_Ok in H as (? & _ & H);
    apply Ok_inj in H as <-; [edestruct Hr as (-> & -> & ->)|edestruct Hc as (-> & -> & ->)..]; done.
Qed.

Lemma patch_anchor_session changed exact r n j : j_session (patch_anchor changed exact r n j) = j_session j.
Proof. destruct j. unfold patch_anchor. cbn. repeat case_match; done. Qed.

(** A patch that turns the job off. *)
Lemma patch_timing_off p jid changed was exact r j j' : patch_timing p jid changed was exact r j = Ok j' →
  j_enabled j = false → j_session j' = j_session j ∧ j_enabled j' = false ∧ j_manual j' = j_manual j.
Proof.
  unfold patch_timing. intros H He.
  set (j1 := if limit_reached j then j {{ j_enabled := false }} else j) in H.
  assert (j_enabled j1 = false ∧ j_session j1 = j_session j ∧ j_manual j1 = j_manual j) as (H1 & H2 & H3)
    by (unfold j1; by destruct (limit_reached j)).
  rewrite H1 in H. cbn [andb] in H.
  assert ((match exact with Some _ | None => Ok j1 end : res job) = Ok j1) as E by (by destruct exact).
  rewrite E in H. cbn in H. rewrite H1 in H. by injection H as <-.
Qed.

Lemma patch_timing_session p jid changed was exact r j j' : patch_timing p jid changed was exact r j = Ok j' →
  j_session j' = j_session j.
Proof.
  unfold patch_timing. intros H. apply res_bind_Ok in H as (j2 & H2 & H). apply Ok_inj in H as <-.
  set (j1 := if limit_reached j then j {{ j_enabled := false }} else j) in H2.
  assert (j_session j1 = j_session j) as E by (unfold j1; by destruct (limit_reached j)). rewrite <-E. clearbody j1.
  assert (j_session j2 = j_session j1); [|by destruct (j_enabled j2)].
  destruct exact as [t|]; [destruct (j_enabled j1); by apply Ok_inj in H2 as <-|].
  destruct (_ && _); [|by apply Ok_inj in H2 as <-].
  apply res_bind_Ok in H2 as (next & _ & H2). apply Ok_inj in H2 as <-. 
  destruct j1 as [? ? ? ? ? [] [i|]]; cbn; try done. by destruct (negb (i =? 0)%Z && _ && _).
Qed.

Lemma updated_quiet sess jid p n r k j j' : updated sess jid p n r k j = Ok j' →
  j_session j' = j_session j ∧
  (is_archived sess (j_session j) = true → j_enabled j' = false ∧ j_manual j' = j_manual j).
Proof.
  unfold updated. intros H.
  apply res_bind_Ok in H as (? & _ & H). apply res_bind_Ok in H as (p1 & Hp & H).
  apply res_bind_Ok in H as (j1 & H1 & H). apply res_bind_Ok in H as (p2 & Hp2 & H).
  set (p3 := drop_legacy_interval p2 j1) in *. apply res_bind_Ok in H as (nk & _ & H).
  apply res_bind_Ok in H as (zone & _ & H). apply res_bind_Ok in H as (changed & _ & H).
  apply res_bind_Ok in H as (exact & _ & H). apply res_bind_Ok in H as (j2 & H2 & H).
  apply res_bind_Ok in H as (j3 & H3 & H). apply Ok_inj in H as <-.
  assert (j_session j1 = j_session j ∧ j_manual j1 = j_manual j) as (S1 & M1).
  { unfold patch_references in H1. inv_res. done. }
  apply patch_schedule_same in H2 as (S2 & E2 & M2). pose proof (patch_timing_session _ _ _ _ _ _ _ _ H3) as S3.
  rewrite patch_anchor_session in S3.
  change (j_session j2 = j_session j1) in S2. change (j_manual j2 = j_manual j1) in M2.
  split; [change (j_session j3 = j_session j); congruence|]. intros Ha.
  pose proof (archived_patch_off _ _ _ _ Hp Ha) as Hoff.
  assert (given (p_enabled p3) = Some false) as Hg.
  { unfold p3. by rewrite drop_legacy_enabled, (patch_contract_enabled _ _ _ _ Hp2), Hoff. }
  destruct (anchor_fields changed exact (now2 k) (now k) j2) as ([] & _).
  apply patch_timing_off in H3 as (_ & He & Hm).
  - split; [done|]. change (j_manual j3 = j_manual j). congruence.
  - rewrite sr_enabled, E2. cbn. by rewrite Hg.
Qed.

Lemma update_stopped c sess jid p e n r k saved s : stopped c (jobs s) → is_archived sess c = true →
  stopped c (jobs (update sess jid p e n r k saved s).1).
Proof.
  intros H Ha. unfold update. destruct (_ ≫= _) as [j|] eqn:E; [|done]. inv_res.
  destruct (find_job _ _ _) as [j0|] eqn:Hj; inv_res. apply find_job_Some in Hj.
  match goal with Hu : updated _ _ _ _ _ _ _ = _ |- _ => apply updated_quiet in Hu as [Hs Hq] end.
  apply stopped_undo; [|done]. intros i j' [[<- <-]|[_ Hj']]%lookup_insert_Some Hc; [|by eapply H].
  destruct Hq as [He Hm]; [congruence|]. split; [done|]. rewrite Hm. apply (H _ _ Hj). congruence.
Qed.

(** ** Every operation *)

(** What the call sees of the chat. *)
Definition sees_archived (c : string) (o : job_op) : Prop :=
  match o with
  | OCreate _ sess _ _ _ | OUpdate sess _ _ _ _ _ _ | ORequest sess _ _ _ _ | OLoad sess _ _ =>
      is_archived sess c = true
  | _ => True
  end.

Lemma paused_quiet k j : quiet j (paused k j).
Proof. unfold paused. destruct (j_manual j) eqn:Hm; by split. Qed.

Lemma pause_stopped c x u k revs saved s : stopped c (jobs s) →
  stopped c (jobs (pause_for_session x u k revs saved s).1).
Proof.
  intros H. unfold pause_for_session. destruct (_ && _); [done|]. apply stopped_save, stopped_imap; [done|].
  intros i j. destruct (runs_in x j); [apply paused_quiet|done].
Qed.

Lemma defer_stopped c jid r d e t u k saved s : stopped c (jobs s) →
  stopped c (jobs (defer jid r d e t u k saved s).1).
Proof.
  intros H. unfold defer. destruct (jobs s !! jid) as [j|] eqn:Hj; [|done]. destruct (negb _); [done|].
  destruct (match u with Some id => _ | None => _ end); [|done].
  apply stopped_save. eapply stopped_insert; [done..|by split].
Qed.

(** A run by hand of a job of an archived chat is refused, and the jobs of the
    chat are paused. *)
Lemma request_stopped c sess jid e k revs saved s : stopped c (jobs s) → is_archived sess c = true →
  stopped c (jobs (request_manual_run sess jid e k revs saved s).1).
Proof.
  intros H Ha. unfold request_manual_run. destruct (find_job _ _ _) as [j|] eqn:Hj; [|done].
  apply find_job_Some in Hj. fold (is_archived sess (j_session j)). destruct (is_archived sess (j_session j)) eqn:E.
  - pose proof (pause_stopped c (j_session j) false k revs saved s H) as Hp.
    by destruct (pause_for_session _ _ _ _ _ _) as [s' [|]].
  - destruct (j_manual j) eqn:Hm; [done|]. apply stopped_save.
    intros i j' [[<- <-]|[_ Hj']]%lookup_insert_Some Hc; [|by eapply H].
    change (j_session j = c) in Hc. congruence.
Qed.

Lemma load_stopped c sess k revs saved s : is_archived sess c = true →
  stopped c (jobs (load sess k revs saved s).1).
Proof.
  intros Ha. unfold load. set (js := map_imap _ (disk s)).
  assert (stopped c js) as H.
  { intros i j' Hj Hc. unfold js in Hj. rewrite map_lookup_imap in Hj. apply bind_Some in Hj as (j & _ & [= <-]).
    unfold loaded, is_archived in *. destruct (sess !! j_session j) as [p|] eqn:Ep.
    - destruct (s_archived p && _) eqn:E; [done|]. rewrite <-Hc, Ep in Ha. rewrite Ha in E. cbn in E.
      by apply orb_false_iff in E.
    - by rewrite <-Hc, Ep in Ha. }
  case_bool_decide; [done|by apply stopped_save].
Qed.

Lemma op_stopped c o saved s : stopped c (jobs s) → sees_archived c o → stopped c (jobs (apply_op o saved s)).
Proof.
  intros H Ha. destruct o; cbn [apply_op sees_archived] in *.
  - by apply create_stopped.
  - by apply update_stopped.
  - unfold delete_job. destruct (find_job _ _ _); [|destruct expected; [done|]]; apply stopped_undo; try done.
    eapply stopped_sub; [done|apply delete_subseteq].
  - apply stopped_undo; [|done]. eapply stopped_sub; [done|apply map_filter_subseteq].
  - by apply pause_stopped.
  - unfold pause_for_chat_reference_repair. destruct (jobs s !! jid) as [j|] eqn:Hj; [|done].
    destruct (String.eqb _ _); [|done]. apply stopped_save. eapply stopped_insert; [done..|by split].
  - by apply mark_ran_stopped.
  - by apply defer_stopped.
  - unfold defer_for_pending_server_update. destruct (strip _); [done|by apply defer_stopped].
  - unfold resume_update_parked. destruct (Nat.eqb _ _); [done|]. apply stopped_save, stopped_imap; [done|].
    intros i j. destruct (resumes _ _ _); [|done]. unfold resumed. destruct (j_park j) as [q|]; [|done].
    split; by destruct (exact_park q j).
  - unfold defer_runtime_unavailable. destruct (jobs s !! jid) as [j|] eqn:Hj; [|done]. destruct (negb _); [done|].
    destruct (_ <=? _)%Z; [done|]. apply stopped_save. eapply stopped_insert; [done..|by split].
  - by apply request_stopped.
  - unfold record_manual_run_deferred. destruct (jobs s !! jid) as [j|] eqn:Hj; [|done].
    destruct (_ || _); [done|]. apply stopped_save. eapply stopped_insert; [done..|by split].
  - unfold clear_failed_manual_run. destruct (jobs s !! jid) as [j|] eqn:Hj; [|done].
    destruct (j_manual j); [|done]. apply stopped_save. eapply stopped_insert; [done..|by split].
  - by apply fail_stopped.
  - by apply load_stopped.
Qed.

Lemma pause_stops c u k revs saved s : stopped c (jobs (pause_for_session c u k revs saved s).1).
Proof.
  unfold pause_for_session. destruct (_ && _) eqn:E.
  - apply andb_true_iff in E as [E _]. apply Nat.eqb_eq in E. intros i j Hj Hc.
    destruct (runs_in c j) eqn:Er.
    { unfold count_where in E. apply map_size_empty_inv in E. 
      assert (filter (λ x : string * job, runs_in c x.2 = true) (jobs s) !! i = Some j) as Hf
        by (by apply map_lookup_filter_Some). rewrite E in Hf. by rewrite lookup_empty in Hf. }
    unfold runs_in, of_session in Er. rewrite Hc, String.eqb_refl in Er. cbn in Er. by apply orb_false_iff in Er.
  - apply stopped_save. intros i j' Hj Hc. rewrite map_lookup_imap in Hj. apply bind_Some in Hj as (j & _ & [= <-]).
    destruct (runs_in c j) eqn:Er; [unfold paused; by destruct (j_manual j) eqn:Hm|].
    unfold runs_in, of_session in Er. rewrite Hc, String.eqb_refl in Er. cbn in Er. by apply orb_false_iff in Er.
Qed.
End stops.
