(* ===== verification/JobSafe.v ===== *)
(** * Scheduled jobs: an example

    A server that knows one time zone, and a job that runs every minute; the
    guarantees are evaluated on it. *)
From S2P Require Import Prelude.
From S2P Require Import PyValues.
From S2P Require Import JobRules.
From S2P Require Import Jobs.
From S2P Require Import JobSpec.
From S2P Require Import JobRuns.
From S2P Require Import JobOnce.
From S2P Require Import JobStops.
Open Scope string_scope.

Definition no_candidate : candidate := mkCandidate 0 false false 0 0 0.

#[global] Instance small_host : JobHost := {
  zone_key name := if String.eqb name "UTC" then Some "UTC" else None;
  parse_time _ _ := Ok None;
  check_chat_references _ _ l := Ok l;
  check_team_references _ l _ := Ok l;
  cron_valid _ _ := inl true;
  cron_fields _ _ := [];
  cron_matches _ _ _ := false;
  cron_next _ _ _ _ _ := CronNone;
  local_time _ t := mkCandidate t false true 0 0 0;
  rrule_accepts _ _ _ := None;
  rrule_item _ _ _ _ := None;
  rrule_after _ _ _ _ _ := None;
  default_backend := "claude";
  max_prompt_chars := 1000;
  busy_retry_seconds := 30;
  defer_event_min_seconds := 900;
}.

Definition at_second (n : Z) (r : string) : clock :=
  mkClock (n * second) (n * second) (n * second) "2026-01-01T00:00:00Z" r.

Definition no_chats : gmap string session := <["chat" := mkSession false None]> ∅.

Definition every_minute : create_request := mkCreate "chat" "Status" "Report." None (Some 60%Z) None None None None
  true None true None InChat false [] [].

(** The job is made at second 0. *)
Definition made : store := Eval vm_compute in
  (create no_chats no_chats every_minute "job" (at_second 0 "job_rev_1") true (mkStore ∅ ∅)).1.
Definition before_runs : system := mkSystem made [] None ∅.
Definition minute_job : job := Eval vm_compute in
  match jobs made !! "job" with Some j => j | None => mkJob "" "" "" [] [] Interval None None None "" None None false None
    false None InChat "" "" None None 0 false None None None None None None None None None None "" end.

(** One run, and a crash before it is counted. *)
Definition crash : list label := [
  LStart "job" false false (at_second 61 "");
  LAccept "job" false;
  LLog "job" false;
  LRestart no_chats (at_second 70 "") (λ _, "job_rev_2") (λ _, at_second 71 "job_rev_3")].

Definition after_steps (ls : list label) (s : system) : system := match jrun ls s with Some s' => s' | None => s end.
Definition during1 : system := Eval vm_compute in after_steps (take 1 crash) before_runs.
Definition during2 : system := Eval vm_compute in after_steps (take 2 crash) before_runs.
Definition during3 : system := Eval vm_compute in after_steps (take 3 crash) before_runs.
Definition after_crash : system := Eval vm_compute in after_steps crash before_runs.

Example crash_counts : job_at "job" after_crash = Some (minute_job {{ j_next := Some (120 * second)%Z;
  j_scheduled := Some (120 * second)%Z; j_last_run_at := Some "2026-01-01T00:00:00Z"; j_last_scheduled := Some (60 * second)%Z;
  j_run_count := 1%Z; j_revision := "job_rev_3" }}) ∧ starts "job" (journal after_crash) = [60 * second]%Z.
Proof. split; vm_compute; reflexivity. Qed.

Definition new_title : patch := mkPatch (Some (Some "Minutes")) None None None None None None None None None None
  None None None None.

(** The job is given another title between the event of its run and the count;
    the server dies there, and the scheduler goes on after the restart. *)
Definition retitled : list label := [
  LStart "job" false false (at_second 61 "");
  LAccept "job" false;
  LLog "job" false;
  LOp (OUpdate no_chats "job" new_title None false false (at_second 62 "job_rev_2")) true;
  LRestart no_chats (at_second 70 "") (λ _, "job_rev_3") (λ _, at_second 71 "job_rev_4");
  LStart "job" false false (at_second 72 "");
  LAccept "job" false;
  LLog "job" false].

(** A daily job in a zone that is not in the table any more. *)
Definition daily : job := minute_job {{ j_kind := Cron; j_interval := None; j_cron := Some "0 9 * * *";
  j_timezone := "US/Pacific-New" }}.
Definition with_daily : system := mkSystem (mkStore {["job" := daily]} {["job" := daily]}) [] None ∅.

Definition archived_chat : gmap string session := <["chat" := mkSession true None]> ∅.

(** The job, asked to run at once. *)
Definition requested : store := Eval vm_compute in
  (request_manual_run no_chats "job" None (at_second 5 "job_rev_2") (λ _, "") true made).1.
Definition requested_job : job := minute_job {{ j_manual := true; j_manual_requested := Some "2026-01-01T00:00:00Z";
  j_revision := "job_rev_2" }}.

(** * Scheduled jobs: the guarantees

    When a job runs next, what is kept by every operation, that an occurrence
    is started once, and the two ways in which it can be started again. *)
(** ** No occurrence twice *)

(** C3: The runs that the scheduler starts of a job are of later and later
    occurrences, so none is started twice, and with [max_runs] there are no more
    than that, whatever happens to other jobs, to runs by hand, to pauses and
    deferrals, and through restarts of the server; provided that ([calm]) the job
    is not edited and its saves succeed, the scheduler does not have to wait for
    the lock, no start fails after its [turn_started] event, the next occurrence
    can be computed, and no restart comes between that event and the count of a
    run whose job was given a new revision meanwhile. *)
Theorem occurrence_started_once `{host : JobHost} jid j ls s s' : fresh_job jid j s → calm_run jid ls s s' →
  StronglySorted Z.lt (starts jid (journal s')) ∧
  ∀ n, j_max_runs j = Some n → (Z.of_nat (length (starts jid (journal s'))) ≤ n)%Z.
Proof.
  intros Hf%fresh_steady Hr. destruct (calm_run_steady _ _ _ _ _ Hr Hf) as [_ _ _ _ Hs Hm].
  split; [done|]. intros n Hn. specialize (Hm n Hn). unfold open_runs in Hm.
  destruct (flight_of _ _ _) as [f|]; [destruct (Bool.eqb _ _)|]; lia.
Qed.

Lemma made_wf : store_wf made.
Proof.
  change (store_wf (apply_op (OCreate no_chats no_chats every_minute "job" (at_second 0 "job_rev_1")) true (mkStore ∅ ∅))).
  apply apply_op_wf. split; intros jid j H; cbn in H; by rewrite lookup_empty in H.
Qed.

Lemma minute_job_fresh : fresh_job "job" minute_job before_runs.
Proof.
  split; try reflexivity; [apply made_wf| |discriminate].
  split; [intros _; by eexists|]. intros t [= <-]. reflexivity.
Qed.

(** The same job, in two states of the server. *)
Lemma renamed_same `{host : JobHost} jid s s' : job_at jid s' = job_at jid s → renamed jid s s'.
Proof. intros E j j' H1 H2. left. congruence. Qed.

Lemma occurrence_started_once_witness :
  calm_run "job" crash before_runs after_crash ∧ StronglySorted Z.lt (starts "job" (journal after_crash)).
Proof.
  assert (calm_run "job" crash before_runs after_crash) as H.
  { apply (calm_cons _ _ _ _ during1); [vm_compute; reflexivity|done|by apply renamed_same|].
    apply (calm_cons _ _ _ _ during2); [vm_compute; reflexivity|done|by apply renamed_same|].
    apply (calm_cons _ _ _ _ during3); [vm_compute; reflexivity|done|by apply renamed_same|].
    apply (calm_cons _ _ _ _ after_crash); [vm_compute; reflexivity| | |apply calm_nil].
    - intros f j Hf _ Hj. vm_compute in Hf, Hj. injection Hf as <-. injection Hj as <-. reflexivity.
    - intros j j' _ Hj'. right. vm_compute in Hj'. injection Hj' as <-. split; [reflexivity|].
      intros f Hf. vm_compute in Hf. injection Hf as <-. discriminate. }
  split; [exact H|]. apply (occurrence_started_once "job" minute_job crash before_runs after_crash); [|exact H].
  exact minute_job_fresh.
Defined.

(** ** Started again *)

(** A change of the title alone between the start of a run and its count makes
    the restarted server start the same occurrence again: the event of the run
    has the old revision. *)
Theorem retitled_job_runs_twice : ∃ s', jrun retitled before_runs = Some s' ∧
  starts "job" (journal s') = [60 * second; 60 * second]%Z ∧
  ∃ j, job_at "job" s' = Some j ∧ j_scheduled j = j_scheduled minute_job ∧ j_run_count j = 0%Z.
Proof.
  exists (after_steps retitled before_runs). split; [vm_compute; reflexivity|]. split; [vm_compute; reflexivity|].
  eexists. split; [vm_compute; reflexivity|]. by split.
Qed.

(** A pass of the scheduler over a job: the run is started, counting it
    raises, and so does the handling of that failure. *)
Definition pass (jid rev : string) (k : clock) : list label := [
  LStart jid false false k; LAccept jid false; LLog jid false; LRan jid false k true; LOp (OFail jid rev k) true].

Definition passes (n : nat) (jid rev : string) (k : clock) : list label := concat (replicate n (pass jid rev k)).

(** A calendar job that is due, in a time zone that the server does not know
    (any more). *)
Record stranded `{host : JobHost} (jid rev : string) (t : Z) (s : system) : Prop := {
  sd_free : auto s = None;
  sd_job : ∃ j e, job_at jid s = Some j ∧ normalize_job_timezone (Some (j_timezone j)) = Err e ∧
    j_kind j ≠ Interval ∧ j_enabled j = true ∧ j_manual j = false ∧ j_max_runs j = None ∧ j_revision j = rev ∧
    j_scheduled j = Some t ∧ j_next j = Some t;
}.

Section stranded_jobs.
Context {host : JobHost}.

Lemma no_next_occurrence jid j a e : normalize_job_timezone (Some (j_timezone j)) = Err e → j_kind j ≠ Interval →
  next_job_occurrence jid j a false = Err e.
Proof. intros He Hk. unfold next_job_occurrence. by destruct (j_kind j); [|rewrite He..]. Qed.

Lemma jrun_app l1 l2 s : jrun (l1 ++ l2) s = s' ← jrun l1 s; jrun l2 s'.
Proof. revert s. induction l1 as [|l l1 IH]; intros s; [done|]. cbn. destruct (jstep l s); [apply IH|done]. Qed.

(** The count of a run of a stranded job raises, after the job was counted. *)
Lemma mark_ran_stranded jid j e t k r : jobs r !! jid = Some j →
  normalize_job_timezone (Some (j_timezone j)) = Err e → j_kind j ≠ Interval → j_enabled j = true →
  j_max_runs j = None → j_scheduled j = Some t →
  (mark_ran jid false (Some (j_revision j)) (Some t) false k true r).1
    = mkStore (<[jid := counted false t k j]> (jobs r)) (disk r).
Proof.
  intros Hj He Hk Hen Hmax Hs. unfold mark_ran. rewrite Hj. cbn [admitted_time andb].
  assert (ran jid false (Some (j_revision j)) t k j = (counted false t k j, Err e)) as ->; [|done].
  unfold ran, after_run, additive, same_revision, recurring, limit_reached. rewrite String.eqb_refl. cbn [andb orb].
  change (j_enabled (counted false t k j)) with (j_enabled j).
  change (j_max_runs (counted false t k j)) with (j_max_runs j).
  change (j_kind (counted false t k j)) with (j_kind j).
  rewrite Hen, Hmax. unfold is_calendar. rewrite bool_decide_eq_false_2 by done. cbn [negb andb orb].
  unfold next_run. by rewrite (no_next_occurrence jid _ _ e).
Qed.

(** And so does the handling of the failure. *)
Lemma fail_stranded jid j e k r : jobs r !! jid = Some j →
  normalize_job_timezone (Some (j_timezone j)) = Err e → j_kind j ≠ Interval → j_enabled j = true →
  j_max_runs j = None → (fail_occurrence jid (j_revision j) k true r).1 = r.
Proof.
  intros Hj He Hk Hen Hmax. unfold fail_occurrence, recurring, limit_reached. rewrite Hj, String.eqb_refl.
  rewrite Hen, Hmax. unfold is_calendar. rewrite bool_decide_eq_false_2 by done. cbn [negb andb orb].
  unfold next_run. rewrite (no_next_occurrence jid _ _ e) by done. cbn [fst].
  rewrite insert_id by done. by destruct r.
Qed.

Lemma start_stranded jid rev t k s : stranded jid rev t s → (0 < t ≤ now k)%Z →
  ∃ j, job_at jid s = Some j ∧
    start_run jid false false k s = Some (set_flight jid false (Some (mkFlight jid (j_session j) rev t false false)) s).
Proof.
  intros [Ha (j & e & Hj & He & Hk & Hen & Hm & Hmax & Hrev & Hs & Hn)] Ht. exists j. split; [done|].
  unfold start_run. unfold job_at in Hj. rewrite Hj. cbn [mbind option_bind].
  assert (t ≠ 0)%Z as Ht0%Z.eqb_neq by lia. assert (t <=? now k = true)%Z as Hle by (apply Z.leb_le; lia).
  unfold is_due, no_time, run_time. rewrite Ha, Hm, Hen, Hn, Hs. cbn [or_time negb orb andb]. rewrite Ht0, Hle, Hrev.
  by rewrite bool_decide_eq_true_2.
Qed.

Lemma pass_stranded jid rev t k s : stranded jid rev t s → (0 < t ≤ now k)%Z →
  ∃ s', jrun (pass jid rev k) s = Some s' ∧ stranded jid rev t s' ∧
    starts jid (journal s') = (starts jid (journal s) ++ [t])%list.
Proof.
  intros Hsd Ht. destruct (start_stranded jid rev t k s Hsd Ht) as (j0 & Hj0 & Hst).
  destruct Hsd as [Ha (j & e & Hj & He & Hk & Hen & Hm & Hmax & Hrev & Hs & Hn)].
  assert (j0 = j) as -> by congruence. unfold pass. cbn [jrun jstep]. rewrite Hst.
  destruct s as [r lg au ms]. change (jobs r !! jid = Some j) in Hj.
  assert (∀ b c, flight_of jid false (mkSystem r lg (Some (mkFlight jid (j_session j) rev t b c)) ms)
    = Some (mkFlight jid (j_session j) rev t b c)) as Hfl by (intros; cbn; by rewrite String.eqb_refl).
  assert (accept_run jid false (mkSystem r lg (Some (mkFlight jid (j_session j) rev t false false)) ms)
    = Some (mkSystem r lg (Some (mkFlight jid (j_session j) rev t true false)) ms)) as E1.
  { unfold accept_run. rewrite Hfl. cbn. unfold assert_dispatch_revision. rewrite Hj, Hrev, !String.eqb_refl. done. }
  assert (log_run jid false (mkSystem r lg (Some (mkFlight jid (j_session j) rev t true false)) ms)
    = Some (mkSystem r (lg ++ [mkStarted (j_session j) jid rev t false])
        (Some (mkFlight jid (j_session j) rev t true true)) ms)) as E2 by (unfold log_run; by rewrite Hfl).
  cbn [mbind option_bind]. change (set_flight jid false ?f (mkSystem r lg au ms)) with (mkSystem r lg f ms).
  rewrite E1. cbn [mbind option_bind]. rewrite E2. cbn [mbind option_bind].
  unfold end_run, flight_of. cbn [auto f_job]. rewrite String.eqb_refl.
  cbn [mbind option_bind f_logged f_revision f_time registry].
  rewrite <-Hrev, (mark_ran_stranded jid j e t k r) by done.
  cbn [set_registry set_flight registry journal auto manuals apply_op].
  set (jc := counted false t k j).
  pose proof (fail_stranded jid jc e k (mkStore (<[jid := jc]> (jobs r)) (disk r)) (lookup_insert_eq _ _ _)
    He Hk Hen Hmax) as E3. change (j_revision jc) with (j_revision j) in E3. rewrite E3.
  eexists. split; [done|]. split.
  - split; [done|]. exists jc, e. split; [apply lookup_insert_eq|]. done.
  - change (starts jid (lg ++ [mkStarted (j_session j) jid (j_revision j) t false]) = (starts jid lg ++ [t])%list).
    rewrite starts_app. unfold is_auto. cbn. by rewrite String.eqb_refl.
Qed.
End stranded_jobs.

(** A due calendar job without [max_runs] whose time zone is unknown is started for
    the same occurrence in every pass of the scheduler. *)
Theorem stranded_job_runs_forever `{host : JobHost} jid rev t k s n : stranded jid rev t s → (0 < t ≤ now k)%Z →
  ∃ s', jrun (passes n jid rev k) s = Some s' ∧ starts jid (journal s') = (starts jid (journal s) ++ replicate n t)%list.
Proof.
  intros Hs Ht. revert s Hs. induction n as [|n IH]; intros s Hs.
  - exists s. cbn. by rewrite app_nil_r.
  - destruct (pass_stranded jid rev t k s Hs Ht) as (s1 & E1 & Hs1 & El).
    destruct (IH s1 Hs1) as (s2 & E2 & El2). exists s2. split.
    + unfold passes. cbn [replicate concat]. by rewrite jrun_app, E1.
    + by rewrite El2, El, <-app_assoc.
Qed.

Lemma stranded_job_runs_forever_witness : ∃ s', jrun (passes 3 "job" "job_rev_1" (at_second 61 "")) with_daily = Some s' ∧
  starts "job" (journal s') = [60 * second; 60 * second; 60 * second]%Z.
Proof.
  apply (stranded_job_runs_forever "job" "job_rev_1" (60 * second) (at_second 61 "") with_daily 3).
  - split; [reflexivity|]. exists daily. eexists. split; [reflexivity|]. split; [vm_compute; reflexivity|].
    split; [discriminate|]. repeat split; reflexivity.
  - split; [reflexivity|]. vm_compute. discriminate.
Defined.

(** ** When a job runs next *)

(** C27: The next occurrence is after the time asked for; of an interval job there
    always is one, and it is the first on the grid of its anchor. *)
Theorem next_occurrence_exact `{host : JobHost} jid j after :
  (∀ t, next_job_occurrence jid j after false = Ok (Some t) → (after < t)%Z) ∧
  ∀ i anchor, j_kind j = Interval → j_interval j = Some i → (0 < i)%Z →
    first_time [j_start j; j_scheduled j; j_next j] = Some anchor →
    ∃ t, next_job_occurrence jid j after false = Ok (Some t) ∧ on_grid anchor i t ∧
      ∀ u, on_grid anchor i u → (after < u)%Z → (t ≤ u)%Z.
Proof.
  split; [intros t; apply next_occurrence_after|]. intros i anchor Hk Hi Hp Ha.
  destruct (next_job_occurrence jid j after false) as [[t|]|e] eqn:E.
  - exists t. split; [done|]. by eapply next_occurrence_interval.
  - exfalso. unfold next_job_occurrence in E. rewrite Hk, Hi, Ha in E. unfold next_interval in E.
    rewrite (proj2 (Z.eqb_neq i 0)), (proj2 (Z.leb_gt i 0)) in E by lia. by destruct (is_after _ _ _).
  - exfalso. unfold next_job_occurrence in E. by rewrite Hk in E.
Qed.

Lemma next_occurrence_exact_witness :
  next_job_occurrence "job" minute_job (150 * second) false = Ok (Some (180 * second)%Z) ∧
  ∀ u, on_grid (60 * second) 60 u → (150 * second < u)%Z → (180 * second ≤ u)%Z.
Proof.
  destruct (next_occurrence_exact "job" minute_job (150 * second)) as [_ H].
  destruct (H 60%Z (60 * second)%Z) as (t & Et & _ & Hu); [reflexivity..|].
  assert (next_job_occurrence "job" minute_job (150 * second) false = Ok (Some (180 * second)%Z)) as E
    by (vm_compute; reflexivity).
  split; [exact E|]. rewrite E in Et. apply Ok_inj in Et. injection Et as <-. exact Hu.
Defined.

(** A recurrence rule is accepted only with one frequency, each part once, not
    both an end and a count, and every number in the range of RFC 5545, the
    count within what [next_rrule] looks through. *)
Theorem accepted_rules e r : validate_rrule_parts e = Ok r → accepted r.
Proof. apply validate_accepts. Qed.

Lemma accepted_rules_witness : ∃ r, validate_rrule_parts "FREQ=MONTHLY;BYDAY=2TU;BYHOUR=9,17;COUNT=10" = Ok r ∧ accepted r.
Proof.
  eexists. split; [vm_compute; reflexivity|].
  apply (accepted_rules "FREQ=MONTHLY;BYDAY=2TU;BYHOUR=9,17;COUNT=10"). vm_compute. reflexivity.
Defined.

(** ** The registry *)

(** C23: In every state of the registry, in memory and on disk, and whichever saves
    failed: a job has the fields of its kind of schedule, an interval and a
    bound in their ranges; a job that is off waits for nothing; one that is on
    has not reached its bound and, when it waits at an interval, waits for a time
    on its grid; and it was put off at most three times in a row because its
    runtime was unavailable. *)
Theorem jobs_reachable_wf `{host : JobHost} s : jobs_reachable s → store_wf s.
Proof. apply registry_reachable_wf. Qed.

Lemma made_reachable : jobs_reachable made.
Proof.
  change (jobs_reachable (apply_op (OCreate no_chats no_chats every_minute "job" (at_second 0 "job_rev_1")) true (mkStore ∅ ∅))).
  apply reach_op.
  apply reach_empty.
Defined.

Lemma jobs_reachable_wf_witness : jobs made !! "job" = Some minute_job ∧ job_wf minute_job.
Proof.
  split; [vm_compute; reflexivity|]. apply (proj1 (jobs_reachable_wf made made_reachable) "job").
  vm_compute. reflexivity.
Defined.

(** Once the jobs of an archived chat were paused, none of them runs, by
    schedule or by hand, whatever is called, for as long as those calls see
    that the chat is archived. *)
Theorem archived_jobs_stay_stopped `{host : JobHost} c u k revs saved (l : list (job_op * bool)) s :
  (∀ o b, (o, b) ∈ l → sees_archived c o) →
  let s' := foldl (λ s ob, apply_op ob.1 ob.2 s) (pause_for_session c u k revs saved s).1 l in
  ∀ i j t, jobs s' !! i = Some j → j_session j = c → is_due t j = false.
Proof.
  intros Hl s'. assert (stopped c (jobs s')) as H.
  { pose proof (pause_stops c u k revs saved s) as H0. subst s'. revert H0.
    generalize (pause_for_session c u k revs saved s).1. induction l as [|[o b] l IH]; intros s0 H0; [done|].
    cbn. apply IH; [intros o' b' Hin; apply (Hl o' b'); by right|].
    apply op_stopped; [done|]. apply (Hl o b). by left. }
  intros i j t Hj Hc. destruct (H i j Hj Hc) as [He Hm]. unfold is_due. by rewrite He, Hm.
Qed.

Lemma archived_jobs_stay_stopped_witness :
  let s' := foldl (λ s ob, apply_op ob.1 ob.2 s)
    (pause_for_session "chat" false (at_second 5 "") (λ _, "job_rev_2") true made).1
    [(ORequest archived_chat "job" None (at_second 6 "") (λ _, "job_rev_3"), true)] in
  ∃ j, jobs s' !! "job" = Some j ∧ j_session j = "chat" ∧ is_due (1000 * second) j = false.
Proof.
  cbv zeta. eexists. split; [vm_compute; reflexivity|]. split; [reflexivity|].
  apply (archived_jobs_stay_stopped "chat" false (at_second 5 "") (λ _, "job_rev_2") true
    [(ORequest archived_chat "job" None (at_second 6 "") (λ _, "job_rev_3"), true)] made) with (i := "job").
  - intros o b [= -> ->]%list_elem_of_singleton. reflexivity.
  - vm_compute. reflexivity.
  - reflexivity.
Defined.

(** ** Runs *)

(** What counting a run does not change of a schedule. *)
Lemma next_occurrence_counted `{host : JobHost} jid m at_ k j a b :
  next_job_occurrence jid (counted m at_ k j) a b = next_job_occurrence jid j a b.
Proof. by destruct m. Qed.

Lemma next_run_counted `{host : JobHost} jid t k j a :
  next_run jid a (counted false t k j) =
    match next_job_occurrence jid j a false with
    | Err e => (counted false t k j, Err e)
    | Ok next => (counted false t k j {{ j_next := next; j_scheduled := next;
                    j_enabled := j_enabled j && negb (bool_decide (next = None)) }}, Ok tt)
    end.
Proof. unfold next_run. by rewrite next_occurrence_counted. Qed.

(** C24: A run of the scheduler counts, and the job then waits for the occurrence
    that its schedule gives after both the one that ran and the time the run was
    counted: a server that was down for hours runs one of the occurrences it
    missed, not all of them.  It is off when there is none, when the run was its
    last, or when it is not repeated.  At an interval this is the first time on
    the grid of the job. *)
Theorem missed_runs_are_skipped `{host : JobHost} jid j t e x k saved s s' j' :
  jobs s !! jid = Some j → job_wf j → j_enabled j = true → j_scheduled j = Some t →
  mark_ran jid false e (Some t) x k saved s = (s', Ok (Some j')) →
  jobs s' !! jid = Some j' ∧ j_run_count j' = (j_run_count j + 1)%Z ∧
  if recurring j' && negb (limit_reached j') then
    ∃ o, next_job_occurrence jid j (Z.max t (now k)) false = Ok o ∧
      j_scheduled j' = o ∧ j_next j' = o ∧ j_enabled j' = negb (bool_decide (o = None)) ∧
      ∀ u, o = Some u → (t < u)%Z ∧ (now k < u)%Z ∧
        ∀ i a, j_kind j = Interval → j_interval j = Some i → j_start j = Some a →
          on_grid a i u ∧ ∀ v, on_grid a i v → (Z.max t (now k) < v)%Z → (u ≤ v)%Z
  else j_enabled j' = false ∧ j_scheduled j' = None ∧ j_next j' = None.
Proof.
  intros Hj Hwf He Hs. unfold mark_ran. rewrite Hj. cbn [admitted_time].
  destruct (x && _); [done|]. destruct (ran _ _ _ _ _ _) as [j1 [[]|]] eqn:Er; [|done]. intros Em.
  assert (j1 = j' ∧ jobs s' !! jid = Some j') as [-> Hj'].
  { unfold save in Em. destruct saved; [|done]. injection Em as <- <-. split; [done|apply lookup_insert_eq]. }
  split; [done|]. unfold ran in Er. assert (occurrence j = Some t) as Ho by (unfold occurrence; by rewrite Hs).
  rewrite Ho in Er. rewrite (bool_decide_eq_true_2 (Some t = Some t)), orb_true_r in Er by done.
  unfold after_run, additive in Er. cbn [andb] in Er. rewrite (next_run_counted jid t k) in Er.
  set (jc := counted false t k j) in *.
  change (j_enabled jc) with (j_enabled j) in Er. rewrite He in Er. cbn [andb] in Er.
  destruct (recurring jc && negb (limit_reached jc)) eqn:Erl.
  - destruct (next_job_occurrence jid j (Z.max t (now k)) false) as [o|] eqn:En; [|done].
    injection Er as <-. split; [done|].
    match goal with |- if ?b then _ else _ => change b with (recurring jc && negb (limit_reached jc)) end.
    rewrite Erl. exists o. split_and!; [done|done|done| |].
    + reflexivity.
    + intros u ->. apply next_occurrence_after in En as Hu. split_and!; [lia|lia|].
      intros i a Hk Hi Ha.
      assert (first_time [j_start j; j_scheduled j; j_next j] = Some a) as Hf by (by rewrite Ha).
      eapply next_occurrence_interval in En as [Hg Hmin]; [|done|exact Hi|exact Hf|]; [done|].
      apply (ok_interval _ (wf_limits _ Hwf) i Hi).
  - destruct (limit_reached jc || _) eqn:El in Er.
    + injection Er as <-. split; [done|].
      match goal with |- if ?b then _ else _ => change b with (recurring jc && negb (limit_reached jc)) end.
      by rewrite Erl.
    + exfalso. apply orb_false_iff in El as [El1 El2]. rewrite El1 in Erl. by destruct (recurring jc).
Qed.

Lemma missed_runs_are_skipped_witness :
  let r := mark_ran "job" false None (Some (60 * second)%Z) false (at_second 3605 "job_rev_2") true made in
  ∃ j' u, r.2 = Ok (Some j') ∧ j_scheduled j' = Some u ∧ (3605 * second < u)%Z ∧ j_run_count j' = 1%Z.
Proof.
  cbv zeta. destruct (mark_ran _ _ _ _ _ _ _ _) as [s' r] eqn:E.
  assert (∃ j', r = Ok (Some j') ∧ recurring j' && negb (limit_reached j') = true ∧ j_enabled j' = true) as (j' & -> & Hr & He).
  { vm_compute in E. injection E as _ <-. eexists. split_and!; reflexivity. }
  destruct (missed_runs_are_skipped "job" minute_job (60 * second) None false (at_second 3605 "job_rev_2") true made s' j')
    as (_ & Hc & H); [vm_compute; reflexivity|apply (proj1 made_wf "job"); vm_compute; reflexivity|reflexivity..|exact E|].
  rewrite Hr in H. destruct H as ([u|] & _ & Hs & _ & Hen & Hu); [|rewrite Hen in He; discriminate].
  destruct (Hu u eq_refl) as (_ & Hn & _). exists j', u. split_and!; [done|exact Hs|exact Hn|exact Hc].
Defined.

(** A run by hand of a repeated job, before its next occurrence and other than the
    last that [max_runs] allows, leaves that occurrence alone: the job waits for
    the same time, has one run more and no request left. *)
Theorem manual_run_is_additive `{host : JobHost} jid j t e at_ x k saved s s' j' :
  jobs s !! jid = Some j → j_enabled j = true → j_scheduled j = Some t → (now k < t)%Z →
  is_calendar (j_kind j) || j_loop j = true → (∀ m, j_max_runs j = Some m → j_run_count j + 1 < m)%Z →
  mark_ran jid true e at_ x k saved s = (s', Ok (Some j')) →
  jobs s' !! jid = Some j' ∧ j_enabled j' = true ∧ j_scheduled j' = Some t ∧ j_next j' = j_next j ∧
  j_manual j' = false ∧ j_run_count j' = (j_run_count j + 1)%Z.
Proof.
  intros Hj He Hs Hn Hr Hmax. unfold mark_ran. rewrite Hj.
  destruct (x && _); [done|]. destruct (ran _ _ _ _ _ _) as [j1 [[]|]] eqn:Er; [|done]. intros Em.
  assert (j1 = j' ∧ jobs s' !! jid = Some j') as [-> Hj'].
  { unfold save in Em. destruct saved; [|done]. injection Em as <- <-. split; [done|apply lookup_insert_eq]. }
  split; [done|]. unfold ran in Er. assert (occurrence j = Some t) as Ho by (unfold occurrence; by rewrite Hs).
  set (a := admitted_time at_ k j) in *. set (jc := counted true a k j) in *. unfold after_run, additive in Er.
  rewrite Ho in Er. cbn [andb] in Er.
  assert (limit_reached jc = false) as Hl.
  { unfold limit_reached. change (j_max_runs jc) with (j_max_runs j). destruct (j_max_runs j) as [m|] eqn:Em'; [|done].
    apply Z.leb_gt. by apply Hmax. }
  assert (recurring jc = true) as Hrec.
  { unfold recurring. change (j_kind jc) with (j_kind j). change (j_loop jc) with (j_loop j). by rewrite Hr. }
  rewrite Hl, Hrec, (proj2 (Z.ltb_lt _ _) Hn) in Er. change (j_enabled jc) with (j_enabled j) in Er. rewrite He in Er.
  cbn in Er. by injection Er as <-.
Qed.

Lemma manual_run_is_additive_witness :
  let r := mark_ran "job" true (Some "job_rev_2") None false (at_second 6 "job_rev_3") true requested in
  ∃ j', r.2 = Ok (Some j') ∧ j_scheduled j' = Some (60 * second)%Z.
Proof.
  cbv zeta. destruct (mark_ran _ _ _ _ _ _ _ _) as [s' r] eqn:E. assert (∃ j', r = Ok (Some j')) as (j' & ->).
  { vm_compute in E. injection E as _ <-. eexists. reflexivity. }
  exists j'. split; [reflexivity|].
  apply (manual_run_is_additive "job" requested_job (60 * second) (Some "job_rev_2") None false
    (at_second 6 "job_rev_3") true requested s' j'); [vm_compute; reflexivity|reflexivity..|discriminate|exact E].
Defined.
