(* ===== verification/HubTokens.v ===== *)
(** * Team hub: credentials

    [agentsdock_team_hub/security.py]: the digests under which credentials are
    stored, and the access tokens, signed and base64url encoded. *)
From S2P Require Import Prelude.
From S2P Require Import PyValues.
From S2P Require Import Json.

Open Scope string_scope.

(** [hashlib.sha256(b).digest()], [hmac.new(key, b, sha256).digest()], and what
    [json.loads] makes of bytes it takes for UTF-16 or UTF-32. *)
Class HubCrypto := {
  sha256 : string → string;
  hmac_sha256 : string → string → string;
  wide_json : string → res pyval;
}.

Definition ACCESS_TOKEN_TTL_SECONDS : Z := 600.
Definition SESSION_TTL_SECONDS : Z := 2592000.
Definition TOKEN_ISSUER : string := "agentsdock-team-hub".
Definition TOKEN_AUDIENCE : string := "agentsdock-team-hub-api".

(** ** base64 *)

Definition b64_char (n : N) : Ascii.ascii :=
  if (n <? 26)%N then chr (65 + n) else if (n <? 52)%N then chr (71 + n)
  else if (n <? 62)%N then chr (n - 4) else if (n =? 62)%N then chr 45 else chr 95.

(** [_b64url_encode] *)
Fixpoint b64url_encode (s : string) : string :=
  match s with
  | "" => ""
  | String a "" => String (b64_char (code a / 4)) (String (b64_char (code a mod 4 * 16)) "")
  | String a (String b "") =>
      String (b64_char (code a / 4)) (String (b64_char (code a mod 4 * 16 + code b / 16))
        (String (b64_char (code b mod 16 * 4)) ""))
  | String a (String b (String c r)) =>
      String (b64_char (code a / 4)) (String (b64_char (code a mod 4 * 16 + code b / 16))
        (String (b64_char (code b mod 16 * 4 + code c / 64))
          (String (b64_char (code c mod 64)) (b64url_encode r))))
  end.

(** [altchars] only adds to the alphabet: [+] and [/] keep their values. *)
Definition b64_value (c : Ascii.ascii) : option N :=
  let n := code c in
  if ((65 <=? n) && (n <=? 90))%N then Some (n - 65)%N
  else if ((97 <=? n) && (n <=? 122))%N then Some (n - 71)%N
  else if ((48 <=? n) && (n <=? 57))%N then Some (n + 4)%N
  else if ((n =? 45) || (n =? 43))%N then Some 62%N
  else if ((n =? 95) || (n =? 47))%N then Some 63%N else None.

Definition is_pad (c : Ascii.ascii) : bool := (code c =? 61)%N.

(** [base64.b64decode(s, altchars=b"-_", validate=True)] *)
Fixpoint b64_decode (s : string) : option string :=
  match s with
  | "" => Some ""
  | String a (String b (String c (String d r))) =>
      x ← b64_value a; y ← b64_value b;
      let first := chr (x * 4 + y / 16) in
      if is_pad c then
        if is_pad d && String.eqb r "" then Some (String first "") else None
      else
        z ← b64_value c;
        let second := chr (y mod 16 * 16 + z / 4) in
        if is_pad d then
          if String.eqb r "" then Some (String first (String second "")) else None
        else
          w ← b64_value d;
          rest ← b64_decode r;
          Some (String first (String second (String (chr (z mod 4 * 64 + w)) rest)))
  | _ => None
  end.

(** [b"=" * (-len(value) % 4)] *)
Definition padding (n : nat) : string :=
  match (n mod 4)%nat with 1%nat => "===" | 2%nat => "==" | 3%nat => "=" | _ => "" end.

(** [_b64url_decode] *)
Definition b64url_decode (value : string) : res string :=
  raise_if (String.eqb value "" || (8192 <? len value)%Z) TokenError;;
  match b64_decode (value +:+ padding (String.length value)) with
  | Some b => Ok b
  | None => Err TokenError
  end.

(** ** JSON from bytes *)

(** [json.detect_encoding] says UTF-8. *)
Definition takes_for_utf8 (b : string) : bool :=
  let byte i := match String.get i b with Some c => code c | None => 1%N end in
  let zero i := (byte i =? 0)%N in
  negb ((byte 0%nat =? 254) && (byte 1%nat =? 255) || (byte 0%nat =? 255) && (byte 1%nat =? 254)
        || zero 0%nat && zero 1%nat && (byte 2%nat =? 254) && (byte 3%nat =? 255)
        || (byte 0%nat =? 239) && (byte 1%nat =? 187) && (byte 2%nat =? 191))%N
  && (if (4 <=? String.length b)%nat then negb (zero 0%nat) && negb (zero 1%nat)
      else if (String.length b =? 2)%nat then negb (zero 0%nat) && negb (zero 1%nat) else true).

Section tokens.
Context `{HubCrypto}.

(** [token_hash] *)
Definition token_hash (value : string) : res string :=
  raise_if (negb ((16 <=? len value) && (len value <=? 4096))%Z) TokenError;;
  Ok (sha256 (utf8 value)).

(** [opaque_secret], from what [secrets.token_urlsafe(32)] returned. *)
Definition opaque_secret (prefix random : string) : string * string :=
  let token := prefix +:+ "." +:+ random in (token, sha256 token).

Definition canonical_fingerprint (v : pyval) : string := sha256 (canonical_json v).

(** [json.loads(b)], where bytes that are not text, or not JSON, are an
    invalid credential. *)
Definition json_of_bytes (b : string) : res pyval :=
  match (if takes_for_utf8 b then json_loads b else wide_json b) with
  | Err JSONDecodeError => Err TokenError
  | r => r
  end.

(** ** [AccessTokenSigner] *)

Definition printable (s : string) : bool :=
  string_forallb (λ c, (33 <=? code c)%N && (code c <=? 126)%N) s.

Definition HEADER : pyval := PDict [("alg", PStr "HS256"); ("typ", PStr "ADTH-AT1")].

Record minted := mkMinted { mt_token : string; mt_jti : string; mt_expires : Z }.

Definition access_payload (sub sid jti : string) (iat exp : Z) : list (string * pyval) :=
  [("iss", PStr TOKEN_ISSUER); ("aud", PStr TOKEN_AUDIENCE); ("sub", PStr sub); ("sid", PStr sid);
   ("jti", PStr jti); ("iat", PInt iat); ("nbf", PInt iat); ("exp", PInt exp)].

Definition mint (key human session jti : string) (now ttl : Z) : res minted :=
  raise_if (negb ((1 <=? ttl) && (ttl <=? ACCESS_TOKEN_TTL_SECONDS))%Z)
    (ValueError "access-token ttl is outside the supported bound");;
  raise_if (negb ((1 <=? len human) && (len human <=? 240))%Z
            || negb ((1 <=? len session) && (len session <=? 240))%Z
            || negb (printable human) || negb (printable session))
    (ValueError "access-token subject or session is invalid");;
  let expires := (now + ttl)%Z in
  let header := b64url_encode (canonical_json HEADER) in
  let payload := b64url_encode (canonical_json (PDict (access_payload human session jti now expires))) in
  let signing_input := header +:+ "." +:+ payload in
  let signature := hmac_sha256 key signing_input in
  Ok (mkMinted (signing_input +:+ "." +:+ b64url_encode signature) jti expires).

Definition text_field (d : list (string * pyval)) (k : string) (maximum : Z) : res string :=
  match items_get d k with
  | PStr s =>
      raise_if (negb ((1 <=? len s) && (len s <=? maximum))%Z || negb (printable s)) TokenError;; Ok s
  | _ => Err TokenError
  end.

Definition int_field (d : list (string * pyval)) (k : string) : res Z :=
  match items_get d k with PInt z => Ok z | _ => Err TokenError end.

(** [a == b] of dicts of strings: the same items. *)
Definition same_items (v w : pyval) : bool := bool_decide (sort_keys v = sort_keys w).

Definition PAYLOAD_KEYS : list string := ["iss"; "aud"; "sub"; "sid"; "jti"; "iat"; "nbf"; "exp"].

Definition keys_exact (keys : list string) (d : list (string * pyval)) : bool :=
  (length d =? length keys)%nat && forallb (λ k, str_in k d.*1) keys.

(** What the callers read of a payload. *)
Record access := mkAccess { ac_sub : string; ac_sid : string; ac_jti : string; ac_iat : Z; ac_exp : Z }.

Definition verify_payload (d : list (string * pyval)) (now : Z) : res access :=
  raise_if (negb (keys_exact PAYLOAD_KEYS d)) TokenError;;
  raise_if (negb (bool_decide (items_get d "iss" = PStr TOKEN_ISSUER))
            || negb (bool_decide (items_get d "aud" = PStr TOKEN_AUDIENCE))) TokenError;;
  sub ← text_field d "sub" 240;
  sid ← text_field d "sid" 240;
  jti ← text_field d "jti" 128;
  iat ← int_field d "iat";
  nbf ← int_field d "nbf";
  exp ← int_field d "exp";
  raise_if (negb (nbf =? iat)%Z || (now + 5 <? iat)%Z) TokenError;;
  raise_if ((exp <=? now)%Z || (exp <=? iat)%Z || (ACCESS_TOKEN_TTL_SECONDS <? exp - iat)%Z) TokenError;;
  Ok (mkAccess sub sid jti iat exp).

Definition verify (key token : string) (now : Z) : res access :=
  raise_if (negb ((40 <=? len token) && (len token <=? 8192))%Z) TokenError;;
  match split_on (chr 46) token with
  | [header; payload; signature] =>
      raise_if (negb (string_forallb is_ascii (header +:+ "." +:+ payload))) TokenError;;
      supplied ← b64url_decode signature;
      raise_if (negb (String.eqb supplied (hmac_sha256 key (header +:+ "." +:+ payload)))) TokenError;;
      h ← b64url_decode header;
      h ← json_of_bytes h;
      p ← b64url_decode payload;
      p ← json_of_bytes p;
      raise_if (negb (same_items h HEADER)) TokenError;;
      match p with
      | PDict d => verify_payload d now
      | _ => Err TokenError
      end
  | _ => Err TokenError
  end.
End tokens.

(** ** What is written is read back *)

Lemma code_lt c : (code c < 256)%N.
Proof. apply Ascii.N_ascii_bounded. Qed.

Lemma code_chr n : (n < 256)%N → code (chr n) = n.
Proof. apply Ascii.N_ascii_embedding. Qed.

Lemma chr_code c : chr (code c) = c.
Proof. apply Ascii.ascii_N_embedding. Qed.

Lemma b64_char_spec n : (n < 64)%N →
  b64_value (b64_char n) = Some n ∧ is_pad (b64_char n) = false
  ∧ is_ascii (b64_char n) = true ∧ Ascii.eqb (chr 46) (b64_char n) = false.
Proof.
  intros Hn.
  assert (forallb (λ i, let c := b64_char (N.of_nat i) in
    bool_decide (b64_value c = Some (N.of_nat i)) && negb (is_pad c) && is_ascii c
    && negb (Ascii.eqb (chr 46) c)) (seq 0 64) = true) as Hall by reflexivity.
  rewrite forallb_forall in Hall. specialize (Hall (N.to_nat n)).
  rewrite N2Nat.id in Hall. cbv zeta in Hall.
  rewrite !andb_true_iff, bool_decide_eq_true, !negb_true_iff in Hall.
  destruct Hall as [[[? ?] ?] ?]; [|by repeat split]. apply in_seq. lia.
Qed.
