(* ===== verification/Transactions.v ===== *)
(** * Transactions on a database

    SQLite's functions on text, transactions on tables as a monad of state and
    errors, and the statements of the methods that run in them. *)
From S2P Require Import Prelude.
From S2P Require Import PyValues.

Open Scope string_scope.

(** ** SQL on text *)

(** [length(x)] of a text ends at a NUL. *)
Fixpoint sql_length (s : string) : Z :=
  match s with
  | "" => 0
  | String c s => if (code c =? 0)%N then 0 else 1 + sql_length s
  end%Z.

Fixpoint sql_ltrim (s : string) : string :=
  match s with
  | String c s' => if (code c =? 32)%N then sql_ltrim s' else s
  | "" => ""
  end.

Definition sql_trim (s : string) : string := rev_string (sql_ltrim (rev_string (sql_ltrim s))).

(** [lower(x)] folds ASCII only. *)
Fixpoint sql_lower (s : string) : string :=
  match s with
  | "" => ""
  | String c s =>
      String (if ((65 <=? code c) && (code c <=? 90))%N then chr (code c + 32) else c) (sql_lower s)
  end.

(** [length(x) BETWEEN lo AND hi] *)
Definition between (lo n hi : Z) : bool := ((lo <=? n) && (n <=? hi))%Z.
Definition trimmed_length (lo : Z) (s : string) (hi : Z) : bool := between lo (sql_length (sql_trim s)) hi.
Definition is_digest (s : string) : bool := (len s =? 32)%Z.

(** A timestamp that may be absent. *)
Definition after_or_null (t : option Z) (created : Z) : bool :=
  match t with Some t => (created <=? t)%Z | None => true end.
Definition is_null {A} (o : option A) : bool := match o with Some _ => false | None => true end.
(** What is set stays. *)
Definition sticky {A} `{EqDecision A} (old new : option A) : bool :=
  is_null old || bool_decide (new = old).

(** ** Transactions

    [with _write_transaction(connection)]: the new tables and a result, or an
    exception, and then nothing has changed. *)
Definition stx (S A : Type) : Type := S → res (S * A).

#[global] Instance tx_ret {S} : MRet (stx S) := λ A a h, Ok (h, a).
#[global] Instance tx_bind {S} : MBind (stx S) := λ A B f m h,
  match m h with Ok (h', a) => f a h' | Err e => Err e end.

Definition fail {S A} (e : exn) : stx S A := λ _, Err e.
(** [if b: raise e] *)
Definition guard_not {S} (b : bool) (e : exn) : stx S unit := if b then fail e else mret tt.
(** A SELECT. *)
Definition ask {S A} (f : S → A) : stx S A := λ h, Ok (h, f h).
(** A computation that does not touch the database. *)
Definition pure {S A} (r : res A) : stx S A := λ h, a ← r; Ok (h, a).
(** [try: m  except ... as exc: raise handler(exc)] *)
Definition on_error {S A} (handler : exn → exn) (m : stx S A) : stx S A := λ h,
  match m h with Err e => Err (handler e) | r => r end.
(** What a caller sees: the tables afterwards, and the result. *)
Definition run {S A} (m : stx S A) (h : S) : S * res A :=
  match m h with Ok (h', a) => (h', Ok a) | Err e => (h, Err e) end.

Fixpoint for_each {S A} (l : list A) (f : A → stx S unit) : stx S unit :=
  match l with [] => mret tt | a :: l => f a;; for_each l f end.

Lemma tx_bind_Ok {S A B} (m : stx S A) (f : A → stx S B) h h' b :
  (m ≫= f) h = Ok (h', b) ↔ ∃ h1 a, m h = Ok (h1, a) ∧ f a h1 = Ok (h', b).
Proof. unfold mbind, tx_bind. destruct (m h) as [[h1 a]|e]; naive_solver. Qed.

Lemma guard_not_Ok {S} b e (h h' : S) u : guard_not b e h = Ok (h', u) ↔ b = false ∧ h' = h.
Proof.
  destruct b, u; unfold guard_not, fail, mret, tx_ret; split.
  - done.
  - by intros [? _].
  - intros E. injection E as <-. done.
  - by intros [_ ->].
Qed.

Lemma ask_Ok {S A} (f : S → A) h h' a : ask f h = Ok (h', a) ↔ h' = h ∧ a = f h.
Proof. unfold ask. naive_solver. Qed.

Lemma pure_Ok {S A} (r : res A) (h h' : S) a : pure r h = Ok (h', a) ↔ h' = h ∧ r = Ok a.
Proof. unfold pure. destruct r; cbn; naive_solver. Qed.

Lemma on_error_Ok {S A} f (m : stx S A) h h' a : on_error f m h = Ok (h', a) ↔ m h = Ok (h', a).
Proof. unfold on_error. destruct (m h) as [?|e]; naive_solver. Qed.

Lemma ret_Ok {S A} (x a : A) (h h' : S) : (mret x : stx S A) h = Ok (h', a) ↔ h' = h ∧ a = x.
Proof.
  unfold mret, tx_ret. split; [|by intros [-> ->]]. intros E. by simplify_eq.
Qed.

(** [inv_tx H] turns a transaction that committed into its statements. *)
Ltac inv_tx H :=
  first
  [ let h1 := fresh "h" in let a := fresh "a" in let E := fresh "E" in
    apply tx_bind_Ok in H as (h1 & a & E & H); inv_tx E; inv_tx H
  | apply guard_not_Ok in H as [H ->]
  | apply ask_Ok in H as [-> ->]
  | apply pure_Ok in H as [-> H]
  | apply on_error_Ok in H; inv_tx H
  | apply ret_Ok in H as [-> ->]
  | discriminate H
  | idtac ].

(** ** Statements *)

Section statements.
Context {S R : Type} (rows : S → gmap string R) (set : gmap string R → S → S).

(** [INSERT INTO t]: [ok] are the constraints besides the primary key. *)
Definition insert_into (ok : S → string → R → bool) (k : string) (r : R) : stx S unit := λ h,
  if bool_decide (rows h !! k = None) && ok h k r then Ok (set (<[k := r]> (rows h)) h, tt)
  else Err (IntegrityError "constraint failed").

(** The rows [UPDATE t SET f WHERE P] leaves. *)
Definition updated_rows (P : string → R → bool) (f : R → R) (m : gmap string R) : gmap string R :=
  map_imap (λ k r, Some (if P k r then f r else r)) m.

(** [UPDATE t SET f WHERE P] and its [rowcount]; [ok] are the triggers and
    constraints on a row that changes. *)
Definition update_rows (ok : S → string → R → R → bool) (P : string → R → bool) (f : R → R) : stx S nat := λ h,
  if forallb (λ kr, negb (P kr.1 kr.2) || ok h kr.1 kr.2 (f kr.2)) (map_to_list (rows h))
  then Ok (set (updated_rows P f (rows h)) h, length (filter (λ kr, P kr.1 kr.2 = true) (map_to_list (rows h))))
  else Err (IntegrityError "constraint failed").

Lemma insert_into_Ok ok k r h h' u :
  insert_into ok k r h = Ok (h', u) ↔
  rows h !! k = None ∧ ok h k r = true ∧ h' = set (<[k := r]> (rows h)) h.
Proof.
  destruct u. unfold insert_into. destruct (bool_decide _) eqn:E1, (ok h k r) eqn:E2; cbn;
    rewrite ?bool_decide_eq_true, ?bool_decide_eq_false in E1; naive_solver.
Qed.

Lemma updated_rows_lookup P f m k :
  updated_rows P f m !! k = (λ r, if P k r then f r else r) <$> m !! k.
Proof. unfold updated_rows. rewrite map_lookup_imap. by destruct (m !! k). Qed.

Lemma update_rows_Ok ok P f h h' n :
  update_rows ok P f h = Ok (h', n) →
  h' = set (updated_rows P f (rows h)) h ∧
  (∀ k r, rows h !! k = Some r → P k r = true → ok h k r (f r) = true) ∧
  (n ≠ 0 → ∃ k r, rows h !! k = Some r ∧ P k r = true)%nat.
Proof.
  unfold update_rows. destruct (forallb _ _) eqn:E; [|done]. intros [= <- <-].
  split; [done|]. rewrite forallb_forall in E. split.
  - intros k r Hk HP. specialize (E (k, r)). cbn in E. rewrite HP in E. apply E.
    apply list_elem_of_In. by apply elem_of_map_to_list.
  - intros Hn. destruct (filter _ _) as [|[k r] l] eqn:Ef; [done|].
    assert ((k, r) ∈ filter (λ kr, P kr.1 kr.2 = true) (map_to_list (rows h))) as Hin
      by (rewrite Ef; left).
    apply list_elem_of_filter in Hin as [HP Hin%elem_of_map_to_list]. by exists k, r.
Qed.
End statements.

(** [SELECT ... WHERE P], its first row with its key. *)
Definition find_row {R} (P : string → R → bool) (m : gmap string R) : option (string * R) :=
  head (filter (λ kr, P kr.1 kr.2 = true) (map_to_list m)).

(** Whether there is such a row. *)
Definition exists_row {R} (P : string → R → bool) (m : gmap string R) : bool := negb (is_null (find_row P m)).

(** [SELECT ... WHERE P ORDER BY R] of rows with their keys. *)
Definition select_rows {R} (P : string → R → bool) (m : gmap string R) : list (string * R) :=
  filter (λ kr, P kr.1 kr.2 = true) (map_to_list m).

Lemma find_row_Some {R} P (m : gmap string R) k r :
  find_row P m = Some (k, r) → m !! k = Some r ∧ P k r = true.
Proof.
  unfold find_row. intros H. destruct (filter _ _) as [|x l] eqn:E; [done|].
  injection H as ->. assert ((k, r) ∈ filter (λ kr, P kr.1 kr.2 = true) (map_to_list m)) as Hin
    by (rewrite E; left).
  apply list_elem_of_filter in Hin as [HP Hin%elem_of_map_to_list]. done.
Qed.

Lemma find_row_None {R} P (m : gmap string R) :
  find_row P m = None ↔ ∀ k r, m !! k = Some r → P k r = false.
Proof.
  unfold find_row. split.
  - intros H k r Hk. destruct (P k r) eqn:HP; [|done].
    destruct (filter _ _) eqn:E; [|done].
    assert ((k, r) ∈ filter (λ kr, P kr.1 kr.2 = true) (map_to_list m)) as Hin
      by (by apply list_elem_of_filter; split; [|apply elem_of_map_to_list]).
    rewrite E in Hin. by apply elem_of_nil in Hin.
  - intros H. destruct (filter _ _) as [|[k r] l] eqn:E; [done|].
    assert ((k, r) ∈ filter (λ kr, P kr.1 kr.2 = true) (map_to_list m)) as Hin by (rewrite E; left).
    apply list_elem_of_filter in Hin as [HP Hin%elem_of_map_to_list]. cbn in HP.
    by rewrite (H _ _ Hin) in HP.
Qed.

Lemma exists_row_true {R} P (m : gmap string R) :
  exists_row P m = true ↔ ∃ k r, m !! k = Some r ∧ P k r = true.
Proof.
  unfold exists_row. destruct (find_row P m) as [[k r]|] eqn:E; cbn; split.
  - intros _. exists k, r. by apply find_row_Some.
  - done.
  - done.
  - intros (k & r & Hk & HP). rewrite find_row_None in E. by rewrite (E _ _ Hk) in HP.
Qed.

Lemma exists_row_false {R} P (m : gmap string R) :
  exists_row P m = false ↔ ∀ k r, m !! k = Some r → P k r = false.
Proof.
  unfold exists_row. rewrite negb_false_iff, <-find_row_None. by destruct (find_row P m).
Qed.

(** ** What a transaction leaves alone *)

Definition keeps {S A B} (π : S → B) (m : stx S A) : Prop := ∀ h h' a, m h = Ok (h', a) → π h' = π h.

Lemma keeps_bind {S A B C} (π : S → C) (m : stx S A) (f : A → stx S B) :
  keeps π m → (∀ a, keeps π (f a)) → keeps π (m ≫= f).
Proof.
  intros Hm Hf h h' b Hr. apply tx_bind_Ok in Hr as (h1 & a & E & Hr).
  by rewrite (Hf _ _ _ _ Hr), (Hm _ _ _ E).
Qed.

Lemma keeps_ret {S A C} (π : S → C) (a : A) : keeps π (mret a).
Proof. by intros h h' b [-> _]%ret_Ok. Qed.
Lemma keeps_ask {S A C} (π : S → C) (f : S → A) : keeps π (ask f).
Proof. by intros h h' b [-> _]%ask_Ok. Qed.
Lemma keeps_guard {S C} (π : S → C) b e : keeps π (guard_not b e).
Proof. by intros h h' u [_ ->]%guard_not_Ok. Qed.
Lemma keeps_fail {S A C} (π : S → C) e : keeps (A := A) π (fail e).
Proof. done. Qed.
Lemma keeps_insert {S R C} (π : S → C) (rows : S → gmap string R) set ok k r :
  (∀ m h, π (set m h) = π h) → keeps π (insert_into rows set ok k r).
Proof. intros Hs h h' u (_ & _ & ->)%insert_into_Ok. apply Hs. Qed.
Lemma keeps_update {S R C} (π : S → C) (rows : S → gmap string R) set ok P f :
  (∀ m h, π (set m h) = π h) → keeps π (update_rows rows set ok P f).
Proof. intros Hs h h' n (-> & _)%update_rows_Ok. apply Hs. Qed.

Lemma keeps_pure {S A C} (π : S → C) (r : res A) : keeps π (pure r).
Proof. by intros h h' a [-> _]%pure_Ok. Qed.
Lemma keeps_on_error {S A C} (π : S → C) f (m : stx S A) : keeps π m → keeps π (on_error f m).
Proof. intros Hm h h' a Hr%on_error_Ok. by eapply Hm. Qed.
Lemma keeps_for_each {S A C} (π : S → C) (l : list A) (f : A → stx S unit) : (∀ a, keeps π (f a)) → keeps π (for_each l f).
Proof. intros Hf. induction l as [|a l IH]; cbn [for_each]; [apply keeps_ret|]. by apply keeps_bind. Qed.

(** A transaction that changes nothing. *)
Notation reads := (keeps id).
Lemma reads_keeps {S A C} (π : S → C) (m : stx S A) : reads m → keeps π m.
Proof. intros Hm h h' a Hr. by rewrite (Hm _ _ _ Hr : h' = h). Qed.

(** [keeps_tac] decomposes a transaction; the hints know its parts. *)
Create HintDb keeps_db.

Ltac keeps_tac :=
  lazymatch goal with
  | |- keeps _ (_ ≫= _) => apply keeps_bind; [keeps_tac | intros ?; keeps_tac]
  | |- keeps _ (mret _) => apply keeps_ret
  | |- keeps _ (ask _) => apply keeps_ask
  | |- keeps _ (guard_not _ _) => apply keeps_guard
  | |- keeps _ (fail _) => apply keeps_fail
  | |- keeps _ (pure _) => apply keeps_pure
  | |- keeps _ (on_error _ _) => apply keeps_on_error; keeps_tac
  | |- keeps _ (let '(_, _) := ?x in _) => destruct x; keeps_tac
  | |- keeps _ (match ?x with _ => _ end) => destruct x; keeps_tac
  | |- _ => first [solve [auto with keeps_db] | apply keeps_insert; reflexivity | apply keeps_update; reflexivity | idtac]
  end.
