(* ===== verification/HubTables.v ===== *)
(** * Team hub: the tables

    The rows of the hub's SQLite database that decide who may do what, with the
    [CHECK], [UNIQUE], [FOREIGN KEY] and trigger constraints of
    [agentsdock_team_hub/migrations/]. *)
From S2P Require Import Prelude.
From S2P Require Import PyValues.
From S2P Require Import Transactions.
Open Scope string_scope.

(** ** Rows *)

Inductive principal_kind := Human | Service | Node | Agent | Chat.
Inductive status := Active | Suspended | Revoked.
Inductive role := Owner | Admin | Member | Guest | Automation.
Inductive team_kind := Personal | Shared.
Inductive node_status := NodeActive | NodeOffline | NodeSuspended | NodeRevoked.
#[global] Instance principal_kind_eq : EqDecision principal_kind. Proof. solve_decision. Defined.
#[global] Instance status_eq : EqDecision status. Proof. solve_decision. Defined.
#[global] Instance role_eq : EqDecision role. Proof. solve_decision. Defined.
#[global] Instance team_kind_eq : EqDecision team_kind. Proof. solve_decision. Defined.
#[global] Instance node_status_eq : EqDecision node_status. Proof. solve_decision. Defined.

Record principal := mkPrincipal {
  pr_kind : principal_kind;
  pr_scope : option string;  (* scope_team_id *)
  pr_name : string;
  pr_status : status;
  pr_created : Z;
  pr_updated : Z;
}.

Record human := mkHuman { hu_email : string; hu_created : Z }.
Record service := mkService { sv_identifier : string; sv_created : Z }.

Record team := mkTeam {
  tm_kind : team_kind;
  tm_slug : string;
  tm_name : string;
  tm_owner : option string;  (* personal_owner_principal_id *)
  tm_creator : string;
  tm_created : Z;
  tm_updated : Z;
}.

Record membership := mkMembership {
  mb_team : string;
  mb_principal : string;
  mb_role : role;
  mb_status : status;
  mb_inviter : option string;
  mb_created : Z;
  mb_updated : Z;
}.

Record invitation := mkInvitation {
  iv_team : string;
  iv_hash : string;
  iv_email : string;  (* since 0003 no row is inserted without one *)
  iv_role : role;
  iv_issuer : string;
  iv_expires : Z;
  iv_created : Z;
  iv_redeemed : option Z;
  iv_redeemer : option string;
  iv_revoked : option Z;
}.

Record session := mkSession {
  ds_human : string;
  ds_label : string;
  ds_generation : Z;
  ds_created : Z;
  ds_seen : Z;
  ds_expires : Z;
  ds_revoked : option Z;
}.

Record token := mkToken {
  rt_session : string;
  rt_hash : string;
  rt_generation : Z;
  rt_created : Z;
  rt_expires : Z;
  rt_consumed : option Z;
  rt_next : option string;  (* replaced_by_token_id *)
  rt_revoked : option Z;
}.

(** [access_token_revocations], by [jti_hash]. *)
Record jti_revocation := mkJti { ar_session : string; ar_expires : Z; ar_revoked : Z }.

(** [owner_recovery_claims] *)
Record recovery := mkRecovery {
  rc_team : string;
  rc_principal : string;
  rc_hash : string;
  rc_label : string;
  rc_created : Z;
  rc_expires : Z;
  rc_consumed : option Z;
  rc_session : option string;
  rc_revoked : option Z;
}.

(** [bootstrap_claims] *)
Record claim := mkClaim {
  bc_hash : string;
  bc_created : Z;
  bc_expires : Z;
  bc_consumed : option Z;
  bc_principal : option string;
  bc_revoked : option Z;
}.

(** [bootstrap_delegations], by the id of the claim. *)
Record delegation := mkDelegation {
  bd_request : string;
  bd_fingerprint : string;
  bd_server : string;
  bd_instance : string;
  bd_hub : string;
  bd_url : string;
  bd_login : string;
  bd_email : string;
  bd_name : string;
  bd_label : string;
  bd_created : Z;
  bd_expires : Z;
}.

Record node := mkNode {
  nd_team : string;
  nd_principal : string;
  nd_server : string;  (* server_identity *)
  nd_name : string;
  nd_status : node_status;
  nd_enrolled : Z;
  nd_seen : option Z;
}.

(** [network_peer_bindings], by [peer_id]. *)
Record peer_binding := mkPeer {
  pb_team : string;
  pb_node : string;
  pb_service : string;
  pb_server : string;
  pb_active : bool;
  pb_created : Z;
  pb_revoked : option Z;
}.

(** [managed_host_bindings], whose only row has [singleton = 1]. *)
Record host_binding := mkHost { hb_hub : string; hb_server : string; hb_created : Z }.

Record channel := mkChannel {
  cn_team : string;
  cn_kind : string;
  cn_visibility : string;
  cn_slug : option string;
  cn_creator : string;
  cn_created : Z;
  cn_archived : option Z;
}.

(** [channel_acl_entries] whose subject is a role. *)
Record acl := mkAcl {
  al_team : string;
  al_channel : string;
  al_role : role;
  al_read : bool;
  al_post : bool;
  al_manage : bool;
  al_created : Z;
}.

(** [network_boards], by team. *)
Record board := mkBoard { bo_channel : string; bo_created : Z }.

Record event := mkEvent {
  ev_team : string;
  ev_actor : string;
  ev_node : option string;
  ev_action : string;
  ev_resource_type : string;
  ev_resource_id : string;
  ev_outcome : string;
  ev_metadata : string;  (* metadata_json *)
  ev_previous : option string;
  ev_hash : string;
  ev_created : Z;
}.

(** [audit_chain_heads], by team. *)
Record chain_head := mkHead { hd_event : string; hd_hash : string; hd_sequence : Z; hd_updated : Z }.

Record hub := mkHub {
  principals : gmap string principal;
  humans : gmap string human;
  services : gmap string service;
  teams : gmap string team;
  memberships : gmap string membership;
  invitations : gmap string invitation;
  sessions : gmap string session;
  tokens : gmap string token;
  jtis : gmap string jti_revocation;
  recoveries : gmap string recovery;
  claims : gmap string claim;
  delegations : gmap string delegation;
  nodes : gmap string node;
  peers : gmap string peer_binding;
  channels : gmap string channel;
  acls : gmap string acl;
  boards : gmap string board;
  host : option host_binding;
  events : gmap string event;
  heads : gmap string chain_head;
}.

(** A transaction on the hub's tables. *)
Notation tx := (stx hub).

(** * Team hub: constraints and statements

    For each table the constraints under which a row is inserted or changed,
    and the statements the hub sends. *)
(** ** References *)

Definition present {R} (m : gmap string R) (k : string) : bool := negb (is_null (m !! k)).
Definition present_opt {R} (m : gmap string R) (k : option string) : bool :=
  match k with Some k => present m k | None => true end.

(** Whether another row has the same value in a [UNIQUE] column. *)
Definition taken {R A} `{EqDecision A} (f : R → A) (r : R) (m : gmap string R) : bool :=
  exists_row (λ _ r', bool_decide (f r' = f r)) m.

Definition principal_kind_of (h : hub) (p : string) : option principal_kind := pr_kind <$> principals h !! p.
Definition principal_active (h : hub) (p : string) : bool :=
  match principals h !! p with Some r => bool_decide (pr_status r = Active) | None => false end.

Definition is_member (team p : string) (m : membership) : bool :=
  String.eqb (mb_team m) team && String.eqb (mb_principal m) p.
Definition has_membership (h : hub) (team p : string) : bool :=
  exists_row (λ _ m, is_member team p m) (memberships h).
Definition active_owner (m : membership) : bool :=
  bool_decide (mb_role m = Owner) && bool_decide (mb_status m = Active).

(** The service that owns a network the server made itself. *)
Definition MANAGED_OWNER_ID : string := "service_managed_network_owner".
Definition MANAGED_OWNER_SERVICE : string := "agentsdock.team-hub.managed-network-owner".

(** ** Constraints on new rows *)

Definition principal_ok (h : hub) (_ : string) (r : principal) : bool :=
  trimmed_length 1 (pr_name r) 160 && (0 <=? pr_created r)%Z && (pr_created r <=? pr_updated r)%Z
  && match pr_kind r with
     | Human | Service => is_null (pr_scope r)
     | Node | Agent | Chat => negb (is_null (pr_scope r))
     end
  && present_opt (teams h) (pr_scope r).

Definition email_stored_ok (e : string) : bool :=
  String.eqb e (sql_lower (sql_trim e)) && between 3 (sql_length e) 320.

Definition human_ok (h : hub) (k : string) (r : human) : bool :=
  bool_decide (principal_kind_of h k = Some Human) && negb (taken hu_email r (humans h))
  && email_stored_ok (hu_email r) && (0 <=? hu_created r)%Z.

Definition service_ok (h : hub) (k : string) (r : service) : bool :=
  bool_decide (principal_kind_of h k = Some Service) && negb (taken sv_identifier r (services h))
  && between 1 (sql_length (sv_identifier r)) 160 && (0 <=? sv_created r)%Z.

Definition team_ok (h : hub) (_ : string) (r : team) : bool :=
  negb (taken tm_slug r (teams h)) && String.eqb (tm_slug r) (sql_lower (sql_trim (tm_slug r)))
  && between 3 (sql_length (tm_slug r)) 80 && trimmed_length 1 (tm_name r) 160
  && present_opt (humans h) (tm_owner r) && present (principals h) (tm_creator r)
  && (0 <=? tm_created r)%Z && (tm_created r <=? tm_updated r)%Z
  && (is_null (tm_owner r) || negb (taken tm_owner r (teams h)))
  && match tm_kind r with Personal => negb (is_null (tm_owner r)) | Shared => is_null (tm_owner r) end.

(** [memberships_require_compatible_principal], of migration 0014. *)
Definition role_fits (h : hub) (m : membership) : bool :=
  match principal_kind_of h (mb_principal m), mb_role m with
  | Some Service, Automation => true
  | Some Human, Automation => false
  | Some Human, _ => true
  | Some Service, Owner =>
      String.eqb (mb_principal m) MANAGED_OWNER_ID && principal_active h (mb_principal m)
      && bool_decide (sv_identifier <$> services h !! mb_principal m = Some MANAGED_OWNER_SERVICE)
      && match teams h !! mb_team m with
         | Some t => bool_decide (tm_kind t = Shared) && String.eqb (tm_creator t) (mb_principal m)
         | None => false
         end
      && negb (is_null (host h))
  | _, _ => false
  end.

(** [memberships_one_active_owner_per_team] *)
Definition owner_unique (h : hub) (k : string) (m : membership) : bool :=
  negb (active_owner m)
  || negb (exists_row (λ k' m', negb (String.eqb k' k) && String.eqb (mb_team m') (mb_team m) && active_owner m')
             (memberships h)).

Definition membership_ok (h : hub) (k : string) (r : membership) : bool :=
  present (teams h) (mb_team r) && present (principals h) (mb_principal r)
  && present_opt (principals h) (mb_inviter r)
  && (0 <=? mb_created r)%Z && (mb_created r <=? mb_updated r)%Z
  && negb (has_membership h (mb_team r) (mb_principal r))
  && role_fits h r && owner_unique h k r.

Definition invitable (r : role) : bool := bool_decide (r = Admin) || bool_decide (r = Member) || bool_decide (r = Guest).

Definition invitation_ok (h : hub) (_ : string) (r : invitation) : bool :=
  present (teams h) (iv_team r) && negb (taken iv_hash r (invitations h)) && is_digest (iv_hash r)
  && email_stored_ok (iv_email r) && invitable (iv_role r)
  && has_membership h (iv_team r) (iv_issuer r)
  && (0 <=? iv_expires r)%Z && (0 <=? iv_created r)%Z && (iv_created r <? iv_expires r)%Z
  && is_null (iv_redeemed r) && is_null (iv_redeemer r) && is_null (iv_revoked r).

Definition session_ok (h : hub) (_ : string) (r : session) : bool :=
  present (humans h) (ds_human r) && trimmed_length 1 (ds_label r) 160
  && (0 <=? ds_generation r)%Z && (0 <=? ds_created r)%Z && (ds_created r <=? ds_seen r)%Z
  && (ds_created r <? ds_expires r)%Z && after_or_null (ds_revoked r) (ds_created r).

Definition token_ok (h : hub) (_ : string) (r : token) : bool :=
  present (sessions h) (rt_session r) && negb (taken rt_hash r (tokens h)) && is_digest (rt_hash r)
  && (0 <=? rt_generation r)%Z && (0 <=? rt_created r)%Z && (rt_created r <? rt_expires r)%Z
  && negb (taken (λ t, (rt_session t, rt_generation t)) r (tokens h))
  && is_null (rt_consumed r) && is_null (rt_next r) && is_null (rt_revoked r).

Definition recovery_ok (h : hub) (_ : string) (r : recovery) : bool :=
  present (teams h) (rc_team r) && has_membership h (rc_team r) (rc_principal r)
  && negb (taken rc_hash r (recoveries h)) && is_digest (rc_hash r)
  && trimmed_length 1 (rc_label r) 160 && (0 <=? rc_created r)%Z && (rc_created r <? rc_expires r)%Z
  && is_null (rc_consumed r) && is_null (rc_session r) && is_null (rc_revoked r).

Definition claim_ok (h : hub) (_ : string) (r : claim) : bool :=
  negb (taken bc_hash r (claims h)) && is_digest (bc_hash r)
  && (0 <=? bc_created r)%Z && (bc_created r <? bc_expires r)%Z
  && is_null (bc_consumed r) && is_null (bc_principal r) && is_null (bc_revoked r).

Definition node_ok (h : hub) (_ : string) (r : node) : bool :=
  present (teams h) (nd_team r) && negb (taken nd_principal r (nodes h)) && negb (taken nd_server r (nodes h))
  && trimmed_length 8 (nd_server r) 240 && trimmed_length 1 (nd_name r) 160
  && (0 <=? nd_enrolled r)%Z && after_or_null (nd_seen r) (nd_enrolled r)
  && match principals h !! nd_principal r with
     | Some p => bool_decide (pr_kind p = Node) && bool_decide (pr_scope p = Some (nd_team r))
     | None => false
     end.

(** [network_peer_binding_requires_exact_identity] *)
Definition peer_authority (h : hub) (k : string) (r : peer_binding) : bool :=
  match nodes h !! pb_node r with
  | Some n => String.eqb (nd_team n) (pb_team r) && String.eqb (nd_server n) (pb_server r)
              && negb (bool_decide (nd_status n = NodeRevoked))
  | None => false
  end
  && bool_decide (principal_kind_of h (pb_service r) = Some Service) && principal_active h (pb_service r)
  && bool_decide (sv_identifier <$> services h !! pb_service r = Some ("agentsdock.secure-peer." +:+ k))
  && exists_row (λ _ m, is_member (pb_team r) (pb_service r) m && bool_decide (mb_role m = Automation)
                        && bool_decide (mb_status m = Active)) (memberships h).

Definition peer_ok (h : hub) (k : string) (r : peer_binding) : bool :=
  (sql_length k =? 36)%Z && trimmed_length 8 (pb_server r) 240 && (0 <=? pb_created r)%Z
  && pb_active r && is_null (pb_revoked r)
  && negb (exists_row (λ _ b, String.eqb (pb_team b) (pb_team r) && String.eqb (pb_node b) (pb_node r)
                              && pb_active b) (peers h))
  && peer_authority h k r.

Definition channel_ok (h : hub) (_ : string) (r : channel) : bool :=
  present (teams h) (cn_team r) && has_membership h (cn_team r) (cn_creator r)
  && str_in (cn_kind r) ["direct"; "board"; "announcements"] && str_in (cn_visibility r) ["private"; "team"]
  && match cn_slug r with
     | Some s => negb (String.eqb (cn_kind r) "direct") && String.eqb s (sql_lower (sql_trim s))
                 && between 1 (sql_length s) 80
                 && negb (taken (λ c, (cn_team c, cn_slug c)) r (channels h))
     | None => String.eqb (cn_kind r) "direct"
     end
  && (0 <=? cn_created r)%Z && after_or_null (cn_archived r) (cn_created r).

Definition acl_ok (h : hub) (_ : string) (r : acl) : bool :=
  match channels h !! al_channel r with Some c => String.eqb (cn_team c) (al_team r) | None => false end
  && negb (taken (λ a, (al_channel a, al_role a)) r (acls h)) && (0 <=? al_created r)%Z.

Definition live_board (team : string) (c : channel) : bool :=
  String.eqb (cn_team c) team && String.eqb (cn_kind c) "board" && String.eqb (cn_visibility c) "team"
  && is_null (cn_archived c).

Definition board_ok (h : hub) (k : string) (r : board) : bool :=
  present (teams h) k && negb (taken bo_channel r (boards h)) && (0 <=? bo_created r)%Z
  && match channels h !! bo_channel r with Some c => live_board k c | None => false end.

(** [audit_events_require_team_actor] and the node provenance of the actor. *)
Definition actor_ok (h : hub) (r : event) : bool :=
  match principals h !! ev_actor r with
  | Some p =>
      negb (bool_decide (pr_kind p = Chat))
      && (bool_decide (pr_scope p = Some (ev_team r)) || has_membership h (ev_team r) (ev_actor r))
      && match ev_node r with
         | Some n => (bool_decide (pr_kind p = Node) || bool_decide (pr_kind p = Agent))
                     && match nodes h !! n with Some n => String.eqb (nd_team n) (ev_team r) | None => false end
         | None => true
         end
      && (negb (bool_decide (pr_kind p = Node))
          || match ev_node r with
             | Some n => match nodes h !! n with
                         | Some n => String.eqb (nd_team n) (ev_team r) && String.eqb (nd_principal n) (ev_actor r)
                         | None => false
                         end
             | None => false
             end)
      && negb (bool_decide (pr_kind p = Agent))  (* an agent's event names its agent, chat and run *)
  | None => false
  end.

Definition event_ok (h : hub) (_ : string) (r : event) : bool :=
  present (teams h) (ev_team r)
  && trimmed_length 1 (ev_action r) 160 && trimmed_length 1 (ev_resource_type r) 80
  && trimmed_length 1 (ev_resource_id r) 240
  && str_in (ev_outcome r) ["accepted"; "denied"; "succeeded"; "failed"; "cancelled"]
  && match ev_previous r with Some p => is_digest p | None => true end
  && is_digest (ev_hash r) && (0 <=? ev_created r)%Z
  && negb (taken (λ e, (ev_team e, ev_hash e)) r (events h))
  && actor_ok h r.

Definition head_ok (h : hub) (k : string) (r : chain_head) : bool :=
  present (teams h) k && is_digest (hd_hash r) && (1 <=? hd_sequence r)%Z && (0 <=? hd_updated r)%Z
  && match events h !! hd_event r with Some e => String.eqb (ev_team e) k | None => false end.

(** ** Constraints on changes *)

Definition principal_update_ok (h : hub) (k : string) (r r' : principal) : bool :=
  trimmed_length 1 (pr_name r') 160 && (pr_created r' <=? pr_updated r')%Z
  && (negb (bool_decide (pr_status r = Revoked)) || bool_decide (pr_status r' = Revoked))
  && (bool_decide (pr_status r' = Active)
      || negb (exists_row (λ _ m, String.eqb (mb_principal m) k && active_owner m) (memberships h))).

Definition membership_update_ok (h : hub) (k : string) (r r' : membership) : bool :=
  (mb_created r' <=? mb_updated r')%Z
  && (negb (bool_decide (mb_status r = Revoked)) || bool_decide (mb_status r' = Revoked))
  && (negb (active_owner r) || active_owner r')
  && (bool_decide (mb_role r' = mb_role r) || role_fits h r') && owner_unique h k r'.

Definition invitation_update_ok (h : hub) (_ : string) (r r' : invitation) : bool :=
  after_or_null (iv_redeemed r') (iv_created r') && after_or_null (iv_revoked r') (iv_created r')
  && Bool.eqb (is_null (iv_redeemed r')) (is_null (iv_redeemer r'))
  && (is_null (iv_redeemed r') || is_null (iv_revoked r'))
  && present_opt (humans h) (iv_redeemer r')
  && (is_null (iv_redeemed r) || bool_decide (iv_redeemed r' = iv_redeemed r) && bool_decide (iv_redeemer r' = iv_redeemer r))
  && sticky (iv_revoked r) (iv_revoked r').

Definition session_update_ok (_ : hub) (_ : string) (r r' : session) : bool :=
  (ds_generation r <=? ds_generation r')%Z && (ds_seen r <=? ds_seen r')%Z
  && sticky (ds_revoked r) (ds_revoked r') && after_or_null (ds_revoked r') (ds_created r').

Definition token_update_ok (h : hub) (_ : string) (r r' : token) : bool :=
  after_or_null (rt_consumed r') (rt_created r') && after_or_null (rt_revoked r') (rt_created r')
  && Bool.eqb (is_null (rt_consumed r')) (is_null (rt_next r'))
  && (is_null (rt_consumed r') || is_null (rt_revoked r'))
  && (is_null (rt_consumed r) || bool_decide (rt_consumed r' = rt_consumed r) && bool_decide (rt_next r' = rt_next r))
  && sticky (rt_revoked r) (rt_revoked r')
  && (is_null (rt_consumed r') || bool_decide (rt_consumed r' = rt_consumed r)
      || match rt_next r' with
         | Some n => match tokens h !! n with
                     | Some t => String.eqb (rt_session t) (rt_session r)
                                 && (rt_generation t =? rt_generation r + 1)%Z
                                 && is_null (rt_consumed t) && is_null (rt_revoked t)
                     | None => false
                     end
         | None => false
         end).

Definition recovery_update_ok (h : hub) (_ : string) (r r' : recovery) : bool :=
  after_or_null (rc_consumed r') (rc_created r') && after_or_null (rc_revoked r') (rc_created r')
  && Bool.eqb (is_null (rc_consumed r')) (is_null (rc_session r'))
  && (is_null (rc_consumed r') || is_null (rc_revoked r'))
  && present_opt (sessions h) (rc_session r')
  && (is_null (rc_consumed r) || bool_decide (rc_consumed r' = rc_consumed r) && bool_decide (rc_session r' = rc_session r))
  && sticky (rc_revoked r) (rc_revoked r').

Definition claim_update_ok (h : hub) (_ : string) (r r' : claim) : bool :=
  after_or_null (bc_consumed r') (bc_created r') && after_or_null (bc_revoked r') (bc_created r')
  && Bool.eqb (is_null (bc_consumed r')) (is_null (bc_principal r'))
  && (is_null (bc_consumed r') || is_null (bc_revoked r'))
  && present_opt (humans h) (bc_principal r')
  && (is_null (bc_consumed r) || bool_decide (bc_consumed r' = bc_consumed r) && bool_decide (bc_principal r' = bc_principal r))
  && sticky (bc_revoked r) (bc_revoked r').

Definition node_update_ok (_ : hub) (_ : string) (r r' : node) : bool :=
  trimmed_length 1 (nd_name r') 160 && after_or_null (nd_seen r') (nd_enrolled r')
  && (negb (bool_decide (nd_status r = NodeRevoked)) || bool_decide (nd_status r' = NodeRevoked)).

Definition peer_update_ok (_ : hub) (_ : string) (r r' : peer_binding) : bool :=
  after_or_null (pb_revoked r') (pb_created r') && (pb_active r || negb (pb_active r'))
  && sticky (pb_revoked r) (pb_revoked r') && Bool.eqb (pb_active r') (is_null (pb_revoked r')).

(** [network_board_binding_replacement_is_guarded] *)
Definition board_update_ok (h : hub) (k : string) (r r' : board) : bool :=
  String.eqb (bo_channel r') (bo_channel r)
  || match channels h !! bo_channel r with Some c => negb (live_board k c) | None => true end
     && match channels h !! bo_channel r' with Some c => live_board k c | None => false end
     && negb (exists_row (λ k' b, negb (String.eqb k' k) && String.eqb (bo_channel b) (bo_channel r')) (boards h)).

Definition head_update_ok (h : hub) (k : string) (r r' : chain_head) : bool :=
  is_digest (hd_hash r') && (hd_sequence r' =? hd_sequence r + 1)%Z && (hd_updated r <=? hd_updated r')%Z
  && match events h !! hd_event r' with Some e => String.eqb (ev_team e) k | None => false end.

(** ** Statements *)

Definition set_principals m h := h {{ principals := m }}.
Definition set_humans m h := h {{ humans := m }}.
Definition set_services m h := h {{ services := m }}.
Definition set_teams m h := h {{ teams := m }}.
Definition set_memberships m h := h {{ memberships := m }}.
Definition set_invitations m h := h {{ invitations := m }}.
Definition set_sessions m h := h {{ sessions := m }}.
Definition set_tokens m h := h {{ tokens := m }}.
Definition set_recoveries m h := h {{ recoveries := m }}.
Definition set_claims m h := h {{ claims := m }}.
Definition set_nodes m h := h {{ nodes := m }}.
Definition set_peers m h := h {{ peers := m }}.
Definition set_channels m h := h {{ channels := m }}.
Definition set_acls m h := h {{ acls := m }}.
Definition set_boards m h := h {{ boards := m }}.
Definition set_events m h := h {{ events := m }}.
Definition set_heads m h := h {{ heads := m }}.
Definition set_jtis m h := h {{ jtis := m }}.

Definition insert_principal := insert_into principals set_principals principal_ok.
Definition insert_human := insert_into humans set_humans human_ok.
Definition insert_service := insert_into services set_services service_ok.
Definition insert_team := insert_into teams set_teams team_ok.
Definition insert_membership := insert_into memberships set_memberships membership_ok.
Definition insert_invitation := insert_into invitations set_invitations invitation_ok.
Definition insert_session := insert_into sessions set_sessions session_ok.
Definition insert_token := insert_into tokens set_tokens token_ok.
Definition insert_recovery := insert_into recoveries set_recoveries recovery_ok.
Definition insert_claim := insert_into claims set_claims claim_ok.
Definition insert_node := insert_into nodes set_nodes node_ok.
Definition insert_peer := insert_into peers set_peers peer_ok.
Definition insert_channel := insert_into channels set_channels channel_ok.
Definition insert_acl := insert_into acls set_acls acl_ok.
Definition insert_board := insert_into boards set_boards board_ok.
Definition insert_event := insert_into events set_events event_ok.
Definition insert_head := insert_into heads set_heads head_ok.

Definition update_principals := update_rows principals set_principals principal_update_ok.
Definition update_memberships := update_rows memberships set_memberships membership_update_ok.
Definition update_invitations := update_rows invitations set_invitations invitation_update_ok.
Definition update_sessions := update_rows sessions set_sessions session_update_ok.
Definition update_tokens := update_rows tokens set_tokens token_update_ok.
Definition update_recoveries := update_rows recoveries set_recoveries recovery_update_ok.
Definition update_claims := update_rows claims set_claims claim_update_ok.
Definition update_nodes := update_rows nodes set_nodes node_update_ok.
Definition update_peers := update_rows peers set_peers peer_update_ok.
Definition update_boards := update_rows boards set_boards board_update_ok.
Definition update_heads := update_rows heads set_heads head_update_ok.

(** [INSERT OR IGNORE INTO access_token_revocations]: a row that is there, or
    breaks a [CHECK], is left out; a missing session is an error. *)
Definition insert_jti (k : string) (r : jti_revocation) : tx unit := λ h,
  if negb (is_digest k) || negb ((0 <=? ar_expires r) && (0 <=? ar_revoked r))%Z || present (jtis h) k
  then Ok (h, tt)
  else if present (sessions h) (ar_session r) then Ok (set_jtis (<[k := r]> (jtis h)) h, tt)
  else Err (IntegrityError "FOREIGN KEY constraint failed").

(** [INSERT OR IGNORE INTO channel_acl_entries] and its [rowcount]. *)
Definition insert_acl_or_ignore (k : string) (r : acl) : tx nat := λ h,
  if present (acls h) k || taken (λ a, (al_channel a, al_role a)) r (acls h) || negb (0 <=? al_created r)%Z
  then Ok (h, O)
  else match insert_acl k r h with Ok (h', _) => Ok (h', 1%nat) | Err e => Err e end.
