(* ===== verification/HubAuth.v ===== *)
(** * Team hub: the audit ledger

    [HubStore._audit] and [_audit_principal_teams]: every event of a team
    carries the digest of the one before it, and a head row per team names the
    last. *)
From S2P Require Import Prelude.
From S2P Require Import PyValues.
From S2P Require Import Json.
From S2P Require Import HubTokens.
From S2P Require Import Transactions.
From S2P Require Import HubTables.
Open Scope string_scope.

(** [b.hex()] *)
Definition hex_of (b : string) : string := concat_map (λ c, hex2 (code c) "") b.

(** [_id(prefix)], from what [secrets.token_hex(16)] returned. *)
Definition new_id (prefix random : string) : string := prefix +:+ "_" +:+ random.

Definition opt_text (o : option string) : pyval := match o with Some s => PStr s | None => PNone end.

(** What an event says. *)
Record entry := mkEntry {
  en_team : string;
  en_actor : string;
  en_node : option string;
  en_action : string;
  en_type : string;
  en_resource : string;
  en_outcome : string;
  en_metadata : list (string * pyval);
  en_created : Z;
}.

(** The dict that is hashed. *)
Definition event_body (id : string) (e : entry) (previous : option string) (sequence : Z) : pyval :=
  PDict [("id", PStr id); ("team_id", PStr (en_team e)); ("actor_principal_id", PStr (en_actor e));
    ("node_id", opt_text (en_node e)); ("action", PStr (en_action e)); ("resource_type", PStr (en_type e));
    ("resource_id", PStr (en_resource e)); ("outcome", PStr (en_outcome e)); ("metadata", PDict (en_metadata e));
    ("previous_event_hash", opt_text (hex_of <$> previous)); ("sequence", PInt sequence);
    ("created_at", PInt (en_created e))].

Section audit.
Context `{HubCrypto}.

Definition event_digest (id : string) (e : entry) (previous : option string) (sequence : Z) : string :=
  sha256 (canonical_json (event_body id e previous sequence)).

Definition event_row (id : string) (e : entry) (previous : option string) (sequence : Z) : event :=
  mkEvent (en_team e) (en_actor e) (en_node e) (en_action e) (en_type e) (en_resource e) (en_outcome e)
    (dumps_sorted (PDict (en_metadata e))) previous (event_digest id e previous sequence) (en_created e).

Definition next_sequence (c : option chain_head) : Z :=
  match c with Some c => hd_sequence c + 1 | None => 1 end.

(** [_audit] *)
Definition audit (e : entry) (random : string) : tx unit :=
  last ← ask (λ h, heads h !! en_team e);
  let previous := hd_hash <$> last in
  let sequence := next_sequence last in
  let id := new_id "audit" random in
  let hash := event_digest id e previous sequence in
  insert_event id (event_row id e previous sequence);;
  match last with
  | None => insert_head (en_team e) (mkHead id hash 1 (en_created e))
  | Some _ =>
      _ ← update_heads (λ k _, String.eqb k (en_team e)) (λ _, mkHead id hash sequence (en_created e));
      mret tt
  end.

(** The teams of a principal: [SELECT team_id FROM memberships WHERE
    principal_id=? AND status='active' ORDER BY team_id]. *)
Definition active_teams (p : string) (h : hub) : list string :=
  merge_sort String.le (map (λ km, mb_team km.2)
    (select_rows (λ _ m, String.eqb (mb_principal m) p && bool_decide (mb_status m = Active)) (memberships h))).

Fixpoint audit_teams (l : list string) (e : string → entry) (random : nat → string) : tx unit :=
  match l with
  | [] => mret tt
  | t :: l => audit (e t) (random O);; audit_teams l e (λ i, random (S i))
  end.

(** [_audit_principal_teams] *)
Definition audit_principal_teams (p action type resource outcome : string) (now : Z) (random : nat → string) : tx unit :=
  l ← ask (active_teams p);
  audit_teams l (λ t, mkEntry t p None action type resource outcome [] now) random.

(** [_audit] without a node. *)
Definition audit_event (team actor action type resource outcome : string)
    (metadata : list (string * pyval)) (now : Z) (random : string) : tx unit :=
  audit (mkEntry team actor None action type resource outcome metadata now) random.
End audit.

(** * Team hub: accounts and invitations

    [agentsdock_team_hub/auth.py]: the checks of the fields of a request, the
    first account, invitations and their redemption. *)
Definition INVITATION_MAX_TTL_SECONDS : Z := 86400.
Definition MIN_TTL_SECONDS : Z := 30.
Definition MANAGED_SERVER_PRINCIPAL_ID : string := "service_managed_server".
Definition MANAGED_SERVER_SERVICE_IDENTIFIER : string := "agentsdock.team-hub.managed-server".

(** ** Fields *)

Definition bounded_text (value field : string) (minimum maximum : Z) : res string :=
  let normalized := strip value in
  raise_if (negb (between minimum (len normalized) maximum))
    (ValueError (field +:+ " must be between " +:+ pretty minimum +:+ " and " +:+ pretty maximum +:+ " characters"));;
  Ok normalized.

(** A character with at least one before it and one after it. *)
Fixpoint dot_inside (s : string) : bool :=
  match s with
  | String c ((String _ _) as r) => (code c =? 46)%N || dot_inside r
  | _ => false
  end.

(** [EMAIL_PATTERN.fullmatch] *)
Definition email_pattern (s : string) : bool :=
  string_forallb (λ c, negb (py_isspace c)) s
  && match split_on (chr 64) s with
     | [local; String _ rest] => negb (String.eqb local "") && dot_inside rest
     | _ => false
     end.

(** [_email] *)
Definition clean_email (value : string) : res string :=
  let normalized := lower (strip value) in
  raise_if ((320 <? len normalized)%Z || negb (email_pattern normalized)) (ValueError "email is invalid");;
  Ok normalized.

Definition alnum (c : Ascii.ascii) : bool :=
  let n := code c in
  ((65 <=? n) && (n <=? 90) || (97 <=? n) && (n <=? 122) || (48 <=? n) && (n <=? 57))%N.

(** [IDENTITY_PATTERN.fullmatch] *)
Definition identity_pattern (s : string) : bool :=
  match s with
  | String c r =>
      alnum c && string_forallb (λ c, alnum c || string_contains c "._:@/-") r
      && between 7 (len r) 239
  | "" => false
  end.

(** [_identity] *)
Definition clean_identity (value : string) : res string :=
  let normalized := strip value in
  raise_if (negb (identity_pattern normalized)) (ValueError "server identity is invalid");;
  Ok normalized.

Definition checked_ttl (value maximum : Z) : res Z :=
  raise_if (negb (between MIN_TTL_SECONDS value maximum)) (ValueError "ttl_seconds is out of range");;
  Ok value.

Definition UNAVAILABLE : exn := AuthenticationError "credential is invalid or unavailable".

Definition checked_time (now : Z) : res Z :=
  raise_if (now <? 0)%Z (ValueError "timestamp must be non-negative");; Ok now.

Section auth.
Context `{HubCrypto}.

(** [_token_digest] *)
Definition token_digest (token : string) : res string :=
  raise_if (negb (between 16 (len token) 512)) UNAVAILABLE;;
  Ok (sha256 (utf8 token)).

(** ** Roles *)

Definition NOT_PERMITTED : exn := AuthorizationError "active team role does not permit this operation".

(** The active membership of an active principal. *)
Definition team_role (team p : string) (h : hub) : option (string * membership) :=
  find_row (λ _ m, is_member team p m && bool_decide (mb_status m = Active) && principal_active h p)
    (memberships h).

(** [_require_team_role] *)
Definition require_team_role (team p : string) (allowed : list role) : tx membership :=
  row ← ask (team_role team p);
  match row with
  | Some (_, m) => guard_not (negb (bool_decide (mb_role m ∈ allowed))) NOT_PERMITTED;; mret m
  | None => fail NOT_PERMITTED
  end.

(** ** The first account *)

Record bootstrapped := mkBootstrapped {
  bs_human : string; bs_team : string; bs_membership : string; bs_created : bool
}.

(** [s[-n:]] *)
Definition last_chars (n : nat) (s : string) : string :=
  String.substring (String.length s - n) n s.

(** The account of an email with its personal team. *)
Definition personal_team (email : string) (h : hub) : option bootstrapped :=
  match find_row (λ _ u, String.eqb (hu_email u) email) (humans h) with
  | None => None
  | Some (p, _) =>
      match find_row (λ _ t, bool_decide (tm_owner t = Some p) && bool_decide (tm_kind t = Personal)) (teams h) with
      | None => None
      | Some (t, _) =>
          match find_row (λ _ m, is_member t p m && active_owner m && principal_active h p) (memberships h) with
          | None => None
          | Some (m, _) => Some (mkBootstrapped p t m false)
          end
      end
  end.

Definition bootstrap_personal_team (email display_name : string) (now : Z) (random : nat → string) : tx bootstrapped :=
  email ← pure (clean_email email);
  name ← pure (bounded_text display_name "display_name" 1 160);
  now ← pure (checked_time now);
  existing ← ask (personal_team email);
  match existing with
  | Some b => mret b
  | None =>
      orphan ← ask (λ h, exists_row (λ _ u, String.eqb (hu_email u) email) (humans h));
      guard_not orphan (AuthenticationError "existing account has no valid personal team");;
      let p := new_id "human" (random 0%nat) in
      let t := new_id "team" (random 1%nat) in
      let m := new_id "membership" (random 2%nat) in
      insert_principal p (mkPrincipal Human None name Active now now);;
      insert_human p (mkHuman email now);;
      insert_team t (mkTeam Personal ("personal-" +:+ last_chars 24 t) (prefix_of 153 name +:+ "'s Team")
        (Some p) p now now);;
      insert_membership m (mkMembership t p Owner Active None now now);;
      mret (mkBootstrapped p t m true)
  end.

(** ** Invitations *)

Record issued := mkIssued { is_id : string; is_token : string; is_expires : Z }.

Definition role_of_name (r : string) : option role :=
  if String.eqb r "admin" then Some Admin
  else if String.eqb r "member" then Some Member
  else if String.eqb r "guest" then Some Guest else None.

(** [_insert_invitation]; [random 0] is the secret. *)
Definition insert_new_invitation (team issuer role_name invitee : string) (ttl now : Z)
    (random : nat → string) : tx issued :=
  match role_of_name role_name with
  | None => fail (ValueError "invitation role must be admin, member, or guest")
  | Some r =>
      email ← pure (clean_email invitee);
      now ← pure (checked_time now);
      ttl ← pure (checked_ttl ttl INVITATION_MAX_TTL_SECONDS);
      let token := random 0%nat in
      let id := new_id "invite" (random 1%nat) in
      insert_invitation id (mkInvitation team (sha256 token) email r issuer (now + ttl) now None None None);;
      mret (mkIssued id token (now + ttl))
  end.

Definition issue_invitation (team issuer role_name invitee : string) (ttl now : Z)
    (random : nat → string) : tx issued :=
  require_team_role team issuer [Owner; Admin];;
  insert_new_invitation team issuer role_name invitee ttl now random.

(** A node of the team is the server that hosts the hub. *)
Definition managed_node (team : string) (h : hub) : bool :=
  match host h with
  | Some b => exists_row (λ _ n, String.eqb (nd_team n) team && String.eqb (nd_server n) (hb_server b)
                                 && bool_decide (nd_status n = NodeActive)) (nodes h)
  | None => false
  end.

(** The principal is the service of the managed server. *)
Definition managed_service (p : string) (h : hub) : bool :=
  String.eqb p MANAGED_SERVER_PRINCIPAL_ID
  && match principals h !! p with
     | Some r => bool_decide (pr_kind r = Service) && is_null (pr_scope r) && bool_decide (pr_status r = Active)
     | None => false
     end
  && bool_decide (sv_identifier <$> services h !! p = Some MANAGED_SERVER_SERVICE_IDENTIFIER).

Definition managed_operator (team p : string) (h : hub) : bool :=
  managed_service p h
  && exists_row (λ _ m, is_member team p m && bool_decide (mb_role m = Automation)
                        && bool_decide (mb_status m = Active)) (memberships h)
  && managed_node team h.

Definition issue_managed_host_invitation (team issuer role_name invitee : string) (ttl now : Z)
    (random : nat → string) : tx issued :=
  guard_not (negb (String.eqb issuer MANAGED_SERVER_PRINCIPAL_ID))
    (AuthorizationError "principal is not the managed host operator");;
  authorized ← ask (managed_operator team issuer);
  guard_not (negb authorized) (AuthorizationError "managed host operator is unavailable");;
  insert_new_invitation team issuer role_name invitee ttl now random.

(** The issuer may still invite: the joins of the SELECT. *)
Definition issuer_authorized (h : hub) (i : invitation) : bool :=
  exists_row (λ _ m, is_member (iv_team i) (iv_issuer i) m && bool_decide (mb_status m = Active)
      && principal_active h (iv_issuer i)
      && (bool_decide (mb_role m = Owner) || bool_decide (mb_role m = Admin)
          || bool_decide (mb_role m = Automation) && managed_service (iv_issuer i) h
             && managed_node (iv_team i) h)) (memberships h).

Definition pending (now : Z) (i : invitation) : bool :=
  is_null (iv_redeemed i) && is_null (iv_revoked i) && (now <? iv_expires i)%Z.

(** The account of an active principal. *)
Definition active_human (p : string) (h : hub) : option human :=
  if principal_active h p then humans h !! p else None.

(** The membership an invitation gives: the one that is there, if it is the
    same, or a new one. *)
Definition join_team (i : invitation) (p : string) (now : Z) (random : string) : tx string :=
  existing ← ask (λ h, find_row (λ _ m, is_member (iv_team i) p m) (memberships h));
  match existing with
  | Some (id, m) =>
      guard_not (negb (bool_decide (mb_status m = Active)) || negb (bool_decide (mb_role m = iv_role i)))
        (AuthorizationError "existing membership conflicts with invitation");;
      mret id
  | None =>
      let id := new_id "membership" random in
      insert_membership id (mkMembership (iv_team i) p (iv_role i) Active (Some (iv_issuer i)) now now);;
      mret id
  end.

Definition redeem_invitation (token p : string) (now : Z) (random : string) : tx string :=
  hash ← pure (token_digest token);
  now ← pure (checked_time now);
  found ← ask (λ h, find_row (λ _ i, String.eqb (iv_hash i) hash && issuer_authorized h i) (invitations h));
  match found with
  | None => fail UNAVAILABLE
  | Some (id, i) =>
      guard_not (negb (pending now i)) UNAVAILABLE;;
      account ← ask (active_human p);
      match account with
      | None => fail (AuthenticationError "human account is unavailable")
      | Some u =>
          guard_not (negb (String.eqb (iv_email i) (hu_email u))) UNAVAILABLE;;
          m ← join_team i p now random;
          changed ← update_invitations (λ k i, String.eqb k id && pending now i)
                      (λ i, i {{ iv_redeemed := Some now; iv_redeemer := Some p }});
          guard_not (negb (changed =? 1)%nat) UNAVAILABLE;;
          mret m
      end
  end.
End auth.
