(* ===== verification/HubServers.v ===== *)
(** * Team hub: servers and services

    The part of [HubStore] in [agentsdock_team_hub/store.py] that gives the
    host, its services and the paired servers their rows: principals,
    memberships, nodes, the bulletin board. *)
From S2P Require Import Prelude.
From S2P Require Import PyValues.
From S2P Require Import HubTokens.
From S2P Require Import Transactions.
From S2P Require Import HubTables.
From S2P Require Import HubAuth.

Open Scope string_scope.

(** What a [HubStore] was opened with. *)
Record config := mkConfig {
  cf_identity : option string;  (* managed_host_identity *)
  cf_instance : option string;  (* managed_server_instance_id *)
  cf_label : string;            (* managed_host_display_name *)
  cf_hub : string;              (* hub_id *)
  cf_key : string;              (* the signing key *)
}.

Definition LOCAL_CONTROL_PRINCIPAL_ID : string := "service_local_control".
Definition LOCAL_CONTROL_SERVICE : string := "agentsdock.team-hub.local-control".

(** ** Services of the host *)

(** The row of a service is the one that is meant. *)
Definition service_intact (p identifier : string) (h : hub) (r : principal) : bool :=
  bool_decide (pr_kind r = Service) && is_null (pr_scope r) && bool_decide (pr_status r = Active)
  && bool_decide (sv_identifier <$> services h !! p = Some identifier).

(** A service principal with an [automation] membership: looked up, or made. *)
Definition ensure_automation (p name identifier wrong_principal wrong_membership team : string) (now : Z)
    (random : string) : tx string :=
  row ← ask (λ h, principals h !! p);
  match row with
  | None =>
      insert_principal p (mkPrincipal Service None name Active now now);;
      insert_service p (mkService identifier now)
  | Some r =>
      intact ← ask (λ h, service_intact p identifier h r);
      guard_not (negb intact) (RuntimeError wrong_principal)
  end;;
  member ← ask (λ h, find_row (λ _ m, is_member team p m) (memberships h));
  match member with
  | None =>
      insert_membership (new_id "membership" random) (mkMembership team p Automation Active None now now)
  | Some (_, m) =>
      guard_not (negb (bool_decide (mb_role m = Automation)) || negb (bool_decide (mb_status m = Active)))
        (RuntimeError wrong_membership)
  end;;
  mret p.

(** [_local_control_principal] *)
Definition local_control_principal (team : string) (now : Z) (random : string) : tx string :=
  ensure_automation LOCAL_CONTROL_PRINCIPAL_ID "Team Hub local control" LOCAL_CONTROL_SERVICE
    "invalid Team Hub local-control service principal" "invalid Team Hub local-control team membership"
    team now random.

(** [_managed_server_principal] *)
Definition managed_server_principal (team : string) (now : Z) (random : string) : tx string :=
  ensure_automation MANAGED_SERVER_PRINCIPAL_ID "AgentsDock managed server" MANAGED_SERVER_SERVICE_IDENTIFIER
    "invalid Team Hub managed-server service principal" "invalid Team Hub managed-server team membership"
    team now random.

(** ** Nodes *)

(** A node and its principal belong to the team and are not revoked. *)
Definition node_intact (team : string) (h : hub) (n : node) : bool :=
  String.eqb (nd_team n) team && negb (bool_decide (nd_status n = NodeRevoked))
  && match principals h !! nd_principal n with
     | Some p => bool_decide (pr_kind p = Node) && bool_decide (pr_scope p = Some team)
                 && bool_decide (pr_status p = Active)
     | None => false
     end.

(** [SELECT ... FROM nodes AS n JOIN principals AS p ... WHERE
    n.server_identity=?] *)
Definition node_of_server (server : string) (h : hub) : option (string * node) :=
  find_row (λ _ n, String.eqb (nd_server n) server && present (principals h) (nd_principal n)) (nodes h).

Definition rename_principal (p label : string) (now : Z) : tx unit :=
  _ ← update_principals (λ k _, String.eqb k p) (λ r, r {{ pr_name := label; pr_updated := now }}); mret tt.

(** [_ensure_managed_host_node] *)
Definition ensure_managed_host_node (cf : config) (team : string) (now : Z) (random : nat → string) : tx (option string) :=
  match cf_identity cf with
  | None => mret None
  | Some identity =>
      row ← ask (node_of_server identity);
      match row with
      | Some (id, n) =>
          intact ← ask (λ h, node_intact team h n);
          guard_not (negb intact)
            (HubError "server_identity_conflict" "Managed server identity conflicts with Team Hub state" 409);;
          name ← ask (λ h, pr_name <$> principals h !! nd_principal n);
          (if negb (bool_decide (nd_status n = NodeActive)) || negb (String.eqb (nd_name n) (cf_label cf)) then
             _ ← update_nodes (λ k _, String.eqb k id)
                   (λ n, n {{ nd_name := cf_label cf; nd_status := NodeActive; nd_seen := Some now }});
             mret tt
           else mret tt);;
          (if bool_decide (name = Some (cf_label cf)) then mret tt
           else rename_principal (nd_principal n) (cf_label cf) now);;
          mret (Some id)
      | None =>
          let p := new_id "node_principal" (random 0%nat) in
          let id := new_id "node" (random 1%nat) in
          insert_principal p (mkPrincipal Node (Some team) (cf_label cf) Active now now);;
          insert_node id (mkNode team p identity (cf_label cf) NodeActive now (Some now));;
          mret (Some id)
      end
  end.

(** [rename_managed_host] once the label of the store is the new one. *)
Definition rename_managed_host (cf : config) (display_name : string) (now : Z) (random : nat → string) : tx unit :=
  match cf_identity cf with
  | None => fail (RuntimeError "managed server identity is unavailable")
  | Some identity =>
      label ← pure (bounded_text display_name "display_name" 1 160);
      row ← ask (λ h, find_row (λ _ n, String.eqb (nd_server n) identity) (nodes h));
      match row with
      | Some (_, n) =>
          _ ← ensure_managed_host_node (cf {{ cf_label := label }}) (nd_team n) now random;
          rename_principal MANAGED_OWNER_ID label now
      | None => mret tt
      end
  end.

Section servers.
Context `{HubCrypto}.

(** ** The bulletin board *)

Definition PRIMARY_SLUG : string := "agentsdock-bulletin".
Definition FALLBACK_SLUG : string := "agentsdock-bulletin-v1".

(** [while f"{fallback_slug}-{suffix}" in occupied_slugs: suffix += 1] *)
Fixpoint free_suffix (fuel : nat) (occupied : list string) (suffix : Z) : Z :=
  match fuel with
  | O => suffix
  | S fuel =>
      if str_in (FALLBACK_SLUG +:+ "-" +:+ pretty suffix) occupied then free_suffix fuel occupied (suffix + 1)
      else suffix
  end.

Definition board_slug (occupied : list string) : string :=
  if negb (str_in PRIMARY_SLUG occupied) then PRIMARY_SLUG
  else if negb (str_in FALLBACK_SLUG occupied) then FALLBACK_SLUG
  else FALLBACK_SLUG +:+ "-" +:+ pretty (free_suffix (length occupied) occupied 2).

(** The slugs of a team's channels. *)
Definition slugs (team : string) (h : hub) : list string :=
  omap (λ kc : string * channel, if String.eqb (cn_team kc.2) team then cn_slug kc.2 else None)
    (map_to_list (channels h)).

Definition ROLE_PERMISSIONS : list (role * (bool * bool * bool)) :=
  [(Owner, (true, true, true)); (Admin, (true, true, true)); (Member, (true, true, false));
   (Guest, (true, false, false)); (Automation, (true, true, false))].

Definition role_name (r : role) : string :=
  match r with
  | Owner => "owner" | Admin => "admin" | Member => "member" | Guest => "guest" | Automation => "automation"
  end.

Fixpoint insert_acls (team channel : string) (now : Z) (l : list (role * (bool * bool * bool)))
    (random : nat → string) : tx unit :=
  match l with
  | [] => mret tt
  | (r, (read, post, manage)) :: l =>
      insert_acl (new_id "channel_acl" (random O)) (mkAcl team channel r read post manage now);;
      insert_acls team channel now l (λ i, random (S i))
  end.

(** The board a team has: a binding, and whether its channel is usable. *)
Definition usable_board (team : string) (h : hub) (b : board) : bool :=
  match channels h !! bo_channel b with Some c => live_board team c | None => false end.

(** [_ensure_network_board] *)
Definition ensure_network_board (team creator : string) (now : Z) (random : nat → string) : tx string :=
  binding ← ask (λ h, boards h !! team);
  usable ← ask (λ h, match binding with Some b => usable_board team h b | None => false end);
  match binding, usable with
  | Some b, true => mret (bo_channel b)
  | _, _ =>
      m ← require_team_role team creator [Owner; Admin; Member; Automation];
      let id := new_id "channel" (random 0%nat) in
      occupied ← ask (slugs team);
      let slug := board_slug occupied in
      insert_channel id (mkChannel team "board" "team" (Some slug) creator now None);;
      insert_acls team id now ROLE_PERMISSIONS (λ i, random (i + 2)%nat);;
      match binding with
      | None => insert_board team (mkBoard id now)
      | Some _ =>
          _ ← update_boards (λ k _, String.eqb k team) (λ b, b {{ bo_channel := id }}); mret tt
      end;;
      audit_event team creator "network.bulletin.create" "network_bulletin" team "succeeded"
        [("creator_role", PStr (role_name (mb_role m)));
         ("replaced_unavailable_binding", PBool (negb (is_null binding)));
         ("reserved_slug", PStr slug)] now (random 1%nat);;
      mret id
  end.

(** ** Paired servers *)

Definition uuid_digit (c : Ascii.ascii) : bool :=
  let n := code c in ((48 <=? n) && (n <=? 57) || (97 <=? n) && (n <=? 102))%N.

(** [str(UUID(s)) == s] with version 4. *)
Definition canonical_uuid4 (s : string) : bool :=
  match split_on (chr 45) s with
  | [a; b; c; d; e] =>
      forallb (string_forallb uuid_digit) [a; b; c; d; e]
      && bool_decide (map String.length [a; b; c; d; e] = [8; 4; 4; 4; 12])%nat
      && match c, d with
         | String v _, String w _ => (code v =? 52)%N && string_contains w "89ab"
         | _, _ => false
         end
  | _ => false
  end.

(** [_secure_peer_principal_id] *)
Definition peer_principal_id (peer : string) : res string :=
  raise_if (negb (canonical_uuid4 peer)) (HubError "peer_unavailable" "Secure peer is unavailable" 404);;
  Ok ("service_secure_peer_" +:+ String.concat "" (split_on (chr 45) peer)).

Definition peer_conflict (what : string) : exn :=
  HubError "peer_identity_conflict" ("Secure peer " +:+ what +:+ " conflicts with Team Hub state") 409.

(** The principal of a peer; whether it was made. *)
Definition peer_principal (p identifier label : string) (now : Z) : tx bool :=
  row ← ask (λ h, principals h !! p);
  match row with
  | None =>
      insert_principal p (mkPrincipal Service None label Active now now);;
      insert_service p (mkService identifier now);;
      mret true
  | Some r =>
      intact ← ask (λ h, service_intact p identifier h r && String.eqb (pr_name r) label);
      guard_not (negb intact) (peer_conflict "identity");; mret false
  end.

Definition peer_membership (team p : string) (now : Z) (random : string) : tx bool :=
  member ← ask (λ h, find_row (λ _ m, is_member team p m) (memberships h));
  match member with
  | None =>
      insert_membership (new_id "membership" random) (mkMembership team p Automation Active None now now);;
      mret true
  | Some (_, m) =>
      guard_not (negb (bool_decide (mb_role m = Automation)) || negb (bool_decide (mb_status m = Active)))
        (peer_conflict "membership");; mret false
  end.

(** The node of a peer. *)
Definition peer_node (team identity label : string) (now : Z) (random : nat → string) : tx (bool * string) :=
  row ← ask (node_of_server identity);
  match row with
  | None =>
      let p := new_id "node_principal" (random 0%nat) in
      let id := new_id "node" (random 1%nat) in
      insert_principal p (mkPrincipal Node (Some team) label Active now now);;
      insert_node id (mkNode team p identity label NodeOffline now None);;
      mret (true, id)
  | Some (id, n) =>
      intact ← ask (λ h, node_intact team h n);
      guard_not (negb intact) (peer_conflict "server identity");; mret (false, id)
  end.

Definition bind_peer (peer team node p identity : string) (now : Z) : tx bool :=
  binding ← ask (λ h, peers h !! peer);
  busy ← ask (λ h, exists_row (λ _ b, String.eqb (pb_team b) team && String.eqb (pb_node b) node && pb_active b) (peers h));
  match binding with
  | None =>
      guard_not busy
        (HubError "peer_identity_conflict" "Server already has an active secure peer connection" 409);;
      insert_peer peer (mkPeer team node p identity true now None);; mret true
  | Some b =>
      guard_not (negb (String.eqb (pb_node b) node && String.eqb (pb_service b) p
                       && String.eqb (pb_server b) identity && pb_active b)) (peer_conflict "binding");;
      mret false
  end.

(** The [automation] entry on each open channel of the team. *)
Fixpoint open_channels (team : string) (l : list (string * channel)) (now : Z) (random : nat → string) : tx bool :=
  match l with
  | [] => mret false
  | (id, c) :: l =>
      n ← insert_acl_or_ignore (new_id "channel_acl" (random O))
            (mkAcl team id Automation true (negb (String.eqb (cn_kind c) "announcements")) false now);
      more ← open_channels team l now (λ i, random (S i));
      mret ((n =? 1)%nat || more)
  end.

Definition ensure_secure_peer_service (cf : config) (peer identity team display_name : string) (now : Z)
    (random : nat → string) : tx string :=
  p ← pure (peer_principal_id peer);
  identity ← pure (clean_identity identity);
  label ← pure (bounded_text display_name "display_name" 1 160);
  team ← pure (clean_identity team);
  known ← ask (λ h, present (teams h) team);
  guard_not (negb known) (HubError "not_found" "Resource not found" 404);;
  _ ← ensure_managed_host_node cf team now random;
  c1 ← peer_principal p ("agentsdock.secure-peer." +:+ peer) label now;
  c2 ← peer_membership team p now (random 2%nat);
  _ ← ensure_network_board team p now (λ i, random (i + 3)%nat);
  '(c3, node) ← peer_node team identity label now (λ i, random (i + 10)%nat);
  c4 ← bind_peer peer team node p identity now;
  l ← ask (λ h, select_rows (λ _ c, String.eqb (cn_team c) team && String.eqb (cn_visibility c) "team"
                                    && is_null (cn_archived c)) (channels h));
  c5 ← open_channels team l now (λ i, random (i + 13)%nat);
  (if c1 || c2 || c3 || c4 || c5 then
     audit_event team p "secure_peer.bind" "secure_peer" peer "succeeded"
       [("server_identity", PStr identity); ("node_id", PStr node)] now (random 12%nat)
   else mret tt);;
  mret p.

Definition revoke_secure_peer_service (peer team : string) (now : Z) : tx unit :=
  p ← pure (peer_principal_id peer);
  binding ← ask (λ h, match peers h !! peer with
                      | Some b => if String.eqb (pb_team b) team then Some b else None
                      | None => None
                      end);
  match binding with
  | Some b =>
      if pb_active b then
        _ ← update_peers (λ k b, String.eqb k peer && String.eqb (pb_team b) team && pb_active b)
              (λ b, b {{ pb_active := false; pb_revoked := Some now }});
        _ ← update_nodes (λ k n, String.eqb k (pb_node b) && String.eqb (nd_team n) team
                                 && bool_decide (nd_status n = NodeActive))
              (λ n, n {{ nd_status := NodeOffline; nd_seen := Some now }});
        mret tt
      else mret tt
  | None => mret tt
  end;;
  _ ← update_memberships (λ _ m, is_member team p m && bool_decide (mb_status m = Active))
        (λ m, m {{ mb_status := Revoked; mb_updated := now }});
  _ ← update_principals (λ k r, String.eqb k p && bool_decide (pr_status r = Active))
        (λ r, r {{ pr_status := Revoked; pr_updated := now }});
  mret tt.

(** The binding a heartbeat is for: [binding_query]. *)
Definition live_peer (peer team p : string) (h : hub) : option (string * node) :=
  match peers h !! peer with
  | Some b =>
      match nodes h !! pb_node b with
      | Some n =>
          if String.eqb (pb_team b) team && String.eqb (pb_service b) p && pb_active b
             && String.eqb (nd_team n) team && String.eqb (nd_server n) (pb_server b)
             && (bool_decide (nd_status n = NodeActive) || bool_decide (nd_status n = NodeOffline))
             && node_intact team h n
             && match principals h !! p with
                | Some r => service_intact p ("agentsdock.secure-peer." +:+ peer) h r
                | None => false
                end
             && exists_row (λ _ m, is_member team p m && bool_decide (mb_role m = Automation)
                                   && bool_decide (mb_status m = Active)) (memberships h)
          then Some (pb_node b, n) else None
      | None => None
      end
  | None => None
  end.

Definition SECURE_PEER_HEARTBEAT_WRITE_INTERVAL_SECONDS : Z := 15.

Definition recently_seen (now : Z) (n : node) : bool :=
  bool_decide (nd_status n = NodeActive)
  && match nd_seen n with
     | Some t => (now - SECURE_PEER_HEARTBEAT_WRITE_INTERVAL_SECONDS <? t)%Z
     | None => false
     end.

(** [record_secure_peer_heartbeat]; the first look, outside the transaction,
    finds what the second finds. *)
Definition record_secure_peer_heartbeat (peer team : string) (now : Z) : tx unit :=
  p ← pure (peer_principal_id peer);
  team ← pure (clean_identity team);
  binding ← ask (live_peer peer team p);
  match binding with
  | None => fail (HubError "peer_unavailable" "Secure peer is unavailable" 404)
  | Some (id, n) =>
      if recently_seen now n then mret tt else
      changed ← update_nodes (λ k n, String.eqb k id && String.eqb (nd_team n) team
            && (bool_decide (nd_status n = NodeActive) || bool_decide (nd_status n = NodeOffline)))
          (λ n, n {{ nd_status := NodeActive;
                     nd_seen := match nd_seen n with
                                | Some t => if (t <? now)%Z then Some now else Some t
                                | None => Some now
                                end }});
      guard_not (negb (changed =? 1)%nat) (HubError "peer_unavailable" "Secure peer is unavailable" 404)
  end.

Definition expire_secure_peer_leases (stale_before : Z) : tx nat :=
  guard_not (stale_before <? 0)%Z (ValueError "stale_before must be a non-negative integer");;
  bound ← ask (λ h, map snd (map_to_list (peers h)));
  update_nodes (λ k n, bool_decide (nd_status n = NodeActive)
      && match nd_seen n with Some t => (t <? stale_before)%Z | None => true end
      && existsb (λ b, String.eqb (pb_team b) (nd_team n) && String.eqb (pb_node b) k
                       && String.eqb (pb_server b) (nd_server n) && pb_active b) bound)
    (λ n, n {{ nd_status := NodeOffline }}).
End servers.

(** ** The name of a new board is free *)

Lemma free_suffix_spec fuel occupied s :
  let r := free_suffix fuel occupied s in
  (s <= r <= s + Z.of_nat fuel)%Z
  ∧ (∀ i, (s <= i < r)%Z → FALLBACK_SLUG +:+ "-" +:+ pretty i ∈ occupied)
  ∧ ((r < s + Z.of_nat fuel)%Z → FALLBACK_SLUG +:+ "-" +:+ pretty r ∉ occupied).
Proof.
  revert s. induction fuel as [|fuel IH]; intros s; [cbn; split_and!; lia|].
  cbn [free_suffix]. destruct (str_in (FALLBACK_SLUG +:+ "-" +:+ pretty s) occupied) eqn:E.
  - apply str_in_spec, list_elem_of_In in E. destruct (IH (s + 1)%Z) as (B & Hin & Hout). cbn zeta. split_and!; [lia|lia| |].
    + intros i Hi. destruct (decide (i = s)) as [->|]; [done|]. apply Hin. lia.
    + intros Hr. apply Hout. lia.
  - cbn zeta. split_and!; [lia|lia|lia|]. intros _ Hin. apply list_elem_of_In, str_in_spec in Hin. congruence.
Qed.

(** The tries of [free_suffix] are enough: there are more names to try than
    names taken. *)
Lemma board_slug_free occupied : board_slug occupied ∉ occupied.
Proof.
  unfold board_slug. destruct (str_in PRIMARY_SLUG occupied) eqn:E1; cycle 1; cbn [negb].
  { intros Hin%list_elem_of_In%str_in_spec. congruence. }
  destruct (str_in FALLBACK_SLUG occupied) eqn:E2; cycle 1; cbn [negb].
  { intros Hin%list_elem_of_In%str_in_spec. congruence. }
  destruct (free_suffix_spec (length occupied) occupied 2) as (B & Hin & Hout).
  set (r := free_suffix _ _ _) in *. destruct (decide (r < 2 + Z.of_nat (length occupied))%Z) as [|Hr]; [by apply Hout|].
  exfalso. set (names := (λ i, FALLBACK_SLUG +:+ "-" +:+ pretty i) <$> seqZ 2 (Z.of_nat (length occupied))).
  assert (FALLBACK_SLUG :: names ⊆+ occupied) as Hsub.
  { apply NoDup_submseteq.
    - constructor.
      + intros (i & Hi & _)%list_elem_of_fmap. rewrite <- (sapp_nil_r FALLBACK_SLUG) in Hi at 1.
        apply (inj (String.append _)) in Hi. done.
      + apply (NoDup_fmap_2 _). apply NoDup_seqZ.
    - intros x [->|(i & -> & Hi%elem_of_seqZ)%list_elem_of_fmap]%elem_of_cons.
      + by apply list_elem_of_In, str_in_spec.
      + apply Hin. lia. }
  apply submseteq_length in Hsub. unfold names in Hsub. cbn [length] in Hsub. rewrite length_fmap, length_seqZ in Hsub. lia.
Qed.
