(* ===== verification/HubSessions.v ===== *)
(** * Team hub: device sessions

    The part of [HubStore] on sessions: who a request comes from, the refresh
    token that is replaced at each use, and the ends of a session. *)
From S2P Require Import Prelude.
From S2P Require Import PyValues.
From S2P Require Import HubTokens.
From S2P Require Import Transactions.
From S2P Require Import HubTables.
From S2P Require Import HubAuth.
From S2P Require Import HubServers.

Open Scope string_scope.

Definition RECOVERY_PROOF_TTL_SECONDS : Z := 600.

Definition AUTH_REQUIRED : exn := HubError "authentication_required" "Authentication required" 401.
Definition NOT_FOUND : exn := HubError "not_found" "Resource not found" 404.
Definition FORBIDDEN : exn := HubError "forbidden" "Operation is not permitted" 403.

(** [AccessClaims] *)
Record access_claims := mkClaims {
  cl_principal : string;
  cl_session : string;
  cl_jti : string;
  cl_expires : Z;
  cl_kind : string;  (* auth_kind *)
  cl_team : option string;
  cl_scopes : gset string;
  cl_peer : option string;
}.

(** The row [_require_session] returns. *)
Record session_row := mkRow {
  sr_id : string;
  sr_principal : string;
  sr_label : string;
  sr_expires : Z;
  sr_email : option string;
  sr_name : string;
  sr_kind : principal_kind;
}.

(** [_session_public] and the tokens: what a client receives.  Timestamps are
    left as numbers. *)
Record team_view := mkTeamView {
  tv_id : string; tv_kind : team_kind; tv_slug : string; tv_name : string; tv_role : role; tv_status : status
}.
Record bundle := mkBundle {
  bu_access : string;
  bu_access_expires : Z;
  bu_refresh : string;
  bu_refresh_expires : Z;
  bu_session : session_row;
  bu_teams : list team_view;
}.

(** [ORDER BY t.display_name COLLATE NOCASE, t.id] *)
Definition by_name (x y : team_view) : Prop :=
  (sql_lower (tv_name x) ≠ sql_lower (tv_name y) ∧ String.le (sql_lower (tv_name x)) (sql_lower (tv_name y)))
  ∨ sql_lower (tv_name x) = sql_lower (tv_name y) ∧ String.le (tv_id x) (tv_id y).
#[global] Instance by_name_dec : RelDecision by_name.
Proof. intros x y. unfold by_name. apply _. Defined.

(** [_teams_for] *)
Definition teams_for (p : string) (h : hub) : list team_view :=
  merge_sort by_name (omap (λ km : string * membership,
    match teams h !! mb_team km.2 with
    | Some t => Some (mkTeamView (mb_team km.2) (tm_kind t) (tm_slug t) (tm_name t) (mb_role km.2) (mb_status km.2))
    | None => None
    end) (select_rows (λ _ m, String.eqb (mb_principal m) p && bool_decide (mb_status m = Active)) (memberships h))).

Definition TEAMSPACE_SCOPES : gset string := {["teamspace.read"; "teamspace.write"]}.

Section sessions.
Context `{HubCrypto}.

(** [verify_access] *)
Definition verify_access (cf : config) (value : string) (now : Z) : res access_claims :=
  match verify (cf_key cf) value now with
  | Ok a => Ok (mkClaims (ac_sub a) (ac_sid a) (ac_jti a) (ac_exp a) "human" None ∅ None)
  | Err TokenError => Err AUTH_REQUIRED
  | Err e => Err e
  end.

(** ** Who a request comes from *)

(** The service [p] with its [automation] membership in [team]. *)
Definition service_row (claims : access_claims) (p identifier team label : string) (h : hub) : option session_row :=
  match principals h !! p with
  | Some r =>
      if service_intact p identifier h r
         && exists_row (λ _ m, is_member team p m && bool_decide (mb_role m = Automation)
                               && bool_decide (mb_status m = Active)) (memberships h)
      then Some (mkRow (cl_session claims) p label (cl_expires claims) None (pr_name r) (pr_kind r)) else None
  | None => None
  end.

(** The session of a human: not revoked, not expired, its principal active,
    and the access token not revoked by a logout. *)
Definition human_row (claims : access_claims) (now : Z) (h : hub) : option session_row :=
  match sessions h !! cl_session claims with
  | Some s =>
      if String.eqb (ds_human s) (cl_principal claims) && is_null (ds_revoked s) && (now <? ds_expires s)%Z
         && principal_active h (ds_human s)
         && match jtis h !! sha256 (utf8 (cl_jti claims)) with
            | Some r => negb (String.eqb (ar_session r) (cl_session claims) && (now <? ar_expires r)%Z)
            | None => true
            end
      then match humans h !! ds_human s, principals h !! ds_human s with
           | Some u, Some p => Some (mkRow (cl_session claims) (ds_human s) (ds_label s) (ds_expires s)
                                       (Some (hu_email u)) (pr_name p) (pr_kind p))
           | _, _ => None
           end
      else None
  | None => None
  end.

(** [_require_session] *)
Definition session_of (claims : access_claims) (now : Z) (h : hub) : option session_row :=
  let fresh := negb (cl_expires claims <=? now)%Z in
  if String.eqb (cl_kind claims) "local_agent_mail" then
    match cl_team claims with
    | Some team =>
        if String.eqb (cl_principal claims) LOCAL_CONTROL_PRINCIPAL_ID && fresh
           && String.eqb (cl_session claims) ("local_agent_mail_session_" +:+ team)
           && bool_decide (cl_scopes claims = TEAMSPACE_SCOPES) && is_null (cl_peer claims)
        then service_row claims LOCAL_CONTROL_PRINCIPAL_ID LOCAL_CONTROL_SERVICE team "AgentsDock agent mail" h
        else None
    | None => None
    end
  else if String.eqb (cl_kind claims) "managed_server" then
    match cl_team claims with
    | Some team =>
        if String.eqb (cl_principal claims) MANAGED_SERVER_PRINCIPAL_ID && fresh
           && String.eqb (cl_session claims) ("managed_server_session_" +:+ team)
           && String.eqb (cl_jti claims) ("managed_server_" +:+ team)
           && bool_decide (cl_scopes claims = TEAMSPACE_SCOPES) && is_null (cl_peer claims)
           && managed_node team h
        then service_row claims MANAGED_SERVER_PRINCIPAL_ID MANAGED_SERVER_SERVICE_IDENTIFIER team
               "AgentsDock managed server" h
        else None
    | None => None
    end
  else if String.eqb (cl_kind claims) "secure_peer" then
    match cl_team claims, cl_peer claims with
    | Some team, Some peer =>
        if fresh && String.eqb (cl_session claims) ("secure_peer_session_" +:+ peer)
        then service_row claims (cl_principal claims) ("agentsdock.secure-peer." +:+ peer) team
               "Secure paired server" h
        else None
    | _, _ => None
    end
  else if String.eqb (cl_kind claims) "human" then human_row claims now h
  else None.

Definition require_session (claims : access_claims) (now : Z) : tx session_row :=
  row ← ask (session_of claims now);
  match row with Some r => mret r | None => fail AUTH_REQUIRED end.

(** ** New sessions *)

Definition joined_row (id : string) (h : hub) : option session_row :=
  match sessions h !! id with
  | Some s =>
      match humans h !! ds_human s, principals h !! ds_human s with
      | Some u, Some p => Some (mkRow id (ds_human s) (ds_label s) (ds_expires s) (Some (hu_email u)) (pr_name p) (pr_kind p))
      | _, _ => None
      end
  | None => None
  end.

(** The row is there: [assert row is not None]. *)
Definition fetch_row (id : string) : tx session_row :=
  row ← ask (joined_row id);
  match row with Some r => mret r | None => fail AssertionError end.

(** [_create_session] *)
Definition create_session (p device_label : string) (now : Z) (random : nat → string) : tx (session_row * string * Z) :=
  label ← pure (bounded_text device_label "device_label" 1 160);
  let id := new_id "device" (random 0%nat) in
  let '(refresh, digest) := opaque_secret "refresh" (random 1%nat) in
  let expires := (now + SESSION_TTL_SECONDS)%Z in
  insert_session id (mkSession p label 0 now now expires None);;
  insert_token (new_id "refresh" (random 2%nat)) (mkToken id digest 0 now expires None None None);;
  row ← fetch_row id;
  mret (row, refresh, expires).

(** [_auth_bundle] *)
Definition auth_bundle (cf : config) (row : session_row) (refresh : string) (refresh_expires now : Z)
    (jti : string) : tx bundle :=
  a ← pure (mint (cf_key cf) (sr_principal row) (sr_id row) jti now ACCESS_TOKEN_TTL_SECONDS);
  l ← ask (teams_for (sr_principal row));
  mret (mkBundle (mt_token a) (mt_expires a) refresh refresh_expires row l).

(** ** The ends of sessions *)

(** [UPDATE device_sessions SET revoked_at=? WHERE id=? AND revoked_at IS
    NULL], then the same for the live refresh tokens of the session. *)
Definition revoke_one (id : string) (now : Z) : tx unit :=
  _ ← update_sessions (λ k s, String.eqb k id && is_null (ds_revoked s)) (λ s, s {{ ds_revoked := Some now }});
  _ ← update_tokens (λ _ t, String.eqb (rt_session t) id && is_null (rt_consumed t) && is_null (rt_revoked t))
        (λ t, t {{ rt_revoked := Some now }});
  mret tt.

(** The same for all sessions of a human. *)
Definition revoke_all (p : string) (now : Z) : tx unit :=
  _ ← update_sessions (λ _ s, String.eqb (ds_human s) p && is_null (ds_revoked s)) (λ s, s {{ ds_revoked := Some now }});
  of_p ← ask (λ h (id : string), match sessions h !! id with Some s => String.eqb (ds_human s) p | None => false end);
  _ ← update_tokens (λ _ t, is_null (rt_consumed t) && is_null (rt_revoked t) && of_p (rt_session t))
        (λ t, t {{ rt_revoked := Some now }});
  mret tt.

Definition live_sessions (p : string) (h : hub) : nat :=
  length (select_rows (λ _ s, String.eqb (ds_human s) p && is_null (ds_revoked s)) (sessions h)).

(** [revoke_session] *)
Definition revoke_session (claims : access_claims) (refresh_token : string) (now : Z) (random : nat → string) : tx bool :=
  digest ← pure (match token_hash refresh_token with Err TokenError => Err AUTH_REQUIRED | r => r end);
  _ ← require_session claims now;
  belongs ← ask (λ h, exists_row (λ _ t, String.eqb (rt_session t) (cl_session claims) && String.eqb (rt_hash t) digest) (tokens h));
  guard_not (negb belongs) AUTH_REQUIRED;;
  revoke_one (cl_session claims) now;;
  insert_jti (sha256 (utf8 (cl_jti claims))) (mkJti (cl_session claims) (cl_expires claims) now);;
  audit_principal_teams (cl_principal claims) "session.revoke" "device_session" (cl_session claims) "succeeded" now random;;
  mret true.

(** [revoke_device_session] *)
Definition revoke_device_session (claims : access_claims) (device : string) (now : Z) (random : nat → string) : tx bool :=
  id ← pure (match clean_identity device with Err _ => Err NOT_FOUND | r => r end);
  row ← require_session claims now;
  guard_not (negb (bool_decide (sr_kind row = Human))) FORBIDDEN;;
  target ← ask (λ h, match sessions h !! id with Some s => String.eqb (ds_human s) (cl_principal claims) | None => false end);
  guard_not (negb target) NOT_FOUND;;
  revoke_one id now;;
  audit_principal_teams (cl_principal claims) "session.device_revoke" "device_session" id "succeeded" now random;;
  mret true.

(** ** [refresh] *)

(** A refresh token by its digest, joined with its session, account and
    principal. *)
Definition token_row (digest : string) (h : hub) : option (string * token * session) :=
  match find_row (λ _ t, String.eqb (rt_hash t) digest) (tokens h) with
  | Some (id, t) =>
      match sessions h !! rt_session t with
      | Some s => if present (humans h) (ds_human s) && present (principals h) (ds_human s)
                  then Some (id, t, s) else None
      | None => None
      end
  | None => None
  end.

(** The token was used before, or is not the one of this generation. *)
Definition replayed (t : token) (s : session) : bool :=
  negb (is_null (rt_consumed t)) || negb (rt_generation t =? ds_generation s)%Z.

(** A replayed token ends its session. *)
Definition punish (t : token) (s : session) (now : Z) (random : nat → string) : tx unit :=
  revoke_one (rt_session t) now;;
  audit_principal_teams (ds_human s) "session.refresh_replay" "device_session" (rt_session t) "denied" now random.

Definition rotate (cf : config) (id : string) (t : token) (s : session) (now : Z) (random : nat → string) : tx bundle :=
  active ← ask (λ h, principal_active h (ds_human s));
  guard_not (negb (is_null (rt_revoked t)) || negb (is_null (ds_revoked s)) || negb active
             || (rt_expires t <=? now)%Z || (ds_expires s <=? now)%Z) AUTH_REQUIRED;;
  let '(replacement, digest) := opaque_secret "refresh" (random 0%nat) in
  let generation := (rt_generation t + 1)%Z in
  let next := new_id "refresh" (random 1%nat) in
  insert_token next (mkToken (rt_session t) digest generation now (ds_expires s) None None None);;
  changed ← update_tokens (λ k t, String.eqb k id && is_null (rt_consumed t) && is_null (rt_revoked t))
              (λ t, t {{ rt_consumed := Some now; rt_next := Some next }});
  guard_not (negb (changed =? 1)%nat) AUTH_REQUIRED;;
  _ ← update_sessions (λ k s, String.eqb k (rt_session t) && is_null (ds_revoked s))
        (λ s, s {{ ds_generation := generation; ds_seen := now }});
  row ← fetch_row (rt_session t);
  b ← auth_bundle cf row replacement (ds_expires s) now (random 2%nat);
  audit_principal_teams (ds_human s) "session.refresh" "device_session" (rt_session t) "succeeded" now
    (λ i, random (i + 3)%nat);;
  mret b.

(** The transaction of a replay commits, and then the call raises. *)
Definition refresh (cf : config) (refresh_token : string) (now : Z) (random : nat → string) (h : hub) : hub * res bundle :=
  match token_hash refresh_token with
  | Err TokenError => (h, Err AUTH_REQUIRED)
  | Err e => (h, Err e)
  | Ok digest =>
      match token_row digest h with
      | None => (h, Err AUTH_REQUIRED)
      | Some (id, t, s) =>
          if replayed t s then
            match punish t s now random h with
            | Ok (h', _) => (h', Err AUTH_REQUIRED)
            | Err e => (h, Err e)
            end
          else run (rotate cf id t s now random) h
      end
  end.
End sessions.
