(* ===== verification/HubAdmin.v ===== *)
(** * Team hub: the first owner, members, invitations, recovery

    The part of [HubStore] that changes who is a member: the bootstrap of an
    empty hub, invitations over the API, role and status of members, and the
    recovery of a lost device. *)
From S2P Require Import Prelude.
From S2P Require Import PyValues.
From S2P Require Import HubTokens.
From S2P Require Import Transactions.
From S2P Require Import HubTables.
From S2P Require Import HubAuth.
From S2P Require Import HubServers.
From S2P Require Import HubSessions.

Open Scope string_scope.

Definition BOOTSTRAP_PROOF_TTL_SECONDS : Z := 900.
Definition TAILNET_BOOTSTRAP_PROOF_TTL_SECONDS : Z := 300.
Definition MAX_BOOTSTRAP_DELEGATION_LEDGER_ROWS : nat := 256.

Definition bootstrap_unavailable (status : Z) : exn := HubError "bootstrap_unavailable" "Bootstrap is unavailable" status.

(** [_globally_empty] *)
Definition globally_empty (h : hub) : bool :=
  bool_decide (principals h = ∅) && bool_decide (dom (teams h) = ∅)
  && bool_decide (dom (memberships h) = ∅) && bool_decide (dom (sessions h) = ∅).

Section admin.
Context `{HubCrypto}.

(** ** Proofs of the first owner *)

(** [UPDATE bootstrap_claims SET revoked_at=? WHERE consumed_at IS NULL AND
    revoked_at IS NULL] *)
Definition revoke_claims (now : Z) : tx unit :=
  _ ← update_claims (λ _ c, is_null (bc_consumed c) && is_null (bc_revoked c)) (λ c, c {{ bc_revoked := Some now }});
  mret tt.

(** The newest live claim. *)
Definition newest_first (x y : string * claim) : Prop := (bc_created y.2 <= bc_created x.2)%Z.
#[global] Instance newest_first_dec : RelDecision newest_first.
Proof. intros x y. unfold newest_first. apply _. Defined.

Definition live_claim (now : Z) (c : claim) : bool :=
  is_null (bc_consumed c) && is_null (bc_revoked c) && (now <? bc_expires c)%Z.

Definition active_claim (now : Z) (h : hub) : option (string * claim) :=
  head (merge_sort newest_first (select_rows (λ _ c, live_claim now c) (claims h))).

(** The live claim is usable as it is; [proof] is the text of the proof file,
    if [_read_local_proof] read one. *)
Definition claim_stands (cf : config) (proof : option string) (now : Z) (h : hub) : bool :=
  match active_claim now h with
  | None => false
  | Some (id, c) =>
      match delegations h !! id, proof with
      | Some d, None => bool_decide (Some (bd_instance d) = cf_instance cf)
      | None, Some p => match token_hash p with Ok digest => String.eqb (bc_hash c) digest | Err _ => false end
      | _, _ => false
      end
  end.

(** [_ensure_bootstrap_claim], whose proof file can be replaced. *)
Definition ensure_bootstrap_claim (cf : config) (proof : option string) (force : bool) (now : Z)
    (random : nat → string) : tx unit :=
  stands ← ask (claim_stands cf proof now);
  if negb force && stands then mret tt else
  revoke_claims now;;
  insert_claim (new_id "bootstrap_claim" (random 1%nat))
    (mkClaim (opaque_secret "bootstrap" (random 0%nat)).2 now (now + BOOTSTRAP_PROOF_TTL_SECONDS) None None None).

(** [renew_bootstrap_proof] *)
Definition renew_bootstrap_proof (cf : config) (now : Z) (random : nat → string) : tx unit :=
  empty ← ask globally_empty;
  guard_not (negb empty) (bootstrap_unavailable 409);;
  ensure_bootstrap_claim cf None true now random.

(** The fields of a remote bootstrap, checked; [scheme] is that of the url. *)
Record delegation_request := mkRequest {
  dq_request : string;
  dq_server : string;
  dq_instance : string;
  dq_url : string;
  dq_scheme : string;
  dq_login : string;
  dq_email : string;
  dq_name : string;
  dq_label : string;
  dq_transport : string;
}.

Definition scheme_fits (transport scheme : string) : bool :=
  (negb (String.eqb transport "tailscale_serve") || String.eqb scheme "https")
  && (negb (String.eqb transport "direct_ip") || String.eqb scheme "http").

(** [_canonical_request_id] *)
Definition canonical_request_id (value : string) : res string :=
  raise_if (negb (canonical_uuid4 value)) (ValueError "request_id must be a canonical UUIDv4");; Ok value.

Definition clean_request (cf : config) (q : delegation_request) : res delegation_request :=
  request ← canonical_request_id (dq_request q);
  server ← clean_identity (dq_server q);
  inst ← clean_identity (dq_instance q);
  url ← bounded_text (dq_url q) "hub_url" 16 2048;
  login ← clean_email (dq_login q);
  email ← clean_email (dq_email q);
  name ← bounded_text (dq_name q) "display_name" 1 160;
  label ← bounded_text (dq_label q) "device_label" 1 160;
  raise_if (negb (str_in (dq_transport q) ["tailscale_serve"; "direct_ip"])) (bootstrap_unavailable 403);;
  raise_if (negb (scheme_fits (dq_transport q) (dq_scheme q))) (bootstrap_unavailable 403);;
  raise_if (negb (String.eqb login email))
    (HubError "bootstrap_identity_mismatch" "Bootstrap recipient does not match" 403);;
  raise_if (negb (bool_decide (cf_identity cf = Some server)) || negb (bool_decide (cf_instance cf = Some inst)))
    (HubError "bootstrap_target_changed" "The designated Team Hub host changed before confirmation" 409);;
  Ok (mkRequest request server inst url (dq_scheme q) login email name label (dq_transport q)).

Definition request_fingerprint (cf : config) (q : delegation_request) : string :=
  canonical_fingerprint (PDict [("request_id", PStr (dq_request q)); ("server_identity", PStr (dq_server q));
    ("server_instance_id", PStr (dq_instance q)); ("hub_id", PStr (cf_hub cf)); ("hub_url", PStr (dq_url q));
    ("transport", PStr (dq_transport q)); ("tailnet_login", PStr (dq_login q));
    ("recipient_email", PStr (dq_email q)); ("display_name", PStr (dq_name q)); ("device_label", PStr (dq_label q))]).

(** [_tailnet_bootstrap_proof] *)
Definition tailnet_bootstrap_proof (cf : config) (fingerprint : string) : string :=
  "bootstrap_remote." +:+ b64url_encode (hmac_sha256 (cf_key cf)
    ("agentsdock-team-hub-tailnet-bootstrap-v1" +:+ String (chr 0) fingerprint)).

Definition same_authority (cf : config) (q : delegation_request) (d : delegation) : bool :=
  String.eqb (bd_server d) (dq_server q) && String.eqb (bd_instance d) (dq_instance q)
  && String.eqb (bd_hub d) (cf_hub cf) && String.eqb (bd_url d) (dq_url q)
  && String.eqb (bd_login d) (dq_login q) && String.eqb (bd_email d) (dq_email q).

Definition delegation_ok (h : hub) (k : string) (r : delegation) : bool :=
  match claims h !! k with
  | Some c => (bc_created c =? bd_created r)%Z && (bc_expires c =? bd_expires r)%Z
  | None => false
  end
  && negb (taken bd_request r (delegations h)) && (sql_length (bd_request r) =? 36)%Z
  && is_digest (bd_fingerprint r) && trimmed_length 8 (bd_server r) 240 && trimmed_length 8 (bd_instance r) 240
  && between 16 (sql_length (bd_url r)) 2048 && between 3 (sql_length (bd_login r)) 320
  && between 3 (sql_length (bd_email r)) 320 && trimmed_length 1 (bd_name r) 160
  && trimmed_length 1 (bd_label r) 160 && (0 <=? bd_created r)%Z && (bd_created r <? bd_expires r)%Z.

Definition set_delegations m h := h {{ delegations := m }}.
Definition insert_delegation := insert_into delegations set_delegations delegation_ok.

(** Revokes one live claim; it must have been there. *)
Definition revoke_live_claim (id : string) (now : Z) : tx unit :=
  changed ← update_claims (λ k c, String.eqb k id && live_claim now c) (λ c, c {{ bc_revoked := Some now }});
  guard_not (negb (changed =? 1)%nat) (bootstrap_unavailable 409).

(** The new request of a remote bootstrap. *)
Definition new_delegation (cf : config) (q : delegation_request) (fingerprint digest : string) (now : Z)
    (random : nat → string) : tx Z :=
  full ← ask (λ h, (MAX_BOOTSTRAP_DELEGATION_LEDGER_ROWS <=? size (delegations h))%nat);
  guard_not full (HubError "bootstrap_ledger_exhausted" "Remote bootstrap proof issuance is exhausted" 409);;
  competing ← ask (λ h, find_row (λ id _, match claims h !! id with Some c => live_claim now c | None => false end)
                          (delegations h));
  match competing with
  | Some (id, d) =>
      guard_not (negb (same_authority cf q d))
        (HubError "bootstrap_request_in_progress" "Another bootstrap confirmation is still active" 409);;
      revoke_live_claim id now
  | None => mret tt
  end;;
  revoke_claims now;;
  let id := new_id "bootstrap_claim" (random 0%nat) in
  let expires := (now + TAILNET_BOOTSTRAP_PROOF_TTL_SECONDS)%Z in
  insert_claim id (mkClaim digest now expires None None None);;
  insert_delegation id (mkDelegation (dq_request q) fingerprint (dq_server q) (dq_instance q) (cf_hub cf) (dq_url q)
    (dq_login q) (dq_email q) (dq_name q) (dq_label q) now expires);;
  mret expires.

(** [issue_tailnet_bootstrap_proof]: the proof and when it expires. *)
Definition issue_tailnet_bootstrap_proof (cf : config) (q : delegation_request) (now : Z)
    (random : nat → string) : tx (string * Z) :=
  q ← pure (clean_request cf q);
  let fingerprint := request_fingerprint cf q in
  let proof := tailnet_bootstrap_proof cf fingerprint in
  digest ← pure (token_hash proof);
  empty ← ask globally_empty;
  guard_not (negb empty) (bootstrap_unavailable 409);;
  prior ← ask (λ h, find_row (λ _ d, String.eqb (bd_request d) (dq_request q)) (delegations h));
  match prior with
  | Some (id, d) =>
      guard_not (negb (String.eqb (bd_fingerprint d) fingerprint))
        (HubError "idempotency_conflict" "Bootstrap request_id was already used for another request" 409);;
      usable ← ask (λ h, match claims h !! id with
                         | Some c => is_null (bc_consumed c) && is_null (bc_revoked c) && String.eqb (bc_hash c) digest
                         | None => false
                         end);
      guard_not (negb usable || (bd_expires d <=? now)%Z) (bootstrap_unavailable 409);;
      mret (proof, bd_expires d)
  | None => expires ← new_delegation cf q fingerprint digest now random; mret (proof, expires)
  end.

(** ** [bootstrap] *)

(** What a remote client sends besides the proof. *)
Record bootstrap_request := mkBootstrap {
  bq_proof : string;
  bq_email : string;
  bq_name : string;
  bq_label : string;
  bq_transport : string;
  bq_request : option string;
  bq_login : option string;
  bq_url : option string;
  bq_scheme : string;  (* urlsplit(claim["hub_url"]).scheme *)
}.

Definition or_blank (o : option string) : string := default "" o.

(** The request is the one the remote proof was issued for. *)
Definition remote_matches (cf : config) (q : bootstrap_request) (d : delegation) : res bool :=
  request ← canonical_request_id (or_blank (bq_request q));
  login ← clean_email (or_blank (bq_login q));
  email ← clean_email (bq_email q);
  name ← bounded_text (bq_name q) "display_name" 1 160;
  label ← bounded_text (bq_label q) "device_label" 1 160;
  Ok (startswith "bootstrap_remote." (bq_proof q)
      && String.eqb request (bd_request d)
      && bool_decide (cf_identity cf = Some (bd_server d)) && bool_decide (cf_instance cf = Some (bd_instance d))
      && String.eqb (bd_hub d) (cf_hub cf) && String.eqb (bd_url d) (or_blank (bq_url q))
      && scheme_fits (bq_transport q) (bq_scheme q)
      && String.eqb (bd_login d) login && String.eqb (bd_email d) email
      && String.eqb (bd_name d) name && String.eqb (bd_label d) label).

(** The claim may be used over this transport. *)
Definition claim_fits (cf : config) (q : bootstrap_request) (d : option delegation) : bool :=
  if String.eqb (bq_transport q) "loopback" then
    is_null d && is_null (bq_request q) && startswith "bootstrap." (bq_proof q)
  else match d with
       | Some d => match remote_matches cf q d with Ok b => b | Err _ => false end
       | None => false
       end.

Definition bootstrap (cf : config) (q : bootstrap_request) (now : Z) (random : nat → string) : tx bundle :=
  guard_not (negb (str_in (bq_transport q) ["loopback"; "tailscale_serve"; "direct_ip"])) (bootstrap_unavailable 403);;
  digest ← pure (match token_hash (bq_proof q) with Err TokenError => Err (bootstrap_unavailable 403) | r => r end);
  empty ← ask globally_empty;
  guard_not (negb empty) (bootstrap_unavailable 409);;
  found ← ask (λ h, find_row (λ _ c, String.eqb (bc_hash c) digest && live_claim now c) (claims h));
  match found with
  | None => fail (bootstrap_unavailable 403)
  | Some (id, _) =>
      d ← ask (λ h, delegations h !! id);
      guard_not (negb (claim_fits cf q d)) (bootstrap_unavailable 403);;
      b ← bootstrap_personal_team (bq_email q) (bq_name q) now random;
      _ ← ensure_managed_host_node cf (bs_team b) now (λ i, random (i + 3)%nat);
      _ ← local_control_principal (bs_team b) now (random 5%nat);
      _ ← managed_server_principal (bs_team b) now (random 6%nat);
      _ ← ensure_network_board (bs_team b) (bs_human b) now (λ i, random (i + 7)%nat);
      changed ← update_claims (λ k c, String.eqb k id && live_claim now c)
                  (λ c, c {{ bc_consumed := Some now; bc_principal := Some (bs_human b) }});
      guard_not (negb (changed =? 1)%nat) (bootstrap_unavailable 403);;
      '(row, refresh, expires) ← create_session (bs_human b) (bq_label q) now (λ i, random (i + 14)%nat);
      audit_event (bs_team b) (bs_human b) "team.bootstrap" "team" (bs_team b) "succeeded" [] now (random 17%nat);;
      auth_bundle cf row refresh expires now (random 18%nat)
  end.

(** A team has exactly one active owner, whose principal is active: the query
    of [_validate_owner_invariants]. *)
Definition one_owner (h : hub) (team : string) : bool :=
  match select_rows (λ _ m, String.eqb (mb_team m) team && active_owner m) (memberships h) with
  | [(_, m)] => principal_active h (mb_principal m)
  | _ => false
  end.

Definition owners_valid (h : hub) : bool := forallb (λ kt, one_owner h kt.1) (map_to_list (teams h)).

(** [_validate_owner_invariants] *)
Definition validate_owner_invariants : tx unit :=
  valid ← ask owners_valid;
  guard_not (negb valid) (RuntimeError "Team Hub refuses a team without exactly one active owner").

(** [bootstrap_managed_network] *)
Definition bootstrap_managed_network (cf : config) (network_name : string) (now : Z) (random : nat → string) : tx unit :=
  name ← pure (bounded_text network_name "network_name" 1 160);
  bound ← ask (λ h, match host h, cf_identity cf with
                    | Some b, Some identity => String.eqb (hb_server b) identity && String.eqb (hb_hub b) (cf_hub cf)
                    | _, _ => false
                    end);
  guard_not (negb bound) (HubError "bootstrap_unavailable" "Managed host creation is unavailable" 403);;
  existing ← ask (λ h, map snd (map_to_list (teams h)));
  match existing with
  | t :: rest =>
      guard_not (negb (match rest with [] => true | _ => false end && bool_decide (tm_kind t = Shared)
                       && String.eqb (tm_creator t) MANAGED_OWNER_ID && String.eqb (tm_name t) name))
        (HubError "network_already_exists" "This server already hosts a Team Network" 409);;
      validate_owner_invariants
  | [] =>
      empty ← ask globally_empty;
      guard_not (negb empty) (HubError "bootstrap_unavailable" "Existing Hub state requires recovery" 409);;
      let t := new_id "team" (random 0%nat) in
      insert_principal MANAGED_OWNER_ID (mkPrincipal Service None (cf_label cf) Active now now);;
      insert_service MANAGED_OWNER_ID (mkService MANAGED_OWNER_SERVICE now);;
      insert_team t (mkTeam Shared ("network-" +:+ last_chars 24 t) name None MANAGED_OWNER_ID now now);;
      insert_membership (new_id "membership" (random 1%nat))
        (mkMembership t MANAGED_OWNER_ID Owner Active None now now);;
      _ ← ensure_managed_host_node cf t now (λ i, random (i + 2)%nat);
      _ ← local_control_principal t now (random 4%nat);
      _ ← managed_server_principal t now (random 5%nat);
      _ ← ensure_network_board t MANAGED_OWNER_ID now (λ i, random (i + 6)%nat);
      revoke_claims now;;
      audit_event t MANAGED_OWNER_ID "team.bootstrap" "team" t "succeeded"
        [("authentication", PStr "managed_server")] now (random 13%nat);;
      validate_owner_invariants
  end.

(** ** Members *)

Definition ANY_ROLE : list role := [Owner; Admin; Member; Guest; Automation].

(** [_require_team_owner_for_human_administration] *)
Definition require_owner (claims : access_claims) (team : string) : tx string :=
  team ← pure (match clean_identity team with Err (ValueError _) => Err NOT_FOUND | r => r end);
  m ← on_error (λ e, match e with AuthorizationError _ => NOT_FOUND | e => e end)
        (require_team_role team (cl_principal claims) ANY_ROLE);
  guard_not (negb (bool_decide (mb_role m = Owner))) FORBIDDEN;;
  mret team.

(** [revoke_invitation] *)
Definition revoke_invitation (claims : access_claims) (team invitation : string) (now : Z) (random : nat → string) : tx bool :=
  id ← pure (match clean_identity invitation with Err (ValueError _) => Err NOT_FOUND | r => r end);
  _ ← require_session claims now;
  team ← require_owner claims team;
  changed ← update_invitations (λ k i, String.eqb k id && String.eqb (iv_team i) team && pending now i)
              (λ i, i {{ iv_revoked := Some now }});
  guard_not (negb (changed =? 1)%nat) NOT_FOUND;;
  audit_event team (cl_principal claims) "invitation.revoke" "invitation" id "succeeded" [] now (random 0%nat);;
  mret true.

Definition status_of_name (s : string) : option status :=
  if String.eqb s "active" then Some Active
  else if String.eqb s "suspended" then Some Suspended
  else if String.eqb s "revoked" then Some Revoked else None.

Definition status_name (s : status) : string :=
  match s with Active => "active" | Suspended => "suspended" | Revoked => "revoked" end.

Definition invalid_request (message : string) : exn := HubError "invalid_request" message 422.

(** What [update_human_membership] is asked to change. *)
Inductive member_change := SetRole (r : role) | SetStatus (s : status).

Definition requested_change (role status : option string) : res member_change :=
  match role, status with
  | Some r, None => match role_of_name r with
                    | Some r => Ok (SetRole r)
                    | None => Err (invalid_request "Membership role is invalid")
                    end
  | None, Some s => match status_of_name s with
                    | Some s => Ok (SetStatus s)
                    | None => Err (invalid_request "Membership status is invalid")
                    end
  | _, _ => Err (invalid_request "Exactly one membership change is required")
  end.

Definition change_member (c : member_change) (team p : string) (m : membership) (now : Z)
    : tx (string * list (string * pyval)) :=
  match c with
  | SetRole r =>
      guard_not (negb (bool_decide (mb_status m = Active)))
        (HubError "membership_not_active" "Membership must be active before changing role" 409);;
      _ ← update_memberships (λ _ m, is_member team p m) (λ m, m {{ mb_role := r; mb_updated := now }});
      mret ("membership.role_change",
            [("old_role", PStr (role_name (mb_role m))); ("new_role", PStr (role_name r))])
  | SetStatus s =>
      _ ← update_memberships (λ _ m, is_member team p m) (λ m, m {{ mb_status := s; mb_updated := now }});
      mret ("membership.status_change",
            [("old_status", PStr (status_name (mb_status m))); ("new_status", PStr (status_name s))])
  end.

(** [update_human_membership]: the member's role and status afterwards. *)
Definition update_human_membership (claims : access_claims) (team principal_id : string) (role_text status_text : option string)
    (now : Z) (random : nat → string) : tx (role * status) :=
  p ← pure (match clean_identity principal_id with Err (ValueError _) => Err NOT_FOUND | r => r end);
  c ← pure (requested_change role_text status_text);
  _ ← require_session claims now;
  team ← require_owner claims team;
  target ← ask (λ h, find_row (λ _ m, is_member team p m && present (principals h) p) (memberships h));
  kind ← ask (λ h, principal_kind_of h p);
  match target with
  | None => fail NOT_FOUND
  | Some (_, m) =>
      guard_not (String.eqb p (cl_principal claims) || negb (bool_decide (kind = Some Human))
                 || bool_decide (mb_role m = Owner) || bool_decide (mb_role m = Automation)) NOT_FOUND;;
      guard_not (bool_decide (mb_status m = Revoked))
        (HubError "membership_terminal" "Membership has been permanently revoked" 409);;
      '(action, metadata) ← change_member c team p m now;
      audit_event team (cl_principal claims) action "membership" p "succeeded" metadata now (random 0%nat);;
      mret match c with SetRole r => (r, mb_status m) | SetStatus s => (mb_role m, s) end
  end.

(** ** Invitations over the API *)

(** [issue_invite] *)
Definition issue_invite (claims : access_claims) (team invitee role_text : string) (ttl now : Z)
    (random : nat → string) : tx issued :=
  on_error (λ e, match e with AuthorizationError _ => FORBIDDEN | e => e end)
    (_ ← require_session claims now;
     i ← (if String.eqb (cl_kind claims) "managed_server" then
            guard_not (negb (bool_decide (cl_team claims = Some team)))
              (AuthorizationError "managed host operator is bound to another team");;
            issue_managed_host_invitation team (cl_principal claims) role_text invitee ttl now random
          else issue_invitation team (cl_principal claims) role_text invitee ttl now random);
     _ ← pure (clean_email invitee);
     audit_event team (cl_principal claims) "invitation.issue" "invitation" (is_id i) "succeeded"
       [("role", PStr role_text)] now (random 2%nat);;
     mret i).

Definition INVITATION_UNAVAILABLE : exn := HubError "invitation_unavailable" "Invitation is unavailable" 403.

Definition as_unavailable (e : exn) : exn :=
  match e with AuthenticationError _ | AuthorizationError _ => INVITATION_UNAVAILABLE | e => e end.

(** The invitation a token stands for, if it is pending. *)
Definition pending_invitation (digest : string) (now : Z) (h : hub) : option (string * invitation) :=
  find_row (λ _ i, String.eqb (iv_hash i) digest && pending now i) (invitations h).

(** [redeem_invite]: a new account. *)
Definition redeem_invite (cf : config) (token email display_name device_label : string) (now : Z)
    (random : nat → string) : tx bundle :=
  email ← pure (clean_email email);
  on_error as_unavailable
    (digest ← pure (token_digest token);
     found ← ask (pending_invitation digest now);
     match found with
     | None => fail INVITATION_UNAVAILABLE
     | Some (_, i) =>
         guard_not (negb (String.eqb (iv_email i) email)) INVITATION_UNAVAILABLE;;
         known ← ask (λ h, exists_row (λ _ u, String.eqb (hu_email u) email) (humans h));
         guard_not known
           (HubError "invitation_requires_authentication" "Sign in to accept this invitation" 409);;
         let p := new_id "human" (random 0%nat) in
         name ← pure (bounded_text display_name "display_name" 1 160);
         insert_principal p (mkPrincipal Human None name Active now now);;
         insert_human p (mkHuman email now);;
         m ← redeem_invitation token p now (random 1%nat);
         '(row, refresh, expires) ← create_session p device_label now (λ i, random (i + 2)%nat);
         audit_event (iv_team i) p "invitation.redeem" "membership" m "succeeded" [] now (random 5%nat);;
         auth_bundle cf row refresh expires now (random 6%nat)
     end).

(** [accept_invite]: an account that is signed in; the membership and the
    teams. *)
Definition accept_invite (claims : access_claims) (token : string) (now : Z) (random : nat → string)
    : tx (string * membership * list team_view) :=
  on_error as_unavailable
    (digest ← pure (token_digest token);
     row ← require_session claims now;
     found ← ask (pending_invitation digest now);
     match found with
     | None => fail INVITATION_UNAVAILABLE
     | Some (_, i) =>
         guard_not (negb (bool_decide (sr_email row = Some (iv_email i)))) INVITATION_UNAVAILABLE;;
         id ← redeem_invitation token (cl_principal claims) now (random 0%nat);
         m ← ask (λ h, memberships h !! id);
         match m with
         | None => fail AssertionError
         | Some m =>
             audit_event (iv_team i) (cl_principal claims) "invitation.accept" "membership" id "succeeded" []
               now (random 1%nat);;
             l ← ask (teams_for (cl_principal claims));
             mret (id, m, l)
         end
     end).

(** ** Recovery of a device *)

Definition recovery_unavailable (status : Z) : exn := HubError "recovery_unavailable" "Device recovery is unavailable" status.

(** The memberships a recovery could be for. *)
Definition recoverable_members (email : string) (team : option string) (owner : bool) (h : hub) : list (string * membership) :=
  select_rows (λ _ m,
    match humans h !! mb_principal m with Some u => String.eqb (hu_email u) email | None => false end
    && bool_decide (mb_status m = Active) && principal_active h (mb_principal m)
    && match team with Some t => String.eqb (mb_team m) t | None => true end
    && (negb owner || bool_decide (mb_role m = Owner))) (memberships h).

(** [issue_device_recovery]: the sessions end at once; the id of the claim and
    the proof that is written to its file. *)
Definition issue_device_recovery (email device_label : string) (team : option string) (require_owner : bool) (now : Z)
    (random : nat → string) : tx (string * string) :=
  email ← pure (clean_email email);
  label ← pure (bounded_text device_label "device_label" 1 160);
  found ← ask (recoverable_members email team require_owner);
  match found with
  | [(_, m)] =>
      let p := mb_principal m in
      count ← ask (live_sessions p);
      revoke_all p now;;
      _ ← update_recoveries (λ _ c, String.eqb (rc_principal c) p && is_null (rc_consumed c) && is_null (rc_revoked c))
            (λ c, c {{ rc_revoked := Some now }});
      let '(proof, digest) := opaque_secret "owner-recovery" (random 0%nat) in
      let id := new_id "owner_recovery" (random 1%nat) in
      insert_recovery id (mkRecovery (mb_team m) p digest label now (now + RECOVERY_PROOF_TTL_SECONDS) None None None);;
      actor ← local_control_principal (mb_team m) now (random 2%nat);
      audit_event (mb_team m) actor "device_recovery.issue" "device_recovery" id "accepted"
        [("authority", PStr "local_host_recovery"); ("subject_principal_id", PStr p);
         ("revoked_session_count", PInt (Z.of_nat count))] now (random 3%nat);;
      mret (id, proof)
  | _ => fail (recovery_unavailable 409)
  end.

(** [redeem_device_recovery] *)
Definition redeem_device_recovery (cf : config) (proof device_label : string) (now : Z) (random : nat → string) : tx bundle :=
  digest ← pure (match token_hash proof with Err TokenError => Err (recovery_unavailable 403) | r => r end);
  label ← pure (bounded_text device_label "device_label" 1 160);
  found ← ask (λ h, find_row (λ _ c,
    String.eqb (rc_hash c) digest && is_null (rc_consumed c) && is_null (rc_revoked c) && (now <? rc_expires c)%Z
    && exists_row (λ _ m, is_member (rc_team c) (rc_principal c) m && bool_decide (mb_status m = Active)) (memberships h)
    && principal_active h (rc_principal c)) (recoveries h));
  match found with
  | None => fail (recovery_unavailable 403)
  | Some (id, c) =>
      guard_not (negb (String.eqb (rc_label c) label)) (recovery_unavailable 403);;
      let p := rc_principal c in
      count ← ask (live_sessions p);
      revoke_all p now;;
      '(row, refresh, expires) ← create_session p label now random;
      changed ← update_recoveries (λ k c, String.eqb k id && is_null (rc_consumed c) && is_null (rc_revoked c)
                                          && (now <? rc_expires c)%Z)
                  (λ c, c {{ rc_consumed := Some now; rc_session := Some (sr_id row) }});
      guard_not (negb (changed =? 1)%nat) (recovery_unavailable 403);;
      actor ← local_control_principal (rc_team c) now (random 3%nat);
      audit_event (rc_team c) actor "device_recovery.redeem" "device_session" (sr_id row) "succeeded"
        [("authority", PStr "local_host_recovery"); ("subject_principal_id", PStr p);
         ("revoked_prior_session_count", PInt (Z.of_nat count))] now (random 4%nat);;
      auth_bundle cf row refresh expires now (random 5%nat)
  end.
(** ** Opening the store *)

(** [INSERT INTO managed_host_bindings] *)
Definition bind_host (b : host_binding) : tx unit := λ h,
  if is_null (host h) && trimmed_length 8 (hb_server b) 240 && (0 <=? hb_created b)%Z
  then Ok (h {{ host := Some b }}, tt) else Err (IntegrityError "constraint failed").

(** The identity of the host: bound now, before, or not at all. *)
Definition host_identity (cf : config) (expected : option string) (allow_bound : bool) (now : Z) : tx (option string) :=
  binding ← ask host;
  match expected, binding with
  | Some s, None => bind_host (mkHost (cf_hub cf) s now);; mret (Some s)
  | Some s, Some b =>
      guard_not (negb (String.eqb (hb_hub b) (cf_hub cf) && String.eqb (hb_server b) s))
        (RuntimeError "Team Hub database is bound to a different AgentsServer host");;
      mret (Some s)
  | None, Some b =>
      guard_not (negb allow_bound) (RuntimeError "managed Team Hub databases cannot be served standalone");;
      mret (Some (hb_server b))
  | None, None => mret None
  end.

(** The teams with their owners. *)
Definition team_owners (h : hub) : list (string * string) :=
  map (λ km, (mb_team km.2, mb_principal km.2))
    (select_rows (λ _ m, present (teams h) (mb_team m) && active_owner m) (memberships h)).

(** [_initialize], from where the id of the hub is known. *)
Definition initialize (cf : config) (expected : option string) (allow_bound : bool) (proof : option string) (now : Z)
    (random : nat → string) : tx (option string) :=
  identity ← host_identity cf expected allow_bound now;
  let cf := cf {{ cf_identity := identity }} in
  validate_owner_invariants;;
  bootstrapped ← ask (λ h, negb (bool_decide (dom (teams h) = ∅)));
  (if bootstrapped : bool then
     owners ← ask team_owners;
     match identity, owners with
     | Some _, [(t, p)] =>
         _ ← ensure_managed_host_node cf t now random;
         _ ← managed_server_principal t now (random 2%nat);
         _ ← ensure_network_board t p now (λ i, random (i + 3)%nat);
         mret tt
     | _, _ => mret tt
     end
   else
     empty ← ask globally_empty;
     guard_not (negb empty) (RuntimeError "Team Hub refuses a partial unbootstrapped identity database");;
     ensure_bootstrap_claim cf proof false now random);;
  mret identity.
End admin.
