(* ===== verification/HubChanges.v ===== *)
(** * Team hub: what may happen to the tables

    The changes the hub makes, each with the conditions under which it is
    allowed: the abstract specification of the methods in [HubAuth],
    [HubServers], [HubSessions] and [HubAdmin], which [HubSteps] shows to be
    sequences of these. *)
From S2P Require Import Prelude.
From S2P Require Import PyValues.
From S2P Require Import HubTokens.
From S2P Require Import Transactions.
From S2P Require Import HubTables.
From S2P Require Import HubAuth.
From S2P Require Import HubServers.
From S2P Require Import HubSessions.
From S2P Require Import HubAdmin.

Open Scope string_scope.

(** A row is added. *)
Definition added {R} (rows : hub → gmap string R) (set : gmap string R → hub → hub)
    (ok : hub → string → R → bool) (k : string) (r : R) (h h' : hub) : Prop :=
  rows h !! k = None ∧ ok h k r = true ∧ h' = set (<[k := r]> (rows h)) h.

(** Rows are changed, each as its triggers allow. *)
Definition changed {R} (rows : hub → gmap string R) (set : gmap string R → hub → hub)
    (ok : hub → string → R → R → bool) (P : string → R → bool) (f : R → R) (h h' : hub) : Prop :=
  (∀ k r, rows h !! k = Some r → P k r = true → ok h k r (f r) = true)
  ∧ h' = set (updated_rows P f (rows h)) h.

(** The sessions [chosen] end, with their live refresh tokens. *)
Definition ended_sessions (chosen : string → bool) (now : Z) (h : hub) : hub :=
  let h1 := set_sessions (updated_rows (λ k s, chosen k && is_null (ds_revoked s))
              (λ s, s {{ ds_revoked := Some now }}) (sessions h)) h in
  set_tokens (updated_rows (λ _ t, chosen (rt_session t) && is_null (rt_consumed t) && is_null (rt_revoked t))
              (λ t, t {{ rt_revoked := Some now }}) (tokens h)) h1.

Definition redeemed (p : string) (now : Z) (i : invitation) : invitation :=
  i {{ iv_redeemed := Some now; iv_redeemer := Some p }}.

(** The account may use the invitation now. *)
Record may_redeem (h : hub) (id : string) (i : invitation) (p : string) (now : Z) : Prop := {
  redeem_row : invitations h !! id = Some i;
  redeem_pending : pending now i = true;
  redeem_issuer : issuer_authorized h i = true;
  redeem_account : ∃ u, active_human p h = Some u ∧ hu_email u = iv_email i;
  redeem_trigger : ∀ h', humans h' = humans h → invitation_update_ok h' id i (redeemed p now i) = true;
}.

Section changes.
Context `{HubCrypto}.

Inductive change : relation hub :=
| add_principal h h' k r :
    added principals set_principals principal_ok k r h h' → pr_status r = Active → change h h'
| add_human h h' k r : added humans set_humans human_ok k r h h' → change h h'
| add_service h h' k r : added services set_services service_ok k r h h' → change h h'
| rename h h' p label now :
    changed principals set_principals principal_update_ok (λ k _, String.eqb k p)
      (λ r, r {{ pr_name := label; pr_updated := now }}) h h' → change h h'
(* a team comes with its owner *)
| add_team h h1 h' k t id m :
    added teams set_teams team_ok k t h h1 →
    added memberships set_memberships membership_ok id m h1 h' →
    mb_team m = k → active_owner m = true → mb_inviter m = None →
    principal_active h (mb_principal m) = true → change h h'
| add_automation h h' id m :
    added memberships set_memberships membership_ok id m h h' →
    mb_role m = Automation → mb_status m = Active → mb_inviter m = None → change h h'
(* invitations *)
| add_invitation h h' k i :
    added invitations set_invitations invitation_ok k i h h' → issuer_authorized h i = true → change h h'
| join h h1 h' id i p now mid m :
    may_redeem h id i p now →
    added memberships set_memberships membership_ok mid m h h1 →
    m = mkMembership (iv_team i) p (iv_role i) Active (Some (iv_issuer i)) now now →
    h' = set_invitations (<[id := redeemed p now i]> (invitations h)) h1 → change h h'
| rejoin h h' id i p now mid m :
    may_redeem h id i p now →
    memberships h !! mid = Some m → is_member (iv_team i) p m = true →
    mb_status m = Active → mb_role m = iv_role i →
    h' = set_invitations (<[id := redeemed p now i]> (invitations h)) h → change h h'
| end_invitation h h' P now :
    changed invitations set_invitations invitation_update_ok (λ k i, P k i && pending now i)
      (λ i, i {{ iv_revoked := Some now }}) h h' → change h h'
(* an owner changes a member *)
| change_role h h' team p r now :
    invitable r = true → principal_kind_of h p = Some Human →
    (∀ k m, memberships h !! k = Some m → is_member team p m = true →
       active_owner m = false ∧ mb_role m ≠ Owner ∧ mb_role m ≠ Automation ∧ mb_status m = Active) →
    changed memberships set_memberships membership_update_ok (λ _ m, is_member team p m)
      (λ m, m {{ mb_role := r; mb_updated := now }}) h h' → change h h'
| change_status h h' team p s now :
    (∀ k m, memberships h !! k = Some m → is_member team p m = true →
       mb_role m ≠ Owner ∧ mb_role m ≠ Automation ∧ mb_status m ≠ Revoked) →
    changed memberships set_memberships membership_update_ok (λ _ m, is_member team p m)
      (λ m, m {{ mb_status := s; mb_updated := now }}) h h' → change h h'
(* a paired server leaves *)
| retire_membership h h' team p now :
    changed memberships set_memberships membership_update_ok
      (λ _ m, is_member team p m && bool_decide (mb_status m = Active))
      (λ m, m {{ mb_status := Revoked; mb_updated := now }}) h h' → change h h'
| retire_principal h h' p now :
    changed principals set_principals principal_update_ok
      (λ k r, String.eqb k p && bool_decide (pr_status r = Active))
      (λ r, r {{ pr_status := Revoked; pr_updated := now }}) h h' → change h h'
(* sessions *)
| open_session h h1 h' id s tid t :
    added sessions set_sessions session_ok id s h h1 →
    added tokens set_tokens token_ok tid t h1 h' →
    ds_generation s = 0%Z → ds_revoked s = None → rt_session t = id → rt_generation t = 0%Z →
    rt_expires t = ds_expires s → change h h'
| rotate_session h h1 h' id t s now next t' :
    tokens h !! id = Some t → sessions h !! rt_session t = Some s → replayed t s = false →
    rt_revoked t = None → ds_revoked s = None → (now < ds_expires s)%Z → principal_active h (ds_human s) = true →
    added tokens set_tokens token_ok next t' h h1 →
    rt_session t' = rt_session t → rt_generation t' = (rt_generation t + 1)%Z → rt_expires t' = ds_expires s →
    token_update_ok h1 id t (t {{ rt_consumed := Some now; rt_next := Some next }}) = true →
    session_update_ok h1 (rt_session t) s (s {{ ds_generation := rt_generation t + 1; ds_seen := now }})%Z = true →
    h' = set_sessions (<[rt_session t := s {{ ds_generation := (rt_generation t + 1)%Z; ds_seen := now }}]> (sessions h))
           (set_tokens (<[id := t {{ rt_consumed := Some now; rt_next := Some next }}]> (tokens h1)) h1) →
    change h h'
| end_sessions h h' chosen now :
    (∀ k s, sessions h !! k = Some s → chosen k = true → ds_revoked s = None →
       session_update_ok h k s (s {{ ds_revoked := Some now }}) = true) →
    h' = ended_sessions chosen now h → change h h'
| add_jti h h' k r :
    jtis h !! k = None → present (sessions h) (ar_session r) = true → h' = set_jtis (<[k := r]> (jtis h)) h →
    change h h'
(* recovery *)
| add_recovery h h' k r :
    added recoveries set_recoveries recovery_ok k r h h' → 
    (∀ j c, recoveries h !! j = Some c → rc_principal c = rc_principal r →
       rc_consumed c = None → rc_revoked c = None → False) →
    change h h'
| end_recoveries h h' p now :
    changed recoveries set_recoveries recovery_update_ok
      (λ _ c, String.eqb (rc_principal c) p && is_null (rc_consumed c) && is_null (rc_revoked c))
      (λ c, c {{ rc_revoked := Some now }}) h h' → change h h'
| use_recovery h h' k now id :
    changed recoveries set_recoveries recovery_update_ok
      (λ j c, String.eqb j k && is_null (rc_consumed c) && is_null (rc_revoked c) && (now <? rc_expires c)%Z)
      (λ c, c {{ rc_consumed := Some now; rc_session := Some id }}) h h' → change h h'
(* the proof of the first owner *)
| add_claim h h' k r : added claims set_claims claim_ok k r h h' → change h h'
| add_delegation h h' k r : added delegations set_delegations delegation_ok k r h h' → change h h'
| end_claims h h' P now :
    changed claims set_claims claim_update_ok (λ k c, P k c && is_null (bc_consumed c) && is_null (bc_revoked c))
      (λ c, c {{ bc_revoked := Some now }}) h h' → change h h'
| use_claim h h' k now p :
    changed claims set_claims claim_update_ok (λ j c, String.eqb j k && live_claim now c)
      (λ c, c {{ bc_consumed := Some now; bc_principal := Some p }}) h h' → change h h'
(* servers *)
| add_node h h' k n : added nodes set_nodes node_ok k n h h' → change h h'
| change_nodes h h' P f :
    changed nodes set_nodes node_update_ok P f h h' →
    (∀ n, nd_team (f n) = nd_team n ∧ nd_principal (f n) = nd_principal n ∧ nd_server (f n) = nd_server n
          ∧ nd_enrolled (f n) = nd_enrolled n) → change h h'
| add_peer h h' k b : added peers set_peers peer_ok k b h h' → change h h'
| end_peer h h' P now :
    changed peers set_peers peer_update_ok P (λ b, b {{ pb_active := false; pb_revoked := Some now }}) h h' →
    change h h'
| bind h h' b : host h = None → h' = h {{ host := Some b }} → change h h'
(* the board's own tables *)
| change_board h cs al bs : change h (set_boards bs (set_acls al (set_channels cs h)))
(* every event extends the chain of its team *)
| append_event h h1 h' id e :
    added events set_events event_ok id
      (event_row id e (hd_hash <$> heads h !! en_team e) (next_sequence (heads h !! en_team e))) h h1 →
    (∀ c, heads h !! en_team e = Some c → (hd_updated c <= en_created e)%Z) →
    h' = set_heads (<[en_team e := mkHead id
           (event_digest id e (hd_hash <$> heads h !! en_team e) (next_sequence (heads h !! en_team e)))
           (next_sequence (heads h !! en_team e)) (en_created e)]> (heads h)) h1 → change h h'.

Definition changes : relation hub := rtc change.
End changes.

(** One case per allowed change, its statements carried out. *)
Ltac change_cases H :=
  destruct H as [h h' k r Ha Hact|h h' k r Ha|h h' k r Ha|h h' p l now Hc|h h1 h' k t id m Ha Hb Hteam Hown Hinv Hact
    |h h' id m Ha Hrole Hact Hinv|h h' k i Ha Hauth|h h1 h' id i p now mid m Hr Ha Hm Hst
    |h h' id i p now mid m Hr Hmid Hmem Hact Hrole Hst
    |h h' P now Hc|h h' t p r now Hri Hki Hrow Hc|h h' t p s now Hrow Hc|h h' t p now Hc|h h' p now Hc
    |h h1 h' id s tid t Ha Hb Hgen Hlive Hses Hzero Hexp
    |h h1 h' id t s now next t' Ht Hs Hrep Hv Hv' Hx Hp Ha Hses Hgen Hexp Hok Hok' Hst
    |h h' ch now Hok Hst|h h' k r Hk Hses Hst|h h' k r Ha Hone|h h' p now Hc|h h' k now id Hc|h h' k r Ha|h h' k r Ha
    |h h' P now Hc|h h' k now p Hc|h h' k n Ha|h h' P f Hc Hf|h h' k b Ha|h h' P now Hc|h h' b Hnone Hst|h cs al bs
    |h h1 h' id e Ha Htime Hst];
  try (destruct Ha as (Hk & Hadd & ->)); try (destruct Hb as (Hk' & Hadd' & ->));
  try (destruct Hc as [Hupd ->]); try (rewrite Hst in * ).
