(* ===== verification/HubSteps.v ===== *)
(** * Team hub: the methods are sequences of allowed changes

    Each transaction that commits is a run of [HubChanges.changes]. *)
From S2P Require Import Prelude.
From S2P Require Import PyValues.
From S2P Require Import HubTokens.
From S2P Require Import Transactions.
From S2P Require Import HubTables.
From S2P Require Import HubAuth.
From S2P Require Import HubServers.
From S2P Require Import HubSessions.
From S2P Require Import HubAdmin.
From S2P Require Import HubChanges.
Open Scope string_scope.

(** ** Statements *)

Lemma insert_added {R} (rows : hub → gmap string R) set ok k r h h' u :
  insert_into rows set ok k r h = Ok (h', u) → added rows set ok k r h h'.
Proof. apply insert_into_Ok. Qed.

Lemma update_changed {R} (rows : hub → gmap string R) set ok P f h h' n :
  update_rows rows set ok P f h = Ok (h', n) → changed rows set ok P f h h'.
Proof. intros (-> & Hok & _)%update_rows_Ok. by split. Qed.

Lemma updated_rows_ext {R} (P Q : string → R → bool) f m :
  (∀ k r, m !! k = Some r → P k r = Q k r) → updated_rows P f m = updated_rows Q f m.
Proof.
  intros Heq. apply map_eq. intros k. rewrite !updated_rows_lookup.
  destruct (m !! k) as [r|] eqn:Hk; cbn; [|done]. by rewrite (Heq k r Hk).
Qed.

Lemma updated_rows_single {R} (P : string → R → bool) f m id r :
  m !! id = Some r → P id r = true → (∀ k r', P k r' = true → k = id) →
  updated_rows P f m = <[id := f r]> m.
Proof.
  intros Hid HP Honly. apply map_eq. intros k. rewrite updated_rows_lookup.
  destruct (decide (k = id)) as [->|Hk].
  - rewrite lookup_insert_eq, Hid. cbn. by rewrite HP.
  - rewrite lookup_insert_ne by done. destruct (m !! k) as [r'|]; cbn; [|done].
    destruct (P k r') eqn:E; [|done]. by apply Honly in E.
Qed.

Lemma updated_rows_none {R} (P : string → R → bool) f (m : gmap string R) :
  (∀ k r, m !! k = Some r → P k r = false) → updated_rows P f m = m.
Proof.
  intros Hno. apply map_eq. intros k. rewrite updated_rows_lookup.
  destruct (m !! k) as [r|] eqn:Hk; cbn; [|done]. by rewrite (Hno k r Hk).
Qed.

Section does.
Context `{HubCrypto}.

(** A transaction that commits makes allowed changes. *)
Definition does {A} (m : tx A) : Prop := ∀ h h' a, m h = Ok (h', a) → changes h h'.

Lemma does_change {A} (m : tx A) : (∀ h h' a, m h = Ok (h', a) → change h h') → does m.
Proof. intros Hm h h' a Hr. by eapply rtc_once, Hm. Qed.

Lemma does_bind {A B} (m : tx A) (f : A → tx B) : does m → (∀ a, does (f a)) → does (m ≫= f).
Proof.
  intros Hm Hf h h' b Hr. apply tx_bind_Ok in Hr as (h1 & a & E & Hr).
  etrans; [by eapply Hm|by eapply Hf].
Qed.

Lemma does_ret {A} (a : A) : does (mret a).
Proof. intros h h' b [-> _]%ret_Ok. done. Qed.

Lemma does_fail {A} e : does (A := A) (fail e).
Proof. done. Qed.

Lemma does_ask {A} (f : hub → A) : does (ask f).
Proof. intros h h' b [-> _]%ask_Ok. done. Qed.

Lemma does_guard b e : does (guard_not b e).
Proof. intros h h' u [_ ->]%guard_not_Ok. done. Qed.

Lemma does_pure {A} (r : res A) : does (pure r).
Proof. intros h h' b [-> _]%pure_Ok. done. Qed.

Lemma does_on_error {A} f (m : tx A) : does m → does (on_error f m).
Proof. intros Hm h h' a Hr%on_error_Ok. by eapply Hm. Qed.
End does.

Create HintDb hub_does.
#[export] Hint Resolve does_ret does_fail does_ask does_guard does_pure : hub_does.

(** Decomposes a transaction; what is left are the parts the hints do not
    know. *)
Ltac does_tac :=
  lazymatch goal with
  | |- does (_ ≫= _) => apply does_bind; [does_tac | intros ?; does_tac]
  | |- does (on_error _ _) => apply does_on_error; does_tac
  | |- does (let '(_, _) := ?x in _) => destruct x; does_tac
  | |- does (match ?x with _ => _ end) => destruct x; does_tac
  | |- _ => try solve [auto with hub_does]
  end.

(** [does_rest Hr]: what is left of a transaction [Hr] makes allowed changes. *)
Ltac does_rest Hr :=
  revert Hr;
  match goal with
  | |- ?m ?g = _ → _ => let Hd := fresh in assert (does m) as Hd by does_tac; intros Hr; exact (Hd _ _ _ Hr)
  end.

Section steps.
Context `{HubCrypto}.

Lemma does_principal k p : pr_status p = Active → does (insert_principal k p).
Proof. intros Ha. apply does_change. intros h h' u E%insert_added. by eapply add_principal. Qed.
Lemma does_human k u : does (insert_human k u).
Proof. apply does_change. intros h h' a E%insert_added. by eapply add_human. Qed.
Lemma does_service k s : does (insert_service k s).
Proof. apply does_change. intros h h' a E%insert_added. by eapply add_service. Qed.
Lemma does_automation k t p c u : does (insert_membership k (mkMembership t p Automation Active None c u)).
Proof. apply does_change. intros h h' a E%insert_added. by eapply add_automation. Qed.
Lemma does_node k n : does (insert_node k n).
Proof. apply does_change. intros h h' a E%insert_added. by eapply add_node. Qed.
Lemma does_peer k b : does (insert_peer k b).
Proof. apply does_change. intros h h' a E%insert_added. by eapply add_peer. Qed.
Lemma does_claim k c : does (insert_claim k c).
Proof. apply does_change. intros h h' a E%insert_added. by eapply add_claim. Qed.
Lemma does_delegation k c : does (insert_delegation k c).
Proof. apply does_change. intros h h' a E%insert_added. by eapply add_delegation. Qed.

Lemma does_nodes P f :
  (∀ n, nd_team (f n) = nd_team n ∧ nd_principal (f n) = nd_principal n ∧ nd_server (f n) = nd_server n
        ∧ nd_enrolled (f n) = nd_enrolled n) → does (update_nodes P f).
Proof. intros Hf. apply does_change. intros h h' a E%update_changed. by eapply change_nodes. Qed.

(** The tables of the board. *)
Lemma does_channel k c : does (insert_channel k c).
Proof.
  apply does_change. intros h h' a (_ & _ & ->)%insert_added.
  replace (set_channels _ h) with (set_boards (boards h) (set_acls (acls h) (set_channels (<[k:=c]> (channels h)) h)))
    by (by destruct h). apply change_board.
Qed.
Lemma does_acl k c : does (insert_acl k c).
Proof.
  apply does_change. intros h h' a (_ & _ & ->)%insert_added.
  replace (set_acls _ h) with (set_boards (boards h) (set_acls (<[k:=c]> (acls h)) (set_channels (channels h) h)))
    by (by destruct h). apply change_board.
Qed.
Lemma does_board k c : does (insert_board k c).
Proof.
  apply does_change. intros h h' a (_ & _ & ->)%insert_added.
  replace (set_boards _ h) with (set_boards (<[k:=c]> (boards h)) (set_acls (acls h) (set_channels (channels h) h)))
    by (by destruct h). apply change_board.
Qed.
Lemma does_boards P f : does (update_boards P f).
Proof.
  apply does_change. intros h h' a [_ ->]%update_changed.
  replace (set_boards _ h) with (set_boards (updated_rows P f (boards h)) (set_acls (acls h) (set_channels (channels h) h)))
    by (by destruct h). apply change_board.
Qed.

(** ** Services and servers *)

#[local] Hint Resolve does_human does_service does_automation does_node does_peer does_claim does_delegation
  does_channel does_acl does_board does_boards : hub_does.
#[local] Hint Extern 1 (does (insert_principal _ _)) => (apply does_principal; reflexivity) : hub_does.
#[local] Hint Extern 1 (does (update_nodes _ _)) =>
  (apply does_nodes; intros []; repeat split; reflexivity) : hub_does.

Lemma does_rename p label now : does (rename_principal p label now).
Proof.
  unfold rename_principal. apply does_bind; [|intros; apply does_ret].
  apply does_change. intros h h' n E%update_changed. by eapply rename.
Qed.
#[local] Hint Resolve does_rename : hub_does.

Lemma audit_ok e random h h' u : audit e random h = Ok (h', u) → change h h'.
Proof.
  unfold audit. intros Hr. apply tx_bind_Ok in Hr as (h0 & last & [-> ->]%ask_Ok & Hr).
  apply tx_bind_Ok in Hr as (h1 & [] & E%insert_added & Hr).
  assert (heads h1 = heads h) as Hh by (by destruct E as (_ & _ & ->)).
  destruct (heads h !! en_team e) as [c|] eqn:Hc.
  - apply tx_bind_Ok in Hr as (h2 & n & E2%update_changed & [-> _]%ret_Ok).
    destruct E2 as [Hok ->]. rewrite Hh in *.
    eapply append_event; rewrite ?Hc; [exact E|..].
    + intros c' [= <-]. specialize (Hok _ _ Hc (String.eqb_refl _)).
      unfold head_update_ok in Hok. rewrite !andb_true_iff in Hok. cbn in Hok. lia.
    + rewrite (updated_rows_single _ _ _ _ _ Hc); [done|apply String.eqb_refl|].
      intros k r Hk. by apply String.eqb_eq in Hk.
  - apply insert_added in Hr as (_ & _ & ->).
    eapply append_event; rewrite ?Hc; [exact E|done|]. by rewrite Hh.
Qed.

Lemma does_audit e random : does (audit e random).
Proof. apply does_change. intros h h' u. apply audit_ok. Qed.
#[local] Hint Resolve does_audit : hub_does.

Lemma does_audit_teams l e random : does (audit_teams l e random).
Proof.
  revert random. induction l as [|t l IH]; intros random; cbn [audit_teams]; [apply does_ret|].
  apply does_bind; [apply does_audit|]. intros _. apply IH.
Qed.
#[local] Hint Resolve does_audit_teams : hub_does.

Lemma does_audit_event t a ac ty r o m n random : does (audit_event t a ac ty r o m n random).
Proof. apply does_audit. Qed.
Lemma does_audit_principal p ac ty r o n random : does (audit_principal_teams p ac ty r o n random).
Proof. unfold audit_principal_teams. does_tac. Qed.
#[local] Hint Resolve does_audit_event does_audit_principal : hub_does.

Lemma does_ensure_automation p name i e1 e2 t now random : does (ensure_automation p name i e1 e2 t now random).
Proof. unfold ensure_automation. does_tac. Qed.
#[local] Hint Resolve does_ensure_automation : hub_does.

Lemma does_local_control t now random : does (local_control_principal t now random).
Proof. apply does_ensure_automation. Qed.
Lemma does_managed_server t now random : does (managed_server_principal t now random).
Proof. apply does_ensure_automation. Qed.
Lemma does_host_node cf t now random : does (ensure_managed_host_node cf t now random).
Proof. unfold ensure_managed_host_node. does_tac. Qed.
#[local] Hint Resolve does_local_control does_managed_server does_host_node : hub_does.

Lemma does_rename_host cf name now random : does (rename_managed_host cf name now random).
Proof. unfold rename_managed_host. does_tac. Qed.

Lemma does_role t p l : does (require_team_role t p l).
Proof. unfold require_team_role. does_tac. Qed.
#[local] Hint Resolve does_role : hub_does.

Lemma does_acls t c now l random : does (insert_acls t c now l random).
Proof.
  revert random. induction l as [|[r [[? ?] ?]] l IH]; intros random; cbn [insert_acls]; does_tac.
Qed.
#[local] Hint Resolve does_acls : hub_does.

Lemma does_network_board t c now random : does (ensure_network_board t c now random).
Proof. unfold ensure_network_board. does_tac. Qed.
#[local] Hint Resolve does_network_board : hub_does.

Lemma does_acl_or_ignore k r : does (insert_acl_or_ignore k r).
Proof.
  intros h h' n. unfold insert_acl_or_ignore. destruct (_ || _); [by intros [= <- _]|].
  destruct (insert_acl k r h) as [[h1 []]|e] eqn:E; [|done]. intros [= <- _]. by eapply does_acl.
Qed.
#[local] Hint Resolve does_acl_or_ignore : hub_does.

Lemma does_open_channels t l now random : does (open_channels t l now random).
Proof.
  revert random. induction l as [|[id c] l IH]; intros random; cbn [open_channels]; does_tac.
Qed.
#[local] Hint Resolve does_open_channels : hub_does.

Lemma does_peer_service cf peer i t name now random : does (ensure_secure_peer_service cf peer i t name now random).
Proof.
  unfold ensure_secure_peer_service, peer_principal, peer_membership, peer_node, bind_peer. does_tac.
Qed.

Lemma does_end_peer P now : does (update_peers P (λ b, b {{ pb_active := false; pb_revoked := Some now }})).
Proof. apply does_change. intros h h' n E%update_changed. by eapply end_peer. Qed.
#[local] Hint Resolve does_end_peer : hub_does.

Lemma does_revoke_peer peer t now : does (revoke_secure_peer_service peer t now).
Proof.
  unfold revoke_secure_peer_service. does_tac.
  - apply does_change. intros h h' n E%update_changed. by eapply retire_membership.
  - apply does_change. intros h h' n E%update_changed. by eapply retire_principal.
Qed.

Lemma does_heartbeat peer t now : does (record_secure_peer_heartbeat peer t now).
Proof. unfold record_secure_peer_heartbeat. does_tac. Qed.
Lemma does_expire stale : does (expire_secure_peer_leases stale).
Proof. unfold expire_secure_peer_leases. does_tac. Qed.
End steps.

#[export] Hint Resolve does_human does_service does_automation does_node does_peer does_claim does_delegation
  does_rename does_audit does_audit_teams does_audit_event does_audit_principal does_ensure_automation
  does_local_control does_managed_server does_host_node does_role does_network_board : hub_does.
#[export] Hint Extern 1 (does (insert_principal _ _)) => (apply does_principal; reflexivity) : hub_does.
#[export] Hint Extern 1 (does (update_nodes _ _)) =>
  (apply does_nodes; intros []; repeat split; reflexivity) : hub_does.

(** * Team hub: accounts and sessions are sequences of allowed changes

    The methods that invite, redeem, open, rotate and end, for which the
    allowed change asks for a reason: who issued the invitation, whose account
    it is, which token was presented. *)
Lemma insert_lookup_None {R} (rows : hub → gmap string R) set ok k r h h' u :
  insert_into rows set ok k r h = Ok (h', u) → rows h !! k = None.
Proof. by intros (? & _)%insert_into_Ok. Qed.

Section methods.
Context `{HubCrypto}.

(** ** Invitations *)

Lemma does_bootstrap_team email name now random : does (bootstrap_personal_team email name now random).
Proof.
  unfold bootstrap_personal_team. do 3 (apply does_bind; [auto with hub_does|intros ?]).
  apply does_bind; [auto with hub_does|]. intros [b|]; [apply does_ret|].
  do 2 (apply does_bind; [auto with hub_does|intros ?]).
  intros h h' b Hr. inv_tx Hr.
  apply insert_added in E, E0, E1, E2.
  eapply rtc_l; [by eapply add_principal|]. eapply rtc_l; [by eapply add_human|].
  eapply rtc_l; [|done]. eapply add_team; [exact E1|exact E2|done..|].
  destruct E as (_ & _ & ->), E0 as (_ & _ & ->).
  unfold principal_active. cbn. by rewrite lookup_insert_eq.
Qed.

Lemma require_role_found t p l h h' m :
  require_team_role t p l h = Ok (h', m) →
  h' = h ∧ mb_role m ∈ l ∧ ∃ id, memberships h !! id = Some m ∧ is_member t p m = true
    ∧ mb_status m = Active ∧ principal_active h p = true.
Proof.
  unfold require_team_role. intros Hr. apply tx_bind_Ok in Hr as (h1 & o & [-> ->]%ask_Ok & Hr).
  destruct (team_role t p h) as [[id m']|] eqn:E; [|done]. inv_tx Hr.
  apply find_row_Some in E as [Hid HP]. rewrite !andb_true_iff, bool_decide_eq_true in HP.
  rewrite negb_false_iff, bool_decide_eq_true in E0. naive_solver.
Qed.

Lemma issuer_by_role t p m id h i :
  memberships h !! id = Some m → is_member t p m = true → mb_status m = Active →
  principal_active h p = true → mb_role m ∈ [Owner; Admin] → iv_team i = t → iv_issuer i = p →
  issuer_authorized h i = true.
Proof.
  intros Hid Hm Hs Hp Hr <- <-. apply exists_row_true. exists id, m. split; [done|].
  rewrite Hm, Hp, (bool_decide_true _ Hs). cbn.
  apply elem_of_cons in Hr as [->|[->|[]%elem_of_nil]%elem_of_cons]; done.
Qed.

Lemma issuer_by_host t p h i :
  managed_operator t p h = true → iv_team i = t → iv_issuer i = p → issuer_authorized h i = true.
Proof.
  unfold managed_operator. rewrite !andb_true_iff. intros [[Hs Hm] Hn] <- <-.
  apply exists_row_true in Hm as (id & m & Hid & Hm). rewrite !andb_true_iff, !bool_decide_eq_true in Hm.
  destruct Hm as [[Hm Hr] Ha]. apply exists_row_true. exists id, m. split; [done|].
  rewrite Hm, Hs, Hn, Hr, Ha. cbn. unfold managed_service in Hs. unfold principal_active.
  rewrite !andb_true_iff in Hs. destruct Hs as [[_ Hs] _].
  destruct (principals h !! _) as [r|]; [|done]. rewrite !andb_true_iff in Hs.
  destruct Hs as [_ ->]. done.
Qed.

Lemma new_invitation_change t p r e ttl now random h h' i0 :
  insert_new_invitation t p r e ttl now random h = Ok (h', i0) →
  (∀ i, iv_team i = t → iv_issuer i = p → issuer_authorized h i = true) → change h h'.
Proof.
  unfold insert_new_invitation. intros Hr Hauth. destruct (role_of_name r); [|done].
  inv_tx Hr. apply insert_added in E2. eapply add_invitation; [exact E2|]. by apply Hauth.
Qed.

Lemma does_issue_invitation t p r e ttl now random : does (issue_invitation t p r e ttl now random).
Proof.
  intros h h' i Hr. unfold issue_invitation in Hr. apply tx_bind_Ok in Hr as (h1 & m & E & Hr).
  apply require_role_found in E as (-> & Hl & id & Hid & Hm & Hs & Hp).
  eapply rtc_once, new_invitation_change; [done|]. intros. by eapply issuer_by_role.
Qed.

Lemma does_issue_managed t p r e ttl now random : does (issue_managed_host_invitation t p r e ttl now random).
Proof.
  intros h h' i Hr. unfold issue_managed_host_invitation in Hr.
  apply tx_bind_Ok in Hr as (h1 & [] & [_ ->]%guard_not_Ok & Hr).
  apply tx_bind_Ok in Hr as (h1 & b & [-> ->]%ask_Ok & Hr).
  apply tx_bind_Ok in Hr as (h1 & [] & [Hb ->]%guard_not_Ok & Hr). apply negb_false_iff in Hb.
  eapply rtc_once, new_invitation_change; [done|]. intros. by eapply issuer_by_host.
Qed.

(** The invitation a redemption marks. *)
Lemma mark_redeemed id i p now h h' n :
  invitations h !! id = Some i → pending now i = true →
  update_invitations (λ k i, String.eqb k id && pending now i)
    (λ i, i {{ iv_redeemed := Some now; iv_redeemer := Some p }}) h = Ok (h', n) →
  h' = set_invitations (<[id := redeemed p now i]> (invitations h)) h
  ∧ ∀ g, humans g = humans h → invitation_update_ok g id i (redeemed p now i) = true.
Proof.
  intros Hid Hp [Hok ->]%update_changed. split.
  - rewrite (updated_rows_single _ _ _ _ _ Hid); [done|by rewrite String.eqb_refl|].
    intros k r' [Hk _]%andb_true_iff. by apply String.eqb_eq.
  - intros g Hg. specialize (Hok id i Hid). rewrite String.eqb_refl, Hp in Hok. specialize (Hok eq_refl).
    unfold invitation_update_ok in *. by rewrite Hg.
Qed.

Lemma redeem_changes token p now random h h' m :
  redeem_invitation token p now random h = Ok (h', m) → change h h'.
Proof.
  unfold redeem_invitation. intros Hr.
  apply tx_bind_Ok in Hr as (h0 & hash & [-> _]%pure_Ok & Hr).
  apply tx_bind_Ok in Hr as (h0 & t & [-> Ht]%pure_Ok & Hr).
  unfold checked_time in Ht. destruct (now <? 0)%Z; [done|]. cbn in Ht. injection Ht as <-.
  apply tx_bind_Ok in Hr as (h0 & found & [-> ->]%ask_Ok & Hr).
  destruct (find_row _ _) as [[id i]|] eqn:Ef; [|done].
  apply find_row_Some in Ef as [Hid HP]. apply andb_true_iff in HP as [_ Hauth].
  apply tx_bind_Ok in Hr as (h0 & [] & [Hp ->]%guard_not_Ok & Hr). apply negb_false_iff in Hp.
  apply tx_bind_Ok in Hr as (h0 & account & [-> ->]%ask_Ok & Hr).
  destruct (active_human p h) as [u|] eqn:Hu; [|done].
  apply tx_bind_Ok in Hr as (h0 & [] & [He ->]%guard_not_Ok & Hr).
  apply negb_false_iff, String.eqb_eq in He.
  apply tx_bind_Ok in Hr as (h1 & mid & Hj & Hr).
  apply tx_bind_Ok in Hr as (h2 & n & Hmark & Hr).
  apply tx_bind_Ok in Hr as (h3 & [] & [_ ->]%guard_not_Ok & [-> _]%ret_Ok).
  unfold join_team in Hj. apply tx_bind_Ok in Hj as (h3 & ex & [-> ->]%ask_Ok & Hj).
  destruct (find_row _ (memberships h)) as [[eid m']|] eqn:Em.
  - inv_tx Hj. apply find_row_Some in Em as [Hm HM].
    apply orb_false_iff in E as [Ha%negb_false_iff%bool_decide_eq_true Hrole%negb_false_iff%bool_decide_eq_true].
    destruct (mark_redeemed _ _ _ _ _ _ _ Hid Hp Hmark) as [-> Htr].
    eapply rejoin with (mid := eid); [|done..]. by split; eauto.
  - inv_tx Hj. apply insert_added in E as (Hn & Hok & ->).
    apply (mark_redeemed id i p now) in Hmark as [-> Htr]; [|exact Hid|exact Hp].
    eapply join; [|by split|done|done]. by split; eauto.
Qed.

Lemma does_redeem token p now random : does (redeem_invitation token p now random).
Proof. apply does_change. intros h h' m. apply redeem_changes. Qed.

(** ** Sessions *)

Lemma does_fetch id : does (fetch_row id).
Proof. unfold fetch_row. does_tac. Qed.
Lemma does_require claims now : does (require_session claims now).
Proof. unfold require_session. does_tac. Qed.
Lemma does_bundle cf row r e now jti : does (auth_bundle cf row r e now jti).
Proof. unfold auth_bundle. does_tac. Qed.
#[local] Hint Resolve does_redeem does_fetch does_require does_bundle : hub_does.

Lemma open_session_ok k s tid t h h' u :
  (insert_session k s;; insert_token tid t) h = Ok (h', u) →
  ds_generation s = 0%Z → ds_revoked s = None → rt_session t = k → rt_generation t = 0%Z →
  rt_expires t = ds_expires s → change h h'.
Proof.
  intros Hr. apply tx_bind_Ok in Hr as (h1 & [] & E%insert_added & E2%insert_added).
  intros. by eapply open_session.
Qed.

Lemma does_create_session p label now random : does (create_session p label now random).
Proof.
  unfold create_session, opaque_secret. apply does_bind; [auto with hub_does|intros l].
  intros h h' a Hr. apply tx_bind_Ok in Hr as (h1 & [] & E%insert_added & Hr).
  apply tx_bind_Ok in Hr as (h2 & [] & E2%insert_added & Hr).
  etrans; [eapply rtc_once, open_session; [exact E|exact E2|done..]|].
  by apply (does_bind _ _ (does_fetch _) (λ _, does_ret _)) in Hr.
Qed.
#[local] Hint Resolve does_create_session : hub_does.

(** The rows a revocation selects do not change while it runs. *)
Lemma ended_ok chosen now h h1 h' n u (P : string → session → bool) (Q : string → token → bool) :
  (∀ k s, sessions h !! k = Some s → P k s = chosen k && is_null (ds_revoked s)) →
  (∀ k t, tokens h !! k = Some t → Q k t = chosen (rt_session t) && is_null (rt_consumed t) && is_null (rt_revoked t)) →
  update_sessions P (λ s, s {{ ds_revoked := Some now }}) h = Ok (h1, n) →
  update_tokens Q (λ t, t {{ rt_revoked := Some now }}) h1 = Ok (h', u) →
  change h h'.
Proof.
  intros HP HQ [Hok ->]%update_changed [_ ->]%update_changed.
  eapply (end_sessions _ _ chosen now).
  - intros k s Hk Hc Hr. apply Hok; [done|]. by rewrite (HP k s Hk), Hc, Hr.
  - unfold ended_sessions. rewrite (updated_rows_ext _ _ _ _ HP). f_equal. by apply updated_rows_ext.
Qed.

Lemma does_revoke_one id now : does (revoke_one id now).
Proof.
  intros h h' u Hr. unfold revoke_one in Hr.
  apply tx_bind_Ok in Hr as (h1 & n & E & Hr). apply tx_bind_Ok in Hr as (h2 & n2 & E2 & [-> _]%ret_Ok).
  by eapply rtc_once, (ended_ok (λ k, String.eqb k id)).
Qed.

(** Whose a session is. *)
Definition session_owned (p : string) (h : hub) (id : string) : bool :=
  match sessions h !! id with Some s => String.eqb (ds_human s) p | None => false end.

Lemma does_revoke_all p now : does (revoke_all p now).
Proof.
  intros h h' u Hr. unfold revoke_all in Hr.
  apply tx_bind_Ok in Hr as (h1 & n & E & Hr). apply tx_bind_Ok in Hr as (h2 & sel & [-> ->]%ask_Ok & Hr).
  apply tx_bind_Ok in Hr as (h2 & n2 & E2 & [-> _]%ret_Ok).
  eapply rtc_once, (ended_ok (session_owned p h)); [| |exact E|exact E2].
  - intros k s Hk. unfold session_owned. by rewrite Hk.
  - intros k t _. apply update_changed in E as [_ ->]. unfold session_owned. cbn.
    rewrite updated_rows_lookup. destruct (sessions h !! rt_session t) as [s|]; cbn.
    + destruct (_ && is_null (ds_revoked s)), s; cbn; by rewrite andb_comm, andb_assoc.
    + by rewrite andb_comm.
Qed.
#[local] Hint Resolve does_revoke_one does_revoke_all : hub_does.

Lemma does_jti k r : does (insert_jti k r).
Proof.
  intros h h' u. unfold insert_jti. destruct (_ || present (jtis h) k) eqn:E; [by intros [= <- _]|].
  destruct (present (sessions h) (ar_session r)) eqn:Es; [|done]. intros [= <- _].
  eapply rtc_once, add_jti; [|done..]. apply orb_false_iff in E as [_ Ej].
  unfold present in Ej. by destruct (jtis h !! k).
Qed.
#[local] Hint Resolve does_jti : hub_does.

Lemma does_revoke_session claims token now random : does (revoke_session claims token now random).
Proof. unfold revoke_session. does_tac. Qed.
Lemma does_revoke_device claims d now random : does (revoke_device_session claims d now random).
Proof. unfold revoke_device_session. does_tac. Qed.
Lemma does_punish t s now random : does (punish t s now random).
Proof. unfold punish. does_tac. Qed.

Lemma token_row_found digest h id t s :
  token_row digest h = Some (id, t, s) →
  tokens h !! id = Some t ∧ rt_hash t = digest ∧ sessions h !! rt_session t = Some s.
Proof.
  unfold token_row. destruct (find_row _ _) as [[id' t']|] eqn:Ef; [|done].
  apply find_row_Some in Ef as [Hid Hd%String.eqb_eq].
  destruct (sessions h !! rt_session t') as [s'|] eqn:Es; [|done].
  destruct (_ && _); [|done]. by intros [= -> -> ->].
Qed.

(** What a successful rotation does. *)
Lemma rotate_changes cf id t s now random h h' b :
  tokens h !! id = Some t → sessions h !! rt_session t = Some s → replayed t s = false →
  rotate cf id t s now random h = Ok (h', b) →
  ∃ h1, change h h1 ∧ changes h1 h'
    ∧ tokens h1 !! id = Some (t {{ rt_consumed := Some now; rt_next := Some (new_id "refresh" (random 1%nat)) }}).
Proof.
  intros Hid Hs Hrep Hr. unfold rotate in Hr.
  apply tx_bind_Ok in Hr as (h0 & act & [-> ->]%ask_Ok & Hr).
  apply tx_bind_Ok in Hr as (h0 & [] & [Hg ->]%guard_not_Ok & Hr).
  rewrite !orb_false_iff, !negb_false_iff, !Z.leb_gt in Hg. destruct Hg as [[[[Hv Hv'] Ha] _] Hx].
  unfold opaque_secret in Hr.
  apply tx_bind_Ok in Hr as (h1 & [] & Hins%insert_added & Hr).
  apply tx_bind_Ok in Hr as (h2 & n & [Hok ->]%update_changed & Hr).
  apply tx_bind_Ok in Hr as (h3 & [] & [Hn ->]%guard_not_Ok & Hr).
  apply tx_bind_Ok in Hr as (h4 & n2 & [Hok2 ->]%update_changed & Hr).
  unfold replayed in Hrep. rewrite orb_false_iff, !negb_false_iff in Hrep. destruct Hrep as [Hc Hgen].
  assert (tokens h1 !! id = Some t) as Hid1.
  { destruct Hins as (Hnone & _ & ->). cbn. rewrite lookup_insert_ne; [done|]. intros <-. congruence. }
  assert (sessions h1 = sessions h) as Hs1 by (by destruct Hins as (_ & _ & ->)).
  rewrite (updated_rows_single _ _ _ _ _ Hid1) in Hr, Hok2; cycle 1.
  { by rewrite String.eqb_refl, Hc, Hv. }
  { intros k r [[Hk _]%andb_true_iff _]%andb_true_iff. by apply String.eqb_eq. }
  { by rewrite String.eqb_refl, Hc, Hv. }
  { intros k r [[Hk _]%andb_true_iff _]%andb_true_iff. by apply String.eqb_eq. }
  change (sessions (set_tokens ?m h1)) with (sessions h1) in Hr, Hok2. rewrite Hs1 in Hr, Hok2.
  rewrite (updated_rows_single _ _ _ _ _ Hs) in Hr; cycle 1.
  { by rewrite String.eqb_refl, Hv'. }
  { intros k r [Hk _]%andb_true_iff. by apply String.eqb_eq. }
  eexists. split; [|split].
  - eapply rotate_session with (t := t) (s := s) (now := now); [exact Hid|exact Hs| | | | | |exact Hins|done|done|done| | |reflexivity].
    + unfold replayed. by rewrite Hc, Hgen.
    + by destruct (rt_revoked t).
    + by destruct (ds_revoked s).
    + done.
    + done.
    + apply (Hok id t Hid1). by rewrite String.eqb_refl, Hc, Hv.
    + apply (Hok2 _ s Hs). by rewrite String.eqb_refl, Hv'.
  - revert Hr. generalize (set_sessions (<[rt_session t := s {{ ds_generation := (rt_generation t + 1)%Z; ds_seen := now }}]> (sessions h))
           (set_tokens (<[id := t {{ rt_consumed := Some now; rt_next := Some (new_id "refresh" (random 1%nat)) }}]> (tokens h1)) h1)).
    intros g Hr. apply tx_bind_Ok in Hr as (h5 & row & E1 & Hr).
    apply tx_bind_Ok in Hr as (h6 & b' & E2 & Hr). apply tx_bind_Ok in Hr as (h7 & [] & E3 & [-> _]%ret_Ok).
    etrans; [by eapply does_fetch|]. etrans; [by eapply does_bundle|]. by eapply does_audit_principal.
  - cbn. by rewrite lookup_insert_eq.
Qed.
End methods.

#[export] Hint Resolve does_bootstrap_team does_issue_invitation does_issue_managed does_redeem does_fetch
  does_require does_bundle does_create_session does_revoke_one does_revoke_all does_jti : hub_does.
