(* ===== verification/HubAdminSteps.v ===== *)
(** * Team hub: administration is a sequence of allowed changes

    The methods of [HubAdmin]: the first owner, members, recovery. *)
From S2P Require Import Prelude.
From S2P Require Import PyValues.
From S2P Require Import HubTokens.
From S2P Require Import Transactions.
From S2P Require Import HubTables.
From S2P Require Import HubAuth.
From S2P Require Import HubServers.
From S2P Require Import HubSessions.
From S2P Require Import HubAdmin.
From S2P Require Import HubChanges.
From S2P Require Import HubSteps.

Open Scope string_scope.

Section admin.
Context `{HubCrypto}.

(** ** The proof of the first owner *)

Lemma does_end_claims P Q now :
  (∀ k c, P k c = Q k c && is_null (bc_consumed c) && is_null (bc_revoked c)) →
  does (update_claims P (λ c, c {{ bc_revoked := Some now }})).
Proof.
  intros HP. apply does_change. intros h h' n [Hok ->]%update_changed.
  eapply (end_claims _ _ Q now). split.
  - intros k r Hk HQ. apply (Hok k r Hk). by rewrite HP.
  - f_equal. apply updated_rows_ext. intros k r _. apply HP.
Qed.

Lemma does_revoke_claims now : does (revoke_claims now).
Proof.
  unfold revoke_claims. apply does_bind; [|intros; apply does_ret].
  by apply (does_end_claims _ (λ _ _, true)).
Qed.
#[local] Hint Resolve does_revoke_claims : hub_does.

Lemma does_ensure_claim cf p f now random : does (ensure_bootstrap_claim cf p f now random).
Proof. unfold ensure_bootstrap_claim. does_tac. Qed.
#[local] Hint Resolve does_ensure_claim : hub_does.

Lemma does_renew cf now random : does (renew_bootstrap_proof cf now random).
Proof. unfold renew_bootstrap_proof. does_tac. Qed.

Lemma does_revoke_live id now : does (revoke_live_claim id now).
Proof.
  unfold revoke_live_claim. apply does_bind; [|intros; apply does_guard].
  apply (does_end_claims _ (λ k c, String.eqb k id && (now <? bc_expires c)%Z)).
  intros k c. unfold live_claim. destruct (String.eqb k id), (is_null (bc_consumed c)), (is_null (bc_revoked c));
    cbn; by rewrite ?andb_false_r, ?andb_true_r.
Qed.
#[local] Hint Resolve does_revoke_live : hub_does.

Lemma does_issue_tailnet cf q now random : does (issue_tailnet_bootstrap_proof cf q now random).
Proof. unfold issue_tailnet_bootstrap_proof, new_delegation. does_tac. Qed.

Lemma does_use_claim id now p :
  does (update_claims (λ k c, String.eqb k id && live_claim now c)
    (λ c, c {{ bc_consumed := Some now; bc_principal := Some p }})).
Proof. apply does_change. intros h h' n E%update_changed. by eapply use_claim. Qed.
#[local] Hint Resolve does_use_claim : hub_does.

Lemma does_bootstrap cf q now random : does (bootstrap cf q now random).
Proof. unfold bootstrap. does_tac. Qed.

Lemma does_validate : does validate_owner_invariants.
Proof. unfold validate_owner_invariants. does_tac. Qed.
#[local] Hint Resolve does_validate : hub_does.

(** The service that owns a managed network, its team and its membership. *)
Lemma managed_team_changes name t m label now h h1 h2 h3 h' u1 u2 u3 u4 :
  insert_principal MANAGED_OWNER_ID (mkPrincipal Service None label Active now now) h = Ok (h1, u1) →
  insert_service MANAGED_OWNER_ID (mkService MANAGED_OWNER_SERVICE now) h1 = Ok (h2, u2) →
  insert_team t (mkTeam Shared ("network-" +:+ last_chars 24 t) name None MANAGED_OWNER_ID now now) h2 = Ok (h3, u3) →
  insert_membership m (mkMembership t MANAGED_OWNER_ID Owner Active None now now) h3 = Ok (h', u4) →
  changes h h'.
Proof.
  intros E%insert_added E0%insert_added E1%insert_added E2%insert_added.
  eapply rtc_l; [by eapply add_principal|]. eapply rtc_l; [by eapply add_service|].
  eapply rtc_l; [|done]. eapply add_team; [exact E1|exact E2|done..|].
  destruct E as (_ & _ & ->), E0 as (_ & _ & ->). unfold principal_active. cbn. by rewrite lookup_insert_eq.
Qed.

Lemma does_managed_network cf name now random : does (bootstrap_managed_network cf name now random).
Proof.
  unfold bootstrap_managed_network.
  do 4 (apply does_bind; [auto with hub_does|intros ?]).
  destruct a2 as [|t rest]; [|does_tac].
  do 2 (apply does_bind; [auto with hub_does|intros ?]).
  intros h h' u Hr. apply tx_bind_Ok in Hr as (h1 & [] & E1 & Hr).
  apply tx_bind_Ok in Hr as (h2 & [] & E2 & Hr). apply tx_bind_Ok in Hr as (h3 & [] & E3 & Hr).
  apply tx_bind_Ok in Hr as (h4 & [] & E4 & Hr).
  etrans.
  - eapply managed_team_changes; [exact E1|exact E2|exact E3|exact E4].
  - does_rest Hr.
Qed.

(** ** Members *)

Lemma does_require_owner claims t : does (require_owner claims t).
Proof. unfold require_owner. does_tac. Qed.
#[local] Hint Resolve does_require_owner : hub_does.

Lemma does_revoke_invitation claims t i now random : does (revoke_invitation claims t i now random).
Proof.
  unfold revoke_invitation. does_tac. apply does_change. intros h h' n E%update_changed.
  eapply end_invitation. exact E.
Qed.

(** A membership is the only one of its principal in its team. *)
Definition one_membership (h : hub) : Prop := ∀ j k m m',
  memberships h !! j = Some m → memberships h !! k = Some m' →
  mb_team m = mb_team m' → mb_principal m = mb_principal m' → j = k.

Lemma is_member_true t p m : is_member t p m = true ↔ mb_team m = t ∧ mb_principal m = p.
Proof. unfold is_member. by rewrite andb_true_iff, !String.eqb_eq. Qed.

Lemma change_member_changes c t p id m now h h' a :
  one_membership h → memberships h !! id = Some m → is_member t p m = true →
  principal_kind_of h p = Some Human → mb_role m ≠ Owner → mb_role m ≠ Automation → mb_status m ≠ Revoked →
  (∀ r, c = SetRole r → invitable r = true) →
  change_member c t p m now h = Ok (h', a) → change h h'.
Proof.
  intros Huniq Hid Hm Hk Ho Hau Hrev Hinv Hr.
  assert (∀ k m', memberships h !! k = Some m' → is_member t p m' = true → m' = m) as Hthe.
  { intros k m' Hk' Hm'. apply is_member_true in Hm as [Ht Hp]. apply is_member_true in Hm' as [Ht' Hp'].
    assert (k = id) as -> by (eapply Huniq; [done..| |]; congruence). congruence. }
  destruct c as [r|s]; cbn [change_member] in Hr.
  - apply tx_bind_Ok in Hr as (h0 & [] & [Hs%negb_false_iff%bool_decide_eq_true ->]%guard_not_Ok & Hr).
    apply tx_bind_Ok in Hr as (h1 & n & E%update_changed & [-> _]%ret_Ok).
    eapply change_role; [by apply Hinv|exact Hk| |exact E].
    intros k m' Hk' Hm'. rewrite (Hthe _ _ Hk' Hm'). split; [|done]. unfold active_owner.
    by rewrite bool_decide_false.
  - apply tx_bind_Ok in Hr as (h1 & n & E%update_changed & [-> _]%ret_Ok).
    eapply change_status; [|exact E]. intros k m' Hk' Hm'. by rewrite (Hthe _ _ Hk' Hm').
Qed.

Lemma update_member_changes claims t q role_text status_text now random h h' a :
  one_membership h →
  update_human_membership claims t q role_text status_text now random h = Ok (h', a) → changes h h'.
Proof.
  unfold update_human_membership. intros Huniq Hr.
  apply tx_bind_Ok in Hr as (h0 & p & [-> Hp]%pure_Ok & Hr).
  apply tx_bind_Ok in Hr as (h0 & c & [-> Hc]%pure_Ok & Hr).
  apply tx_bind_Ok in Hr as (h0 & row & E & Hr).
  assert (h0 = h) as ->.
  { unfold require_session in E. apply tx_bind_Ok in E as (h1 & o & [-> ->]%ask_Ok & E).
    destruct (session_of claims now h); [by apply ret_Ok in E as [-> _]|done]. }
  apply tx_bind_Ok in Hr as (h0 & team & E2 & Hr).
  assert (h0 = h) as ->.
  { unfold require_owner in E2. apply tx_bind_Ok in E2 as (h1 & o & [-> _]%pure_Ok & E2).
    apply tx_bind_Ok in E2 as (h1 & m & (-> & _)%on_error_Ok%require_role_found & E2).
    by apply tx_bind_Ok in E2 as (h1 & [] & [_ ->]%guard_not_Ok & [-> _]%ret_Ok). }
  apply tx_bind_Ok in Hr as (h0 & target & [-> ->]%ask_Ok & Hr).
  apply tx_bind_Ok in Hr as (h0 & kind & [-> ->]%ask_Ok & Hr).
  destruct (find_row _ _) as [[id m]|] eqn:Ef; [|done].
  apply find_row_Some in Ef as [Hid [Hm _]%andb_true_iff].
  apply tx_bind_Ok in Hr as (h0 & [] & [Hg ->]%guard_not_Ok & Hr).
  apply tx_bind_Ok in Hr as (h0 & [] & [Hrev%bool_decide_eq_false ->]%guard_not_Ok & Hr).
  rewrite !orb_false_iff, negb_false_iff, bool_decide_eq_true, !bool_decide_eq_false in Hg.
  destruct Hg as [[[_ Hk] Ho] Hau].
  apply tx_bind_Ok in Hr as (h1 & [action metadata] & Ec & Hr).
  apply change_member_changes with (p := p) (id := id) (m := m) in Ec; [|done..|].
  - eapply rtc_l; [exact Ec|]. apply tx_bind_Ok in Hr as (h2 & [] & E3 & [-> _]%ret_Ok).
    by eapply does_audit_event.
  - intros r ->. unfold requested_change in Hc.
    destruct role_text as [x|], status_text as [y|]; try done.
    + unfold role_of_name in Hc. by repeat case_match; simplify_eq.
    + by destruct (status_of_name y).
Qed.

(** ** Invitations over the API *)

Lemma does_issue_invite claims t i r ttl now random : does (issue_invite claims t i r ttl now random).
Proof. unfold issue_invite. does_tac. Qed.
Lemma does_redeem_invite cf token e n l now random : does (redeem_invite cf token e n l now random).
Proof. unfold redeem_invite. does_tac. Qed.
Lemma does_accept claims token now random : does (accept_invite claims token now random).
Proof. unfold accept_invite. does_tac. Qed.

(** ** Recovery *)

Lemma does_use_recovery id now s :
  does (update_recoveries (λ k c, String.eqb k id && is_null (rc_consumed c) && is_null (rc_revoked c) && (now <? rc_expires c)%Z)
    (λ c, c {{ rc_consumed := Some now; rc_session := Some s }})).
Proof. apply does_change. intros h h' n E%update_changed. by eapply use_recovery. Qed.
#[local] Hint Resolve does_use_recovery : hub_does.

Lemma does_redeem_recovery cf proof label now random : does (redeem_device_recovery cf proof label now random).
Proof. unfold redeem_device_recovery. does_tac. Qed.

(** A claim that replaces the live ones of its principal. *)
Lemma replace_recoveries p now id r h h1 h' n u :
  rc_principal r = p →
  update_recoveries (λ _ c, String.eqb (rc_principal c) p && is_null (rc_consumed c) && is_null (rc_revoked c))
    (λ c, c {{ rc_revoked := Some now }}) h = Ok (h1, n) →
  insert_recovery id r h1 = Ok (h', u) → changes h h'.
Proof.
  intros Hp E%update_changed E2%insert_added.
  eapply rtc_l; [by eapply end_recoveries|]. eapply rtc_l; [|done]. eapply add_recovery; [exact E2|].
  intros j c Hj Hc Hcon Hrev. destruct E as [_ ->]. cbn in Hj. rewrite updated_rows_lookup in Hj.
  destruct (recoveries h !! j) as [c'|]; [|done]. cbn in Hj. apply (inj Some) in Hj as <-.
  destruct (_ && is_null (rc_revoked c')) eqn:E; [by destruct c'|].
  rewrite Hc, Hp, String.eqb_refl, Hcon, Hrev in E. done.
Qed.

Lemma does_issue_recovery e l t o now random : does (issue_device_recovery e l t o now random).
Proof.
  unfold issue_device_recovery. do 3 (apply does_bind; [auto with hub_does|intros ?]).
  destruct a1 as [|[k m] [|? ?]]; [apply does_fail| |apply does_fail].
  do 2 (apply does_bind; [auto with hub_does|intros ?]).
  unfold opaque_secret. intros h h' r Hr. apply tx_bind_Ok in Hr as (h1 & n & E & Hr).
  apply tx_bind_Ok in Hr as (h2 & [] & E2 & Hr).
  etrans; [by eapply (replace_recoveries (mb_principal m)); [|exact E|exact E2]|].
  does_rest Hr.
Qed.

(** ** Opening the store *)

Lemma does_bind_host b : does (bind_host b).
Proof.
  intros h h' u. unfold bind_host. destruct (_ && _) eqn:E; [|done]. intros [= <- _].
  eapply rtc_once, bind; [|done]. rewrite !andb_true_iff in E. destruct E as [[E _] _].
  by destruct (host h).
Qed.
#[local] Hint Resolve does_bind_host : hub_does.

Lemma does_initialize cf e b p now random : does (initialize cf e b p now random).
Proof. unfold initialize, host_identity. does_tac. Qed.
End admin.
