(* ===== verification/HubOrder.v ===== *)
(** * Team hub: what has happened stays

    The rows of the hub only move forward: a relation between the tables before
    and after, which every allowed change respects. *)
From S2P Require Import Prelude.
From S2P Require Import PyValues.
From S2P Require Import HubTokens.
From S2P Require Import Transactions.
From S2P Require Import HubTables.
From S2P Require Import HubAuth.
From S2P Require Import HubSessions.
From S2P Require Import HubAdmin.
From S2P Require Import HubChanges.

Open Scope string_scope.

(** What is set keeps its value. *)
Definition stays {A} (old new : option A) : Prop := ∀ a, old = Some a → new = Some a.
#[global] Instance stays_preorder {A} : PreOrder (@stays A).
Proof. split; [by intros x a|]. intros x y z Hxy Hyz a Ha. by apply Hyz, Hxy. Qed.

(** A pair of columns of which the first, once set, fixes both. *)
Definition fixed_once {A B} (old new : option A * B) : Prop := is_null old.1 = false → new = old.
#[global] Instance fixed_once_preorder {A B} : PreOrder (@fixed_once A B).
Proof.
  split; [by intros x|]. intros x y z Hxy Hyz Hx. pose proof (Hxy Hx) as ->. by apply Hyz.
Qed.

Lemma sticky_stays {A} `{EqDecision A} (old new : option A) : sticky old new = true → stays old new.
Proof.
  unfold sticky. intros Hs a ->. cbn in Hs. by apply bool_decide_eq_true in Hs as ->.
Qed.

(** ** Tables *)

Definition table_le {R} (le : relation R) : relation (gmap string R) := λ m m',
  ∀ k r, m !! k = Some r → ∃ r', m' !! k = Some r' ∧ le r r'.

#[global] Instance table_le_preorder {R} (le : relation R) `{!PreOrder le} : PreOrder (table_le le).
Proof.
  split.
  - intros m k r Hk. by exists r.
  - intros m1 m2 m3 H12 H23 k r Hk. destruct (H12 _ _ Hk) as (r2 & Hk2 & Hle).
    destruct (H23 _ _ Hk2) as (r3 & Hk3 & Hle'). exists r3. split; [done|by etrans].
Qed.

Lemma table_le_insert {R} (le : relation R) `{!PreOrder le} k r (m : gmap string R) :
  m !! k = None → table_le le m (<[k := r]> m).
Proof.
  intros Hk j r' Hj. exists r'. split; [|done]. rewrite lookup_insert_ne; [done|]. intros <-. congruence.
Qed.

Lemma table_le_set {R} (le : relation R) `{!PreOrder le} k r r' (m : gmap string R) :
  m !! k = Some r → le r r' → table_le le m (<[k := r']> m).
Proof.
  intros Hk Hle j x Hj. destruct (decide (j = k)) as [->|Hne].
  - exists r'. rewrite lookup_insert_eq. naive_solver.
  - exists x. by rewrite lookup_insert_ne.
Qed.

Lemma table_le_update {R} (le : relation R) `{!PreOrder le} P f (m : gmap string R) :
  (∀ k r, m !! k = Some r → P k r = true → le r (f r)) → table_le le m (updated_rows P f m).
Proof.
  intros Hf k r Hk. exists (if P k r then f r else r). rewrite updated_rows_lookup, Hk. split; [done|].
  destruct (P k r) eqn:E; [by eapply Hf|done].
Qed.

(** ** Rows *)

Definition principal_le (r r' : principal) : Prop :=
  pr_kind r' = pr_kind r ∧ pr_scope r' = pr_scope r ∧ (pr_status r = Revoked → pr_status r' = Revoked).

Definition membership_le (m m' : membership) : Prop :=
  mb_team m' = mb_team m ∧ mb_principal m' = mb_principal m ∧ mb_inviter m' = mb_inviter m
  ∧ mb_created m' = mb_created m ∧ (mb_status m = Revoked → mb_status m' = Revoked)
  ∧ (active_owner m = true → active_owner m' = true).

(** What an invitation grants, apart from its fate. *)
Definition authority (i : invitation) :=
  (iv_team i, iv_hash i, iv_email i, iv_role i, iv_issuer i, iv_expires i, iv_created i).

Definition invitation_le (i i' : invitation) : Prop :=
  authority i' = authority i ∧ fixed_once (iv_redeemed i, iv_redeemer i) (iv_redeemed i', iv_redeemer i')
  ∧ stays (iv_revoked i) (iv_revoked i').

Definition session_le (s s' : session) : Prop :=
  ds_human s' = ds_human s ∧ ds_created s' = ds_created s ∧ ds_expires s' = ds_expires s
  ∧ (ds_generation s <= ds_generation s')%Z ∧ (ds_seen s <= ds_seen s')%Z ∧ stays (ds_revoked s) (ds_revoked s').

Definition token_le (t t' : token) : Prop :=
  rt_session t' = rt_session t ∧ rt_hash t' = rt_hash t ∧ rt_generation t' = rt_generation t
  ∧ rt_created t' = rt_created t ∧ rt_expires t' = rt_expires t
  ∧ fixed_once (rt_consumed t, rt_next t) (rt_consumed t', rt_next t') ∧ stays (rt_revoked t) (rt_revoked t').

Definition recovery_le (c c' : recovery) : Prop :=
  rc_team c' = rc_team c ∧ rc_principal c' = rc_principal c ∧ rc_hash c' = rc_hash c
  ∧ rc_expires c' = rc_expires c
  ∧ fixed_once (rc_consumed c, rc_session c) (rc_consumed c', rc_session c') ∧ stays (rc_revoked c) (rc_revoked c').

Definition claim_le (c c' : claim) : Prop :=
  bc_hash c' = bc_hash c ∧ bc_expires c' = bc_expires c
  ∧ fixed_once (bc_consumed c, bc_principal c) (bc_consumed c', bc_principal c') ∧ stays (bc_revoked c) (bc_revoked c').

#[global] Instance principal_le_preorder : PreOrder principal_le.
Proof. split; [by intros ?|]. unfold principal_le. intros x y z. naive_solver congruence. Qed.
#[global] Instance membership_le_preorder : PreOrder membership_le.
Proof. split; [by intros ?|]. unfold membership_le. intros x y z. naive_solver congruence. Qed.
#[global] Instance invitation_le_preorder : PreOrder invitation_le.
Proof.
  split; [by intros ?|]. intros x y z (Ha & Hr & Hv) (Ha' & Hr' & Hv').
  repeat split; [congruence|by etrans..].
Qed.
#[global] Instance session_le_preorder : PreOrder session_le.
Proof.
  split; [by intros ?; repeat split|]. intros x y z (H1 & H2 & H3 & H4 & H5 & H6) (? & ? & ? & ? & ? & ?).
  repeat split; [congruence..|lia|lia|by etrans].
Qed.
#[global] Instance token_le_preorder : PreOrder token_le.
Proof.
  split; [by intros ?|]. intros x y z (H1 & H2 & H3 & H4 & H5 & H6 & H7) (? & ? & ? & ? & ? & ? & ?).
  repeat split; [congruence..|by etrans|by etrans].
Qed.
#[global] Instance recovery_le_preorder : PreOrder recovery_le.
Proof.
  split; [by intros ?|]. intros x y z (H1 & H2 & H3 & H4 & H5 & H6) (? & ? & ? & ? & ? & ?).
  repeat split; [congruence..|by etrans|by etrans].
Qed.
#[global] Instance claim_le_preorder : PreOrder claim_le.
Proof.
  split; [by intros ?|]. intros x y z (H1 & H2 & H3 & H4) (? & ? & ? & ?).
  repeat split; [congruence..|by etrans|by etrans].
Qed.

(** ** The hub *)

Record hub_le (h h' : hub) : Prop := {
  le_principals : table_le principal_le (principals h) (principals h');
  le_humans : table_le eq (humans h) (humans h');
  le_services : table_le eq (services h) (services h');
  le_teams : table_le eq (teams h) (teams h');
  le_memberships : table_le membership_le (memberships h) (memberships h');
  le_invitations : table_le invitation_le (invitations h) (invitations h');
  le_sessions : table_le session_le (sessions h) (sessions h');
  le_tokens : table_le token_le (tokens h) (tokens h');
  le_jtis : table_le eq (jtis h) (jtis h');
  le_recoveries : table_le recovery_le (recoveries h) (recoveries h');
  le_claims : table_le claim_le (claims h) (claims h');
  le_events : table_le eq (events h) (events h');
}.

#[global] Instance hub_le_preorder : PreOrder hub_le.
Proof.
  split.
  - intros h. split; reflexivity.
  - intros h1 h2 h3 [] []. split; by etrans.
Qed.

(** A change of one table: the others are as they were. *)
Ltac le_one := split; cbn; try reflexivity.

Section changes.
Context `{HubCrypto}.

Lemma membership_update_le h k m m' :
  mb_team m' = mb_team m → mb_principal m' = mb_principal m → mb_inviter m' = mb_inviter m →
  mb_created m' = mb_created m → membership_update_ok h k m m' = true → membership_le m m'.
Proof.
  intros H1 H2 H3 H4 Hok. unfold membership_update_ok in Hok. rewrite !andb_true_iff in Hok.
  destruct Hok as [[[[_ Hr] Ho] _] _]. repeat split; try done.
  - intros E. rewrite (bool_decide_true _ E) in Hr. by apply bool_decide_eq_true in Hr.
  - intros E. rewrite E in Ho. by destruct (active_owner m').
Qed.

Lemma principal_update_le h k r r' :
  pr_kind r' = pr_kind r → pr_scope r' = pr_scope r → principal_update_ok h k r r' = true → principal_le r r'.
Proof.
  intros H1 H2 Hok. unfold principal_update_ok in Hok. rewrite !andb_true_iff in Hok.
  destruct Hok as [[_ Hr] _]. repeat split; try done.
  intros E. rewrite (bool_decide_true _ E) in Hr. by apply bool_decide_eq_true in Hr.
Qed.

Lemma added_le {R} (rows : hub → gmap string R) set ok k r h h' (le : relation R) `{!PreOrder le} :
  added rows set ok k r h h' → table_le le (rows h) (<[k := r]> (rows h)).
Proof. intros (Hk & _). by apply table_le_insert. Qed.

Lemma sticky_unset {A} `{EqDecision A} (o : option A) x : is_null o = true → stays o (Some x).
Proof. by destruct o. Qed.

(** A column that was [NULL] takes a value. *)
Lemma fixed_once_unset {A B} (o : option A) (b : B) y : is_null o = true → fixed_once (o, b) y.
Proof. intros Ho Hn. cbn in Hn. congruence. Qed.

Lemma redeemed_le h id i p now : invitations h !! id = Some i → pending now i = true →
  table_le invitation_le (invitations h) (<[id := redeemed p now i]> (invitations h)).
Proof.
  intros Hid Hp. eapply table_le_set; [apply _|exact Hid|]. unfold pending in Hp. rewrite !andb_true_iff in Hp.
  destruct Hp as [[Hr _] _]. repeat split; [by apply fixed_once_unset|done].
Qed.

Lemma invitations_end_le P now (m : gmap string invitation) :
  table_le invitation_le m (updated_rows (λ k i, P k i && pending now i) (λ i, i {{ iv_revoked := Some now }}) m).
Proof.
  apply table_le_update; [apply _|]. intros k i _ Hp. unfold pending in Hp. rewrite !andb_true_iff in Hp.
  destruct Hp as [_ [[_ Hv] _]]. repeat split. by apply sticky_unset.
Qed.

Lemma sessions_end_le chosen now (m : gmap string session) :
  table_le session_le m (updated_rows (λ k s, chosen k && is_null (ds_revoked s)) (λ s, s {{ ds_revoked := Some now }}) m).
Proof.
  apply table_le_update; [apply _|]. intros k s _ [_ Hv]%andb_true_iff.
  repeat split; [done|done|]. by apply sticky_unset.
Qed.

Lemma tokens_end_le chosen now (m : gmap string token) :
  table_le token_le m (updated_rows (λ _ t, chosen (rt_session t) && is_null (rt_consumed t) && is_null (rt_revoked t))
    (λ t, t {{ rt_revoked := Some now }}) m).
Proof.
  apply table_le_update; [apply _|]. intros k t _ [_ Hv]%andb_true_iff.
  repeat split. by apply sticky_unset.
Qed.

Lemma membership_change_le h h' P f :
  changed memberships set_memberships membership_update_ok P f h h' →
  (∀ m, mb_team (f m) = mb_team m ∧ mb_principal (f m) = mb_principal m ∧ mb_inviter (f m) = mb_inviter m
        ∧ mb_created (f m) = mb_created m) →
  hub_le h h'.
Proof.
  intros [Hok ->] Hf. le_one. apply table_le_update; [apply _|]. intros k m Hk HP.
  destruct (Hf m) as (? & ? & ? & ?). eapply membership_update_le; by try apply Hok.
Qed.

Lemma principal_change_le h h' P f :
  changed principals set_principals principal_update_ok P f h h' →
  (∀ r, pr_kind (f r) = pr_kind r ∧ pr_scope (f r) = pr_scope r) → hub_le h h'.
Proof.
  intros [Hok ->] Hf. le_one. apply table_le_update; [apply _|]. intros k r Hk HP.
  destruct (Hf r). eapply principal_update_le; by try apply Hok.
Qed.

Lemma recovery_change_le h h' P f :
  changed recoveries set_recoveries recovery_update_ok P f h h' →
  (∀ k c, P k c = true → recovery_le c (f c)) → hub_le h h'.
Proof. intros [_ ->] Hf. le_one. apply table_le_update; [apply _|]. eauto. Qed.

Lemma claim_change_le h h' P f :
  changed claims set_claims claim_update_ok P f h h' →
  (∀ k c, P k c = true → claim_le c (f c)) → hub_le h h'.
Proof. intros [_ ->] Hf. le_one. apply table_le_update; [apply _|]. eauto. Qed.

(** Nothing an allowed change touches goes back. *)
Lemma change_le h h' : change h h' → hub_le h h'.
Proof.
  destruct 1 as [h h' k r Ha _|h h' k r Ha|h h' k r Ha|h h' p l now Hc|h h1 h' k t id m Ha Hb _ _ _ _
    |h h' id m Ha _ _ _|h h' k i Ha _|h h1 h' id i p now mid m Hr Ha _ ->|h h' id i p now mid m Hr _ _ _ _ ->
    |h h' P now Hc|h h' t p r now _ _ _ Hc|h h' t p s now _ Hc|h h' t p now Hc|h h' p now Hc
    |h h1 h' id s tid t Ha Hb _ _ _ _ _
    |h h1 h' id t s now next t' Ht Hs Hrep Hv Hv' Hx Hp Ha _ _ _ Hok Hok' ->
    |h h' ch now _ ->|h h' k r Hk _ ->|h h' k r Ha _|h h' p now Hc|h h' k now id Hc|h h' k r Ha|h h' k r Ha
    |h h' P now Hc|h h' k now p Hc|h h' k n Ha|h h' P f Hc Hf|h h' k b Ha|h h' P now Hc|h h' b _ ->|
    |h h1 h' id e Ha _ ->].
  all: try (destruct Ha as (Hk & _ & ->)); try (destruct Hb as (Hk' & _ & ->)).
  all: try (le_one; apply table_le_insert; solve [apply _|done]).
  all: try (eapply principal_change_le; [exact Hc|by intros []]).
  all: try (eapply membership_change_le; [exact Hc|by intros []]).
  all: try (destruct Hc as [_ ->]; le_one; done).
  all: try by (eapply recovery_change_le; [exact Hc|intros j c Hj; rewrite !andb_true_iff in Hj;
    destruct_and! Hj; repeat split; first [done|by apply fixed_once_unset|by apply sticky_unset]]).
  all: try by (eapply claim_change_le; [exact Hc|intros j c Hj; unfold live_claim in Hj; rewrite !andb_true_iff in Hj;
    destruct_and! Hj; repeat split; first [done|by apply fixed_once_unset|by apply sticky_unset]]).
  - destruct Hr. le_one; [by apply table_le_insert; [apply _|]|by apply redeemed_le].
  - destruct Hr. le_one. by apply redeemed_le.
  - destruct Hc as [_ ->]. le_one. apply invitations_end_le.
  - le_one.
    + eapply table_le_set; [apply _|exact Hs|]. unfold session_update_ok in Hok'.
      rewrite !andb_true_iff in Hok'. cbn in Hok'. repeat split; [cbn; lia..|done].
    + etrans; [by apply table_le_insert; [apply _|]|]. eapply table_le_set; [apply _| |].
      * rewrite lookup_insert_ne; [exact Ht|]. intros <-. congruence.
      * unfold replayed in Hrep. rewrite orb_false_iff, !negb_false_iff in Hrep.
        repeat split; [|done]. apply fixed_once_unset. apply Hrep.
  - le_one; [apply sessions_end_le|apply tokens_end_le].
Qed.

Lemma changes_le h h' : changes h h' → hub_le h h'.
Proof. induction 1 as [h|h1 h2 h3 Hc _ IH]; [done|]. etrans; [by apply change_le|exact IH]. Qed.
End changes.
