(* ===== verification/HubSessionsWf.v ===== *)
(** * Team hub: the refresh tokens of a session

    In every state the hub can reach, the tokens of a session are its
    generations, each consumed but the last, and the last is live exactly as
    long as the session is not revoked. *)
From S2P Require Import Prelude.
From S2P Require Import PyValues.
From S2P Require Import HubTokens.
From S2P Require Import Transactions.
From S2P Require Import HubTables.
From S2P Require Import HubAuth.
From S2P Require Import HubServers.
From S2P Require Import HubSessions.
From S2P Require Import HubAdmin.
From S2P Require Import HubChanges.
From S2P Require Import HubSteps.

Open Scope string_scope.

(** The sessions [S] and the refresh tokens [T]. *)
Record tokens_wf (S : gmap string session) (T : gmap string token) : Prop := {
  wf_session k t : T !! k = Some t → ∃ s, S !! rt_session t = Some s
    ∧ (0 <= rt_generation t <= ds_generation s)%Z
    ∧ (rt_consumed t = None ↔ rt_generation t = ds_generation s)
    ∧ (rt_consumed t = None → (ds_revoked s = None ↔ rt_revoked t = None))
    ∧ rt_expires t = ds_expires s;
  wf_hash j k t t' : T !! j = Some t → T !! k = Some t' → rt_hash t = rt_hash t' → j = k;
  wf_generation j k t t' : T !! j = Some t → T !! k = Some t' →
    rt_session t = rt_session t' → rt_generation t = rt_generation t' → j = k;
  wf_positive id s : S !! id = Some s → (0 <= ds_generation s)%Z;
  wf_full id s g : S !! id = Some s → (0 <= g <= ds_generation s)%Z →
    ∃ k t, T !! k = Some t ∧ rt_session t = id ∧ rt_generation t = g;
}.

Definition sessions_wf (h : hub) : Prop := tokens_wf (sessions h) (tokens h).

(** A token that shares neither its digest nor its generation. *)
Definition fresh_token (T : gmap string token) (t : token) : Prop := ∀ j t', T !! j = Some t' →
  rt_hash t' ≠ rt_hash t ∧ ¬ (rt_session t' = rt_session t ∧ rt_generation t' = rt_generation t).

Lemma taken_false {R A} `{EqDecision A} (f : R → A) r (m : gmap string R) k r' :
  taken f r m = false → m !! k = Some r' → f r' ≠ f r.
Proof.
  unfold taken. intros Hf Hk. rewrite exists_row_false in Hf. specialize (Hf _ _ Hk). cbn in Hf.
  by apply bool_decide_eq_false in Hf.
Qed.

Lemma token_ok_fresh h k t : token_ok h k t = true →
  fresh_token (tokens h) t ∧ rt_consumed t = None ∧ rt_revoked t = None.
Proof.
  unfold token_ok. rewrite !andb_true_iff, !negb_true_iff. intros H0. destruct_and! H0.
  split; [|by destruct (rt_consumed t), (rt_revoked t)].
  intros j t' Hj. split; [by eapply (taken_false rt_hash)|]. intros [E1 E2].
  eapply (taken_false (λ t, (rt_session t, rt_generation t))); [eassumption|exact Hj|].
  cbn. congruence.
Qed.

(** Digests and generations stay unique when a fresh token is added. *)
Lemma fresh_unique T k t :
  fresh_token T t →
  (∀ j k t t', T !! j = Some t → T !! k = Some t' → rt_hash t = rt_hash t' → j = k) →
  (∀ j k t t', T !! j = Some t → T !! k = Some t' →
     rt_session t = rt_session t' → rt_generation t = rt_generation t' → j = k) →
  (∀ i j t1 t2, <[k := t]> T !! i = Some t1 → <[k := t]> T !! j = Some t2 → rt_hash t1 = rt_hash t2 → i = j)
  ∧ (∀ i j t1 t2, <[k := t]> T !! i = Some t1 → <[k := t]> T !! j = Some t2 →
     rt_session t1 = rt_session t2 → rt_generation t1 = rt_generation t2 → i = j).
Proof.
  intros Hu Hh Hg. split; intros i j t1 t2; rewrite !lookup_insert_Some;
    intros [[<- <-]|[_ Hi]] [[<- <-]|[_ Hj]]; try done.
  - intros E. by destruct (Hu _ _ Hj) as [[] _].
  - intros E. by destruct (Hu _ _ Hi) as [[] _].
  - by apply Hh.
  - intros E1 E2. by destruct (Hu _ _ Hj) as [_ []].
  - intros E1 E2. by destruct (Hu _ _ Hi) as [_ []].
  - by apply Hg.
Qed.

Lemma open_wf S T id s tid t :
  tokens_wf S T → S !! id = None → T !! tid = None → fresh_token T t → rt_consumed t = None → rt_revoked t = None →
  ds_generation s = 0%Z → ds_revoked s = None → rt_session t = id → rt_generation t = 0%Z → rt_expires t = ds_expires s →
  tokens_wf (<[id := s]> S) (<[tid := t]> T).
Proof.
  intros [Hs Hh Hg Hpos Hf] Hid Htid Hu Hc Hr Hgen Hlive Hses Hzero Hexp.
  destruct (fresh_unique T tid t Hu Hh Hg) as [Hh' Hg']. split; [| exact Hh' | exact Hg' | |].
  - intros k t'. rewrite lookup_insert_Some. intros [[<- <-]|[Hne Hk]].
    + exists s. rewrite Hgen, Hzero, Hlive, Hc, Hr, Hses. by rewrite lookup_insert_eq.
    + destruct (Hs _ _ Hk) as (s' & Hs' & Hrest). exists s'.
      rewrite lookup_insert_ne; [done|]. congruence.
  - intros id' s'. rewrite lookup_insert_Some. intros [[_ <-]|[_ Hs']]; [lia|by eapply Hpos].
  - intros id' s' g. rewrite lookup_insert_Some. intros [[<- <-]|[Hne Hs']] Hrange.
    + exists tid, t. rewrite lookup_insert_eq. repeat split; [done|lia].
    + destruct (Hf _ _ _ Hs' Hrange) as (k & t' & Hk & Hrest). exists k, t'.
      rewrite lookup_insert_ne; [done|]. intros <-. congruence.
Qed.

(** Columns other than [rt_session], [rt_hash] and [rt_generation] change. *)
Definition same_place (t t' : token) : Prop :=
  rt_session t' = rt_session t ∧ rt_hash t' = rt_hash t ∧ rt_generation t' = rt_generation t.

(** A rotation consumes [t] and adds [t'] of the next generation. *)
Lemma rotate_wf S T id s s2 t t2 next t' :
  tokens_wf S T → T !! id = Some t → S !! rt_session t = Some s → replayed t s = false →
  ds_revoked s = None → T !! next = None → fresh_token T t' → rt_consumed t' = None → rt_revoked t' = None →
  rt_session t' = rt_session t → rt_generation t' = (rt_generation t + 1)%Z → rt_expires t' = ds_expires s →
  same_place t t2 → rt_consumed t2 ≠ None → rt_expires t2 = rt_expires t →
  ds_generation s2 = (rt_generation t + 1)%Z → ds_revoked s2 = ds_revoked s → ds_expires s2 = ds_expires s →
  tokens_wf (<[rt_session t := s2]> S) (<[id := t2]> (<[next := t']> T)).
Proof.
  intros [Hs Hh Hg Hpos Hf] Hid Hses Hrep Hv' Hn Hu Hc Hr Et Eg Ee Hsame Hc2 He2 Hg2 Hv2 Hx2.
  unfold replayed in Hrep. rewrite orb_false_iff, !negb_false_iff, Z.eqb_eq in Hrep. destruct Hrep as [Hcon Hgen].
  assert (id ≠ next) as Hne by congruence.
  destruct (Hs _ _ Hid) as (s0 & Hs0 & Hrange0 & _ & _ & He). assert (s0 = s) as -> by congruence.
  destruct (fresh_unique T next t' Hu Hh Hg) as [Hh' Hg'].
  assert (∀ k u, <[id := t2]> (<[next := t']> T) !! k = Some u →
    ∃ u0, <[next := t']> T !! k = Some u0 ∧ same_place u0 u) as Hold.
  { intros k u. rewrite lookup_insert_Some. intros [[<- <-]|[_ Hk]]; [|by exists u].
    exists t. by rewrite lookup_insert_ne. }
  split.
  - intros k u. rewrite !lookup_insert_Some. intros [[<- <-]|[Hk1 [[<- <-]|[Hk2 Hk]]]].
    + destruct Hsame as (-> & _ & ->). exists s2. rewrite lookup_insert_eq, Hg2, He2, Hx2.
      repeat split; try done; try lia; intros; first [done|lia].
    + exists s2. rewrite Et, lookup_insert_eq, Eg, Hg2, Hv2, Hv', Hr, Hc, Hx2.
      repeat split; try done; lia.
    + destruct (Hs _ _ Hk) as (s1 & Hs1 & Hrest). destruct (decide (rt_session u = rt_session t)) as [E|E].
      * rewrite E, lookup_insert_eq. exists s2. split; [done|]. assert (s1 = s) as -> by congruence.
        destruct Hrest as (? & Hiff & _ & Hexp).
        assert (rt_generation u ≠ rt_generation t) as Hng by (intros E2; by apply Hk1; eapply Hg).
        assert (rt_consumed u ≠ None) as Hcu by (intros Hz%Hiff; lia).
        rewrite Hg2, Hx2. repeat split; try done; lia.
      * exists s1. by rewrite lookup_insert_ne.
  - intros j k u u' (u0 & Hj & _ & E0 & _)%Hold (u1 & Hk & _ & E1 & _)%Hold E. eapply Hh'; [done..|congruence].
  - intros j k u u' (u0 & Hj & A0 & _ & B0)%Hold (u1 & Hk & A1 & _ & B1)%Hold E E'.
    eapply Hg'; [done..|congruence|congruence].
  - intros sid s'. rewrite lookup_insert_Some. intros [[_ <-]|[_ Hs']]; [lia|by eapply Hpos].
  - intros sid s' g Hs' Hrange.
    assert (∃ k u, <[next := t']> T !! k = Some u ∧ rt_session u = sid ∧ rt_generation u = g) as (k & u & Hk & E1 & E2).
    { apply lookup_insert_Some in Hs' as [[<- <-]|[_ Hs']].
      - destruct (decide (g = rt_generation t + 1)%Z) as [->|].
        + exists next, t'. by rewrite lookup_insert_eq.
        + destruct (Hf _ _ g Hses) as (k & u & Hk & Hu2); [lia|]. exists k, u.
          rewrite lookup_insert_ne; [done|]. congruence.
      - destruct (Hf _ _ g Hs' Hrange) as (k & u & Hk & Hu2). exists k, u.
        rewrite lookup_insert_ne; [done|]. congruence. }
    destruct (decide (k = id)) as [->|Hki].
    + rewrite lookup_insert_ne in Hk by congruence. assert (u = t) as -> by congruence.
      exists id, t2. rewrite lookup_insert_eq. destruct Hsame as (-> & _ & ->). by split.
    + exists k, u. by rewrite lookup_insert_ne.
Qed.

Lemma end_wf h chosen now : sessions_wf h → sessions_wf (ended_sessions chosen now h).
Proof.
  intros [Hs Hh Hg Hpos Hf].
  assert (∀ k t, tokens (ended_sessions chosen now h) !! k = Some t →
    ∃ t0, tokens h !! k = Some t0 ∧ same_place t0 t ∧ rt_consumed t = rt_consumed t0 ∧ rt_expires t = rt_expires t0
      ∧ rt_revoked t = if chosen (rt_session t0) && is_null (rt_consumed t0) && is_null (rt_revoked t0)
                       then Some now else rt_revoked t0) as Hold.
  { intros k t. cbn. rewrite updated_rows_lookup. destruct (tokens h !! k) as [t0|]; [|done]. cbn.
    intros E%(inj Some). exists t0. split; [done|]. by destruct (_ && is_null (rt_revoked t0)); subst t. }
  assert (∀ k s0, sessions h !! k = Some s0 → ∃ s, sessions (ended_sessions chosen now h) !! k = Some s
      ∧ ds_generation s = ds_generation s0 ∧ ds_expires s = ds_expires s0
      ∧ ds_revoked s = if chosen k && is_null (ds_revoked s0) then Some now else ds_revoked s0) as Hnew.
  { intros k s0 Hk. eexists. cbn. rewrite updated_rows_lookup, Hk. split; [done|]. by destruct (_ && _). }
  split.
  - intros k t (t0 & Hk & (E1 & _ & E2) & E3 & E4 & E5)%Hold. destruct (Hs _ _ Hk) as (s0 & Hs0 & H1 & H2 & H3 & H4).
    destruct (Hnew _ _ Hs0) as (s & Hsn & F1 & F2 & F3). exists s.
    rewrite E1, E2, E3, E4, E5, F1, F2, F3. refine (conj Hsn (conj H1 (conj H2 (conj _ H4)))).
    intros Hn. specialize (H3 Hn). rewrite Hn.
    destruct (chosen _), (ds_revoked s0), (rt_revoked t0); cbn; intuition congruence.
  - intros j k u u' (u0 & Hj & (_ & E0 & _) & _)%Hold (u1 & Hk & (_ & E1 & _) & _)%Hold E. eapply Hh; [done..|congruence].
  - intros j k u u' (u0 & Hj & (A0 & _ & B0) & _)%Hold (u1 & Hk & (A1 & _ & B1) & _)%Hold E E'.
    eapply Hg; [done..|congruence|congruence].
  - intros id s. cbn. rewrite updated_rows_lookup. destruct (sessions h !! id) as [s0|] eqn:E; [|done].
    cbn. intros <-%(inj Some). pose proof (Hpos _ _ E). by destruct (_ && _).
  - intros id s g Hsn Hrange. cbn in Hsn. rewrite updated_rows_lookup in Hsn.
    destruct (sessions h !! id) as [s0|] eqn:E; [|done]. cbn in Hsn. apply (inj Some) in Hsn as <-.
    destruct (Hf _ _ g E) as (k & t & Hk & E1 & E2); [by destruct (_ && _)|].
    eexists k, _. cbn. rewrite updated_rows_lookup, Hk. split; [done|]. destruct t; cbn in *; by destruct (chosen _ && is_null _ && is_null _).
Qed.

Section wf.
Context `{HubCrypto}.

Lemma change_sessions_wf h h' : change h h' → sessions_wf h → sessions_wf h'.
Proof.
  intros Hc Hwf. change_cases Hc; try exact Hwf.
  - apply token_ok_fresh in Hadd' as (Hu & Hcon & Hrev). unfold sessions_wf. cbn. by apply open_wf.
  - apply token_ok_fresh in Hadd as (Hu & Hcon & Hrev). unfold sessions_wf. cbn. eapply rotate_wf; try done; by destruct t, s.
  - by apply end_wf.
Qed.

Lemma changes_sessions_wf h h' : changes h h' → sessions_wf h → sessions_wf h'.
Proof. induction 1; [done|]. intros. eauto using change_sessions_wf. Qed.
End wf.
