(* ===== verification/HubRuns.v ===== *)
(** * Team hub: the calls, and the states they reach

    Every call of the modelled part of [HubStore] with its arguments, what it
    leaves of the tables, and the states a hub gets into when calls are made in
    any order, at any time and with any random bytes, among what the rest of
    the store does to these tables. *)
From S2P Require Import Prelude.
From S2P Require Import PyValues.
From S2P Require Import HubTokens.
From S2P Require Import Transactions.
From S2P Require Import HubTables.
From S2P Require Import HubAuth.
From S2P Require Import HubServers.
From S2P Require Import HubSessions.
From S2P Require Import HubAdmin.
From S2P Require Import HubChanges.
From S2P Require Import HubSteps.
From S2P Require Import HubAdminSteps.
From S2P Require Import HubOrder.

Open Scope string_scope.

Inductive call :=
| Initialize (expected : option string) (allow_bound : bool) (proof : option string)
| RenewBootstrapProof
| IssueTailnetProof (q : delegation_request)
| Bootstrap (q : bootstrap_request)
| BootstrapManagedNetwork (name : string)
| RenameManagedHost (name : string)
| EnsurePeer (peer identity team name : string)
| RevokePeer (peer team : string)
| Heartbeat (peer team : string)
| ExpireLeases
| IssueInvite (claims : access_claims) (team invitee role : string) (ttl : Z)
| RevokeInvitation (claims : access_claims) (team invitation : string)
| RedeemInvite (token email name label : string)
| AcceptInvite (claims : access_claims) (token : string)
| UpdateMembership (claims : access_claims) (team p : string) (role status : option string)
| Refresh (token : string)
| RevokeSession (claims : access_claims) (token : string)
| RevokeDeviceSession (claims : access_claims) (device : string)
| IssueRecovery (email label : string) (team : option string) (owner : bool)
| RedeemRecovery (proof label : string).

Section runs.
Context `{HubCrypto}.

(** The transaction of a call, its result left out. *)
Definition quiet {A} (m : tx A) : hub → hub := λ h, (run m h).1.

(** The tables a call leaves. *)
Definition perform (cf : config) (c : call) (now : Z) (random : nat → string) : hub → hub :=
  match c with
  | Initialize expected allow proof => quiet (initialize cf expected allow proof now random)
  | RenewBootstrapProof => quiet (renew_bootstrap_proof cf now random)
  | IssueTailnetProof q => quiet (issue_tailnet_bootstrap_proof cf q now random)
  | Bootstrap q => quiet (bootstrap cf q now random)
  | BootstrapManagedNetwork name => quiet (bootstrap_managed_network cf name now random)
  | RenameManagedHost name => quiet (rename_managed_host cf name now random)
  | EnsurePeer peer identity team name => quiet (ensure_secure_peer_service cf peer identity team name now random)
  | RevokePeer peer team => quiet (revoke_secure_peer_service peer team now)
  | Heartbeat peer team => quiet (record_secure_peer_heartbeat peer team now)
  | ExpireLeases => quiet (expire_secure_peer_leases now)
  | IssueInvite claims team invitee role ttl => quiet (issue_invite claims team invitee role ttl now random)
  | RevokeInvitation claims team i => quiet (revoke_invitation claims team i now random)
  | RedeemInvite token email name label => quiet (redeem_invite cf token email name label now random)
  | AcceptInvite claims token => quiet (accept_invite claims token now random)
  | UpdateMembership claims team p role status => quiet (update_human_membership claims team p role status now random)
  | Refresh token => λ h, (refresh cf token now random h).1
  | RevokeSession claims token => quiet (revoke_session claims token now random)
  | RevokeDeviceSession claims device => quiet (revoke_device_session claims device now random)
  | IssueRecovery email label team owner => quiet (issue_device_recovery email label team owner now random)
  | RedeemRecovery proof label => quiet (redeem_device_recovery cf proof label now random)
  end.

(** What the rest of the store does to these tables: servers and agents enroll
    and are renamed, channels are opened, a snapshot revokes remote proofs, and
    events are recorded. *)
Inductive elsewhere : relation hub :=
| other_principal k r h h' : pr_status r = Active → added principals set_principals principal_ok k r h h' → elsewhere h h'
| other_node k n h h' : added nodes set_nodes node_ok k n h h' → elsewhere h h'
| other_name p label now h h' :
    changed principals set_principals principal_update_ok (λ k _, String.eqb k p)
      (λ r, r {{ pr_name := label; pr_updated := now }}) h h' → elsewhere h h'
| other_node_name id label h h' :
    changed nodes set_nodes node_update_ok (λ k _, String.eqb k id) (λ n, n {{ nd_name := label }}) h h' → elsewhere h h'
| other_board cs al bs h : elsewhere h (set_boards bs (set_acls al (set_channels cs h)))
| snapshot now h h' :
    changed claims set_claims claim_update_ok
      (λ k c, present (delegations h) k && is_null (bc_consumed c) && is_null (bc_revoked c))
      (λ c, c {{ bc_revoked := Some now }}) h h' → elsewhere h h'
| other_event e random h h' : audit e random h = Ok (h', tt) → elsewhere h h'.

Inductive hub_step : relation hub :=
| by_call cf c now random h : hub_step h (perform cf c now random h)
| by_others h h' : elsewhere h h' → hub_step h h'.

Definition no_hub : hub := mkHub ∅ ∅ ∅ ∅ ∅ ∅ ∅ ∅ ∅ ∅ ∅ ∅ ∅ ∅ ∅ ∅ ∅ None ∅ ∅.

(** A hub that began with an empty database. *)
Definition reachable (h : hub) : Prop := rtc hub_step no_hub h.

(** ** Calls are allowed changes *)

Lemma elsewhere_change h h' : elsewhere h h' → change h h'.
Proof.
  destruct 1.
  - by eapply add_principal.
  - by eapply add_node.
  - by eapply rename.
  - eapply change_nodes; [eassumption|by intros []].
  - apply change_board.
  - by eapply (end_claims _ _ (λ k _, present (delegations h) k)).
  - by eapply audit_ok.
Qed.

Lemma quiet_changes {A} (m : tx A) h : does m → changes h (quiet m h).
Proof.
  intros Hm. unfold quiet, run. destruct (m h) as [[h' a]|e] eqn:E; [by eapply Hm|done].
Qed.

Lemma refresh_changes cf token now random h : changes h (refresh cf token now random h).1.
Proof.
  unfold refresh. destruct (token_hash token) as [d|e]; [|by destruct e].
  destruct (token_row d h) as [[[id t] s]|] eqn:Er; [|done].
  apply token_row_found in Er as (Hid & _ & Hs). destruct (replayed t s) eqn:Hrep.
  - destruct (punish t s now random h) as [[h' u]|e] eqn:E; [by eapply does_punish|done].
  - unfold run. destruct (rotate cf id t s now random h) as [[h' b]|e] eqn:E; [|done].
    eapply rotate_changes in E as (h1 & Hc & Hcs & _); [|done..]. by eapply rtc_l.
Qed.

#[local] Hint Resolve does_initialize does_renew does_issue_tailnet does_bootstrap does_managed_network does_rename_host
  does_peer_service does_revoke_peer does_heartbeat does_expire does_issue_invite does_revoke_invitation
  does_redeem_invite does_accept does_revoke_session does_revoke_device does_issue_recovery does_redeem_recovery : core.

Lemma perform_changes cf c now random h : one_membership h → changes h (perform cf c now random h).
Proof.
  intros Hone. destruct c; cbn [perform]; try (apply quiet_changes; solve [auto]).
  - unfold quiet, run.
    destruct (update_human_membership claims team p role status now random h) as [[h' a]|e] eqn:E; [|done].
    by eapply update_member_changes.
  - apply refresh_changes.
Qed.

(** ** One membership per account and team *)

Lemma membership_ok_new h k m j m' : membership_ok h k m = true → memberships h !! j = Some m' →
  mb_team m' = mb_team m → mb_principal m' = mb_principal m → False.
Proof.
  unfold membership_ok, has_membership. rewrite !andb_true_iff, !negb_true_iff. intros H0 Hj E1 E2. destruct_and! H0.
  match goal with Hx : exists_row _ _ = false |- _ => rewrite exists_row_false in Hx; specialize (Hx _ _ Hj); cbn in Hx end.
  enough (is_member (mb_team m) (mb_principal m) m' = true) by congruence. by apply is_member_true.
Qed.

Lemma one_membership_add k m h h' :
  added memberships set_memberships membership_ok k m h h' → one_membership h → one_membership h'.
Proof.
  intros (Hk & Hok & ->) Hone i j x y. cbn. rewrite !lookup_insert_Some.
  intros [[<- <-]|[_ Hi]] [[<- <-]|[_ Hj]] E1 E2; [done|exfalso..|by eapply Hone].
  - by eapply membership_ok_new.
  - by eapply membership_ok_new.
Qed.

Lemma one_membership_update h P f :
  (∀ m, mb_team (f m) = mb_team m ∧ mb_principal (f m) = mb_principal m) →
  one_membership h → one_membership (set_memberships (updated_rows P f (memberships h)) h).
Proof.
  intros Hf Hone i j x y. cbn. rewrite !updated_rows_lookup.
  destruct (memberships h !! i) as [x0|] eqn:Hi; [|done]. destruct (memberships h !! j) as [y0|] eqn:Hj; [|done].
  cbn. intros <-%(inj Some) <-%(inj Some). destruct (Hf x0) as [E1 E2], (Hf y0) as [E3 E4].
  intros E5 E6. eapply Hone; [done..| |]; destruct (P i x0), (P j y0); congruence.
Qed.

Lemma change_one_membership h h' : change h h' → one_membership h → one_membership h'.
Proof.
  intros Hc Huniq.
  change_cases Hc; try exact Huniq; try (apply one_membership_update; [by intros []|exact Huniq]).
  - eapply (one_membership_add id m (set_teams (<[k:=t]> (teams h)) h)); [by repeat split|exact Huniq].
  - eapply (one_membership_add id m h); [by repeat split|exact Huniq].
  - apply (one_membership_add mid m h (set_memberships (<[mid:=m]> (memberships h)) h)); [by repeat split|exact Huniq].
Qed.

Lemma changes_one_membership h h' : changes h h' → one_membership h → one_membership h'.
Proof. induction 1 as [|h1 h2 h3 Hc _ IH]; [done|]. intros Huniq. by eapply IH, change_one_membership. Qed.

Lemma step_changes h h' : one_membership h → hub_step h h' → changes h h'.
Proof.
  intros Huniq Hs. destruct Hs as [cf c now random h|h h' Hs]; [by apply perform_changes|].
  by apply rtc_once, elsewhere_change.
Qed.

Lemma steps_changes h h' : one_membership h → rtc hub_step h h' → changes h h'.
Proof.
  intros Hone Hs. induction Hs as [h|h1 h2 h3 Hs _ IH]; [done|].
  pose proof (step_changes _ _ Hone Hs) as Hc. etrans; [exact Hc|].
  apply IH. by eapply changes_one_membership.
Qed.

Lemma reachable_changes h : reachable h → changes no_hub h ∧ one_membership h.
Proof.
  intros Hr. assert (one_membership no_hub) as Hone by done.
  split; [by apply steps_changes|]. eapply changes_one_membership; [by apply steps_changes|done].
Qed.

Lemma reachable_step h h' : reachable h → rtc hub_step h h' → reachable h' ∧ changes h h' ∧ hub_le h h'.
Proof.
  intros Hr Hs. split; [unfold reachable in *; by etrans|]. pose proof (steps_changes h h' (proj2 (reachable_changes h Hr)) Hs) as Hc.
  split; [done|by apply changes_le].
Qed.

(** An invariant of allowed changes holds in every state a hub reaches. *)
Lemma hub_invariant (I : hub → Prop) :
  I no_hub → (∀ h h', change h h' → one_membership h → I h → I h') → ∀ h, reachable h → I h.
Proof.
  intros H0 Hstep h [Hc _]%reachable_changes.
  assert (one_membership no_hub) as Hone by done. revert H0 Hone Hc. generalize no_hub. intros g Hg Hone Hc.
  induction Hc as [|h1 h2 h3 Hc _ IH]; [done|]. apply IH; [by eapply Hstep|by eapply change_one_membership].
Qed.
End runs.
