(* ===== verification/HubSessionEnds.v ===== *)
(** * Team hub: a refresh token works once, an ended session stays ended

    What clients rely on: a refresh token that was used is worth nothing, and
    whoever presents it again ends the session; a session that ended by logout,
    from another device, by a replay or by recovery is never usable again. *)
From S2P Require Import Prelude.
From S2P Require Import PyValues.
From S2P Require Import HubTokens.
From S2P Require Import Transactions.
From S2P Require Import HubTables.
From S2P Require Import HubAuth.
From S2P Require Import HubServers.
From S2P Require Import HubSessions.
From S2P Require Import HubAdmin.
From S2P Require Import HubChanges.
From S2P Require Import HubSteps.
From S2P Require Import HubAdminSteps.
From S2P Require Import HubOrder.
From S2P Require Import HubSessionsWf.
From S2P Require Import HubRuns.
Open Scope string_scope.

Definition revoked (id : string) (h : hub) : Prop :=
  ∃ s, sessions h !! id = Some s ∧ ds_revoked s ≠ None.

Lemma revoked_le id h h' : hub_le h h' → revoked id h → revoked id h'.
Proof.
  intros Hle (s & Hs & Hr). destruct (le_sessions _ _ Hle _ _ Hs) as (s' & Hs' & Hle').
  exists s'. split; [done|]. destruct Hle' as (_ & _ & _ & _ & _ & Hst).
  destruct (ds_revoked s) as [t|] eqn:E; [|done]. by rewrite (Hst t eq_refl).
Qed.

Lemma present_le {R} (le : relation R) m m' k : table_le le m m' → present m k = true → present m' k = true.
Proof.
  unfold present. intros Hle. destruct (m !! k) as [r|] eqn:E; [|done].
  by destruct (Hle _ _ E) as (r' & -> & _).
Qed.

Section ends.
Context `{HubCrypto}.

(** ** Finding a token again *)

Lemma find_token h d id t : sessions_wf h → tokens h !! id = Some t → rt_hash t = d →
  find_row (λ _ t, String.eqb (rt_hash t) d) (tokens h) = Some (id, t).
Proof.
  intros Hwf Hid Hd. destruct (find_row _ _) as [[k u]|] eqn:E.
  - apply find_row_Some in E as [Hk Hu%String.eqb_eq].
    assert (k = id) as -> by (eapply (wf_hash _ _ Hwf); [done..|congruence]). congruence.
  - rewrite find_row_None in E. specialize (E _ _ Hid). cbn in E. apply String.eqb_neq in E. congruence.
Qed.

Lemma token_row_le h h' d id t s :
  sessions_wf h' → hub_le h h' → token_row d h = Some (id, t, s) →
  ∃ t' s', token_row d h' = Some (id, t', s') ∧ token_le t t' ∧ session_le s s' ∧ tokens h' !! id = Some t'.
Proof.
  intros Hwf Hle Hr. pose proof (token_row_found _ _ _ _ _ Hr) as (Hid & Hd & Hs).
  destruct (le_tokens _ _ Hle _ _ Hid) as (t' & Hid' & Ht).
  destruct (le_sessions _ _ Hle _ _ Hs) as (s' & Hs' & Hss). exists t', s'. split; [|done].
  pose proof Ht as (E1 & E2 & _). pose proof Hss as (E3 & _).
  unfold token_row in *. rewrite (find_token h' d id t') by (done || congruence).
  rewrite E1, Hs', E3. destruct (find_row _ (tokens h)) as [[id0 t0]|]; [|done].
  destruct (sessions h !! rt_session t0) as [s0|]; [|done].
  destruct (present (humans h) (ds_human s0) && present (principals h) (ds_human s0)) eqn:Ep; [|done].
  simplify_eq. apply andb_true_iff in Ep as [Eh Ep].
  by rewrite (present_le _ _ _ _ (le_humans _ _ Hle) Eh), (present_le _ _ _ _ (le_principals _ _ Hle) Ep).
Qed.

(** ** What ends a session *)

Lemma revoke_one_ends id now h h' u s :
  revoke_one id now h = Ok (h', u) → sessions h !! id = Some s → revoked id h'.
Proof.
  unfold revoke_one. intros Hr Hs.
  apply tx_bind_Ok in Hr as (h1 & n & [_ ->]%update_changed & Hr).
  apply tx_bind_Ok in Hr as (h2 & n2 & [_ ->]%update_changed & [-> _]%ret_Ok).
  eexists. cbn. rewrite updated_rows_lookup, Hs. split; [done|].
  rewrite String.eqb_refl. cbn. by destruct (ds_revoked s) eqn:E; cbn; rewrite ?E.
Qed.

Lemma revoke_all_ends p now h h' u id s :
  revoke_all p now h = Ok (h', u) → sessions h !! id = Some s → ds_human s = p → revoked id h'.
Proof.
  unfold revoke_all. intros Hr Hs <-.
  apply tx_bind_Ok in Hr as (h1 & n & [_ ->]%update_changed & Hr).
  apply tx_bind_Ok in Hr as (h2 & sel & [-> _]%ask_Ok & Hr).
  apply tx_bind_Ok in Hr as (h2 & n2 & [_ ->]%update_changed & [-> _]%ret_Ok).
  eexists. cbn. rewrite updated_rows_lookup, Hs. split; [done|].
  rewrite String.eqb_refl. cbn. by destruct (ds_revoked s) eqn:E; cbn; rewrite ?E.
Qed.

Lemma revoke_one_error id now h e : revoke_one id now h = Err e → ∃ m, e = IntegrityError m.
Proof.
  unfold revoke_one, update_sessions, update_tokens, update_rows, mbind, tx_bind, mret, tx_ret.
  repeat case_match; naive_solver.
Qed.

Lemma audit_error e random h x : audit e random h = Err x → ∃ m, x = IntegrityError m.
Proof.
  unfold audit, ask, insert_event, insert_head, update_heads, insert_into, update_rows, mbind, tx_bind, mret, tx_ret.
  repeat case_match; naive_solver.
Qed.

Lemma audit_teams_error l e random h x : audit_teams l e random h = Err x → ∃ m, x = IntegrityError m.
Proof.
  revert random h. induction l as [|t l IH]; intros random h; cbn [audit_teams]; [done|].
  unfold mbind, tx_bind. destruct (audit (e t) (random O) h) as [[h1 u]|y] eqn:E.
  - apply IH.
  - intros [= <-]. by eapply audit_error.
Qed.

(** A punishment commits, or a constraint fails. *)
Lemma punish_error t s now random h x : punish t s now random h = Err x → ∃ m, x = IntegrityError m.
Proof.
  unfold punish, audit_principal_teams, mbind, tx_bind, ask.
  destruct (revoke_one (rt_session t) now h) as [[h1 u]|y] eqn:E.
  - apply audit_teams_error.
  - intros [= <-]. by eapply revoke_one_error.
Qed.

Lemma punish_ends t s now random h h' u s0 :
  punish t s now random h = Ok (h', u) → sessions h !! rt_session t = Some s0 → revoked (rt_session t) h'.
Proof.
  unfold punish. intros Hr Hs. apply tx_bind_Ok in Hr as (h1 & n & E & Hr).
  eapply revoked_le; [eapply changes_le, does_audit_principal; exact Hr|]. by eapply revoke_one_ends.
Qed.

(** ** Refresh *)

(** The cases of a refresh that did not fail before it looked at the token. *)
Lemma refresh_replay cf token now random h h' r d id t s :
  refresh cf token now random h = (h', r) → token_hash token = Ok d → token_row d h = Some (id, t, s) →
  replayed t s = true →
  (r = Err AUTH_REQUIRED ∧ revoked (rt_session t) h') ∨ (h' = h ∧ ∃ m, r = Err (IntegrityError m)).
Proof.
  unfold refresh. intros Hr Hd Ht Hrep. rewrite Hd, Ht, Hrep in Hr.
  apply token_row_found in Ht as (_ & _ & Hs).
  destruct (punish t s now random h) as [[h1 u]|x] eqn:E; simplify_eq.
  - left. split; [done|]. by eapply punish_ends.
  - right. split; [done|]. apply punish_error in E as [m ->]. by exists m.
Qed.

Lemma refresh_Ok cf token now random h h' b :
  refresh cf token now random h = (h', Ok b) →
  ∃ d id t s, token_hash token = Ok d ∧ token_row d h = Some (id, t, s) ∧ replayed t s = false
    ∧ rotate cf id t s now random h = Ok (h', b).
Proof.
  unfold refresh. destruct (token_hash token) as [d|e] eqn:Ed; [|by destruct e].
  destruct (token_row d h) as [[[id t] s]|] eqn:Et; [|done]. destruct (replayed t s) eqn:Hrep.
  - by destruct (punish _ _ _ _ _) as [[]|].
  - unfold run. destruct (rotate _ _ _ _ _ _ _) as [[h1 b1]|e] eqn:E; [|done]. intros [= -> ->]. exists d, id, t, s. split_and!; done.
Qed.

Lemma fetch_row_id id h h' r : fetch_row id h = Ok (h', r) → h' = h ∧ sr_id r = id ∧ joined_row id h = Some r.
Proof.
  unfold fetch_row. intros Hr. apply tx_bind_Ok in Hr as (h1 & o & [-> ->]%ask_Ok & Hr).
  destruct (joined_row id h) as [r0|] eqn:E; [|done]. apply ret_Ok in Hr as [-> ->]. split_and!; [done| |done].
  unfold joined_row in E. by repeat case_match; simplify_eq.
Qed.

Lemma auth_bundle_row cf row r e now jti h h' b : auth_bundle cf row r e now jti h = Ok (h', b) →
  h' = h ∧ bu_session b = row ∧ bu_refresh b = r.
Proof.
  unfold auth_bundle. intros Hr. apply tx_bind_Ok in Hr as (h1 & a & [-> _]%pure_Ok & Hr).
  apply tx_bind_Ok in Hr as (h1 & l & [-> ->]%ask_Ok & [-> ->]%ret_Ok). done.
Qed.

Lemma rotate_session_id cf id t s now random h h' b :
  rotate cf id t s now random h = Ok (h', b) → sr_id (bu_session b) = rt_session t
    ∧ is_null (ds_revoked s) = true.
Proof.
  unfold rotate, opaque_secret. intros Hr.
  apply tx_bind_Ok in Hr as (h0 & act & [-> ->]%ask_Ok & Hr).
  apply tx_bind_Ok in Hr as (h0 & [] & [Hg ->]%guard_not_Ok & Hr).
  rewrite !orb_false_iff, !negb_false_iff in Hg. destruct Hg as [[[[_ Hv'] _] _] _].
  apply tx_bind_Ok in Hr as (h1 & [] & _ & Hr). apply tx_bind_Ok in Hr as (h2 & n & _ & Hr).
  apply tx_bind_Ok in Hr as (h3 & [] & _ & Hr). apply tx_bind_Ok in Hr as (h4 & n2 & _ & Hr).
  apply tx_bind_Ok in Hr as (h5 & row & (-> & Hrow & _)%fetch_row_id & Hr).
  apply tx_bind_Ok in Hr as (h6 & b' & (_ & Hb & _)%auth_bundle_row & Hr).
  apply tx_bind_Ok in Hr as (h7 & [] & _ & [_ ->]%ret_Ok). by rewrite Hb.
Qed.

Lemma hub_sessions_wf h : reachable h → sessions_wf h.
Proof.
  apply hub_invariant; [by split|]. intros h1 h2 Hc _. by apply change_sessions_wf.
Qed.

(** A session has exactly one token that is not consumed, the one of its
    generation, and it is live as long as the session is not revoked. *)
Lemma session_has_one_token h id s : reachable h → sessions h !! id = Some s →
  ∃ k t, tokens h !! k = Some t ∧ rt_session t = id ∧ rt_consumed t = None ∧ rt_expires t = ds_expires s
    ∧ (ds_revoked s = None ↔ rt_revoked t = None)
    ∧ ∀ j t', tokens h !! j = Some t' → rt_session t' = id → rt_consumed t' = None → j = k.
Proof.
  intros Hh Hs. destruct (hub_sessions_wf _ Hh) as [Hses _ Hg Hpos Hf].
  destruct (Hf id s (ds_generation s) Hs) as (k & t & Hk & Ht & E); [specialize (Hpos _ _ Hs); lia|].
  destruct (Hses _ _ Hk) as (s' & Hs' & _ & Hcon & Hrev & Hexp). rewrite Ht, Hs in Hs'. simplify_eq.
  exists k, t. assert (rt_consumed t = None) as Hn by (by apply Hcon). split_and!; try done; [by apply Hrev..|].
  intros j t' Hj Ht' Hn'. destruct (Hses _ _ Hj) as (s2 & Hs2 & _ & Hcon' & _).
  rewrite Ht', Hs in Hs2. simplify_eq. eapply Hg; [done..|]. rewrite E. by apply Hcon'.
Qed.

Lemma refresh_step cf token now random h : hub_step h (refresh cf token now random h).1.
Proof. apply (by_call cf (Refresh token)). Qed.

(** A token that was used is replayed ever after. *)
Lemma used_token cf token now random h h1 b h2 :
  reachable h → refresh cf token now random h = (h1, Ok b) → rtc hub_step h1 h2 →
  ∃ d id t s, token_hash token = Ok d ∧ token_row d h2 = Some (id, t, s) ∧ replayed t s = true
    ∧ rt_session t = sr_id (bu_session b).
Proof.
  intros Hh Hr Hs. assert (rtc hub_step h h1) as Hs1.
  { apply rtc_once. pose proof (refresh_step cf token now random h) as Hst. by rewrite Hr in Hst. }
  destruct (reachable_step _ _ Hh Hs1) as (Hh1 & _ & Hle1).
  destruct (reachable_step _ _ Hh1 Hs) as (Hh2 & _ & Hle2).
  apply refresh_Ok in Hr as (d & id & t & s & Hd & Ht & Hrep & Hrot).
  pose proof (proj1 (rotate_session_id _ _ _ _ _ _ _ _ _ Hrot)) as Hid.
  pose proof (token_row_found _ _ _ _ _ Ht) as (Htid & _ & Hsid).
  destruct (rotate_changes _ _ _ _ _ _ _ _ _ Htid Hsid Hrep Hrot) as (g & _ & Hg & Hcon).
  assert (hub_le g h2) as Hle by (etrans; [by apply changes_le|done]).
  destruct (token_row_le h h2 d id t s) as (t' & s' & Ht' & Htle & _ & Htok); [by apply hub_sessions_wf|by etrans|done|].
  exists d, id, t', s'. repeat split; [done..| |].
  - destruct (le_tokens _ _ Hle _ _ Hcon) as (t2 & Ht2 & (_ & _ & _ & _ & _ & Hf & _)).
    assert (t2 = t') as -> by congruence. specialize (Hf eq_refl). cbn in Hf. simplify_eq.
    unfold replayed. by replace (rt_consumed t') with (Some now).
  - destruct Htle as (-> & _). by rewrite Hid.
Qed.

(** C7: A refresh token that was exchanged once is never accepted again, in
    whatever state later calls leave the hub: presenting it is refused as
    unauthenticated and ends its session, or a constraint of the database
    refuses the transaction and nothing changes. *)
Theorem refresh_once cf cf' token now now' random random' h h1 b h2 h3 r :
  reachable h → refresh cf token now random h = (h1, Ok b) →
  rtc hub_step h1 h2 → refresh cf' token now' random' h2 = (h3, r) →
  (r = Err AUTH_REQUIRED ∧ revoked (sr_id (bu_session b)) h3) ∨ (h3 = h2 ∧ ∃ m, r = Err (IntegrityError m)).
Proof.
  intros Hh Hr Hs Hr2. destruct (used_token _ _ _ _ _ _ _ _ Hh Hr Hs) as (d & id & t & s & Hd & Ht & Hrep & <-).
  by eapply refresh_replay.
Qed.

(** ** A revoked session is dead *)

Lemma revoked_row claims now h : revoked (cl_session claims) h → human_row claims now h = None.
Proof.
  intros (s & Hs & Hr). unfold human_row. rewrite Hs.
  destruct (ds_revoked s); [|done]. cbn. by rewrite andb_false_r.
Qed.

(** C8: Once a session is revoked, it stays useless in every later state: no
    access token of it gets past [_require_session], and no refresh succeeds
    for it. *)
Theorem revoked_session_dead id h h' :
  reachable h → revoked id h → rtc hub_step h h' →
  (∀ claims now, cl_session claims = id → cl_kind claims = "human" → session_of claims now h' = None) ∧
  (∀ cf token now random h2 b, refresh cf token now random h' = (h2, Ok b) → sr_id (bu_session b) ≠ id).
Proof.
  intros Hh Hrev Hs. destruct (reachable_step _ _ Hh Hs) as (_ & _ & Hle).
  apply (revoked_le _ _ _ Hle) in Hrev. split.
  - intros claims now <- Hk. unfold session_of. rewrite Hk. cbn. by apply revoked_row.
  - intros cf token now random h2 b (d & kid & t & s & _ & Ht & _ & Hrot)%refresh_Ok E.
    apply rotate_session_id in Hrot as [Eid Hlive]. apply token_row_found in Ht as (_ & _ & Hst).
    destruct Hrev as (s' & Hs' & Hn). assert (s' = s) as -> by congruence. by destruct (ds_revoked s).
Qed.

(** ** Logout *)

Lemma require_session_Ok claims now h h' r :
  require_session claims now h = Ok (h', r) → h' = h ∧ session_of claims now h = Some r.
Proof.
  unfold require_session. intros Hr. apply tx_bind_Ok in Hr as (h1 & o & [-> ->]%ask_Ok & Hr).
  destruct (session_of claims now h); [|done]. by apply ret_Ok in Hr as [-> ->].
Qed.

(** A logout that succeeds has revoked the session of the access token, a
    removal of a device the session that was named, and only a session of the
    caller's own account. *)
Theorem logout_ends_session claims token device now random h h' u :
  reachable h →
  (revoke_session claims token now random h = Ok (h', u) → revoked (cl_session claims) h') ∧
  (revoke_device_session claims device now random h = Ok (h', u) →
    ∃ id s, clean_identity device = Ok id ∧ sessions h !! id = Some s ∧ ds_human s = cl_principal claims ∧ revoked id h').
Proof.
  intros Hh. split.
  - unfold revoke_session. intros Hr.
    apply tx_bind_Ok in Hr as (h0 & d & [-> _]%pure_Ok & Hr).
    apply tx_bind_Ok in Hr as (h0 & r & (-> & _)%require_session_Ok & Hr).
    apply tx_bind_Ok in Hr as (h0 & b & [-> ->]%ask_Ok & Hr).
    apply tx_bind_Ok in Hr as (h0 & [] & [Hb%negb_false_iff ->]%guard_not_Ok & Hr).
    apply exists_row_true in Hb as (k & t & Hk & [Ht%String.eqb_eq _]%andb_true_iff).
    destruct (wf_session _ _ (hub_sessions_wf _ Hh) _ _ Hk) as (s & Hs & _). rewrite Ht in Hs.
    apply tx_bind_Ok in Hr as (h1 & [] & E & Hr).
    eapply revoked_le; [eapply changes_le; does_rest Hr|by eapply revoke_one_ends].
  - unfold revoke_device_session. intros Hr.
    apply tx_bind_Ok in Hr as (h0 & id & [-> Hid]%pure_Ok & Hr).
    apply tx_bind_Ok in Hr as (h0 & r & (-> & _)%require_session_Ok & Hr).
    apply tx_bind_Ok in Hr as (h0 & [] & [_ ->]%guard_not_Ok & Hr).
    apply tx_bind_Ok in Hr as (h0 & b & [-> ->]%ask_Ok & Hr).
    apply tx_bind_Ok in Hr as (h0 & [] & [Hb%negb_false_iff ->]%guard_not_Ok & Hr).
    destruct (sessions h !! id) as [s|] eqn:Hs; [|done]. apply String.eqb_eq in Hb.
    destruct (clean_identity device) as [i|]; [|done]. injection Hid as ->.
    exists id, s. split_and!; [done..|].
    apply tx_bind_Ok in Hr as (h1 & [] & E & Hr).
    eapply revoked_le; [eapply changes_le; does_rest Hr|by eapply revoke_one_ends].
Qed.
End ends.

(** * Team hub: recovery of a device

    A recovery ends every session the account had and opens one, and its proof
    works once. *)
(** ** Columns that name their row *)

Definition unique {R A} (f : R → A) (m : gmap string R) : Prop := ∀ j k r r',
  m !! j = Some r → m !! k = Some r' → f r = f r' → j = k.

Lemma unique_add {R A} (f : R → A) m k r :
  (∀ j r', m !! j = Some r' → f r' ≠ f r) → unique f m → unique f (<[k := r]> m).
Proof.
  intros Hn Hu i j x y. rewrite !lookup_insert_Some. intros [[<- <-]|[_ Hi]] [[<- <-]|[_ Hj]] E; try done.
  - by destruct (Hn _ _ Hj).
  - by destruct (Hn _ _ Hi).
  - by eapply Hu.
Qed.

Lemma unique_set {R A} (f : R → A) m k r r' :
  m !! k = Some r → f r' = f r → unique f m → unique f (<[k := r']> m).
Proof.
  intros Hk Hf Hu i j x y. rewrite !lookup_insert_Some. intros [[<- <-]|[_ Hi]] [[<- <-]|[_ Hj]] E; try done.
  - eapply Hu; [done..|congruence].
  - eapply Hu; [done..|congruence].
  - by eapply Hu.
Qed.

Lemma unique_update {R A} (f : R → A) m P g :
  (∀ r, f (g r) = f r) → unique f m → unique f (updated_rows P g m).
Proof.
  intros Hf Hu i j x y. rewrite !updated_rows_lookup.
  destruct (m !! i) as [x0|] eqn:Hi; [|done]. destruct (m !! j) as [y0|] eqn:Hj; [|done].
  cbn. intros <-%(inj Some) <-%(inj Some) E. eapply Hu; [done..|].
  by destruct (P i x0), (P j y0); rewrite ?Hf in E.
Qed.

(** The digests under which proofs and invitations are found. *)
Definition credentials_unique (h : hub) : Prop := unique rc_hash (recoveries h) ∧ unique iv_hash (invitations h).

Section recovery.
Context `{HubCrypto}.

Lemma audit_keeps_sessions e random : keeps sessions (audit e random).
Proof. unfold audit. keeps_tac. Qed.

Lemma local_control_keeps_sessions t now random : keeps sessions (local_control_principal t now random).
Proof. unfold local_control_principal, ensure_automation. keeps_tac. Qed.

Lemma change_credentials_unique h h' : change h h' → credentials_unique h → credentials_unique h'.
Proof.
  intros Hc [Hrc Hiv]. change_cases Hc; try (split; [exact Hrc|exact Hiv]).
  - split; [exact Hrc|]. apply unique_add; [|exact Hiv]. intros j i' Hj.
    eapply taken_false; [|exact Hj]. unfold invitation_ok in Hadd. rewrite !andb_true_iff, !negb_true_iff in Hadd.
    by destruct_and! Hadd.
  - split; [exact Hrc|]. destruct Hr. by eapply unique_set.
  - split; [exact Hrc|]. destruct Hr. by eapply unique_set.
  - split; [exact Hrc|]. apply unique_update; [by intros []|exact Hiv].
  - split; [|exact Hiv]. apply unique_add; [|exact Hrc]. intros j c Hj.
    eapply taken_false; [|exact Hj]. unfold recovery_ok in Hadd. rewrite !andb_true_iff, !negb_true_iff in Hadd.
    by destruct_and! Hadd.
  - split; [|exact Hiv]. apply unique_update; [by intros []|exact Hrc].
  - split; [|exact Hiv]. apply unique_update; [by intros []|exact Hrc].
Qed.

Lemma reachable_unique h : reachable h → credentials_unique h.
Proof.
  apply hub_invariant; [by split|]. intros h1 h2 Hc _. by apply change_credentials_unique.
Qed.

(** ** Redeeming a recovery *)

Lemma create_session_Ok p label now random h h' row refresh e :
  create_session p label now random h = Ok (h', (row, refresh, e)) →
  sr_principal row = p ∧ sessions h !! sr_id row = None
  ∧ ∃ s, sessions h' = <[sr_id row := s]> (sessions h) ∧ ds_human s = p ∧ ds_revoked s = None.
Proof.
  unfold create_session, opaque_secret. intros Hr.
  apply tx_bind_Ok in Hr as (h0 & l & [-> _]%pure_Ok & Hr).
  apply tx_bind_Ok in Hr as (h1 & [] & (Hn & _ & ->)%insert_added & Hr).
  apply tx_bind_Ok in Hr as (h2 & [] & (_ & _ & ->)%insert_added & Hr).
  apply tx_bind_Ok in Hr as (h3 & row0 & E & [-> Hx]%ret_Ok). simplify_eq.
  apply fetch_row_id in E as (-> & Eid & Ej). rewrite Eid.
  unfold joined_row in Ej. cbn in Ej. rewrite lookup_insert_eq in Ej. cbn in Ej.
  repeat case_match; simplify_eq. cbn. eauto 10.
Qed.

(** What a recovery that succeeds went through: the claim, the end of the
    sessions, the new session, the claim consumed, and the rest. *)
Lemma redeem_recovery_Ok cf proof label now random h h' b :
  redeem_device_recovery cf proof label now random h = Ok (h', b) →
  ∃ d id c h1 h2 h3 n,
    token_hash proof = Ok d ∧ recoveries h !! id = Some c ∧ rc_hash c = d
    ∧ revoke_all (rc_principal c) now h = Ok (h1, tt)
    ∧ (∃ l r e, create_session (rc_principal c) l now random h1 = Ok (h2, (bu_session b, r, e)))
    ∧ update_recoveries (λ k c, String.eqb k id && is_null (rc_consumed c) && is_null (rc_revoked c)
                                && (now <? rc_expires c)%Z)
        (λ c, c {{ rc_consumed := Some now; rc_session := Some (sr_id (bu_session b)) }}) h2 = Ok (h3, n)
    ∧ n = 1%nat ∧ changes h3 h' ∧ sessions h' = sessions h3 ∧ rc_consumed c = None.
Proof.
  unfold redeem_device_recovery. intros Hr.
  apply tx_bind_Ok in Hr as (h0 & d & [-> Hd]%pure_Ok & Hr).
  apply tx_bind_Ok in Hr as (h0 & l & [-> _]%pure_Ok & Hr).
  apply tx_bind_Ok in Hr as (h0 & f & [-> ->]%ask_Ok & Hr).
  destruct (find_row _ _) as [[id c]|] eqn:Ef; [|done].
  apply find_row_Some in Ef as [Hid HP]. rewrite !andb_true_iff in HP.
  destruct HP as [[[[[Hh%String.eqb_eq Hc] _] _] _] _].
  apply tx_bind_Ok in Hr as (h0 & [] & [_ ->]%guard_not_Ok & Hr).
  apply tx_bind_Ok in Hr as (h0 & n0 & [-> _]%ask_Ok & Hr).
  apply tx_bind_Ok in Hr as (h1 & [] & E1 & Hr).
  apply tx_bind_Ok in Hr as (h2 & [[row refresh] e] & E2 & Hr).
  apply tx_bind_Ok in Hr as (h3 & n & E3 & Hr).
  apply tx_bind_Ok in Hr as (h4 & [] & [Hn%negb_false_iff%Nat.eqb_eq ->]%guard_not_Ok & Hr).
  apply tx_bind_Ok in Hr as (h4 & actor & E4 & Hr). apply tx_bind_Ok in Hr as (h5 & [] & E5 & Hr).
  pose proof Hr as (-> & Eb & _)%auth_bundle_row. rewrite <- Eb in *.
  exists d, id, c, h1, h2, h3, n. split_and!; try done; try (by eexists _, _, _).
  - destruct (token_hash proof) as [x|x]; [done|]. by destruct x.
  - etrans; [by eapply does_local_control|by eapply does_audit_event].
  - by rewrite (audit_keeps_sessions _ _ _ _ _ E5), (local_control_keeps_sessions _ _ _ _ _ _ E4).
  - by destruct (rc_consumed c).
Qed.

Lemma revoke_all_keeps {C} (π : hub → C) p now :
  (∀ m h, π (set_sessions m h) = π h) → (∀ m h, π (set_tokens m h) = π h) → keeps π (revoke_all p now).
Proof.
  intros Hs Ht. unfold revoke_all. apply keeps_bind; [by apply keeps_update|intros _].
  apply keeps_bind; [apply keeps_ask|intros sel]. apply keeps_bind; [by apply keeps_update|intros _]. apply keeps_ret.
Qed.

Lemma create_session_keeps {C} (π : hub → C) p label now random :
  (∀ m h, π (set_sessions m h) = π h) → (∀ m h, π (set_tokens m h) = π h) →
  keeps π (create_session p label now random).
Proof.
  intros Hs Ht. unfold create_session, opaque_secret. apply keeps_bind; [by intros h h' b [-> _]%pure_Ok|intros l].
  apply keeps_bind; [by apply keeps_insert|intros _]. apply keeps_bind; [by apply keeps_insert|intros _].
  apply keeps_bind; [by intros h h' b (-> & _)%fetch_row_id|intros row]. apply keeps_ret.
Qed.

(** The claim of a recovery that succeeded is consumed. *)
Lemma recovery_consumed cf proof label now random h h' b :
  redeem_device_recovery cf proof label now random h = Ok (h', b) →
  ∃ d id c, token_hash proof = Ok d ∧ recoveries h' !! id = Some c ∧ rc_hash c = d ∧ rc_consumed c ≠ None.
Proof.
  intros (d & id & c & h1 & h2 & h3 & n & Hd & Hid & Hh & E1 & (l & r & e & E2) & E3 & Hn & Hc & _ & Hcon)%redeem_recovery_Ok.
  apply revoke_all_keeps with (π := recoveries) in E1; [|done..].
  apply create_session_keeps with (π := recoveries) in E2; [|done..].
  apply update_rows_Ok in E3 as (-> & _ & Hsome). rewrite Hn in Hsome. destruct Hsome as (k & c' & Hk & HP); [done|].
  assert (recoveries h2 !! id = Some c) as Hid2 by (by rewrite E2, E1).
  pose proof HP as Hk2. rewrite !andb_true_iff in Hk2. destruct Hk2 as [[[->%String.eqb_eq _] _] _].
  assert (c' = c) as -> by congruence.
  destruct (le_recoveries _ _ (changes_le _ _ Hc) id
    (c {{ rc_consumed := Some now; rc_session := Some (sr_id (bu_session b)) }})) as (c2 & Hc2 & Hle).
  { cbn. rewrite updated_rows_lookup, Hid2. cbn [fmap option_fmap option_map]. by rewrite HP. }
  exists d, id, c2. destruct Hle as (_ & _ & E & _ & Hf & _). split_and!; [done|done| |].
  - rewrite E. by destruct c.
  - specialize (Hf eq_refl). cbn in Hf. injection Hf as Hf1 _. rewrite Hf1. by destruct c.
Qed.

Lemma recovery_once cf cf' proof label label' now now' random random' h h' b h2 h3 b' :
  reachable h → redeem_device_recovery cf proof label now random h = Ok (h', b) →
  rtc hub_step h' h2 → redeem_device_recovery cf' proof label' now' random' h2 = Ok (h3, b') → False.
Proof.
  intros Hh Hr Hs Hr'. pose proof (by_call cf (RedeemRecovery proof label) now random h) as Hst.
  cbn [perform] in Hst. unfold quiet, run in Hst. rewrite Hr in Hst. cbn in Hst.
  destruct (reachable_step _ _ Hh (rtc_once _ _ Hst)) as (Hh' & _).
  destruct (reachable_step _ _ Hh' Hs) as (Hh2 & _ & Hle).
  apply recovery_consumed in Hr as (d & id & c & Hd & Hid & Hc & Hcon).
  apply redeem_recovery_Ok in Hr' as (d' & id' & c' & h4 & h5 & h6 & n & Hd' & Hid' & Hc' & _ & _ & _ & _ & _ & _ & Hnull).
  destruct (le_recoveries _ _ Hle _ _ Hid) as (c2 & Hc2 & (_ & _ & E & _ & Hf & _)).
  assert (id = id') as <- by (eapply (proj1 (reachable_unique _ Hh2)); [done..|congruence]).
  assert (c2 = c') as -> by congruence. destruct (rc_consumed c) as [x|] eqn:Ex; [|done].
  specialize (Hf eq_refl). cbn in Hf. congruence.
Qed.

(** A device recovery that succeeds has revoked every session the account
    had and opened the one it returns, live and of that account; its proof is
    never accepted again, in whatever state later calls leave the hub. *)
Theorem recovery_replaces_sessions cf proof label now random h h' b :
  reachable h → redeem_device_recovery cf proof label now random h = Ok (h', b) →
  (∀ id s, sessions h !! id = Some s → ds_human s = sr_principal (bu_session b) → revoked id h') ∧
  (∃ s, sessions h !! sr_id (bu_session b) = None ∧ sessions h' !! sr_id (bu_session b) = Some s
     ∧ ds_human s = sr_principal (bu_session b) ∧ ds_revoked s = None) ∧
  (∀ cf' label' now' random' h2 h3 b', rtc hub_step h' h2 →
     redeem_device_recovery cf' proof label' now' random' h2 ≠ Ok (h3, b')).
Proof.
  intros Hh Hr. pose proof Hr as (d & id & c & h1 & h2 & h3 & n & _ & _ & _ & E1 & (l & r & e & E2) & E3 & _ & _ & Es & _)%redeem_recovery_Ok.
  pose proof E2 as (Ep & Hnew & s0 & Hs0 & Hown & Hlive)%create_session_Ok.
  apply update_rows_Ok in E3 as (-> & _). change (sessions (set_recoveries ?m h2)) with (sessions h2) in Es.
  split_and!.
  - intros k s Hk Ho. rewrite Ep in Ho. destruct (revoke_all_ends _ _ _ _ _ _ _ E1 Hk Ho) as (s1 & Hs1 & Hr1).
    exists s1. split; [|done]. rewrite Es, Hs0, lookup_insert_ne; [done|]. congruence.
  - exists s0. rewrite Es, Hs0, lookup_insert_eq, Ep. split_and!; try done.
    destruct (sessions h !! sr_id (bu_session b)) as [s1|] eqn:E; [|done].
    assert (hub_le h h1) as Hle by (eapply changes_le, does_revoke_all; exact E1).
    destruct (le_sessions _ _ Hle _ _ E) as (s2 & Hs2 & _). congruence.
  - intros cf' label' now' random' g g' b' Hs Hr'. by eapply (recovery_once cf cf').
Qed.
End recovery.
