(* ===== verification/HubMembers.v ===== *)
(** * Team hub: who is a member, and who owns a team

    In every state the hub can reach, a membership comes from an invitation its
    account redeemed, an invitation is redeemed once, every team has exactly one
    active owner, and whoever was removed does not come back. *)
From S2P Require Import Prelude.
From S2P Require Import PyValues.
From S2P Require Import HubTokens.
From S2P Require Import Transactions.
From S2P Require Import HubTables.
From S2P Require Import HubAuth.
From S2P Require Import HubServers.
From S2P Require Import HubSessions.
From S2P Require Import HubAdmin.
From S2P Require Import HubChanges.
From S2P Require Import HubSteps.
From S2P Require Import HubAdminSteps.
From S2P Require Import HubOrder.
From S2P Require Import HubSessionsWf.
From S2P Require Import HubRuns.
From S2P Require Import HubSessionEnds.

Open Scope string_scope.

(** ** Memberships and invitations *)

(** The account of [m] redeemed an invitation of [issuer] to this team when it
    became a member, and the invitation was for its email. *)
Definition invited (h : hub) (m : membership) (issuer : string) : Prop := ∃ k i u,
  invitations h !! k = Some i ∧ iv_team i = mb_team m ∧ iv_issuer i = issuer
  ∧ iv_redeemer i = Some (mb_principal m) ∧ iv_redeemed i = Some (mb_created m)
  ∧ humans h !! mb_principal m = Some u ∧ hu_email u = iv_email i.

(** Owners and services are made with their team or server; everybody else was
    invited, and is an admin, a member or a guest. *)
Definition legitimate (h : hub) (m : membership) : Prop :=
  match mb_inviter m with
  | None => mb_role m = Owner ∨ mb_role m = Automation
  | Some issuer => invitable (mb_role m) = true ∧ invited h m issuer
  end.

Record members_wf (h : hub) : Prop := {
  mw_invitation k i : invitations h !! k = Some i → invitable (iv_role i) = true;
  mw_member k m : memberships h !! k = Some m → legitimate h m;
}.

Lemma invited_le h h' m m' issuer : hub_le h h' →
  mb_team m' = mb_team m → mb_principal m' = mb_principal m → mb_created m' = mb_created m →
  invited h m issuer → invited h' m' issuer.
Proof.
  intros Hle E1 E2 E3 (k & i & u & Hk & Ht & Hi & Hr & Hd & Hu & He).
  destruct (le_invitations _ _ Hle _ _ Hk) as (i' & Hk' & Ha & Hf & _).
  destruct (le_humans _ _ Hle _ _ Hu) as (u' & Hu' & <-).
  unfold authority in Ha. injection Ha as A1 A2 A3 A4 A5 A6 A7.
  assert ((iv_redeemed i', iv_redeemer i') = (iv_redeemed i, iv_redeemer i)) as Hp.
  { apply Hf. cbn. by rewrite Hd. }
  injection Hp as P1 P2. exists k, i', u. rewrite E1, E2, E3. split_and!; congruence.
Qed.

Lemma legitimate_le h h' m : hub_le h h' → legitimate h m → legitimate h' m.
Proof.
  intros Hle. unfold legitimate. destruct (mb_inviter m); [|done]. intros [Hr Hi].
  split; [done|]. by eapply invited_le.
Qed.

Lemma update_invitable (P : string → invitation → bool) f (m : gmap string invitation) :
  (∀ i, iv_role (f i) = iv_role i) →
  (∀ k i, m !! k = Some i → invitable (iv_role i) = true) →
  ∀ k i, updated_rows P f m !! k = Some i → invitable (iv_role i) = true.
Proof.
  intros Hf Hm k i. rewrite updated_rows_lookup. destruct (m !! k) as [i0|] eqn:E; [|done]. cbn.
  intros <-%(inj Some). destruct (P k i0); rewrite ?Hf; by eapply Hm.
Qed.

Lemma set_invitable k i (m : gmap string invitation) :
  invitable (iv_role i) = true →
  (∀ k i, m !! k = Some i → invitable (iv_role i) = true) →
  ∀ j x, <[k := i]> m !! j = Some x → invitable (iv_role x) = true.
Proof. intros Hi Hm j x. rewrite lookup_insert_Some. intros [[_ <-]|[_ Hj]]; [done|by eapply Hm]. Qed.

(** Rows that change keep what makes them legitimate. *)
Lemma update_legitimate h h' P f :
  hub_le h h' → memberships h' = updated_rows P f (memberships h) →
  (∀ k m, memberships h !! k = Some m → P k m = true → legitimate h m →
     mb_team (f m) = mb_team m ∧ mb_principal (f m) = mb_principal m ∧ mb_created (f m) = mb_created m
     ∧ mb_inviter (f m) = mb_inviter m
     ∧ (mb_role (f m) = mb_role m ∨ mb_inviter m ≠ None ∧ invitable (mb_role (f m)) = true)) →
  (∀ k m, memberships h !! k = Some m → legitimate h m) → ∀ k m, memberships h' !! k = Some m → legitimate h' m.
Proof.
  intros Hle Hm Hf Hall k m. rewrite Hm, updated_rows_lookup.
  destruct (memberships h !! k) as [m0|] eqn:Hk; [|done]. cbn. intros <-%(inj Some).
  pose proof (Hall _ _ Hk) as Hl. destruct (P k m0) eqn:HP; [|by eapply legitimate_le].
  destruct (Hf _ _ Hk HP Hl) as (E1 & E2 & E3 & E4 & E5).
  unfold legitimate in *. rewrite E4. destruct (mb_inviter m0) as [b|].
  - destruct Hl as [Hr Hi]. split; [|by eapply invited_le]. destruct E5 as [->|[_ ?]]; done.
  - by destruct E5 as [->|[? _]].
Qed.

Lemma added_legitimate h h' id m :
  hub_le h h' → memberships h' = <[id := m]> (memberships h) → legitimate h' m →
  (∀ k m, memberships h !! k = Some m → legitimate h m) → ∀ k x, memberships h' !! k = Some x → legitimate h' x.
Proof.
  intros Hle Hm Hl Hall k x. rewrite Hm, lookup_insert_Some. intros [[_ <-]|[_ Hk]]; [done|].
  by eapply legitimate_le, Hall.
Qed.

Section members.
Context `{HubCrypto}.

Lemma change_members_wf h h' : change h h' → members_wf h → members_wf h'.
Proof.
  intros Hc [Hinvs Hrows]. pose proof (change_le _ _ Hc) as Hle. change_cases Hc;
    try (split; [exact Hinvs|intros j x Hj; eapply legitimate_le; [exact Hle|by eapply Hrows]]).
  - split; [exact Hinvs|]. eapply added_legitimate; [exact Hle|reflexivity| |exact Hrows].
    unfold legitimate. rewrite Hinv. unfold active_owner in Hown. rewrite andb_true_iff, bool_decide_eq_true in Hown.
    left. apply Hown.
  - split; [exact Hinvs|]. eapply added_legitimate; [exact Hle|reflexivity| |exact Hrows].
    unfold legitimate. rewrite Hinv. by right.
  - split; [|intros j x Hj; eapply legitimate_le; [exact Hle|by eapply Hrows]].
    apply set_invitable; [|exact Hinvs]. unfold invitation_ok in Hadd. rewrite !andb_true_iff in Hadd. by destruct_and! Hadd.
  - destruct Hr as [Hrow Hpend Hiss (u & Hu & He) _].
    assert (invitable (iv_role i) = true) as Hinvi by (by eapply Hinvs).
    split; [by apply set_invitable; [destruct i|exact Hinvs]|].
    eapply added_legitimate; [exact Hle|reflexivity| |exact Hrows].
    subst m. split; [done|]. exists id, (redeemed p now i), u. cbn. rewrite lookup_insert_eq.
    unfold active_human in Hu. destruct (principal_active h p); [|done].
    split_and!; try done; by destruct i.
  - destruct Hr as [Hrow _ _ _ _].
    assert (invitable (iv_role i) = true) as Hinvi by (by eapply Hinvs).
    split; [by apply set_invitable; [destruct i|exact Hinvs]|].
    intros j x Hj; eapply legitimate_le; [exact Hle|by eapply Hrows].
  - split; [|intros j x Hj; eapply legitimate_le; [exact Hle|by eapply Hrows]].
    apply update_invitable; [by intros []|exact Hinvs].
  - split; [exact Hinvs|]. eapply update_legitimate; [exact Hle|reflexivity| |exact Hrows].
    intros k m Hk HP Hl. destruct (Hrow _ _ Hk HP) as (_ & Ho & Ha & _).
    split_and!; try (by destruct m). right. split; [|by destruct m]. unfold legitimate in Hl.
    destruct (mb_inviter m); [done|]. by destruct Hl.
  - split; [exact Hinvs|]. eapply update_legitimate; [exact Hle|reflexivity| |exact Hrows].
    intros k m _ _ _. split_and!; try (by destruct m). left. by destruct m.
  - split; [exact Hinvs|]. eapply update_legitimate; [exact Hle|reflexivity| |exact Hrows].
    intros k m _ _ _. split_and!; try (by destruct m). left. by destruct m.
Qed.

(** C15: In every state a hub can reach, each membership was made with its team
    or server, as owner or service, or comes from an invitation to that team
    which the account itself redeemed, when it joined, under the email the
    invitation was for; and its role is then one that can be invited. *)
Theorem members_were_invited h k m : reachable h → memberships h !! k = Some m → legitimate h m.
Proof.
  intros Hr. apply mw_member. revert h Hr. apply hub_invariant; [by split|].
  intros h1 h2 Hc _. by apply change_members_wf.
Qed.

(** ** An invitation is used once *)

(** A call that accepted the invitation, for a new account or one that is
    signed in. *)
Definition accepted (token : string) (h h' : hub) : Prop :=
  (∃ cf email name label now random b, redeem_invite cf token email name label now random h = Ok (h', b)) ∨
  (∃ claims now random r, accept_invite claims token now random h = Ok (h', r)).

Definition spent (token : string) (h : hub) : Prop := ∃ d k i,
  token_digest token = Ok d ∧ invitations h !! k = Some i ∧ iv_hash i = d ∧ iv_redeemed i ≠ None.

Lemma spent_le token h h' : hub_le h h' → spent token h → spent token h'.
Proof.
  intros Hle (d & k & i & Hd & Hk & Hh & Hr). destruct (le_invitations _ _ Hle _ _ Hk) as (i' & Hk' & Ha & Hf & _).
  exists d, k, i'. unfold authority in Ha. injection Ha as A1 A2 A3 A4 A5 A6 A7.
  destruct (iv_redeemed i) as [x|] eqn:E; [|done]. specialize (Hf eq_refl). cbn in Hf. injection Hf as F _.
  split_and!; congruence.
Qed.

Lemma redeem_spends token p now random h h' m :
  redeem_invitation token p now random h = Ok (h', m) → spent token h'.
Proof.
  unfold redeem_invitation. intros Hr.
  apply tx_bind_Ok in Hr as (h0 & hash & [-> Hd]%pure_Ok & Hr).
  apply tx_bind_Ok in Hr as (h0 & t & [-> Ht]%pure_Ok & Hr).
  apply tx_bind_Ok in Hr as (h0 & found & [-> ->]%ask_Ok & Hr).
  destruct (find_row _ _) as [[id i]|] eqn:Ef; [|done].
  apply find_row_Some in Ef as [Hid [Hh%String.eqb_eq _]%andb_true_iff].
  apply tx_bind_Ok in Hr as (h0 & [] & [Hp%negb_false_iff ->]%guard_not_Ok & Hr).
  apply tx_bind_Ok in Hr as (h0 & account & [-> ->]%ask_Ok & Hr).
  destruct (active_human p h) as [u|]; [|done].
  apply tx_bind_Ok in Hr as (h0 & [] & [_ ->]%guard_not_Ok & Hr).
  apply tx_bind_Ok in Hr as (h1 & mid & Hj & Hr).
  apply tx_bind_Ok in Hr as (h2 & n & Hmark & Hr).
  apply tx_bind_Ok in Hr as (h3 & [] & [_ ->]%guard_not_Ok & [-> _]%ret_Ok).
  assert (invitations h1 = invitations h) as Hinv.
  { revert Hj. unfold join_team. generalize mid. intros x. eapply (keeps_bind invitations); [apply keeps_ask|].
    intros o. destruct o as [[]|]; keeps_tac. }
  rewrite <- Hinv in Hid. apply (mark_redeemed id i p t) in Hmark as [-> _]; [|done..].
  exists hash, id, (redeemed p t i). cbn. rewrite lookup_insert_eq. split_and!; try done; by destruct i.
Qed.

Lemma redeem_invite_parts cf token email name label now random h h' b :
  redeem_invite cf token email name label now random h = Ok (h', b) →
  spent token h' ∧ ∃ d k i, token_digest token = Ok d ∧ invitations h !! k = Some i ∧ iv_hash i = d ∧ iv_redeemed i = None.
Proof.
  unfold redeem_invite. intros Hr.
  apply tx_bind_Ok in Hr as (h0 & em & [-> _]%pure_Ok & Hr%on_error_Ok).
  apply tx_bind_Ok in Hr as (h0 & d & [-> Hd]%pure_Ok & Hr).
  apply tx_bind_Ok in Hr as (h0 & o & [-> ->]%ask_Ok & Hr).
  destruct (pending_invitation d now h) as [[k i]|] eqn:Ep; [|done].
  apply find_row_Some in Ep as [Hk HP]. unfold pending in HP. rewrite !andb_true_iff in HP.
  destruct HP as [Hh%String.eqb_eq [[Hn _] _]]. split.
  - apply tx_bind_Ok in Hr as (h0 & [] & [_ ->]%guard_not_Ok & Hr).
    apply tx_bind_Ok in Hr as (h0 & kn & [-> _]%ask_Ok & Hr).
    apply tx_bind_Ok in Hr as (h0 & [] & [_ ->]%guard_not_Ok & Hr).
    apply tx_bind_Ok in Hr as (h0 & nm & [-> _]%pure_Ok & Hr).
    apply tx_bind_Ok in Hr as (h1 & [] & _ & Hr). apply tx_bind_Ok in Hr as (h2 & [] & _ & Hr).
    apply tx_bind_Ok in Hr as (h3 & m & E & Hr). apply redeem_spends in E.
    eapply spent_le; [eapply changes_le; does_rest Hr|exact E].
  - exists d, k, i. split_and!; try done. by destruct (iv_redeemed i).
Qed.

Lemma accept_invite_parts claims token now random h h' r :
  accept_invite claims token now random h = Ok (h', r) →
  spent token h' ∧ ∃ d k i, token_digest token = Ok d ∧ invitations h !! k = Some i ∧ iv_hash i = d ∧ iv_redeemed i = None.
Proof.
  unfold accept_invite. intros Hr%on_error_Ok.
  apply tx_bind_Ok in Hr as (h0 & d & [-> Hd]%pure_Ok & Hr).
  apply tx_bind_Ok in Hr as (h0 & row & (-> & _)%require_session_Ok & Hr).
  apply tx_bind_Ok in Hr as (h0 & o & [-> ->]%ask_Ok & Hr).
  destruct (pending_invitation d now h) as [[k i]|] eqn:Ep; [|done].
  apply find_row_Some in Ep as [Hk HP]. unfold pending in HP. rewrite !andb_true_iff in HP.
  destruct HP as [Hh%String.eqb_eq [[Hn _] _]]. split.
  - apply tx_bind_Ok in Hr as (h0 & [] & [_ ->]%guard_not_Ok & Hr).
    apply tx_bind_Ok in Hr as (h1 & m & E & Hr). apply redeem_spends in E.
    eapply spent_le; [eapply changes_le; does_rest Hr|exact E].
  - exists d, k, i. split_and!; try done. by destruct (iv_redeemed i).
Qed.

Lemma accepted_parts token h h' : accepted token h h' →
  hub_step h h' ∧ spent token h'
  ∧ ∃ d k i, token_digest token = Ok d ∧ invitations h !! k = Some i ∧ iv_hash i = d ∧ iv_redeemed i = None.
Proof.
  intros [(cf & e & n & l & now & random & b & Hr)|(claims & now & random & r & Hr)].
  - split; [|by eapply redeem_invite_parts].
    pose proof (by_call cf (RedeemInvite token e n l) now random h) as Hst.
    cbn [perform] in Hst. unfold quiet, run in Hst. by rewrite Hr in Hst.
  - split; [|by eapply accept_invite_parts].
    pose proof (by_call (mkConfig None None "" "" "") (AcceptInvite claims token) now random h) as Hst.
    cbn [perform] in Hst. unfold quiet, run in Hst. by rewrite Hr in Hst.
Qed.

(** C16: An invitation that was accepted, by a new account or by one that was
    signed in, is never accepted again, in whatever state later calls leave the
    hub. *)
Theorem invitation_once token h h1 h2 h3 :
  reachable h → accepted token h h1 → rtc hub_step h1 h2 → ¬ accepted token h2 h3.
Proof.
  intros Hh (Hst & Hspent & _)%accepted_parts Hs (_ & _ & d & k & i & Hd & Hk & Hi & Hn)%accepted_parts.
  destruct (reachable_step _ _ Hh (rtc_once _ _ Hst)) as (Hh1 & _).
  destruct (reachable_step _ _ Hh1 Hs) as (Hh2 & _ & Hle).
  apply (spent_le _ _ _ Hle) in Hspent as (d' & k' & i' & Hd' & Hk' & Hi' & Hr').
  assert (k = k') as -> by (eapply (proj2 (reachable_unique _ Hh2)); [done..|congruence]). congruence.
Qed.

(** ** One owner *)

(** No team has two active owners. *)
Definition distinct_owners (h : hub) : Prop := ∀ j k m m',
  memberships h !! j = Some m → memberships h !! k = Some m' →
  active_owner m = true → active_owner m' = true → mb_team m = mb_team m' → j = k.

Record owners_wf (h : hub) : Prop := {
  ow_owner t r : teams h !! t = Some r → ∃ k m, memberships h !! k = Some m ∧ mb_team m = t
    ∧ active_owner m = true ∧ principal_active h (mb_principal m) = true;
  ow_one : distinct_owners h;
}.

Lemma select_rows_single {R} (P : string → R → bool) (m : gmap string R) k r :
  m !! k = Some r → P k r = true → (∀ j x, m !! j = Some x → P j x = true → j = k) →
  select_rows P m = [(k, r)].
Proof.
  intros Hk HP Hone. unfold select_rows. set (l := filter _ (map_to_list m)).
  assert (∀ x, x ∈ l → x = (k, r)) as Hall.
  { intros [j x] [HPx Hj%elem_of_map_to_list]%list_elem_of_filter. cbn in HPx.
    assert (j = k) as -> by (by eapply Hone). congruence. }
  assert ((k, r) ∈ l) as Hin by (apply list_elem_of_filter; split; [done|by apply elem_of_map_to_list]).
  assert (NoDup l) as Hnd by apply NoDup_filter, NoDup_map_to_list.
  destruct l as [|x [|y l]]; [by apply elem_of_nil in Hin| |].
  - by rewrite (Hall x) by left.
  - exfalso. rewrite (Hall x) in Hnd by left. rewrite (Hall y) in Hnd by (right; left).
    apply NoDup_cons in Hnd as [Hno _]. apply Hno. left.
Qed.

(** The query of the code finds what the invariant says. *)
Lemma owners_wf_valid h : owners_wf h → owners_valid h = true.
Proof.
  intros [Ho Hone]. unfold owners_valid. apply forallb_forall. intros [t r] Hin. cbn.
  apply list_elem_of_In, elem_of_map_to_list in Hin. destruct (Ho _ _ Hin) as (k & m & Hk & Ht & Ha & Hp).
  unfold one_owner. rewrite (select_rows_single _ _ k m Hk); [done| |].
  - by rewrite Ha, andb_true_r, String.eqb_eq.
  - intros j x Hj [Hx%String.eqb_eq Hxa]%andb_true_iff. eapply Hone; [done..|congruence].
Qed.

Lemma owner_unique_other h k m j m' : owner_unique h k m = true → active_owner m = true →
  memberships h !! j = Some m' → active_owner m' = true → mb_team m' = mb_team m → j = k.
Proof.
  unfold owner_unique. intros Hu Ha Hj Ha' Ht. rewrite Ha in Hu. cbn in Hu. apply negb_true_iff in Hu.
  rewrite exists_row_false in Hu. specialize (Hu _ _ Hj). cbn in Hu. rewrite Ha', Ht, String.eqb_refl, !andb_true_r in Hu.
  apply negb_false_iff in Hu. by apply String.eqb_eq in Hu.
Qed.

(** The other tables do not matter, as long as active principals stay so. *)
Lemma owners_other h h' :
  owners_wf h → teams h' = teams h → memberships h' = memberships h →
  (∀ k m, memberships h !! k = Some m → active_owner m = true → principal_active h (mb_principal m) = true →
     principal_active h' (mb_principal m) = true) → owners_wf h'.
Proof.
  intros [Ho Hone] Ht Hm Hp. split; [rewrite Ht, Hm|unfold distinct_owners; by rewrite Hm].
  intros t r (k & m & Hk & E & Ha & Hact)%Ho. exists k, m. split_and!; try done. by eapply Hp.
Qed.

Lemma distinct_add h k m : distinct_owners h → membership_ok h k m = true →
  distinct_owners (set_memberships (<[k := m]> (memberships h)) h).
Proof.
  intros Hone Hok. unfold membership_ok in Hok. rewrite !andb_true_iff in Hok. destruct Hok as [_ Hu].
  intros i j x y. cbn. rewrite !lookup_insert_Some. intros [[<- <-]|[_ Hi]] [[<- <-]|[_ Hj]] Ea Eb E; try done.
  - symmetry. by eapply owner_unique_other.
  - by eapply owner_unique_other.
  - by eapply Hone.
Qed.

Lemma owners_add h k m : owners_wf h → memberships h !! k = None → membership_ok h k m = true →
  owners_wf (set_memberships (<[k := m]> (memberships h)) h).
Proof.
  intros [Ho Hone] Hk Hok. split; [|by apply distinct_add]. cbn.
  intros t r (j & x & Hj & E & Ha & Hact)%Ho. exists j, x. rewrite lookup_insert_ne; [done|congruence].
Qed.

Lemma owners_update h P f : owners_wf h →
  (∀ k m, memberships h !! k = Some m → P k m = true → active_owner m = false ∧ active_owner (f m) = false) →
  owners_wf (set_memberships (updated_rows P f (memberships h)) h).
Proof.
  intros [Ho Hone] Hf.
  assert (∀ k m, updated_rows P f (memberships h) !! k = Some m → active_owner m = true → memberships h !! k = Some m) as Hold.
  { intros k m. rewrite updated_rows_lookup. destruct (memberships h !! k) as [m0|] eqn:E; [|done]. cbn.
    intros <-%(inj Some) Ha. destruct (P k m0) eqn:HP; [|done]. destruct (Hf _ _ E HP). congruence. }
  split; cbn.
  - intros t r (k & m & Hk & E & Ha & Hact)%Ho. exists k, m. split_and!; try done.
    rewrite updated_rows_lookup, Hk. cbn. destruct (P k m) eqn:HP; [|done]. destruct (Hf _ _ Hk HP). congruence.
  - intros i j x y Hi Hj Ea Eb. by apply Hone; [apply Hold|apply Hold|..].
Qed.

(** A principal that was active stays so when a row is added. *)
Lemma principal_active_add h k r p : principals h !! k = None → principal_active h p = true →
  principal_active (set_principals (<[k := r]> (principals h)) h) p = true.
Proof.
  unfold principal_active. intros Hk. cbn. destruct (decide (p = k)) as [->|Hne].
  - by rewrite Hk.
  - by rewrite lookup_insert_ne.
Qed.

(** An active owner's principal is not retired. *)
Lemma owners_retire h P f : owners_wf h →
  changed principals set_principals principal_update_ok P f h (set_principals (updated_rows P f (principals h)) h) →
  owners_wf (set_principals (updated_rows P f (principals h)) h).
Proof.
  intros Hwf [Hok _]. eapply owners_other; [exact Hwf|done..|].
  intros k m Hk Ha. unfold principal_active. cbn. rewrite updated_rows_lookup.
  destruct (principals h !! mb_principal m) as [r|] eqn:Hp; [|done]. cbn. intros Hact.
  destruct (P (mb_principal m) r) eqn:HP; [|done]. specialize (Hok _ _ Hp HP).
  unfold principal_update_ok in Hok. rewrite !andb_true_iff in Hok.
  destruct Hok as [_ [Hst|Hno]%orb_true_iff]; [done|]. apply negb_true_iff in Hno. rewrite exists_row_false in Hno.
  specialize (Hno _ _ Hk). cbn in Hno. by rewrite Ha, String.eqb_refl in Hno.
Qed.

Lemma not_owner_inactive m : mb_role m ≠ Owner → active_owner m = false.
Proof. intros Hr. unfold active_owner. by rewrite (bool_decide_false _ Hr). Qed.

(** A new team comes with its owner. *)
Lemma owners_team h k t id m : owners_wf h → teams h !! k = None → memberships h !! id = None →
  membership_ok (set_teams (<[k := t]> (teams h)) h) id m = true → mb_team m = k → active_owner m = true →
  principal_active h (mb_principal m) = true →
  owners_wf (set_memberships (<[id := m]> (memberships h)) (set_teams (<[k := t]> (teams h)) h)).
Proof.
  intros Hwf Hk Hid Hok Hteam Hown Hact.
  split; [|apply (distinct_add (set_teams (<[k := t]> (teams h)) h)); [apply (ow_one _ Hwf)|exact Hok]]. cbn.
  intros t' r. rewrite lookup_insert_Some. intros [[<- <-]|[Hne Ht']].
  - exists id, m. rewrite lookup_insert_eq. by split_and!.
  - destruct (ow_owner _ Hwf _ _ Ht') as (j & x & Hj & E & Ha & Hp). exists j, x.
    rewrite lookup_insert_ne; [done|congruence].
Qed.

Lemma change_owners h h' : change h h' → owners_wf h → owners_wf h'.
Proof.
  intros Hc Hwf. change_cases Hc;
    try (eapply owners_other; [exact Hwf|reflexivity|reflexivity|tauto]).
  - eapply owners_other; [exact Hwf|reflexivity|reflexivity|].
    intros j m _ _. by apply principal_active_add.
  - apply owners_retire; [done|]. by split.
  - exact (owners_team h k t id m Hwf Hk Hk' Hadd' Hteam Hown Hact).
  - by apply owners_add.
  - eapply owners_other; [by eapply (owners_add h mid m)|done..|tauto].
  - apply owners_update; [done|]. intros k m Hk HP. destruct (Hrow _ _ Hk HP) as (Ha & _).
    split; [done|]. apply not_owner_inactive. destruct m; cbn. by destruct r.
  - apply owners_update; [done|]. intros k m Hk HP. destruct (Hrow _ _ Hk HP) as (Ho & _).
    split; apply not_owner_inactive; [done|by destruct m].
  - apply owners_update; [done|]. intros k m Hk HP.
    assert (active_owner (m {{ mb_status := Revoked; mb_updated := now }}) = false) as Hf.
    { unfold active_owner. destruct m; cbn. apply andb_false_r. }
    split; [|done]. specialize (Hupd _ _ Hk HP). unfold membership_update_ok in Hupd.
    rewrite Hf, orb_false_r, !andb_true_iff in Hupd. destruct Hupd as [[[_ Hn] _] _]. by apply negb_true_iff in Hn.
  - apply owners_retire; [done|]. by split.
Qed.

(** C9: In every state a hub can reach, each team has exactly one active owner
    and that owner's principal is active: the check at every start of the
    store never refuses a database the store itself wrote. *)
Theorem teams_have_one_owner h : reachable h → owners_valid h = true.
Proof.
  intros Hr. apply owners_wf_valid. revert h Hr. apply hub_invariant; [by split|].
  intros h1 h2 Hc _. by apply change_owners.
Qed.

(** ** Removal *)

(** C17: A member who was removed from a team never has a role in it again: no
    later call gives the account another membership of the team or revives the
    old one, whatever invitations are still open. *)
Theorem removal_final h h' k m :
  reachable h → memberships h !! k = Some m → mb_status m = Revoked → rtc hub_step h h' →
  team_role (mb_team m) (mb_principal m) h' = None.
Proof.
  intros Hh Hk Hrev Hs. destruct (reachable_step _ _ Hh Hs) as (Hh' & _ & Hle).
  destruct (le_memberships _ _ Hle _ _ Hk) as (m' & Hk' & Ht & Hp & _ & _ & Hst & _).
  unfold team_role. apply find_row_None. intros j x Hj. destruct (is_member _ _ x) eqn:Hx; [|done].
  apply is_member_true in Hx as [Ht' Hp'].
  assert (j = k) as -> by (eapply (proj2 (reachable_changes _ Hh')); [done..| |]; congruence).
  assert (x = m') as -> by congruence. cbn. by rewrite (Hst Hrev).
Qed.
End members.
