(* ===== verification/HubLedger.v ===== *)
(** * Team hub: the audit ledger is a chain

    In every state the hub can reach, the events of a team are a chain of
    digests from the first to the head, which later states only extend; and two
    databases whose heads agree have the same events. *)
From S2P Require Import Prelude.
From S2P Require Import PyValues.
From S2P Require Import HubTokens.
From S2P Require Import Transactions.
From S2P Require Import HubTables.
From S2P Require Import HubAuth.
From S2P Require Import HubSessions.
From S2P Require Import HubAdmin.
From S2P Require Import HubChanges.
From S2P Require Import HubAdminSteps.
From S2P Require Import HubOrder.
From S2P Require Import HubRuns.

Open Scope string_scope.

Section ledger.
Context `{HubCrypto}.

(** What happened in a team, the newest first, with the ids of the events. *)
Notation chain := (list (string * entry)).

Fixpoint digest_of (l : chain) : option string :=
  match l with
  | [] => None
  | (id, e) :: l => Some (event_digest id e (digest_of l) (Z.of_nat (length l) + 1))
  end.

(** The head a chain should have. *)
Definition head_of (l : chain) : option chain_head :=
  match l with
  | [] => None
  | (id, e) :: l' => Some (mkHead id (event_digest id e (digest_of l') (Z.of_nat (length l') + 1))
                             (Z.of_nat (length l') + 1) (en_created e))
  end.

(** Each event is in the table, with the digest of the one before. *)
Fixpoint in_order (h : hub) (t : string) (l : chain) : Prop :=
  match l with
  | [] => True
  | (id, e) :: l =>
      events h !! id = Some (event_row id e (digest_of l) (Z.of_nat (length l) + 1)) ∧ en_team e = t
      ∧ match l with (_, e') :: _ => (en_created e' <= en_created e)%Z | [] => True end
      ∧ in_order h t l
  end.

(** The ledger of a team says [l], and nothing else. *)
Record ledger (h : hub) (t : string) (l : chain) : Prop := {
  ld_head : heads h !! t = head_of l;
  ld_rows : in_order h t l;
  ld_all id ev : events h !! id = Some ev → ev_team ev = t → id ∈ l.*1;
  ld_distinct : NoDup l.*1;
}.

Lemma head_hash l : hd_hash <$> head_of l = digest_of l.
Proof. by destruct l as [|[id e] l]. Qed.

Lemma head_sequence l : next_sequence (head_of l) = (Z.of_nat (length l) + 1)%Z.
Proof. destruct l as [|[id e] l]; cbn; [done|]. lia. Qed.

Lemma recorded_le h h' t l : (∀ id ev, events h !! id = Some ev → events h' !! id = Some ev) →
  in_order h t l → in_order h' t l.
Proof. intros Hev. induction l as [|[id e] l IH]; [done|]. cbn. intros (H1 & H2 & H3 & H4). eauto 6. Qed.

Lemma ledger_same h h' t l : events h' = events h → heads h' = heads h → ledger h t l → ledger h' t l.
Proof.
  intros He Hh [L1 L2 L3 L4]. split; rewrite ?Hh, ?He; [done| |done|done]. eapply recorded_le; [|done]. by rewrite He.
Qed.

Lemma recorded_in h t l id : in_order h t l → id ∈ l.*1 → events h !! id ≠ None.
Proof.
  induction l as [|[j e] l IH]; cbn; [by intros _ Hid%elem_of_nil|].
  intros (Hj & _ & _ & Hl) [->|Hid]%elem_of_cons; [congruence|by apply IH].
Qed.

(** Every change leaves a ledger as it is, or appends to it. *)
Lemma change_ledger h h' team L : change h h' → ledger h team L → ∃ L', ledger h' team (L' ++ L).
Proof.
  intros Hc Hl. change_cases Hc; try (exists []; apply (ledger_same h); [reflexivity|reflexivity|exact Hl]).
  destruct Hl as [L1 L2 L3 L4]. set (n := next_sequence _) in *. set (prev := hd_hash <$> _) in *.
  set (row := event_row id e prev n) in *.
  assert (∀ j ev, events h !! j = Some ev → <[id := row]> (events h) !! j = Some ev) as Hev.
  { intros j ev Hj. rewrite lookup_insert_ne; [done|congruence]. }
  destruct (decide (en_team e = team)) as [E|E].
  - exists [(id, e)]. subst team row prev n. rewrite L1, head_hash, head_sequence in *. split; cbn.
    + by rewrite lookup_insert_eq.
    + rewrite lookup_insert_eq. split_and!; [done|done| |by eapply recorded_le].
      destruct L as [|[id' e'] L]; [done|]. by apply (Htime _ eq_refl).
    + intros j ev. rewrite lookup_insert_Some. intros [[<- _]|[_ Hj]] Ht; [left|right; by eapply L3].
    + apply NoDup_cons. split; [|done]. intros Hid. by apply (recorded_in _ _ _ _ L2 Hid).
  - exists []. split; cbn.
    + by rewrite lookup_insert_ne.
    + by eapply recorded_le.
    + intros j ev. rewrite lookup_insert_Some. intros [[_ <-]|[_ Hj]] Ht; [done|by eapply L3].
    + done.
Qed.

Lemma changes_ledger h h' t l : changes h h' → ledger h t l → ∃ l', ledger h' t (l' ++ l).
Proof.
  intros Hc. revert l. induction Hc as [h|h1 h2 h3 Hc _ IH]; intros l Hl; [by exists []|].
  destruct (change_ledger _ _ _ _ Hc Hl) as [l1 Hl1]. destruct (IH _ Hl1) as [l2 Hl2].
  exists (l2 ++ l1)%list. by rewrite <- app_assoc.
Qed.

(** C25: In every state a hub can reach, the events of a team are a chain: each
    carries the digest of its content, its number and the digest of the one
    before, their times do not go back, the head names the last and counts
    them, and no event of the team is outside it. Later states extend the same
    chain. *)
Theorem ledger_is_chain h t : reachable h →
  ∃ l, ledger h t l ∧ ∀ h', rtc hub_step h h' → ∃ l', ledger h' t (l' ++ l).
Proof.
  intros Hr. destruct (changes_ledger no_hub h t []) as [l Hl].
  - by apply reachable_changes.
  - split; [done..|constructor].
  - rewrite app_nil_r in Hl. exists l. split; [done|]. intros h' Hs.
    eapply changes_ledger; [|done]. by eapply reachable_step.
Qed.

(** ** Tampering shows *)

(** Two inputs with the same digest. *)
Definition collision : Prop := ∃ x y, x ≠ y ∧ sha256 x = sha256 y.

Lemma hex_digit_inj m n : (m < 16)%N → (n < 16)%N → hex_digit m = hex_digit n → m = n.
Proof.
  intros Hm Hn. assert (forallb (λ i, forallb (λ j, negb (Ascii.eqb (hex_digit (N.of_nat i)) (hex_digit (N.of_nat j)))
    || (i =? j)%nat) (seq 0 16)) (seq 0 16) = true) as Hall by reflexivity.
  rewrite forallb_forall in Hall. specialize (Hall (N.to_nat m)). rewrite forallb_forall in Hall.
  intros E. specialize (Hall ltac:(apply in_seq; lia) (N.to_nat n) ltac:(apply in_seq; lia)).
  rewrite !N2Nat.id, E, Ascii.eqb_refl in Hall. cbn in Hall. apply Nat.eqb_eq in Hall. lia.
Qed.

Lemma hex_of_inj x y : hex_of x = hex_of y → x = y.
Proof.
  unfold hex_of. revert y. induction x as [|c x IH]; intros [|d y]; cbn; try done.
  intros [= E1 E2 E3]. pose proof (code_lt c). pose proof (code_lt d).
  apply hex_digit_inj in E1; [|apply N.Div0.div_lt_upper_bound; lia..].
  apply hex_digit_inj in E2; [|apply N.mod_lt; lia..].
  f_equal; [|by apply IH]. rewrite <- (chr_code c), <- (chr_code d). f_equal.
  rewrite (N.div_mod (code c) 16), (N.div_mod (code d) 16) by done. congruence.
Qed.

(** The dict that is hashed, in the order it is written. *)
Lemma sorted_body id e p n :
  sort_keys (event_body id e p n) =
  PDict [("action", PStr (en_action e)); ("actor_principal_id", PStr (en_actor e)); ("created_at", PInt (en_created e));
    ("id", PStr id); ("metadata", sort_keys (PDict (en_metadata e))); ("node_id", opt_text (en_node e));
    ("outcome", PStr (en_outcome e)); ("previous_event_hash", opt_text (hex_of <$> p));
    ("resource_id", PStr (en_resource e)); ("resource_type", PStr (en_type e)); ("sequence", PInt n);
    ("team_id", PStr (en_team e))].
Proof.
  unfold event_body. generalize (PDict (en_metadata e)). intros m.
  destruct (en_node e), p; cbn [opt_text fmap option_fmap option_map]; reflexivity.
Qed.

Lemma opt_text_inj o o' : opt_text o = opt_text o' → o = o'.
Proof. destruct o, o'; cbn; congruence. Qed.

(** The digest of an event stands for all of it, but for collisions. *)
Lemma event_digest_inj id e p n id' e' p' n' :
  event_digest id e p n = event_digest id' e' p' n' →
  collision ∨ (id = id' ∧ p = p' ∧ n = n' ∧ event_row id e p n = event_row id' e' p' n').
Proof.
  intros E. pose proof E as Ed. unfold event_digest in E.
  destruct (decide (canonical_json (event_body id e p n) = canonical_json (event_body id' e' p' n'))) as [Ec|Ec];
    [|left; by eexists _, _].
  right. apply canonical_json_eq in Ec. rewrite !sorted_body in Ec.
  injection Ec as E1 E2 E3 E4 E5 E6 E7 E8 E9 E10 E11 E12.
  apply opt_text_inj in E6, E8.
  assert (p = p') as -> by (destruct p, p'; try done; injection E8 as E8; f_equal; by apply hex_of_inj).
  split_and!; try done. unfold event_row, dumps_sorted. rewrite Ed. cbn [sort_keys]. rewrite E5. congruence.
Qed.

(** Chains with the same head digest and length. *)
Lemma chains_agree h h' t L L' :
  in_order h t L → in_order h' t L' → digest_of L = digest_of L' → length L = length L' →
  collision ∨ (L.*1 = L'.*1 ∧ ∀ id, id ∈ L.*1 → events h !! id = events h' !! id).
Proof.
  revert L'. induction L as [|[id e] L IH]; intros [|[id' e'] L'] H1 H2 Hd Hn; try done.
  - right. split; [done|]. intros id Hid. by apply elem_of_nil in Hid.
  - destruct H1 as (R1 & _ & _ & R2), H2 as (S1 & _ & _ & S2). cbn in Hd, Hn.
    apply (inj Some) in Hd. apply event_digest_inj in Hd as [Hcol|(-> & Hp & _ & Hrow)]; [by left|].
    destruct (IH L' R2 S2 Hp ltac:(congruence)) as [Hcol|[Hids Hall]]; [by left|]. right. cbn. split; [congruence|].
    intros id [->|Hid]%elem_of_cons; [|by apply Hall]. rewrite R1, S1. by f_equal.
Qed.

End ledger.
