(* ===== verification/HubAccess.v ===== *)
(** * Team hub: access tokens are read back

    A token [AccessTokenSigner.mint] made is accepted until it expires and says
    what it was made for; a token that is accepted was signed with the key. *)
From S2P Require Import Prelude.
From S2P Require Import PyValues.
From S2P Require Import Json.
From S2P Require Import HubTokens.

Open Scope string_scope.

Ltac Zify.zify_post_hook ::= Z.to_euclidean_division_equations.

(** ** base64 *)

Lemma chr_of c n : n = code c → chr n = c.
Proof. intros ->. apply chr_code. Qed.

(** What three bytes become, and back. *)
Lemma b64_group a b c r :
  b64_decode (String (b64_char (code a / 4)) (String (b64_char (code a mod 4 * 16 + code b / 16))
        (String (b64_char (code b mod 16 * 4 + code c / 64))
          (String (b64_char (code c mod 64)) r)))) = (rest ← b64_decode r; Some (String a (String b (String c rest)))).
Proof.
  pose proof (code_lt a). pose proof (code_lt b). pose proof (code_lt c).
  destruct (b64_char_spec (code a / 4)) as (E1 & _); [lia|].
  destruct (b64_char_spec (code a mod 4 * 16 + code b / 16)) as (E2 & _); [lia|].
  destruct (b64_char_spec (code b mod 16 * 4 + code c / 64)) as (E3 & P3 & _); [lia|].
  destruct (b64_char_spec (code c mod 64)) as (E4 & P4 & _); [lia|].
  cbn [b64_decode]. rewrite E1, E2, E3, E4, P3, P4. cbn [mbind option_bind].
  rewrite (chr_of a) by lia. rewrite (chr_of b) by lia. by rewrite (chr_of c) by lia.
Qed.

Lemma padding_add n : padding (4 + n) = padding n.
Proof.
  unfold padding. replace (4 + n)%nat with (n + 1 * 4)%nat by lia. by rewrite Nat.Div0.mod_add.
Qed.

(** Three bytes at a time. *)
Lemma three_ind (P : string → Prop) :
  P "" → (∀ a, P (String a "")) → (∀ a b, P (String a (String b ""))) →
  (∀ a b c r, P r → P (String a (String b (String c r)))) → ∀ s, P s.
Proof.
  intros H0 H1 H2 H3. fix IH 1. intros [|a [|b [|c r]]]; [exact H0|apply H1|apply H2|apply H3, IH].
Qed.

Lemma b64_roundtrip s : b64_decode (b64url_encode s +:+ padding (String.length (b64url_encode s))) = Some s.
Proof.
  induction s as [|a|a b|a b c r IH] using three_ind.
  - done.
  - pose proof (code_lt a).
    destruct (b64_char_spec (code a / 4)) as (E1 & _); [lia|].
    destruct (b64_char_spec (code a mod 4 * 16)) as (E2 & _); [lia|].
    change (b64_decode (String (b64_char (code a / 4)) (String (b64_char (code a mod 4 * 16)) "==")) = Some (String a "")).
    cbn [b64_decode]. rewrite E1, E2. cbn [mbind option_bind is_pad]. rewrite (chr_of a) by lia. done.
  - pose proof (code_lt a). pose proof (code_lt b).
    destruct (b64_char_spec (code a / 4)) as (E1 & _); [lia|].
    destruct (b64_char_spec (code a mod 4 * 16 + code b / 16)) as (E2 & _); [lia|].
    destruct (b64_char_spec (code b mod 16 * 4)) as (E3 & P3 & _); [lia|].
    change (b64_decode (String (b64_char (code a / 4)) (String (b64_char (code a mod 4 * 16 + code b / 16))
      (String (b64_char (code b mod 16 * 4)) "="))) = Some (String a (String b ""))).
    cbn [b64_decode]. rewrite E1, E2, E3, P3. cbn [mbind option_bind].
    rewrite (chr_of a) by lia. rewrite (chr_of b) by lia. done.
  - cbn [b64url_encode String.length].
    change (S (S (S (S ?n)))) with (4 + n)%nat. rewrite padding_add.
    rewrite !sapp_cons, b64_group, IH. done.
Qed.

(** All characters of an encoding are ASCII and none is a dot. *)
Definition b64_text (c : Ascii.ascii) : bool := is_ascii c && negb (Ascii.eqb (chr 46) c).

Lemma b64_char_text n : (n < 64)%N → b64_text (b64_char n) = true.
Proof. intros (_ & _ & Ha & Hd)%b64_char_spec. unfold b64_text. by rewrite Ha, Hd. Qed.

Lemma b64_all_text s : string_forallb b64_text (b64url_encode s) = true.
Proof.
  induction s as [|a|a b|a b c r IH] using three_ind; [done|..];
    pose proof (code_lt a); try pose proof (code_lt b); try pose proof (code_lt c);
    cbn [b64url_encode string_forallb]; rewrite ?IH, !b64_char_text by lia; done.
Qed.

Lemma b64_length s : (String.length (b64url_encode s) ≤ 2 * String.length s)%nat.
Proof. induction s as [|a|a b|a b c r IH] using three_ind; cbn [b64url_encode String.length]; lia. Qed.

Lemma b64url_roundtrip s : s ≠ "" → (String.length s ≤ 4096)%nat → b64url_decode (b64url_encode s) = Ok s.
Proof.
  intros Hs Hl. unfold b64url_decode. pose proof (b64_length s) as Hn.
  rewrite b64_roundtrip. destruct (String.eqb (b64url_encode s) "") eqn:E.
  - apply String.eqb_eq in E. pose proof (b64_roundtrip s) as Hr. rewrite E in Hr. change (Some "" = Some s) in Hr. congruence.
  - unfold len. by destruct (8192 <? _)%Z eqn:E2; [lia|].
Qed.

(** ** The three parts *)

Definition no_dot (s : string) : Prop := string_forallb (λ c, negb (Ascii.eqb (chr 46) c)) s = true.

Lemma split_on_step s r : no_dot s → split_on (chr 46) (s +:+ "." +:+ r) = s :: split_on (chr 46) r.
Proof.
  unfold no_dot. induction s as [|c s IH]; cbn [string_forallb].
  - done.
  - intros [Hc Hs]%andb_true_iff. rewrite sapp_cons. cbn [split_on].
    apply negb_true_iff in Hc. rewrite Hc, IH by done. done.
Qed.

Lemma split_on_none s : no_dot s → split_on (chr 46) s = [s].
Proof.
  unfold no_dot. induction s as [|c s IH]; cbn [string_forallb split_on]; [done|].
  intros [Hc Hs]%andb_true_iff. apply negb_true_iff in Hc. by rewrite Hc, IH.
Qed.

Lemma split_on_cons c s : ∃ w l, split_on c s = w :: l.
Proof.
  destruct s as [|d s]; [by eexists _, _|]. cbn [split_on].
  destruct (Ascii.eqb c d); [by eexists _, _|]. by destruct (split_on c s); eexists _, _.
Qed.

Lemma split_on_join s : String.concat "." (split_on (chr 46) s) = s.
Proof.
  induction s as [|c s IH]; cbn [split_on]; [done|]. destruct (split_on_cons (chr 46) s) as (w & l & E).
  rewrite E in *. destruct (Ascii.eqb (chr 46) c) eqn:Ec.
  - apply Ascii.eqb_eq in Ec. subst c.
    change (String (chr 46) (String.concat "." (w :: l)) = String (chr 46) s). by rewrite IH.
  - destruct l; cbn in IH |- *; by rewrite <- IH.
Qed.

(** ** JSON of printable text *)

Definition plain (c : Ascii.ascii) : bool := (code c <? 127)%N.

Lemma utf8_ascii s : string_forallb is_ascii s = true → utf8 s = s.
Proof.
  unfold utf8. induction s as [|c s IH]; cbn [string_forallb concat_map]; [done|].
  intros [Hc Hs]%andb_true_iff. rewrite (IH Hs). unfold utf8_char. unfold is_ascii in Hc. by rewrite Hc.
Qed.

Lemma json_str_plain s : string_forallb plain s = true → json_str s = ascii_str s.
Proof.
  intros Hs. unfold json_str, ascii_str. do 2 f_equal.
  induction s as [|c s IH]; cbn [string_forallb concat_map] in *; [done|].
  apply andb_true_iff in Hs as [Hc Hs]. rewrite (IH Hs). f_equal. unfold ascii_char. unfold plain in Hc.
  apply N.ltb_lt in Hc. by rewrite (proj2 (N.leb_gt _ _) Hc).
Qed.

Lemma printable_plain s : printable s = true → string_forallb plain s = true.
Proof. apply forallb_impl. intros c. unfold plain. rewrite andb_true_iff, !N.leb_le, N.ltb_lt. lia. Qed.

(** A dict of printable strings and integers. *)
Definition plain_item (kv : string * pyval) : Prop :=
  string_forallb plain kv.1 = true
  ∧ match kv.2 with PStr s => string_forallb plain s = true | PInt _ => True | _ => False end.

Lemma plain_dict d : Forall plain_item d → encode_value (PDict d) = encode_ascii (PDict d).
Proof.
  intros Hd. cbn [encode_value encode_ascii]. do 3 f_equal. apply map_ext_Forall.
  eapply Forall_impl; [exact Hd|]. intros [k v] [Hk Hv]. cbn in *. rewrite json_str_plain by done.
  destruct v; try done. cbn. by rewrite json_str_plain.
Qed.

Lemma ascii_str_length s : printable s = true → (String.length (ascii_str s) ≤ 2 * String.length s + 2)%nat.
Proof.
  intros Hs. unfold ascii_str. cbn [String.length]. rewrite slength_app. cbn [String.length].
  enough (String.length (concat_map ascii_char s) ≤ 2 * String.length s)%nat by lia.
  unfold printable in Hs. induction s as [|c s IH]; cbn [string_forallb concat_map String.length] in *; [lia|].
  apply andb_true_iff in Hs as [Hc Hs]. specialize (IH Hs). rewrite slength_app.
  enough (String.length (ascii_char c) ≤ 2)%nat by lia.
  revert Hc. destruct c as [[] [] [] [] [] [] [] []]; vm_compute; intros; lia || done.
Qed.

Lemma pretty_N_length x : (x < 10 ^ N.of_nat 20)%N → (String.length (pretty x) ≤ 20)%nat.
Proof.
  intros Hx. unfold pretty, pretty_N. destruct (decide _) as [|_]; [cbn; lia|].
  etrans; [by apply (pretty_go_length 20)|]. change (String.length "") with 0%nat. lia.
Qed.

Lemma pretty_length z : (0 <= z < 10 ^ 20)%Z → (String.length (pretty z) ≤ 20)%nat.
Proof.
  intros Hz. destruct z as [|p|p]; [by vm_compute; lia| |lia].
  apply (pretty_N_length (N.pos p)). apply N2Z.inj_lt. rewrite N2Z.inj_pow. apply Hz.
Qed.

Lemma brace_is_utf8 r : takes_for_utf8 (String (chr 123) (String dquote r)) = true.
Proof. by destruct r as [|x [|y r]]. Qed.

Lemma dict_starts k v d : ∃ r, encode_ascii (PDict ((k, v) :: d)) = String (chr 123) (String dquote r).
Proof.
  cbn [encode_ascii map fst snd]. destruct d; cbn [join map]; unfold ascii_str; eexists; by rewrite ?sapp_assoc.
Qed.

(** What [json.loads] makes of a dict that was written. *)
Lemma json_of_dict `{HubCrypto} k v d :
  json_wf (PDict ((k, v) :: d)) → json_of_bytes (encode_ascii (PDict ((k, v) :: d))) = Ok (PDict ((k, v) :: d)).
Proof.
  intros Hwf.
  assert (json_loads (encode_ascii (PDict ((k, v) :: d))) = Ok (PDict ((k, v) :: d))) as Hj.
  { unfold json_loads. rewrite utf8_decode_ascii by apply encode_ascii_ascii.
    rewrite <- (sapp_nil_r (encode_ascii _)). by apply json_parse_ascii. }
  unfold json_of_bytes. rewrite Hj. destruct (dict_starts k v d) as [r ->]. by rewrite brace_is_utf8.
Qed.

(** ** Tokens *)

Section tokens.
Context `{HubCrypto}.
(** An HMAC of SHA-256 has 32 bytes. *)
Context (hmac_length : ∀ key m, len (hmac_sha256 key m) = 32%Z).

(** The payload in the order it is written. *)
Definition sorted_payload (sub sid jti : string) (iat exp : Z) : list (string * pyval) :=
  [("aud", PStr TOKEN_AUDIENCE); ("exp", PInt exp); ("iat", PInt iat); ("iss", PStr TOKEN_ISSUER);
   ("jti", PStr jti); ("nbf", PInt iat); ("sid", PStr sid); ("sub", PStr sub)].

Lemma sort_payload sub sid jti iat exp :
  sort_keys (PDict (access_payload sub sid jti iat exp)) = PDict (sorted_payload sub sid jti iat exp).
Proof. reflexivity. Qed.

Lemma raise_if_not {A} b e (m : res A) : b = false → (raise_if b e;; m) = m.
Proof. by intros ->. Qed.

(** What is read from a payload that was written. *)
Lemma text_field_Ok d k s maximum : items_get d k = PStr s → printable s = true → (1 <= len s <= maximum)%Z →
  text_field d k maximum = Ok s.
Proof.
  intros Hk Hp Hl. unfold text_field. rewrite Hk, Hp. rewrite raise_if_not; [done|].
  rewrite orb_false_r. apply negb_false_iff. lia.
Qed.

Lemma int_field_Ok d k z : items_get d k = PInt z → int_field d k = Ok z.
Proof. unfold int_field. by intros ->. Qed.

Lemma verify_sorted sub sid jti iat exp now :
  printable sub = true → printable sid = true → printable jti = true →
  (1 <= len sub <= 240)%Z → (1 <= len sid <= 240)%Z → (1 <= len jti <= 128)%Z →
  (iat <= now + 5)%Z → (now < exp)%Z → (iat < exp <= iat + 600)%Z →
  verify_payload (sorted_payload sub sid jti iat exp) now = Ok (mkAccess sub sid jti iat exp).
Proof.
  intros P1 P2 P3 L1 L2 L3 T1 T2 T3. unfold verify_payload.
  rewrite raise_if_not by done.
  change (items_get (sorted_payload sub sid jti iat exp) "iss") with (PStr TOKEN_ISSUER).
  change (items_get (sorted_payload sub sid jti iat exp) "aud") with (PStr TOKEN_AUDIENCE).
  rewrite raise_if_not by (by rewrite !bool_decide_true).
  rewrite (text_field_Ok _ "sub" sub) by done. rewrite (text_field_Ok _ "sid" sid) by done.
  rewrite (text_field_Ok _ "jti" jti) by done.
  rewrite (int_field_Ok _ "iat" iat) by done. rewrite (int_field_Ok _ "nbf" iat) by done.
  rewrite (int_field_Ok _ "exp" exp) by done.
  rewrite !res_bind_ret, !raise_if_not; [done|..].
  - unfold ACCESS_TOKEN_TTL_SECONDS. rewrite !orb_false_iff, !Z.leb_gt, Z.ltb_ge. lia.
  - rewrite Z.eqb_refl. apply Z.ltb_ge. lia.
Qed.

Lemma sorted_plain sub sid jti iat exp :
  printable sub = true → printable sid = true → printable jti = true →
  Forall plain_item (sorted_payload sub sid jti iat exp).
Proof.
  intros P1%printable_plain P2%printable_plain P3%printable_plain.
  unfold sorted_payload, plain_item. repeat (apply Forall_cons; split); cbn; [by split_and!..|done].
Qed.

Lemma canonical_payload sub sid jti iat exp :
  printable sub = true → printable sid = true → printable jti = true →
  canonical_json (PDict (access_payload sub sid jti iat exp)) = encode_ascii (PDict (sorted_payload sub sid jti iat exp)).
Proof.
  intros P1 P2 P3. unfold canonical_json, dumps_sorted, dumps. rewrite sort_payload.
  rewrite plain_dict by (by apply sorted_plain). by rewrite utf8_ascii by apply encode_ascii_ascii.
Qed.

Lemma payload_length sub sid jti iat exp :
  printable sub = true → printable sid = true → printable jti = true →
  (len sub <= 240)%Z → (len sid <= 240)%Z → (len jti <= 128)%Z → (0 <= iat < 10 ^ 20)%Z → (0 <= exp < 10 ^ 20)%Z →
  (String.length (encode_ascii (PDict (sorted_payload sub sid jti iat exp))) ≤ 1500)%nat.
Proof.
  intros P1%ascii_str_length P2%ascii_str_length P3%ascii_str_length L1 L2 L3 T1%pretty_length T2%pretty_length.
  unfold len in *. cbn [sorted_payload encode_ascii map fst snd join].
  rewrite !slength_app. revert P1 P2 P3 T1 T2.
  generalize (ascii_str sub) (ascii_str sid) (ascii_str jti) (pretty iat) (pretty exp).
  intros a b c d e P1 P2 P3 T1 T2.
  repeat match goal with |- context [String.length (ascii_str ?s)] =>
    let n := eval vm_compute in (String.length (ascii_str s)) in change (String.length (ascii_str s)) with n end.
  cbn [String.length]. lia.
Qed.

Lemma payload_wf sub sid jti iat exp :
  (0 <= iat < 10 ^ 20)%Z → (0 <= exp < 10 ^ 20)%Z → json_wf (PDict (sorted_payload sub sid jti iat exp)).
Proof.
  intros T1%pretty_length T2%pretty_length. apply json_wf_dict. split.
  - apply (bool_decide_unpack _). vm_compute. done.
  - unfold sorted_payload. repeat (apply Forall_cons; split); cbn; first [done|lia|idtac].
Qed.

Lemma b64_no_dot s : no_dot (b64url_encode s).
Proof.
  unfold no_dot. eapply forallb_impl; [|apply b64_all_text]. intros c [_ Hc]%andb_true_iff. exact Hc.
Qed.

Lemma b64_ascii s : string_forallb is_ascii (b64url_encode s) = true.
Proof. eapply forallb_impl; [|apply b64_all_text]. by intros c [Hc _]%andb_true_iff. Qed.

Lemma header_json : json_of_bytes (canonical_json HEADER) = Ok HEADER.
Proof. reflexivity. Qed.

Lemma len_length s n : len s = Z.of_nat n → String.length s = n.
Proof. unfold len. lia. Qed.

(** The three parts of a token whose payload is [p]. *)
Lemma verify_parts key p now d :
  p ≠ "" → (String.length p ≤ 1500)%nat → json_of_bytes p = Ok (PDict d) →
  verify key (b64url_encode (canonical_json HEADER) +:+ "." +:+ b64url_encode p +:+ "." +:+
    b64url_encode (hmac_sha256 key (b64url_encode (canonical_json HEADER) +:+ "." +:+ b64url_encode p))) now
  = verify_payload d now.
Proof.
  intros Hp Hl Hj. set (hd := b64url_encode (canonical_json HEADER)). set (sig := hmac_sha256 key _).
  assert (String.length sig = 32%nat) as Hs by apply len_length, hmac_length.
  assert (sig ≠ "") as Hne by (intros E; by rewrite E in Hs).
  assert (String.length hd = 43%nat) as Hh by reflexivity.
  pose proof (b64_length p) as Hp2. pose proof (b64_length sig) as Hs2.
  unfold verify. rewrite raise_if_not; cycle 1.
  { unfold len. rewrite !slength_app, Hh. cbn [String.length]. apply negb_false_iff, andb_true_iff. rewrite !Z.leb_le. lia. }
  rewrite (split_on_step hd) by apply b64_no_dot. rewrite split_on_step by apply b64_no_dot.
  rewrite split_on_none by apply b64_no_dot.
  rewrite raise_if_not by (apply negb_false_iff; rewrite !forallb_app; subst hd; by rewrite !b64_ascii).
  rewrite (b64url_roundtrip sig) by (done || lia). rewrite res_bind_ret, raise_if_not by (by rewrite String.eqb_refl).
  subst hd. rewrite (b64url_roundtrip (canonical_json HEADER)), res_bind_ret, header_json, res_bind_ret; cycle 1.
  { done. }
  { apply (bool_decide_unpack _). vm_compute. exact I. }
  rewrite (b64url_roundtrip p) by (done || lia). rewrite res_bind_ret, Hj, res_bind_ret.
  by rewrite raise_if_not.
Qed.

(** An access token is accepted from the moment it is minted, by clocks up to
    five seconds behind, until it expires, and gives the account, session, id
    and times it was minted with. *)
Theorem access_token_roundtrip key sub sid jti issued ttl now m :
  mint key sub sid jti issued ttl = Ok m →
  printable jti = true → (1 <= len jti <= 128)%Z → (0 <= issued)%Z → (issued + ttl < 10 ^ 20)%Z →
  (issued - 5 <= now < issued + ttl)%Z →
  verify key (mt_token m) now = Ok (mkAccess sub sid jti issued (issued + ttl)).
Proof.
  unfold mint. intros Hm Pj Lj T0 T1 T2.
  apply res_bind_Ok in Hm as ([] & Ht%raise_if_Ok & Hm). apply res_bind_Ok in Hm as ([] & Hf%raise_if_Ok & Hm).
  apply Ok_inj in Hm as <-. cbn [mt_token].
  apply negb_false_iff, andb_true_iff in Ht. rewrite !Z.leb_le in Ht. unfold ACCESS_TOKEN_TTL_SECONDS in Ht.
  rewrite !orb_false_iff, !negb_false_iff, !andb_true_iff, !Z.leb_le in Hf.
  destruct Hf as [[[Lsub Lsid] Psub] Psid].
  rewrite canonical_payload, !sapp_assoc by done. rewrite verify_parts with (d := sorted_payload sub sid jti issued (issued + ttl)).
  - apply verify_sorted; done || lia.
  - unfold sorted_payload.
    match goal with |- encode_ascii (PDict ((?k, ?v) :: ?d)) ≠ _ => by destruct (dict_starts k v d) as [r ->] end.
  - apply payload_length; done || lia.
  - apply json_of_dict, payload_wf; lia.
Qed.

(** C39: An access token is only accepted if it ends with the HMAC, under the
    hub's key, of all that comes before; and it then expires in the future, at
    most ten minutes and five seconds from now. *)
Theorem access_token_sound key token now a :
  verify key token now = Ok a →
  (∃ signed signature, token = signed +:+ "." +:+ signature ∧ b64url_decode signature = Ok (hmac_sha256 key signed)) ∧
  (now < ac_exp a <= now + 605)%Z ∧ (ac_iat a <= now + 5)%Z ∧ (ac_iat a < ac_exp a)%Z.
Proof.
  unfold verify. intros Hv. apply res_bind_Ok in Hv as ([] & _ & Hv).
  pose proof (split_on_join token) as Hj. destruct (split_on (chr 46) token) as [|hd [|p [|sg [|? ?]]]]; try done.
  apply res_bind_Ok in Hv as ([] & _ & Hv). apply res_bind_Ok in Hv as (supplied & Hd & Hv).
  apply res_bind_Ok in Hv as ([] & Hs%raise_if_Ok & Hv). apply negb_false_iff, String.eqb_eq in Hs as ->.
  split.
  - exists (hd +:+ "." +:+ p), sg. split; [|done]. rewrite <- Hj. by rewrite !sapp_assoc.
  - apply res_bind_Ok in Hv as (? & _ & Hv). apply res_bind_Ok in Hv as (? & _ & Hv).
    apply res_bind_Ok in Hv as (? & _ & Hv). apply res_bind_Ok in Hv as (v & _ & Hv).
    apply res_bind_Ok in Hv as ([] & _ & Hv). destruct v as [| | | | |d]; try done.
    unfold verify_payload in Hv. do 2 (apply res_bind_Ok in Hv as ([] & _ & Hv)).
    do 3 (apply res_bind_Ok in Hv as (? & _ & Hv)). apply res_bind_Ok in Hv as (iat & _ & Hv).
    apply res_bind_Ok in Hv as (nbf & _ & Hv). apply res_bind_Ok in Hv as (exp & _ & Hv).
    apply res_bind_Ok in Hv as ([] & H1%raise_if_Ok & Hv). apply res_bind_Ok in Hv as ([] & H2%raise_if_Ok & Hv).
    injection Hv as <-. cbn. unfold ACCESS_TOKEN_TTL_SECONDS in H2.
    rewrite !orb_false_iff, !Z.leb_gt, Z.ltb_ge in H2. apply orb_false_iff in H1 as [_ H1%Z.ltb_ge]. lia.
Qed.
End tokens.
