(* ===== verification/HubSafe.v ===== *)
(** * Team hub: a run

    A hub from its first start: the owner bootstraps, invites a second account
    which redeems the invitation, sessions are refreshed and end.  The digests
    are those of a toy function. *)
From S2P Require Import Prelude.
From S2P Require Import PyValues.
From S2P Require Import HubTokens.
From S2P Require Import Transactions.
From S2P Require Import HubTables.
From S2P Require Import HubAuth.
From S2P Require Import HubServers.
From S2P Require Import HubSessions.
From S2P Require Import HubAdmin.
From S2P Require Import HubChanges.
From S2P Require Import HubSteps.
From S2P Require Import HubOrder.
From S2P Require Import HubRuns.
From S2P Require Import HubSessionEnds.
From S2P Require Import HubMembers.
From S2P Require Import HubLedger.
From S2P Require Import HubAccess.
Open Scope string_scope.

(** ** Digests of 32 bytes *)

Fixpoint polynomial (s : string) (acc : N) : N :=
  match s with
  | "" => acc
  | String c s => polynomial s (N.land (N.shiftl acc 5 + acc + code c + 1) 18446744073709551615)
  end.

Fixpoint bytes_of (n : nat) (x : N) : string :=
  match n with
  | O => ""
  | S n => String (chr (x mod 256)) (bytes_of n (x / 256))
  end.

Lemma bytes_of_length n x : String.length (bytes_of n x) = n.
Proof. revert x. induction n as [|n IH]; intros x; cbn; [done|]. by rewrite IH. Qed.

#[local] Instance toy_crypto : HubCrypto := {
  sha256 s := bytes_of 32 (polynomial s 7);
  hmac_sha256 key s := bytes_of 32 (polynomial (key +:+ s) 11);
  wide_json _ := Err JSONDecodeError;
}.

Lemma toy_hmac_length key m : len (hmac_sha256 key m) = 32%Z.
Proof. cbn [hmac_sha256 toy_crypto]. unfold len. by rewrite bytes_of_length. Qed.

(** ** The run *)

Definition cfg : config := mkConfig (Some "server-identity-1") (Some "instance-1") "Host" "hub-1" "key".
(** Random bytes of the call [k]. *)
Definition rnd (k : string) (i : nat) : string := "random-bytes-of-call-" +:+ k +:+ "-" +:+ pretty (Z.of_nat i).

Definition hub0 : hub :=
  perform cfg (Initialize (Some "server-identity-1") false None) 1000 (rnd "0") no_hub.

Definition start : bootstrap_request :=
  mkBootstrap (opaque_secret "bootstrap" (rnd "0" 0)).1 "ann@example.org" "Ann" "Laptop" "loopback" None None None "".

Definition ann_bundle : res bundle := (run (bootstrap cfg start 1010 (rnd "1")) hub0).2.
Definition hub1 : hub := perform cfg (Bootstrap start) 1010 (rnd "1") hub0.

(** What a call returned, or a value that is not used. *)
Definition no_bundle : bundle := mkBundle "" 0 "" 0 (mkRow "" "" "" 0 None "" Human) [].
Definition result_or {A} (d : A) (r : res A) : A := match r with Ok a => a | Err _ => d end.

Definition ann : bundle := Eval vm_compute in result_or no_bundle ann_bundle.
Definition no_claims : access_claims := mkClaims "" "" "" 0 "" None ∅ None.
Definition ann_claims : access_claims := Eval vm_compute in result_or no_claims (verify_access cfg (bu_access ann) 1015).
Definition team1 : string := Eval vm_compute in new_id "team" (rnd "1" 1).

Definition invitation_token : string := rnd "2" 0.
Definition hub2 : hub :=
  perform cfg (IssueInvite ann_claims team1 "bob@example.org" "member" 3600) 1020 (rnd "2") hub1.

Definition bob_result := redeem_invite cfg invitation_token "bob@example.org" "Bob" "Phone" 1030 (rnd "3").
Definition bob : bundle := Eval vm_compute in result_or no_bundle (run bob_result hub2).2.
Definition hub3 : hub :=
  perform cfg (RedeemInvite invitation_token "bob@example.org" "Bob" "Phone") 1030 (rnd "3") hub2.

(** Bob's refresh token is used, and then used again. *)
Definition bob2 : bundle := Eval vm_compute in result_or no_bundle (refresh cfg (bu_refresh bob) 1040 (rnd "4") hub3).2.
Definition hub4 : hub := perform cfg (Refresh (bu_refresh bob)) 1040 (rnd "4") hub3.
Definition hub5 : hub := perform cfg (Refresh (bu_refresh bob)) 1050 (rnd "5") hub4.

(** Bob recovers his device. *)
Definition recovery_proof : string := (opaque_secret "owner-recovery" (rnd "6" 0)).1.
Definition hub6 : hub :=
  perform cfg (IssueRecovery "bob@example.org" "Phone" None false) 1060 (rnd "6") hub5.
Definition bob3 : bundle := Eval vm_compute in
  result_or no_bundle (run (redeem_device_recovery cfg recovery_proof "Phone" 1070 (rnd "7")) hub6).2.
Definition hub7 : hub := perform cfg (RedeemRecovery recovery_proof "Phone") 1070 (rnd "7") hub6.

(** Ann removes him. *)
Definition hub8 : hub :=
  perform cfg (UpdateMembership ann_claims team1 (sr_principal (bu_session bob)) None (Some "revoked")) 1080 (rnd "8") hub7.

(** Every state is reached by the calls. *)
Lemma reach h c now k : reachable h → reachable (perform cfg c now (rnd k) h).
Proof. intros Hh. unfold reachable in *. etrans; [exact Hh|]. apply rtc_once, by_call. Qed.

Lemma reachable_hub1 : reachable hub1.
Proof. do 2 apply reach. apply rtc_refl. Qed.
Lemma reachable_hub2 : reachable hub2.
Proof. apply reach, reachable_hub1. Qed.
Lemma reachable_hub3 : reachable hub3.
Proof. apply reach, reachable_hub2. Qed.
Lemma reachable_hub4 : reachable hub4.
Proof. apply reach, reachable_hub3. Qed.
Lemma reachable_hub6 : reachable hub6.
Proof. do 2 apply reach. apply reachable_hub4. Qed.
Lemma reachable_hub7 : reachable hub7.
Proof. apply reach, reachable_hub6. Qed.

Lemma reachable_hub8 : reachable hub8.
Proof. apply reach, reachable_hub7. Qed.

(** What a call that succeeded left and returned. *)
Definition succeeds {A} (r : res A) : bool := match r with Ok _ => true | Err _ => false end.

Lemma run_eq {S A} (d : A) (m : stx S A) (h : S) : succeeds (run m h).2 = true → m h = Ok ((run m h).1, result_or d (run m h).2).
Proof. unfold run. by destruct (m h) as [[]|]. Qed.

Lemma refresh_eq token now k h : succeeds (refresh cfg token now (rnd k) h).2 = true →
  refresh cfg token now (rnd k) h =
  (perform cfg (Refresh token) now (rnd k) h, Ok (result_or no_bundle (refresh cfg token now (rnd k) h).2)).
Proof. cbn [perform]. destruct (refresh _ _ _ _ _) as [h' [b|e]]; done. Qed.

Lemma lookup_eq {R} (d : R) (m : gmap string R) k : negb (is_null (m !! k)) = true → m !! k = Some (default d (m !! k)).
Proof. by destruct (m !! k). Qed.

(** Bob's membership. *)
Definition bob_membership : string := Eval vm_compute in new_id "membership" (rnd "3" 1).
Definition no_membership : membership := mkMembership "" "" Guest Revoked None 0 0.

Example run_example :
  map (λ h, size (sessions h)) [hub1; hub3; hub5; hub7] = [1; 2; 2; 3]%nat
  ∧ map (λ h, size (events h)) [hub1; hub2; hub3; hub4; hub5; hub6; hub7; hub8] = [2; 3; 4; 5; 6; 7; 8; 9]%nat
  ∧ (refresh cfg (bu_refresh bob) 1050 (rnd "5") hub4).2 = Err AUTH_REQUIRED
  ∧ owners_valid hub8 = true.
Proof. vm_compute. repeat split; reflexivity. Qed.

(** * Team hub: what holds of every run

    The methods refine the allowed changes; a clock that is behind the ledger
    blocks the end of a session; and the theorems of the hub at the states of
    the run above. *)
Section safe.
Context `{HubCrypto}.

(** C6: The methods of the store refine the abstract specification [change]:
    from a state a hub can reach, whatever calls do to the tables is a sequence
    of allowed changes, and no row goes back: what is revoked, redeemed,
    consumed or recorded stays so, and no account, session, invitation or
    event disappears. *)
Theorem calls_refine_changes h h' : reachable h → rtc hub_step h h' → changes h h' ∧ hub_le h h'.
Proof. intros Hh Hs. by eapply reachable_step. Qed.

(** ** A clock that is behind *)

Lemma audit_time e random h h' u c :
  audit e random h = Ok (h', u) → heads h !! en_team e = Some c → (hd_updated c <= en_created e)%Z.
Proof.
  unfold audit. intros Hr Hc. apply tx_bind_Ok in Hr as (h0 & last & [-> ->]%ask_Ok & Hr). rewrite Hc in Hr.
  apply tx_bind_Ok in Hr as (h1 & [] & (_ & _ & ->)%insert_added & Hr).
  apply tx_bind_Ok in Hr as (h2 & n & [Hok _]%update_changed & _).
  specialize (Hok _ _ Hc (String.eqb_refl _)). unfold head_update_ok in Hok.
  rewrite !andb_true_iff in Hok. cbn in Hok. lia.
Qed.

Lemma audit_other_heads e random h h' u t :
  audit e random h = Ok (h', u) → t ≠ en_team e → heads h' !! t = heads h !! t.
Proof.
  unfold audit. intros Hr Ht. apply tx_bind_Ok in Hr as (h0 & last & [-> ->]%ask_Ok & Hr).
  apply tx_bind_Ok in Hr as (h1 & [] & (_ & _ & ->)%insert_added & Hr).
  destruct (heads h !! en_team e).
  - apply tx_bind_Ok in Hr as (h2 & n & [_ ->]%update_changed & [-> _]%ret_Ok). cbn.
    apply String.eqb_neq in Ht. destruct h; cbn. rewrite updated_rows_lookup, Ht. by destruct (_ !! t).
  - apply insert_added in Hr as (_ & _ & ->). cbn. by rewrite lookup_insert_ne.
Qed.

Lemma audit_teams_time l e now random h h' u t c :
  (∀ t, en_team (e t) = t ∧ en_created (e t) = now) → audit_teams l e random h = Ok (h', u) →
  t ∈ l → heads h !! t = Some c → (hd_updated c <= now)%Z.
Proof.
  intros He. revert random h. induction l as [|t0 l IH]; intros random h Hr Ht Hc; [by apply elem_of_nil in Ht|].
  cbn [audit_teams] in Hr. apply tx_bind_Ok in Hr as (h1 & v & E & Hr). destruct (He t0) as [Et Ec].
  destruct (decide (t = t0)) as [->|Hne].
  - rewrite <- Ec. eapply audit_time; [exact E|]. by rewrite Et.
  - apply elem_of_cons in Ht as [|Ht]; [done|]. eapply IH; [exact Hr|done|].
    rewrite (audit_other_heads _ _ _ _ _ t E); [done|by rewrite Et].
Qed.

(** C40: The audit ledger refuses times that go back, and it is written in the
    same transaction: while the clock is behind the last event of a team of the
    account, a replayed refresh token raises [IntegrityError] and its session
    stays as it is, unpunished. *)
Theorem clock_behind_spares_replay cf token now random h d id t s team c :
  token_hash token = Ok d → token_row d h = Some (id, t, s) → replayed t s = true →
  team ∈ active_teams (ds_human s) h → heads h !! team = Some c → (now < hd_updated c)%Z →
  ∃ m, refresh cf token now random h = (h, Err (IntegrityError m)).
Proof.
  intros Hd Ht Hrep Hteam Hc Hnow. unfold refresh. rewrite Hd, Ht, Hrep.
  destruct (punish t s now random h) as [[h' u]|x] eqn:E.
  - exfalso. unfold punish in E. apply tx_bind_Ok in E as (h1 & [] & E1 & E).
    unfold revoke_one in E1. apply tx_bind_Ok in E1 as (g & n & [_ ->]%update_changed & E1).
    apply tx_bind_Ok in E1 as (g & n2 & [_ ->]%update_changed & [-> _]%ret_Ok).
    unfold audit_principal_teams in E. apply tx_bind_Ok in E as (g & l & [-> ->]%ask_Ok & E).
    enough (hd_updated c <= now)%Z by lia. eapply audit_teams_time; [|exact E|exact Hteam|exact Hc]. done.
  - apply punish_error in E as [m ->]. by exists m.
Qed.
End safe.

(** ** The theorems at concrete states *)

#[local] Existing Instance toy_crypto.

Lemma refresh_once_witness :
  reachable hub3 ∧ refresh cfg (bu_refresh bob) 1040 (rnd "4") hub3 = (hub4, Ok bob2) ∧
  ((refresh cfg (bu_refresh bob) 1050 (rnd "5") hub4).2 = Err AUTH_REQUIRED ∧ revoked (sr_id (bu_session bob2)) hub5
   ∨ hub5 = hub4 ∧ ∃ m, (refresh cfg (bu_refresh bob) 1050 (rnd "5") hub4).2 = Err (IntegrityError m)).
Proof.
  assert (refresh cfg (bu_refresh bob) 1040 (rnd "4") hub3 = (hub4, Ok bob2)) as Hr
    by (apply refresh_eq; vm_compute; reflexivity).
  split; [exact reachable_hub3|]. split; [exact Hr|].
  eapply (refresh_once cfg cfg (bu_refresh bob) 1040 1050 (rnd "4") (rnd "5") hub3 hub4 bob2 hub4);
    [exact reachable_hub3|exact Hr|apply rtc_refl|].
  apply surjective_pairing.
Defined.

Definition session_revoked (id : string) (h : hub) : bool :=
  match sessions h !! id with Some s => negb (is_null (ds_revoked s)) | None => false end.

Lemma session_revoked_true id h : session_revoked id h = true → revoked id h.
Proof.
  unfold session_revoked, revoked. destruct (sessions h !! id) as [s|]; [|done].
  intros Hr. exists s. split; [done|]. by destruct (ds_revoked s).
Qed.

Lemma revoked_session_dead_witness :
  let id := sr_id (bu_session bob) in
  (∀ claims now, cl_session claims = id → cl_kind claims = "human" → session_of claims now hub7 = None) ∧
  (∀ cf token now random h2 b, refresh cf token now random hub7 = (h2, Ok b) → sr_id (bu_session b) ≠ id).
Proof.
  apply (revoked_session_dead _ hub5 hub7).
  - apply reach, reachable_hub4.
  - apply session_revoked_true. vm_compute. reflexivity.
  - apply (rtc_l _ _ hub6); [apply by_call|]. apply rtc_once, by_call.
Defined.

Lemma recovery_replaces_sessions_witness :
  redeem_device_recovery cfg recovery_proof "Phone" 1070 (rnd "7") hub6 = Ok (hub7, bob3) ∧
  (∀ id s, sessions hub6 !! id = Some s → ds_human s = sr_principal (bu_session bob3) → revoked id hub7).
Proof.
  assert (redeem_device_recovery cfg recovery_proof "Phone" 1070 (rnd "7") hub6 = Ok (hub7, bob3)) as Hr
    by (apply (run_eq no_bundle); vm_compute; reflexivity).
  split; [exact Hr|]. exact (proj1 (recovery_replaces_sessions _ _ _ _ _ _ _ _ reachable_hub6 Hr)).
Defined.

Lemma members_were_invited_witness : legitimate hub7 (default no_membership (memberships hub7 !! bob_membership)).
Proof.
  apply (members_were_invited hub7 bob_membership); [exact reachable_hub7|].
  apply lookup_eq. vm_compute. reflexivity.
Defined.

Lemma bob_accepted : accepted invitation_token hub2 hub3.
Proof.
  left. exists cfg, "bob@example.org", "Bob", "Phone", 1030%Z, (rnd "3"), bob.
  apply (run_eq no_bundle). vm_compute. reflexivity.
Qed.

Lemma invitation_once_witness :
  accepted invitation_token hub2 hub3 ∧
  ¬ accepted invitation_token hub4
      (perform cfg (RedeemInvite invitation_token "eve@example.org" "Eve" "Laptop") 1060 (rnd "9") hub4).
Proof.
  split; [exact bob_accepted|].
  eapply (invitation_once invitation_token hub2 hub3 hub4); [exact reachable_hub2|exact bob_accepted|apply rtc_once, by_call].
Defined.

Lemma teams_have_one_owner_witness : owners_valid hub8 = true.
Proof. apply teams_have_one_owner, reachable_hub8. Defined.

Lemma removal_final_witness :
  let m := default no_membership (memberships hub8 !! bob_membership) in
  mb_status m = Revoked ∧
  team_role (mb_team m) (mb_principal m)
    (perform cfg (IssueInvite ann_claims team1 "bob@example.org" "member" 3600) 1085 (rnd "9") hub8) = None.
Proof.
  cbv zeta. split; [vm_compute; reflexivity|].
  apply (removal_final hub8 _ bob_membership); [exact reachable_hub8| | |apply rtc_once, by_call].
  - apply lookup_eq. vm_compute. reflexivity.
  - vm_compute. reflexivity.
Defined.

Lemma ledger_is_chain_witness :
  ∃ L, ledger hub8 team1 L ∧ ∀ h', rtc hub_step hub8 h' → ∃ L', ledger h' team1 (L' ++ L).
Proof. apply ledger_is_chain, reachable_hub8. Defined.


Lemma access_token_roundtrip_witness :
  let m := result_or (mkMinted "" "" 0) (mint "key" "human-1" "device-1" "jti-12345678" 1000 600) in
  verify "key" (mt_token m) 1200 = Ok (mkAccess "human-1" "device-1" "jti-12345678" 1000 1600).
Proof.
  cbv zeta. apply (access_token_roundtrip toy_hmac_length "key" "human-1" "device-1" "jti-12345678" 1000 600 1200).
  - destruct (mint _ _ _ _ _ _) eqn:E; [done|]. exfalso. revert E. vm_compute. discriminate.
  - reflexivity.
  - vm_compute. split; discriminate.
  - lia.
  - lia.
  - lia.
Defined.

Lemma access_token_sound_witness :
  ∃ signed signature, bu_access ann = signed +:+ "." +:+ signature
    ∧ b64url_decode signature = Ok (hmac_sha256 "key" signed).
Proof.
  apply (access_token_sound "key" (bu_access ann) 1015 (mkAccess "human_random-bytes-of-call-1-0"
    "device_random-bytes-of-call-1-14" "random-bytes-of-call-1-18" 1010 1610)).
  vm_compute. reflexivity.
Defined.

Lemma calls_refine_changes_witness : changes hub3 hub4 ∧ hub_le hub3 hub4.
Proof. apply calls_refine_changes; [exact reachable_hub3|apply rtc_once, by_call]. Defined.

Lemma clock_behind_spares_replay_witness :
  ∃ m, refresh cfg (bu_refresh bob) 5 (rnd "9") hub4 = (hub4, Err (IntegrityError m)).
Proof.
  pose (d := sha256 (utf8 (bu_refresh bob))).
  assert (match token_row d hub4 with
          | Some (_, t, s) => replayed t s && bool_decide (team1 ∈ active_teams (ds_human s) hub4)
          | None => false
          end = true) as Hrow by (vm_compute; reflexivity).
  destruct (token_row d hub4) as [[[id t] s]|] eqn:Et; [|discriminate Hrow].
  apply andb_true_iff in Hrow as [Hrep Hteam%bool_decide_eq_true].
  pose (c := default (mkHead "" "" 0 0) (heads hub4 !! team1)).
  apply (clock_behind_spares_replay cfg (bu_refresh bob) 5 (rnd "9") hub4 d id t s team1 c).
  - reflexivity.
  - exact Et.
  - exact Hrep.
  - exact Hteam.
  - apply lookup_eq. vm_compute. reflexivity.
  - vm_compute. reflexivity.
Defined.
