(* ===== verification/TeamText.v ===== *)
(** * Team mail: what a request may contain

    The validation helpers of [HubStore] for team messages
    ([_team_mail_subject], [_team_text], [_team_body], [_team_slug],
    [_team_tags], [_team_provenance], [_team_idempotency_key]) and [_iso8601]. *)
From S2P Require Import Prelude.
From S2P Require Import PyValues.
From S2P Require Import Json.
From S2P Require Import Transactions.
From S2P Require Import HubTokens.

Open Scope string_scope.

Definition MAX_TEAM_MESSAGE_BODY_BYTES : Z := 49152.
Definition MAX_TEAM_MESSAGE_RECIPIENTS : nat := 16.
Definition MAX_TEAM_MESSAGE_SERVER_RECIPIENTS : nat := 1024.
Definition MAX_TEAM_MESSAGE_ATTACHMENTS : nat := 16.
Definition MAX_TEAM_MESSAGE_ATTACHMENT_BYTES : Z := 2147483648.
Definition MAX_TEAM_MESSAGE_TITLE_CHARS : Z := 160.
Definition MAX_TEAM_MESSAGE_PREVIEW_CHARS : nat := 280.
Definition MAX_TEAM_MESSAGE_REVISIONS : Z := 200.
Definition MAX_TEAM_SKILL_TAGS : nat := 8.
Definition MAX_TEAM_SKILLS_PER_TEAM : nat := 500.
Definition MAX_TEAM_SKILL_VERSIONS : nat := 200.
Definition MAX_NETWORK_PAGE_RESPONSE_BYTES : Z := 1900000.
Definition MAX_NETWORK_PAGE_ITEMS : Z := 100.
Definition TEAM_MESSAGE_PROVENANCE_KEYS : list string := ["via"; "backend"; "chat_id"; "run_id"].

Definition invalid (message : string) : exn := HubError "invalid_request" message 422.

(** ** Words and characters *)

(** [c in "\x00-\x1f\x7f"], and category Cc, which has 128 to 159 as well. *)
Definition is_control (c : Ascii.ascii) : bool := ((code c <? 32) || (code c =? 127))%N.
Definition is_cc (c : Ascii.ascii) : bool := is_control c || ((128 <=? code c) && (code c <? 160))%N.

(** [s.split()] *)
Fixpoint words (s current : string) : list string :=
  match s with
  | "" => if String.eqb current "" then [] else [rev_string current]
  | String c s =>
      if py_isspace c then (if String.eqb current "" then words s "" else rev_string current :: words s "")
      else words s (String c current)
  end.

(** [" ".join(s.split())] *)
Definition squeeze (s : string) : string := join " " (words s "").

(** [if v not in {...}: raise e] for a set of strings; a list or a dict has no
    hash. *)
Definition one_of_texts (v : pyval) (l : list string) (e : exn) : res string :=
  match v with
  | PStr s => raise_if (negb (str_in s l)) e;; Ok s
  | PList _ | PDict _ => Err (TypeError "unhashable type")
  | _ => Err e
  end.

(** [d.get(k, default)] *)
Fixpoint items_get_or (d : list (string * pyval)) (k : string) (default : pyval) : pyval :=
  match d with
  | [] => default
  | (k', v) :: d => if String.eqb k' k then v else items_get_or d k default
  end.

(** [re.fullmatch("[0-9a-f]{n}", s)] *)
Definition hex_digits (n : Z) (s : string) : bool :=
  (len s =? n)%Z
  && string_forallb (λ c, ((48 <=? code c) && (code c <=? 57) || (97 <=? code c) && (code c <=? 102))%N) s.

Definition slug_char (c : Ascii.ascii) : bool :=
  ((48 <=? code c) && (code c <=? 57) || (97 <=? code c) && (code c <=? 122))%N.

(** [TEAM_SKILL_SLUG_RE] and [TEAM_SKILL_TAG_RE], with 63 and 31 for [more]. *)
Definition slug_pattern (more : Z) (s : string) : bool :=
  match s with
  | String c r => slug_char c && string_forallb (λ c, slug_char c || (code c =? 45)%N) r && (len r <=? more)%Z
  | "" => false
  end.

(** ** Fields *)

Definition team_mail_subject (v : pyval) : res (option string) :=
  match v with
  | PNone => Ok None
  | PStr s =>
      raise_if (negb (string_forallb (λ c, negb (is_cc c)) s))
        (invalid "Mail subject must be a single line without control characters");;
      let subject := strip s in
      raise_if (negb (between 1 (len subject) MAX_TEAM_MESSAGE_TITLE_CHARS))
        (invalid "Mail subject must be between 1 and 160 characters");;
      Ok (Some subject)
  | _ => Err (invalid "Mail subject must be a single line without control characters")
  end.

(** [_team_text]: what [None] stands for is [missing]. *)
Definition team_text (v : pyval) (field : string) (minimum maximum : Z) (allow_none : bool) : res (option string) :=
  match v with
  | PNone => if allow_none then Ok None
             else if (minimum =? 0)%Z then Ok (Some "") else Err (invalid (field +:+ " is required"))
  | PStr s =>
      let normalized := squeeze s in
      raise_if (negb (between minimum (len normalized) maximum))
        (invalid (field +:+ " must be between " +:+ pretty minimum +:+ " and " +:+ pretty maximum +:+ " characters"));;
      Ok (Some normalized)
  | _ => Err (invalid (field +:+ " is invalid"))
  end.

(** [str(self._team_text(...))] of a text that is never [None]. *)
Definition team_note (v : pyval) (field : string) : res string :=
  t ← team_text v field 0 280 false; Ok (default "None" t).

Record body_part := mkBody { by_text : string; by_format : string; by_digest : string; by_bytes : Z }.

Section text.
Context `{HubCrypto}.

Definition team_body (request : list (string * pyval)) : res body_part :=
  match items_get request "body" with
  | PStr body =>
      let encoded := utf8 body in
      raise_if (negb (between 1 (len encoded) MAX_TEAM_MESSAGE_BODY_BYTES)) (invalid "Message body is invalid");;
      format ← one_of_texts (items_get_or request "body_format" (PStr "markdown")) ["plain"; "markdown"]
                 (invalid "Message body format is invalid");
      Ok (mkBody body format (sha256 encoded) (len encoded))
  | _ => Err (invalid "Message body is invalid")
  end.
End text.

Definition team_slug (v : pyval) : res string :=
  let slug := lower (strip (py_str (py_or v (PStr "")))) in
  raise_if (negb (slug_pattern 63 slug)) (invalid "Skill slug is invalid");; Ok slug.

Definition team_tag (v : pyval) : res string :=
  let tag := match v with PStr s => lower (strip s) | _ => "" end in
  raise_if (negb (slug_pattern 31 tag)) (invalid "Skill tags are invalid");; Ok tag.

(** The tags in the order they come first. *)
Fixpoint add_tags (l : list pyval) (tags : list string) : res (list string) :=
  match l with
  | [] => Ok tags
  | v :: l => tag ← team_tag v; add_tags l (if str_in tag tags then tags else (tags ++ [tag])%list)
  end.

Definition team_tags (v : pyval) : res (list string) :=
  match v with
  | PNone => Ok []
  | PList l => raise_if (MAX_TEAM_SKILL_TAGS <? length l)%nat (invalid "Skill tags are invalid");; add_tags l []
  | _ => Err (invalid "Skill tags are invalid")
  end.

Definition team_provenance_field_valid (key : string) (v : pyval) : bool :=
  match v with
  | PNone => true
  | PStr s =>
      if String.eqb key "via" then str_in s ["agent"; "desktop"] else
      between 1 (len s) (if String.eqb key "backend" then 80 else 240)
      && String.eqb (strip s) s && string_forallb (λ c, negb (is_control c)) s
  | _ => false
  end.

Definition team_provenance (v : pyval) : res string :=
  match v with
  | PNone => Ok "{}"
  | PDict d =>
      raise_if (negb (forallb (λ kv, str_in kv.1 TEAM_MESSAGE_PROVENANCE_KEYS
                                     && team_provenance_field_valid kv.1 kv.2) d)) (invalid "Provenance is invalid");;
      raise_if (2048 <? len (canonical_json v))%Z (invalid "Provenance is invalid");;
      Ok (dumps_sorted v)
  | _ => Err (invalid "Provenance is invalid")
  end.

(** [_team_provenance_public] *)
Definition team_provenance_public (stored : string) : list (string * pyval) :=
  match json_parse (if String.eqb stored "" then "{}" else stored) with
  | Ok (PDict d) =>
      omap (λ k, if str_in k d.*1 && team_provenance_field_valid k (items_get d k) then Some (k, items_get d k) else None)
        TEAM_MESSAGE_PROVENANCE_KEYS
  | _ => []
  end.

Definition team_idempotency_key (request : list (string * pyval)) : res string :=
  match items_get request "idempotency_key" with
  | PStr key => raise_if (negb (between 8 (len key) 240)) (invalid "idempotency_key must be 8-240 characters");; Ok key
  | _ => Err (invalid "idempotency_key must be 8-240 characters")
  end.

(** ** Times as text *)

Definition two_digits (n : Z) : string := (if (n <? 10)%Z then "0" else "") +:+ pretty n.
Definition four_digits (n : Z) : string :=
  (if (n <? 10)%Z then "000" else if (n <? 100)%Z then "00" else if (n <? 1000)%Z then "0" else "") +:+ pretty n.

(** The year, month and day of a number of days since 1970-01-01. *)
Definition civil_date (days : Z) : Z * Z * Z :=
  (let z := days + 719468 in
   let era := z / 146097 in
   let doe := z - era * 146097 in
   let yoe := (doe - doe / 1460 + doe / 36524 - doe / 146096) / 365 in
   let doy := doe - (365 * yoe + yoe / 4 - yoe / 100) in
   let mp := (5 * doy + 2) / 153 in
   let month := if mp <? 10 then mp + 3 else mp - 9 in
   (yoe + era * 400 + (if month <=? 2 then 1 else 0), month, doy - (153 * mp + 2) / 5 + 1))%Z.

(** [datetime.fromtimestamp(t, tz=utc)] knows the years 1 to 9999. *)
Definition iso8601 (t : Z) : res string :=
  raise_if (negb (between (-62135596800) t 253402300799)) (ValueError "year is out of range");;
  let '(year, month, day) := civil_date (t / 86400) in
  let s := (t mod 86400)%Z in
  Ok (four_digits year +:+ "-" +:+ two_digits month +:+ "-" +:+ two_digits day +:+ "T"
      +:+ two_digits (s / 3600) +:+ ":" +:+ two_digits (s / 60 mod 60) +:+ ":" +:+ two_digits (s mod 60) +:+ "Z").

(** [_iso8601] as a JSON value. *)
Definition time_or_none (t : option Z) : res pyval :=
  match t with Some t => s ← iso8601 t; Ok (PStr s) | None => Ok PNone end.

Example iso8601_example : iso8601 1709210096 = Ok "2024-02-29T12:34:56Z".
Proof. vm_compute. reflexivity. Qed.
Example words_example : squeeze "  two   words " = "two words".
Proof. vm_compute. reflexivity. Qed.
