(* ===== verification/TeamTables.v ===== *)
(** * Team mail: the tables

    The tables of team messages beside the accounts of the hub: messages and
    the copies of their recipients, revisions, deletions, skills, attachments,
    the watermark of each mailbox, the changes of the bulletin, what was
    answered to a key, rate buckets and the outbox, with the constraints and
    triggers of [agentsdock_team_hub/migrations/]. *)
From S2P Require Import Prelude.
From S2P Require Import PyValues.
From S2P Require Import Json.
From S2P Require Import Transactions.
From S2P Require Import HubTables.

Open Scope string_scope.

(** ** Rows *)

Inductive message_kind := KMessage | KSkill.
#[global] Instance message_kind_eq : EqDecision message_kind. Proof. solve_decision. Defined.

(** [team_messages]; [sender_kind] is [server] exactly when there is a
    [sender_node_id], by a [CHECK]. *)
Record message := mkMessage {
  ms_sequence : Z;                  (* queue_ordinal *)
  ms_team : string;
  ms_kind : message_kind;
  ms_title : option string;
  ms_format : string;
  ms_body : string;
  ms_digest : string;
  ms_sender : string;               (* sender_principal_id *)
  ms_node : option string;          (* sender_node_id *)
  ms_provenance : string;
  ms_reply : option string;         (* in_reply_to_message_id *)
  ms_skill : option (string * Z);   (* skill_id, skill_version *)
  ms_attachments : Z;
  ms_bytes : Z;                     (* attachment_bytes *)
  ms_key : string;                  (* idempotency_key *)
  ms_created : Z;
  ms_all_servers : bool;            (* destination *)
  ms_subject : option string;       (* mail_subject *)
}.

(** The recipient columns, of which a [CHECK] allows these three forms. *)
Inductive address := ToServer (node : string) | ToHuman (p : string) | ToAll.
#[global] Instance address_eq : EqDecision address. Proof. solve_decision. Defined.

Inductive copy_state := CopyAvailable | CopyDelivered | CopyRead.
#[global] Instance copy_state_eq : EqDecision copy_state. Proof. solve_decision. Defined.

(** [team_message_recipients] *)
Record copy := mkCopy {
  cp_team : string;
  cp_message : string;
  cp_to : address;
  cp_state : copy_state;
  cp_delivered : option Z;
  cp_read : option Z;
  cp_dismissed : option Z;
  cp_unread : option bool;          (* inbox_unread *)
  cp_version : Z;                   (* mailbox_state_version *)
}.

(** [team_message_revisions] *)
Record revision := mkRevision {
  rv_sequence : Z;
  rv_team : string;
  rv_message : string;
  rv_version : Z;
  rv_format : string;
  rv_body : string;
  rv_digest : string;
  rv_editor : string;               (* edited_by_principal_id *)
  rv_node : option string;
  rv_key : string;
  rv_created : Z;
}.

(** [network_content_deletions] of messages. *)
Record deletion := mkDeletion {
  dl_sequence : Z; dl_team : string; dl_message : string; dl_by : string; dl_at : Z
}.

(** [team_skills]; who pinned or archived it is there when the time is. *)
Record skill := mkSkill {
  sk_team : string;
  sk_slug : string;
  sk_title : string;
  sk_summary : string;
  sk_tags : string;
  sk_version : Z;                   (* current_version *)
  sk_creator : string;
  sk_pinned : option (Z * string);
  sk_archived : option (Z * string);
  sk_created : Z;
  sk_updated : Z;
}.

Record skill_version := mkSkillVersion {
  kv_team : string;
  kv_skill : string;
  kv_version : Z;
  kv_message : string;
  kv_title : string;
  kv_summary : string;
  kv_tags : string;
  kv_note : string;
  kv_created : Z;
}.

(** [team_attachments], without the columns only the upload uses. *)
Inductive attachment_state := Uploading | Ready | UploadFailed.
#[global] Instance attachment_state_eq : EqDecision attachment_state. Proof. solve_decision. Defined.
Record attachment := mkAttachment {
  at_team : string;
  at_message : option string;
  at_name : string;
  at_media : string;
  at_size : Z;
  at_storage : string;
  at_state : attachment_state;
  at_received : Z;
  at_uploader : string;
  at_created : Z;
  at_ready : option Z;
  at_expires : Z;
}.

(** [team_bulletin_changes] *)
Inductive change_kind := Created | Revised | Deleted.
#[global] Instance change_kind_eq : EqDecision change_kind. Proof. solve_decision. Defined.
Record bulletin_change := mkBulletinChange {
  bl_sequence : Z; bl_team : string; bl_message : string; bl_kind : change_kind; bl_version : Z
}.

(** [request_idempotency] *)
Record stored_answer := mkStored {
  sa_team : string;
  sa_principal : string;
  sa_operation : string;
  sa_key : string;                  (* key_hash *)
  sa_fingerprint : string;
  sa_type : string;
  sa_resource : string;
  sa_response : string;             (* response_json *)
  sa_created : Z;
}.

(** [rate_limit_buckets], by team, subject and action. *)
Record bucket := mkBucket { bk_started : Z; bk_count : Z; bk_updated : Z }.

(** [outbox_events], as they are written. *)
Record effect := mkEffect {
  ef_team : string; ef_type : string; ef_resource : string; ef_event : string; ef_key : string; ef_created : Z
}.

(** The counters are those of [AUTOINCREMENT]. *)
Record post := mkPost {
  accounts : hub;
  messages : gmap string message;
  last_message : Z;
  copies : gmap string copy;
  arrivals : gmap (string * string) (Z * string);  (* team_mail_arrivals *)
  revisions : gmap string revision;
  last_revision : Z;
  deletions : gmap string deletion;
  last_deletion : Z;
  skills : gmap string skill;
  skill_versions : gmap string skill_version;
  attachments : gmap string attachment;
  bulletin : gmap string bulletin_change;
  last_change : Z;
  answers : gmap string stored_answer;
  buckets : gmap (string * string * string) bucket;
  outbox : gmap string effect;
}.

Notation ptx := (stx post).

(** A transaction on the accounts, inside one on the mail. *)
Definition on_accounts {A} (m : tx A) : ptx A := λ p,
  match m (accounts p) with
  | Ok (h, a) => Ok (p {{ accounts := h }}, a)
  | Err e => Err e
  end.

(** ** Constraints *)

(** The triggers on who writes: an active principal of the team. *)
Definition belongs (h : hub) (team p : string) (kinds : list principal_kind) : bool :=
  match principals h !! p with
  | Some r =>
      bool_decide (pr_status r = Active) && bool_decide (pr_kind r ∈ kinds)
      && (bool_decide (pr_scope r = Some team)
          || exists_row (λ _ m, is_member team p m && bool_decide (mb_status m = Active)) (memberships h))
  | None => false
  end.
Definition WRITERS : list principal_kind := [Human; Service; Agent].

Definition team_node (h : hub) (team : string) (n : option string) : bool :=
  match n with
  | None => true
  | Some n => match nodes h !! n with Some r => String.eqb (nd_team r) team | None => false end
  end.

Definition team_message (p : post) (team id : string) : option message :=
  match messages p !! id with Some m => if String.eqb (ms_team m) team then Some m else None | None => None end.
Definition team_skill (p : post) (team id : string) : option skill :=
  match skills p !! id with Some s => if String.eqb (sk_team s) team then Some s else None | None => None end.

(** [CHECK(json_valid(x) AND json_type(x) = 'object')] *)
Definition json_object (s : string) : bool := match json_parse s with Ok (PDict _) => true | _ => false end.
Definition json_array (s : string) : bool := match json_parse s with Ok (PList _) => true | _ => false end.

Definition body_ok (format body digest : string) : bool :=
  str_in format ["plain"; "markdown"] && between 1 (len (utf8 body)) 49152 && is_digest digest.

Definition message_ok (p : post) (_ : string) (m : message) : bool :=
  present (teams (accounts p)) (ms_team m)
  && match ms_title m with Some t => trimmed_length 1 t 160 | None => true end
  && body_ok (ms_format m) (ms_body m) (ms_digest m)
  && present (principals (accounts p)) (ms_sender m) && belongs (accounts p) (ms_team m) (ms_sender m) WRITERS
  && team_node (accounts p) (ms_team m) (ms_node m)
  && json_object (ms_provenance m) && (sql_length (ms_provenance m) <=? 2048)%Z
  && match ms_reply m with Some id => negb (is_null (team_message p (ms_team m) id)) | None => true end
  && match ms_kind m, ms_skill m with
     | KSkill, Some (id, v) => negb (is_null (ms_title m)) && negb (is_null (team_skill p (ms_team m) id)) && (1 <=? v)%Z
     | KMessage, None => true
     | _, _ => false
     end
  && between 0 (ms_attachments m) 16 && (0 <=? ms_bytes m)%Z && is_digest (ms_key m)
  && negb (taken (λ m, (ms_team m, ms_key m)) m (messages p)) && (0 <=? ms_created m)%Z
  && match ms_subject m with
     | Some s => bool_decide (ms_kind m = KMessage) && between 1 (sql_length s) 160
     | None => true
     end.

(** A new copy: its receipts are the defaults. *)
Definition copy_ok (p : post) (_ : string) (c : copy) : bool :=
  negb (is_null (team_message p (cp_team c) (cp_message c)))
  && match cp_to c with
     | ToServer n => team_node (accounts p) (cp_team c) (Some n)
     | ToHuman q => present (principals (accounts p)) q
     | ToAll => true
     end
  && negb (taken (λ c, (cp_message c, cp_to c)) c (copies p)).

Definition receipt_ok (c : copy) : bool :=
  match cp_state c, cp_delivered c, cp_read c with
  | CopyAvailable, None, None => true
  | CopyDelivered, Some d, None => (0 <=? d)%Z
  | CopyRead, Some d, Some r => (0 <=? d)%Z && (0 <=? r)%Z
  | _, _, _ => false
  end.

(** [team_message_recipient_state_is_monotonic] and the checks of the row. *)
Definition copy_update_ok (_ : post) (_ : string) (c c' : copy) : bool :=
  receipt_ok c'
  && negb (bool_decide (cp_state c = CopyDelivered) && bool_decide (cp_state c' = CopyAvailable))
  && negb (bool_decide (cp_state c = CopyRead) && negb (bool_decide (cp_state c' = CopyRead)))
  && sticky (cp_delivered c) (cp_delivered c') && sticky (cp_read c) (cp_read c')
  && (negb (bool_decide (cp_to c = ToAll))
      || bool_decide ((cp_state c', cp_delivered c', cp_read c') = (cp_state c, cp_delivered c, cp_read c)))
  && match cp_dismissed c' with Some t => (0 <=? t)%Z | None => true end && (0 <=? cp_version c')%Z.

(** [message_version]: that of the last revision. *)
Definition message_version (p : post) (id : string) : Z :=
  foldr Z.max 1%Z ((λ kr : string * revision, rv_version kr.2)
                     <$> select_rows (λ _ r, String.eqb (rv_message r) id) (revisions p)).

Definition revision_ok (p : post) (_ : string) (r : revision) : bool :=
  negb (is_null (team_message p (rv_team r) (rv_message r))) && (2 <=? rv_version r)%Z
  && body_ok (rv_format r) (rv_body r) (rv_digest r)
  && present (principals (accounts p)) (rv_editor r) && team_node (accounts p) (rv_team r) (rv_node r)
  && is_digest (rv_key r) && (0 <=? rv_created r)%Z
  && negb (taken (λ r, (rv_message r, rv_version r)) r (revisions p))
  && negb (taken (λ r, (rv_message r, rv_key r)) r (revisions p)).

Definition deletion_ok (p : post) (_ : string) (d : deletion) : bool :=
  negb (is_null (team_message p (dl_team d) (dl_message d)))
  && match principals (accounts p) !! dl_by d with
     | Some r => bool_decide (pr_status r = Active)
     | None => false
     end
  && exists_row (λ _ m, is_member (dl_team d) (dl_by d) m && bool_decide (mb_status m = Active)) (memberships (accounts p))
  && negb (taken (λ d, (dl_team d, dl_message d)) d (deletions p)) && (0 <=? dl_at d)%Z.

Definition count_rows {R} (P : R → bool) (m : gmap string R) : nat := length (select_rows (λ _ r, P r) m).

Definition skill_ok (p : post) (_ : string) (s : skill) : bool :=
  present (teams (accounts p)) (sk_team s) && String.eqb (sk_slug s) (sql_lower (sql_trim (sk_slug s)))
  && between 1 (sql_length (sk_slug s)) 64 && trimmed_length 1 (sk_title s) 160
  && (sql_length (sk_summary s) <=? 280)%Z && json_array (sk_tags s) && (1 <=? sk_version s)%Z
  && belongs (accounts p) (sk_team s) (sk_creator s) WRITERS
  && (0 <=? sk_created s)%Z && (sk_created s <=? sk_updated s)%Z
  && negb (taken (λ s, (sk_team s, sk_slug s)) s (skills p))
  && (count_rows (λ s', String.eqb (sk_team s') (sk_team s)) (skills p) <? 500)%nat.

Definition skill_update_ok (p : post) (_ : string) (_ s : skill) : bool :=
  trimmed_length 1 (sk_title s) 160 && (sql_length (sk_summary s) <=? 280)%Z && json_array (sk_tags s)
  && (1 <=? sk_version s)%Z && (sk_created s <=? sk_updated s)%Z
  && match sk_pinned s with Some (t, q) => (0 <=? t)%Z && present (principals (accounts p)) q | None => true end
  && match sk_archived s with
     | Some (t, q) => (sk_created s <=? t)%Z && present (principals (accounts p)) q
     | None => true
     end.

Definition skill_version_ok (p : post) (_ : string) (v : skill_version) : bool :=
  negb (is_null (team_skill p (kv_team v) (kv_skill v))) && negb (is_null (team_message p (kv_team v) (kv_message v)))
  && (1 <=? kv_version v)%Z && trimmed_length 1 (kv_title v) 160 && (sql_length (kv_summary v) <=? 280)%Z
  && json_array (kv_tags v) && (sql_length (kv_note v) <=? 280)%Z && (0 <=? kv_created v)%Z
  && negb (taken (λ v, (kv_skill v, kv_version v)) v (skill_versions p))
  && negb (taken kv_message v (skill_versions p))
  && (count_rows (λ v', String.eqb (kv_skill v') (kv_skill v)) (skill_versions p) <? 200)%nat.

(** A ready attachment is bound to one message, for good. *)
Definition attachment_update_ok (p : post) (_ : string) (a a' : attachment) : bool :=
  (is_null (at_message a) || bool_decide (at_message a' = at_message a))
  && match at_message a' with
     | Some id => bool_decide (at_state a' = Ready) && negb (is_null (team_message p (at_team a') id))
     | None => true
     end.

Definition answer_ok (p : post) (_ : string) (a : stored_answer) : bool :=
  present (teams (accounts p)) (sa_team a) && between 1 (sql_length (sa_operation a)) 120
  && is_digest (sa_key a) && is_digest (sa_fingerprint a) && between 1 (sql_length (sa_type a)) 80
  && between 1 (sql_length (sa_resource a)) 240 && json_object (sa_response a) && (0 <=? sa_created a)%Z
  && belongs (accounts p) (sa_team a) (sa_principal a) [Human; Service; Node; Agent; Chat]
  && negb (taken (λ a, (sa_team a, sa_principal a, sa_operation a, sa_key a)) a (answers p)).

Definition effect_ok (p : post) (_ : string) (e : effect) : bool :=
  present (teams (accounts p)) (ef_team e) && trimmed_length 1 (ef_type e) 80 && trimmed_length 1 (ef_resource e) 240
  && trimmed_length 1 (ef_event e) 160 && is_digest (ef_key e) && negb (taken ef_key e (outbox p))
  && (0 <=? ef_created e)%Z.

Definition bucket_ok (b : bucket) : bool :=
  ((0 <=? bk_started b) && (0 <=? bk_count b) && (bk_started b <=? bk_updated b))%Z.

(** ** Statements *)

Definition set_messages m p := p {{ messages := m }}.
Definition set_copies m p := p {{ copies := m }}.
Definition set_revisions m p := p {{ revisions := m }}.
Definition set_deletions m p := p {{ deletions := m }}.
Definition set_skills m p := p {{ skills := m }}.
Definition set_skill_versions m p := p {{ skill_versions := m }}.
Definition set_attachments m p := p {{ attachments := m }}.
Definition set_bulletin m p := p {{ bulletin := m }}.
Definition set_answers m p := p {{ answers := m }}.
Definition set_outbox m p := p {{ outbox := m }}.

(** A change of the tables that cannot fail. *)
Definition modify (f : post → post) : ptx unit := λ p, Ok (f p, tt).

(** A new message takes the next ordinal, which is returned. *)
Definition insert_message (id : string) (m : message) : ptx Z :=
  n ← ask (λ p, last_message p + 1)%Z;
  insert_into messages set_messages message_ok id (m {{ ms_sequence := n }});;
  modify (λ p, p {{ last_message := n }});;
  mret n.

(** What the triggers on bulletin posts add; [change] is the random id. *)
Definition insert_change (change team message : string) (kind : change_kind) (version : Z) : ptx unit :=
  n ← ask (λ p, last_change p + 1)%Z;
  insert_into bulletin set_bulletin (λ p _ c, negb (is_null (team_message p team message)) && (1 <=? version)%Z)
    change (mkBulletinChange n team message kind version);;
  modify (λ p, p {{ last_change := n }}).

(** [team_mail_arrival_on_server_recipient] *)
Definition arrive (team node message : string) (p : post) : post :=
  match team_message p team message with
  | Some m =>
      if bool_decide (ms_kind m = KMessage)
         && match arrivals p !! (team, node) with Some (n, _) => (n <? ms_sequence m)%Z | None => true end
      then p {{ arrivals := <[(team, node) := (ms_sequence m, message)]> (arrivals p) }}
      else p
  | None => p
  end.

(** A new copy, with the triggers on it. *)
Definition insert_copy (id team message : string) (to : address) (change : string) : ptx unit :=
  insert_into copies set_copies copy_ok id (mkCopy team message to CopyAvailable None None None None 0);;
  match to with
  | ToServer node => modify (arrive team node message)
  | ToHuman _ => mret tt
  | ToAll => insert_change change team message Created 1
  end.

Definition to_all (p : post) (message : string) : bool :=
  exists_row (λ _ c, String.eqb (cp_message c) message && bool_decide (cp_to c = ToAll)) (copies p).

Definition insert_revision (id : string) (r : revision) (change : string) : ptx unit :=
  n ← ask (λ p, last_revision p + 1)%Z;
  insert_into revisions set_revisions revision_ok id (r {{ rv_sequence := n }});;
  modify (λ p, p {{ last_revision := n }});;
  posted ← ask (λ p, to_all p (rv_message r));
  if posted : bool then insert_change change (rv_team r) (rv_message r) Revised (rv_version r) else mret tt.

Definition insert_deletion (id : string) (d : deletion) (change : string) : ptx unit :=
  n ← ask (λ p, last_deletion p + 1)%Z;
  insert_into deletions set_deletions deletion_ok id (d {{ dl_sequence := n }});;
  modify (λ p, p {{ last_deletion := n }});;
  posted ← ask (λ p, to_all p (dl_message d));
  version ← ask (λ p, message_version p (dl_message d));
  if posted : bool then insert_change change (dl_team d) (dl_message d) Deleted version else mret tt.

Definition insert_skill := insert_into skills set_skills skill_ok.
Definition insert_skill_version := insert_into skill_versions set_skill_versions skill_version_ok.
Definition insert_answer := insert_into answers set_answers answer_ok.
Definition insert_effect := insert_into outbox set_outbox effect_ok.
Definition update_copies := update_rows copies set_copies copy_update_ok.
Definition update_skills := update_rows skills set_skills skill_update_ok.
Definition update_attachments := update_rows attachments set_attachments attachment_update_ok.
