(* ===== verification/TeamAccess.v ===== *)
(** * Team mail: who the caller is, and what every write does

    The callers of the mail ([_require_network_scope], [_caller_network_node],
    [_team_owned_addresses], who is the author, who moderates, who sees a
    message), the answers stored under a key ([_idempotency_lookup],
    [_idempotency_store]), the rate buckets of servers and the outbox. *)
From S2P Require Import Prelude.
From S2P Require Import PyValues.
From S2P Require Import Json.
From S2P Require Import HubTokens.
From S2P Require Import Transactions.
From S2P Require Import HubTables.
From S2P Require Import HubAuth.
From S2P Require Import HubServers.
From S2P Require Import HubSessions.
From S2P Require Import TeamText.
From S2P Require Import TeamTables.
Open Scope string_scope.

(** ** Callers *)

Definition NETWORK_AUTOMATION_AUTH_KINDS : list string := ["secure_peer"; "local_agent_mail"; "managed_server"].
Definition MANAGED_HOST_AUTH_KINDS : list string := ["local_agent_mail"; "managed_server"].
Definition is_automation (claims : access_claims) : bool := str_in (cl_kind claims) NETWORK_AUTOMATION_AUTH_KINDS.

(** [except (AuthorizationError, AuthenticationError): raise not_found] *)
Definition as_not_found (e : exn) : exn :=
  match e with AuthorizationError _ | AuthenticationError _ => NOT_FOUND | e => e end.

Section access.
Context `{HubCrypto}.

(** [_require_network_scope], which reads the clock again. *)
Definition require_network_scope (claims : access_claims) (team : string) (write : bool) (clock : Z) : tx membership :=
  _ ← require_session claims clock;
  if is_automation claims then
    guard_not (negb (bool_decide (cl_team claims = Some team))
               || negb (bool_decide ((if write then "teamspace.write" else "teamspace.read") ∈ cl_scopes claims))) FORBIDDEN;;
    on_error as_not_found (require_team_role team (cl_principal claims) [Automation])
  else
    on_error as_not_found (require_team_role team (cl_principal claims)
      (if write then [Owner; Admin; Member] else [Owner; Admin; Member; Guest])).

(** [_bound_network_node]: the id of the node. *)
Definition bound_network_node (claims : access_claims) (team : string) : tx string :=
  match (if String.eqb (cl_kind claims) "secure_peer" then cl_peer claims else None) with
  | None => fail (HubError "network_peer_required" "A bound server connection is required" 403)
  | Some peer =>
      row ← ask (λ h, match peers h !! peer with
                      | Some b => if String.eqb (pb_team b) team && String.eqb (pb_service b) (cl_principal claims) && pb_active b
                                  then match nodes h !! pb_node b with
                                       | Some n => if String.eqb (nd_team n) team && bool_decide (nd_status n = NodeActive)
                                                   then Some (pb_node b) else None
                                       | None => None
                                       end
                                  else None
                      | None => None
                      end);
      match row with
      | Some node => mret node
      | None => fail (HubError "network_peer_unavailable" "Bound server identity is unavailable" 403)
      end
  end.

Definition HOST_UNAVAILABLE : exn :=
  HubError "network_host_unavailable" "Designated host server identity is unavailable" 409.

(** [_caller_network_node]: the id of the node. *)
Definition caller_network_node (cf : config) (claims : access_claims) (team : string) : tx string :=
  if String.eqb (cl_kind claims) "secure_peer" then bound_network_node claims team else
  _ ← on_error as_not_found (require_team_role team (cl_principal claims)
        (if str_in (cl_kind claims) MANAGED_HOST_AUTH_KINDS then [Automation] else [Owner; Admin; Member]));
  match cf_identity cf with
  | None => fail HOST_UNAVAILABLE
  | Some identity =>
      row ← ask (λ h, find_row (λ _ n, String.eqb (nd_team n) team && String.eqb (nd_server n) identity
                                       && bool_decide (nd_status n = NodeActive) && principal_active h (nd_principal n))
                        (nodes h));
      match row with
      | Some (node, _) => mret node
      | None => fail HOST_UNAVAILABLE
      end
  end.

(** [_team_sender]: the server a message is from, [None] for a person. *)
Definition team_sender (cf : config) (claims : access_claims) (team : string) : tx (option string) :=
  if is_automation claims then node ← caller_network_node cf claims team; mret (Some node) else mret None.

(** [_team_owned_addresses] *)
Definition team_owned_addresses (cf : config) (claims : access_claims) (team : string) (r : role) : tx (list address) :=
  if is_automation claims then node ← caller_network_node cf claims team; mret [ToServer node]
  else if bool_decide (r ∈ [Owner; Admin; Member]) then λ h,
    match caller_network_node cf claims team h with
    | Ok (h, node) => Ok (h, [ToHuman (cl_principal claims); ToServer node])
    | Err (HubError "network_host_unavailable" _ _) => Ok (h, [ToHuman (cl_principal claims)])
    | Err e => Err e
    end
  else mret [ToHuman (cl_principal claims)].

(** [_network_source_author_matches] *)
Definition source_author_matches (cf : config) (claims : access_claims) (team p : string) (node : option string) : tx bool :=
  if String.eqb p (cl_principal claims) then mret true else
  match node with
  | Some node => if is_automation claims
                 then caller ← caller_network_node cf claims team; mret (String.eqb caller node)
                 else mret false
  | None => mret false
  end.

(** [_team_message_author_matches] *)
Definition message_author_matches (cf : config) (claims : access_claims) (team : string) (m : message) : tx bool :=
  match ms_node m with
  | None => mret (negb (is_automation claims) && String.eqb (ms_sender m) (cl_principal claims))
  | Some node => if is_automation claims
                 then caller ← caller_network_node cf claims team; mret (String.eqb caller node)
                 else mret false
  end.

(** [_network_host_operator_can_moderate] *)
Definition host_operator_can_moderate (claims : access_claims) (team : string) (r : role) : bool :=
  String.eqb (cl_kind claims) "managed_server" && String.eqb (cl_principal claims) MANAGED_SERVER_PRINCIPAL_ID
  && bool_decide (cl_team claims = Some team) && bool_decide (r = Automation)
  && bool_decide ("teamspace.write" ∈ cl_scopes claims).

(** ** Who sees a message *)

Definition copies_of (p : post) (team id : string) : list (string * copy) :=
  select_rows (λ _ c, String.eqb (cp_team c) team && String.eqb (cp_message c) id) (copies p).

(** There is a row of [network_content_deletions]. *)
Definition is_deleted (p : post) (team id : string) : bool :=
  exists_row (λ _ d, String.eqb (dl_team d) team && String.eqb (dl_message d) id) (deletions p).

(** [_team_message_was_visible] *)
Definition was_visible (p : post) (claims : access_claims) (id : string) (m : message) (owned : list address) : bool :=
  match ms_node m with
  | None => String.eqb (ms_sender m) (cl_principal claims)
  | Some node => bool_decide (ToServer node ∈ owned)
  end
  || existsb (λ kc, bool_decide (cp_to kc.2 = ToAll) || bool_decide (cp_to kc.2 ∈ owned)) (copies_of p (ms_team m) id).

(** [_team_message_visible] *)
Definition visible (p : post) (claims : access_claims) (id : string) (m : message) (owned : list address) : bool :=
  negb (is_deleted p (ms_team m) id) && was_visible p claims id m owned.

(** ** Answers under a key *)

(** [hashlib.sha256(key.encode("utf-8")).digest()] *)
Definition key_digest (key : string) : string := sha256 (utf8 key).

(** [_idempotency_lookup]: what was answered before. *)
Definition idempotency_lookup (team p operation key fingerprint : string) : ptx (option pyval) :=
  guard_not (negb (between 8 (len key) 240)) (invalid "idempotency_key must be 8-240 characters");;
  row ← ask (λ s, find_row (λ _ a, String.eqb (sa_team a) team && String.eqb (sa_principal a) p
                                   && String.eqb (sa_operation a) operation && String.eqb (sa_key a) (key_digest key))
                    (answers s));
  match row with
  | None => mret None
  | Some (_, a) =>
      guard_not (negb (String.eqb (sa_fingerprint a) fingerprint))
        (HubError "idempotency_conflict" "Idempotency key was already used with a different request" 409);;
      v ← pure (json_parse (sa_response a));
      mret (Some v)
  end.

(** [_idempotency_store] *)
Definition idempotency_store (team p operation key fingerprint type resource : string) (response : pyval) (now : Z)
    (random : string) : ptx unit :=
  insert_answer (new_id "idempotency" random)
    (mkStored team p operation (key_digest key) fingerprint type resource (dumps_sorted response) now).

(** The digest under which a message or revision is stored once. *)
Definition NUL : string := String (chr 0) "".
Definition write_key (team p operation key : string) : string :=
  sha256 (utf8 (team +:+ NUL +:+ p +:+ NUL +:+ operation +:+ NUL +:+ key)).

(** ** Rate buckets, outbox, audit *)

(** [_charge_rate_bucket], with the row it leaves. *)
Definition charge_rate_bucket (team subject action : string) (now window cost limit : Z) : ptx unit :=
  guard_not ((cost <? 0) || (limit <=? 0) || (window <=? 0))%Z (RuntimeError "invalid durable rate bucket");;
  row ← ask (λ p, buckets p !! (team, subject, action));
  let '(started, count) := match row with
    | Some b => if (bk_started b + window <=? now)%Z then (now, cost) else (bk_started b, bk_count b + cost)%Z
    | None => (now, cost)
    end in
  guard_not (limit <? count)%Z
    (HubError "rate_limited" "Secure peer write limit exceeded; retry after the current window" 429);;
  let b := mkBucket started count now in
  guard_not (negb (bucket_ok b && between 1 (sql_length subject) 240)) (IntegrityError "constraint failed");;
  modify (λ p, p {{ buckets := <[(team, subject, action) := b]> (buckets p) }}).

(** [_network_automation_rate_subject] *)
Definition rate_subject (claims : access_claims) : option string :=
  if String.eqb (cl_kind claims) "secure_peer"
  then Some ("secure-peer:" +:+ match cl_peer claims with
                                | Some peer => if String.eqb peer "" then cl_principal claims else peer
                                | None => cl_principal claims
                                end)
  else if String.eqb (cl_kind claims) "local_agent_mail" then Some ("local-agent-mail:" +:+ cl_principal claims)
  else if String.eqb (cl_kind claims) "managed_server" then Some ("managed-server:" +:+ cl_principal claims)
  else None.

(** [_charge_network_peer_write] *)
Definition charge_network_peer_write (claims : access_claims) (team : string) (bytes now : Z) : ptx unit :=
  match rate_subject claims with
  | None => mret tt
  | Some subject =>
      charge_rate_bucket team subject "network.mailbox.count.minute" now 60 1 60;;
      charge_rate_bucket team subject "network.mailbox.bytes.hour" now 3600 bytes 4194304
  end.

(** [_outbox] *)
Definition outbox_event (team type resource event : string) (now : Z) (random : string) : ptx unit :=
  insert_effect (new_id "outbox" random)
    (mkEffect team type resource event
       (sha256 (utf8 (team +:+ NUL +:+ type +:+ NUL +:+ resource +:+ NUL +:+ event))) now).

Definition audit_mail (team p action type resource : string) (metadata : list (string * pyval)) (now : Z)
    (random : string) : ptx unit :=
  on_accounts (audit_event team p action type resource "succeeded" metadata now random).
End access.

(** * Team mail: what clients are shown

    The projections of [HubStore]: [_team_message_public] and what it shows of
    recipients, attachments, revisions and the state of a mailbox.  The ellipsis
    at the end of a long preview, a code point above 255, is written as three
    full stops, which are as many bytes. *)
Definition text_or_none (o : option string) : pyval := match o with Some s => PStr s | None => PNone end.

(** [_team_party] *)
Definition team_party (kind identity : string) (name : option string) : list (string * pyval) :=
  [("kind", PStr kind); ("id", PStr identity);
   ("display_name", PStr (if String.eqb (default "" name) "" then if String.eqb kind "all" then "Team" else identity
                          else default "" name))].

Definition principal_name (p : post) (id : string) : option string := pr_name <$> principals (accounts p) !! id.
(** The name of a node of the team. *)
Definition node_name (p : post) (team id : string) : option string :=
  match nodes (accounts p) !! id with Some n => if String.eqb (nd_team n) team then Some (nd_name n) else None | None => None end.

(** [_team_sender_party], also of the editor of a revision. *)
Definition sender_party (p : post) (team principal : string) (node : option string) : list (string * pyval) :=
  match node with
  | Some n => team_party "server" n (node_name p team n)
  | None => team_party "human" principal (principal_name p principal)
  end.

Definition address_kind (a : address) : string :=
  match a with ToServer _ => "server" | ToHuman _ => "human" | ToAll => "all" end.
Definition address_id (a : address) : string := match a with ToServer n => n | ToHuman q => q | ToAll => "all" end.
Definition state_name (s : copy_state) : string :=
  match s with CopyAvailable => "available" | CopyDelivered => "delivered" | CopyRead => "read" end.

(** [_team_recipient_public] *)
Definition recipient_public (p : post) (c : copy) : res (list (string * pyval)) :=
  let party := match cp_to c with
    | ToServer n => team_party "server" n (node_name p (cp_team c) n)
    | ToHuman q => team_party "human" q (principal_name p q)
    | ToAll => team_party "all" "all" (Some "Team")
    end in
  delivered ← time_or_none (cp_delivered c);
  read ← time_or_none (cp_read c);
  Ok (party ++ [("state", PStr (state_name (cp_state c))); ("delivered_at", delivered); ("read_at", read)])%list.

(** [ORDER BY r.recipient_kind, r.id] *)
Definition by_kind (x y : string * copy) : Prop :=
  (address_kind (cp_to x.2) ≠ address_kind (cp_to y.2) ∧ String.le (address_kind (cp_to x.2)) (address_kind (cp_to y.2)))
  ∨ address_kind (cp_to x.2) = address_kind (cp_to y.2) ∧ String.le x.1 y.1.
#[global] Instance by_kind_dec : RelDecision by_kind.
Proof. intros x y. unfold by_kind. apply _. Defined.

(** [_team_message_recipients] *)
Definition message_recipients (p : post) (team id : string) : list (string * copy) :=
  merge_sort by_kind (copies_of p team id).

Definition attachment_state_name (s : attachment_state) : string :=
  match s with Uploading => "uploading" | Ready => "ready" | UploadFailed => "failed" end.

(** [_team_attachment_public] *)
Definition attachment_public (id : string) (a : attachment) : res pyval :=
  created ← time_or_none (Some (at_created a));
  ready ← time_or_none (at_ready a);
  Ok (PDict [("id", PStr id); ("message_id", text_or_none (at_message a)); ("file_name", PStr (at_name a));
    ("media_type", PStr (at_media a)); ("byte_size", PInt (at_size a)); ("sha256", PStr (at_storage a));
    ("state", PStr (attachment_state_name (at_state a))); ("received_bytes", PInt (at_received a));
    ("created_at", created); ("ready_at", ready)]).

(** [ORDER BY created_at, id] *)
Definition by_upload (x y : string * attachment) : Prop :=
  (at_created x.2 < at_created y.2)%Z ∨ at_created x.2 = at_created y.2 ∧ String.le x.1 y.1.
#[global] Instance by_upload_dec : RelDecision by_upload.
Proof. intros x y. unfold by_upload. apply _. Defined.

(** [mapM] in [res], in order. *)
Fixpoint map_res {A B} (f : A → res B) (l : list A) : res (list B) :=
  match l with [] => Ok [] | a :: l => b ← f a; bs ← map_res f l; Ok (b :: bs) end.

(** [_team_message_attachments] *)
Definition message_attachments (p : post) (team id : string) : res (list pyval) :=
  map_res (λ ka, attachment_public ka.1 ka.2)
    (merge_sort by_upload (select_rows (λ _ a, String.eqb (at_team a) team && bool_decide (at_message a = Some id))
                               (attachments p))).

(** The [current_...] columns of [_team_message_select]. *)
Record current := mkCurrent {
  cu_body : string; cu_format : string; cu_digest : string; cu_version : Z; cu_edited : option Z
}.
Definition current_of (p : post) (id : string) (m : message) : current :=
  let version := message_version p id in
  match find_row (λ _ r, String.eqb (rv_message r) id && (rv_version r =? version)%Z) (revisions p) with
  | Some (_, r) => mkCurrent (rv_body r) (rv_format r) (rv_digest r) version (Some (rv_created r))
  | None => mkCurrent (ms_body m) (ms_format m) (ms_digest m) 1 None
  end.

(** [_team_mailbox_state_public] *)
Definition mailbox_state_public (c : copy) : pyval :=
  PDict [("address_kind", PStr "server"); ("address_id", PStr (address_id (cp_to c)));
    ("unread", PBool (default (negb (bool_decide (cp_state c = CopyRead))) (cp_unread c)));
    ("version", PInt (cp_version c))].

Definition preview (body : string) : string :=
  let text := squeeze body in
  if (MAX_TEAM_MESSAGE_PREVIEW_CHARS <? String.length text)%nat
  then prefix_of (MAX_TEAM_MESSAGE_PREVIEW_CHARS - 1) text +:+ "..." else text.

(** What of a message a caller asks for. *)
Record shown := mkShown {
  sh_body : bool;                      (* include_body *)
  sh_revision : bool;
  sh_subject : bool;                   (* include_mail_subject *)
  sh_state : bool;                     (* include_mailbox_state *)
  sh_owned : option (list address);    (* owned *)
  sh_address : option address;         (* delivery_address *)
}.

(** The copy a caller is shown as its own: the first at one of its addresses. *)
Definition is_own (w : shown) (owned : list address) (a : address) : bool :=
  negb (bool_decide (a = ToAll)) && bool_decide (a ∈ owned)
  && match sh_address w with Some b => bool_decide (a = b) | None => true end.
Definition own_copy (w : shown) (owned : list address) (l : list (string * copy)) : option copy :=
  snd <$> head (filter (λ kc : string * copy, is_own w owned (cp_to kc.2) = true) l).

(** [_team_message_public]; [id] and [m] are the row. *)
Definition message_public (p : post) (w : shown) (id : string) (m : message) : res (list (string * pyval)) :=
  let rows := message_recipients p (ms_team m) id in
  let c := current_of p id m in
  recipients ← map_res (λ kc, recipient_public p kc.2) rows;
  files ← message_attachments p (ms_team m) id;
  created ← time_or_none (Some (ms_created m));
  edited ← time_or_none (cu_edited c);
  own ← match sh_owned w with
        | None => Ok []
        | Some owned =>
            match own_copy w owned rows with
            | None => Ok [("delivery", PNone)]
            | Some mine =>
                d ← recipient_public p mine;
                Ok (("delivery", PDict d) ::
                    match cp_to mine with
                    | ToServer _ => if sh_state w && bool_decide (ms_kind m = KMessage) && is_null (cp_dismissed mine)
                                    then [("mailbox_state", mailbox_state_public mine)] else []
                    | _ => []
                    end)
            end
        end;
  Ok ([("id", PStr id); ("sequence", PInt (ms_sequence m));
       ("kind", PStr (match ms_kind m with KMessage => "message" | KSkill => "skill" end));
       ("title", match ms_kind m with
                 | KSkill => text_or_none (ms_title m)
                 | KMessage => if sh_subject w then text_or_none (ms_subject m) else PNone
                 end);
       ("body_format", PStr (cu_format c)); ("body_bytes", PInt (len (utf8 (cu_body c))));
       ("body_sha256", PStr (hex_of (cu_digest c)));
       ("sender", PDict (sender_party p (ms_team m) (ms_sender m) (ms_node m)));
       ("recipients", PList (PDict <$> recipients)); ("attachments", PList files);
       ("in_reply_to_message_id", text_or_none (ms_reply m));
       ("skill", match ms_skill m with
                 | Some (s, v) => PDict [("id", PStr s);
                     ("slug", text_or_none (sk_slug <$> team_skill p (ms_team m) s)); ("version", PInt v)]
                 | None => PNone
                 end);
       ("provenance", PDict (team_provenance_public (ms_provenance m))); ("created_at", created)]
      ++ (if ms_all_servers m then [("destination", PStr "all_servers")] else [])
      ++ (if sh_revision w then [("revision", PDict [("version", PInt (cu_version c));
             ("versions_count", PInt (cu_version c)); ("edited_at", edited)])] else [])
      ++ [if sh_body w then ("body", PStr (cu_body c)) else ("preview", PStr (preview (cu_body c)))]
      ++ own)%list.

(** [_team_message_revision_public], of the message itself and of a revision. *)
Definition revision_public (p : post) (include_body : bool) (team : string) (version : Z) (format body digest editor : string)
    (node : option string) (created : Z) : res pyval :=
  at_ ← time_or_none (Some created);
  Ok (PDict [("version", PInt version); ("body_format", PStr format); ("body_bytes", PInt (len (utf8 body)));
    ("body_sha256", PStr (hex_of digest)); ("editor", PDict (sender_party p team editor node)); ("created_at", at_);
    if include_body then ("body", PStr body) else ("preview", PStr (preview body))]).
