(* ===== verification/TeamSend.v ===== *)
(** * Team mail: sending

    [create_team_message]: a request is checked, its recipients are resolved to
    the mailboxes of the moment, and the message is stored with their copies. *)
From S2P Require Import Prelude.
From S2P Require Import PyValues.
From S2P Require Import Json.
From S2P Require Import Transactions.
From S2P Require Import HubTokens.
From S2P Require Import HubTables.
From S2P Require Import HubAuth.
From S2P Require Import HubServers.
From S2P Require Import HubSessions.
From S2P Require Import TeamText.
From S2P Require Import TeamTables.
From S2P Require Import TeamAccess.

Open Scope string_scope.

(** ** The request *)

Record skill_part := mkSkillPart {
  kp_slug : string; kp_summary : string; kp_tags : list string; kp_note : string; kp_expected : option Z
}.

Record creation := mkCreation {
  cr_kind : message_kind;
  cr_title : option string;
  cr_body : body_part;
  cr_provenance : string;
  cr_key : string;
  cr_reply : option string;
  cr_requested : list (string * option string);   (* kind and id *)
  cr_lifecycles : list (string * option string);  (* recipient_lifecycles *)
  cr_attachments : list string;
  cr_skill : option skill_part;
}.

Definition bad_recipients : exn := invalid "Message recipients are invalid".

(** One entry of [recipients], after those before it. *)
Definition add_recipient (v : pyval) (acc : list (string * option string) * list (string * option string))
    : res (list (string * option string) * list (string * option string)) :=
  match v with
  | PDict d =>
      kind ← one_of_texts (items_get d "kind") ["server"; "human"; "all"; "all_servers"] bad_recipients;
      id ← (if str_in kind ["all"; "all_servers"] then
              match items_get d "id" with
              | PNone => Ok None
              | PStr s => raise_if (negb (String.eqb s kind)) bad_recipients;; Ok None
              | _ => Err bad_recipients
              end
            else match items_get d "id" with
                 | PStr s => raise_if (negb (between 1 (len s) 240)) bad_recipients;; Ok (Some s)
                 | _ => Err bad_recipients
                 end);
      lifecycle ← match items_get d "mail_route_lifecycle_id" with
                  | PNone => Ok None
                  | PStr s => raise_if (negb (String.eqb kind "server") || negb (hex_digits 64 s))
                                (invalid "Mail route identity is invalid");; Ok (Some s)
                  | _ => Err (invalid "Mail route identity is invalid")
                  end;
      lifecycles ← match (if String.eqb kind "server" then id else None) with
                   | Some server =>
                       raise_if (existsb (λ kv, String.eqb kv.1 server && negb (bool_decide (kv.2 = lifecycle))) acc.2)
                         (invalid "Conflicting mail route identities");;
                       Ok (if str_in server acc.2.*1 then acc.2 else (acc.2 ++ [(server, lifecycle)])%list)
                   | None => Ok acc.2
                   end;
      Ok (if bool_decide ((kind, id) ∈ acc.1) then acc.1 else (acc.1 ++ [(kind, id)])%list, lifecycles)
  | _ => Err bad_recipients
  end.

Fixpoint add_recipients (l : list pyval) acc : res (list (string * option string) * list (string * option string)) :=
  match l with [] => Ok acc | v :: l => acc ← add_recipient v acc; add_recipients l acc end.

(** [attachment_ids]: distinct ids. *)
Definition attachment_ids (v : pyval) : res (list string) :=
  match py_or v (PList []) with
  | PList l =>
      let ids := omap (λ v, match v with PStr s => if between 8 (len s) 240 then Some s else None | _ => None end) l in
      raise_if ((MAX_TEAM_MESSAGE_ATTACHMENTS <? length l)%nat || negb (length ids =? length l)%nat
                || negb (bool_decide (NoDup ids))) (invalid "Message attachments are invalid");;
      Ok ids
  | _ => Err (invalid "Message attachments are invalid")
  end.

Definition skill_details (title : option string) (requested : list (string * option string)) (v : pyval) : res skill_part :=
  raise_if (is_null title) (invalid "A skill post requires a title");;
  match v with
  | PDict d =>
      raise_if (negb (bool_decide (requested = [("all", None)])))
        (invalid "A skill post must be addressed to the whole team");;
      slug ← team_slug (items_get d "slug");
      summary ← team_note (items_get d "summary") "summary";
      tags ← team_tags (items_get d "tags");
      note ← team_note (items_get d "change_note") "change note";
      expected ← match items_get d "expected_version" with
                 | PNone => Ok None
                 | PInt n => raise_if (n <? 1)%Z (invalid "expected_version is invalid");; Ok (Some n)
                 | _ => Err (invalid "expected_version is invalid")
                 end;
      Ok (mkSkillPart slug summary tags note expected)
  | _ => Err (invalid "A skill post requires skill details")
  end.

Section send.
Context `{HubCrypto}.

Definition parse_creation (request : list (string * pyval)) : res creation :=
  kind ← one_of_texts (items_get request "kind") ["message"; "skill"] (invalid "Message kind is invalid");
  let is_message := String.eqb kind "message" in
  title ← (if is_message then team_mail_subject (items_get request "title")
           else team_text (items_get request "title") "title" 1 MAX_TEAM_MESSAGE_TITLE_CHARS true);
  body ← team_body request;
  provenance ← team_provenance (items_get request "provenance");
  key ← team_idempotency_key request;
  reply ← match items_get request "in_reply_to_message_id" with
          | PNone => Ok None
          | PStr s => raise_if (negb (between 8 (len s) 240)) (invalid "in_reply_to_message_id is invalid");; Ok (Some s)
          | _ => Err (invalid "in_reply_to_message_id is invalid")
          end;
  raw ← match items_get request "recipients" with
        | PList l => raise_if (negb ((1 <=? length l)%nat && (length l <=? MAX_TEAM_MESSAGE_RECIPIENTS)%nat)) bad_recipients;;
                     Ok l
        | _ => Err bad_recipients
        end;
  '(requested, lifecycles) ← add_recipients raw ([], []);
  raise_if (bool_decide (("all_servers", None) ∈ requested)
            && negb (is_message && bool_decide (requested = [("all_servers", None)])))
    (invalid "All-server mail must be a message with only the all_servers recipient");;
  files ← attachment_ids (items_get request "attachment_ids");
  details ← (if is_message then
               match items_get request "skill" with
               | PNone => Ok None
               | _ => Err (invalid "Only skill posts carry skill details")
               end
             else d ← skill_details title requested (items_get request "skill"); Ok (Some d));
  Ok (mkCreation (if is_message then KMessage else KSkill) title body provenance key reply requested lifecycles files details).

Definition pair_value (kv : string * option string) : pyval := PList [PStr kv.1; text_or_none kv.2].

Definition creation_fingerprint (team : string) (c : creation) : string :=
  canonical_fingerprint (PDict ([("team_id", PStr team);
    ("kind", PStr (match cr_kind c with KMessage => "message" | KSkill => "skill" end));
    ("title", text_or_none (cr_title c)); ("body", PStr (by_text (cr_body c)));
    ("body_format", PStr (by_format (cr_body c))); ("recipients", PList (pair_value <$> cr_requested c));
    ("attachment_ids", PList (PStr <$> cr_attachments c)); ("in_reply_to_message_id", text_or_none (cr_reply c));
    ("skill", match cr_skill c with
              | Some k => PDict [("slug", PStr (kp_slug k)); ("summary", PStr (kp_summary k));
                  ("tags", PList (PStr <$> kp_tags k)); ("change_note", PStr (kp_note k));
                  ("expected_version", match kp_expected k with Some n => PInt n | None => PNone end)]
              | None => PNone
              end);
    ("provenance", PStr (cr_provenance c))]
    ++ let named := filter (λ kv : string * option string, kv.2 ≠ None) (cr_lifecycles c) in
       if bool_decide (named = []) then [] else
       [("mail_route_lifecycles", PList (pair_value <$> merge_sort key_le named))])%list).

(** ** Recipients *)

(** A live binding of the node to its server. *)
Definition trusted_peer (h : hub) (team node server peer : string) (b : peer_binding) : bool :=
  String.eqb (pb_team b) team && String.eqb (pb_node b) node && String.eqb (pb_server b) server && pb_active b
  && bool_decide (principal_kind_of h (pb_service b) = Some Service) && principal_active h (pb_service b)
  && bool_decide (sv_identifier <$> services h !! pb_service b = Some ("agentsdock.secure-peer." +:+ peer))
  && exists_row (λ _ m, is_member team (pb_service b) m && bool_decide (mb_role m = Automation)
                        && bool_decide (mb_status m = Active)) (memberships h).

Definition ever_bound (h : hub) (team node : string) : bool :=
  exists_row (λ _ b, String.eqb (pb_team b) team && String.eqb (pb_node b) node) (peers h).

(** The server mailboxes of the team, in the order of their ids. *)
Definition all_servers (cf : config) (team : string) (h : hub) : list string :=
  merge_sort String.le (fst <$> select_rows (λ k n,
    String.eqb (nd_team n) team && negb (bool_decide (nd_status n = NodeRevoked))
    && (bool_decide (Some (nd_server n) = cf_identity cf) || negb (ever_bound h team k)
        || exists_row (trusted_peer h team k (nd_server n)) (peers h))) (nodes h)).

(** [_network_server_mail_route_lifecycle] *)
Definition mail_route_lifecycle (cf : config) (team server : string) (h : hub) : option string :=
  match nodes h !! server with
  | Some n =>
      if String.eqb (nd_team n) team
         && (bool_decide (nd_status n = NodeActive) || bool_decide (nd_status n = NodeOffline))
         && principal_active h (nd_principal n)
      then
        let identity := [("version", PInt 1); ("team_id", PStr team); ("node_id", PStr server);
          ("principal_id", PStr (nd_principal n)); ("server_identity", PStr (nd_server n));
          ("enrolled_at", PInt (nd_enrolled n))] in
        let as_text more := Some (hex_of (canonical_fingerprint (PDict (identity ++ more)%list))) in
        if bool_decide (Some (nd_server n) = cf_identity cf) then as_text [("kind", PStr "host")]
        else if ever_bound h team server then
          match find_row (trusted_peer h team server (nd_server n)) (peers h) with
          | Some (peer, b) => as_text [("kind", PStr "peer"); ("peer_id", PStr peer);
                                ("service_principal_id", PStr (pb_service b)); ("created_at", PInt (pb_created b))]
          | None => None
          end
        else as_text [("kind", PStr "legacy")]
      else None
  | None => None
  end.

(** The mailboxes one requested recipient stands for. *)
Definition resolve_recipient (cf : config) (team : string) (lifecycles : list (string * option string)) (r : string * option string)
    : tx (list address) :=
  match r with
  | (kind, Some id) =>
      if String.eqb kind "server" then
        found ← ask (λ h, match nodes h !! id with
                          | Some n => String.eqb (nd_team n) team && negb (bool_decide (nd_status n = NodeRevoked))
                          | None => false
                          end);
        guard_not (negb found) (HubError "recipient_unavailable" "Team Network server recipient is unavailable" 404);;
        now_ ← ask (mail_route_lifecycle cf team id);
        guard_not (existsb (λ kv : string * option string, String.eqb kv.1 id && negb (is_null kv.2)
                                                           && negb (bool_decide (kv.2 = now_))) lifecycles)
          (HubError "mail_route_changed" "The recipient changed or left the team. Select its @@ mention again to grant a new route." 409);;
        mret [ToServer id]
      else
        found ← ask (λ h, bool_decide (principal_kind_of h id = Some Human) && principal_active h id
                          && exists_row (λ _ m, is_member team id m && bool_decide (mb_status m = Active)) (memberships h));
        guard_not (negb found) (HubError "recipient_unavailable" "Team Network member recipient is unavailable" 404);;
        mret [ToHuman id]
  | (kind, None) =>
      if String.eqb kind "all" then mret [ToAll] else
      servers ← ask (all_servers cf team);
      guard_not (bool_decide (servers = []))
        (HubError "recipient_unavailable" "No Team Network server inboxes are available" 404);;
      guard_not (MAX_TEAM_MESSAGE_SERVER_RECIPIENTS <? length servers)%nat
        (HubError "recipient_limit" "Team Network server inbox limit exceeded" 413);;
      mret (ToServer <$> servers)
  end.

Fixpoint resolve_all (cf : config) (team : string) lifecycles (l : list (string * option string)) : tx (list address) :=
  match l with
  | [] => mret []
  | r :: l => a ← resolve_recipient cf team lifecycles r; b ← resolve_all cf team lifecycles l; mret (a ++ b)%list
  end.

(** ** What the message carries *)

(** The reply target exists, was not deleted and can be seen by the caller. *)
Definition reply_target (cf : config) (claims : access_claims) (team : string) (r : role) (reply : option string) : ptx unit :=
  match reply with
  | None => mret tt
  | Some id =>
      row ← ask (λ p, if is_deleted p team id then None else team_message p team id);
      owned ← on_accounts (team_owned_addresses cf claims team r);
      p ← ask (λ p, p);
      guard_not (negb (match row with Some m => was_visible p claims id m owned | None => false end))
        (invalid "Reply target is unavailable")
  end.

Definition attachment_usable (p : post) (claims : access_claims) (team : string) (now : Z) (id : string) : option attachment :=
  match attachments p !! id with
  | Some a => if String.eqb (at_team a) team && bool_decide (at_state a = Ready) && is_null (at_message a)
                 && String.eqb (at_uploader a) (cl_principal claims) && (now <? at_expires a)%Z
              then Some a else None
  | None => None
  end.

Definition attachment_unavailable : exn :=
  HubError "attachment_unavailable" "An attachment is missing, unfinished, expired, or already used" 409.

(** The bytes of the attachments, all usable. *)
Fixpoint attachment_bytes (claims : access_claims) (team : string) (now : Z) (ids : list string) : ptx Z :=
  match ids with
  | [] => mret 0%Z
  | id :: ids =>
      a ← ask (λ p, attachment_usable p claims team now id);
      match a with
      | None => fail attachment_unavailable
      | Some a => n ← attachment_bytes claims team now ids; mret (at_size a + n)%Z
      end
  end.

Definition bind_attachment (team message : string) (now : Z) (id : string) : ptx unit :=
  changed ← update_attachments (λ k a, String.eqb k id && String.eqb (at_team a) team && is_null (at_message a)
                                       && bool_decide (at_state a = Ready) && (now <? at_expires a)%Z)
              (λ a, a {{ at_message := Some message }});
  guard_not (negb (changed =? 1)%nat) attachment_unavailable.

Definition version_conflict : exn := HubError "skill_version_conflict" "The skill changed since it was loaded" 409.

(** The skill a post creates or advances, and its version. *)
Definition advance_skill (team : string) (claims : access_claims) (title : string) (k : skill_part) (now : Z)
    (random : string) : ptx (string * Z) :=
  let tags := encode_ascii (PList (PStr <$> kp_tags k)) in
  row ← ask (λ p, find_row (λ _ s, String.eqb (sk_team s) team && String.eqb (sk_slug s) (kp_slug k)) (skills p));
  match row with
  | None =>
      guard_not (negb (is_null (kp_expected k)))
        (HubError "skill_version_conflict" "The skill does not exist yet; omit expected_version" 409);;
      count ← ask (λ p, count_rows (λ s, String.eqb (sk_team s) team) (skills p));
      guard_not (MAX_TEAM_SKILLS_PER_TEAM <=? count)%nat
        (HubError "skill_limit" "This team has reached its skill limit" 409);;
      let id := new_id "tskill" random in
      insert_skill id (mkSkill team (kp_slug k) title (kp_summary k) tags 1 (cl_principal claims) None None now now);;
      mret (id, 1%Z)
  | Some (id, s) =>
      guard_not (negb (is_null (sk_archived s))) (HubError "skill_archived" "Restore the skill before updating it" 409);;
      guard_not (negb (bool_decide (kp_expected k = Some (sk_version s)))) version_conflict;;
      count ← ask (λ p, count_rows (λ v, String.eqb (kv_skill v) id) (skill_versions p));
      guard_not (MAX_TEAM_SKILL_VERSIONS <=? count)%nat
        (HubError "skill_limit" "This skill has reached its version limit" 409);;
      let version := (sk_version s + 1)%Z in
      _ ← update_skills (λ k' s', String.eqb (sk_team s') team && String.eqb k' id)
            (λ s, s {{ sk_title := title; sk_summary := kp_summary k; sk_tags := tags; sk_version := version;
                       sk_updated := now }});
      mret (id, version)
  end.

(** Copies for the recipients, with fresh ids. *)
Fixpoint insert_copies (team message : string) (l : list address) (random : nat → string) : ptx unit :=
  match l with
  | [] => mret tt
  | a :: l =>
      insert_copy (new_id "trcpt" (random 0%nat)) team message a ("bchg_" +:+ random 1%nat);;
      insert_copies team message l (λ i, random (i + 2)%nat)
  end.

Definition as_conflict (message : string) (e : exn) : exn :=
  match e with IntegrityError _ => HubError "conflict" message 409 | e => e end.

Definition CREATE : string := "team.message.create".

(** [sorted({kind of each})] *)
Definition kinds_of (l : list address) : list pyval :=
  PStr <$> filter (λ k : string, Exists (λ a, address_kind a = k) l) ["all"; "human"; "server"].

(** What is stored: the message, its copies, its attachments and the version of
    its skill; the id of that version. *)
Definition store_team_message (cf : config) (claims : access_claims) (team : string) (c : creation) (resolved : list address)
    (sender : option string) (bytes : Z) (id : string) (now : Z) (random : nat → string) : ptx (option (string * Z)) :=
  advanced ← match cr_skill c with
             | None => mret None
             | Some k => kv ← advance_skill team claims (default "" (cr_title c)) k now (random 1%nat); mret (Some kv)
             end;
  _ ← insert_message id (mkMessage 0 team (cr_kind c)
        (match cr_kind c with KSkill => cr_title c | KMessage => None end)
        (by_format (cr_body c)) (by_text (cr_body c)) (by_digest (cr_body c)) (cl_principal claims) sender
        (cr_provenance c) (cr_reply c) advanced (Z.of_nat (length (cr_attachments c))) bytes
        (write_key team (cl_principal claims) CREATE (cr_key c)) now
        (bool_decide (("all_servers", None) ∈ cr_requested c))
        (match cr_kind c with KMessage => cr_title c | KSkill => None end));
  insert_copies team id resolved (λ i, random (i + 8)%nat);;
  for_each (cr_attachments c) (bind_attachment team id now);;
  match cr_skill c, advanced with
  | Some k, Some (skill, version) =>
      insert_skill_version (new_id "tskillv" (random 2%nat))
        (mkSkillVersion team skill version id (default "" (cr_title c)) (kp_summary k)
           (encode_ascii (PList (PStr <$> kp_tags k))) (kp_note k) now)
  | _, _ => mret tt
  end;;
  mret advanced.

(** A new message, answered under its key. *)
Definition send_message (cf : config) (claims : access_claims) (team : string) (c : creation) (r : role)
    (fingerprint : string) (now : Z) (random : nat → string) : ptx pyval :=
  sender ← on_accounts (team_sender cf claims team);
  resolved ← on_accounts (resolve_all cf team (cr_lifecycles c) (cr_requested c));
  reply_target cf claims team r (cr_reply c);;
  bytes ← attachment_bytes claims team now (cr_attachments c);
  guard_not (MAX_TEAM_MESSAGE_ATTACHMENT_BYTES <? bytes)%Z
    (HubError "attachment_limit" "Attachments exceed the per-message limit" 413);;
  charge_network_peer_write claims team (by_bytes (cr_body c)) now;;
  let id := new_id "tmsg" (random 0%nat) in
  advanced ← store_team_message cf claims team c resolved sender bytes id now random;
  p ← ask (λ p, p);
  row ← ask (λ p, team_message p team id);
  match row with
  | None => fail AssertionError
  | Some m =>
      view ← pure (message_public p (mkShown true false (negb (is_null (cr_title c))) false None None) id m);
      let response := PDict [("message", PDict view)] in
      guard_not (MAX_NETWORK_PAGE_RESPONSE_BYTES <? len (canonical_json response))%Z
        (HubError "recipient_limit" "Message recipient response exceeds the size limit" 413);;
      idempotency_store team (cl_principal claims) CREATE (cr_key c) fingerprint "team_message" id response now
        (random 3%nat);;
      audit_mail team (cl_principal claims) CREATE "team_message" id
        [("kind", PStr (match cr_kind c with KMessage => "message" | KSkill => "skill" end));
         ("recipient_kinds", PList (kinds_of resolved));
         ("attachments", PInt (Z.of_nat (length (cr_attachments c))));
         ("skill_slug", text_or_none (kp_slug <$> cr_skill c));
         ("skill_version", match advanced with Some (_, v) => PInt v | None => PNone end)] now (random 4%nat);;
      outbox_event team "team_message" id "team.message.created" now (random 5%nat);;
      match cr_skill c with
      | Some _ => outbox_event team "team_skill_version" (new_id "tskillv" (random 2%nat)) "team.skill.versioned" now
                    (random 6%nat)
      | None => mret tt
      end;;
      mret response
  end.

(** [create_team_message]; the hints after it committed are left out. *)
Definition create_team_message (cf : config) (claims : access_claims) (team : string) (request : list (string * pyval))
    (now clock : Z) (random : nat → string) : ptx pyval :=
  c ← pure (parse_creation request);
  let fingerprint := creation_fingerprint team c in
  on_error (as_conflict "Team message conflicts with existing data")
    (m ← on_accounts (require_network_scope claims team true clock);
     cached ← idempotency_lookup team (cl_principal claims) CREATE (cr_key c) fingerprint;
     match cached with
     | Some v => mret v
     | None => send_message cf claims team c (mb_role m) fingerprint now random
     end).
End send.
