(* ===== verification/TeamMail.v ===== *)
(** * Team mail: reading, receipts, revisions and deletion

    [list_team_messages], [get_team_message], [revise_team_message],
    [delete_team_message], [dismiss_team_message],
    [set_team_message_mailbox_state], [record_team_message_receipt] and
    [team_mail_arrival_snapshot].  A page is searched by sender and time; the
    full-text search is left out. *)
From S2P Require Import Prelude.
From S2P Require Import PyValues.
From S2P Require Import Json.
From S2P Require Import Transactions.
From S2P Require Import HubTokens.
From S2P Require Import HubTables.
From S2P Require Import HubAuth.
From S2P Require Import HubServers.
From S2P Require Import HubSessions.
From S2P Require Import TeamText.
From S2P Require Import TeamTables.
From S2P Require Import TeamAccess.
From S2P Require Import TeamSend.

Open Scope string_scope.

(** ** Cursors of arrivals *)

Definition MAX_MAIL_SEQUENCE : Z := 9007199254740991.

Definition mail_identifier (s : string) : bool :=
  match s with
  | String c r => alnum c && string_forallb (λ c, alnum c || string_contains c "._:-") r && (len r <=? 127)%Z
  | "" => false
  end.
Definition mail_arrival_id (s : string) : bool :=
  startswith "tmsg_" s && hex_digits 32 (String.substring 5 (String.length s) s).

(** [MailArrival], whose fields [__post_init__] checks. *)
Record mail_arrival := mkArrival { ar_team : string; ar_server : string; ar_through : Z; ar_id : option string }.
Definition new_arrival (team server : string) (n : Z) (id : option string) : res mail_arrival :=
  raise_if (negb (mail_identifier team) || negb (mail_identifier server))
    (ValueError "Mail arrival mailbox identity is invalid");;
  raise_if (negb (between 0 n MAX_MAIL_SEQUENCE)) (ValueError "Mail arrival sequence is invalid");;
  raise_if ((n =? 0)%Z && negb (is_null id)) (ValueError "An empty Mail cursor cannot have an arrival ID");;
  raise_if (negb (n =? 0)%Z && match id with Some s => negb (mail_arrival_id s) | None => true end)
    (ValueError "Mail arrival ID is invalid");;
  Ok (mkArrival team server n id).

(** [as_dict] *)
Definition arrival_dict (a : mail_arrival) : list (string * pyval) :=
  [("version", PInt 1); ("team_id", PStr (ar_team a)); ("recipient_server_id", PStr (ar_server a));
   ("through_sequence", PInt (ar_through a)); ("arrival_id", text_or_none (ar_id a))].

(** [from_dict] *)
Definition arrival_from_dict (d : list (string * pyval)) : res mail_arrival :=
  let bad := ValueError "Mail arrival cursor is invalid" in
  raise_if (negb (forallb (λ k, str_in k d.*1) ["version"; "team_id"; "recipient_server_id"; "through_sequence"; "arrival_id"])
            || negb (forallb (λ kv, str_in kv.1 ["version"; "team_id"; "recipient_server_id"; "through_sequence";
                                                 "arrival_id"; "reset"]) d)
            || negb (bool_decide (items_get d "version" = PInt 1))
            || match items_get d "reset" with
               | PBool _ => false
               | PNone => str_in "reset" d.*1
               | _ => true
               end) bad;;
  match items_get d "team_id", items_get d "recipient_server_id", items_get d "through_sequence" with
  | PStr team, PStr server, PInt n =>
      match items_get d "arrival_id" with
      | PNone => new_arrival team server n None
      | PStr id => new_arrival team server n (Some id)
      | _ => Err (ValueError "Mail arrival ID is invalid")
      end
  | _, _, _ => Err (ValueError "Mail arrival mailbox identity is invalid")
  end.

Definition as_code (code message : string) (status : Z) (e : exn) : exn :=
  match e with ValueError _ => HubError code message status | e => e end.

(** [_team_mail_arrival]: the watermark of a mailbox. *)
Definition latest_arrival (p : post) (team server : string) : res mail_arrival :=
  match (match arrivals p !! (team, server) with
         | Some (n, id) => new_arrival team server n (Some id)
         | None => new_arrival team server 0 None
         end) with
  | Err e => Err (as_code "mail_cursor_unavailable" "Mail arrival cursor is unavailable" 409 e)
  | r => r
  end.

(** [_team_mail_anchor_matches] *)
Definition anchor_matches (p : post) (a : mail_arrival) : bool :=
  (ar_through a =? 0)%Z
  || match ar_id a with
     | Some id =>
         match team_message p (ar_team a) id with
         | Some m => (ms_sequence m =? ar_through a)%Z && bool_decide (ms_kind m = KMessage)
                     && exists_row (λ _ c, String.eqb (cp_team c) (ar_team a) && String.eqb (cp_message c) id
                                           && bool_decide (cp_to c = ToServer (ar_server a))) (copies p)
         | None => false
         end
     | None => false
     end.

(** ** Pages *)

Record list_query := mkQuery {
  lq_box : string;
  lq_kind : option string;        (* address_kind *)
  lq_id : option string;          (* address_id *)
  lq_unread : bool;
  lq_from : option address;       (* from_kind, from_id *)
  lq_since : option Z;            (* what [_team_since] made of it *)
  lq_after : Z;                   (* after_sequence *)
  lq_limit : Z;
  lq_revision : bool;
  lq_subject : bool;
  lq_state : bool;                (* include_mailbox_state *)
  lq_coverage : bool;             (* include_mailbox_coverage *)
  lq_after_id : option string;    (* after_arrival_id *)
}.

Definition address_of (kind id : string) : option address :=
  if String.eqb kind "server" then Some (ToServer id) else if String.eqb kind "human" then Some (ToHuman id) else None.

(** The mailbox a page of the inbox is of; without a name the first owned. *)
Definition inbox_address (q : list_query) (owned : list address) : option address :=
  match lq_kind q, lq_id q with
  | None, None => head owned
  | Some kind, Some id => match address_of kind id with
                          | Some a => if bool_decide (a ∈ owned) then Some a else None
                          | None => None
                          end
  | _, _ => None
  end.

Definition is_sender (a : address) (m : message) : bool :=
  match a with
  | ToServer n => bool_decide (ms_node m = Some n)
  | ToHuman q => is_null (ms_node m) && String.eqb (ms_sender m) q
  | ToAll => false
  end.

(** [COALESCE(r.inbox_unread, r.state<>'read')=1], or [r.state<>'read']. *)
Definition is_unread (attention : bool) (c : copy) : bool :=
  let by_receipt := negb (bool_decide (cp_state c = CopyRead)) in
  if attention then default by_receipt (cp_unread c) else by_receipt.

Definition in_inbox (p : post) (q : list_query) (a : address) (id : string) : bool :=
  exists_row (λ _ c, String.eqb (cp_message c) id && bool_decide (cp_to c = a) && is_null (cp_dismissed c)
                     && (negb (lq_unread q)
                         || is_unread (lq_state q && match a with ToServer _ => true | _ => false end) c)) (copies p).

(** The [WHERE] of a page; [mailbox] is the address of an inbox, the sender of
    what was sent. *)
Definition on_page (p : post) (team : string) (q : list_query) (mailbox : address) (id : string) (m : message) : bool :=
  String.eqb (ms_team m) team && (lq_after q <? ms_sequence m)%Z && negb (is_deleted p team id)
  && (if String.eqb (lq_box q) "feed" then to_all p id
      else if String.eqb (lq_box q) "inbox" then in_inbox p q mailbox id
      else is_sender mailbox m)
  && match lq_from q with Some a => is_sender a m | None => true end
  && match lq_since q with Some t => (t <=? ms_created m)%Z | None => true end.

(** [ORDER BY m.queue_ordinal] *)
Definition by_ordinal (x y : string * message) : Prop := (ms_sequence x.2 <= ms_sequence y.2)%Z.
#[global] Instance by_ordinal_dec : RelDecision by_ordinal.
Proof. intros x y. unfold by_ordinal. apply _. Defined.

Definition page_rows (p : post) (team : string) (q : list_query) (mailbox : address) : list (string * message) :=
  merge_sort by_ordinal (select_rows (on_page p team q mailbox) (messages p)).

(** An entry of the page: the row and what is shown of it. *)
Definition shown_row : Type := (string * message) * list (string * pyval).
Definition last_sequence (after : Z) (l : list shown_row) : Z :=
  match last l with Some x => ms_sequence x.1.2 | None => after end.

(** [apply_coverage]: how far the pages up to this one cover the mailbox. *)
Definition coverage (team : string) (a : address) (latest : mail_arrival) (l : list shown_row) (more : bool)
    : res mail_arrival :=
  match last l with
  | Some x => if more then new_arrival team (address_id a) (ms_sequence x.1.2) (Some x.1.1) else Ok latest
  | None => Ok latest
  end.

Record mail_page := mkPage { pg_rows : list shown_row; pg_more : bool; pg_coverage : option mail_arrival }.

Definition page_dict (q : list_query) (a : address) (g : mail_page) : list (string * pyval) :=
  ([("box", PStr (lq_box q));
    ("address", if String.eqb (lq_box q) "inbox"
                then PDict [("kind", PStr (address_kind a)); ("id", PStr (address_id a))] else PNone);
    ("messages", PList (PDict <$> (pg_rows g).*2));
    ("next_after_sequence", PInt (last_sequence (lq_after q) (pg_rows g))); ("has_more", PBool (pg_more g))]
   ++ match pg_coverage g with Some c => [("mailbox_coverage", PDict (arrival_dict c))] | None => [] end)%list.

Definition page_too_long (q : list_query) (a : address) (g : mail_page) : bool :=
  (MAX_NETWORK_PAGE_RESPONSE_BYTES <? len (canonical_json (PDict (page_dict q a g))))%Z.

Definition with_coverage (team : string) (a : address) (latest : option mail_arrival) (l : list shown_row) (more : bool)
    : res mail_page :=
  match latest with
  | Some latest => c ← coverage team a latest l more; Ok (mkPage l more (Some c))
  | None => Ok (mkPage l more None)
  end.

(** Messages are dropped from the end of a page that is too long; each try has
    one fewer, which bounds the tries. *)
Fixpoint shrink (tries : nat) (team : string) (q : list_query) (a : address) (latest : option mail_arrival) (g : mail_page)
    : res mail_page :=
  match tries with
  | S tries =>
      if (1 <? length (pg_rows g))%nat && page_too_long q a g
      then g ← with_coverage team a latest (removelast (pg_rows g)) true; shrink tries team q a latest g
      else Ok g
  | O => Ok g
  end.

(** The watermark a covered page may claim: of an unfiltered page of a server's
    inbox that starts at a cursor of that mailbox. *)
Definition coverage_latest (p : post) (team : string) (q : list_query) (a : address) : res (option mail_arrival) :=
  match a with
  | ToServer server =>
      if lq_coverage q && String.eqb (lq_box q) "inbox" && negb (lq_unread q) && is_null (lq_from q) && is_null (lq_since q)
      then match new_arrival team server (lq_after q) (lq_after_id q) with
           | Ok anchor => if anchor_matches p anchor then x ← latest_arrival p team server; Ok (Some x) else Ok None
           | Err _ => Ok None
           end
      else Ok None
  | _ => Ok None
  end.

Section mail.
Context `{HubCrypto}.

(** The page of the tables, for a caller that owns [owned]. *)
Definition page_of (p : post) (team : string) (q : list_query) (owned : list address) (a : address) : res mail_page :=
  let rows := page_rows p team q a in
  let limit := Z.to_nat (lq_limit q) in
  let inbox := String.eqb (lq_box q) "inbox" in
  shown ← map_res (λ km : string * message,
    v ← message_public p (mkShown false (lq_revision q) (lq_subject q) (lq_state q)
                            (if inbox then Some owned else None) (if inbox then Some a else None)) km.1 km.2;
    Ok (km, v)) (take limit rows);
  latest ← coverage_latest p team q a;
  g ← with_coverage team a latest shown (limit <? length rows)%nat;
  g ← shrink (length shown) team q a latest g;
  raise_if (page_too_long q a g) (invalid "Message page exceeds the response limit; lower limit");;
  Ok g.

(** The mailbox, or the sender, a page is about. *)
Definition page_address (claims : access_claims) (q : list_query) (owned : list address) : ptx address :=
  if String.eqb (lq_box q) "inbox" then
    match inbox_address q owned with
    | Some a => mret a
    | None => fail (HubError "forbidden" "This mailbox is not owned by the caller" 403)
    end
  else if String.eqb (lq_box q) "feed" then mret ToAll
  else mret (if is_automation claims then default ToAll (head owned) else ToHuman (cl_principal claims)).

(** [list_team_messages], with the address of the page. *)
Definition list_team_messages (cf : config) (claims : access_claims) (team : string) (q : list_query) (clock : Z)
    : ptx (address * mail_page) :=
  guard_not (negb (str_in (lq_box q) ["inbox"; "feed"; "sent"])) (invalid "Message box is invalid");;
  guard_not (negb (between 1 (lq_limit q) MAX_NETWORK_PAGE_ITEMS)) (invalid "Message page limit is invalid");;
  guard_not (lq_after q <? 0)%Z (invalid "Message page cursor is invalid");;
  m ← on_accounts (require_network_scope claims team false clock);
  owned ← on_accounts (team_owned_addresses cf claims team (mb_role m));
  a ← page_address claims q owned;
  p ← ask (λ p, p);
  g ← pure (page_of p team q owned a);
  mret (a, g).

(** [get_team_message] *)
Definition get_team_message (cf : config) (claims : access_claims) (team id : string) (revision subject state : bool)
    (clock : Z) : ptx (list (string * pyval)) :=
  m ← on_accounts (require_network_scope claims team false clock);
  row ← ask (λ p, if is_deleted p team id then None else team_message p team id);
  match row with
  | None => fail NOT_FOUND
  | Some r =>
      owned ← on_accounts (team_owned_addresses cf claims team (mb_role m));
      p ← ask (λ p, p);
      guard_not (negb (visible p claims id r owned)) NOT_FOUND;;
      pure (message_public p (mkShown true revision subject state (Some owned) None) id r)
  end.

(** [team_mail_arrival_snapshot]: the watermark of the caller's server, and
    whether the cursor it came with has to be given up. *)
Definition team_mail_arrival_snapshot (cf : config) (claims : access_claims) (team : string)
    (previous : option (list (string * pyval))) (clock : Z) : ptx (mail_arrival * bool) :=
  previous ← pure (match previous with
    | None => Ok None
    | Some d => match arrival_from_dict d with
                | Ok a => Ok (Some a)
                | Err e => Err (as_code "invalid_request" "Mail arrival cursor is invalid" 422 e)
                end
    end);
  _ ← on_accounts (require_network_scope claims team false clock);
  server ← on_accounts (caller_network_node cf claims team);
  guard_not (match previous with
             | Some a => negb (String.eqb (ar_team a) team && String.eqb (ar_server a) server)
             | None => false
             end) (HubError "forbidden" "Mail arrival cursor belongs to another mailbox" 403);;
  p ← ask (λ p, p);
  latest ← pure (latest_arrival p team server);
  mret (latest, match previous with
                | None => true
                | Some a => (ar_through latest <? ar_through a)%Z || negb (anchor_matches p a)
                end).

(** ** Revisions *)

Definition REVISE : string := "team.message.revise".

(** What the answer shows as title, which is not stored with it. *)
Definition with_subject (p : post) (team id : string) (subject : bool) (response : pyval) : pyval :=
  let title := match (if subject then team_message p team id else None) with
               | Some m => if bool_decide (ms_kind m = KMessage) then text_or_none (ms_subject m) else PNone
               | None => PNone
               end in
  match response with
  | PDict d => PDict (items_put d "message" (match items_get d "message" with
                                             | PDict m => PDict (items_put m "title" title)
                                             | v => v
                                             end))
  | v => v
  end.

Definition is_bulletin (p : post) (team id : string) : bool :=
  bool_decide ((λ kc : string * copy, cp_to kc.2) <$> copies_of p team id = [ToAll]).

(** The message may be revised by the caller to version [expected + 1]. *)
Definition revisable (cf : config) (claims : access_claims) (team id : string) (m : message) (b : body_part) (expected : Z)
    : ptx unit :=
  guard_not (negb (bool_decide (ms_kind m = KMessage)))
    (HubError "skill_version_required" "Publish a new skill version in the Skills library instead" 409);;
  posted ← ask (λ p, is_bulletin p team id);
  guard_not (negb posted) (HubError "invalid_request" "Only Bulletin messages can be edited" 409);;
  author ← on_accounts (message_author_matches cf claims team m);
  guard_not (negb author) (HubError "forbidden" "Only the poster can edit this message" 403);;
  c ← ask (λ p, current_of p id m);
  guard_not (negb (expected =? cu_version c)%Z)
    (HubError "version_conflict" "The message changed; reload it before editing" 409);;
  guard_not (MAX_TEAM_MESSAGE_REVISIONS <=? cu_version c)%Z
    (HubError "revision_limit_reached" "This message has reached its revision limit" 409);;
  guard_not (String.eqb (by_text b) (cu_body c) && String.eqb (by_format b) (cu_format c))
    (HubError "unchanged" "The edited message is unchanged" 409).

Definition add_revision (cf : config) (claims : access_claims) (team id : string) (b : body_part) (expected : Z)
    (key fingerprint : string) (now : Z) (random : nat → string) : ptx pyval :=
  charge_network_peer_write claims team (by_bytes b) now;;
  let revision := new_id "message_revision" (random 0%nat) in
  let version := (expected + 1)%Z in
  sender ← on_accounts (team_sender cf claims team);
  insert_revision revision
    (mkRevision 0 team id version (by_format b) (by_text b) (by_digest b) (cl_principal claims) sender
       (write_key team (cl_principal claims) REVISE key) now) ("bchg_" +:+ random 1%nat);;
  p ← ask (λ p, p);
  row ← ask (λ p, team_message p team id);
  match row with
  | None => fail AssertionError
  | Some m =>
      view ← pure (message_public p (mkShown true true false false None None) id m);
      let response := PDict [("message", PDict view)] in
      idempotency_store team (cl_principal claims) REVISE key fingerprint "team_message_revision" revision response now
        (random 2%nat);;
      audit_mail team (cl_principal claims) REVISE "team_message" id [("version", PInt version)] now (random 3%nat);;
      outbox_event team "team_message_revision" revision "team.message.revised" now (random 4%nat);;
      mret response
  end.

(** [revise_team_message] *)
Definition revise_team_message (cf : config) (claims : access_claims) (team id : string) (request : list (string * pyval))
    (subject : bool) (now clock : Z) (random : nat → string) : ptx pyval :=
  b ← pure (team_body request);
  expected ← pure match items_get request "expected_version" with
                  | PInt n => raise_if (n <? 1)%Z (invalid "expected_version is invalid");; Ok n
                  | _ => Err (invalid "expected_version is invalid")
                  end;
  key ← pure (team_idempotency_key request);
  let fingerprint := canonical_fingerprint (PDict [("team_id", PStr team); ("message_id", PStr id);
    ("body", PStr (by_text b)); ("body_format", PStr (by_format b)); ("expected_version", PInt expected)]) in
  on_error (as_conflict "Team message revision conflicts")
    (_ ← on_accounts (require_network_scope claims team true clock);
     cached ← idempotency_lookup team (cl_principal claims) REVISE key fingerprint;
     response ← match cached with
                | Some v => mret v
                | None =>
                    row ← ask (λ p, if is_deleted p team id then None else team_message p team id);
                    match row with
                    | None => fail NOT_FOUND
                    | Some m =>
                        revisable cf claims team id m b expected;;
                        add_revision cf claims team id b expected key fingerprint now random
                    end
                end;
     p ← ask (λ p, p);
     mret (with_subject p team id subject response)).

(** ** Deletion *)

Definition DELETE : string := "team.message.delete".

(** The caller may delete the message. *)
Definition may_delete (cf : config) (claims : access_claims) (team : string) (m : message) (r : role) : ptx unit :=
  if host_operator_can_moderate claims team r then mret tt else
  match ms_kind m with
  | KSkill =>
      author ← on_accounts (message_author_matches cf claims team m);
      guard_not (negb author)
        (HubError "forbidden" "Only the poster or Host operator can delete this announcement" 403)
  | KMessage =>
      author ← on_accounts (source_author_matches cf claims team (ms_sender m) (ms_node m));
      guard_not (negb author && negb (bool_decide (r ∈ [Owner; Admin]))) FORBIDDEN
  end.

(** [delete_team_message] *)
Definition delete_team_message (cf : config) (claims : access_claims) (team id : string) (request : list (string * pyval))
    (now clock : Z) (random : nat → string) : ptx pyval :=
  key ← pure (team_idempotency_key request);
  let fingerprint := canonical_fingerprint (PDict [("team_id", PStr team); ("message_id", PStr id)]) in
  s ← on_accounts (require_network_scope claims team true clock);
  cached ← idempotency_lookup team (cl_principal claims) DELETE key fingerprint;
  match cached with
  | Some v => mret v
  | None =>
      row ← ask (λ p, team_message p team id);
      match row with
      | None => fail NOT_FOUND
      | Some m =>
          may_delete cf claims team m (mb_role s);;
          existing ← ask (λ p, find_row (λ _ d, String.eqb (dl_team d) team && String.eqb (dl_message d) id) (deletions p));
          let deletion := match existing with Some (k, _) => k | None => new_id "deletion" (random 0%nat) end in
          match existing with
          | Some _ => mret tt
          | None => insert_deletion deletion (mkDeletion 0 team id (cl_principal claims) now) ("bchg_" +:+ random 1%nat)
          end;;
          let response := PDict [("deleted", PBool true); ("message_id", PStr id)] in
          idempotency_store team (cl_principal claims) DELETE key fingerprint "network_content_deletion" deletion response
            now (random 2%nat);;
          match existing with
          | Some _ => mret tt
          | None =>
              audit_mail team (cl_principal claims) DELETE "team_message" id
                [("attachments", PInt (ms_attachments m))] now (random 3%nat);;
              outbox_event team "team_message" id "team.message.deleted" now (random 4%nat)
          end;;
          mret response
      end
  end.

(** ** One's own copy *)

(** [(request.get("address_kind"), request.get("address_id"))], if it is one. *)
Definition request_address (request : list (string * pyval)) : option address :=
  match items_get request "address_kind", items_get request "address_id" with
  | PStr kind, PStr id => address_of kind id
  | _, _ => None
  end.
Definition address_value (request : list (string * pyval)) : pyval :=
  PList [items_get request "address_kind"; items_get request "address_id"].

Definition copy_at (p : post) (team id : string) (a : address) : option (string * copy) :=
  head (filter (λ kc : string * copy, cp_to kc.2 = a) (message_recipients p team id)).

Definition DISMISS : string := "team.message.dismiss".
Definition not_owned : exn := HubError "forbidden" "This mailbox is not owned by the caller" 403.
Definition not_in_mailbox : exn := HubError "not_found" "Message is not in this mailbox" 404.

(** [dismiss_team_message] *)
Definition dismiss_team_message (cf : config) (claims : access_claims) (team id : string) (request : list (string * pyval))
    (now clock : Z) (random : nat → string) : ptx pyval :=
  key ← pure (team_idempotency_key request);
  let fingerprint := canonical_fingerprint (PDict [("message_id", PStr id); ("address", address_value request)]) in
  s ← on_accounts (require_network_scope claims team false clock);
  owned ← on_accounts (team_owned_addresses cf claims team (mb_role s));
  match request_address request with
  | None => fail not_owned
  | Some a =>
      guard_not (negb (bool_decide (a ∈ owned))) not_owned;;
      cached ← idempotency_lookup team (cl_principal claims) DISMISS key fingerprint;
      match cached with
      | Some v => mret v
      | None =>
          row ← ask (λ p, copy_at p team id a);
          match row with
          | None => fail not_in_mailbox
          | Some (k, _) =>
              _ ← update_copies (λ k' _, String.eqb k' k)
                    (λ c, c {{ cp_dismissed := Some (default now (cp_dismissed c)) }});
              let response := PDict [("dismissed", PBool true); ("message_id", PStr id);
                ("address", PDict [("kind", PStr (address_kind a)); ("id", PStr (address_id a))])] in
              idempotency_store team (cl_principal claims) DISMISS key fingerprint "team_message_recipient" k response now
                (random 0%nat);;
              mret response
          end
      end
  end.

Definition MAILBOX_STATE : string := "team.message.mailbox_state".

(** The copy is read now. *)
Definition read_now (now : Z) (c : copy) : copy :=
  c {{ cp_state := CopyRead; cp_delivered := Some (default now (cp_delivered c));
       cp_read := Some (default now (cp_read c)) }}.

(** [set_team_message_mailbox_state] *)
Definition set_team_message_mailbox_state (cf : config) (claims : access_claims) (team id : string)
    (request : list (string * pyval)) (now clock : Z) (random : nat → string) : ptx pyval :=
  '(a, unread, expected) ← pure match request_address request, items_get request "unread", items_get request "expected_version" with
    | Some (ToServer n), PBool unread, PInt expected =>
        raise_if (negb ((0 <=? expected) && (expected <? 9007199254740991))%Z) (invalid "Server mailbox state is invalid");;
        Ok (ToServer n, unread, expected)
    | _, _, _ => Err (invalid "Server mailbox state is invalid")
    end;
  key ← pure (team_idempotency_key request);
  let fingerprint := canonical_fingerprint (PDict [("message_id", PStr id); ("address", address_value request);
    ("unread", PBool unread); ("expected_version", PInt expected)]) in
  s ← on_accounts (require_network_scope claims team false clock);
  owned ← on_accounts (team_owned_addresses cf claims team (mb_role s));
  guard_not (negb (bool_decide (a ∈ owned))) not_owned;;
  live ← ask (λ p, match team_message p team id with
                   | Some m => bool_decide (ms_kind m = KMessage) && negb (is_deleted p team id)
                   | None => false
                   end);
  row ← ask (λ p, match copy_at p team id a with
                  | Some (k, c) => if is_null (cp_dismissed c) then Some (k, c) else None
                  | None => None
                  end);
  match (if live : bool then row else None) with
  | None => fail not_in_mailbox
  | Some (k, c) =>
      cached ← idempotency_lookup team (cl_principal claims) MAILBOX_STATE key fingerprint;
      match cached with
      | Some v => mret v
      | None =>
          guard_not (negb (cp_version c =? expected)%Z)
            (HubError "mailbox_state_conflict" "Mailbox state changed. Refresh the mailbox and try again." 409);;
          _ ← update_copies (λ k' _, String.eqb k' k)
                (λ c, c {{ cp_unread := Some unread; cp_version := (cp_version c + 1)%Z }});
          (if negb unread && negb (bool_decide (cp_state c = CopyRead)) then
             _ ← update_copies (λ k' _, String.eqb k' k) (read_now now);
             outbox_event team "team_message_recipient" k "team.message.read" now (random 0%nat)
           else mret tt);;
          p ← ask (λ p, p);
          match copies p !! k with
          | None => fail AssertionError
          | Some c' =>
              view ← pure (recipient_public p c');
              let response := PDict [("message_id", PStr id); ("mailbox_state", mailbox_state_public c');
                ("recipients", PList [PDict view])] in
              idempotency_store team (cl_principal claims) MAILBOX_STATE key fingerprint "team_message_recipient" k response
                now (random 1%nat);;
              audit_mail team (cl_principal claims) MAILBOX_STATE "team_message_recipient" k
                [("unread", PBool unread); ("version", PInt (expected + 1))] now (random 2%nat);;
              outbox_event team "team_mailbox_state" (k +:+ ":" +:+ pretty (expected + 1)%Z) "team.mailbox.state.changed" now
                (random 3%nat);;
              mret response
          end
      end
  end.

(** ** Receipts *)

Definition RECEIPT : string := "team.message.receipt".

(** What a receipt makes of a copy that it advances. *)
Definition receive (state : copy_state) (now : Z) (c : copy) : copy :=
  match state with
  | CopyRead => c {{ cp_state := CopyRead; cp_delivered := Some (default now (cp_delivered c)); cp_read := Some now }}
  | _ => c {{ cp_state := CopyDelivered; cp_delivered := Some now }}
  end.
Definition advances (state : copy_state) (c : copy) : bool :=
  match cp_state c with
  | CopyRead => false
  | CopyDelivered => bool_decide (state = CopyRead)
  | CopyAvailable => true
  end.

Definition received (state : copy_state) (now : Z) (l : list (string * copy)) : ptx unit :=
  for_each l (λ kc, if advances state kc.2 then _ ← update_copies (λ k _, String.eqb k kc.1) (receive state now); mret tt
                    else mret tt).

Fixpoint receipt_events (team : string) (state : copy_state) (l : list string) (now : Z) (random : nat → string) : ptx unit :=
  match l with
  | [] => mret tt
  | k :: l =>
      outbox_event team "team_message_recipient" k ("team.message." +:+ state_name state) now (random 0%nat);;
      receipt_events team state l now (λ i, random (i + 1)%nat)
  end.

(** Whether the copy is one the receipt is for. *)
Definition for_receipt (owned : list address) (a : option address) (c : copy) : bool :=
  negb (bool_decide (cp_to c = ToAll)) && bool_decide (cp_to c ∈ owned)
  && match a with Some a => bool_decide (cp_to c = a) | None => true end.

(** [record_team_message_receipt] *)
Definition record_team_message_receipt (cf : config) (claims : access_claims) (team id : string)
    (request : list (string * pyval)) (now clock : Z) (random : nat → string) : ptx pyval :=
  state ← pure (s ← one_of_texts (items_get request "state") ["delivered"; "read"] (invalid "Receipt state is invalid");
                Ok (if String.eqb s "read" then CopyRead else CopyDelivered));
  let named := negb (bool_decide (items_get request "address_kind" = PNone)) in
  guard_not (negb (Bool.eqb named (negb (bool_decide (items_get request "address_id" = PNone)))))
    (invalid "Receipt mailbox requires kind and id");;
  key ← pure (team_idempotency_key request);
  let fingerprint := canonical_fingerprint (PDict ([("team_id", PStr team); ("message_id", PStr id);
    ("state", PStr (state_name state))] ++ if named then [("address", address_value request)] else [])%list) in
  s ← on_accounts (require_network_scope claims team false clock);
  deleted ← ask (λ p, is_deleted p team id);
  guard_not deleted NOT_FOUND;;
  cached ← idempotency_lookup team (cl_principal claims) RECEIPT key fingerprint;
  match cached with
  | Some v => mret v
  | None =>
      owned ← on_accounts (team_owned_addresses cf claims team (mb_role s));
      rows ← ask (λ p, filter (λ kc : string * copy,
                 (if named then match request_address request with
                                | Some a => for_receipt owned (Some a) kc.2
                                | None => false
                                end
                  else for_receipt owned None kc.2) = true) (message_recipients p team id));
      guard_not (bool_decide (rows = [])) (HubError "forbidden" "This message is not addressed to the caller" 403);;
      received state now rows;;
      p ← ask (λ p, p);
      views ← pure (map_res (λ kc, recipient_public p kc.2)
                      (filter (λ kc : string * copy, kc.1 ∈ rows.*1) (message_recipients p team id)));
      let response := PDict [("message_id", PStr id); ("recipients", PList (PDict <$> views))] in
      idempotency_store team (cl_principal claims) RECEIPT key fingerprint "team_message" id response now (random 0%nat);;
      audit_mail team (cl_principal claims) RECEIPT "team_message" id [("state", PStr (state_name state))] now
        (random 1%nat);;
      receipt_events team state (filter (λ kc : string * copy, advances state kc.2 = true) rows).*1 now
        (λ i, random (i + 2)%nat);;
      mret response
  end.
End mail.
