(* ===== verification/TeamChanges.v ===== *)
(** * Team mail: the changes its tables go through

    The abstract specification of the mail: what one statement of a method may
    do to the tables, with what the methods make sure of before it.  Later files
    show that the methods make no other changes, and that these keep what the
    guarantees are about. *)
From S2P Require Import Prelude.
From S2P Require Import PyValues.
From S2P Require Import Transactions.
From S2P Require Import HubTokens.
From S2P Require Import HubTables.
From S2P Require Import HubOrder.
From S2P Require Import HubRuns.
From S2P Require Import TeamText.
From S2P Require Import TeamTables.
From S2P Require Import TeamAccess.

Open Scope string_scope.

(** ** Copies only advance *)

Definition copy_rank (s : copy_state) : Z := match s with CopyAvailable => 0 | CopyDelivered => 1 | CopyRead => 2 end.

(** A copy stays the copy of its recipient; receipts go forward, the time of
    each is fixed, what was dismissed stays dismissed, and the version of the
    mailbox state does not go back. *)
Definition copy_le (c c' : copy) : Prop :=
  (cp_team c', cp_message c', cp_to c') = (cp_team c, cp_message c, cp_to c)
  ∧ (copy_rank (cp_state c) <= copy_rank (cp_state c'))%Z
  ∧ stays (cp_delivered c) (cp_delivered c') ∧ stays (cp_read c) (cp_read c')
  ∧ stays (cp_dismissed c) (cp_dismissed c') ∧ (cp_version c <= cp_version c')%Z.
#[global] Instance copy_le_preorder : PreOrder copy_le.
Proof.
  split.
  - intros c. unfold copy_le. split_and!; done || lia.
  - intros a b c (E1 & R1 & D1 & A1 & M1 & V1) (E2 & R2 & D2 & A2 & M2 & V2).
    split_and!; [congruence|lia|by etrans|by etrans|by etrans|lia].
Qed.

(** A skill stays the skill of its team under its name, and its version does
    not go back. *)
Definition skill_le (s s' : skill) : Prop :=
  (sk_team s', sk_slug s', sk_creator s', sk_created s') = (sk_team s, sk_slug s, sk_creator s, sk_created s)
  ∧ (sk_version s <= sk_version s')%Z.
#[global] Instance skill_le_preorder : PreOrder skill_le.
Proof.
  split; [by intros s; unfold skill_le; split; [done|lia]|]. intros a b c [E1 V1] [E2 V2]. split; [congruence|lia].
Qed.

(** The editor of a revision is the poster: the same person, or the same
    server, whichever of its sessions it came through. *)
Definition same_author (m : message) (r : revision) : Prop :=
  match ms_node m with
  | None => rv_node r = None ∧ rv_editor r = ms_sender m
  | Some n => rv_node r = Some n
  end.

(** ** Versions *)

Lemma foldr_max (l : list Z) : foldr Z.max 1%Z l = 1%Z ∨ foldr Z.max 1%Z l ∈ l.
Proof.
  induction l as [|n l IH]; cbn; [by left|]. destruct (Z.max_spec n (foldr Z.max 1%Z l)) as [[_ ->]|[_ ->]].
  - destruct IH as [->|Hin]; [by left|right; by right].
  - right. left.
Qed.
Lemma foldr_max_ge (l : list Z) n : n ∈ l → (n <= foldr Z.max 1%Z l)%Z.
Proof. induction 1; cbn; lia. Qed.
Lemma foldr_max_one (l : list Z) : (1 <= foldr Z.max 1%Z l)%Z.
Proof. induction l; cbn; lia. Qed.

Lemma elem_of_versions p id v :
  v ∈ (λ kr : string * revision, rv_version kr.2) <$> select_rows (λ _ r, String.eqb (rv_message r) id) (revisions p) ↔
  ∃ k r, revisions p !! k = Some r ∧ rv_message r = id ∧ rv_version r = v.
Proof.
  rewrite list_elem_of_fmap. split.
  - intros ([k r] & -> & [Hid Hin%elem_of_map_to_list]%list_elem_of_filter). cbn in *. apply String.eqb_eq in Hid. by exists k, r.
  - intros (k & r & Hk & <- & <-). exists (k, r). split; [done|]. apply list_elem_of_filter. cbn.
    rewrite String.eqb_refl. split; [done|]. by apply elem_of_map_to_list.
Qed.

(** The version of a message is the largest of its revisions. *)
Lemma message_version_ge p k r : revisions p !! k = Some r → (rv_version r <= message_version p (rv_message r))%Z.
Proof. intros Hk. apply foldr_max_ge, elem_of_versions. by exists k, r. Qed.
Lemma message_version_one p id : (1 <= message_version p id)%Z.
Proof. apply foldr_max_one. Qed.
Lemma message_version_row p id : message_version p id = 1%Z ∨
  ∃ k r, revisions p !! k = Some r ∧ rv_message r = id ∧ rv_version r = message_version p id.
Proof.
  unfold message_version. match goal with |- foldr Z.max _ ?l = _ ∨ _ => destruct (foldr_max l) as [E|E] end; [by left|right].
  by apply elem_of_versions in E.
Qed.

(** ** Changes *)

Section changes.
Context `{HubCrypto}.

(** What belongs to a new message: a copy for a recipient, with the watermark of
    the mailbox, and the change of the bulletin. *)
Inductive addressing (id : string) (m : message) : relation post :=
| ad_copy p k c :
    copies p !! k = None → copy_ok p k c = true → cp_team c = ms_team m → cp_message c = id →
    cp_state c = CopyAvailable → cp_dismissed c = None →
    addressing id m p (let p' := p {{ copies := <[k := c]> (copies p) }} in
                       match cp_to c with ToServer n => arrive (ms_team m) n id p' | _ => p' end)
| ad_bulletin p k c :
    bulletin p !! k = None → bl_sequence c = (last_change p + 1)%Z →
    addressing id m p (p {{ bulletin := <[k := c]> (bulletin p); last_change := (last_change p + 1)%Z }}).

Inductive mail_change : relation post :=
| ch_accounts p h : hub_step (accounts p) h → mail_change p (p {{ accounts := h }})
| ch_message p id m p' :
    messages p !! id = None → ms_sequence m = (last_message p + 1)%Z → message_ok p id m = true →
    rtc (addressing id m)
      (p {{ messages := <[id := m]> (messages p); last_message := (last_message p + 1)%Z }}) p' →
    mail_change p p'
| ch_copies p P f :
    (∀ k c, copies p !! k = Some c → P k c = true → copy_le c (f c)) →
    mail_change p (p {{ copies := updated_rows P f (copies p) }})
| ch_revision p id r m :
    revisions p !! id = None → rv_sequence r = (last_revision p + 1)%Z → revision_ok p id r = true →
    team_message p (rv_team r) (rv_message r) = Some m → rv_version r = (message_version p (rv_message r) + 1)%Z →
    (rv_version r <= MAX_TEAM_MESSAGE_REVISIONS)%Z → same_author m r → ms_kind m = KMessage →
    to_all p (rv_message r) = true → is_deleted p (rv_team r) (rv_message r) = false →
    mail_change p (p {{ revisions := <[id := r]> (revisions p); last_revision := (last_revision p + 1)%Z }})
| ch_deletion p id d :
    deletions p !! id = None → deletion_ok p id d = true →
    mail_change p (p {{ deletions := <[id := d]> (deletions p); last_deletion := (last_deletion p + 1)%Z }})
| ch_bulletin p id c :
    bulletin p !! id = None → bl_sequence c = (last_change p + 1)%Z →
    mail_change p (p {{ bulletin := <[id := c]> (bulletin p); last_change := (last_change p + 1)%Z }})
| ch_skills p s : table_le skill_le (skills p) s → mail_change p (p {{ skills := s }})
| ch_skill_versions p v : table_le eq (skill_versions p) v → mail_change p (p {{ skill_versions := v }})
| ch_attachments p a :
    (∀ id r m, attachments p !! id = Some r → at_message r = Some m → ∃ r', a !! id = Some r' ∧ at_message r' = Some m) →
    mail_change p (p {{ attachments := a }})
| ch_answer p id a :
    answers p !! id = None → answer_ok p id a = true → mail_change p (p {{ answers := <[id := a]> (answers p) }})
| ch_buckets p b : mail_change p (p {{ buckets := b }})
| ch_outbox p o : table_le eq (outbox p) o → mail_change p (p {{ outbox := o }}).

Definition mail_changes : relation post := rtc mail_change.

(** A transaction that commits makes such changes. *)
Definition mails {A} (m : ptx A) : Prop := ∀ p p' a, m p = Ok (p', a) → mail_changes p p'.

Lemma mails_one {A} (m : ptx A) : (∀ p p' a, m p = Ok (p', a) → mail_change p p') → mails m.
Proof. intros Hm p p' a Hr. by eapply rtc_once, Hm. Qed.

Lemma mails_bind {A B} (m : ptx A) (f : A → ptx B) : mails m → (∀ a, mails (f a)) → mails (m ≫= f).
Proof.
  intros Hm Hf p p' b Hr. apply tx_bind_Ok in Hr as (p1 & a & E & Hr). etrans; [by eapply Hm|by eapply Hf].
Qed.

Lemma mails_reads {A} (m : ptx A) : reads m → mails m.
Proof. intros Hm p p' a Hr. rewrite (Hm _ _ _ Hr : p' = p). done. Qed.

Lemma mails_on_error {A} f (m : ptx A) : mails m → mails (on_error f m).
Proof. intros Hm p p' a Hr%on_error_Ok. by eapply Hm. Qed.

Lemma mails_for_each {A} (l : list A) (f : A → ptx unit) : (∀ a, mails (f a)) → mails (for_each l f).
Proof.
  intros Hf. induction l as [|a l IH]; cbn [for_each]; [apply mails_reads, keeps_ret|]. by apply mails_bind.
Qed.

Lemma on_accounts_Ok {A} (m : tx A) p p' a :
  on_accounts m p = Ok (p', a) ↔ ∃ h, m (accounts p) = Ok (h, a) ∧ p' = p {{ accounts := h }}.
Proof. unfold on_accounts. destruct (m (accounts p)) as [[h b]|e]; naive_solver. Qed.

Lemma reads_on_accounts {A} (m : tx A) : reads m → reads (on_accounts m).
Proof.
  intros Hm p p' a (h & Hr & ->)%on_accounts_Ok. rewrite (Hm _ _ _ Hr : h = accounts p). by destruct p.
Qed.

Lemma modify_Ok f p p' u : modify f p = Ok (p', u) ↔ p' = f p.
Proof. unfold modify. destruct u. naive_solver. Qed.
End changes.

Create HintDb mails_db.

(** [mails_tac] decomposes a transaction of the mail; the hints know its
    parts. *)
Ltac mails_tac :=
  lazymatch goal with
  | |- mails (_ ≫= _) => apply mails_bind; [mails_tac | intros ?; mails_tac]
  | |- mails (mret _) => apply mails_reads, keeps_ret
  | |- mails (ask _) => apply mails_reads, keeps_ask
  | |- mails (guard_not _ _) => apply mails_reads, keeps_guard
  | |- mails (fail _) => apply mails_reads, keeps_fail
  | |- mails (pure _) => apply mails_reads, keeps_pure
  | |- mails (on_error _ _) => apply mails_on_error; mails_tac
  | |- mails (for_each _ _) => apply mails_for_each; intros ?; mails_tac
  | |- mails (let '(_, _) := ?x in _) => destruct x; mails_tac
  | |- mails (match ?x with _ => _ end) => destruct x; mails_tac
  | |- _ => try solve [auto with mails_db | apply mails_reads; auto with keeps_db]
  end.
