(* ===== verification/TeamSteps.v ===== *)
(** * Team mail: the methods make allowed changes

    Who the caller is, is read; every statement of a method that writes is one
    of the changes of [TeamChanges]. *)
From S2P Require Import Prelude.
From S2P Require Import PyValues.
From S2P Require Import Json.
From S2P Require Import Transactions.
From S2P Require Import HubTokens.
From S2P Require Import HubTables.
From S2P Require Import HubAuth.
From S2P Require Import HubServers.
From S2P Require Import HubSessions.
From S2P Require Import HubOrder.
From S2P Require Import HubRuns.
From S2P Require Import TeamText.
From S2P Require Import TeamTables.
From S2P Require Import TeamAccess.
From S2P Require Import TeamSend.
From S2P Require Import TeamMail.
From S2P Require Import TeamChanges.

Open Scope string_scope.

Section steps.
Context `{HubCrypto}.

(** ** Reads *)

Lemma reads_require_session claims clock : reads (require_session claims clock).
Proof. unfold require_session. keeps_tac. Qed.
Lemma reads_team_role team p l : reads (require_team_role team p l).
Proof. unfold require_team_role. keeps_tac. Qed.
#[local] Hint Resolve reads_require_session reads_team_role : keeps_db.

Lemma reads_scope claims team write clock : reads (require_network_scope claims team write clock).
Proof. unfold require_network_scope. keeps_tac. Qed.
Lemma reads_bound claims team : reads (bound_network_node claims team).
Proof. unfold bound_network_node. keeps_tac. Qed.
#[local] Hint Resolve reads_bound : keeps_db.
Lemma reads_caller cf claims team : reads (caller_network_node cf claims team).
Proof. unfold caller_network_node. keeps_tac. Qed.
#[local] Hint Resolve reads_caller : keeps_db.
Lemma reads_sender cf claims team : reads (team_sender cf claims team).
Proof. unfold team_sender. keeps_tac. Qed.

Lemma reads_owned cf claims team r : reads (team_owned_addresses cf claims team r).
Proof.
  unfold team_owned_addresses. destruct (is_automation claims); [keeps_tac|].
  destruct (bool_decide _); [|keeps_tac]. intros h h' a Hr.
  destruct (caller_network_node cf claims team h) as [[h1 n]|e] eqn:E.
  - injection Hr as <- <-. by apply (reads_caller _ _ _ _ _ _ E).
  - repeat case_match; simplify_eq; done.
Qed.

Lemma reads_source_author cf claims team p node : reads (source_author_matches cf claims team p node).
Proof. unfold source_author_matches. keeps_tac. Qed.
Lemma reads_author cf claims team m : reads (message_author_matches cf claims team m).
Proof. unfold message_author_matches. keeps_tac. Qed.
Lemma reads_resolve_recipient cf team l r : reads (resolve_recipient cf team l r).
Proof. unfold resolve_recipient. keeps_tac. Qed.
#[local] Hint Resolve reads_resolve_recipient : keeps_db.
Lemma reads_resolve_all cf team l rs : reads (resolve_all cf team l rs).
Proof. induction rs; cbn [resolve_all]; [apply keeps_ret|]. keeps_tac. Qed.
Lemma reads_lookup team p op key f : reads (idempotency_lookup team p op key f).
Proof. unfold idempotency_lookup. keeps_tac. Qed.
#[local] Hint Resolve reads_scope reads_sender reads_owned reads_source_author reads_author reads_resolve_all reads_lookup
  reads_on_accounts : keeps_db.

Lemma reads_reply cf claims team r id : reads (reply_target cf claims team r id).
Proof. unfold reply_target. keeps_tac. Qed.
Lemma reads_attachment_bytes claims team now ids : reads (attachment_bytes claims team now ids).
Proof. induction ids; cbn [attachment_bytes]; keeps_tac. Qed.
Lemma reads_revisable cf claims team id m b n : reads (revisable cf claims team id m b n).
Proof. unfold revisable. keeps_tac. Qed.
Lemma reads_may_delete cf claims team m r : reads (may_delete cf claims team m r).
Proof. unfold may_delete. keeps_tac. Qed.
Lemma reads_page_address claims q owned : reads (page_address claims q owned).
Proof. unfold page_address. keeps_tac. Qed.
#[local] Hint Resolve reads_reply reads_attachment_bytes reads_revisable reads_may_delete reads_page_address : keeps_db.

Lemma reads_list cf claims team q clock : reads (list_team_messages cf claims team q clock).
Proof. unfold list_team_messages. keeps_tac. Qed.
Lemma reads_get cf claims team id a b c clock : reads (get_team_message cf claims team id a b c clock).
Proof. unfold get_team_message. keeps_tac. Qed.
Lemma reads_snapshot cf claims team previous clock : reads (team_mail_arrival_snapshot cf claims team previous clock).
Proof. unfold team_mail_arrival_snapshot. keeps_tac. Qed.
End steps.

#[export] Hint Resolve reads_scope reads_caller reads_sender reads_owned reads_source_author reads_author reads_resolve_all
  reads_lookup reads_on_accounts reads_reply reads_attachment_bytes reads_revisable reads_may_delete reads_page_address
  : keeps_db.

Section writes.
Context `{HubCrypto}.

Lemma same_accounts p : p {{ accounts := accounts p }} = p.
Proof. by destruct p. Qed.

Lemma on_accounts_reads {A} (m : tx A) p p' a : reads m → on_accounts m p = Ok (p', a) →
  p' = p ∧ m (accounts p) = Ok (accounts p, a).
Proof.
  intros Hm (h & Hr & ->)%on_accounts_Ok. pose proof (Hm _ _ _ Hr : h = accounts p) as ->. by rewrite same_accounts.
Qed.


(** ** Statements *)

Lemma insert_message_Ok id m p p' n : insert_message id m p = Ok (p', n) →
  n = (last_message p + 1)%Z ∧ messages p !! id = None ∧ message_ok p id (m {{ ms_sequence := n }}) = true
  ∧ p' = p {{ messages := <[id := m {{ ms_sequence := n }}]> (messages p); last_message := n }}.
Proof.
  intros Hr. unfold insert_message in Hr. inv_tx Hr. subst.
  by apply insert_into_Ok in E as (? & ? & ->).
Qed.

Lemma insert_copies_adds id m l : ∀ random p p' u,
  ms_team m = ms_team m → insert_copies (ms_team m) id l random p = Ok (p', u) → rtc (addressing id m) p p'.
Proof.
  induction l as [|a l IH]; intros random p p' u _ Hr; cbn [insert_copies] in Hr.
  - apply ret_Ok in Hr as [-> _]. done.
  - apply tx_bind_Ok in Hr as (p1 & [] & E & Hr). etrans; [|by eapply IH].
    unfold insert_copy in E. apply tx_bind_Ok in E as (p0 & [] & (Hk & Hok & ->)%insert_into_Ok & E).
    assert (addressing id m p (let c := mkCopy (ms_team m) id a CopyAvailable None None None None 0 in
      let p' := set_copies (<[new_id "trcpt" (random 0%nat) := c]> (copies p)) p in
      match a with ToServer n => arrive (ms_team m) n id p' | _ => p' end)) as Hc
      by (by apply (ad_copy _ _ p (new_id "trcpt" (random 0%nat)) (mkCopy (ms_team m) id a _ _ _ _ _ _))).
    destruct a; cbn zeta iota in Hc.
    + apply modify_Ok in E as ->. by apply rtc_once.
    + apply ret_Ok in E as [-> _]. by apply rtc_once.
    + eapply rtc_l; [exact Hc|]. unfold insert_change in E. inv_tx E. subst.
      apply insert_into_Ok in E0 as (? & ? & ->). apply modify_Ok in E as ->. by apply rtc_once, ad_bulletin.
Qed.

(** A message and its copies are one change. *)
Lemma post_changes id m l random p p1 p2 n u :
  insert_message id m p = Ok (p1, n) → insert_copies (ms_team m) id l random p1 = Ok (p2, u) → mail_change p p2.
Proof.
  intros (-> & Hid & Hok & ->)%insert_message_Ok Hr.
  eapply (ch_message p id (m {{ ms_sequence := (last_message p + 1)%Z }})); [done..|].
  by eapply (insert_copies_adds id (m {{ ms_sequence := (last_message p + 1)%Z }})).
Qed.

Lemma mails_change k team message kind v : mails (insert_change k team message kind v).
Proof.
  apply mails_one. intros p p' u Hr. unfold insert_change in Hr. inv_tx Hr. subst.
  apply insert_into_Ok in E as (? & ? & ->). by apply ch_bulletin.
Qed.

Lemma mails_answer k a : mails (insert_answer k a).
Proof. apply mails_one. intros p p' u (? & ? & ->)%insert_into_Ok. by apply ch_answer. Qed.
Lemma mails_effect k e : mails (insert_effect k e).
Proof.
  apply mails_one. intros p p' u (Hk & _ & ->)%insert_into_Ok.
  apply ch_outbox. by apply table_le_insert; [apply _|].
Qed.

Lemma mails_copies P f :
  (∀ c, (cp_team (f c), cp_message (f c), cp_to (f c)) = (cp_team c, cp_message c, cp_to c)
        ∧ stays (cp_dismissed c) (cp_dismissed (f c)) ∧ (cp_version c <= cp_version (f c))%Z) →
  mails (update_copies P f).
Proof.
  intros Hf. apply mails_one. intros p p' n (-> & Hok & _)%update_rows_Ok. apply ch_copies.
  intros k c Hk HP. specialize (Hok k c Hk HP). destruct (Hf c) as (E & Hd & Hv). unfold copy_update_ok in Hok.
  rewrite !andb_true_iff in Hok. destruct_and! Hok. unfold copy_le.
  split_and!; try done; try (by apply sticky_stays).
  destruct (cp_state c), (cp_state (f c)); cbn in *; done || lia.
Qed.

Lemma mails_bind_attachment team message now id : mails (bind_attachment team message now id).
Proof.
  unfold bind_attachment. apply mails_bind; [|intros; mails_tac]. apply mails_one.
  intros p p' n (-> & _ & _)%update_rows_Ok. apply ch_attachments. intros k r m Hk Hm.
  rewrite updated_rows_lookup, Hk. cbn. eexists. split; [done|]. destruct (_ && _) eqn:E; [|done].
  rewrite Hm in E. cbn in E. by rewrite !andb_false_r in E.
Qed.

Lemma mails_skill k s : mails (insert_skill k s).
Proof.
  apply mails_one. intros p p' u (Hk & _ & ->)%insert_into_Ok.
  apply ch_skills. by apply table_le_insert; [apply _|].
Qed.
Lemma mails_skill_version k v : mails (insert_skill_version k v).
Proof.
  apply mails_one. intros p p' u (Hk & _ & ->)%insert_into_Ok.
  apply ch_skill_versions. by apply table_le_insert; [apply _|].
Qed.
#[local] Hint Resolve mails_change mails_answer mails_effect mails_bind_attachment mails_skill mails_skill_version : mails_db.

(** ** Parts of the methods *)

Lemma mails_store team p op key f type r response now random :
  mails (idempotency_store team p op key f type r response now random).
Proof. apply mails_answer. Qed.
Lemma mails_outbox team type r e now random : mails (outbox_event team type r e now random).
Proof. apply mails_effect. Qed.

Lemma mails_charge_bucket team subject action now window cost limit :
  mails (charge_rate_bucket team subject action now window cost limit).
Proof.
  unfold charge_rate_bucket. mails_tac.
  all: apply mails_one; intros p p' u ->%modify_Ok.
  all: apply ch_buckets.
Qed.
#[local] Hint Resolve mails_charge_bucket : mails_db.
Lemma mails_charge claims team bytes now : mails (charge_network_peer_write claims team bytes now).
Proof. unfold charge_network_peer_write. mails_tac. Qed.

Lemma mails_audit team p action type r metadata now random : mails (audit_mail team p action type r metadata now random).
Proof.
  apply mails_one. intros q q' u (h & Hr & ->)%on_accounts_Ok. apply ch_accounts. destruct u.
  by eapply by_others, other_event.
Qed.
#[local] Hint Resolve mails_store mails_outbox mails_charge mails_audit : mails_db.

Lemma mails_advance team claims title k now random : mails (advance_skill team claims title k now random).
Proof.
  unfold advance_skill. intros p p' a Hr. apply tx_bind_Ok in Hr as (p0 & row & [-> ->]%ask_Ok & Hr).
  destruct (find_row _ _) as [[id s]|] eqn:Ef;
    [|match type of Hr with ?m p = _ => assert (mails m) as Hm by mails_tac end; by eapply Hm].
  apply find_row_Some in Ef as [Hs _]. inv_tx Hr. subst. apply update_rows_Ok in E2 as (-> & _ & _). apply rtc_once.
  apply ch_skills. apply table_le_update; [apply _|]. intros j r Hj [_ ->%String.eqb_eq]%andb_true_iff.
  simplify_eq. split; [done|]. cbn. lia.
Qed.
#[local] Hint Resolve mails_advance : mails_db.

(** ** Sending *)

Lemma mails_store_team_message cf claims team c l sender bytes id now random :
  mails (store_team_message cf claims team c l sender bytes id now random).
Proof.
  unfold store_team_message. apply mails_bind; [mails_tac|]. intros advanced p p' a Hr.
  apply tx_bind_Ok in Hr as (p1 & n & Hm & Hr). apply tx_bind_Ok in Hr as (p2 & u & Hc & Hr).
  eapply rtc_l; [exact (post_changes _ _ _ _ _ _ _ _ _ Hm Hc)|].
  match type of Hr with ?m p2 = _ => assert (mails m) as Hmails by mails_tac end. by eapply Hmails.
Qed.
#[local] Hint Resolve mails_store_team_message : mails_db.

Lemma mails_send cf claims team c r fingerprint now random :
  mails (send_message cf claims team c r fingerprint now random).
Proof. unfold send_message. cbv zeta. mails_tac. Qed.
#[local] Hint Resolve mails_send : mails_db.

Lemma mails_create cf claims team request now clock random :
  mails (create_team_message cf claims team request now clock random).
Proof. unfold create_team_message. cbv zeta. mails_tac. Qed.

(** ** Changes of one's own copies *)

Lemma mails_dismiss cf claims team id request now clock random :
  mails (dismiss_team_message cf claims team id request now clock random).
Proof.
  unfold dismiss_team_message. cbv zeta. mails_tac. all: apply mails_copies; intros []; cbn.
  all: split_and!; [done| |lia]. all: by intros t ->.
Qed.

Lemma mails_mailbox_state cf claims team id request now clock random :
  mails (set_team_message_mailbox_state cf claims team id request now clock random).
Proof.
  unfold set_team_message_mailbox_state. cbv zeta. mails_tac.
  all: apply mails_copies; intros []; cbn; split_and!; done || lia.
Qed.

Lemma mails_received state now l : mails (received state now l).
Proof.
  apply mails_for_each. intros kc. mails_tac. apply mails_copies. intros [].
  destruct state; cbn; split_and!; done || lia.
Qed.
Lemma mails_events team state l now : ∀ random, mails (receipt_events team state l now random).
Proof. induction l; intros random; cbn [receipt_events]; mails_tac. Qed.
#[local] Hint Resolve mails_received mails_events : mails_db.

Lemma mails_receipt cf claims team id request now clock random :
  mails (record_team_message_receipt cf claims team id request now clock random).
Proof. unfold record_team_message_receipt. cbv zeta. mails_tac. Qed.

(** ** Deletion *)

Lemma mails_deletion k d change : mails (insert_deletion k d change).
Proof.
  unfold insert_deletion. intros p p' u Hr. apply tx_bind_Ok in Hr as (p0 & n & [-> ->]%ask_Ok & Hr).
  apply tx_bind_Ok in Hr as (p1 & [] & (Hk & Hok & ->)%insert_into_Ok & Hr).
  apply tx_bind_Ok in Hr as (p2 & v & ->%modify_Ok & Hr). eapply rtc_l; [by apply (ch_deletion p k (d {{ dl_sequence := (last_deletion p + 1)%Z }}))|].
  match type of Hr with ?m _ = _ => assert (mails m) as Hmails by mails_tac end. by eapply Hmails.
Qed.
#[local] Hint Resolve mails_deletion : mails_db.

Lemma mails_delete cf claims team id request now clock random :
  mails (delete_team_message cf claims team id request now clock random).
Proof. unfold delete_team_message. cbv zeta. mails_tac. Qed.

(** ** Revision *)

Lemma charge_Ok claims team bytes now p p' u :
  charge_network_peer_write claims team bytes now p = Ok (p', u) → ∃ b, p' = p {{ buckets := b }}.
Proof.
  assert (∀ subject action window cost limit q q' v,
    charge_rate_bucket team subject action now window cost limit q = Ok (q', v) → ∃ b, q' = q {{ buckets := b }}) as Hone.
  { intros * Hr. unfold charge_rate_bucket in Hr. apply tx_bind_Ok in Hr as (q0 & [] & [_ ->]%guard_not_Ok & Hr).
    apply tx_bind_Ok in Hr as (q1 & row & [-> ->]%ask_Ok & Hr). 
    match type of Hr with (let '(_, _) := ?x in _) _ = _ => destruct x as [a c] end.
    apply tx_bind_Ok in Hr as (q1 & [] & [_ ->]%guard_not_Ok & Hr). cbv zeta in Hr.
    apply tx_bind_Ok in Hr as (q1 & [] & [_ ->]%guard_not_Ok & ->%modify_Ok). by eexists. }
  unfold charge_network_peer_write. destruct (rate_subject claims); intros Hr.
  - apply tx_bind_Ok in Hr as (q & [] & [b ->]%Hone & [b' ->]%Hone). by exists b'.
  - apply ret_Ok in Hr as [-> _]. exists (buckets p). by destruct p.
Qed.

(** The author of a message is the server, or the person, it is from now. *)
Lemma author_sender cf claims team m h h1 h2 sender :
  message_author_matches cf claims team m h = Ok (h1, true) → team_sender cf claims team h = Ok (h2, sender) →
  sender = ms_node m ∧ (ms_node m = None → cl_principal claims = ms_sender m).
Proof.
  unfold message_author_matches, team_sender. destruct (ms_node m) as [node|], (is_automation claims); intros Ha Hs.
  - apply tx_bind_Ok in Ha as (g & n & E & [_ Heq]%ret_Ok). apply tx_bind_Ok in Hs as (g' & n' & E' & [_ ->]%ret_Ok).
    rewrite E in E'. simplify_eq. symmetry in Heq. apply String.eqb_eq in Heq as ->. done.
  - by apply ret_Ok in Ha as [_ ?].
  - apply ret_Ok in Ha as [_ Ha]. done.
  - apply ret_Ok in Ha as [_ Ha]. apply ret_Ok in Hs as [_ ->]. cbn in Ha. symmetry in Ha. apply String.eqb_eq in Ha. done.
Qed.

Lemma current_version p id m : cu_version (current_of p id m) = message_version p id.
Proof.
  unfold current_of. destruct (find_row _ _) as [[]|] eqn:E; [done|].
  destruct (message_version_row p id) as [->|(k & r & Hk & Hid & Hv)]; [done|].
  rewrite find_row_None in E. specialize (E k r Hk). by rewrite Hid, Hv, String.eqb_refl, Z.eqb_refl in E.
Qed.

Lemma revisable_Ok cf claims team id m b expected p p' u :
  revisable cf claims team id m b expected p = Ok (p', u) →
  p' = p ∧ ms_kind m = KMessage ∧ is_bulletin p team id = true
  ∧ (∃ h, message_author_matches cf claims team m (accounts p) = Ok (h, true))
  ∧ expected = message_version p id ∧ (expected < MAX_TEAM_MESSAGE_REVISIONS)%Z.
Proof.
  unfold revisable. intros Hr. inv_tx Hr. apply on_accounts_Ok in E1 as (h' & Ha & ->).
  pose proof (reads_author _ _ _ _ _ _ _ Ha) as Hh. cbn in Hh. subst h'. rewrite negb_false_iff in *. subst.
  apply bool_decide_eq_true in E. apply Z.eqb_eq in E3. apply Z.leb_gt in E4.
  rewrite same_accounts, current_version in *. split_and!; try done; [by eexists|lia].
Qed.

Lemma is_bulletin_to_all p team id : is_bulletin p team id = true → to_all p id = true.
Proof.
  unfold is_bulletin, to_all. rewrite bool_decide_eq_true, exists_row_true. intros Hc.
  destruct (copies_of p team id) as [|[k c] l] eqn:E; [done|]. injection Hc as Hc _. exists k, c.
  assert ((k, c) ∈ copies_of p team id) as Hin by (rewrite E; left).
  apply list_elem_of_filter in Hin as [HP Hin%elem_of_map_to_list]. split; [done|]. cbn in *.
  apply andb_true_iff in HP as [_ ->]. cbn. by apply bool_decide_eq_true.
Qed.

(** Storing a revision the caller may make. *)
Lemma add_revision_changes cf claims team id b key fingerprint now random m h p p' v :
  team_message p team id = Some m → is_deleted p team id = false → ms_kind m = KMessage → to_all p id = true →
  message_author_matches cf claims team m (accounts p) = Ok (h, true) →
  (message_version p id < MAX_TEAM_MESSAGE_REVISIONS)%Z →
  add_revision cf claims team id b (message_version p id) key fingerprint now random p = Ok (p', v) → mail_changes p p'.
Proof.
  intros Hm Hd Hk Hto Ha Hmax Hr. unfold add_revision in Hr. cbv zeta in Hr.
  apply tx_bind_Ok in Hr as (p1 & [] & [bs ->]%charge_Ok & Hr).
  eapply rtc_l; [apply ch_buckets|]. apply tx_bind_Ok in Hr as (p2 & sender & Hs & Hr).
  apply on_accounts_Ok in Hs as (h' & Hs & ->). pose proof (reads_sender _ _ _ _ _ _ Hs) as Hh. cbn in Hh. subst h'.
  change (accounts (p {{ buckets := bs }})) with (accounts p) in *.
  destruct (author_sender _ _ _ _ _ _ _ _ Ha Hs) as [-> Hsender].
  change ((p {{ buckets := bs }}) {{ accounts := accounts p }}) with ((p {{ accounts := accounts p }}) {{ buckets := bs }}) in *.
  apply tx_bind_Ok in Hr as (p3 & [] & Hi & Hr). unfold insert_revision in Hi.
  apply tx_bind_Ok in Hi as (p4 & n & [-> ->]%ask_Ok & Hi).
  apply tx_bind_Ok in Hi as (p5 & [] & (Hfresh & Hok & ->)%insert_into_Ok & Hi).
  apply tx_bind_Ok in Hi as (p6 & [] & ->%modify_Ok & Hi).
  etrans.
  { eapply rtc_l; [|match type of Hi with ?m _ = _ => assert (mails m) as Hmails by mails_tac end; by eapply Hmails].
    eapply ch_revision; [exact Hfresh|done|exact Hok|exact Hm|done|cbn; lia| |done|done|done].
    unfold same_author. cbn. destruct (ms_node m); [done|]. split; [done|]. by apply Hsender. }
  match type of Hr with ?m _ = _ => assert (mails m) as Hmails by mails_tac end. by eapply Hmails.
Qed.

Lemma mails_revise cf claims team id request subject now clock random :
  mails (revise_team_message cf claims team id request subject now clock random).
Proof.
  unfold revise_team_message. cbv zeta. do 3 (apply mails_bind; [mails_tac|intros ?]). apply mails_on_error.
  do 2 (apply mails_bind; [mails_tac|intros ?]). apply mails_bind; [|intros ?; mails_tac].
  case_match; [mails_tac|]. intros p p' v Hr. apply tx_bind_Ok in Hr as (p1 & row & [-> ->]%ask_Ok & Hr).
  destruct (is_deleted p team id) eqn:Hd; [done|]. destruct (team_message p team id) as [m|] eqn:Hm; [|done].
  apply tx_bind_Ok in Hr as (p1 & [] & (-> & Hk & Hb & [h Ha] & -> & Hmax)%revisable_Ok & Hr).
  eapply add_revision_changes; [done..| | | |]; try done. by eapply is_bulletin_to_all.
Qed.
End writes.

#[export] Hint Resolve mails_change mails_store mails_outbox mails_charge mails_audit mails_store_team_message mails_received mails_events
  mails_deletion : mails_db.
#[export] Hint Resolve mails_create mails_dismiss mails_mailbox_state mails_receipt mails_delete mails_revise : mails_db.
