(* ===== verification/TeamState.v ===== *)
(** * Team mail: what the tables keep to

    The invariants of the mail: ordinals, keys and recipients are unique, a copy
    is of a message of its team, the watermark of a mailbox is its last message,
    the revisions of a message are numbered without gaps.  Every change of
    [TeamChanges] keeps them. *)
From S2P Require Import Prelude.
From S2P Require Import PyValues.
From S2P Require Import Transactions.
From S2P Require Import HubTokens.
From S2P Require Import HubTables.
From S2P Require Import HubOrder.
From S2P Require Import HubRuns.
From S2P Require Import HubSessionsWf.
From S2P Require Import TeamText.
From S2P Require Import TeamTables.
From S2P Require Import TeamAccess.
From S2P Require Import TeamChanges.

Open Scope string_scope.

(** ** Unique columns *)

Definition unique_by {R A} (f : R → A) (m : gmap string R) : Prop := ∀ i j x y,
  m !! i = Some x → m !! j = Some y → f x = f y → i = j.

Lemma unique_added {R A} `{EqDecision A} (f : R → A) k r (m : gmap string R) :
  taken f r m = false → unique_by f m → unique_by f (<[k := r]> m).
Proof.
  intros Ht Hu i j x y. rewrite !lookup_insert_Some.
  intros [[<- <-]|[_ Hi]] [[<- <-]|[_ Hj]] E; [done|exfalso..|by eapply Hu].
  - unfold taken in Ht. rewrite exists_row_false in Ht. specialize (Ht _ _ Hj). cbn in Ht.
    by apply bool_decide_eq_false in Ht.
  - unfold taken in Ht. rewrite exists_row_false in Ht. specialize (Ht _ _ Hi). cbn in Ht.
    by apply bool_decide_eq_false in Ht.
Qed.

Lemma unique_changed {R A} (f : R → A) P g (m : gmap string R) :
  (∀ k r, m !! k = Some r → P k r = true → f (g r) = f r) → unique_by f m → unique_by f (updated_rows P g m).
Proof.
  intros Hg Hu i j x y. rewrite !updated_rows_lookup.
  destruct (m !! i) as [a|] eqn:Ei; [|done]. destruct (m !! j) as [b|] eqn:Ej; [|done]. cbn.
  intros <-%(inj Some) <-%(inj Some) E. eapply Hu; [done..|].
  destruct (P i a) eqn:Pi, (P j b) eqn:Pj; rewrite ?(Hg i a), ?(Hg j b) in E; done.
Qed.

Lemma team_message_Some p team id m : team_message p team id = Some m ↔ messages p !! id = Some m ∧ ms_team m = team.
Proof.
  unfold team_message. destruct (messages p !! id) as [x|]; [|naive_solver].
  destruct (String.eqb_spec (ms_team x) team); naive_solver.
Qed.

(** ** The invariant *)

(** The message is in the mailbox of the server. *)
Definition in_mailbox (p : post) (team node id : string) (m : message) : Prop :=
  messages p !! id = Some m ∧ ms_team m = team ∧ ms_kind m = KMessage
  ∧ ∃ k c, copies p !! k = Some c ∧ cp_team c = team ∧ cp_message c = id ∧ cp_to c = ToServer node.

Definition arrivals_ok (p : post) : Prop := ∀ team node,
  (∀ n id, arrivals p !! (team, node) = Some (n, id) → ∃ m, in_mailbox p team node id m ∧ ms_sequence m = n)
  ∧ (∀ id m, in_mailbox p team node id m → ∃ n i, arrivals p !! (team, node) = Some (n, i) ∧ (ms_sequence m <= n)%Z).

Record messages_ok (p : post) : Prop := {
  mo_sequence : ∀ id m, messages p !! id = Some m → (1 <= ms_sequence m <= last_message p)%Z;
  mo_sequence_unique : unique_by ms_sequence (messages p);
  mo_key_unique : unique_by (λ m, (ms_team m, ms_key m)) (messages p);
  mo_counter : (0 <= last_message p)%Z;
}.

Record copies_ok (p : post) : Prop := {
  co_message : ∀ k c, copies p !! k = Some c → ∃ m, team_message p (cp_team c) (cp_message c) = Some m;
  co_unique : unique_by (λ c, (cp_message c, cp_to c)) (copies p);
}.

Record revisions_ok (p : post) : Prop := {
  vo_row : ∀ k r, revisions p !! k = Some r → ∃ m,
    team_message p (rv_team r) (rv_message r) = Some m ∧ ms_kind m = KMessage ∧ same_author m r
    ∧ (2 <= rv_version r <= MAX_TEAM_MESSAGE_REVISIONS)%Z;
  vo_unique : unique_by (λ r, (rv_message r, rv_version r)) (revisions p);
  vo_all : ∀ id v, (2 <= v <= message_version p id)%Z →
    ∃ k r, revisions p !! k = Some r ∧ rv_message r = id ∧ rv_version r = v;
}.

Definition answers_unique (p : post) : Prop :=
  unique_by (λ a, (sa_team a, sa_principal a, sa_operation a, sa_key a)) (answers p).

Record mail_ok (p : post) : Prop := {
  ok_messages : messages_ok p;
  ok_copies : copies_ok p;
  ok_arrivals : arrivals_ok p;
  ok_revisions : revisions_ok p;
  ok_answers : answers_unique p;
}.

Section state.
Context `{HubCrypto}.

(** ** Addressing *)

(** What addressing a message does not touch. *)
Definition frame (p : post) :=
  (accounts p, messages p, last_message p, revisions p, last_revision p, deletions p, last_deletion p,
   skills p, skill_versions p, attachments p, answers p, buckets p, outbox p).

Lemma arrive_frame team node id p :
  frame (arrive team node id p) = frame p ∧ copies (arrive team node id p) = copies p
  ∧ bulletin (arrive team node id p) = bulletin p ∧ last_change (arrive team node id p) = last_change p.
Proof. unfold arrive. by repeat case_match. Qed.

Lemma addressing_frame id m p p' : rtc (addressing id m) p p' → frame p' = frame p.
Proof.
  induction 1 as [|p1 p2 p3 Ha _ IH]; [done|]. rewrite IH. destruct Ha as [p k c|]; [|done].
  destruct (cp_to c); [|done..]. cbn zeta. by rewrite (proj1 (arrive_frame _ _ _ _)).
Qed.

(** An invariant of addressing. *)
Lemma addressing_keeps id m (I : post → Prop) p p' :
  (∀ p p', messages p !! id = Some m → addressing id m p p' → I p → I p') →
  messages p !! id = Some m → rtc (addressing id m) p p' → I p → I p'.
Proof.
  intros Hstep Hid Hs. induction Hs as [|p1 p2 p3 Ha Hr IH]; [done|]. intros HI. apply IH; [|by eapply Hstep].
  assert (frame p2 = frame p1) as E by (by apply (addressing_frame id m), rtc_once). unfold frame in E. congruence.
Qed.

(** ** Messages *)

Ltac rebuild H := destruct H; constructor; assumption.

Lemma messages_frame p p' : frame p' = frame p → messages_ok p → messages_ok p'.
Proof. intros E Hok. unfold frame in E. destruct p, p'; cbn in E. simplify_eq. rebuild Hok. Qed.

Lemma message_new p id m : message_ok p id m = true →
  taken (λ m, (ms_team m, ms_key m)) m (messages p) = false.
Proof. unfold message_ok. rewrite !andb_true_iff, !negb_true_iff. intros Hok. by destruct_and! Hok. Qed.

Lemma messages_insert p id m : messages p !! id = None → ms_sequence m = (last_message p + 1)%Z → message_ok p id m = true →
  messages_ok p → messages_ok (p {{ messages := <[id := m]> (messages p); last_message := (last_message p + 1)%Z }}).
Proof.
  intros Hid Hs Hm [Hseq Huniq Hkey Hn]. split; cbn; [..|lia].
  - intros j x. rewrite lookup_insert_Some. intros [[<- <-]|[_ Hj]]; [lia|]. specialize (Hseq _ _ Hj). lia.
  - apply unique_added; [|done]. unfold taken. rewrite exists_row_false. intros j x Hj.
    apply bool_decide_eq_false. specialize (Hseq _ _ Hj). lia.
  - apply unique_added; [by eapply message_new|done].
Qed.

Lemma change_messages p p' : mail_change p p' → messages_ok p → messages_ok p'.
Proof.
  destruct 1; intros Hok; try rebuild Hok.
  eapply messages_frame; [by eapply addressing_frame|]. by apply messages_insert.
Qed.

(** ** Copies *)

Lemma copy_new p k c : copy_ok p k c = true →
  (∃ m, team_message p (cp_team c) (cp_message c) = Some m) ∧ taken (λ c, (cp_message c, cp_to c)) c (copies p) = false.
Proof.
  unfold copy_ok. rewrite !andb_true_iff, !negb_true_iff. intros [[Hm _] Ht]. split; [|done].
  destruct (team_message _ _ _); [by eexists|done].
Qed.

Lemma team_message_same p p' team id : messages p' = messages p → team_message p' team id = team_message p team id.
Proof. unfold team_message. by intros ->. Qed.

Lemma copies_same p p' : copies p' = copies p → messages p' = messages p → copies_ok p → copies_ok p'.
Proof.
  intros Ec Em [Hm Hu]. split; rewrite ?Ec; [|done]. intros k c Hk. rewrite (team_message_same _ _ _ _ Em). by eapply Hm.
Qed.

Lemma copies_addressing id m p p' : addressing id m p p' → copies_ok p → copies_ok p'.
Proof.
  intros Ha Hok. destruct Ha as [p k c Hk Hnew Et Ei Hs Hd|p k c]; [|by eapply copies_same; [..|exact Hok]].
  apply copy_new in Hnew as [Hex Htaken].
  assert (copies_ok (p {{ copies := <[k := c]> (copies p) }})) as Hins.
  { destruct Hok as [Hm Hu]. split; cbn; [|by apply unique_added]. intros j x.
    rewrite lookup_insert_Some. intros [[<- <-]|[_ Hj]]; [exact Hex|by eapply Hm]. }
  cbn zeta. destruct (cp_to c) as [n|q|]; [|exact Hins..]. eapply copies_same; [..|exact Hins]; [apply arrive_frame|].
  pose proof (proj1 (arrive_frame (ms_team m) n id (p {{ copies := <[k := c]> (copies p) }}))) as E. unfold frame in E.
  congruence.
Qed.

Lemma team_message_insert p p' id m team j x : messages p !! id = None → messages p' = <[id := m]> (messages p) →
  team_message p team j = Some x → team_message p' team j = Some x.
Proof.
  intros Hid E. rewrite !team_message_Some, E. intros [Hj <-]. split; [|done].
  rewrite lookup_insert_ne; [done|]. intros <-. congruence.
Qed.

Lemma change_copies p p' : mail_change p p' → copies_ok p → copies_ok p'.
Proof.
  destruct 1 as [| p id m p' Hid Hseq Hm Ha| | | | | | | | | |]; intros Hok; try rebuild Hok.
  - refine (addressing_keeps id m copies_ok _ p' _ _ Ha _); cbn; [by intros; eapply copies_addressing|by rewrite lookup_insert_eq|].
    destruct Hok as [Hmes Hu]. split; [|done]. cbn. intros k c Hk. destruct (Hmes _ _ Hk) as [x Hx]. exists x.
    by eapply team_message_insert.
  - destruct Hok as [Hm Hu]. split; cbn.
    + intros k c. rewrite updated_rows_lookup. destruct (copies p !! k) as [c0|] eqn:Hk; [|done]. cbn.
      intros <-%(inj Some). destruct (Hm _ _ Hk) as [m Hc0]. exists m.
      destruct (P k c0) eqn:HP; [|done]. match goal with Hf : ∀ _ _, _ |- _ => destruct (Hf _ _ Hk HP) as [E _] end.
      injection E as -> -> _. exact Hc0.
    + apply unique_changed; [|done]. intros k c Hk HP.
      match goal with Hf : ∀ _ _, _ |- _ => destruct (Hf _ _ Hk HP) as [E _] end. by injection E as _ -> ->.
Qed.

(** ** Watermarks *)

Lemma in_mailbox_copy p k c team node id m : copies p !! k = None →
  in_mailbox (p {{ copies := <[k := c]> (copies p) }}) team node id m ↔
  in_mailbox p team node id m
  ∨ (messages p !! id = Some m ∧ ms_team m = team ∧ ms_kind m = KMessage
     ∧ cp_team c = team ∧ cp_message c = id ∧ cp_to c = ToServer node).
Proof.
  intros Hk. unfold in_mailbox. cbn. split.
  - intros (Hid & Ht & Hkind & j & x & Hj & E1 & E2 & E3). rewrite lookup_insert_Some in Hj.
    destruct Hj as [[<- <-]|[_ Hj]]; [by right|left]. split_and!; try done. by exists j, x.
  - intros [(Hid & Ht & Hkind & j & x & Hj & E)|(Hid & Ht & Hkind & E)]; split_and!; try done.
    + exists j, x. rewrite lookup_insert_ne; [done|congruence].
    + exists k, c. by rewrite lookup_insert_eq.
Qed.

Lemma arrive_skill p team node id m :
  team_message p team id = Some m → ms_kind m = KSkill → arrivals (arrive team node id p) = arrivals p.
Proof. unfold arrive. intros -> ->. done. Qed.

Lemma arrive_message p team node id m :
  team_message p team id = Some m → ms_kind m = KMessage → ∃ n i,
  arrivals (arrive team node id p) = <[(team, node) := (n, i)]> (arrivals p)
  ∧ ((n, i) = (ms_sequence m, id) ∨ arrivals p !! (team, node) = Some (n, i)) ∧ (ms_sequence m <= n)%Z
  ∧ ∀ n' i', arrivals p !! (team, node) = Some (n', i') → (n' <= n)%Z.
Proof.
  unfold arrive. intros -> ->. rewrite bool_decide_true by done. cbn [andb].
  destruct (arrivals p !! (team, node)) as [[n i]|] eqn:E.
  - destruct (Z.ltb_spec n (ms_sequence m)).
    + exists (ms_sequence m), id. split_and!; [done|by left|done|]. intros n' i' [= <- <-]. lia.
    + exists n, i. rewrite insert_id by done. split_and!; [done|by right|done|]. by intros n' i' [= <- <-].
  - by exists (ms_sequence m), id; split_and!; [|left|..].
Qed.

Lemma arrivals_same p p' : (∀ team node id m, in_mailbox p' team node id m ↔ in_mailbox p team node id m) →
  arrivals p' = arrivals p → arrivals_ok p → arrivals_ok p'.
Proof.
  intros Hin E Hok team node. rewrite E. destruct (Hok team node) as [H1 H2]. split.
  - intros n id Hn. destruct (H1 _ _ Hn) as (m & Hm & Hs). exists m. by rewrite Hin.
  - intros id m Hm%Hin. by eapply H2.
Qed.

Lemma in_mailbox_same p p' team node id m : messages p' = messages p → copies p' = copies p →
  in_mailbox p' team node id m ↔ in_mailbox p team node id m.
Proof. intros E1 E2. unfold in_mailbox. by rewrite E1, E2. Qed.

Lemma arrivals_addressing id m p p' : messages p !! id = Some m → addressing id m p p' → arrivals_ok p → arrivals_ok p'.
Proof.
  intros Hid Ha Hok. destruct Ha as [p k c Hk _ Et Ei _ _|p k c]; [|exact Hok]. cbn zeta.
  set (q := p {{ copies := <[k := c]> (copies p) }}).
  assert (team_message q (ms_team m) id = Some m) as Hq by by apply team_message_Some.
  destruct (cp_to c) as [n|u|] eqn:Eto.
  2-3: apply (arrivals_same p); [|done|exact Hok]; intros t nd j x; unfold q; rewrite in_mailbox_copy by done; naive_solver congruence.
  assert (∀ t nd j x, in_mailbox (arrive (ms_team m) n id q) t nd j x ↔ in_mailbox p t nd j x
            ∨ (ms_kind m = KMessage ∧ (t, nd, j, x) = (ms_team m, n, id, m))) as Hin.
  { intros t nd j x. destruct (arrive_frame (ms_team m) n id q) as (Ef & Ec & _). unfold frame in Ef.
    rewrite (in_mailbox_same q) by congruence. unfold q. rewrite in_mailbox_copy by done. naive_solver congruence. }
  destruct (ms_kind m) eqn:Ekind.
  2: { apply (arrivals_same p); [|exact (arrive_skill q _ _ _ _ Hq Ekind)|exact Hok]. intros t nd j x. rewrite Hin. naive_solver. }
  destruct (arrive_message q (ms_team m) n id m Hq Ekind) as (a & i & Earr & Hai & Hge & Hmax).
  intros t nd. destruct (Hok t nd) as [H1 H2]. rewrite Earr. change (arrivals q) with (arrivals p) in *. split.
  - intros a' i'. rewrite lookup_insert_Some. intros [[Ek Ev]|[_ Ha']].
    + injection Ek as <- <-. injection Ev as <- <-. destruct Hai as [Hai|Hai].
      * injection Hai as -> ->. exists m. rewrite Hin. naive_solver.
      * destruct (H1 _ _ Hai) as (x & Hx & Hs). exists x. rewrite Hin. naive_solver.
    + destruct (H1 _ _ Ha') as (x & Hx & Hs). exists x. rewrite Hin. naive_solver.
  - intros j x. rewrite Hin. intros Hx. destruct (decide ((ms_team m, n) = (t, nd))) as [E|Hne].
    + injection E as <- <-. exists a, i. rewrite lookup_insert_eq. split; [done|].
      destruct Hx as [Hx|[_ [= <- <-]]]; [|done]. destruct (H2 _ _ Hx) as (n0 & i0 & E0 & Hle). specialize (Hmax _ _ E0). lia.
    + rewrite lookup_insert_ne by done. destruct Hx as [Hx|[_ Hx]]; [by eapply H2|]. congruence.
Qed.

Lemma in_mailbox_message p p' id m team node j x : copies_ok p → messages p !! id = None →
  messages p' = <[id := m]> (messages p) → copies p' = copies p →
  in_mailbox p' team node j x ↔ in_mailbox p team node j x.
Proof.
  intros Hok Hid Em Ec. unfold in_mailbox. rewrite Em, Ec. destruct (decide (j = id)) as [->|Hne].
  - split; [|by rewrite Hid; intros [? _]]. intros (_ & _ & _ & k & c & Hk & _ & E & _). exfalso.
    destruct (co_message _ Hok _ _ Hk) as [y [Hy _]%team_message_Some]. congruence.
  - by rewrite lookup_insert_ne.
Qed.

Lemma in_mailbox_update p P f team node j x : (∀ k c, copies p !! k = Some c → P k c = true → copy_le c (f c)) →
  in_mailbox (p {{ copies := updated_rows P f (copies p) }}) team node j x ↔ in_mailbox p team node j x.
Proof.
  intros Hf. unfold in_mailbox. cbn.
  enough ((∃ k c, updated_rows P f (copies p) !! k = Some c ∧ cp_team c = team ∧ cp_message c = j ∧ cp_to c = ToServer node)
    ↔ ∃ k c, copies p !! k = Some c ∧ cp_team c = team ∧ cp_message c = j ∧ cp_to c = ToServer node) as -> by done.
  assert (∀ k c, copies p !! k = Some c →
    (cp_team (if P k c then f c else c), cp_message (if P k c then f c else c), cp_to (if P k c then f c else c))
    = (cp_team c, cp_message c, cp_to c)) as He.
  { intros k c Hk. destruct (P k c) eqn:HP; [|done]. by destruct (Hf _ _ Hk HP). }
  split.
  - intros (k & c & Hk & E). rewrite updated_rows_lookup in Hk. destruct (copies p !! k) as [c0|] eqn:Hk0; [|done].
    injection Hk as <-. exists k, c0. specialize (He _ _ Hk0). injection He as E1 E2 E3. by rewrite E1, E2, E3 in E.
  - intros (k & c & Hk & E). exists k. eexists. rewrite updated_rows_lookup, Hk. split; [done|].
    specialize (He _ _ Hk). injection He as E1 E2 E3. by rewrite E1, E2, E3.
Qed.

Lemma change_arrivals p p' : mail_change p p' → copies_ok p → arrivals_ok p → arrivals_ok p'.
Proof.
  destruct 1 as [| p id m p' Hid Hseq Hm Ha| p P f Hf | | | | | | | | |]; intros Hc Hok; try exact Hok.
  - refine (addressing_keeps id m arrivals_ok _ p' _ _ Ha _); [by intros; eapply arrivals_addressing|by cbn; rewrite lookup_insert_eq|].
    apply (arrivals_same p); [|done|exact Hok]. intros t n j x. by eapply in_mailbox_message.
  - apply (arrivals_same p); [|done|exact Hok]. intros t n j x. by apply in_mailbox_update.
Qed.

(** ** Revisions *)

Lemma revisions_same p p' : revisions p' = revisions p →
  (∀ team id m, team_message p team id = Some m → team_message p' team id = Some m) →
  revisions_ok p → revisions_ok p'.
Proof.
  intros Er Hm [Hrow Hu Hall]. split; unfold message_version; rewrite ?Er; [|done..].
  intros k r Hk. destruct (Hrow _ _ Hk) as (m & E & Hrest). exists m. split; [by apply Hm|done].
Qed.

Lemma revision_new p k r : revision_ok p k r = true →
  (2 <= rv_version r)%Z ∧ taken (λ r, (rv_message r, rv_version r)) r (revisions p) = false.
Proof.
  unfold revision_ok. rewrite !andb_true_iff, !negb_true_iff. intros Hok. destruct_and! Hok.
  split; [by apply Z.leb_le|done].
Qed.

Lemma revisions_insert p p' k r m : revisions p !! k = None → revision_ok p k r = true →
  team_message p (rv_team r) (rv_message r) = Some m → rv_version r = (message_version p (rv_message r) + 1)%Z →
  (rv_version r <= MAX_TEAM_MESSAGE_REVISIONS)%Z → same_author m r → ms_kind m = KMessage →
  revisions p' = <[k := r]> (revisions p) → messages p' = messages p → revisions_ok p → revisions_ok p'.
Proof.
  intros Hk Hr Hm Hv Hmax Hauth Hkind Er Em [Hrow Hu Hall]. apply revision_new in Hr as [Htwo Ht]. split.
  - intros j x. rewrite Er, lookup_insert_Some. intros [[<- <-]|[_ Hj]].
    + exists m. by rewrite (team_message_same _ _ _ _ Em).
    + rewrite (team_message_same _ _ _ _ Em). by eapply Hrow.
  - rewrite Er. by apply unique_added.
  - intros id v Hvv. assert (∃ k0 r0, revisions p' !! k0 = Some r0 ∧ rv_message r0 = id ∧ (v <= rv_version r0)%Z) as
      (k0 & r0 & Hk0 & Eid & Hle).
    { destruct (message_version_row p' id) as [E|(k0 & r0 & Hk0 & Eid & E)]; [lia|]. exists k0, r0. split_and!; [done..|lia]. }
    rewrite Er, lookup_insert_Some in Hk0.
    assert ((2 <= v <= message_version p id)%Z → ∃ j x, <[k := r]> (revisions p) !! j = Some x ∧ rv_message x = id ∧ rv_version x = v) as Hold.
    { intros Hvo. destruct (Hall id v Hvo) as (j & x & Hj & E). exists j, x. rewrite lookup_insert_ne; [done|congruence]. }
    rewrite Er. destruct Hk0 as [[<- <-]|[_ Hk0]].
    + destruct (decide (v = rv_version r)) as [->|Hne]; [|subst id; apply Hold; lia].
      exists k, r. by rewrite lookup_insert_eq.
    + apply Hold. pose proof (message_version_ge _ _ _ Hk0) as Hge. rewrite Eid in Hge. lia.
Qed.

Lemma change_revisions p p' : mail_change p p' → revisions_ok p → revisions_ok p'.
Proof.
  destruct 1 as [| p id m p' Hid Hseq Hm Ha| | p id r m Hid Hseq Hr Hm Hv Hmax Hauth Hkind Hto Hdel | | | | | | | |];
    intros Hok; try rebuild Hok.
  - apply addressing_frame in Ha. unfold frame in Ha. apply (revisions_same p); [by injection Ha| |done].
    intros team j x. apply (team_message_insert p p' id m); [done|]. by injection Ha.
  - by eapply (revisions_insert p _ id r).
Qed.

(** ** Answers *)

Lemma change_answers p p' : mail_change p p' → answers_unique p → answers_unique p'.
Proof.
  destruct 1 as [| p id m p' Hid Hseq Hm Ha| | | | | | | | p id a Hk Ha | |]; intros Hok; try exact Hok.
  - apply addressing_frame in Ha. unfold frame, answers_unique in *.
    by rewrite (f_equal (λ x, x.1.1.2) Ha : answers p' = answers p).
  - apply unique_added; [|exact Hok]. unfold answer_ok in Ha. rewrite !andb_true_iff, !negb_true_iff in Ha. by destruct_and! Ha.
Qed.

Lemma change_ok p p' : mail_change p p' → mail_ok p → mail_ok p'.
Proof.
  intros Hc [Hm Hco Ha Hr Han]. split.
  - by eapply change_messages.
  - by eapply change_copies.
  - by eapply change_arrivals.
  - by eapply change_revisions.
  - by eapply change_answers.
Qed.

Lemma changes_ok p p' : mail_changes p p' → mail_ok p → mail_ok p'.
Proof. induction 1 as [|p1 p2 p3 Hc _ IH]; [done|]. intros Hok. by eapply IH, change_ok. Qed.
End state.
