(* ===== verification/TeamRuns.v ===== *)
(** * Team mail: the calls, and the states they reach

    The calls of the mail with their arguments, in any order and among what the
    rest of the store does to its tables, and the order in which these move. *)
From S2P Require Import Prelude.
From S2P Require Import PyValues.
From S2P Require Import Transactions.
From S2P Require Import HubTokens.
From S2P Require Import HubTables.
From S2P Require Import HubSessions.
From S2P Require Import HubOrder.
From S2P Require Import HubRuns.
From S2P Require Import HubServers.
From S2P Require Import TeamText.
From S2P Require Import TeamTables.
From S2P Require Import TeamAccess.
From S2P Require Import TeamSend.
From S2P Require Import TeamMail.
From S2P Require Import TeamChanges.
From S2P Require Import TeamSteps.
From S2P Require Import TeamState.

Open Scope string_scope.

(** ** What has happened stays *)

Record post_le (p p' : post) : Prop := {
  le_messages : table_le eq (messages p) (messages p');
  le_new : ∀ id m, messages p' !! id = Some m → messages p !! id = Some m ∨ (last_message p < ms_sequence m)%Z;
  le_counter : (last_message p <= last_message p')%Z;
  le_copies : table_le copy_le (copies p) (copies p');
  le_addressed : ∀ k c, copies p' !! k = Some c → (∃ c0, copies p !! k = Some c0 ∧ copy_le c0 c)
    ∨ ∃ m, messages p' !! cp_message c = Some m ∧ (last_message p < ms_sequence m)%Z;
  le_arrivals : ∀ k n id, arrivals p !! k = Some (n, id) → ∃ n' id', arrivals p' !! k = Some (n', id') ∧ (n <= n')%Z;
  le_revisions : table_le eq (revisions p) (revisions p');
  le_deletions : table_le eq (deletions p) (deletions p');
  le_answers : table_le eq (answers p) (answers p');
}.

#[global] Instance post_le_preorder : PreOrder post_le.
Proof.
  split.
  - intros p. split; try done; [by left|naive_solver|]. intros k n id Hk. exists n, id. done.
  - intros a b c [M1 N1 L1 C1 A1 R1 V1 D1 S1] [M2 N2 L2 C2 A2 R2 V2 D2 S2]. split; try (by etrans).
    + intros id m Hm. destruct (N2 _ _ Hm) as [Hm2|]; [by apply N1|right; lia].
    + intros k x Hk. destruct (A2 _ _ Hk) as [(y & Hy & Hle)|(m & Hm & Hs)]; [|right; exists m; split; [done|lia]].
      destruct (A1 _ _ Hy) as [(z & Hz & Hle')|(m & Hm & Hs)]; [left; exists z; split; [done|by etrans]|].
      right. exists m. destruct Hle as [E _]. injection E as _ -> _. split; [|done].
      by destruct (M2 _ _ Hm) as (? & ? & <-).
    + intros k n id Hk. destruct (R1 _ _ _ Hk) as (n1 & i1 & Hk1 & ?). destruct (R2 _ _ _ Hk1) as (n2 & i2 & ? & ?).
      exists n2, i2. split; [done|lia].
Qed.

Section runs.
Context `{HubCrypto}.

Lemma arrive_grows team node id p k n i : arrivals p !! k = Some (n, i) →
  ∃ n' i', arrivals (arrive team node id p) !! k = Some (n', i') ∧ (n <= n')%Z.
Proof.
  intros Hk. unfold arrive. destruct (team_message p team id) as [m|]; [|by exists n, i].
  destruct (_ && _) eqn:E; [|by exists n, i]. cbn. destruct (decide ((team, node) = k)) as [<-|Hne].
  - rewrite Hk in E. apply andb_true_iff in E as [_ E%Z.ltb_lt]. rewrite lookup_insert_eq. eexists _, _. split; [done|lia].
  - rewrite lookup_insert_ne by done. by exists n, i.
Qed.

(** Addressing adds copies of the message, and nothing else that is ordered. *)
Record addressed (id : string) (p p' : post) : Prop := {
  ad_frame : frame p' = frame p;
  ad_copies : ∀ k c, copies p !! k = Some c → copies p' !! k = Some c;
  ad_added : ∀ k c, copies p' !! k = Some c → copies p !! k = Some c ∨ cp_message c = id;
  ad_arrivals : ∀ k n i, arrivals p !! k = Some (n, i) → ∃ n' i', arrivals p' !! k = Some (n', i') ∧ (n <= n')%Z;
}.

Lemma addressing_addressed id m p p' : addressing id m p p' → addressed id p p'.
Proof.
  intros Ha. assert (frame p' = frame p) as Ef by (by apply (addressing_frame id m), rtc_once).
  destruct Ha as [p k c Hk _ Et Ei _ _|p k c]; [|split; [done|done|by left|by intros ? n i ?; exists n, i]].
  cbn zeta in *. set (q := p {{ copies := <[k := c]> (copies p) }}) in *.
  assert (∀ j x, copies p !! j = Some x → copies q !! j = Some x) as H1.
  { intros j x Hj. cbn. rewrite lookup_insert_ne; [done|congruence]. }
  assert (∀ j x, copies q !! j = Some x → copies p !! j = Some x ∨ cp_message x = id) as H2.
  { intros j x. cbn. rewrite lookup_insert_Some. intros [[_ <-]|[_ ?]]; [by right|by left]. }
  destruct (cp_to c) as [n|u|]; [|split; [done..|]; by intros ? a i ?; exists a, i..].
  destruct (arrive_frame (ms_team m) n id q) as (_ & Ec & _).
  split; [done|by rewrite Ec..|]. intros j a i Hj. by eapply arrive_grows.
Qed.

Lemma all_addressed id m p p' : rtc (addressing id m) p p' → addressed id p p'.
Proof.
  induction 1 as [p|p1 p2 p3 Ha _ [F2 C2 A2 R2]]; [split; [done|done|by left|by intros ? n i ?; exists n, i]|].
  apply addressing_addressed in Ha as [F1 C1 A1 R1]. split; [by rewrite F2|by auto| |].
  - intros k c Hk. destruct (A2 _ _ Hk) as [Hk2|]; [by apply A1|by right].
  - intros k n i Hk. destruct (R1 _ _ _ Hk) as (n1 & i1 & Hk1 & ?). destruct (R2 _ _ _ Hk1) as (n2 & i2 & ? & ?).
    exists n2, i2. split; [done|lia].
Qed.

Lemma post_le_message p p' id m : messages p !! id = None → ms_sequence m = (last_message p + 1)%Z →
  addressed id (p {{ messages := <[id := m]> (messages p); last_message := (last_message p + 1)%Z }}) p' → post_le p p'.
Proof.
  intros Hid Hseq [Ef Hc Ha Hr].
  assert (messages p' = <[id := m]> (messages p) ∧ last_message p' = (last_message p + 1)%Z ∧ revisions p' = revisions p
          ∧ deletions p' = deletions p ∧ answers p' = answers p) as (E1 & E2 & E3 & E4 & E5).
  { unfold frame in Ef. cbn in Ef. destruct p, p'; cbn in *. by simplify_eq. }
  split; rewrite ?E1, ?E2, ?E3, ?E4, ?E5; try done; [..|lia| |].
  - by apply table_le_insert; [apply _|].
  - intros j x. rewrite lookup_insert_Some. intros [[_ <-]|[_ Hj]]; [right; lia|by left].
  - intros k c Hk. exists c. split; [by apply Hc|done].
  - intros k c Hk. destruct (Ha _ _ Hk) as [Hk0|<-]; [left; by exists c|right]. exists m. rewrite lookup_insert_eq. split; [done|lia].
Qed.

Lemma mail_change_le p p' : mail_change p p' → post_le p p'.
Proof.
  assert (∀ p, post_le p p) as Hrefl by done.
  destruct 1 as [p h| p id m p' Hid Hseq Hm Ha| p P f Hf| p id r m Hid|p id d Hid| | | | |p id a Hid| |];
    try (destruct (Hrefl p); split; assumption).
  - by eapply post_le_message, all_addressed.
  - destruct (Hrefl p) as [M N L C A R V D S]. split; try assumption.
    + by apply table_le_update; [apply _|].
    + cbn. intros k c. rewrite updated_rows_lookup. destruct (copies p !! k) as [c0|] eqn:Hk; [|done]. cbn.
      intros <-%(inj Some). left. exists c0. split; [done|]. destruct (P k c0) eqn:HP; [by eapply Hf|done].
  - destruct (Hrefl p). split; try assumption. by apply table_le_insert; [apply _|].
  - destruct (Hrefl p). split; try assumption. by apply table_le_insert; [apply _|].
  - destruct (Hrefl p). split; try assumption. by apply table_le_insert; [apply _|].
Qed.

Lemma changes_post_le p p' : mail_changes p p' → post_le p p'.
Proof. induction 1 as [|p1 p2 p3 Hc _ IH]; [done|]. etrans; [by apply mail_change_le|done]. Qed.

(** ** Calls *)

Inductive mail_call :=
| CreateMessage (claims : access_claims) (team : string) (request : list (string * pyval))
| ReviseMessage (claims : access_claims) (team id : string) (request : list (string * pyval)) (subject : bool)
| DeleteMessage (claims : access_claims) (team id : string) (request : list (string * pyval))
| DismissMessage (claims : access_claims) (team id : string) (request : list (string * pyval))
| SetMailboxState (claims : access_claims) (team id : string) (request : list (string * pyval))
| RecordReceipt (claims : access_claims) (team id : string) (request : list (string * pyval)).

(** What it answers, and what it leaves. *)
Definition answer_of (cf : config) (c : mail_call) (now clock : Z) (random : nat → string) : ptx pyval :=
  match c with
  | CreateMessage claims team q => create_team_message cf claims team q now clock random
  | ReviseMessage claims team id q subject => revise_team_message cf claims team id q subject now clock random
  | DeleteMessage claims team id q => delete_team_message cf claims team id q now clock random
  | DismissMessage claims team id q => dismiss_team_message cf claims team id q now clock random
  | SetMailboxState claims team id q => set_team_message_mailbox_state cf claims team id q now clock random
  | RecordReceipt claims team id q => record_team_message_receipt cf claims team id q now clock random
  end.

Definition perform_mail (cf : config) (c : mail_call) (now clock : Z) (random : nat → string) (p : post) : post :=
  (run (answer_of cf c now clock random) p).1.

Definition MAIL_OPERATIONS : list string := [CREATE; REVISE; DELETE; DISMISS; MAILBOX_STATE; RECEIPT].

(** What the rest of the store does to these tables: attachments are uploaded
    and expire while they are not bound, skills are pinned and archived, other
    writes are answered, rated and announced. *)
Inductive rest_of_store : relation post :=
| rest_attachments p a :
    (∀ id r m, attachments p !! id = Some r → at_message r = Some m → ∃ r', a !! id = Some r' ∧ at_message r' = Some m) →
    rest_of_store p (p {{ attachments := a }})
| rest_skills p s : table_le skill_le (skills p) s → rest_of_store p (p {{ skills := s }})
| rest_answer p id a :
    answers p !! id = None → answer_ok p id a = true → sa_operation a ∉ MAIL_OPERATIONS →
    rest_of_store p (p {{ answers := <[id := a]> (answers p) }})
| rest_buckets p b : rest_of_store p (p {{ buckets := b }})
| rest_outbox p o : table_le eq (outbox p) o → rest_of_store p (p {{ outbox := o }}).

Inductive mail_step : relation post :=
| by_mail cf c now clock random p : mail_step p (perform_mail cf c now clock random p)
| by_accounts p h : hub_step (accounts p) h → mail_step p (p {{ accounts := h }})
| by_rest p p' : rest_of_store p p' → mail_step p p'.

Definition no_post : post := mkPost no_hub ∅ 0 ∅ ∅ ∅ 0 ∅ 0 ∅ ∅ ∅ ∅ 0 ∅ ∅ ∅.

(** Tables that began empty. *)
Definition mail_reachable (p : post) : Prop := rtc mail_step no_post p.

Lemma mails_call cf c now clock random : mails (answer_of cf c now clock random).
Proof. destruct c; cbn [answer_of]; auto with mails_db. Qed.

Lemma perform_mail_changes cf c now clock random p : mail_changes p (perform_mail cf c now clock random p).
Proof.
  unfold perform_mail, run. destruct (answer_of cf c now clock random p) as [[p' a]|e] eqn:E; [|done].
  by eapply mails_call.
Qed.

Lemma step_mail_changes p p' : mail_step p p' → mail_changes p p'.
Proof.
  destruct 1 as [cf c now clock random p|p h Hs|p p' Hr].
  - apply perform_mail_changes.
  - by apply rtc_once, ch_accounts.
  - apply rtc_once. destruct Hr; by constructor.
Qed.

Lemma steps_mail_changes p p' : rtc mail_step p p' → mail_changes p p'.
Proof. induction 1 as [|p1 p2 p3 Hs _ IH]; [done|]. etrans; [by apply step_mail_changes|done]. Qed.

Lemma no_post_ok : mail_ok no_post.
Proof.
  split; [split; try done|split; try done|split; try done|split; try done|done].
  - by intros id m [? _].
  - intros id v Hv. destruct (message_version_row no_post id) as [E|(k & r & Hk & _)]; [lia|done].
Qed.

Lemma reachable_ok p : mail_reachable p → mail_ok p.
Proof. intros Hr. eapply changes_ok; [by apply steps_mail_changes|apply no_post_ok]. Qed.

Lemma steps_post_le p p' : rtc mail_step p p' → post_le p p'.
Proof. intros Hs. by apply changes_post_le, steps_mail_changes. Qed.

Lemma hub_run p h : rtc hub_step (accounts p) h → rtc mail_step p (p {{ accounts := h }}).
Proof.
  remember (accounts p) as g eqn:E. intros Hs. revert p E. induction Hs as [g|g1 g2 g3 Hg _ IH]; intros p ->.
  - by rewrite same_accounts.
  - eapply rtc_l; [by apply by_accounts|]. exact (IH (p {{ accounts := g2 }}) eq_refl).
Qed.

(** The accounts of a mail run are those of a run of the hub. *)
Lemma change_accounts p p' : mail_change p p' → rtc hub_step (accounts p) (accounts p').
Proof.
  destruct 1 as [p h Hs|p id m p' Hid Hseq Hm Ha| | | | | | | | | |]; try done; [by apply rtc_once|].
  apply addressing_frame in Ha. unfold frame in Ha.
  by rewrite (f_equal (λ x, x.1.1.1.1.1.1.1.1.1.1.1.1) Ha : accounts p' = accounts p).
Qed.

Lemma reachable_accounts p : mail_reachable p → reachable (accounts p).
Proof.
  intros Hs%steps_mail_changes. unfold reachable. change no_hub with (accounts no_post).
  induction Hs as [|p1 p2 p3 Hc _ IH]; [done|]. etrans; [by apply change_accounts|done].
Qed.
End runs.
