(* ===== verification/TeamOnce.v ===== *)
(** * Team mail: a key takes effect once

    What is answered to a key of an account stays, and every later call of the
    same operation under that key finds it and changes nothing. *)
From S2P Require Import Prelude.
From S2P Require Import PyValues.
From S2P Require Import Json.
From S2P Require Import Transactions.
From S2P Require Import HubTokens.
From S2P Require Import HubTables.
From S2P Require Import HubAuth.
From S2P Require Import HubServers.
From S2P Require Import HubSessions.
From S2P Require Import HubOrder.
From S2P Require Import TeamText.
From S2P Require Import TeamTables.
From S2P Require Import TeamAccess.
From S2P Require Import TeamSend.
From S2P Require Import TeamMail.
From S2P Require Import TeamChanges.
From S2P Require Import TeamSteps.
From S2P Require Import TeamState.
From S2P Require Import TeamRuns.

Open Scope string_scope.

(** The team, account, operation and key of an answer. *)
Definition ident : Type := string * string * string * string.
Definition ident_of (a : stored_answer) : ident := (sa_team a, sa_principal a, sa_operation a, sa_key a).

Definition has_answer (i : ident) (p : post) : Prop := ∃ k a, answers p !! k = Some a ∧ ident_of a = i.

Section once.
Context `{HubCrypto}.

Lemma has_answer_le i p p' : post_le p p' → has_answer i p → has_answer i p'.
Proof. intros Hle (k & a & Hk & E). destruct (le_answers _ _ Hle _ _ Hk) as (a' & Hk' & <-). by exists k, a. Qed.

Lemma lookup_Ok team q op key f p p' r : idempotency_lookup team q op key f p = Ok (p', r) → p' = p ∧
  match r with
  | Some v => ∃ k a, answers p !! k = Some a ∧ ident_of a = (team, q, op, key_digest key) ∧ json_parse (sa_response a) = Ok v
  | None => ¬ has_answer (team, q, op, key_digest key) p
  end.
Proof.
  intros Hr. split; [by apply (reads_lookup _ _ _ _ _ _ _ _ Hr)|]. unfold idempotency_lookup in Hr.
  apply tx_bind_Ok in Hr as (p0 & [] & [_ ->]%guard_not_Ok & Hr). apply tx_bind_Ok in Hr as (p1 & row & [-> ->]%ask_Ok & Hr).
  destruct (find_row _ _) as [[k a]|] eqn:Ef.
  - apply tx_bind_Ok in Hr as (p1 & [] & [_ ->]%guard_not_Ok & Hr).
    apply tx_bind_Ok in Hr as (p1 & v & [-> Hv]%pure_Ok & [_ ->]%ret_Ok). apply find_row_Some in Ef as [Hk HP].
    rewrite !andb_true_iff, !String.eqb_eq in HP. exists k, a. split_and!; [done| |done]. unfold ident_of. destruct_and! HP. congruence.
  - apply ret_Ok in Hr as [_ ->]. intros (k & a & Hk & E). rewrite find_row_None in Ef. specialize (Ef _ _ Hk).
    unfold ident_of in E. injection E as E1 E2 E3 E4. by rewrite E1, E2, E3, E4, !String.eqb_refl in Ef.
Qed.

(** ** Transactions that answer *)

Section ident.
Context (team q op key : string).
Notation i := (team, q, op, key_digest key).

Definition records {A} (m : ptx A) : Prop := ∀ p p' a, m p = Ok (p', a) → has_answer i p'.
(** Nothing happens when there is an answer. *)
Definition inert {A} (m : ptx A) : Prop := ∀ p p' a, has_answer i p → m p = Ok (p', a) → p' = p.

Lemma records_left {A B} (m : ptx A) (f : A → ptx B) : records m → (∀ a, mails (f a)) → records (m ≫= f).
Proof.
  intros Hm Hf p p' b Hr. apply tx_bind_Ok in Hr as (p1 & a & E & Hr).
  eapply has_answer_le; [|by eapply Hm]. by eapply changes_post_le, Hf.
Qed.
Lemma records_right {A B} (m : ptx A) (f : A → ptx B) : (∀ a, records (f a)) → records (m ≫= f).
Proof. intros Hf p p' b Hr. apply tx_bind_Ok in Hr as (p1 & a & E & Hr). by eapply Hf. Qed.
Lemma records_pure {A B} (r : res A) (f : A → ptx B) : (∀ a, r = Ok a → records (f a)) → records (pure r ≫= f).
Proof. intros Hf p p' b Hr. apply tx_bind_Ok in Hr as (p1 & a & [-> E]%pure_Ok & Hr). by eapply Hf. Qed.
Lemma records_fail {A} e : records (fail e : ptx A).
Proof. done. Qed.
Lemma records_on_error {A} g (m : ptx A) : records m → records (on_error g m).
Proof. intros Hm p p' a Hr%on_error_Ok. by eapply Hm. Qed.

Lemma records_store fingerprint type r response now random :
  records (idempotency_store team q op key fingerprint type r response now random).
Proof.
  intros p p' u (_ & _ & ->)%insert_into_Ok. eexists _, _. cbn. rewrite lookup_insert_eq. split; [done|]. done.
Qed.

Lemma records_cached {A} fingerprint (f : option pyval → ptx A) :
  (∀ v, mails (f (Some v))) → records (f None) → records (idempotency_lookup team q op key fingerprint ≫= f).
Proof.
  intros Hs Hn p p' a Hr. apply tx_bind_Ok in Hr as (p1 & r & [-> Hl]%lookup_Ok & Hr).
  destruct r as [v|]; [|by eapply Hn]. destruct Hl as (k & x & Hk & E & _).
  eapply has_answer_le; [by eapply changes_post_le, Hs|]. by exists k, x.
Qed.

Lemma inert_reads {A} (m : ptx A) : reads m → inert m.
Proof. intros Hm p p' a _ Hr. exact (Hm _ _ _ Hr). Qed.
Lemma inert_bind {A B} (m : ptx A) (f : A → ptx B) : inert m → (∀ a, inert (f a)) → inert (m ≫= f).
Proof.
  intros Hm Hf p p' b Ha Hr. apply tx_bind_Ok in Hr as (p1 & a & E & Hr). apply Hm in E as ->; [|done]. by eapply Hf.
Qed.
Lemma inert_pure {A B} (r : res A) (f : A → ptx B) : (∀ a, r = Ok a → inert (f a)) → inert (pure r ≫= f).
Proof. intros Hf p p' b Ha Hr. apply tx_bind_Ok in Hr as (p1 & a & [-> E]%pure_Ok & Hr). by eapply Hf. Qed.
Lemma inert_on_error {A} g (m : ptx A) : inert m → inert (on_error g m).
Proof. intros Hm p p' a Ha Hr%on_error_Ok. by eapply Hm. Qed.
Lemma inert_cached {A} fingerprint (f : option pyval → ptx A) :
  (∀ v, reads (f (Some v))) → inert (idempotency_lookup team q op key fingerprint ≫= f).
Proof.
  intros Hf p p' a Ha Hr. apply tx_bind_Ok in Hr as (p1 & r & [-> Hl]%lookup_Ok & Hr).
  destruct r as [v|]; [exact (Hf _ _ _ _ Hr)|done].
Qed.
End ident.
End once.

(** The key of the request is the one that is known. *)
Ltac same_key E :=
  try match goal with Hkey : team_idempotency_key _ = Ok _ |- _ => rewrite Hkey in E; injection E as <- end.

(** Follow the transaction to where it answers. *)
Ltac records_tac :=
  lazymatch goal with
  | |- records _ _ _ _ (idempotency_lookup _ _ _ _ _ ≫= _) => apply records_cached; [intros ?; mails_tac | records_tac]
  | |- records _ _ _ _ (idempotency_store _ _ _ _ _ _ _ _ _ _ ≫= _) =>
      apply records_left; [apply records_store | intros ?; mails_tac]
  | |- records _ _ _ _ (pure _ ≫= _) => let E := fresh in apply records_pure; intros ? E; same_key E; records_tac
  | |- records _ _ _ _ (_ ≫= _) => apply records_right; intros ?; records_tac
  | |- records _ _ _ _ (on_error _ _) => apply records_on_error; records_tac
  | |- records _ _ _ _ (fail _) => apply records_fail
  | |- records _ _ _ _ (match ?x with _ => _ end) => destruct x; records_tac
  | |- _ => idtac
  end.

Ltac inert_tac :=
  lazymatch goal with
  | |- inert _ _ _ _ (idempotency_lookup _ _ _ _ _ ≫= _) => apply inert_cached; intros ?; keeps_tac
  | |- inert _ _ _ _ (pure _ ≫= _) => let E := fresh in apply inert_pure; intros ? E; same_key E; inert_tac
  | |- inert _ _ _ _ (_ ≫= _) => apply inert_bind; [inert_tac | intros ?; inert_tac]
  | |- inert _ _ _ _ (on_error _ _) => apply inert_on_error; inert_tac
  | |- inert _ _ _ _ (match ?x with _ => _ end) => destruct x; inert_tac
  | |- _ => apply inert_reads; keeps_tac
  end.

Section calls.
Context `{HubCrypto}.

#[local] Hint Resolve reads_list reads_get : keeps_db.

Lemma send_records cf claims team c r fingerprint now random :
  records team (cl_principal claims) CREATE (cr_key c) (send_message cf claims team c r fingerprint now random).
Proof. unfold send_message. cbv zeta. records_tac. Qed.

(** The key of a request that was parsed. *)
Lemma creation_key q c : parse_creation q = Ok c → team_idempotency_key q = Ok (cr_key c).
Proof.
  unfold parse_creation. intros (kind & _ & Hr)%res_bind_Ok. cbv zeta in Hr.
  apply res_bind_Ok in Hr as (title & _ & Hr). apply res_bind_Ok in Hr as (body & _ & Hr).
  apply res_bind_Ok in Hr as (provenance & _ & Hr). apply res_bind_Ok in Hr as (key & -> & Hr).
  apply res_bind_Ok in Hr as (reply & _ & Hr). apply res_bind_Ok in Hr as (raw & _ & Hr).
  apply res_bind_Ok in Hr as ([requested lifecycles] & _ & Hr). apply res_bind_Ok in Hr as ([] & _ & Hr).
  apply res_bind_Ok in Hr as (files & _ & Hr). apply res_bind_Ok in Hr as (details & _ & [= <-]). done.
Qed.

(** Who calls, and the request. *)
Definition call_who (c : mail_call) : string * string * string :=
  match c with
  | CreateMessage claims team _ => (team, cl_principal claims, CREATE)
  | ReviseMessage claims team _ _ _ => (team, cl_principal claims, REVISE)
  | DeleteMessage claims team _ _ => (team, cl_principal claims, DELETE)
  | DismissMessage claims team _ _ => (team, cl_principal claims, DISMISS)
  | SetMailboxState claims team _ _ => (team, cl_principal claims, MAILBOX_STATE)
  | RecordReceipt claims team _ _ => (team, cl_principal claims, RECEIPT)
  end.
Definition call_request (c : mail_call) : list (string * pyval) :=
  match c with
  | CreateMessage _ _ q | ReviseMessage _ _ _ q _ | DeleteMessage _ _ _ q | DismissMessage _ _ _ q
  | SetMailboxState _ _ _ q | RecordReceipt _ _ _ q => q
  end.

Lemma create_records cf claims team q now clock random key : team_idempotency_key q = Ok key →
  records team (cl_principal claims) CREATE key (create_team_message cf claims team q now clock random).
Proof.
  intros Hkey. unfold create_team_message. apply records_pure. intros c Hc%creation_key. cbv zeta.
  rewrite Hkey in Hc. injection Hc as ->. records_tac. apply send_records.
Qed.

Lemma revise_records cf claims team id q subject now clock random key : team_idempotency_key q = Ok key →
  records team (cl_principal claims) REVISE key (revise_team_message cf claims team id q subject now clock random).
Proof.
  intros Hkey. unfold revise_team_message. cbv zeta.
  do 3 (apply records_pure; let E := fresh in intros ? E; same_key E). apply records_on_error, records_right. intros _.
  apply records_cached; cbv iota; [intros v; mails_tac|]. apply records_left; [|intros v; mails_tac].
  unfold add_revision. cbv zeta. records_tac.
Qed.

Lemma delete_records cf claims team id q now clock random key : team_idempotency_key q = Ok key →
  records team (cl_principal claims) DELETE key (delete_team_message cf claims team id q now clock random).
Proof. intros Hkey. unfold delete_team_message. cbv zeta. records_tac. Qed.

Lemma dismiss_records cf claims team id q now clock random key : team_idempotency_key q = Ok key →
  records team (cl_principal claims) DISMISS key (dismiss_team_message cf claims team id q now clock random).
Proof. intros Hkey. unfold dismiss_team_message. cbv zeta. records_tac. Qed.

Lemma mailbox_state_records cf claims team id q now clock random key : team_idempotency_key q = Ok key →
  records team (cl_principal claims) MAILBOX_STATE key (set_team_message_mailbox_state cf claims team id q now clock random).
Proof. intros Hkey. unfold set_team_message_mailbox_state. cbv zeta. records_tac. Qed.

Lemma receipt_records cf claims team id q now clock random key : team_idempotency_key q = Ok key →
  records team (cl_principal claims) RECEIPT key (record_team_message_receipt cf claims team id q now clock random).
Proof. intros Hkey. unfold record_team_message_receipt. cbv zeta. records_tac. Qed.

Lemma call_records cf c now clock random key t q op :
  call_who c = (t, q, op) → team_idempotency_key (call_request c) = Ok key →
  records t q op key (answer_of cf c now clock random).
Proof.
  destruct c; intros [= <- <- <-] Hkey; cbn [answer_of].
  - by apply create_records.
  - by apply revise_records.
  - by apply delete_records.
  - by apply dismiss_records.
  - by apply mailbox_state_records.
  - by apply receipt_records.
Qed.

Lemma create_inert cf claims team q now clock random key : team_idempotency_key q = Ok key →
  inert team (cl_principal claims) CREATE key (create_team_message cf claims team q now clock random).
Proof.
  intros Hkey. unfold create_team_message. apply inert_pure. intros c Hc%creation_key. cbv zeta.
  rewrite Hkey in Hc. injection Hc as ->. inert_tac.
Qed.

Lemma revise_inert cf claims team id q subject now clock random key : team_idempotency_key q = Ok key →
  inert team (cl_principal claims) REVISE key (revise_team_message cf claims team id q subject now clock random).
Proof.
  intros Hkey. unfold revise_team_message. cbv zeta.
  do 3 (apply inert_pure; let E := fresh in intros ? E; same_key E). apply inert_on_error, inert_bind; [inert_tac|intros _].
  apply inert_cached. intros v. cbv iota. keeps_tac.
Qed.

Lemma call_inert cf c now clock random key t q op :
  call_who c = (t, q, op) → team_idempotency_key (call_request c) = Ok key →
  inert t q op key (answer_of cf c now clock random).
Proof.
  destruct c; intros [= <- <- <-] Hkey; cbn [answer_of call_request] in *.
  - by apply create_inert.
  - by apply revise_inert.
  - unfold delete_team_message. cbv zeta. inert_tac.
  - unfold dismiss_team_message. cbv zeta. inert_tac.
  - unfold set_team_message_mailbox_state. cbv zeta. inert_tac.
  - unfold record_team_message_receipt. cbv zeta. inert_tac.
Qed.

Lemma call_key cf c now clock random p p' v : answer_of cf c now clock random p = Ok (p', v) →
  ∃ key, team_idempotency_key (call_request c) = Ok key.
Proof.
  destruct c; cbn [answer_of call_request]; intros Hr.
  - unfold create_team_message in Hr. apply tx_bind_Ok in Hr as (p1 & c & [_ Hc%creation_key]%pure_Ok & _). by eexists.
  - unfold revise_team_message in Hr. do 2 apply tx_bind_Ok in Hr as (? & ? & _ & Hr).
    apply tx_bind_Ok in Hr as (? & key & [_ E]%pure_Ok & _). by exists key.
  - apply tx_bind_Ok in Hr as (? & key & [_ E]%pure_Ok & _). by exists key.
  - apply tx_bind_Ok in Hr as (? & key & [_ E]%pure_Ok & _). by exists key.
  - apply tx_bind_Ok in Hr as (? & [[??]?] & _ & Hr). apply tx_bind_Ok in Hr as (? & key & [_ E]%pure_Ok & _). by exists key.
  - do 2 apply tx_bind_Ok in Hr as (? & ? & _ & Hr). apply tx_bind_Ok in Hr as (? & key & [_ E]%pure_Ok & _). by exists key.
Qed.

(** C5: A call of the mail takes effect once: after it was answered, any later
    call of the same operation by the same account under the same idempotency
    key, whatever its contents and whatever happened in between, changes
    nothing; so a message that is sent again is not sent twice. *)
Theorem mail_call_once cf cf' c c' now now' clock clock' random random' p p1 p2 p3 v v' :
  answer_of cf c now clock random p = Ok (p1, v) → rtc mail_step p1 p2 →
  call_who c' = call_who c → items_get (call_request c') "idempotency_key" = items_get (call_request c) "idempotency_key" →
  answer_of cf' c' now' clock' random' p2 = Ok (p3, v') → p3 = p2.
Proof.
  intros Hr Hs Hwho Hkey Hr'. destruct (call_key _ _ _ _ _ _ _ _ Hr) as [key Hk]. destruct (call_who c) as [[t q] op] eqn:Ew.
  refine (call_inert cf' c' now' clock' random' key t q op Hwho _ p2 p3 v' _ Hr').
  - unfold team_idempotency_key in *. by rewrite Hkey.
  - eapply has_answer_le; [by apply steps_post_le|]. by eapply (call_records cf c).
Qed.
End calls.
