(* ===== verification/TeamPages.v ===== *)
(** * Team mail: pages

    A page is a prefix of the mailbox after its cursor, in order; following the
    cursors shows everything once; and what a page claims to cover was shown. *)
From S2P Require Import Prelude.
From S2P Require Import PyValues.
From S2P Require Import Json.
From S2P Require Import Transactions.
From S2P Require Import HubTokens.
From S2P Require Import HubTables.
From S2P Require Import HubSessions.
From S2P Require Import HubServers.
From S2P Require Import HubOrder.
From S2P Require Import HubRuns.
From S2P Require Import TeamText.
From S2P Require Import TeamTables.
From S2P Require Import TeamAccess.
From S2P Require Import TeamSend.
From S2P Require Import TeamMail.
From S2P Require Import TeamChanges.
From S2P Require Import TeamSteps.
From S2P Require Import TeamState.
From S2P Require Import TeamRuns.

Open Scope string_scope.

(** ** The rows *)

#[global] Instance by_ordinal_total : Total by_ordinal.
Proof. intros x y. unfold by_ordinal. lia. Qed.
#[global] Instance by_ordinal_trans : Transitive by_ordinal.
Proof. intros x y z. unfold by_ordinal. lia. Qed.

Lemma page_rows_sorted p team q a : StronglySorted by_ordinal (page_rows p team q a).
Proof. apply StronglySorted_merge_sort; apply _. Qed.

Lemma elem_of_page_rows p team q a id m :
  (id, m) ∈ page_rows p team q a ↔ messages p !! id = Some m ∧ on_page p team q a id m = true.
Proof.
  unfold page_rows. rewrite merge_sort_Permutation. unfold select_rows. rewrite list_elem_of_filter, elem_of_map_to_list.
  naive_solver.
Qed.

Lemma page_rows_nodup p team q a : NoDup (page_rows p team q a).
Proof. unfold page_rows. rewrite merge_sort_Permutation. apply NoDup_filter, NoDup_map_to_list. Qed.

Lemma map_res_fst {A B} (f : A → res (A * B)) l l' :
  (∀ a ab, f a = Ok ab → ab.1 = a) → map_res f l = Ok l' → l'.*1 = l.
Proof.
  intros Hf. revert l'. induction l as [|a l IH]; intros l'; cbn [map_res]; [by intros [= <-]|].
  intros (b & Hb & (bs & Hbs & [= <-])%res_bind_Ok)%res_bind_Ok. cbn. by rewrite (Hf _ _ Hb), (IH _ Hbs).
Qed.

(** ** What a page is *)

Lemma with_coverage_Ok team a latest l more g : with_coverage team a latest l more = Ok g →
  pg_rows g = l ∧ pg_more g = more ∧
  match latest with Some x => ∃ c, coverage team a x l more = Ok c ∧ pg_coverage g = Some c | None => pg_coverage g = None end.
Proof.
  unfold with_coverage. destruct latest as [x|]; [|by intros [= <-]].
  intros (c & Hc & [= <-])%res_bind_Ok. split_and!; [done..|]. by exists c.
Qed.

Lemma with_coverage_same team a latest l more g : with_coverage team a latest l more = Ok g →
  with_coverage team a latest (pg_rows g) (pg_more g) = Ok g.
Proof. intros Hg. destruct (with_coverage_Ok _ _ _ _ _ _ Hg) as (-> & -> & _). exact Hg. Qed.

Lemma removelast_last_app {A} (l : list A) : (1 < length l)%nat → ∃ x, l = (removelast l ++ [x])%list ∧ removelast l ≠ [].
Proof.
  intros Hl. destruct (exists_last (l := l)) as (l' & x & ->); [by intros ->; cbn in Hl; lia|].
  exists x. rewrite removelast_last. split; [done|]. intros ->. cbn in Hl. lia.
Qed.

Lemma shrink_Ok tries team q a latest : ∀ g g',
  with_coverage team a latest (pg_rows g) (pg_more g) = Ok g → shrink tries team q a latest g = Ok g' →
  ∃ tail, pg_rows g = (pg_rows g' ++ tail)%list ∧ (pg_rows g ≠ [] → pg_rows g' ≠ [])
    ∧ (tail = [] ∧ pg_more g' = pg_more g ∨ tail ≠ [] ∧ pg_more g' = true)
    ∧ with_coverage team a latest (pg_rows g') (pg_more g') = Ok g'.
Proof.
  induction tries as [|tries IH]; intros g g' Hg; cbn [shrink]; [|destruct (_ && _) eqn:E].
  2: { apply andb_true_iff in E as [Hlen%Nat.ltb_lt _]. intros (g1 & Hg1 & Hr)%res_bind_Ok.
       destruct (removelast_last_app _ Hlen) as (x & Hx & Hne).
       pose proof (with_coverage_same _ _ _ _ _ _ Hg1) as Hsame.
       destruct (with_coverage_Ok _ _ _ _ _ _ Hg1) as (E1 & E2 & _).
       destruct (IH _ _ Hsame Hr) as (tail & Htail & Hne' & Hcase & Hcov).
       rewrite E1 in *. exists (tail ++ [x])%list. split_and!.
       - rewrite Hx at 1. by rewrite Htail, app_assoc.
       - auto.
       - right. split; [by destruct tail|]. destruct Hcase as [[_ ->]|[_ ->]]; [by rewrite E2|done].
       - done. }
  all: intros [= <-]; exists []; rewrite app_nil_r; naive_solver.
Qed.

Section pages.
Context `{HubCrypto}.

Lemma page_of_Ok p team q owned a g : (1 <= lq_limit q)%Z → page_of p team q owned a = Ok g →
  ∃ rest latest, page_rows p team q a = ((pg_rows g).*1 ++ rest)%list
    ∧ (pg_more g = false ↔ rest = []) ∧ (rest ≠ [] → pg_rows g ≠ [])
    ∧ coverage_latest p team q a = Ok latest ∧ with_coverage team a latest (pg_rows g) (pg_more g) = Ok g.
Proof.
  intros Hlimit Hr. unfold page_of in Hr. cbv zeta in Hr. apply res_bind_Ok in Hr as (l & Hl & Hr).
  apply res_bind_Ok in Hr as (latest & Hlatest & Hr). apply res_bind_Ok in Hr as (g0 & Hg0 & Hr).
  apply res_bind_Ok in Hr as (g1 & Hg1 & Hr). apply res_bind_Ok in Hr as ([] & _ & [= <-]).
  apply map_res_fst in Hl; [|by intros ? ? (? & _ & [= <-])%res_bind_Ok].
  destruct (with_coverage_Ok _ _ _ _ _ _ Hg0) as (E1 & E2 & _).
  destruct (shrink_Ok _ _ _ _ _ _ _ (with_coverage_same _ _ _ _ _ _ Hg0) Hg1) as (tail & Htail & Hne & Hcase & Hcov).
  rewrite E1 in Htail, Hne. rewrite E2 in Hcase. set (rows := page_rows p team q a) in *. set (n := Z.to_nat (lq_limit q)) in *.
  exists (tail.*1 ++ drop n rows)%list, latest. split_and!; [|split| |done|done].
  - rewrite app_assoc, <- (take_drop n rows) at 1. f_equal. by rewrite <- Hl, Htail, fmap_app.
  - intros Hm. destruct Hcase as [[-> Hmore]|[_ Hmore]]; [|congruence]. rewrite Hm in Hmore. symmetry in Hmore.
    apply Nat.ltb_ge in Hmore. cbn. by apply skipn_all2.
  - intros [Ht Hd]%app_eq_nil. apply fmap_nil_inv in Ht as ->. destruct Hcase as [[_ ->]|[]]; [|done].
    apply Nat.ltb_ge. apply (f_equal length) in Hd. rewrite length_drop in Hd. cbn in Hd. lia.
  - intros Hrest. apply Hne. intros ->. cbn in Hl. destruct rows as [|x l0] eqn:Er.
    + apply Hrest. apply (f_equal length) in Htail. rewrite length_app in Htail. cbn in Htail. destruct tail; [|cbn in Htail; lia].
      cbn. by rewrite drop_nil.
    + destruct n eqn:En; [lia|done].
Qed.

(** The rows that are not shown come after those that are. *)
Lemma sorted_app {A} (R : A → A → Prop) (l k : list A) x y : StronglySorted R (l ++ k) → x ∈ l → y ∈ k → R x y.
Proof.
  intros Hs Hx Hy. induction l as [|z l IH]; [by apply elem_of_nil in Hx|]. cbn in Hs. apply StronglySorted_inv in Hs as [Hs Hf].
  apply elem_of_cons in Hx as [->|Hx]; [|by apply IH]. rewrite List.Forall_forall in Hf. apply Hf, list_elem_of_In.
  apply elem_of_app. by right.
Qed.

Lemma last_elem {A} (l : list A) x : last l = Some x → x ∈ l.
Proof. intros Hl. apply last_Some in Hl as [l' ->]. apply elem_of_app. right. left. Qed.

(** ** Following the cursors *)

(** Page after page, each from where the last ended: what is shown, [None] when
    the fuel does not last to the end. *)
Fixpoint follow (fuel : nat) (p : post) (team : string) (q : list_query) (owned : list address) (a : address)
    : option (res (list shown_row)) :=
  match fuel with
  | O => None
  | S fuel =>
      match page_of p team q owned a with
      | Err e => Some (Err e)
      | Ok g =>
          if pg_more g then
            match follow fuel p team (q {{ lq_after := last_sequence (lq_after q) (pg_rows g) }}) owned a with
            | Some (Ok l) => Some (Ok (pg_rows g ++ l)%list)
            | r => r
            end
          else Some (Ok (pg_rows g))
      end
  end.

Lemma sequence_inj p id id' m m' : mail_ok p → messages p !! id = Some m → messages p !! id' = Some m' →
  ms_sequence m = ms_sequence m' → id = id' ∧ m = m'.
Proof.
  intros Hok Hm Hm' E. pose proof (mo_sequence_unique _ (ok_messages _ Hok) _ _ _ _ Hm Hm' E) as ->. naive_solver.
Qed.

(** The next page is what the last one left. *)
Lemma on_page_after p team q a n id m : (lq_after q <= n)%Z →
  on_page p team (q {{ lq_after := n }}) a id m = on_page p team q a id m && (n <? ms_sequence m)%Z.
Proof.
  intros Hn. unfold on_page. destruct q; cbn in *. rewrite <- !andb_assoc. destruct (String.eqb (ms_team m) team); [|done]. cbn.
  destruct (Z.ltb_spec n (ms_sequence m)); cbn.
  - rewrite !andb_true_r. by replace (lq_after <? ms_sequence m)%Z with true by lia.
  - by rewrite !andb_false_r.
Qed.

Lemma page_rows_split p team q a l rest x y : mail_ok p → page_rows p team q a = (l ++ rest)%list → last l = Some x →
  y ∈ page_rows p team q a → (ms_sequence x.2 < ms_sequence y.2)%Z ↔ y ∈ rest.
Proof.
  intros Hok Hrows Hlast Hy. pose proof (page_rows_sorted p team q a) as Hs. pose proof (page_rows_nodup p team q a) as Hnd.
  assert (∀ z, z ∈ (l ++ rest)%list → messages p !! z.1 = Some z.2) as Hin.
  { intros [id m]. rewrite <- Hrows. by intros [? _]%elem_of_page_rows. }
  rewrite Hrows in Hs, Hnd, Hy. pose proof (last_elem _ _ Hlast) as Hx. split.
  - intros Hlt. apply elem_of_app in Hy as [Hy|Hy]; [exfalso|done]. apply last_Some in Hlast as [l' ->].
    apply elem_of_app in Hy as [Hy| ->%list_elem_of_singleton]; [|lia].
    rewrite <- app_assoc in Hs. enough (ms_sequence y.2 <= ms_sequence x.2)%Z by lia.
    eapply (sorted_app by_ordinal); [exact Hs|exact Hy|]. left.
  - intros Hr. assert (by_ordinal x y) as Hle by by eapply sorted_app. unfold by_ordinal in Hle.
    enough (ms_sequence x.2 ≠ ms_sequence y.2) by lia. intros E.
    apply NoDup_app in Hnd as (_ & Hd & _). apply (Hd x Hx).
    destruct (sequence_inj p x.1 y.1 x.2 y.2 Hok) as [E1 E2]; [apply Hin; apply elem_of_app; auto..|done|].
    destruct x, y; cbn in *. by subst.
Qed.

Lemma page_rows_after p team q a l rest x : mail_ok p → page_rows p team q a = (l ++ rest)%list → last l = Some x →
  page_rows p team (q {{ lq_after := ms_sequence x.2 }}) a = rest.
Proof.
  intros Hok Hrows Hlast. pose proof (page_rows_sorted p team q a) as Hs. pose proof (page_rows_nodup p team q a) as Hnd.
  assert (∀ z, z ∈ page_rows p team q a ↔ messages p !! z.1 = Some z.2 ∧ on_page p team q a z.1 z.2 = true) as Hin
    by (intros []; apply elem_of_page_rows).
  assert (lq_after q < ms_sequence x.2)%Z as Hafter.
  { assert (x ∈ page_rows p team q a) as [_ Hp]%Hin by (rewrite Hrows; apply elem_of_app; left; by apply last_elem).
    unfold on_page in Hp. rewrite !andb_true_iff in Hp. destruct_and! Hp. by apply Z.ltb_lt. }
  assert (NoDup rest ∧ StronglySorted by_ordinal rest) as [Hndr Hsr].
  { rewrite Hrows in Hs, Hnd. split; [by apply NoDup_app in Hnd as (_ & _ & ?)|]. clear -Hs.
    induction l as [|z l IH]; [done|]. apply IH. by apply StronglySorted_inv in Hs as [? _]. }
  assert (page_rows p team (q {{ lq_after := ms_sequence x.2 }}) a ≡ₚ rest) as Hperm.
  { apply NoDup_Permutation; [apply page_rows_nodup|done|]. intros y.
    assert (y ∈ page_rows p team (q {{ lq_after := ms_sequence x.2 }}) a ↔
            y ∈ page_rows p team q a ∧ (ms_sequence x.2 < ms_sequence y.2)%Z) as ->.
    { destruct y as [id m]. rewrite !elem_of_page_rows, on_page_after by lia. rewrite andb_true_iff, Z.ltb_lt. cbn. tauto. }
    split; [|intros Hy; split; [rewrite Hrows; apply elem_of_app; by right|]].
    - intros [Hy Hlt]. by apply (page_rows_split p team q a l rest x y).
    - apply (page_rows_split p team q a l rest x y); [done..| |done]. rewrite Hrows. apply elem_of_app. by right. }
  apply (StronglySorted_unique_strong by_ordinal); [|apply page_rows_sorted|done|done].
  intros y z Hy Hz Hyz Hzy. rewrite Hperm in Hy.
  assert (∀ w, w ∈ rest → messages p !! w.1 = Some w.2) as Hmes.
  { intros w Hw. apply Hin. rewrite Hrows. apply elem_of_app. by right. }
  destruct (sequence_inj p y.1 z.1 y.2 z.2 Hok (Hmes _ Hy) (Hmes _ Hz)) as [E1 E2]; [unfold by_ordinal in *; lia|].
  destruct y, z; cbn in *. by subst.
Qed.

Lemma last_sequence_fst n (l : list shown_row) x : last l.*1 = Some x → last_sequence n l = ms_sequence x.2.
Proof. unfold last_sequence, shown_row in *. rewrite fmap_last. intros Hl. by destruct (last l); simplify_eq/=. Qed.

Lemma follow_S fuel p team q owned a : follow (S fuel) p team q owned a =
  match page_of p team q owned a with
  | Err e => Some (Err e)
  | Ok g =>
      if pg_more g then
        match follow fuel p team (q {{ lq_after := last_sequence (lq_after q) (pg_rows g) }}) owned a with
        | Some (Ok l) => Some (Ok (pg_rows g ++ l)%list)
        | r => r
        end
      else Some (Ok (pg_rows g))
  end.
Proof. done. Qed.


(** ** Coverage *)

(** The message is in the mailbox of the server, not deleted and not dismissed. *)
Definition live_mail (p : post) (team node id : string) (m : message) : Prop :=
  messages p !! id = Some m ∧ ms_team m = team ∧ ms_kind m = KMessage ∧ is_deleted p team id = false
  ∧ ∃ k c, copies p !! k = Some c ∧ cp_team c = team ∧ cp_message c = id ∧ cp_to c = ToServer node
           ∧ cp_dismissed c = None.

Lemma is_deleted_le p p' team id : post_le p p' → is_deleted p' team id = false → is_deleted p team id = false.
Proof.
  intros Hle. unfold is_deleted. rewrite !exists_row_false. intros Hd k d Hk.
  destruct (le_deletions _ _ Hle _ _ Hk) as (d' & Hk' & <-). by eapply Hd.
Qed.

(** What is in a mailbox later, was there, or is newer than everything then. *)
Lemma live_before p p' team node id m : mail_ok p' → post_le p p' → live_mail p' team node id m →
  live_mail p team node id m ∨ (last_message p < ms_sequence m)%Z.
Proof.
  intros Hok Hle (Hm & Ht & Hk & Hd & k & c & Hc & Ect & Ecm & Eto & Edis).
  destruct (le_new _ _ Hle _ _ Hm) as [Hm0|]; [|by right].
  destruct (le_addressed _ _ Hle _ _ Hc) as [(c0 & Hc0 & Hcle)|(x & Hx & Hlt)].
  - left. split_and!; [done..|by eapply is_deleted_le|]. exists k, c0. destruct Hcle as (E & _ & _ & _ & Hdis & _).
    injection E as E1 E2 E3. rewrite E1 in Ect. rewrite E2 in Ecm. rewrite E3 in Eto. split_and!; [done..|].
    destruct (cp_dismissed c0) as [t|] eqn:E; [|done]. by rewrite (Hdis t eq_refl) in Edis.
  - right. rewrite Ecm, Hm in Hx. by injection Hx as <-.
Qed.

Lemma live_on_page p team q node id m : live_mail p team node id m → lq_box q = "inbox" → lq_unread q = false →
  lq_from q = None → lq_since q = None → (lq_after q < ms_sequence m)%Z → (id, m) ∈ page_rows p team q (ToServer node).
Proof.
  intros (Hm & Ht & Hk & Hd & k & c & Hc & Ect & Ecm & Eto & Edis) Hbox Hunread Hfrom Hsince Hafter.
  apply elem_of_page_rows. split; [done|]. unfold on_page. rewrite Ht, String.eqb_refl, Hd, Hbox, Hfrom, Hsince.
  cbn. rewrite andb_true_r, andb_true_r, andb_true_r. apply andb_true_iff. split; [by apply Z.ltb_lt|].
  unfold in_inbox. rewrite exists_row_true. exists k, c. split; [done|].
  rewrite Ecm, String.eqb_refl, Eto, Edis, Hunread. cbn. by rewrite bool_decide_true.
Qed.

Lemma new_arrival_Ok team server n id a : new_arrival team server n id = Ok a → a = mkArrival team server n id.
Proof. unfold new_arrival. intros Hr. repeat (apply res_bind_Ok in Hr as (? & _ & Hr)). by injection Hr. Qed.

(** The watermark is not above the last message. *)
Lemma latest_bound p team server a : mail_ok p → latest_arrival p team server = Ok a → (ar_through a <= last_message p)%Z.
Proof.
  intros Hok. unfold latest_arrival. destruct (ok_arrivals _ Hok team server) as [Harr _].
  destruct (arrivals p !! (team, server)) as [[n id]|].
  - destruct (Harr n id eq_refl) as (m & (Hm & _) & <-). pose proof (mo_sequence _ (ok_messages _ Hok) _ _ Hm).
    destruct (new_arrival _ _ _ _) as [x|e] eqn:E; [|done]. intros [= <-]. apply new_arrival_Ok in E as ->. cbn. lia.
  - destruct (new_arrival _ _ _ _) as [x|e] eqn:E; [|done]. intros [= <-]. apply new_arrival_Ok in E as ->. cbn.
    apply (mo_counter _ (ok_messages _ Hok)).
Qed.

Lemma list_Ok cf claims team q clock p p' a g : list_team_messages cf claims team q clock p = Ok (p', (a, g)) →
  (1 <= lq_limit q)%Z ∧ ∃ r owned, require_network_scope claims team false clock (accounts p) = Ok (accounts p, r)
    ∧ team_owned_addresses cf claims team (mb_role r) (accounts p) = Ok (accounts p, owned)
    ∧ page_address claims q owned p = Ok (p, a) ∧ page_of p team q owned a = Ok g.
Proof.
  intros Hr. unfold list_team_messages in Hr.
  apply tx_bind_Ok in Hr as (p1 & [] & [_ ->]%guard_not_Ok & Hr). apply tx_bind_Ok in Hr as (p1 & [] & [Hl ->]%guard_not_Ok & Hr).
  apply tx_bind_Ok in Hr as (p1 & [] & [_ ->]%guard_not_Ok & Hr). apply tx_bind_Ok in Hr as (p1 & r & Hs & Hr).
  apply on_accounts_reads in Hs as [-> Hs]; [|apply reads_scope]. apply tx_bind_Ok in Hr as (p1 & owned & Ho & Hr).
  apply on_accounts_reads in Ho as [-> Ho]; [|apply reads_owned].
  apply tx_bind_Ok in Hr as (p1 & a' & Ha & Hr). pose proof (reads_page_address _ _ _ _ _ _ Ha) as Hp. cbn in Hp. subst p1.
  apply tx_bind_Ok in Hr as (p1 & p2 & [-> ->]%ask_Ok & Hr). apply tx_bind_Ok in Hr as (p1 & g' & [-> Hg]%pure_Ok & Hr).
  apply ret_Ok in Hr as [_ [= -> ->]]. split; [|by exists r, owned].
  apply negb_false_iff in Hl. unfold between in Hl. apply andb_true_iff in Hl as [Hl _]. by apply Z.leb_le.
Qed.

Lemma coverage_latest_Ok p team q server latest : coverage_latest p team q (ToServer server) = Ok (Some latest) →
  lq_box q = "inbox" ∧ lq_unread q = false ∧ lq_from q = None ∧ lq_since q = None ∧ latest_arrival p team server = Ok latest.
Proof.
  unfold coverage_latest. destruct (_ && _) eqn:E; [|done]. rewrite !andb_true_iff, negb_true_iff, String.eqb_eq in E. destruct_and! E.
  destruct (new_arrival _ _ _ _) as [anchor|]; [|done]. destruct (anchor_matches p anchor); [|done].
  intros (x & Hx & [= <-])%res_bind_Ok. by destruct (lq_from q), (lq_since q).
Qed.

Lemma coverage_through team a latest l more c : coverage team a latest l more = Ok c →
  ar_through c = ar_through latest ∨ more = true ∧ ∃ x, last l.*1 = Some x ∧ ar_through c = ms_sequence x.2.
Proof.
  unfold coverage, shown_row in *. rewrite fmap_last. destruct (last l) as [x|]; [|intros [= ->]; by left].
  destruct more; [|intros [= ->]; by left]. intros ->%new_arrival_Ok. right. split; [done|]. by exists x.1.
Qed.

Lemma coverage_more team a latest l c x : coverage team a latest l true = Ok c → last l.*1 = Some x →
  ar_through c = ms_sequence x.2.
Proof.
  unfold coverage, shown_row in *. rewrite fmap_last. destruct (last l) as [y|]; [|done].
  intros ->%new_arrival_Ok. by intros [= <-].
Qed.

(** C4: No mail is lost behind a page that claims to cover a mailbox: whatever
    is in the mailbox then or at any later time, after the cursor the page
    started from, is on the page or has a sequence above the coverage, where
    the next page starts. *)
Theorem coverage_sound cf claims team q clock p p0 p' server g c id m :
  mail_reachable p → rtc mail_step p p' →
  list_team_messages cf claims team q clock p = Ok (p0, (ToServer server, g)) → pg_coverage g = Some c →
  live_mail p' team server id m → (lq_after q < ms_sequence m)%Z →
  (id, m) ∈ (pg_rows g).*1 ∨ (ar_through c < ms_sequence m)%Z.
Proof.
  intros Hreach Hs Hr Hc Hlive Hafter. pose proof (reachable_ok _ Hreach) as Hok.
  assert (mail_ok p') as Hok' by (apply reachable_ok; unfold mail_reachable in *; by etrans).
  destruct (list_Ok _ _ _ _ _ _ _ _ _ Hr) as (Hlimit & r & owned & _ & _ & _ & Hg).
  destruct (page_of_Ok _ _ _ _ _ _ Hlimit Hg) as (rest & latest & Hrows & Hmore & Hne & Hlat & Hcov).
  destruct (with_coverage_Ok _ _ _ _ _ _ Hcov) as (_ & _ & Hcase). destruct latest as [latest|]; [|congruence].
  destruct Hcase as (c' & Hcc & Hc'). rewrite Hc' in Hc. injection Hc as ->.
  destruct (coverage_latest_Ok _ _ _ _ _ Hlat) as (Hbox & Hun & Hfrom & Hsince & Hlatest).
  pose proof (latest_bound _ _ _ _ Hok Hlatest) as Hbound.
  assert (∀ x, last (pg_rows g).*1 = Some x → messages p !! x.1 = Some x.2) as Hlastrow.
  { intros [i y] Hlast%last_elem. apply (elem_of_page_rows p team q (ToServer server)).
    rewrite Hrows. apply elem_of_app. by left. }
  pose proof (coverage_through _ _ _ _ _ _ Hcc) as Hthrough.
  destruct (live_before p p' team server id m Hok' (steps_post_le _ _ Hs) Hlive) as [Hlive0|Hnew].
  - assert ((id, m) ∈ page_rows p team q (ToServer server)) as Hin by by apply live_on_page.
    pose proof Hin as Hin'. rewrite Hrows in Hin'. apply elem_of_app in Hin' as [|Hrest]; [by left|right].
    destruct (pg_more g) eqn:Emore; [|rewrite (proj1 Hmore eq_refl) in Hrest; by apply elem_of_nil in Hrest].
    assert (∃ x, last (pg_rows g).*1 = Some x) as [x Hlast].
    { destruct (last (pg_rows g).*1) eqn:E; [by eexists|]. rewrite last_None in E. apply fmap_nil_inv in E.
      destruct Hne; [|done]. intros ->. by apply elem_of_nil in Hrest. }
    rewrite (coverage_more _ _ _ _ _ _ Hcc Hlast).
    by apply (page_rows_split p team q (ToServer server) (pg_rows g).*1 rest x (id, m)).
  - right. destruct Hthrough as [->|[_ (x & Hlast & ->)]]; [lia|].
    pose proof (mo_sequence _ (ok_messages _ Hok) _ _ (Hlastrow _ Hlast)). lia.
Qed.
End pages.
