(* ===== verification/TeamSafe.v ===== *)
(** * Team mail: what holds of every run

    The methods refine the allowed changes; watermarks are exact; only who
    posted a message revises it; a state of a mailbox is replaced once; deleted
    mail is gone; and nobody is shown the mail of another. *)
From S2P Require Import Prelude.
From S2P Require Import PyValues.
From S2P Require Import Json.
From S2P Require Import Transactions.
From S2P Require Import HubTokens.
From S2P Require Import HubTables.
From S2P Require Import HubAuth.
From S2P Require Import HubServers.
From S2P Require Import HubSessions.
From S2P Require Import HubOrder.
From S2P Require Import HubRuns.
From S2P Require Import TeamText.
From S2P Require Import TeamTables.
From S2P Require Import TeamAccess.
From S2P Require Import TeamSend.
From S2P Require Import TeamMail.
From S2P Require Import TeamChanges.
From S2P Require Import TeamSteps.
From S2P Require Import TeamState.
From S2P Require Import TeamRuns.
From S2P Require Import TeamPages.

Open Scope string_scope.

Section safe.
Context `{HubCrypto}.

(** C10: The mail refines its abstract specification: whatever a run does to the
    tables is a sequence of the changes [mail_change] allows, and nothing that
    happened goes back: messages, revisions, deletions and answers stay, a copy
    is only added with its message, receipts, dismissals and versions of
    mailbox states only move forward. *)
Theorem mail_refines_changes p p' : rtc mail_step p p' → mail_changes p p' ∧ post_le p p'.
Proof. intros Hs. split; [by apply steps_mail_changes|by apply steps_post_le]. Qed.

(** C12: The watermark of a server's mailbox is exact and does not go back: it
    is the sequence and the id of the last message with a copy for the server,
    there is none exactly while there is no such message, and later ones are
    not smaller. *)
Theorem watermarks_exact p p' team node : mail_reachable p → rtc mail_step p p' →
  match arrivals p !! (team, node) with
  | Some (n, id) =>
      (∃ m, in_mailbox p team node id m ∧ ms_sequence m = n)
      ∧ (∀ id' m', in_mailbox p team node id' m' → (ms_sequence m' <= n)%Z)
      ∧ ∃ n' id', arrivals p' !! (team, node) = Some (n', id') ∧ (n <= n')%Z
  | None => ∀ id m, ¬ in_mailbox p team node id m
  end.
Proof.
  intros Hok%reachable_ok Hs. destruct (ok_arrivals _ Hok team node) as [H1 H2].
  destruct (arrivals p !! (team, node)) as [[n id]|] eqn:E.
  - split_and!; [by apply H1| |by apply (le_arrivals _ _ (steps_post_le _ _ Hs) _ _ id)].
    intros id' m' Hm. destruct (H2 _ _ Hm) as (n0 & i0 & [= <- <-] & Hle). done.
  - intros id m Hm. by destruct (H2 _ _ Hm) as (n0 & i0 & ? & _).
Qed.

(** C20: Only who posted a message revises it, and its history has no gaps: each
    revision is of a message that is there, by the person, or by a session of
    the server, that posted it; the versions are 2, 3, ... up to the current
    one, at most 200, each once; and no revision changes afterwards. *)
Theorem only_poster_revises p p' : mail_reachable p → rtc mail_step p p' →
  (∀ k r, revisions p !! k = Some r → revisions p' !! k = Some r
     ∧ ∃ m, team_message p (rv_team r) (rv_message r) = Some m ∧ same_author m r ∧ ms_kind m = KMessage)
  ∧ (∀ id v, (2 <= v <= message_version p id)%Z ↔
       ∃ k r, revisions p !! k = Some r ∧ rv_message r = id ∧ rv_version r = v)
  ∧ (∀ id, (1 <= message_version p id <= MAX_TEAM_MESSAGE_REVISIONS)%Z)
  ∧ unique_by (λ r, (rv_message r, rv_version r)) (revisions p).
Proof.
  intros Hok%reachable_ok Hs. destruct (ok_revisions _ Hok) as [Hrow Hu Hall]. split_and!; [| | |done].
  - intros k r Hk. split.
    + by destruct (le_revisions _ _ (steps_post_le _ _ Hs) _ _ Hk) as (? & ? & <-).
    + destruct (Hrow _ _ Hk) as (m & Hm & Hkind & Hauth & _). by exists m.
  - intros id v. split; [apply Hall|]. intros (k & r & Hk & <- & <-). split; [|by eapply message_version_ge].
    by destruct (Hrow _ _ Hk) as (_ & _ & _ & _ & ? & _).
  - intros id. split; [apply message_version_one|]. destruct (message_version_row p id) as [->|(k & r & Hk & _ & <-)]; [done|].
    by destruct (Hrow _ _ Hk) as (_ & _ & _ & _ & _ & ?).
Qed.

(** ** Deletion *)

Lemma is_deleted_stays p p' team id : post_le p p' → is_deleted p team id = true → is_deleted p' team id = true.
Proof.
  intros Hle Hd. destruct (is_deleted p' team id) eqn:E; [done|]. by rewrite (is_deleted_le _ _ _ _ Hle E) in Hd.
Qed.

Lemma get_Ok cf claims team id a b d clock p p' v : get_team_message cf claims team id a b d clock p = Ok (p', v) →
  ∃ m r owned, team_message p team id = Some m ∧ is_deleted p team id = false
    ∧ require_network_scope claims team false clock (accounts p) = Ok (accounts p, r)
    ∧ team_owned_addresses cf claims team (mb_role r) (accounts p) = Ok (accounts p, owned)
    ∧ was_visible p claims id m owned = true.
Proof.
  intros Hr. unfold get_team_message in Hr. apply tx_bind_Ok in Hr as (p1 & r & Hs & Hr).
  apply on_accounts_reads in Hs as [-> Hs]; [|apply reads_scope]. apply tx_bind_Ok in Hr as (p1 & row & [-> ->]%ask_Ok & Hr).
  destruct (is_deleted p team id) eqn:Hd; [done|]. destruct (team_message p team id) as [m|] eqn:Hm; [|done].
  apply tx_bind_Ok in Hr as (p1 & owned & Ho & Hr). apply on_accounts_reads in Ho as [-> Ho]; [|apply reads_owned].
  apply tx_bind_Ok in Hr as (p1 & q & [-> ->]%ask_Ok & Hr). apply tx_bind_Ok in Hr as (p1 & [] & [Hv ->]%guard_not_Ok & _).
  apply negb_false_iff, andb_true_iff in Hv as [_ Hv]. by exists m, r, owned.
Qed.

Lemma delete_Ok cf claims team id q now clock random p p' v :
  delete_team_message cf claims team id q now clock random p = Ok (p', v) → p' = p ∨ is_deleted p' team id = true.
Proof.
  intros Hr. unfold delete_team_message in Hr. cbv zeta in Hr. apply tx_bind_Ok in Hr as (p1 & key & [-> _]%pure_Ok & Hr).
  apply tx_bind_Ok in Hr as (p1 & r & Hs & Hr). apply on_accounts_reads in Hs as [-> _]; [|apply reads_scope].
  apply tx_bind_Ok in Hr as (p1 & cached & Hl & Hr). apply (reads_lookup _ _ _ _ _) in Hl. cbn in Hl. subst p1.
  destruct cached; [left; by apply ret_Ok in Hr as [-> _]|right].
  apply tx_bind_Ok in Hr as (p1 & row & [-> ->]%ask_Ok & Hr). destruct (team_message p team id) as [m|]; [|done].
  apply tx_bind_Ok in Hr as (p1 & [] & Hm & Hr). apply reads_may_delete in Hm. cbn in Hm. subst p1.
  apply tx_bind_Ok in Hr as (p1 & row & [-> ->]%ask_Ok & Hr). destruct (find_row _ (deletions p)) as [[k d]|] eqn:Ef.
  - apply (is_deleted_stays p).
    + apply changes_post_le. match type of Hr with ?m p = _ => assert (mails m) as Hmails by mails_tac end. by eapply Hmails.
    + unfold is_deleted, exists_row. by rewrite Ef.
  - apply tx_bind_Ok in Hr as (p1 & [] & Hi & Hr). apply (is_deleted_stays p1).
    + apply changes_post_le. match type of Hr with ?m _ = _ => assert (mails m) as Hmails by mails_tac end. by eapply Hmails.
    + unfold insert_deletion in Hi. apply tx_bind_Ok in Hi as (p2 & n & [-> ->]%ask_Ok & Hi).
      apply tx_bind_Ok in Hi as (p2 & [] & (Hk & _ & ->)%insert_into_Ok & Hi).
      apply tx_bind_Ok in Hi as (p2 & [] & ->%modify_Ok & Hi).
      match type of Hi with ?m ?q = _ => assert (mails m) as Hmails by mails_tac; apply (is_deleted_stays q) end.
      * apply changes_post_le. by eapply Hmails.
      * unfold is_deleted. apply exists_row_true. eexists _, _. cbn. rewrite lookup_insert_eq. split; [done|]. cbn.
        by rewrite !String.eqb_refl.
Qed.

Lemma receipt_Ok cf claims team id q now clock random p p' v :
  record_team_message_receipt cf claims team id q now clock random p = Ok (p', v) → is_deleted p team id = false.
Proof.
  intros Hr. unfold record_team_message_receipt in Hr. apply tx_bind_Ok in Hr as (p1 & s & [-> _]%pure_Ok & Hr). cbv zeta in Hr.
  apply tx_bind_Ok in Hr as (p1 & [] & [_ ->]%guard_not_Ok & Hr). apply tx_bind_Ok in Hr as (p1 & key & [-> _]%pure_Ok & Hr).
  apply tx_bind_Ok in Hr as (p1 & r & Hs & Hr). apply on_accounts_reads in Hs as [-> _]; [|apply reads_scope].
  apply tx_bind_Ok in Hr as (p1 & d & [-> ->]%ask_Ok & Hr). by apply tx_bind_Ok in Hr as (p1 & [] & [Hd ->]%guard_not_Ok & Hr).
Qed.

(** A revision that takes effect is of a message that is not deleted. *)
Lemma revise_Ok cf claims team id q subject now clock random p p' v :
  revise_team_message cf claims team id q subject now clock random p = Ok (p', v) → p' = p ∨ is_deleted p team id = false.
Proof.
  intros Hr. unfold revise_team_message in Hr. cbv zeta in Hr.
  do 3 apply tx_bind_Ok in Hr as (? & ? & [-> _]%pure_Ok & Hr). apply on_error_Ok in Hr.
  apply tx_bind_Ok in Hr as (p1 & r & Hs & Hr). apply on_accounts_reads in Hs as [-> _]; [|apply reads_scope].
  apply tx_bind_Ok in Hr as (p1 & cached & Hl & Hr). apply (reads_lookup _ _ _ _ _) in Hl. cbn in Hl. subst p1.
  apply tx_bind_Ok in Hr as (p1 & response & Hin & Hr).
  apply tx_bind_Ok in Hr as (p2 & q2 & [-> ->]%ask_Ok & [-> _]%ret_Ok). destruct cached.
  - left. by apply ret_Ok in Hin as [-> _].
  - right. apply tx_bind_Ok in Hin as (p2 & row & [-> ->]%ask_Ok & Hin). by destruct (is_deleted p team id).
Qed.

(** C19: What is deleted is gone for good: once a deletion took effect, the
    message is not returned by itself nor on any page, to anyone, and neither a
    revision nor a receipt of it is accepted any more, except as the answer to
    a key that was already used, which changes nothing. *)
Theorem deleted_mail_gone cf claims team id q now clock random p p1 p2 v :
  delete_team_message cf claims team id q now clock random p = Ok (p1, v) → p1 ≠ p → rtc mail_step p1 p2 →
  (∀ cf' claims' a b c clock' p3 r, get_team_message cf' claims' team id a b c clock' p2 ≠ Ok (p3, r))
  ∧ (∀ cf' claims' q' clock' p3 a g, list_team_messages cf' claims' team q' clock' p2 = Ok (p3, (a, g)) →
       id ∉ (pg_rows g).*1.*1)
  ∧ (∀ cf' claims' q' now' clock' random' p3 r,
       record_team_message_receipt cf' claims' team id q' now' clock' random' p2 ≠ Ok (p3, r))
  ∧ (∀ cf' claims' q' subject now' clock' random' p3 r,
       revise_team_message cf' claims' team id q' subject now' clock' random' p2 = Ok (p3, r) → p3 = p2).
Proof.
  intros Hr Hne Hs. destruct (delete_Ok _ _ _ _ _ _ _ _ _ _ _ Hr) as [|Hd]; [done|].
  apply (is_deleted_stays _ p2) in Hd; [|by apply steps_post_le]. split_and!.
  - intros * (m & _ & _ & _ & E & _)%get_Ok. congruence.
  - intros * Hl Hin. destruct (list_Ok _ _ _ _ _ _ _ _ _ Hl) as (Hlimit & r0 & owned & _ & _ & _ & Hg).
    destruct (page_of_Ok _ _ _ _ _ _ Hlimit Hg) as (rest & latest & Hrows & _).
    apply list_elem_of_fmap in Hin as ([j m] & -> & Hin).
    assert ((j, m) ∈ page_rows p2 team q' a) as [_ Hp]%elem_of_page_rows by (rewrite Hrows; apply elem_of_app; by left).
    unfold on_page in Hp. cbn in Hd. rewrite Hd in Hp. cbn in Hp. by rewrite !andb_false_r in Hp.
  - intros * E%receipt_Ok. congruence.
  - intros * [E|E]%revise_Ok; [done|congruence].
Qed.

(** ** The state of a mailbox *)

(** What a request to set the state expects. *)
Definition expected_version (q : list (string * pyval)) : option Z :=
  match items_get q "expected_version" with PInt n => Some n | _ => None end.

Lemma copy_at_Some p team id a k c : copy_at p team id a = Some (k, c) →
  copies p !! k = Some c ∧ cp_team c = team ∧ cp_message c = id ∧ cp_to c = a.
Proof.
  unfold copy_at. intros Hc. destruct (filter _ _) as [|x l] eqn:E; [done|]. injection Hc as ->.
  assert ((k, c) ∈ filter (λ kc : string * copy, cp_to kc.2 = a) (message_recipients p team id)) as Hin by (rewrite E; left).
  apply list_elem_of_filter in Hin as [Hto Hin]. unfold message_recipients in Hin. rewrite merge_sort_Permutation in Hin.
  apply list_elem_of_filter in Hin as [HP Hin%elem_of_map_to_list]. cbn in *.
  apply andb_true_iff in HP as [H1%String.eqb_eq H2%String.eqb_eq]. done.
Qed.

Lemma mailbox_state_Ok cf claims team id q now clock random p p' v :
  set_team_message_mailbox_state cf claims team id q now clock random p = Ok (p', v) → p' = p ∨
  ∃ a k c c', request_address q = Some a ∧ copy_at p team id a = Some (k, c) ∧ expected_version q = Some (cp_version c)
    ∧ copies p' !! k = Some c' ∧ (cp_version c < cp_version c')%Z.
Proof.
  intros Hr. unfold set_team_message_mailbox_state in Hr. apply tx_bind_Ok in Hr as (p1 & [[a unread] expected] & [-> Hq]%pure_Ok & Hr).
  assert (request_address q = Some a ∧ expected_version q = Some expected) as [Ha He].
  { unfold expected_version. destruct (request_address q) as [[n| |]|]; [|done..].
    destruct (items_get q "unread"); try done. destruct (items_get q "expected_version"); try done.
    apply res_bind_Ok in Hq as ([] & _ & [= <- <- <-]). done. }
  apply tx_bind_Ok in Hr as (p1 & key & [-> _]%pure_Ok & Hr). cbv zeta in Hr.
  apply tx_bind_Ok in Hr as (p1 & r & Hs & Hr). apply on_accounts_reads in Hs as [-> _]; [|apply reads_scope].
  apply tx_bind_Ok in Hr as (p1 & owned & Ho & Hr). apply on_accounts_reads in Ho as [-> _]; [|apply reads_owned].
  apply tx_bind_Ok in Hr as (p1 & [] & [_ ->]%guard_not_Ok & Hr). apply tx_bind_Ok in Hr as (p1 & live & [-> ->]%ask_Ok & Hr).
  apply tx_bind_Ok in Hr as (p1 & row & [-> ->]%ask_Ok & Hr).
  match type of Hr with match (if ?b then _ else None) with _ => _ end _ = _ => destruct b; [|done] end.
  destruct (copy_at p team id a) as [[k c]|] eqn:Ec; [|done]. destruct (is_null (cp_dismissed c)); [|done].
  apply tx_bind_Ok in Hr as (p1 & cached & Hl & Hr). apply (reads_lookup _ _ _ _ _) in Hl. cbn in Hl. subst p1.
  destruct cached; [left; by apply ret_Ok in Hr as [-> _]|right].
  apply tx_bind_Ok in Hr as (p1 & [] & [Hv%negb_false_iff%Z.eqb_eq ->]%guard_not_Ok & Hr).
  apply tx_bind_Ok in Hr as (p1 & n & (-> & _ & _)%update_rows_Ok & Hr).
  destruct (copy_at_Some _ _ _ _ _ _ Ec) as [Hk _].
  match type of Hr with ?m ?x = _ => assert (mails m) as Hmails; [|specialize (Hmails _ _ _ Hr)] end.
  { mails_tac. all: apply mails_copies; intros []; cbn; split_and!; done || lia. }
  apply changes_post_le in Hmails. exists a, k, c.
  destruct (le_copies _ _ Hmails k (c {{ cp_unread := Some unread; cp_version := (cp_version c + 1)%Z }})) as (c' & Hc' & Hle).
  { cbn. rewrite updated_rows_lookup, Hk. cbn. by rewrite String.eqb_refl. }
  exists c'. destruct Hle as (_ & _ & _ & _ & _ & Hle). cbn in Hle. split_and!; [done|done|by rewrite Hv|done|lia].
Qed.

(** C21: The state of a mailbox entry is replaced at most once for each version:
    of two calls that expect the same version of the same copy, whoever makes
    them and whatever happens in between, the second changes nothing. *)
Theorem mailbox_state_once cf cf' claims claims' team id q q' now now' clock clock' random random' p p1 p2 p3 v v' :
  mail_reachable p → set_team_message_mailbox_state cf claims team id q now clock random p = Ok (p1, v) → p1 ≠ p →
  rtc mail_step p1 p2 → request_address q' = request_address q → expected_version q' = expected_version q →
  set_team_message_mailbox_state cf' claims' team id q' now' clock' random' p2 = Ok (p3, v') → p3 = p2.
Proof.
  intros Hreach Hr Hne Hs Ha He Hr'.
  destruct (mailbox_state_Ok _ _ _ _ _ _ _ _ _ _ _ Hr) as [|(a & k & c & c1 & Ea & Hc & Ee & Hc1 & Hlt)]; [done|].
  destruct (mailbox_state_Ok _ _ _ _ _ _ _ _ _ _ _ Hr') as [|(a' & k' & c' & c2 & Ea' & Hc' & Ee' & _)]; [done|exfalso].
  assert (mail_ok p2) as Hok.
  { eapply changes_ok; [by apply steps_mail_changes|]. eapply changes_ok; [by eapply mails_mailbox_state|]. by apply reachable_ok. }
  rewrite Ha, Ea in Ea'. injection Ea' as <-. rewrite He, Ee in Ee'. injection Ee' as Ev.
  apply copy_at_Some in Hc as (Hk & Et & Ei & Eto). apply copy_at_Some in Hc' as (Hk' & Et' & Ei' & Eto').
  assert (table_le copy_le (copies p) (copies p1)) as Hle1 by (by apply le_copies, changes_post_le; eapply mails_mailbox_state).
  destruct (Hle1 _ _ Hk) as (c1' & Hc1' & (E1 & _)). rewrite Hc1 in Hc1'. injection Hc1' as <-.
  destruct (le_copies _ _ (steps_post_le _ _ Hs) _ _ Hc1) as (c3 & Hc3 & (E3 & _ & _ & _ & _ & Hv)).
  assert (k' = k) as ->.
  { apply (co_unique _ (ok_copies _ Hok) k' k c' c3 Hk' Hc3). injection E1 as _ E1 E1'. injection E3 as _ E3 E3'. congruence. }
  rewrite Hk' in Hc3. injection Hc3 as <-. lia.
Qed.

(** ** Who sees what *)

(** The server a session speaks for: the one its peer is bound to, or the host. *)
Definition own_server (cf : config) (claims : access_claims) (team : string) (h : hub) (node : string) : Prop :=
  ∃ n, nodes h !! node = Some n ∧ nd_team n = team ∧ nd_status n = NodeActive ∧
  if String.eqb (cl_kind claims) "secure_peer"
  then ∃ peer b, cl_peer claims = Some peer ∧ peers h !! peer = Some b ∧ pb_node b = node ∧ pb_team b = team
                 ∧ pb_service b = cl_principal claims ∧ pb_active b = true
  else cf_identity cf = Some (nd_server n).

Lemma caller_own cf claims team h h' node : caller_network_node cf claims team h = Ok (h', node) →
  own_server cf claims team h node.
Proof.
  unfold caller_network_node, own_server. destruct (String.eqb (cl_kind claims) "secure_peer") eqn:Ek; intros Hr.
  - unfold bound_network_node in Hr. rewrite Ek in Hr. destruct (cl_peer claims) as [peer|]; [|done].
    apply tx_bind_Ok in Hr as (h1 & row & [-> ->]%ask_Ok & Hr). destruct (peers h !! peer) as [b|] eqn:Hb; [|done].
    destruct (_ && pb_active b) eqn:E; [|done]. destruct (nodes h !! pb_node b) as [n|] eqn:Hn; [|done].
    destruct (_ && bool_decide _) eqn:E2; [|done]. apply ret_Ok in Hr as [_ ->].
    apply andb_true_iff in E as [[Et%String.eqb_eq Es%String.eqb_eq]%andb_true_iff Eb].
    apply andb_true_iff in E2 as [En%String.eqb_eq Ea%bool_decide_eq_true].
    exists n. split_and!; [done..|]. by exists peer, b.
  - apply tx_bind_Ok in Hr as (h1 & r & Hrole & Hr). apply on_error_Ok in Hrole. apply reads_team_role in Hrole. cbn in Hrole. subst h1.
    destruct (cf_identity cf) as [identity|]; [|done]. apply tx_bind_Ok in Hr as (h1 & row & [-> ->]%ask_Ok & Hr).
    destruct (find_row _ _) as [[k n]|] eqn:Ef; [|done]. apply ret_Ok in Hr as [_ ->]. apply find_row_Some in Ef as [Hn HP].
    apply andb_true_iff in HP as [[[E1%String.eqb_eq E2%String.eqb_eq]%andb_true_iff E3%bool_decide_eq_true]%andb_true_iff _].
    exists n. split_and!; [done..|congruence].
Qed.

Lemma owned_own cf claims team r h h' owned a : team_owned_addresses cf claims team r h = Ok (h', owned) → a ∈ owned →
  a = ToHuman (cl_principal claims) ∧ is_automation claims = false ∨ ∃ node, a = ToServer node ∧ own_server cf claims team h node.
Proof.
  intros Hr Ha. unfold team_owned_addresses in Hr. destruct (is_automation claims) eqn:Eauto; [|destruct (bool_decide _)].
  - apply tx_bind_Ok in Hr as (h1 & node & Hn%caller_own & [_ ->]%ret_Ok). apply list_elem_of_singleton in Ha as ->.
    right. by exists node.
  - destruct (caller_network_node cf claims team h) as [[h1 node]|e] eqn:En.
    + injection Hr as _ <-. apply caller_own in En. apply elem_of_cons in Ha as [->|Ha]; [by left|].
      apply list_elem_of_singleton in Ha as ->. right. by exists node.
    + repeat case_match; simplify_eq. apply list_elem_of_singleton in Ha as ->. by left.
  - apply ret_Ok in Hr as [_ ->]. apply list_elem_of_singleton in Ha as ->. by left.
Qed.

(** The caller is an addressee of the message or its sender. *)
Definition party_to (cf : config) (claims : access_claims) (p : post) (id : string) (m : message) : Prop :=
  ms_node m = None ∧ ms_sender m = cl_principal claims
  ∨ (∃ node, ms_node m = Some node ∧ own_server cf claims (ms_team m) (accounts p) node)
  ∨ ∃ k c, copies p !! k = Some c ∧ cp_message c = id ∧
      (cp_to c = ToAll ∨ cp_to c = ToHuman (cl_principal claims)
       ∨ ∃ node, cp_to c = ToServer node ∧ own_server cf claims (ms_team m) (accounts p) node).

Lemma was_visible_party cf claims r h' p id m owned :
  team_owned_addresses cf claims (ms_team m) r (accounts p) = Ok (h', owned) →
  was_visible p claims id m owned = true → party_to cf claims p id m.
Proof.
  intros Ho Hv. unfold was_visible in Hv. apply orb_true_iff in Hv as [Hv|Hv].
  - destruct (ms_node m) as [node|] eqn:En.
    + right; left. exists node. split; [done|]. apply bool_decide_eq_true in Hv.
      destruct (owned_own _ _ _ _ _ _ _ _ Ho Hv) as [[? _]|(n & [= <-] & ?)]; [done|done].
    + left. split; [done|]. by apply String.eqb_eq.
  - right; right. apply existsb_exists in Hv as ([k c] & Hin%list_elem_of_In & Hto). cbn in Hto.
    apply list_elem_of_filter in Hin as [HP Hin%elem_of_map_to_list]. cbn in *.
    apply andb_true_iff in HP as [_ Hm%String.eqb_eq]. exists k, c. split_and!; [done..|].
    apply orb_true_iff in Hto as [Hto%bool_decide_eq_true|Hto%bool_decide_eq_true]; [by left|right].
    destruct (owned_own _ _ _ _ _ _ _ _ Ho Hto) as [[? _]|?]; [by left|by right].
Qed.

Lemma scope_session claims team write clock h h' r : require_network_scope claims team write clock h = Ok (h', r) →
  is_Some (session_of claims clock h).
Proof.
  unfold require_network_scope, require_session. intros Hr. apply tx_bind_Ok in Hr as (h1 & s & Hs & _).
  apply tx_bind_Ok in Hs as (h2 & row & [-> ->]%ask_Ok & Hs). destruct (session_of claims clock h); [by eexists|done].
Qed.

Lemma inbox_page_owned claims q owned p p' a : lq_box q = "inbox" → page_address claims q owned p = Ok (p', a) → a ∈ owned.
Proof.
  intros Hbox. unfold page_address. rewrite Hbox. cbn. destruct (inbox_address q owned) as [b|] eqn:E; [|done].
  intros [_ ->]%ret_Ok. unfold inbox_address in E. destruct (lq_kind q) as [kind|], (lq_id q) as [id|]; try done.
  - destruct (address_of kind id) as [c|]; [|done]. destruct (bool_decide (c ∈ owned)) eqn:Ec; [|done].
    injection E as <-. by apply bool_decide_eq_true in Ec.
  - destruct owned; [done|]. injection E as <-. left.
Qed.

Lemma inbox_row p team q a id m : lq_box q = "inbox" → on_page p team q a id m = true →
  ms_team m = team ∧ is_deleted p team id = false
  ∧ ∃ k c, copies p !! k = Some c ∧ cp_message c = id ∧ cp_to c = a ∧ cp_dismissed c = None.
Proof.
  intros Hbox Hp. unfold on_page in Hp. rewrite Hbox in Hp. cbn in Hp. rewrite !andb_true_iff, negb_true_iff in Hp.
  destruct Hp as [[[[[Ht _] Hd] Hin] _] _]. split_and!; [by apply String.eqb_eq|done|].
  unfold in_inbox in Hin. apply exists_row_true in Hin as (k & c & Hk & HP). rewrite !andb_true_iff in HP.
  destruct HP as [[[Hm Hto] Hdis] _]. exists k, c. split_and!; [done|by apply String.eqb_eq|by apply bool_decide_eq_true in Hto|].
  by destruct (cp_dismissed c).
Qed.

(** C13: Nobody reads the mail of another: a message is only returned to a
    session that is live, whose account or server sent it, or got a copy of it,
    or if it was posted to the whole team; and a page of an inbox only shows
    what has a copy, not dismissed, at an address of the caller: its account,
    the server its peer is bound to, or the host. *)
Theorem mail_stays_private cf claims team clock p p' :
  (∀ id a b c v, get_team_message cf claims team id a b c clock p = Ok (p', v) →
     is_Some (session_of claims clock (accounts p)) ∧
     ∃ m, team_message p team id = Some m ∧ is_deleted p team id = false ∧ party_to cf claims p id m)
  ∧ (∀ q a g, list_team_messages cf claims team q clock p = Ok (p', (a, g)) → lq_box q = "inbox" →
     is_Some (session_of claims clock (accounts p)) ∧
     (a = ToHuman (cl_principal claims) ∨ ∃ node, a = ToServer node ∧ own_server cf claims team (accounts p) node)
     ∧ ∀ id m, (id, m) ∈ (pg_rows g).*1 → team_message p team id = Some m ∧ is_deleted p team id = false
       ∧ ∃ k c, copies p !! k = Some c ∧ cp_message c = id ∧ cp_to c = a ∧ cp_dismissed c = None).
Proof.
  split.
  - intros * (m & r & owned & Hm & Hd & Hs & Ho & Hv)%get_Ok. split; [by eapply scope_session|]. exists m. split_and!; [done..|].
    pose proof Hm as [_ Ht]%team_message_Some. subst team. by eapply was_visible_party.
  - intros * Hl Hbox. destruct (list_Ok _ _ _ _ _ _ _ _ _ Hl) as (Hlimit & r & owned & Hs & Ho & Ha & Hg).
    split; [by eapply scope_session|]. split.
    + apply inbox_page_owned in Ha; [|done]. destruct (owned_own _ _ _ _ _ _ _ _ Ho Ha) as [[? _]|?]; [by left|by right].
    + intros id m Hin. destruct (page_of_Ok _ _ _ _ _ _ Hlimit Hg) as (rest & latest & Hrows & _).
      assert ((id, m) ∈ page_rows p team q a) as [Hm Hp]%elem_of_page_rows by (rewrite Hrows; apply elem_of_app; by left).
      apply inbox_row in Hp as (Ht & Hd & Hc); [|done]. by rewrite team_message_Some.
Qed.
End safe.
