(* ===== verification/TeamWitness.v ===== *)
(** * Team mail: a run

    On the hub of [HubSafe] a server is paired; the owner posts to the team
    and writes to the server, which reads its inbox, marks what it has seen and
    answers; the post is revised and deleted. *)
From S2P Require Import Prelude.
From S2P Require Import PyValues.
From S2P Require Import Json.
From S2P Require Import HubTokens.
From S2P Require Import Transactions.
From S2P Require Import HubTables.
From S2P Require Import HubAuth.
From S2P Require Import HubServers.
From S2P Require Import HubSessions.
From S2P Require Import HubAdmin.
From S2P Require Import HubOrder.
From S2P Require Import HubRuns.
From S2P Require Import HubSafe.
From S2P Require Import TeamText.
From S2P Require Import TeamTables.
From S2P Require Import TeamAccess.
From S2P Require Import TeamSend.
From S2P Require Import TeamMail.
From S2P Require Import TeamChanges.
From S2P Require Import TeamState.
From S2P Require Import TeamRuns.
From S2P Require Import TeamOnce.
From S2P Require Import TeamPages.
From S2P Require Import TeamSafe.
Open Scope string_scope.

#[local] Existing Instance toy_crypto.

(** ** The accounts *)

Definition peer1 : string := "01234567-89ab-4def-8123-456789abcdef".
Definition peer_principal1 : string := Eval vm_compute in result_or "" (peer_principal_id peer1).
Definition hub9 : hub :=
  perform cfg (Heartbeat peer1 team1) 1092 (rnd "h")
    (perform cfg (EnsurePeer peer1 "server-identity-2" team1 "Laptop") 1090 (rnd "p") hub3).

(** The session of the paired server. *)
Definition peer_claims : access_claims :=
  mkClaims peer_principal1 ("secure_peer_session_" +:+ peer1) "jti-peer" 9000 "secure_peer" (Some team1) TEAMSPACE_SCOPES
    (Some peer1).
Definition node1 : string := Eval vm_compute in
  result_or "" (snd <$> (caller_network_node cfg peer_claims team1 hub9)).

Definition post0 : post := no_post {{ accounts := hub9 }}.

(** ** The mail *)

(** Random bytes of the call [k], a hexadecimal digit; ids of messages are those
    of [uuid4().hex]. *)
Definition mail_rnd (k : string) (i : nat) : string :=
  if (i =? 0)%nat then "0123456789abcdef0123456789abcde" +:+ k else rnd ("mail-" +:+ k) i.
Definition mail_id (k : string) : string := new_id "tmsg" (mail_rnd k 0).

Definition request (key : string) (rest : list (string * pyval)) : list (string * pyval) :=
  ("idempotency_key", PStr ("idempotency-key-" +:+ key)) :: rest.
Definition mail_to (key : string) (recipients : list (string * pyval)) (body : string) : list (string * pyval) :=
  request key [("kind", PStr "message"); ("title", PStr "News"); ("body", PStr body); ("body_format", PStr "plain");
    ("recipients", PList [PDict recipients])].

(** What the call [c] leaves at [1100] and later. *)
Definition mail_at (c : mail_call) (now : Z) (k : string) : post → post := perform_mail cfg c now now (mail_rnd k).

Definition bulletin_call : mail_call := CreateMessage ann_claims team1 (mail_to "1" [("kind", PStr "all")] "Hello all").
Definition post1 : post := mail_at bulletin_call 1100 "1" post0.
Definition letter_call : mail_call :=
  CreateMessage ann_claims team1 (mail_to "2" [("kind", PStr "server"); ("id", PStr node1)] "Hello server").
Definition post2 : post := mail_at letter_call 1110 "2" post1.
Definition letter2_call : mail_call :=
  CreateMessage ann_claims team1 (mail_to "3" [("kind", PStr "server"); ("id", PStr node1)] "Hello again").
Definition post3 : post := mail_at letter2_call 1120 "3" post2.

(** The post is revised. *)
Definition revision_call : mail_call :=
  ReviseMessage ann_claims team1 (mail_id "1")
    (request "4" [("body", PStr "Hello everyone"); ("body_format", PStr "plain"); ("expected_version", PInt 1)]) true.
Definition post4 : post := mail_at revision_call 1130 "4" post3.

(** The server has seen the first letter. *)
Definition seen (key : string) : list (string * pyval) :=
  request key [("address_kind", PStr "server"); ("address_id", PStr node1); ("unread", PBool false); ("expected_version", PInt 0)].
Definition seen_call : mail_call := SetMailboxState peer_claims team1 (mail_id "2") (seen "5").
Definition post5 : post := mail_at seen_call 1140 "5" post4.
Definition receipt_call : mail_call :=
  RecordReceipt peer_claims team1 (mail_id "3") (request "6" [("state", PStr "delivered")]).
Definition post6 : post := mail_at receipt_call 1150 "6" post5.

(** The post is deleted. *)
Definition deletion_call : mail_call := DeleteMessage ann_claims team1 (mail_id "1") (request "7" []).
Definition post7 : post := mail_at deletion_call 1160 "7" post6.

(** The inbox of the server, two letters, a page of one. *)
Definition inbox_query (after : Z) (id : option string) : list_query :=
  mkQuery "inbox" None None false None None after 1 false true true true id.

(** ** Every state is reached *)

Lemma mail_reach p c now k : mail_reachable p → mail_reachable (mail_at c now k p).
Proof. intros Hp. unfold mail_reachable in *. etrans; [exact Hp|]. apply rtc_once, by_mail. Qed.
Lemma mail_next p c now k : rtc mail_step p (mail_at c now k p).
Proof. apply rtc_once, by_mail. Qed.

Lemma reachable_post0 : mail_reachable post0.
Proof. apply hub_run. do 2 apply reach. exact reachable_hub3. Qed.
Lemma reachable_post4 : mail_reachable post4.
Proof. do 4 apply mail_reach. exact reachable_post0. Qed.
Lemma reachable_post5 : mail_reachable post5.
Proof. apply mail_reach, reachable_post4. Qed.
Lemma reachable_post6 : mail_reachable post6.
Proof. apply mail_reach, reachable_post5. Qed.

(** What a call that succeeded left and answered. *)
Definition call_answer (c : mail_call) (now : Z) (k : string) (p : post) : res pyval :=
  (run (answer_of cfg c now now (mail_rnd k)) p).2.
Lemma answered_eq c now k p : succeeds (call_answer c now k p) = true →
  answer_of cfg c now now (mail_rnd k) p = Ok (mail_at c now k p, result_or PNone (call_answer c now k p)).
Proof. apply run_eq. Qed.

Definition no_page : address * mail_page := (ToAll, mkPage [] false None).
Definition listed (claims : access_claims) (q : list_query) (p : post) : address * mail_page :=
  result_or no_page (run (list_team_messages cfg claims team1 q 1200) p).2.

Example mail_example :
  forallb succeeds [call_answer bulletin_call 1100 "1" post0; call_answer letter_call 1110 "2" post1;
    call_answer letter2_call 1120 "3" post2; call_answer revision_call 1130 "4" post3; call_answer seen_call 1140 "5" post4;
    call_answer receipt_call 1150 "6" post5; call_answer deletion_call 1160 "7" post6] = true
  ∧ (map (λ p, size (messages p)) [post0; post1; post2; post3; post7] = [0; 1; 2; 3; 3]%nat)
  ∧ message_version post4 (mail_id "1") = 2%Z
  ∧ arrivals post6 !! (team1, node1) = Some (3%Z, mail_id "3")
  ∧ (pg_rows (listed peer_claims (inbox_query 0 None) post6).2).*1.*1 = [mail_id "2"]
  ∧ (pg_rows (listed peer_claims (inbox_query 2 (Some (mail_id "2"))) post6).2).*1.*1 = [mail_id "3"]
  ∧ call_answer (SetMailboxState peer_claims team1 (mail_id "2") (seen "8")) 1170 "8" post6
    = Err (HubError "mailbox_state_conflict" "Mailbox state changed. Refresh the mailbox and try again." 409).
Proof. vm_compute. repeat split; reflexivity. Qed.

(** * Team mail: the theorems at concrete states

    The guarantees of the mail at the states of this run. *)
#[local] Existing Instance toy_crypto.

(** ** Tests on states *)

Definition no_message : message :=
  mkMessage 0 "" KMessage None "" "" "" "" None "" None None 0 0 "" 0 false None.
Definition message_at (p : post) (id : string) : message := default no_message (messages p !! id).

(** Whether the message is live in the mailbox of the node. *)
Definition is_live (p : post) (team node id : string) : bool :=
  match messages p !! id with
  | Some m => String.eqb (ms_team m) team && bool_decide (ms_kind m = KMessage) && negb (is_deleted p team id)
  | None => false
  end
  && exists_row (λ _ c, String.eqb (cp_team c) team && String.eqb (cp_message c) id && bool_decide (cp_to c = ToServer node)
                        && is_null (cp_dismissed c)) (copies p).

Lemma is_live_true p team node id : is_live p team node id = true → live_mail p team node id (message_at p id).
Proof.
  unfold is_live, live_mail, message_at. intros [Hm Hc]%andb_true_iff. destruct (messages p !! id) as [m|]; [|done].
  apply andb_true_iff in Hm as [[Ht%String.eqb_eq Hk%bool_decide_eq_true]%andb_true_iff Hd%negb_true_iff].
  apply exists_row_true in Hc as (k & c & Hk' & HP). rewrite !andb_true_iff in HP.
  destruct HP as [[[H1%String.eqb_eq H2%String.eqb_eq] H3%bool_decide_eq_true] H4]. split_and!; [done..|].
  exists k, c. split_and!; [done..|]. by destruct (cp_dismissed c).
Qed.

Lemma listed_eq claims q p : succeeds (run (list_team_messages cfg claims team1 q 1200) p).2 = true →
  list_team_messages cfg claims team1 q 1200 p =
  Ok ((run (list_team_messages cfg claims team1 q 1200) p).1, ((listed claims q p).1, (listed claims q p).2)).
Proof. intros Hs. rewrite <- surjective_pairing. by apply run_eq. Qed.

Lemma delete_eq claims id q now k p : succeeds (call_answer (DeleteMessage claims team1 id q) now k p) = true →
  delete_team_message cfg claims team1 id q now now (mail_rnd k) p =
  Ok (mail_at (DeleteMessage claims team1 id q) now k p, result_or PNone (call_answer (DeleteMessage claims team1 id q) now k p)).
Proof. exact (answered_eq (DeleteMessage claims team1 id q) now k p). Qed.
Lemma set_state_eq claims id q now k p : succeeds (call_answer (SetMailboxState claims team1 id q) now k p) = true →
  set_team_message_mailbox_state cfg claims team1 id q now now (mail_rnd k) p =
  Ok (mail_at (SetMailboxState claims team1 id q) now k p, result_or PNone (call_answer (SetMailboxState claims team1 id q) now k p)).
Proof. exact (answered_eq (SetMailboxState claims team1 id q) now k p). Qed.

Lemma post5_eq : post5 = mail_at (SetMailboxState peer_claims team1 (mail_id "2") (seen "5")) 1140 "5" post4.
Proof. unfold post5, seen_call. reflexivity. Qed.
Lemma post7_eq : post7 = mail_at (DeleteMessage ann_claims team1 (mail_id "1") (request "7" [])) 1160 "7" post6.
Proof. unfold post7, deletion_call. reflexivity. Qed.

Lemma counts_differ {A} (f : A → nat) (x y : A) : Nat.eqb (f x) (f y) = false → x ≠ y.
Proof. intros Hf ->. by rewrite Nat.eqb_refl in Hf. Qed.

(** ** The guarantees *)

Lemma mail_refines_changes_witness : mail_changes post4 post5 ∧ post_le post4 post5.
Proof. apply mail_refines_changes. exact (mail_next post4 seen_call 1140 "5"). Defined.

Lemma mail_call_once_witness :
  succeeds (call_answer letter_call 1110 "2" post1) = true ∧ succeeds (call_answer letter_call 1200 "9" post6) = true
  ∧ mail_at letter_call 1200 "9" post6 = post6.
Proof.
  assert (succeeds (call_answer letter_call 1110 "2" post1) = true) as H1 by (vm_compute; reflexivity).
  assert (succeeds (call_answer letter_call 1200 "9" post6) = true) as H2 by (vm_compute; reflexivity).
  split; [exact H1|split; [exact H2|]].
  apply (mail_call_once cfg cfg letter_call letter_call 1110 1200 1110 1200 (mail_rnd "2") (mail_rnd "9") post1 post2 post6 _
           (result_or PNone (call_answer letter_call 1110 "2" post1)) (result_or PNone (call_answer letter_call 1200 "9" post6))
           (answered_eq _ _ _ _ H1)).
  - do 3 (eapply rtc_r; [|apply by_mail]). apply rtc_once, by_mail.
  - reflexivity.
  - reflexivity.
  - exact (answered_eq _ _ _ _ H2).
Defined.


Lemma coverage_sound_witness :
  let g := (listed peer_claims (inbox_query 0 None) post5).2 in
  let c := default (mkArrival "" "" 0 None) (pg_coverage g) in
  live_mail post6 team1 node1 (mail_id "3") (message_at post6 (mail_id "3"))
  ∧ ((mail_id "3", message_at post6 (mail_id "3")) ∈ (pg_rows g).*1
     ∨ (ar_through c < ms_sequence (message_at post6 (mail_id "3")))%Z).
Proof.
  cbv zeta. assert (is_live post6 team1 node1 (mail_id "3") = true) as Hlive by (vm_compute; reflexivity).
  split; [exact (is_live_true _ _ _ _ Hlive)|].
  apply (coverage_sound cfg peer_claims team1 (inbox_query 0 None) 1200 post5
           (run (list_team_messages cfg peer_claims team1 (inbox_query 0 None) 1200) post5).1 post6 node1).
  - exact reachable_post5.
  - exact (mail_next post5 receipt_call 1150 "6").
  - assert ((listed peer_claims (inbox_query 0 None) post5).1 = ToServer node1) as <- by (vm_compute; reflexivity).
    apply listed_eq. vm_compute. reflexivity.
  - assert (negb (is_null (pg_coverage (listed peer_claims (inbox_query 0 None) post5).2)) = true) as Hc
      by (vm_compute; reflexivity).
    destruct (pg_coverage _); [reflexivity|discriminate Hc].
  - exact (is_live_true _ _ _ _ Hlive).
  - vm_compute. reflexivity.
Defined.

Lemma watermarks_exact_witness :
  match arrivals post5 !! (team1, node1) with
  | Some (n, id) =>
      (∃ m, in_mailbox post5 team1 node1 id m ∧ ms_sequence m = n)
      ∧ (∀ id' m', in_mailbox post5 team1 node1 id' m' → (ms_sequence m' <= n)%Z)
      ∧ ∃ n' id', arrivals post6 !! (team1, node1) = Some (n', id') ∧ (n <= n')%Z
  | None => ∀ id m, ¬ in_mailbox post5 team1 node1 id m
  end.
Proof. apply watermarks_exact; [exact reachable_post5|exact (mail_next post5 receipt_call 1150 "6")]. Defined.

Lemma only_poster_revises_witness :
  (∃ k r, revisions post5 !! k = Some r ∧ rv_message r = mail_id "1" ∧ rv_version r = 2%Z)
  ∧ (∀ k r, revisions post5 !! k = Some r → revisions post6 !! k = Some r
     ∧ ∃ m, team_message post5 (rv_team r) (rv_message r) = Some m ∧ same_author m r ∧ ms_kind m = KMessage).
Proof.
  destruct (only_poster_revises post5 post6 reachable_post5 (mail_next post5 receipt_call 1150 "6")) as (H1 & H2 & _).
  split; [|exact H1]. apply H2. vm_compute. split; discriminate.
Defined.

Lemma deleted_mail_gone_witness :
  succeeds (call_answer deletion_call 1160 "7" post6) = true ∧ post7 ≠ post6 ∧
  ∀ cf' claims' a b c clock' p3 r, get_team_message cf' claims' team1 (mail_id "1") a b c clock' post7 ≠ Ok (p3, r).
Proof.
  assert (succeeds (call_answer deletion_call 1160 "7" post6) = true) as H1 by (vm_compute; reflexivity).
  assert (post7 ≠ post6) as H2 by (apply (counts_differ (λ p, size (deletions p))); vm_compute; reflexivity).
  split; [exact H1|split; [exact H2|]].
  pose proof (delete_eq ann_claims (mail_id "1") (request "7" []) 1160 "7" post6 H1) as Hr.
  rewrite <- post7_eq in Hr.
  exact (proj1 (deleted_mail_gone cfg ann_claims team1 (mail_id "1") (request "7" []) 1160 1160 (mail_rnd "7") post6 post7 post7
    _ Hr H2 (rtc_refl _ _))).
Defined.

Lemma mailbox_state_once_witness :
  succeeds (call_answer seen_call 1140 "5" post4) = true ∧ post5 ≠ post4 ∧ mail_at seen_call 1180 "a" post6 = post6.
Proof.
  assert (succeeds (call_answer seen_call 1140 "5" post4) = true) as H1 by (vm_compute; reflexivity).
  assert (succeeds (call_answer seen_call 1180 "a" post6) = true) as H2 by (vm_compute; reflexivity).
  assert (post5 ≠ post4) as H3 by (apply (counts_differ (λ p, size (answers p))); vm_compute; reflexivity).
  split; [exact H1|split; [exact H3|]].
  pose proof (set_state_eq peer_claims (mail_id "2") (seen "5") 1140 "5" post4 H1) as Hr.
  rewrite <- post5_eq in Hr.
  pose proof (set_state_eq peer_claims (mail_id "2") (seen "5") 1180 "a" post6 H2) as Hr'.
  assert (mail_at seen_call 1180 "a" post6
          = mail_at (SetMailboxState peer_claims team1 (mail_id "2") (seen "5")) 1180 "a" post6) as -> by (unfold seen_call; reflexivity).
  revert Hr Hr'. generalize (result_or PNone (call_answer (SetMailboxState peer_claims team1 (mail_id "2") (seen "5")) 1140 "5" post4)).
  generalize (result_or PNone (call_answer (SetMailboxState peer_claims team1 (mail_id "2") (seen "5")) 1180 "a" post6)).
  intros v v' Hr Hr'.
  exact (mailbox_state_once cfg cfg peer_claims peer_claims team1 (mail_id "2") (seen "5") (seen "5") 1140 1180 1140 1180
    (mail_rnd "5") (mail_rnd "a") post4 post5 post6 _ v' v reachable_post4 Hr H3
    (mail_next post5 receipt_call 1150 "6") eq_refl eq_refl Hr').
Defined.

Lemma mail_stays_private_witness :
  (pg_rows (listed peer_claims (inbox_query 0 None) post6).2).*1.*1 = [mail_id "2"]
  ∧ ∀ id m, (id, m) ∈ (pg_rows (listed peer_claims (inbox_query 0 None) post6).2).*1 → team_message post6 team1 id = Some m ∧ is_deleted post6 team1 id = false
    ∧ ∃ k c, copies post6 !! k = Some c ∧ cp_message c = id ∧ cp_to c = (listed peer_claims (inbox_query 0 None) post6).1
             ∧ cp_dismissed c = None.
Proof.
  split; [vm_compute; reflexivity|].
  assert (succeeds (run (list_team_messages cfg peer_claims team1 (inbox_query 0 None) 1200) post6).2 = true) as H1
    by (vm_compute; reflexivity).
  exact (proj2 (proj2 (proj2 (mail_stays_private cfg peer_claims team1 1200 post6 _) _ _ _ (listed_eq _ _ _ H1) eq_refl))).
Defined.
